(* ===== verification/_CoqProject ===== *)
-Q . S2P
Prelude.v
AfpProtocol.v
Path.v
Utf8.v
Utils.v
UnicodeTable.v
Unicode.v
MacRoman.v
Codepage.v
Dates.v
ReplyBlock.v
Listing.v
Uams.v
Status.v
Url.v
World.v
DidCache.v
DidProofs.v
Identify.v
DsiQueue.v
ForkList.v
LowLevel.v
Quiet.v
Resource.v
Midlevel.v
Xattr.v
ReadOnly.v
Requests.v
Replies.v
Session.v
RepliesProofs.v
Pages.v
RequestsProofs.v
ForkFlush.v
ForkIO.v
OpenFork.v
Dsi.v
DsiFraming.v
DsiRefine.v
Local.v
Sidecar.v
Metadata.v
MetadataHandles.v
MetadataPlaces.v
SidecarProofs.v
MetadataProofs.v
AttrProofs.v
Attributes.v
Ipc.v
Daemon.v
Stateless.v
Link.v
Rpc.v
RpcProofs.v
RpcFiles.v
RpcOpen.v
DaemonProofs.v
Fuse.v
FuseProofs.v
Gcrypt.v
UamExchanges.v
UamProofs.v
UamSecrets.v
SrpProofs.v
UamBounds.v
CmdText.v
Shell.v
ShellFiles.v
ShellCopy.v
ShellSession.v
ShellTrace.v
ShellConfined.v
ShellHandles.v
ShellState.v
Servers.v
ServersProofs.v
ServersConnect.v
Sessions.v
SessionsProofs.v
