(* ===== verification/Prelude.v ===== *)
(** * A verification of the Netatalk Client's protocol library

    The Netatalk Client mounts and browses AFP file servers. Its library
    (src/lib) talks DSI over a socket and AFP inside DSI, and shows a volume
    of the server as files and folders; afpsld, the FUSE client and the
    command line client are front ends of it. This development models the
    library, from the bytes of a frame up to the operations the front ends
    call, and of the front ends afpsld with the library its clients link
    (src/daemon), the file system of the FUSE client (src/fuse) and the
    command line client (src/cmdline).

    ** The parts and their interaction

    A front end calls an operation of lib/midlevel.c (ml_open, ml_write,
    ml_rename, ...), which translates names of AppleDouble pseudo-files
    (lib/resource.c), converts the path (lib/codepage.c), asks lib/did.c for
    the directory's identifier, and goes to lib/lowlevel.c for reads, writes,
    opens and listings. Those send AFP requests (lib/proto_*.c) through
    lib/dsi.c and wait; the receiver thread of lib/loop.c reassembles the
    frames, finds the request and hands the reply to the handler of its
    command. Open forks are on the volume's list (lib/forklist.c), listings in
    growing arrays (lib/listing.c).

    afpsld (daemon/commands.c) runs these operations for its clients. A client
    calls afp_sl_* of daemon/stateless.c, which sends a request over a socket
    and reads the answer with the daemon's log behind it; daemon/metadata.c
    keeps Finder information, resource forks and attributes of local files and
    moves them to and from a volume. The callbacks of fuse/fuse_fs.c run the
    operations for the kernel; the commands of cmdline/cmdline_afp.c run the
    afp_sl_* calls for the lines a user types.

    A login goes through one of the methods of lib/uams_*.c, which exchange
    packets of proto_login.c and use libgcrypt. lib/afp.c keeps the list of
    servers with their references, connects them, attaches their volumes and
    recovers a lost connection; lib/server.c and lib/connect.c make a new one.

    The files follow that order, each with the source it models.

    Shared: [Prelude] (C integers, byte strings with sub and be_at, network
    order, the hint database and tactics), [AfpProtocol] (constants and errno
    values under their C names).

    Names: [Path] (path.c), [Utf8], [UnicodeTable], [Unicode] (unicode.c),
    [MacRoman] (mac_roman.h), [Codepage] (codepage.c),
    [Utils] (utils.c: Pascal strings, path blocks, name limits, log text,
    version names).

    Packets: [Dates] (the clock conversions of proto_server.c), [ReplyBlock]
    (proto_replyblock.c), [Uams] (uams_def.c, uams.c, map_def.c and the choice
    of a version and a method in afp.c), [Status] (the status reply of dsi.c),
    [Url] (afp_url.c), [Requests], [RequestsProofs] (the requests of
    proto_fork.c, proto_directory.c, proto_files.c, proto_attr.c,
    proto_desktop.c, proto_volume.c), [Replies], [RepliesProofs] (their reply
    handlers), [Session] (the requests and replies of proto_login.c,
    proto_session.c, proto_map.c, proto_server.c, the volume parameters, and
    the table of handlers in afp.c).

    Files and folders: [Listing] (listing.c and the identity mapping of
    users.c), [World] (the volume's state and the requests as an interface),
    [DidCache], [DidProofs] (did.c), [Identify] (identify.c),
    [ForkList], [ForkFlush] (forklist.c), [LowLevel], [OpenFork], [ForkIO],
    [Pages] (lowlevel.c), [Resource] (resource.c), [Midlevel], [Xattr]
    (midlevel.c), [Quiet], [ReadOnly] (which operations send what).

    Session: [DsiQueue] (the requests in flight, dsi.c), [Dsi], [DsiFraming],
    [DsiRefine] (the receiver of dsi.c and its caller in loop.c).

    Local metadata: [Local] (the system calls and a disk), [Sidecar] (the
    AppleDouble and attribute files of daemon/metadata.c), [Metadata] (the
    choice between them and the transfers), [MetadataHandles],
    [MetadataPlaces] (the files a transfer touches),
    [SidecarProofs], [MetadataProofs], [AttrProofs], [Attributes].

    Daemon: [Ipc] (stateless_ipc.h as bytes, the framing of commands.c and
    daemon_client.c, the client's log of daemon.c), [Daemon] (the handlers of
    commands.c), [Stateless] (the calls of stateless.c), [Link] (requests and
    answers in pieces), [Rpc] (the two processes joined), [RpcProofs],
    [RpcFiles], [RpcOpen] (what a call is by then), [DaemonProofs].

    FUSE: [Fuse], [FuseProofs] (fuse_fs.c).

    Logins: [Gcrypt] (what the methods use of libgcrypt, as an interface with
    its laws), [UamExchanges] (uams_clrtxt.c, uams_randnum.c, uams_dhx.c,
    uams_dhx2.c, uams_srp.c, uams.c), [UamProofs], [UamSecrets], [SrpProofs],
    [UamBounds].

    Command line: [CmdText] (the words, paths and codes of a line), [Shell]
    (the state, the calls and the programs over them), [ShellFiles],
    [ShellCopy] (the commands on files, trees and metadata), [ShellSession]
    (volumes, directories, passwords, the recovery and the batch transfer, and
    the table of commands and the loop of cmdline_main.c), [ShellTrace],
    [ShellConfined], [ShellHandles], [ShellState].

    Servers: [Servers] (the servers, volumes and connections of afp.c,
    server.c and connect.c, the descriptors and the disconnect of loop.c),
    [ServersProofs] (reconnections), [ServersConnect] (new connections),
    [Sessions] (the handlers of commands.c that
    work on them, for sessions and volumes), [SessionsProofs].

    ** How code becomes definitions

    A C integer is a [Z]; conversions and possible overflows are written out
    with u8, u16, u32, u64, i32 and i64. Byte strings are lists of [Z]. Pure
    functions are functions under their C names; a result through a pointer is
    part of the value. An allocation that may fail asks a parameter or the
    environment.

    The file operations are programs of the state monad [World.M]: the state
    is the volume's ([World.volume]: identifier cache, fork records on a heap,
    list of open forks, desktop reference) and an environment. Each request is
    a constructor of [World.cmd] with the type of its answer, and the class
    [World.Env] says what answers it; the clock, malloc and sleep are requests
    too. A theorem over every [Env] holds whatever the server does. [Logged]
    wraps an environment and records what was sent. Theorems that need a
    server that behaves state it as a class: [ForkIO.ForkServer] (keeps the
    bytes it acknowledges), [DidProofs.Still] (its folders stand still),
    [Pages.PageServer] (pages a folder); each has an instance in a witness.
    [Requests.packet] gives the bytes of each request of [cmd], and
    [Replies] what is read of the bytes that come back.

    The DSI queue is a step relation of any number of senders, the receiver,
    timeouts, failures and flushes over a heap of request records
    ([DsiQueue.step]); the receiver is a program of single reads ([Dsi.io])
    that is run against a stream cut into pieces while other threads change
    the queue between the pieces.

    The system of the local metadata is the class [Local.Os] in the same way:
    each system call is a command with an answer, and [Local.disk] is a disk
    that answers them. The daemon's handlers are programs over its state
    ([Daemon.D]) that run the operations of a volume; the library's calls are
    programs over a connection ([Stateless.K]) whose other end is a
    [Stateless.Peer]. [Rpc.link] makes the modelled daemon that peer, with
    schedules that cut every read on both sides, so a theorem about a call is
    about both processes. A structure in a packet is its bytes at its offsets
    on a 64-bit little-endian machine; a request is the memory behind its
    packet, so that a look past the packet is visible.

    A login is a program over the server, the random numbers and the
    allocator ([Gcrypt.Auth]) that fails as a value and says when it
    would write past a buffer; the ciphers and numbers are a parameter with
    the laws of [Gcrypt]. A command of the shell is a program over its
    variables ([Shell.shell]) and an environment that answers every call of
    the library, of the local system and of the terminal ([Shell.CmdEnv]); it
    has no result where its fuel ran out, and theorems about what was done
    then hold of that run, too.

    Servers are records on a heap with the list of them ([Servers.net]); their
    operations are programs whose calls of the network and of the login are
    answered by [Servers.NetEnv], which may change the servers as other
    threads do wherever the list's lock is not held. A program that follows a
    pointer to a freed server has no result. [ServersProofs.Considerate] and
    [ServersConnect.Alone] say what the other threads leave alone.

    ** What is shown

    Session: the receiver serves a stream of frames as its frames one after
    the other, however the stream is cut (frames_served), and keeps its place
    while requests disappear under it (receiver_keeps_framing); no thread
    reaches a freed request, none leaks, and an answer once given stays
    (queue_no_dangling, queue_no_leak, answer_kept); identifiers do not repeat
    (requestids_distinct).

    File operations: a read-only volume is sent no change by any operation but
    the two that do not look (readonly_sends_no_change); ll_write and ll_read report and
    return what the server holds (ll_write_spec, ll_read_spec), leave no lock
    (transfers_unlock) and end (transfer_loops_end); ll_open fills the
    record or leaves nothing behind (ll_open_spec); a dirty fork stays so until a flush
    is acknowledged (dirty_until_flushed); an unmount closes every fork once
    (remove_fork_list_spec); get_dirid is the walk from the root and ends
    (get_dirid_correct, get_dirid_terminates); forgetting a folder forgets
    what is beneath it and no more (forget_did_paths_spec); a listing is the
    whole folder (ll_readdir_complete).

    Packets: every request the file operations build reads back as its command
    and arguments (request_roundtrip); nothing behind a reply's packet has a
    part in what its handler answers (replies_bounded); a page of a listing extends the listing by
    its entries or leaves it (enumerate_reply_spec); a parameter block is read
    within its bounds and as it was laid out (parse_reply_block_bounded,
    parse_reply_block_roundtrip); dates survive (afp_date_roundtrip); a login
    uses the best version and method of a status reply (login_negotiated); a
    URL reads back as its parts (url_roundtrip).

    Names: what a server sends becomes one path component or is refused
    (convert_name_to_unix_safe); names survive the way there and back
    (mac_roman_name_roundtrip, UCS2decompose_precompose, utf8_roundtrip,
    mac_roman_bijection); the table search is exact (UCS2precompose_correct);
    buffers are kept to (decompose_string_bounded, sanitize_text_spec,
    afpc_path_join_spec).

    Local metadata: the files beside a local file are a store of its Finder
    information and resource fork (appledouble_store) and of its attributes
    (netatalk_attributes), and no operation leaves a file open
    (metadata_closes_files).

    Daemon: a call of the library is the operation it names, run by the daemon
    on that path or handle, whatever the pieces on the socket and the log
    (path_calls_transparent, open_call_transparent, read_call_transparent,
    write_call_transparent, stat_call_transparent); no handler looks past its
    packet (handlers_bounded).

    FUSE: the reads of an open folder deliver every name once
    (dir_stream_complete), and a read of a file its bytes (fuse_read_exact).

    Logins: a DHX2 and an SRP login agree with a server of the protocol on
    the key and get through (dhx2_login_agrees, srp_login_agrees); DHX2 does
    not depend on the password before the server has shown that it has the
    key (dhx2_password_guarded); the methods but SRP stay within their
    buffers (uams_in_bounds).

    Command line: a command on a tree changes nothing outside of it but the
    metadata kept beside its folder (tree_commands_confined); no file stays
    open (session_closes_files); the state is well formed through every session
    (session_well_formed); the recovery of a session gives a session or the old
    one back (recovery_outcome); a completed name is read as that name by the
    whole line (completion_roundtrip).

    Servers: a reconnection logs in only where it has seen the signature it
    remembers (reconnect_credentials); a new connection gives a listed,
    connected server without its password, or leaves the list as it was
    (connection_outcome). Of afpsld, every request of a
    session ends and leaves the listed servers with the list's reference only
    (session_commands_settled), and a resumption gets the one session it can
    mean or none (resume_unique).

    Some theorems tell where the code does not do what it means to:
    mac_roman_reverse_misplaced, unchecked_replies_read_past,
    getvols_reads_past, doubled_colon_no_end, session_token_refused, empty_message_is_the_last_one,
    move_again_ignores_errors, attribute_limit, empty_write_past_end,
    huge_read_overruns, refused_write_runs_data, failed_close_disconnects,
    srp_server_unproved, srp_long_part_strays, srp_zero_generator_endless.

    ** Bounds and fuel

    Loops over a list or a count recurse on it. The others take fuel, and a
    theorem says how much is enough: a round for each byte of a transfer
    (transfer_loops_end), two steps for each byte of a path and two more
    (get_dirid_terminates), a page for each entry and two more
    (ll_readdir_complete), four levels of decomposition, after which nothing
    decomposes (decompose_string_bounded), the length of the listing for the
    binary search (listing_holds_folder_spec). The search of a URL for its
    last single colon has a step more than the URL has bytes; without a doubled
    colon one step is enough, with one none is (doubled_colon_no_end). The operations pass that much;
    a listing's pages are an argument of the operations that list. A name of an
    attribute file is searched for its end in its 256 bytes, a resource fork is
    copied a chunk for each byte at most. The daemon reads a request in a step
    more than the schedule has entries, and a call of the library ends with any
    fuel above the length of its schedule (path_calls_transparent and the
    others). A read through FUSE has a round for each byte (fuse_read_exact);
    the mask of SRP a block for each byte; the draw of SRP's secret takes fuel
    and ends with the first secret whose public part is not 0, or never
    (srp_zero_generator_endless). The loops of the shell over a server's pages
    and bytes, its levels of folders and its prompts take fuel as an argument;
    what is shown of them holds of unfinished runs.

    ** Not modelled

    Sockets, select, signals, threads' creation and locks as such: what runs
    at once is a step relation or a change between two reads, and the
    operations of one volume are taken one at a time. The authentication
    methods' cryptography is libgcrypt's. The
    detection of an identity mapping, the daemon's status text and its
    handlers of icons, the library's calls for sessions, listings and the
    desktop, the mounting of volumes and the commands of the FUSE daemon (fuse/daemon.c, fuse/commands.c,
    fuse/client.c), what the command line client prints and completes, and
    src/discovery are not modelled;
    afp_mapid_reply cannot be, as it follows a pointer taken from the
    packet. *)
From Stdlib Require Export ZArith Lia.
From Stdlib Require Export (notations) String.
From Stdlib Require Ascii.
From stdpp Require Export base numbers option sets list list_numbers.

Open Scope Z_scope.

(** ** Scope, hint database and tactics of the development *)

Declare Scope afp_scope.
Delimit Scope afp_scope with afp.

Create HintDb afp.

(** Case analysis on every [if] of the goal or a hypothesis, with boolean
    comparisons turned into propositions. *)
Ltac bool_to_prop :=
  repeat match goal with
  | H : (_ =? _) = true |- _ => apply Z.eqb_eq in H
  | H : (_ =? _) = false |- _ => apply Z.eqb_neq in H
  | H : (_ <? _) = true |- _ => apply Z.ltb_lt in H
  | H : (_ <? _) = false |- _ => apply Z.ltb_ge in H
  | H : (_ <=? _) = true |- _ => apply Z.leb_le in H
  | H : (_ <=? _) = false |- _ => apply Z.leb_gt in H
  | H : (_ >? _) = true |- _ => rewrite Z.gtb_ltb in H; apply Z.ltb_lt in H
  | H : (_ >? _) = false |- _ => rewrite Z.gtb_ltb in H; apply Z.ltb_ge in H
  | H : (_ >=? _) = true |- _ => rewrite Z.geb_leb in H; apply Z.leb_le in H
  | H : (_ >=? _) = false |- _ => rewrite Z.geb_leb in H; apply Z.leb_gt in H
  | H : (_ && _)%bool = true |- _ => apply andb_prop in H as [? ?]
  | H : (_ || _)%bool = false |- _ => apply orb_false_elim in H as [? ?]
  | H : negb _ = true |- _ => apply negb_true_iff in H
  | H : negb _ = false |- _ => apply negb_false_iff in H
  end.

Ltac case_if :=
  match goal with
  | |- context [if ?b then _ else _] =>
      let E := fresh "E" in destruct b eqn:E
  | H : context [if ?b then _ else _] |- _ =>
      let E := fresh "E" in destruct b eqn:E
  end.

(** Case analysis on a disjunction that evaluates to true. *)
Tactic Notation "orb_case" ident(Q) :=
  match goal with
  | G : (_ || _)%bool = true |- _ => apply orb_prop in G; destruct G as [Q|Q]
  end.

Ltac bsplit := repeat case_if; bool_to_prop.

(** ** Machine integers

    A C integer is a [Z]; the width's wrap-around is written out where the
    code converts or can overflow. *)

Definition u8 (z : Z) : Z := z mod 2 ^ 8.
Definition u16 (z : Z) : Z := z mod 2 ^ 16.
Definition u32 (z : Z) : Z := z mod 2 ^ 32.
Definition u64 (z : Z) : Z := z mod 2 ^ 64.
Definition i32 (z : Z) : Z := (z + 2 ^ 31) mod 2 ^ 32 - 2 ^ 31.
Definition i64 (z : Z) : Z := (z + 2 ^ 63) mod 2 ^ 64 - 2 ^ 63.

Definition UINT8_MAX : Z := 255.
Definition UINT16_MAX : Z := 65535.
Definition UINT32_MAX : Z := 4294967295.
Definition INT16_MAX : Z := 32767.
Definition INT_MAX : Z := 2147483647.
Definition INT64_MAX : Z := 9223372036854775807.
Definition INT64_MIN : Z := -9223372036854775808.
Definition SIZE_MAX : Z := 18446744073709551615.

Lemma u8_small z : 0 <= z < 256 -> u8 z = z.
Proof. intros. apply Z.mod_small. lia. Qed.

Lemma u16_small z : 0 <= z < 65536 -> u16 z = z.
Proof. intros. apply Z.mod_small. lia. Qed.

Lemma u32_small z : 0 <= z < 4294967296 -> u32 z = z.
Proof. intros. apply Z.mod_small. lia. Qed.

Lemma u64_small z : 0 <= z < 18446744073709551616 -> u64 z = z.
Proof. intros. apply Z.mod_small. lia. Qed.

Lemma i32_small z : - 2 ^ 31 <= z < 2 ^ 31 -> i32 z = z.
Proof. intros. unfold i32. rewrite Z.mod_small; lia. Qed.

Lemma u8_range z : 0 <= u8 z < 256.
Proof. apply Z.mod_pos_bound. lia. Qed.

Lemma u16_range z : 0 <= u16 z < 65536.
Proof. apply Z.mod_pos_bound. lia. Qed.

Lemma u32_range z : 0 <= u32 z < 4294967296.
Proof. apply Z.mod_pos_bound. lia. Qed.

Lemma i32_range z : - 2 ^ 31 <= i32 z < 2 ^ 31.
Proof. unfold i32. pose proof (Z.mod_pos_bound (z + 2 ^ 31) (2 ^ 32)). lia. Qed.

#[export] Hint Resolve u8_range u16_range u32_range i32_range : afp.

(** Packing a field below another: no carry. *)
Lemma lor_shiftl_add a b n : 0 <= n -> 0 <= b < 2 ^ n -> Z.lor (Z.shiftl a n) b = a * 2 ^ n + b.
Proof.
  intros Hn Hb. rewrite Z.shiftl_mul_pow2, <- Z.add_nocarry_lor; [done| |done].
  apply Z.bits_inj'. intros m Hm. rewrite Z.land_spec, Z.bits_0.
  destruct (Z.ltb_spec m n) as [Hlt|Hge].
  - by rewrite Z.mul_pow2_bits_low by lia.
  - rewrite <- (Z.mod_small b (2 ^ n)) by done.
    by rewrite Z.mod_pow2_bits_high, andb_false_r by lia.
Qed.

(** A flag test [x & bit], for the single-bit and multi-bit masks alike. *)
Definition has (x bit : Z) : bool := negb (Z.land x bit =? 0).

(** ** Byte strings

    A buffer is a list of bytes, each a [Z] of [0, 256). A C string is the
    list of its bytes before the terminator. *)

Definition byte_ok (b : Z) : Prop := 0 <= b < 256.
Definition bytes_ok (l : list Z) : Prop := Forall byte_ok l.

#[export] Instance byte_ok_dec b : Decision (byte_ok b).
Proof. unfold byte_ok. apply _. Defined.

#[export] Instance bytes_ok_dec l : Decision (bytes_ok l).
Proof. unfold bytes_ok. apply _. Defined.

Definition zlen {A} (l : list A) : Z := Z.of_nat (length l).

(** [len] bytes from offset [off]. *)
Definition sub {A} (off len : Z) (l : list A) : list A :=
  take (Z.to_nat len) (drop (Z.to_nat off) l).

Definition zero_bytes (n : Z) : list Z := replicate (Z.to_nat n) 0.

(** The byte at an offset; 0 outside the buffer. *)
Definition byte_at (l : list Z) (i : Z) : Z :=
  if i <? 0 then 0 else default 0 (l !! Z.to_nat i).

(** The part of a buffer before its first NUL: what a C string function
    reads of it. *)
Fixpoint until_nul (l : list Z) : list Z :=
  match l with
  | [] => []
  | b :: r => if b =? 0 then [] else b :: until_nul r
  end.

Definition strlen (l : list Z) : Z := zlen (until_nul l).
Definition strnlen (l : list Z) (n : Z) : Z := zlen (until_nul (take (Z.to_nat n) l)).

Definition no_nul (l : list Z) : Prop := Forall (fun b => b <> 0) l.

#[export] Instance no_nul_dec l : Decision (no_nul l).
Proof. unfold no_nul. apply _. Defined.

(** Overwrite the bytes of a buffer from an offset. *)
Definition store {A} (l : list A) (off : Z) (bs : list A) : list A :=
  take (Z.to_nat off) l ++ bs ++ drop (Z.to_nat off + length bs) l.

(** ** Lemmas on byte strings *)

Lemma zlen_nonneg {A} (l : list A) : 0 <= zlen l.
Proof. unfold zlen. lia. Qed.
#[export] Hint Resolve zlen_nonneg : afp.

Lemma zlen_nil {A} : zlen (@nil A) = 0.
Proof. reflexivity. Qed.

Lemma zlen_cons {A} (x : A) l : zlen (x :: l) = 1 + zlen l.
Proof. unfold zlen. simpl. lia. Qed.

Lemma zlen_app {A} (l k : list A) : zlen (l ++ k) = zlen l + zlen k.
Proof. unfold zlen. rewrite length_app. lia. Qed.

Lemma zlen_take {A} n (l : list A) : zlen (take n l) = Z.min (Z.of_nat n) (zlen l).
Proof. unfold zlen. rewrite length_take. lia. Qed.

Lemma zlen_drop {A} n (l : list A) : zlen (drop n l) = Z.max 0 (zlen l - Z.of_nat n).
Proof. unfold zlen. rewrite length_drop. lia. Qed.

Lemma zlen_replicate {A} n (x : A) : zlen (replicate n x) = Z.of_nat n.
Proof. unfold zlen. by rewrite length_replicate. Qed.

Lemma zlen_map {A B} (f : A -> B) l : zlen (map f l) = zlen l.
Proof. unfold zlen. by rewrite length_map. Qed.

Lemma zlen_0_inv {A} (l : list A) : zlen l = 0 -> l = [].
Proof. destruct l; [done|]. rewrite zlen_cons. pose proof (zlen_nonneg l). lia. Qed.

Lemma zlen_sub {A} off len (l : list A) :
  0 <= off -> 0 <= len -> off + len <= zlen l -> zlen (sub off len l) = len.
Proof. intros. unfold sub. rewrite zlen_take, zlen_drop. lia. Qed.

Lemma zlen_sub_le {A} off n (l : list A) : 0 <= n -> zlen (sub off n l) <= n.
Proof. intros Hn. unfold sub. rewrite zlen_take. lia. Qed.

Lemma zlen_zero_bytes n : 0 <= n -> zlen (zero_bytes n) = n.
Proof. intros. unfold zero_bytes. rewrite zlen_replicate. lia. Qed.

Lemma take_app_zlen {A} (l k : list A) n : n = length l -> take n (l ++ k) = l.
Proof. intros ->. apply take_app_length. Qed.

Lemma drop_app_zlen {A} (l k : list A) n : n = length l -> drop n (l ++ k) = k.
Proof. intros ->. apply drop_app_length. Qed.

Lemma sub_app_l {A} off len (l k : list A) :
  0 <= off -> 0 <= len -> off + len <= zlen l -> sub off len (l ++ k) = sub off len l.
Proof.
  intros. unfold sub, zlen in *. rewrite drop_app_le by lia.
  apply take_app_le. rewrite length_drop. lia.
Qed.

Lemma sub_app_r {A} off len (l k : list A) :
  zlen l <= off -> sub off len (l ++ k) = sub (off - zlen l) len k.
Proof.
  intros. unfold sub, zlen in *. f_equal.
  rewrite drop_app_ge by lia. f_equal. lia.
Qed.

Lemma sub_all {A} len (l : list A) : len = zlen l -> sub 0 len l = l.
Proof. intros ->. unfold sub, zlen. rewrite Nat2Z.id. apply firstn_all. Qed.

Lemma sub_take_all {A} off len (l : list A) n :
  0 <= off -> 0 <= len -> off + len <= n -> sub off len (take (Z.to_nat n) l) = sub off len l.
Proof.
  intros. unfold sub. rewrite skipn_firstn_comm, firstn_firstn. f_equal. lia.
Qed.

Lemma bytes_ok_app l k : bytes_ok (l ++ k) <-> bytes_ok l /\ bytes_ok k.
Proof. apply Forall_app. Qed.

Lemma bytes_ok_take n l : bytes_ok l -> bytes_ok (take n l).
Proof. apply Forall_take. Qed.

Lemma bytes_ok_drop n l : bytes_ok l -> bytes_ok (drop n l).
Proof. apply Forall_drop. Qed.

Lemma bytes_ok_sub off len l : bytes_ok l -> bytes_ok (sub off len l).
Proof. intros. by apply bytes_ok_take, bytes_ok_drop. Qed.
#[export] Hint Resolve bytes_ok_take bytes_ok_drop bytes_ok_sub : afp.

Lemma byte_at_ok l i : bytes_ok l -> byte_ok (byte_at l i).
Proof.
  intros Hl. unfold byte_at. case_if; [unfold byte_ok; lia|].
  destruct (l !! Z.to_nat i) eqn:El; simpl; [|unfold byte_ok; lia].
  by eapply Forall_lookup_1 in El.
Qed.
#[export] Hint Resolve byte_at_ok : afp.

Lemma byte_at_app_l l k i : 0 <= i < zlen l -> byte_at (l ++ k) i = byte_at l i.
Proof.
  unfold byte_at, zlen. intros. case_if; [done|]. rewrite lookup_app_l by lia. done.
Qed.

Lemma byte_at_app_r l k i : zlen l <= i -> byte_at (l ++ k) i = byte_at k (i - zlen l).
Proof.
  unfold byte_at, zlen. intros. bsplit; try lia.
  rewrite lookup_app_r by lia. do 2 f_equal. lia.
Qed.

Lemma until_nul_no_nul l : no_nul (until_nul l).
Proof. induction l as [|b r IH]; simpl; [constructor|]. bsplit; by constructor. Qed.

Lemma until_nul_id l : no_nul l -> until_nul l = l.
Proof. induction 1 as [|b r Hb _ IH]; simpl; [done|]. bsplit; [lia|]. by rewrite IH. Qed.

Lemma until_nul_app_nul l k : no_nul l -> until_nul (l ++ 0 :: k) = l.
Proof. induction 1 as [|b r Hb _ IH]; simpl; [done|]. bsplit; [lia|]. by rewrite IH. Qed.

Lemma until_nul_le l : zlen (until_nul l) <= zlen l.
Proof.
  induction l as [|b r IH]; simpl; [done|]. case_if; rewrite ?zlen_cons; [|lia].
  pose proof (zlen_nonneg r). rewrite zlen_nil. lia.
Qed.

Lemma until_nul_bytes_ok l : bytes_ok l -> bytes_ok (until_nul l).
Proof. induction 1; simpl; [constructor|]. case_if; by constructor. Qed.
#[export] Hint Resolve until_nul_no_nul until_nul_bytes_ok : afp.

Lemma strlen_id l : no_nul l -> strlen l = zlen l.
Proof. intros. unfold strlen. by rewrite until_nul_id. Qed.

Lemma strnlen_id l n : no_nul l -> 0 <= n -> strnlen l n = Z.min n (zlen l).
Proof.
  intros Hl Hn. unfold strnlen. rewrite until_nul_id by by apply Forall_take.
  rewrite zlen_take. lia.
Qed.

(** ** Network byte order *)

(** The value of big-endian bytes: what ntohs, ntohl and ntoh64 read. *)
Fixpoint be_val (acc : Z) (bs : list Z) : Z :=
  match bs with
  | [] => acc
  | b :: r => be_val (acc * 256 + b) r
  end.

Definition be_get (bs : list Z) : Z := be_val 0 bs.

(** The [n] low-order bytes of a value, big-endian: htons, htonl, hton64. *)
Fixpoint be_put (n : nat) (v : Z) : list Z :=
  match n with
  | O => []
  | S k => (Z.shiftr v (8 * Z.of_nat k)) mod 256 :: be_put k v
  end.

(** The big-endian field of [len] bytes at an offset of a buffer. *)
Definition be_at (l : list Z) (off len : Z) : Z := be_get (sub off len l).

Lemma be_put_length n v : length (be_put n v) = n.
Proof. induction n; simpl; congruence. Qed.

Lemma zlen_be_put n v : zlen (be_put n v) = Z.of_nat n.
Proof. unfold zlen. by rewrite be_put_length. Qed.

Lemma be_put_ok n v : bytes_ok (be_put n v).
Proof.
  induction n; simpl; constructor; [|done]. unfold byte_ok. apply Z.mod_pos_bound. lia.
Qed.
#[export] Hint Resolve be_put_ok : afp.

Lemma be_val_acc acc bs : be_val acc bs = acc * 256 ^ zlen bs + be_get bs.
Proof.
  revert acc. unfold be_get. induction bs as [|b r IH]; intros acc; simpl.
  - rewrite zlen_nil. lia.
  - rewrite (IH (acc * 256 + b)), (IH (0 * 256 + b)), zlen_cons, Z.pow_add_r by (pose proof (zlen_nonneg r); lia). lia.
Qed.

Lemma be_get_cons b r : be_get (b :: r) = b * 256 ^ zlen r + be_get r.
Proof. unfold be_get at 1. simpl. by rewrite be_val_acc. Qed.

Lemma be_get_range bs : bytes_ok bs -> 0 <= be_get bs < 256 ^ zlen bs.
Proof.
  induction 1 as [|b r Hb _ IH]; [done|]. rewrite be_get_cons, zlen_cons.
  rewrite Z.pow_add_r by (pose proof (zlen_nonneg r); lia). unfold byte_ok in Hb. nia.
Qed.

Lemma be_get_put n v : be_get (be_put n v) = v mod 256 ^ Z.of_nat n.
Proof.
  induction n as [|n IH]; simpl be_put.
  - by rewrite Z.mod_1_r.
  - rewrite be_get_cons, zlen_be_put, IH, Z.shiftr_div_pow2 by lia.
    rewrite (Z.pow_mul_r 2 8) by lia. change (2 ^ 8) with 256.
    rewrite Nat2Z.inj_succ, Z.pow_succ_r by lia.
    rewrite (Z.mul_comm 256 (256 ^ _)), Z.rem_mul_r by lia. lia.
Qed.

Lemma be_get_put_small n v : 0 <= v < 256 ^ Z.of_nat n -> be_get (be_put n v) = v.
Proof. intros. rewrite be_get_put. by apply Z.mod_small. Qed.

Lemma be_put_get bs : bytes_ok bs -> be_put (length bs) (be_get bs) = bs.
Proof.
  intros Hbs.
  enough (G : forall k, 0 <= k -> be_put (length bs) (k * 256 ^ zlen bs + be_get bs) = bs).
  { specialize (G 0). rewrite Z.add_0_l in G. by apply G. }
  induction Hbs as [|b r Hb Hr IH]; [done|]. intros k Hk. simpl.
  rewrite be_get_cons, zlen_cons, Z.pow_add_r by (pose proof (zlen_nonneg r); lia).
  pose proof (be_get_range r Hr). unfold byte_ok in Hb. f_equal.
  - rewrite Z.shiftr_div_pow2, (Z.pow_mul_r 2 8) by lia. change (2 ^ 8) with 256.
    fold (zlen r).
    replace (k * (256 ^ 1 * 256 ^ zlen r) + (b * 256 ^ zlen r + be_get r))
      with ((k * 256 + b) * 256 ^ zlen r + be_get r) by lia.
    rewrite Z.div_add_l, Z.div_small, Z.add_0_r by lia.
    rewrite Z.add_comm, Z.mod_add by lia. by apply Z.mod_small.
  - replace (k * (256 ^ 1 * 256 ^ zlen r) + (b * 256 ^ zlen r + be_get r))
      with ((k * 256 + b) * 256 ^ zlen r + be_get r) by lia.
    apply IH. lia.
Qed.

Lemma be_at_range l off len :
  bytes_ok l -> 0 <= len -> 0 <= be_at l off len < 256 ^ len.
Proof.
  intros Hl Hlen. unfold be_at. pose proof (be_get_range _ (bytes_ok_sub off len l Hl)) as H.
  destruct H as [? H]. split; [done|]. eapply Z.lt_le_trans; [exact H|].
  apply Z.pow_le_mono_r; [lia|]. unfold sub. rewrite zlen_take. lia.
Qed.

(** ** Results

    A C function that answers a value or an error code. *)

Inductive res (A : Type) : Type :=
| Ok (a : A)
| Err (code : Z).
Arguments Ok {A} a.
Arguments Err {A} code.

Notation "'let?' x ':=' c 'in' k" :=
  (match c with Ok x => k | Err e => Err e end)
  (at level 10, x pattern, c at level 100, k at level 200) : afp_scope.
Open Scope afp_scope.

(** Characters of the source's literals. *)
Definition ch_slash : Z := 47.
Definition ch_colon : Z := 58.
Definition ch_nl : Z := 10.
Definition ch_cr : Z := 13.
Definition ch_tab : Z := 9.
Definition ch_backslash : Z := 92.

(** The bytes of a literal. *)
Definition str (s : String.string) : list Z :=
  map (fun c => Z.of_nat (Ascii.nat_of_ascii c)) (String.list_ascii_of_string s).
Arguments str s%_string_scope.

(** ** Exhaustive checks

    A boolean property of every value of a small range, by evaluation. *)
Fixpoint check_from (n : nat) (lo : Z) (P : Z -> bool) : bool :=
  match n with
  | O => true
  | S k => P lo && check_from k (lo + 1) P
  end.

Definition check_range (lo n : Z) (P : Z -> bool) : bool := check_from (Z.to_nat n) lo P.

Lemma check_range_spec lo n P :
  check_range lo n P = true -> forall x, lo <= x < lo + n -> P x = true.
Proof.
  unfold check_range. intros H x Hx.
  assert (G : forall k lo, check_from k lo P = true -> lo <= x < lo + Z.of_nat k -> P x = true).
  { clear. intros k. induction k as [|k IH]; simpl; intros lo H Hx; [lia|].
    bool_to_prop. destruct (Z.eq_dec x lo) as [->|]; [done|]. apply (IH (lo + 1)); [done|lia]. }
  apply (G _ _ H). lia.
Qed.

Fixpoint list_eqb (l k : list Z) : bool :=
  match l, k with
  | [], [] => true
  | x :: l', y :: k' => (x =? y) && list_eqb l' k'
  | _, _ => false
  end.

Lemma list_eqb_eq l k : list_eqb l k = true <-> l = k.
Proof.
  revert k. induction l as [|x l IH]; intros [|y k]; simpl; try (split; congruence).
  rewrite andb_true_iff, Z.eqb_eq, IH. split; [intros [-> ->]; done|]. intros E. by simplify_eq.
Qed.

Lemma list_eqb_refl l : list_eqb l l = true.
Proof. by apply list_eqb_eq. Qed.

#[global] Arguments be_put : simpl never.
#[global] Arguments be_get : simpl never.
#[global] Arguments be_at : simpl never.
#[global] Arguments byte_at : simpl never.
#[global] Arguments sub : simpl never.
#[global] Arguments zlen : simpl never.

(** ** Lemmas on stores and prefixes *)

Lemma zlen_store {A} (l : list A) off bs :
  0 <= off -> off + zlen bs <= zlen l -> zlen (store l off bs) = zlen l.
Proof. intros. unfold store, zlen in *. rewrite !length_app, length_take, length_drop. lia. Qed.

Lemma take_store {A} (l : list A) off bs :
  0 <= off <= zlen l -> take (Z.to_nat (off + zlen bs)) (store l off bs) = take (Z.to_nat off) l ++ bs.
Proof.
  intros. unfold store, zlen in *. rewrite app_assoc.
  apply take_app_zlen. rewrite length_app, length_take. lia.
Qed.

Lemma store_bytes_ok l off bs : bytes_ok l -> bytes_ok bs -> bytes_ok (store l off bs).
Proof.
  intros. unfold store. apply bytes_ok_app. split; [by apply bytes_ok_take|].
  apply bytes_ok_app. split; [done|]. by apply bytes_ok_drop.
Qed.
#[export] Hint Resolve store_bytes_ok : afp.

(** Two adjacent stores are one. *)
Lemma store_store {A} (l : list A) off bs cs :
  0 <= off -> off + zlen bs <= zlen l ->
  store (store l off bs) (off + zlen bs) cs = store l off (bs ++ cs).
Proof.
  intros. unfold store at 1. rewrite take_store by (unfold zlen in *; lia).
  unfold store, zlen in *. rewrite <- !app_assoc. do 3 f_equal.
  rewrite !drop_app_ge by (rewrite ?length_take, ?length_drop; lia).
  rewrite !length_take, drop_drop, length_app. f_equal. lia.
Qed.

(** A field inside a common prefix. *)
Lemma sub_prefix {A} n (l k : list A) off len :
  take (Z.to_nat n) l = take (Z.to_nat n) k -> 0 <= off -> 0 <= len -> off + len <= n ->
  sub off len l = sub off len k.
Proof.
  intros E H1 H2 H3. by rewrite <- (sub_take_all off len l n), E, sub_take_all.
Qed.

Lemma byte_at_sub l i : 0 <= i -> byte_at l i = default 0 (head (sub i 1 l)).
Proof.
  intros. unfold byte_at, sub. bsplit; [lia|]. change (Z.to_nat 1) with 1%nat.
  rewrite <- (Nat.add_0_r (Z.to_nat i)) at 1. rewrite <- lookup_drop.
  by destruct (drop (Z.to_nat i) l).
Qed.

Lemma byte_at_prefix n l k i :
  take (Z.to_nat n) l = take (Z.to_nat n) k -> 0 <= i < n -> byte_at l i = byte_at k i.
Proof. intros E Hi. rewrite !byte_at_sub by lia. by rewrite (sub_prefix n l k i 1) by (done || lia). Qed.

Lemma be_at_prefix n l k off len :
  take (Z.to_nat n) l = take (Z.to_nat n) k -> 0 <= off -> 0 <= len -> off + len <= n ->
  be_at l off len = be_at k off len.
Proof. intros. unfold be_at. by rewrite (sub_prefix n l k). Qed.

Lemma u64_add_l a b : u64 (u64 a + b) = u64 (a + b).
Proof. unfold u64. by rewrite Zplus_mod_idemp_l. Qed.

(** ** Searches in strings *)

(** strchr and strrchr from an offset: the offset of the character. *)
Fixpoint index_of (c : Z) (s : list Z) : option Z :=
  match s with
  | [] => None
  | x :: r => if x =? c then Some 0 else Z.succ <$> index_of c r
  end.

Definition strchr (s : list Z) (off c : Z) : option Z :=
  Z.add off <$> index_of c (drop (Z.to_nat off) s).

Fixpoint strrchr (s : list Z) (c : Z) : option Z :=
  match s with
  | [] => None
  | x :: r => match strrchr r c with
              | Some i => Some (i + 1)
              | None => if x =? c then Some 0 else None
              end
  end.

Lemma strrchr_none c s : Forall (fun b => b <> c) s -> strrchr s c = None.
Proof. induction 1 as [|x s Hx _ IH]; simpl; [done|]. rewrite IH. by rewrite (proj2 (Z.eqb_neq _ _)). Qed.

Lemma strrchr_nonneg s c i : strrchr s c = Some i -> 0 <= i.
Proof.
  revert i. induction s as [|b s IH]; intros i; simpl; [done|]. destruct (strrchr s c) as [j|].
  - intros [= <-]. specialize (IH j eq_refl). lia.
  - case_if; intros [= <-]. lia.
Qed.

Lemma strrchr_range s c i : strrchr s c = Some i -> 0 <= i < zlen s.
Proof.
  revert i. induction s as [|x s IH]; intros i; cbn [strrchr]; [done|]. rewrite zlen_cons. pose proof (zlen_nonneg s).
  destruct (strrchr s c) as [j|]; [intros [= <-]; specialize (IH j eq_refl); lia|]. destruct (x =? c); [|done]. intros [= <-]. lia.
Qed.

Lemma strrchr_app c pre s : Forall (fun b => b <> c) s -> strrchr (pre ++ c :: s) c = Some (zlen pre).
Proof.
  intros Hs. induction pre as [|x pre IH]; simpl.
  - by rewrite strrchr_none, Z.eqb_refl.
  - rewrite IH, zlen_cons. f_equal. lia.
Qed.
