(* ===== verification/AfpProtocol.v ===== *)
(** The protocol's constants: lib/afp_protocol.h, lib/dsi_protocol.h, lib/dsi.h,
    the sizes of include/netatalk-client/types.h, and the errno values the
    library answers with (the numbers of Linux). *)
From S2P Require Import Prelude.

(** ** errno *)
Definition EPERM : Z := 1.
Definition ENOENT : Z := 2.
Definition EINTR : Z := 4.
Definition EIO : Z := 5.
Definition EBADF : Z := 9.
Definition ENOMEM : Z := 12.
Definition EACCES : Z := 13.
Definition EBUSY : Z := 16.
Definition EEXIST : Z := 17.
Definition ENOTDIR : Z := 20.
Definition EISDIR : Z := 21.
Definition EINVAL : Z := 22.
Definition EMFILE : Z := 24.
Definition EFBIG : Z := 27.
Definition ENOSPC : Z := 28.
Definition E2BIG : Z := 7.
Definition EFAULT : Z := 14.
Definition ERANGE : Z := 34.
Definition ENOSYS : Z := 38.
Definition ENOTEMPTY : Z := 39.
Definition ENOATTR : Z := 61.
Definition EOPNOTSUPP : Z := 95.
Definition EROFS : Z := 30.
Definition ENAMETOOLONG : Z := 36.
Definition EOVERFLOW : Z := 75.
Definition ETIMEDOUT : Z := 110.

(** ** DSI (lib/dsi_protocol.h, lib/dsi.h) *)
Definition DSI_REQUEST : Z := 0.
Definition DSI_REPLY : Z := 1.
Definition DSI_DSICloseSession : Z := 1.
Definition DSI_DSICommand : Z := 2.
Definition DSI_DSIGetStatus : Z := 3.
Definition DSI_DSIOpenSession : Z := 4.
Definition DSI_DSITickle : Z := 5.
Definition DSI_DSIWrite : Z := 6.
Definition DSI_DSIAttention : Z := 8.
Definition kServerReplayCacheSize : Z := 2.
Definition DSI_BLOCK_TIMEOUT : Z := (-1).
Definition DSI_DONT_WAIT : Z := 0.
Definition DSI_DEFAULT_TIMEOUT : Z := 5.
Definition DSI_OPENVOLUME_TIMEOUT : Z := 20.
Definition DSI_LOGIN_TIMEOUT : Z := 20.
Definition DSI_TIMECAPSULE_DEFAULT_TIMEOUT : Z := 30.
Definition DSI_MAX_TRANSFER_WAIT : Z := 7 * 24 * 3600.
Definition GETSTATUS_BUF_SIZE : Z := 1024.

(** ** Sizes of include/netatalk-client/types.h *)
Definition AFPC_MAX_NAME_BYTES : Z := 255 * 4 + 1.
Definition AFPC_MAX_UTF8_PATH_BYTES : Z := UINT16_MAX.
Definition AFPC_PATH_UNBOUNDED : Z := SIZE_MAX.

(** ** AFP (lib/afp_protocol.h) *)
Definition AFP_SERVER_NAME_LEN : Z := 33.
Definition AFP_SERVER_NAME_UTF8_LEN : Z := 255.
Definition AFP_VOLUME_NAME_LEN : Z := 33.
Definition AFP_VOLUME_NAME_UTF8_LEN : Z := 255.
Definition AFP_MOUNTPOINT_LEN : Z := 255.
Definition AFP_SIGNATURE_LEN : Z := 16.
Definition AFP_MACHINETYPE_LEN : Z := 16.
Definition AFP_LOGINMESG_LEN : Z := 200.
Definition AFP_VOLPASS_LEN : Z := 8.
Definition AFP_HOSTNAME_LEN : Z := 255.
Definition AFP_ZONE_LEN : Z := 32.
Definition AFP_SERVER_ICON_LEN : Z := 256.
Definition AFP_MAX_USERNAME_LEN : Z := 127.
Definition AFP_MAX_PASSWORD_LEN : Z := 127.
Definition AFP_UAM_LENGTH : Z := 24.
Definition AFP_MAX_UTF8_NAME_CHARS : Z := 255.
Definition AFP_VOL_FLAT : Z := 1.
Definition AFP_VOL_FIXED : Z := 2.
Definition AFP_VOL_VARIABLE : Z := 3.
Definition AFP_ROOT_DID : Z := 2.
Definition kFPShortName : Z := 1.
Definition kFPLongName : Z := 2.
Definition kFPUTF8Name : Z := 3.
Definition AFP_FORKTYPE_DATA : Z := 0.
Definition AFP_FORKTYPE_RESOURCE : Z := 128.
Definition AFP_OPENFORK_ALLOWREAD : Z := 1.
Definition AFP_OPENFORK_ALLOWWRITE : Z := 2.
Definition AFP_OPENFORK_DENYREAD : Z := 16.
Definition AFP_OPENFORK_DENYWRITE : Z := 32.
Definition AFPMESG_LOGIN : Z := 0.
Definition AFPMESG_SERVER : Z := 1.
Definition AFP_GETSRVRMSG_UTF8 : Z := 2.
Definition AFP_GETSRVRMSG_GETMSG : Z := 1.
Definition AFP_MAX_VERSION_LENGTH : Z := 16.
Definition AFP_TOKEN_MAX_LEN : Z := 256.
Definition AFP_MAX_AFP2_FILESIZE : Z := 2147483647.
Definition kReadOnly : Z := 1.
Definition kHasVolumePassword : Z := 2.
Definition kSupportsFileIDs : Z := 4.
Definition kSupportsCatSearch : Z := 8.
Definition kSupportsBlankAccessPrivs : Z := 16.
Definition kSupportsUnixPrivs : Z := 32.
Definition kSupportsUTF8Names : Z := 64.
Definition kNoNetworkUserIDs : Z := 128.
Definition kDefaultPrivsFromParent : Z := 256.
Definition kNoExchangeFiles : Z := 512.
Definition kSupportsExtAttrs : Z := 1024.
Definition kSupportsACLs : Z := 2048.
Definition kCaseSensitive : Z := 4096.
Definition kSupportsTMLockSteal : Z := 8192.
Definition kFPSoftCreate : Z := 0.
Definition kFPHardCreate : Z := 128.
Definition kUserIsOwner : Z := 2147483648.
Definition kUserCanRead : Z := 33554432.
Definition kUserCanWrite : Z := 67108864.
Definition kFPAttributeBit : Z := 1.
Definition kFPParentDirIDBit : Z := 2.
Definition kFPCreateDateBit : Z := 4.
Definition kFPModDateBit : Z := 8.
Definition kFPBackupDateBit : Z := 16.
Definition kFPFinderInfoBit : Z := 32.
Definition kFPLongNameBit : Z := 64.
Definition kFPShortNameBit : Z := 128.
Definition kFPNodeIDBit : Z := 256.
Definition kFPOffspringCountBit : Z := 512.
Definition kFPOwnerIDBit : Z := 1024.
Definition kFPGroupIDBit : Z := 2048.
Definition kFPAccessRightsBit : Z := 4096.
Definition kFPProDOSInfoBit : Z := 8192.
Definition kFPUTF8NameBit : Z := 8192.
Definition kFPUnixPrivsBit : Z := 32768.
Definition kFPDataForkLenBit : Z := 512.
Definition kFPRsrcForkLenBit : Z := 1024.
Definition kFPExtDataForkLenBit : Z := 2048.
Definition kFPLaunchLimitBit : Z := 4096.
Definition kFPExtRsrcForkLenBit : Z := 16384.
Definition kXAttrNoFollow : Z := 1.
Definition kXAttrCreate : Z := 2.
Definition kXAttrReplace : Z := 4.
Definition afpByteRangeLock : Z := 1.
Definition afpCloseVol : Z := 2.
Definition afpCloseDir : Z := 3.
Definition afpCloseFork : Z := 4.
Definition afpCopyFile : Z := 5.
Definition afpCreateDir : Z := 6.
Definition afpCreateFile : Z := 7.
Definition afpDelete : Z := 8.
Definition afpEnumerate : Z := 9.
Definition afpFlush : Z := 10.
Definition afpFlushFork : Z := 11.
Definition afpGetForkParms : Z := 14.
Definition afpGetSrvrInfo : Z := 15.
Definition afpGetSrvrParms : Z := 16.
Definition afpGetVolParms : Z := 17.
Definition afpLogin : Z := 18.
Definition afpLoginCont : Z := 19.
Definition afpLogout : Z := 20.
Definition afpMapID : Z := 21.
Definition afpMapName : Z := 22.
Definition afpMoveAndRename : Z := 23.
Definition afpOpenVol : Z := 24.
Definition afpOpenDir : Z := 25.
Definition afpOpenFork : Z := 26.
Definition afpRead : Z := 27.
Definition afpRename : Z := 28.
Definition afpSetDirParms : Z := 29.
Definition afpSetFileParms : Z := 30.
Definition afpSetForkParms : Z := 31.
Definition afpSetVolParms : Z := 32.
Definition afpWrite : Z := 33.
Definition afpGetFileDirParms : Z := 34.
Definition afpSetFileDirParms : Z := 35.
Definition afpChangePassword : Z := 36.
Definition afpGetUserInfo : Z := 37.
Definition afpGetSrvrMsg : Z := 38.
Definition afpCreateID : Z := 39.
Definition afpDeleteID : Z := 40.
Definition afpResolveID : Z := 41.
Definition afpExchangeFiles : Z := 42.
Definition afpCatSearch : Z := 43.
Definition afpOpenDT : Z := 48.
Definition afpCloseDT : Z := 49.
Definition afpGetIcon : Z := 51.
Definition afpGetIconInfo : Z := 52.
Definition afpAddAPPL : Z := 53.
Definition afpRemoveAPPL : Z := 54.
Definition afpGetAPPL : Z := 55.
Definition afpAddComment : Z := 56.
Definition afpRemoveComment : Z := 57.
Definition afpGetComment : Z := 58.
Definition afpByteRangeLockExt : Z := 59.
Definition afpReadExt : Z := 60.
Definition afpWriteExt : Z := 61.
Definition afpGetAuthMethods : Z := 62.
Definition afpLoginExt : Z := 63.
Definition afpGetSessionToken : Z := 64.
Definition afpDisconnectOldSession : Z := 65.
Definition afpEnumerateExt : Z := 66.
Definition afpCatSearchExt : Z := 67.
Definition afpEnumerateExt2 : Z := 68.
Definition afpGetExtAttr : Z := 69.
Definition afpSetExtAttr : Z := 70.
Definition afpRemoveExtAttr : Z := 71.
Definition afpListExtAttrs : Z := 72.
Definition afpGetACL : Z := 73.
Definition afpSetACL : Z := 74.
Definition afpAccess : Z := 75.
Definition afpSpotlightRPC : Z := 76.
Definition afpSyncDir : Z := 78.
Definition afpSyncFork : Z := 79.
Definition afpZzzzz : Z := 122.
Definition afpAddIcon : Z := 192.
Definition kFPBadVolPre222Bitmap : Z := 65024.
Definition kFPBadVolBitmap : Z := 61440.
Definition kFPVolAttributeBit : Z := 1.
Definition kFPVolSignatureBit : Z := 2.
Definition kFPVolCreateDateBit : Z := 4.
Definition kFPVolModDateBit : Z := 8.
Definition kFPVolBackupDateBit : Z := 16.
Definition kFPVolIDBit : Z := 32.
Definition kFPVolBytesFreeBit : Z := 64.
Definition kFPVolBytesTotalBit : Z := 128.
Definition kFPVolNameBit : Z := 256.
Definition kFPVolExtBytesFreeBit : Z := 512.
Definition kFPVolExtBytesTotalBit : Z := 1024.
Definition kFPVolBlockSizeBit : Z := 2048.
Definition AFPATTN_SHUTDOWN : Z := 32768.
Definition AFPATTN_CRASH : Z := 16384.
Definition AFPATTN_MESG : Z := 8192.
Definition AFPATTN_NORECONNECT : Z := 4096.
Definition AFPATTN_VOLCHANGED : Z := 1.
Definition kFPNoErr : Z := 0.
Definition kFPNoMoreSessions : Z := (-1068).
Definition kASPSessClosed : Z := (-1072).
Definition kFPAccessDenied : Z := (-5000).
Definition kFPAuthContinue : Z := (-5001).
Definition kFPBadUAM : Z := (-5002).
Definition kFPBadVersNum : Z := (-5003).
Definition kFPBitmapErr : Z := (-5004).
Definition kFPCantMove : Z := (-5005).
Definition kFPDenyConflict : Z := (-5006).
Definition kFPDirNotEmpty : Z := (-5007).
Definition kFPDiskFull : Z := (-5008).
Definition kFPEOFErr : Z := (-5009).
Definition kFPFileBusy : Z := (-5010).
Definition kFPFlatVol : Z := (-5011).
Definition kFPItemNotFound : Z := (-5012).
Definition kFPLockErr : Z := (-5013).
Definition kFPMiscErr : Z := (-5014).
Definition kFPNoMoreLocks : Z := (-5015).
Definition kFPNoServer : Z := (-5016).
Definition kFPObjectExists : Z := (-5017).
Definition kFPObjectNotFound : Z := (-5018).
Definition kFPParamErr : Z := (-5019).
Definition kFPRangeNotLocked : Z := (-5020).
Definition kFPRangeOverlap : Z := (-5021).
Definition kFPSessClosed : Z := (-5022).
Definition kFPUserNotAuth : Z := (-5023).
Definition kFPCallNotSupported : Z := (-5024).
Definition kFPObjectTypeErr : Z := (-5025).
Definition kFPTooManyFilesOpen : Z := (-5026).
Definition kFPServerGoingDown : Z := (-5027).
Definition kFPCantRename : Z := (-5028).
Definition kFPDirNotFound : Z := (-5029).
Definition kFPIconTypeError : Z := (-5030).
Definition kFPVolLocked : Z := (-5031).
Definition kFPObjectLocked : Z := (-5032).
Definition kFPContainsSharedErr : Z := (-5033).
Definition kFPIDNotFound : Z := (-5034).
Definition kFPIDExists : Z := (-5035).
Definition kFPDiffVolErr : Z := (-5036).
Definition kFPCatalogChanged : Z := (-5037).
Definition kFPSameObjectErr : Z := (-5038).
Definition kFPBadIDErr : Z := (-5039).
Definition kFPPwdSameErr : Z := (-5040).
Definition kFPPwdTooShortErr : Z := (-5041).
Definition kFPPwdExpiredErr : Z := (-5042).
Definition kFPInsideSharedErr : Z := (-5043).
Definition kFPInsideTrashErr : Z := (-5044).
Definition kFPPwdNeedsChangeErr : Z := (-5045).
Definition kFPPwdPolicyErr : Z := (-5046).
Definition kFPDiskQuotaExceeded : Z := (-5047).
Definition ByteRangeLock_Lock : Z := 0.
Definition ByteRangeLock_Unlock : Z := 1.
Definition HasConfigInfo : Z := 1.
Definition HasPassword : Z := 128.
Definition kUserIDToName : Z := 1.
Definition kGroupIDToName : Z := 2.
Definition kUserIDToUTF8Name : Z := 3.
Definition kGroupIDToUTF8Name : Z := 4.
Definition kUserUUIDToUTF8Name : Z := 5.
Definition kGroupUUIDToUTF8Name : Z := 6.
Definition kNameToUserID : Z := 1.
Definition kNameToGroupID : Z := 2.
Definition kUTF8NameToUserID : Z := 3.
Definition kUTF8NameToGroupID : Z := 4.
Definition kUTF8NameToUserUUID : Z := 5.
Definition kUTF8NameToGroupUUID : Z := 6.
Definition kFPGetUserInfo_USER_ID : Z := 1.
Definition kFPGetUserInfo_PRI_GROUPID : Z := 2.
Definition kFPWriteInhibitBit : Z := 32.
Definition kFPRenameInhibitBit : Z := 128.
Definition kFPDeleteInhibitBit : Z := 256.
Definition kSupportsCopyfile : Z := 1.
Definition kSupportsChgPwd : Z := 2.
Definition kDontAllowSavePwd : Z := 4.
Definition kSupportsSrvrMsg : Z := 8.
Definition kSrvrSig : Z := 16.
Definition kSupportsTCP : Z := 32.
Definition kSupportsSrvrNotify : Z := 64.
Definition kSupportsReconnect : Z := 128.
Definition kSupportsDirServices : Z := 256.
Definition kSupportsUTF8SrvrName : Z := 512.
Definition kSupportsUUIDs : Z := 1024.
Definition kSupportsExtSleep : Z := 2048.
Definition kSupportsSuperClient : Z := 32768.
Definition kLoginWithoutID : Z := 0.
Definition kLoginWithID : Z := 1.
Definition kReconnWithID : Z := 2.
Definition kLoginWithTimeAndID : Z := 3.
Definition kReconnWithTimeAndID : Z := 4.
Definition kRecon1Login : Z := 5.
Definition kRecon1ReconnectLogin : Z := 6.
Definition kRecon1RefreshToken : Z := 7.
Definition kGetKerberosSessionKey : Z := 8.

(** The states of a connection (lib/afp_internal.h). *)
Definition SERVER_STATE_CONNECTED : Z := 1.
Definition SERVER_STATE_DISCONNECTED : Z := 2.
Definition SERVER_STATE_CONNECTING : Z := 3.
