(* ===== verification/Path.v ===== *)
(** lib/path.c: owned, NUL-terminated path strings.

    A [struct afpc_path] holds its bytes and their count. [alloc] says whether
    the allocator grants the call's request. *)
From S2P Require Import Prelude AfpProtocol.

Record afpc_path := mk_path { path_data : option (list Z); path_len : Z }.

Definition empty_path : afpc_path := mk_path None 0.

Definition afpc_path_validate (data : option (list Z)) (max_len : Z) : res Z :=
  match data with
  | None => Err (- EINVAL)
  | Some d =>
      if max_len =? AFPC_PATH_UNBOUNDED then Ok (strlen d)
      else
        let measured := strnlen d (max_len + 1) in
        if measured >? max_len then Err (- ENAMETOOLONG) else Ok measured
  end.

(** [path] is the pointee, [None] for a null pointer. *)
Definition afpc_path_clear (path : option afpc_path) : option afpc_path :=
  match path with
  | None => None
  | Some _ => Some empty_path
  end.

Definition afpc_path_set (alloc : bool) (path : option afpc_path)
    (data : option (list Z)) (max_len : Z) : Z * option afpc_path :=
  match path with
  | None => (- EINVAL, None)
  | Some _ =>
      match data with
      | None => (0, afpc_path_clear path)
      | Some d =>
          match afpc_path_validate data max_len with
          | Err e => (e, path)
          | Ok len =>
              if negb alloc then (- ENOMEM, path)
              else (0, Some (mk_path (Some (take (Z.to_nat len) d)) len))
          end
      end
  end.

Definition afpc_path_copy (alloc : bool) (dest : option afpc_path)
    (src : option afpc_path) (max_len : Z) : Z * option afpc_path :=
  match dest, src with
  | Some _, Some s => afpc_path_set alloc dest (path_data s) max_len
  | _, _ => (- EINVAL, dest)
  end.

(** The bytes of separator two parts of a path need. *)
Definition join_separator_len (parent : list Z) (parent_len name_len : Z) : Z :=
  if (parent_len >? 0) && negb (byte_at parent (parent_len - 1) =? ch_slash)
     && (name_len >? 0) then 1 else 0.

Definition afpc_path_join (alloc : bool) (dest : option afpc_path)
    (parent name : option (list Z)) (max_len : Z) : Z * option afpc_path :=
  match dest, parent, name with
  | Some _, Some p, Some n =>
      match afpc_path_validate parent max_len with
      | Err e => (e, dest)
      | Ok parent_len =>
      match afpc_path_validate name max_len with
      | Err e => (e, dest)
      | Ok name_len =>
          let separator_len := join_separator_len p parent_len name_len in
          if parent_len >? SIZE_MAX - separator_len then (- ENAMETOOLONG, dest) else
          let total_len := parent_len + separator_len in
          if total_len >? SIZE_MAX - name_len then (- ENAMETOOLONG, dest) else
          let total_len := total_len + name_len in
          if total_len =? SIZE_MAX then (- ENAMETOOLONG, dest) else
          if negb (max_len =? AFPC_PATH_UNBOUNDED) && (total_len >? max_len)
          then (- ENAMETOOLONG, dest) else
          if negb alloc then (- ENOMEM, dest) else
          let joined := take (Z.to_nat parent_len) p
                        ++ (if separator_len =? 0 then [] else [ch_slash])
                        ++ take (Z.to_nat name_len) n in
          (0, Some (mk_path (Some joined) total_len))
      end
      end
  | _, _, _ => (- EINVAL, dest)
  end.

(** ** Specification *)

(** A path of a component beneath a directory: one separator between two
    nonempty parts. *)
Definition join_ref (parent name : list Z) : list Z :=
  match last parent, name with
  | Some c, _ :: _ => if c =? ch_slash then parent ++ name else parent ++ [ch_slash] ++ name
  | _, _ => parent ++ name
  end.

(** A path object is well formed when its count is its string's. *)
Definition path_wf (p : afpc_path) : Prop :=
  match path_data p with
  | None => path_len p = 0
  | Some d => no_nul d /\ path_len p = zlen d
  end.

Lemma validate_spec d max_len :
  no_nul d -> 0 <= max_len ->
  afpc_path_validate (Some d) max_len =
    if (max_len =? SIZE_MAX) || (zlen d <=? max_len) then Ok (zlen d)
    else Err (- ENAMETOOLONG).
Proof.
  intros Hd Hm. unfold afpc_path_validate, AFPC_PATH_UNBOUNDED.
  rewrite strlen_id, strnlen_id by (done || lia). pose proof (zlen_nonneg d).
  bsplit; simpl; bsplit; try done; try (f_equal; lia); lia.
Qed.

Lemma byte_at_last p : p <> [] -> last p = Some (byte_at p (zlen p - 1)).
Proof.
  intros Hp. rewrite last_lookup. unfold byte_at, zlen.
  destruct p as [|b r]; [done|]. case_if; [bool_to_prop; simpl in *; lia|].
  replace (Z.to_nat _) with (length r) by (simpl; lia). simpl.
  destruct ((b :: r) !! length r) eqn:El; [done|].
  apply lookup_ge_None in El. simpl in El. lia.
Qed.

Lemma zlen_join_ref p n : zlen p + zlen n <= zlen (join_ref p n) <= zlen p + zlen n + 1.
Proof.
  unfold join_ref. destruct (last p), n; try case_if; rewrite !zlen_app, ?zlen_cons, ?zlen_nil; lia.
Qed.

Lemma no_nul_join_ref p n : no_nul p -> no_nul n -> no_nul (join_ref p n).
Proof.
  intros Hp Hn. unfold join_ref, no_nul in *.
  destruct (last p), n; try case_if; repeat (apply Forall_app; split);
    auto; repeat constructor; done.
Qed.

Lemma join_separator_range p pl nl : 0 <= join_separator_len p pl nl <= 1.
Proof. unfold join_separator_len. case_if; lia. Qed.

Lemma join_ref_separator p n :
  p ++ (if join_separator_len p (zlen p) (zlen n) =? 0 then [] else [ch_slash]) ++ n
  = join_ref p n.
Proof.
  unfold join_ref, join_separator_len. destruct p as [|b r]; [done|].
  rewrite byte_at_last by done.
  assert ((zlen (b :: r) >? 0) = true) as ->
    by (rewrite zlen_cons; pose proof (zlen_nonneg r); lia).
  destruct n as [|c m]; [by rewrite andb_false_r|].
  assert ((zlen (c :: m) >? 0) = true) as ->
    by (rewrite zlen_cons; pose proof (zlen_nonneg m); lia).
  simpl andb. rewrite andb_true_r. by destruct (byte_at _ _ =? ch_slash).
Qed.

Lemma zlen_join_separator p n :
  zlen (join_ref p n) = zlen p + join_separator_len p (zlen p) (zlen n) + zlen n.
Proof.
  rewrite <- join_ref_separator, !zlen_app. pose proof (join_separator_range p (zlen p) (zlen n)).
  case_if; bool_to_prop; rewrite ?zlen_cons, ?zlen_nil; lia.
Qed.

Lemma take_zlen {A} (l : list A) : take (Z.to_nat (zlen l)) l = l.
Proof. unfold zlen. rewrite Nat2Z.id. apply firstn_all. Qed.

(** Afpc_path_join() stores exactly the two parts with one separator
    where it is needed, counts the bytes, and refuses a result over the bound
    with the destination as it was. *)
Theorem afpc_path_join_spec dest p n max_len :
  no_nul p -> no_nul n -> 0 <= max_len <= SIZE_MAX ->
  zlen p + zlen n + 1 < SIZE_MAX ->
  afpc_path_join true (Some dest) (Some p) (Some n) max_len =
    let j := join_ref p n in
    if (max_len =? SIZE_MAX) || (zlen j <=? max_len)
    then (0, Some (mk_path (Some j) (zlen j)))
    else (- ENAMETOOLONG, Some dest).
Proof.
  intros Hp Hn Hm Hs. unfold afpc_path_join, AFPC_PATH_UNBOUNDED. cbv zeta.
  rewrite !validate_spec by (done || lia).
  pose proof (zlen_nonneg p). pose proof (zlen_nonneg n).
  pose proof (join_separator_range p (zlen p) (zlen n)).
  rewrite zlen_join_separator.
  destruct (Z.eqb_spec max_len SIZE_MAX) as [->|Hne]; simpl orb; cbv iota.
  2: destruct (zlen p <=? max_len) eqn:E1; [destruct (zlen n <=? max_len) eqn:E2|]; bool_to_prop.
  3, 4: rewrite (proj2 (Z.leb_gt _ _)) by lia; done.
  all: repeat match goal with |- context [?a >? SIZE_MAX - ?b] =>
         replace (a >? SIZE_MAX - b) with false by lia end.
  all: replace (zlen p + join_separator_len p (zlen p) (zlen n) + zlen n =? SIZE_MAX)
         with false by lia.
  all: rewrite !take_zlen, join_ref_separator; simpl negb; simpl andb; cbv iota.
  { done. }
  by destruct (Z.leb_spec (zlen p + join_separator_len p (zlen p) (zlen n) + zlen n) max_len);
    [replace (_ >? max_len) with false by lia | replace (_ >? max_len) with true by lia].
Qed.

Lemma afpc_path_join_spec_witness :
  afpc_path_join true (Some empty_path) (Some [47; 97]) (Some [98]) 4 =
    (0, Some (mk_path (Some [47; 97; 47; 98]) 4))
  /\ afpc_path_join true (Some empty_path) (Some [47; 97]) (Some [98; 99]) 4 =
    (- ENAMETOOLONG, Some empty_path).
Proof.
  split; rewrite afpc_path_join_spec;
    try reflexivity; try (apply (bool_decide_unpack _); vm_compute; exact I);
    try (vm_compute; split; discriminate); vm_compute; reflexivity.
Defined.
