(* ===== verification/Utf8.v ===== *)
(** lib/unicode.c: UTF-8 and UCS-2.

    A UCS-2 character is a [Z] of [0, 65536), a UCS-2 string the list of its
    characters before the terminator. *)
From S2P Require Import Prelude.

Definition char16_ok (c : Z) : Prop := 0 <= c < 0x10000.

(** ** UTF-8 *)

(** The loop of mbCharLen(): the one-bits that lead the byte. *)
Fixpoint leading_ones (fuel : nat) (c mask : Z) : Z :=
  match fuel with
  | O => 0
  | S k => if has c mask then 1 + leading_ones k c (Z.shiftr mask 1) else 0
  end.

(** [mask] is an unsigned char, 0 after eight shifts, so nine turns are all. *)
Definition mbCharLen (c : Z) : Z :=
  if c =? 0 then 0
  else
    let count := leading_ones 9 c 0x80 in
    if count =? 0 then 1 else if count =? 1 then 0 else count.

(** mbStrLen() over the [max_bytes] bytes of [str]; each turn drops a byte at
    least, so the length is fuel enough. *)
Fixpoint mbStrLen_loop (fuel : nat) (p : list Z) : Z :=
  match fuel, p with
  | S k, b :: _ =>
      let clen := mbCharLen b in
      if (b =? 0) || (clen <=? 0) then 0
      else if clen >? zlen p then 0
      else 1 + mbStrLen_loop k (drop (Z.to_nat clen) p)
  | _, _ => 0
  end.

Definition mbStrLen (str : list Z) : Z := mbStrLen_loop (length str) str.

(** A continuation byte. *)
Definition is_cont (b : Z) : bool := Z.land b 0xC0 =? 0x80.

(** The switch of UTF8toUCS2(): the character of a sequence of [clen] bytes,
    and whether it was replaced. *)
Definition decode_char (clen : Z) (p : list Z) : Z * bool :=
  let p0 := byte_at p 0 in
  let p1 := byte_at p 1 in
  let p2 := byte_at p 2 in
  let p3 := byte_at p 3 in
  if clen =? 1 then (p0, false)
  else if clen =? 2 then
    let c16 := u16 (Z.land p1 0x3f + Z.shiftl (Z.land p0 0x1f) 6) in
    if (c16 <=? 0x7f) || negb (is_cont p1) then (42, true) else (c16, false)
  else if clen =? 3 then
    let c16 := u16 (Z.land p2 0x3f + Z.shiftl (Z.land p1 0x3f) 6
                    + Z.shiftl (Z.land p0 0xf) 12) in
    if (c16 <=? 0x7ff) || negb (is_cont p1) || negb (is_cont p2)
       || ((c16 >=? 0xd800) && (c16 <=? 0xdfff))
    then (42, true) else (c16, false)
  else if (clen =? 4) && (p0 <=? 0xf4) && is_cont p1 && is_cont p2 && is_cont p3
          && (negb (p0 =? 0xf0) || (p1 >=? 0x90))
          && (negb (p0 =? 0xf4) || (p1 <=? 0x8f))
  then (126, false) else (42, true).

(** What a decode leaves: the characters, the bytes of the source it took and
    the sequences it replaced. *)
Record decoded := mk_decoded {
  dec_chars : list Z;
  dec_consumed : Z;
  dec_substituted : Z
}.

(** The loop of UTF8toUCS2() with [room] characters of the destination left;
    [None] when the destination cannot hold the next one. *)
Fixpoint utf8_loop (fuel : nat) (p : list Z) (room : Z) : option decoded :=
  match fuel, p with
  | S k, b :: _ =>
      let clen := mbCharLen b in
      if (b =? 0) || (clen <=? 0) then Some (mk_decoded [] 0 0)
      else if clen >? zlen p then Some (mk_decoded [] 0 0)
      else if room <=? 1 then None
      else
        let (c, replaced) := decode_char clen p in
        match utf8_loop k (drop (Z.to_nat clen) p) (room - 1) with
        | None => None
        | Some d => Some (mk_decoded (c :: dec_chars d) (clen + dec_consumed d)
                            ((if replaced then 1 else 0) + dec_substituted d))
        end
  | _, _ => Some (mk_decoded [] 0 0)
  end.

(** [str] is the [max_bytes] bytes at the source pointer; [None] stands for
    the -1 of a destination too small. *)
Definition UTF8toUCS2 (str : list Z) (dest_chars : Z) : option decoded :=
  if dest_chars <=? 0 then None else utf8_loop (length str) str dest_chars.

(** The bytes UCS2toUTF8() stores for a character; [lo] and [hi] are its two
    bytes in the memory of a little-endian host. *)
Definition encode_char (c : Z) : list Z :=
  let lo := c mod 256 in
  let hi := Z.shiftr c 8 in
  if c <? 0x80 then [lo]
  else if c <? 0x800 then
    [u8 (Z.lor (Z.lor 0xc0 (Z.shiftl (Z.land hi 0x7) 2)) (Z.shiftr (Z.land lo 0xc0) 6));
     u8 (Z.lor 0x80 (Z.land lo 0x3f))]
  else
    [u8 (Z.lor 0xe0 (Z.shiftr (Z.land hi 0xf0) 4));
     u8 (Z.lor (Z.lor 0x80 (Z.shiftl (Z.land hi 0xf) 2)) (Z.shiftr (Z.land lo 0xc0) 6));
     u8 (Z.lor 0x80 (Z.land lo 0x3f))].

(** The loop of UCS2toUTF8() with [used] bytes of the destination written. *)
Fixpoint ucs2_loop (s : list Z) (used dest_len : Z) : option (list Z) :=
  match s with
  | [] => Some []
  | c :: r =>
      if c =? 0 then Some []
      else
        let bytes_needed := if c <? 0x80 then 1 else if c <? 0x800 then 2 else 3 in
        if used + bytes_needed + 1 >? dest_len then None
        else
          match ucs2_loop r (used + bytes_needed) dest_len with
          | None => None
          | Some out => Some (encode_char c ++ out)
          end
  end.

(** [str16] is the [max_chars] characters at the source pointer; [None] is the
    -1 that leaves an empty string. *)
Definition UCS2toUTF8 (str16 : list Z) (dest_len : Z) : option (list Z) :=
  if dest_len <=? 0 then None else ucs2_loop str16 0 dest_len.

(** ** Bytes and characters *)

(** A character UTF-8 carries in three bytes at most: no surrogate. *)
Definition scalar16 (c : Z) : Prop := 0 < c < 0x10000 /\ ~ (0xd800 <= c <= 0xdfff).

#[export] Instance scalar16_dec c : Decision (scalar16 c).
Proof. unfold scalar16. apply _. Defined.

Definition char_len (c : Z) : Z := if c <? 0x80 then 1 else if c <? 0x800 then 2 else 3.

(** encode_char() as arithmetic, with its lead byte's length. *)
Definition encode_arith (c : Z) : list Z :=
  if c <? 0x80 then [c]
  else if c <? 0x800 then [0xc0 + c / 64; 0x80 + c mod 64]
  else [0xe0 + c / 4096; 0x80 + (c / 64) mod 64; 0x80 + c mod 64].

Definition encode_check (c : Z) : bool :=
  let l := encode_char c in
  list_eqb l (encode_arith c)
  && (mbCharLen (byte_at l 0) =? char_len c)
  && (((0xd800 <=? c) && (c <=? 0xdfff))
      || match decode_char (char_len c) l with (d, r) => (d =? c) && negb r end)
  && forallb (fun b => (0 <? b) && (b <? 256)) l.

Lemma encode_checked c : 0 < c < 0x10000 -> encode_check c = true.
Proof.
  intros Hc. apply (check_range_spec 1 65535); [|lia].
  vm_compute. reflexivity.
Qed.

(** What a byte's value says of its role, by evaluation. *)
Definition byte_check (b : Z) : bool :=
  let n := mbCharLen b in
  (if n =? 1 then (b <? 128) && (0 <? b)
   else if n =? 2 then (192 <=? b) && (b <? 224) && (Z.land b 0x1f =? b - 192)
   else if n =? 3 then (224 <=? b) && (b <? 240) && (Z.land b 0xf =? b - 224)
   else true)
  && (if is_cont b then (128 <=? b) && (b <? 192) && (Z.land b 0x3f =? b - 128) else true)
  && (0 <=? n) && (n <=? 8)
  && (Z.land b 0x3f =? b mod 64) && (0 <=? Z.land b 0x1f) && (Z.land b 0x1f <? 32)
  && (0 <=? Z.land b 0xf) && (Z.land b 0xf <? 16).

Lemma byte_checked b : byte_ok b -> byte_check b = true.
Proof. intros Hb. apply (check_range_spec 0 256); [by vm_compute|exact Hb]. Qed.

(** The UTF-8 form of a UCS-2 string. *)
Definition utf8_of (s : list Z) : list Z := flat_map encode_char s.

Lemma encode_char_facts c :
  0 < c < 0x10000 ->
  encode_char c = encode_arith c /\ zlen (encode_char c) = char_len c
  /\ mbCharLen (byte_at (encode_char c) 0) = char_len c
  /\ bytes_ok (encode_char c) /\ no_nul (encode_char c).
Proof.
  intros Hc. pose proof (encode_checked c Hc) as H. unfold encode_check in H. bool_to_prop.
  match goal with G : list_eqb _ _ = true |- _ => apply list_eqb_eq in G as E end.
  match goal with G : forallb _ _ = true |- _ => rewrite forallb_forall in G; rename G into F end.
  split_and!; try done.
  - rewrite E. unfold encode_arith, char_len. by repeat case_if.
  - apply Forall_forall. intros b Hb%list_elem_of_In%F. unfold byte_ok. lia.
  - apply Forall_forall. intros b Hb%list_elem_of_In%F. lia.
Qed.

Lemma char_len_range c : 1 <= char_len c <= 3.
Proof. unfold char_len. repeat case_if; lia. Qed.

Lemma decode_char_app clen l r :
  1 <= clen <= 3 -> zlen l = clen -> decode_char clen (l ++ r) = decode_char clen l.
Proof.
  intros Hc Hl. unfold decode_char.
  assert (clen = 1 \/ clen = 2 \/ clen = 3) as [-> | [-> | ->]] by lia; simpl Z.eqb; cbv iota;
    rewrite !byte_at_app_l by lia; done.
Qed.

Lemma decode_encode c r :
  scalar16 c -> decode_char (char_len c) (encode_char c ++ r) = (c, false).
Proof.
  intros [Hc Hs]. destruct (encode_char_facts c Hc) as (_ & Hl & _).
  rewrite decode_char_app by (apply char_len_range || done).
  pose proof (encode_checked c Hc) as H. unfold encode_check in H. bool_to_prop.
  orb_case Q; [bool_to_prop; lia|].
  destruct (decode_char _ _) as [d rep]; bool_to_prop. by subst.
Qed.

(** ** UCS-2 to UTF-8 and back *)

Lemma ucs2_loop_spec s used dest_len :
  Forall (fun c => 0 < c < 0x10000) s -> 0 <= used -> used + 1 <= dest_len ->
  ucs2_loop s used dest_len =
    if used + zlen (utf8_of s) + 1 <=? dest_len then Some (utf8_of s) else None.
Proof.
  intros Hs. revert used. induction Hs as [|c r Hc _ IH]; intros used Hu Hd; simpl.
  - rewrite zlen_nil. bsplit; [done|lia].
  - destruct (encode_char_facts c Hc) as (_ & Hl & _).
    replace (c =? 0) with false by lia. fold (char_len c).
    pose proof (char_len_range c). rewrite zlen_app. pose proof (zlen_nonneg (utf8_of r)).
    fold (utf8_of r). destruct (used + char_len c + 1 >? dest_len) eqn:E; bool_to_prop.
    + bsplit; [lia|done].
    + rewrite IH by lia. rewrite Hl.
      replace (used + char_len c + zlen (utf8_of r)) with (used + (char_len c + zlen (utf8_of r))) by lia.
      by case_if.
Qed.

Lemma UCS2toUTF8_spec s dest_len :
  Forall (fun c => 0 < c < 0x10000) s ->
  UCS2toUTF8 s dest_len = if zlen (utf8_of s) <? dest_len then Some (utf8_of s) else None.
Proof.
  intros Hs. unfold UCS2toUTF8. pose proof (zlen_nonneg (utf8_of s)). case_if; bool_to_prop.
  - bsplit; [lia|done].
  - rewrite ucs2_loop_spec by (done || lia). simpl. bsplit; (done || lia).
Qed.

Lemma utf8_of_cons c r : utf8_of (c :: r) = encode_char c ++ utf8_of r.
Proof. done. Qed.

Lemma encode_char_cons c : 0 < c < 0x10000 -> exists b t, encode_char c = b :: t.
Proof.
  intros Hc. destruct (encode_char_facts c Hc) as (_ & Hl & _).
  pose proof (char_len_range c). destruct (encode_char c); [rewrite zlen_nil in Hl; lia|eauto].
Qed.

Lemma utf8_loop_encode s fuel room :
  Forall scalar16 s -> (length (utf8_of s) <= fuel)%nat -> zlen s < room ->
  utf8_loop fuel (utf8_of s) room = Some (mk_decoded s (zlen (utf8_of s)) 0).
Proof.
  intros Hs. revert fuel room. induction Hs as [|c r Hc Hr IH]; intros fuel room Hf Hroom.
  - by destruct fuel.
  - rewrite utf8_of_cons in *. destruct (encode_char_facts c (proj1 Hc)) as (_ & Hl & Hm & _ & Hn).
    destruct (encode_char_cons c (proj1 Hc)) as (b & t & E).
    pose proof (decode_encode c (utf8_of r) Hc) as D. pose proof (char_len_range c).
    rewrite length_app in Hf. rewrite zlen_cons in Hroom. pose proof (zlen_nonneg r).
    destruct fuel as [|fuel]; [rewrite E in Hf; simpl in Hf; lia|].
    rewrite E in Hm, Hn, D |- *. change (byte_at (b :: t) 0) with b in Hm.
    cbn [utf8_loop app]. rewrite Hm. change (b :: t ++ utf8_of r) with ((b :: t) ++ utf8_of r).
    inversion_clear Hn. replace (b =? 0) with false by lia.
    replace (char_len c <=? 0) with false by lia. simpl orb.
    rewrite <- E, zlen_app, Hl in *. pose proof (zlen_nonneg (utf8_of r)).
    replace (_ >? _) with false by lia. replace (room <=? 1) with false by lia.
    rewrite D, drop_app_zlen by (unfold zlen in Hl; lia).
    rewrite IH; [done| |lia]. unfold zlen in Hl. lia.
Qed.

(** A UCS-2 string without a surrogate, encoded by UCS2toUTF8() into a
    buffer that holds it, decodes with UTF8toUCS2() to itself: every byte
    taken, nothing replaced. *)
Theorem utf8_roundtrip s dest_len dest_chars :
  Forall scalar16 s -> zlen (utf8_of s) < dest_len -> zlen s < dest_chars ->
  exists out, UCS2toUTF8 s dest_len = Some out
    /\ UTF8toUCS2 out dest_chars = Some (mk_decoded s (zlen out) 0)
    /\ zlen out + 1 <= dest_len /\ zlen out <= 3 * zlen s.
Proof.
  intros Hs Hd Hc. exists (utf8_of s). rewrite UCS2toUTF8_spec by (eapply Forall_impl; [done|by intros ? [? ?]]).
  rewrite (proj2 (Z.ltb_lt _ _) Hd). split_and!; [done| |lia|].
  - unfold UTF8toUCS2. pose proof (zlen_nonneg s). replace (dest_chars <=? 0) with false by lia.
    by apply utf8_loop_encode.
  - clear -Hs. induction Hs as [|c r Hc _ IH]; [done|].
    rewrite utf8_of_cons, zlen_app, zlen_cons. destruct (encode_char_facts c (proj1 Hc)) as (_ & -> & _).
    pose proof (char_len_range c). lia.
Qed.

Lemma utf8_roundtrip_witness :
  UTF8toUCS2 [0x41; 0xC3; 0xA9; 0xE2; 0x82; 0xAC] 8 = Some (mk_decoded [0x41; 0xE9; 0x20AC] 6 0).
Proof.
  destruct (utf8_roundtrip [0x41; 0xE9; 0x20AC] 16 8) as (out & H & D & _).
  - apply (bool_decide_unpack _). vm_compute. exact I.
  - vm_compute. reflexivity.
  - vm_compute. reflexivity.
  - vm_compute in H. injection H as <-. exact D.
Defined.
