(* ===== verification/Utils.v ===== *)
(** lib/utils.c: Pascal strings, path headers, name checks, text escaping,
    version and log-level texts. *)
From S2P Require Import Prelude AfpProtocol Utf8.

(** ** Pascal strings *)

(** copy_from_pascal() reads the block at [pascal] and fills [max_len] bytes
    of the destination; the answer is the length byte and the destination. *)
Definition copy_from_pascal (pascal : option (list Z)) (max_len : Z) (dest0 : list Z)
    : Z * list Z :=
  match pascal with
  | None => (0, dest0)
  | Some p =>
      if max_len =? 0 then (0, dest0)
      else
        let len := byte_at p 0 in
        let copy_len := if len >=? max_len then u8 (max_len - 1) else len in
        (len, store (zero_bytes max_len) 0 (sub 1 copy_len p))
  end.

Definition copy_from_pascal_two (pascal : option (list Z)) (max_len : Z) (dest0 : list Z)
    : Z * list Z :=
  match pascal with
  | None => (0, dest0)
  | Some p =>
      if max_len =? 0 then (0, dest0)
      else
        let len := be_at p 0 2 in
        if len =? 0 then (0, dest0)
        else
          let copy_len := if len >=? max_len then u16 (max_len - 1) else len in
          (len, store (zero_bytes max_len) 0 (sub 2 copy_len p))
  end.

(** The name of a UTF-8 name block: a four-byte hint, then a string with a
    two-byte length. *)
Definition utf8_to_string (buf : list Z) (maxlen : Z) (dest0 : list Z) : Z * list Z :=
  copy_from_pascal_two (Some (drop 4 buf)) (u16 maxlen) dest0.

(** The bytes copy_to_pascal() stores. *)
Definition copy_to_pascal (src : list Z) : list Z :=
  let len := strnlen src UINT8_MAX in
  len :: take (Z.to_nat len) src.

Definition copy_to_pascal_two (src : option (list Z)) : list Z :=
  match src with
  | None => [0; 0]
  | Some s =>
      let len := u16 (strlen s) in
      be_put 2 len ++ take (Z.to_nat len) s
  end.

(** ** Path blocks

    A path travels as a header (the encoding, for UTF-8 a hint, and a length)
    and the path's bytes. *)

Definition PATH_HINT : Z := 0x08000103.

Definition sizeof_path_header (encoding : Z) : Z :=
  if encoding =? kFPUTF8Name then 7
  else if encoding =? kFPLongName then 2
  else 0.

(** The bytes copy_path() stores at its destination. *)
Definition copy_path (encoding : Z) (pathname : option (list Z)) (len : Z) : list Z :=
  let (path, len) := match pathname with Some p => (p, len) | None => ([], 0) end in
  if encoding =? kFPUTF8Name then
    let len := if len >? UINT16_MAX then UINT16_MAX else len in
    [encoding] ++ be_put 4 PATH_HINT ++ be_put 2 len ++ take (Z.to_nat len) path
  else if encoding =? kFPLongName then
    let len := if len >? UINT8_MAX then UINT8_MAX else len in
    [encoding] ++ [len] ++ take (Z.to_nat len) path
  else [].

(** A UNIX separator becomes a NUL, a colon the slash it stands for. *)
Definition afp_path_byte (b : Z) : Z :=
  if b =? ch_slash then 0 else if b =? ch_colon then ch_slash else b.

(** unixpath_to_afppath(): the block with its path's bytes converted. *)
Definition unixpath_to_afppath (encoding : Z) (buf : list Z) : list Z :=
  let (start, len) :=
    if encoding =? kFPUTF8Name then (7, be_at buf 5 2)
    else if encoding =? kFPLongName then (2, byte_at buf 1)
    else (0, 0) in
  take (Z.to_nat start) buf
  ++ map afp_path_byte (sub start len buf)
  ++ drop (Z.to_nat (start + len)) buf.

(** The block a request carries for a path. *)
Definition path_block (encoding : Z) (path : list Z) : list Z :=
  unixpath_to_afppath encoding (copy_path encoding (Some path) (zlen path)).

(** ** Name checks *)

(** strchr(3): the bytes before the first [c], and those after it when there
    is one. *)
Fixpoint split_at (c : Z) (s : list Z) : list Z * option (list Z) :=
  match s with
  | [] => ([], None)
  | b :: r =>
      if b =? c then ([], Some r)
      else let (before, after) := split_at c r in (b :: before, after)
  end.

Fixpoint skip_slashes (s : list Z) : list Z :=
  match s with
  | b :: r => if b =? ch_slash then skip_slashes r else s
  | [] => []
  end.

(** The loop of invalid_filename(): each turn takes a component and its
    separator, so the path's length and one more is fuel enough. *)
Fixpoint invalid_loop (fuel : nat) (utf8 : bool) (maxlen : Z) (p : list Z) : bool :=
  match fuel with
  | O => false
  | S k =>
      match p with
      | [] => false
      | _ :: _ =>
          match skip_slashes p with
          | [] => false
          | q =>
              let (component, rest) := split_at ch_slash q in
              let len := if utf8 then mbStrLen component else zlen component in
              if len >? maxlen then true
              else
                match rest with
                | None => false
                | Some r => invalid_loop k utf8 maxlen r
                end
          end
      end
  end.

(** The names a volume takes: its encoding and the session's AFP version. *)
Definition name_limit (encoding version : Z) : Z :=
  if version <? 30 then 31
  else if encoding =? kFPUTF8Name then AFP_MAX_UTF8_NAME_CHARS
  else 255.

(** [version] is [None] without a volume, a server or a negotiated version. *)
Definition invalid_filename (encoding : Z) (version : option Z) (filename : option (list Z))
    : bool :=
  match version, filename with
  | Some v, Some f =>
      if list_eqb f [ch_slash] then false
      else invalid_loop (S (length f)) ((encoding =? kFPUTF8Name) && (v >=? 30))
             (name_limit encoding v) f
  | _, _ => true
  end.

(** ** Escaped text *)

Definition hex_digit (n : Z) : Z := if n <? 10 then 48 + n else 87 + n.

(** sanitize_text()'s loop at position [pos] of a buffer of [size] bytes. *)
Fixpoint sanitize_loop (text : list Z) (pos size : Z) : list Z :=
  match text with
  | [] => []
  | ch :: r =>
      if ch =? 0 then []
      else if negb (pos + 1 <? size) then []
      else if (ch =? ch_cr) || (ch =? ch_nl) || (ch =? ch_tab) then
        if pos + 2 >=? size then []
        else ch_backslash
             :: (if ch =? ch_cr then 114 else if ch =? ch_nl then 110 else 116)
             :: sanitize_loop r (pos + 2) size
      else if (ch <? 0x20) || (ch =? 0x7f) then
        if pos + 4 >=? size then []
        else ch_backslash :: 120 :: hex_digit (Z.shiftr ch 4) :: hex_digit (Z.land ch 0x0f)
             :: sanitize_loop r (pos + 4) size
      else ch :: sanitize_loop r (pos + 1) size
  end.

(** [None]: a buffer of no bytes, which is not written. *)
Definition sanitize_text (text : option (list Z)) (size : Z) : option (list Z) :=
  if size =? 0 then None
  else match text with
       | None => Some []
       | Some t => Some (sanitize_loop t 0 size)
       end.

(** ** Path blocks: proofs *)

(** A server's reading of a byte of a path. *)
Definition unix_path_byte (b : Z) : Z :=
  if b =? 0 then ch_slash else if b =? ch_slash then ch_colon else b.

Definition path_limit (encoding : Z) : Z :=
  if encoding =? kFPUTF8Name then UINT16_MAX else UINT8_MAX.

Lemma unix_afp_path_byte b : b <> 0 -> unix_path_byte (afp_path_byte b) = b.
Proof.
  intros Hb. unfold unix_path_byte, afp_path_byte, ch_slash, ch_colon in *.
  repeat case_if; bool_to_prop; lia.
Qed.

Lemma unix_afp_path p : no_nul p -> map unix_path_byte (map afp_path_byte p) = p.
Proof. induction 1; simpl; [done|]. by rewrite unix_afp_path_byte, IHForall. Qed.

Lemma path_block_utf8 path :
  zlen path <= UINT16_MAX ->
  path_block kFPUTF8Name path =
    kFPUTF8Name :: be_put 4 PATH_HINT ++ be_put 2 (zlen path) ++ map afp_path_byte path.
Proof.
  intros Hp. pose proof (zlen_nonneg path). unfold UINT16_MAX in *.
  unfold path_block, copy_path. simpl Z.eqb. cbv iota.
  replace (zlen path >? UINT16_MAX) with false by (unfold UINT16_MAX; lia).
  replace (take (Z.to_nat (zlen path)) path) with path
    by (unfold zlen; rewrite Nat2Z.id, firstn_all; done).
  unfold unixpath_to_afppath. simpl Z.eqb. cbv iota.
  change ([kFPUTF8Name] ++ be_put 4 PATH_HINT ++ be_put 2 (zlen path) ++ path)
    with (([kFPUTF8Name; 8; 0; 1; 3] ++ be_put 2 (zlen path)) ++ path).
  set (h := [kFPUTF8Name; 8; 0; 1; 3] ++ be_put 2 (zlen path)).
  assert (Hh : zlen h = 7) by (unfold h; rewrite zlen_app, zlen_be_put; done).
  assert (Hn : length h = 7%nat) by (unfold zlen in Hh; lia).
  assert (be_at (h ++ path) 5 2 = zlen path) as ->.
  { unfold be_at. rewrite sub_app_l by lia.
    unfold h. rewrite (sub_app_r 5) by (unfold zlen; simpl; lia).
    rewrite sub_all by done. apply be_get_put_small. simpl. lia. }
  rewrite sub_app_r, Hh, sub_all by lia.
  change (Z.to_nat 7) with 7%nat. rewrite take_app_zlen by done.
  rewrite drop_ge by (rewrite length_app; unfold zlen; lia). by rewrite app_nil_r.
Qed.

Lemma path_block_long path :
  zlen path <= UINT8_MAX ->
  path_block kFPLongName path = kFPLongName :: zlen path :: map afp_path_byte path.
Proof.
  intros Hp. pose proof (zlen_nonneg path). unfold UINT8_MAX in *.
  unfold path_block, copy_path. simpl Z.eqb. cbv iota.
  replace (zlen path >? UINT8_MAX) with false by (unfold UINT8_MAX; lia).
  replace (take (Z.to_nat (zlen path)) path) with path
    by (unfold zlen; rewrite Nat2Z.id, firstn_all; done).
  unfold unixpath_to_afppath. simpl Z.eqb. cbv iota.
  change (byte_at ([kFPLongName] ++ [zlen path] ++ path) 1) with (zlen path).
  change ([kFPLongName] ++ [zlen path] ++ path) with ([kFPLongName; zlen path] ++ path).
  rewrite sub_app_r by (unfold zlen; simpl; lia). rewrite sub_all by (unfold zlen; simpl; lia).
  rewrite drop_ge by (rewrite length_app; unfold zlen; simpl; lia). by rewrite app_nil_r.
Qed.

(** ** Name checks: proofs *)

(** The components of a path, between its separators. *)
Fixpoint components (s : list Z) : list (list Z) :=
  match s with
  | [] => [[]]
  | b :: r =>
      if b =? ch_slash then [] :: components r
      else match components r with
           | [] => [[b]]
           | c :: cs => (b :: c) :: cs
           end
  end.

Definition component_len (utf8 : bool) (c : list Z) : Z :=
  if utf8 then mbStrLen c else zlen c.

Lemma components_nonempty s : components s <> [].
Proof. destruct s as [|b r]; simpl; [done|]. case_if; [done|]. by destruct (components r). Qed.

Lemma components_split s :
  components s = fst (split_at ch_slash s)
                 :: match snd (split_at ch_slash s) with None => [] | Some r => components r end.
Proof.
  induction s as [|b r IH]; [done|]. simpl. destruct (b =? ch_slash); [done|].
  rewrite IH. by destruct (split_at ch_slash r).
Qed.

Lemma split_at_length c s before after :
  split_at c s = (before, Some after) -> (length after < length s)%nat.
Proof.
  revert before after. induction s as [|b r IH]; intros before after; simpl; [done|].
  case_if; [intros [= <- <-]; lia|]. destruct (split_at c r) as [x y] eqn:Er.
  intros [= <- ->]. specialize (IH x after eq_refl). lia.
Qed.

Lemma skip_slashes_length s : (length (skip_slashes s) <= length s)%nat.
Proof. induction s as [|b r IH]; simpl; [lia|]. case_if; simpl; lia. Qed.

Lemma invalid_loop_spec fuel utf8 maxlen p :
  0 <= maxlen -> (length p < fuel)%nat ->
  invalid_loop fuel utf8 maxlen p
  = existsb (fun c => component_len utf8 c >? maxlen) (components p).
Proof.
  intros Hm. assert (Hnil : (component_len utf8 [] >? maxlen) = false)
    by (destruct utf8; unfold component_len; [change (mbStrLen []) with 0|rewrite zlen_nil]; lia).
  assert (Hskip : forall p, existsb (fun c => component_len utf8 c >? maxlen) (components p)
    = existsb (fun c => component_len utf8 c >? maxlen) (components (skip_slashes p))).
  { intros q. induction q as [|b r IH]; [done|]. simpl skip_slashes.
    destruct (b =? ch_slash) eqn:Eb; [|done]. simpl components. rewrite Eb. simpl existsb.
    by rewrite Hnil. }
  revert p. induction fuel as [|fuel IH]; intros p Hf; [lia|]. cbn [invalid_loop].
  rewrite Hskip. pose proof (skip_slashes_length p) as Hsk.
  destruct p as [|b r]; [cbn [skip_slashes components existsb]; by rewrite Hnil|].
  destruct (skip_slashes (b :: r)) as [|x y] eqn:Es;
    [cbn [components existsb]; by rewrite Hnil|].
  rewrite components_split. destruct (split_at ch_slash (x :: y)) as [before after] eqn:Esp.
  cbn [existsb fst snd]. change (if utf8 then mbStrLen before else zlen before)
    with (component_len utf8 before).
  destruct (component_len utf8 before >? maxlen); [done|]. simpl orb.
  destruct after as [after|]; [|done]. apply IH.
  apply split_at_length in Esp. lia.
Qed.

(** The check invalid_filename() refuses a path exactly when one of its components
    is longer than the volume takes, 31 bytes before AFP 3, 255 characters of
    a UTF-8 name or 255 bytes of another after it. *)
Theorem invalid_filename_spec encoding version filename :
  invalid_filename encoding (Some version) (Some filename) = true <->
  exists c, c ∈ components filename
    /\ component_len ((encoding =? kFPUTF8Name) && (version >=? 30)) c > name_limit encoding version.
Proof.
  assert (Hm : 0 <= name_limit encoding version)
    by (unfold name_limit, AFP_MAX_UTF8_NAME_CHARS; repeat case_if; lia).
  unfold invalid_filename. destruct (list_eqb filename [ch_slash]) eqn:El.
  - apply list_eqb_eq in El as ->. split; [done|]. intros (c & Hc & Hlen).
    change (components [ch_slash]) with [@nil Z; []] in Hc.
    assert (c = []) as -> by set_solver. exfalso. revert Hlen. unfold component_len.
    case_if; [change (mbStrLen []) with 0|rewrite zlen_nil]; lia.
  - rewrite invalid_loop_spec, existsb_exists by lia. split; intros (c & Hc & Hlen); exists c.
    + split; [by apply list_elem_of_In|]. bool_to_prop. lia.
    + split; [by apply list_elem_of_In|]. lia.
Qed.

(** ** Escaped text: proofs *)

(** What a byte of text becomes. *)
Definition escape_char (ch : Z) : list Z :=
  if (ch =? ch_cr) || (ch =? ch_nl) || (ch =? ch_tab) then
    [ch_backslash; if ch =? ch_cr then 114 else if ch =? ch_nl then 110 else 116]
  else if (ch <? 0x20) || (ch =? 0x7f) then
    [ch_backslash; 120; hex_digit (Z.shiftr ch 4); hex_digit (Z.land ch 0x0f)]
  else [ch].

Definition text_byte (b : Z) : Prop := 0x20 <= b < 256 /\ b <> 0x7f.

Lemma escape_char_text ch :
  byte_ok ch -> 1 <= zlen (escape_char ch) <= 4 /\ Forall text_byte (escape_char ch).
Proof.
  intros Hch. assert (G : ((1 <=? zlen (escape_char ch)) && (zlen (escape_char ch) <=? 4)
    && forallb (fun b => (0x20 <=? b) && (b <? 256) && negb (b =? 0x7f)) (escape_char ch)) = true).
  { apply (check_range_spec 0 256
      (fun ch => (1 <=? zlen (escape_char ch)) && (zlen (escape_char ch) <=? 4)
        && forallb (fun b => (0x20 <=? b) && (b <? 256) && negb (b =? 0x7f)) (escape_char ch)));
      [by vm_compute|exact Hch]. }
  bool_to_prop. split; [lia|]. apply Forall_forall. intros b Hb%list_elem_of_In.
  match goal with F : forallb _ _ = true |- _ => rewrite forallb_forall in F; apply F in Hb end.
  bool_to_prop. unfold text_byte. lia.
Qed.

(** The loop writes whole escapes, in order, and stops for good when one does
    not fit. *)
Lemma sanitize_loop_cons ch r pos size :
  ch <> 0 ->
  sanitize_loop (ch :: r) pos size =
    if pos + zlen (escape_char ch) >=? size then []
    else escape_char ch ++ sanitize_loop r (pos + zlen (escape_char ch)) size.
Proof.
  intros Hz. cbn [sanitize_loop]. unfold escape_char.
  replace (ch =? 0) with false by lia.
  destruct ((ch =? ch_cr) || (ch =? ch_nl) || (ch =? ch_tab)) eqn:E1;
    [|destruct ((ch <? 0x20) || (ch =? 0x7f)) eqn:E2];
    unfold zlen; cbn [length Z.of_nat Pos.of_succ_nat Pos.succ app];
    destruct (pos + 1 <? size) eqn:E3; cbn [negb]; bool_to_prop;
    repeat case_if; bool_to_prop; done || lia.
Qed.

(** sanitize_text() leaves no control byte in a log line and never
    overruns its buffer; a buffer of four bytes per byte and one more, as
    log_for_client() gives it, loses nothing of the text. *)
Theorem sanitize_text_spec t size :
  bytes_ok t -> no_nul t -> 0 < size ->
  exists out, sanitize_text (Some t) size = Some out
    /\ zlen out < size /\ Forall text_byte out
    /\ (4 * zlen t < size -> out = flat_map escape_char t).
Proof.
  intros Ht Hn Hs. exists (sanitize_loop t 0 size). unfold sanitize_text.
  replace (size =? 0) with false by lia. split; [done|].
  assert (G : forall pos, 0 <= pos -> pos < size ->
    pos + zlen (sanitize_loop t pos size) < size /\ Forall text_byte (sanitize_loop t pos size)
    /\ (pos + 4 * zlen t < size -> sanitize_loop t pos size = flat_map escape_char t)).
  2: { destruct (G 0) as (? & ? & ?); [lia|lia|]. split_and!; [lia|done|]. intros; auto with lia. }
  induction Ht as [|ch r Hch Hr IH]; intros pos Hpos Hlt; [simpl; rewrite zlen_nil; split_and!; [lia|constructor|done]|].
  inversion_clear Hn as [|? ? Hz Hn']. destruct (escape_char_text ch Hch) as [He Ht].
  rewrite sanitize_loop_cons, zlen_cons by done. cbn [flat_map]. case_if; bool_to_prop.
  - rewrite zlen_nil. split_and!; [lia|constructor|]. pose proof (zlen_nonneg r). lia.
  - destruct (IH Hn' (pos + zlen (escape_char ch))) as (? & ? & Hc); [lia|lia|].
    rewrite zlen_app. split_and!; [lia|by apply Forall_app|].
    intros. rewrite Hc by lia. done.
Qed.

Lemma sanitize_text_spec_witness :
  exists out, sanitize_text (Some [65; 10; 27]) 13 = Some out
    /\ out = [65; 92; 110; 92; 120; 49; 98].
Proof.
  destruct (sanitize_text_spec [65; 10; 27] 13) as (out & H & _ & _ & F).
  - apply (bool_decide_unpack _). vm_compute. exact I.
  - apply (bool_decide_unpack _). vm_compute. exact I.
  - lia.
  - exists out. split; [exact H|]. rewrite F by (vm_compute; reflexivity). vm_compute. reflexivity.
Defined.

(** ** Version texts *)

Definition is_digit (b : Z) : bool := (48 <=? b) && (b <=? 57).
Definition is_space (b : Z) : bool := (b =? 32) || ((9 <=? b) && (b <=? 13)).

Fixpoint skip_spaces (s : list Z) : list Z :=
  match s with
  | b :: r => if is_space b then skip_spaces r else s
  | [] => []
  end.

(** The value of a run of digits and what follows it. *)
Fixpoint scan_digits (acc : Z) (s : list Z) : Z * list Z :=
  match s with
  | b :: r => if is_digit b then scan_digits (acc * 10 + (b - 48)) r else (acc, s)
  | [] => (acc, [])
  end.

(** A decimal long as strtol(3) and scanf(3)'s %ld read it: the value, clamped
    to the type, whether it was clamped, and the rest; [None] without a digit. *)
Definition scan_long (s : list Z) : option (Z * bool * list Z) :=
  let s := skip_spaces s in
  let (neg, s) := match s with
                  | b :: r => if b =? 45 then (true, r) else if b =? 43 then (false, r)
                              else (false, s)
                  | [] => (false, [])
                  end in
  match s with
  | b :: _ =>
      if is_digit b then
        let (n, rest) := scan_digits 0 s in
        let v := if neg then - n else n in
        Some (Z.max INT64_MIN (Z.min INT64_MAX v), (v <? INT64_MIN) || (v >? INT64_MAX), rest)
      else None
  | [] => None
  end.

Definition ch_dot : Z := 46.

Definition in_int_range (version : Z) : option Z :=
  if (version <? 0) || (version >? INT_MAX) then None else Some version.

(** [None] is the -1 of a text that names no version. *)
Definition afp_parse_version (text : option (list Z)) : option Z :=
  match text with
  | None => None
  | Some t =>
      if existsb (fun b => b =? ch_dot) t then
        match scan_long t with
        | Some (major, _, b :: r) =>
            if b =? ch_dot then
              match scan_long r with
              | Some (minor, _, []) =>
                  if (major <? 0) || (minor <? 0) || (minor >? 9)
                     || (major >? (INT_MAX - minor) / 10)
                  then None else in_int_range (major * 10 + minor)
              | _ => None
              end
            else None
        | _ => None
        end
      else
        match scan_long t with
        | Some (version, false, []) => in_int_range version
        | _ => None
        end
  end.

Definition digits (s : list Z) : Prop := Forall (fun b => is_digit b = true) s.

Definition digits_value (s : list Z) : Z := fst (scan_digits 0 s).

Lemma scan_digits_app acc ds rest :
  digits ds -> (forall b r, rest = b :: r -> is_digit b = false) ->
  scan_digits acc (ds ++ rest) = (fst (scan_digits acc ds), rest).
Proof.
  intros Hd Hr. revert acc. induction Hd as [|b ds Hb _ IH]; intros acc; simpl.
  - destruct rest as [|b r]; [done|]. simpl. by rewrite (Hr b r).
  - rewrite Hb. apply IH.
Qed.

Lemma scan_digits_snoc acc ds d :
  digits ds -> is_digit d = true ->
  fst (scan_digits acc (ds ++ [d])) = fst (scan_digits acc ds) * 10 + (d - 48).
Proof.
  intros Hd Hdd. revert acc. induction Hd as [|b ds Hb _ IH]; intros acc; simpl.
  - by rewrite Hdd.
  - rewrite Hb. apply IH.
Qed.

Lemma scan_digits_nonneg acc ds : 0 <= acc -> 0 <= fst (scan_digits acc ds).
Proof.
  revert acc. induction ds as [|b r IH]; intros acc Ha; simpl; [done|].
  case_if; [|done]. apply IH. unfold is_digit in E. bool_to_prop. lia.
Qed.

Lemma scan_long_digits ds rest :
  digits ds -> ds <> [] -> (forall b r, rest = b :: r -> is_digit b = false) ->
  scan_long (ds ++ rest) =
    Some (Z.min INT64_MAX (digits_value ds), digits_value ds >? INT64_MAX, rest).
Proof.
  intros Hd Hne Hr. destruct ds as [|b r]; [done|]. inversion_clear Hd as [|? ? Hb Hd'].
  assert (Hb' : 48 <= b <= 57) by (unfold is_digit in Hb; bool_to_prop; lia).
  unfold scan_long. cbn [app skip_spaces].
  replace (is_space b) with false by (unfold is_space; symmetry; lia).
  replace (b =? 45) with false by lia. replace (b =? 43) with false by lia.
  cbv iota. rewrite Hb. change (b :: r ++ rest) with ((b :: r) ++ rest).
  rewrite scan_digits_app by (try constructor; done).
  pose proof (scan_digits_nonneg 0 (b :: r) ltac:(lia)) as Hn. unfold digits_value, INT64_MIN, INT64_MAX in *.
  do 2 f_equal. f_equal; lia.
Qed.

Lemma no_dot_digits ds : digits ds -> existsb (fun b => b =? ch_dot) ds = false.
Proof.
  induction 1 as [|b r Hb _ IH]; [done|]. simpl. rewrite IH.
  unfold is_digit, ch_dot in *. bool_to_prop. lia.
Qed.

(** The two spellings of an AFP version agree: a text of digits, a dot and
    a last digit parses as the text without the dot does, in range or not. *)
Theorem afp_parse_version_spellings ds d :
  digits ds -> ds <> [] -> is_digit d = true ->
  afp_parse_version (Some (ds ++ [ch_dot; d])) = afp_parse_version (Some (ds ++ [d]))
  /\ afp_parse_version (Some (ds ++ [d])) =
       let v := digits_value ds * 10 + (d - 48) in if v <=? INT_MAX then Some v else None.
Proof.
  intros Hd Hne Hdd. assert (Hds : digits (ds ++ [d])) by (apply Forall_app; by repeat constructor).
  pose proof (scan_digits_nonneg 0 ds ltac:(lia)) as Hn. fold (digits_value ds) in Hn.
  assert (Hdv : 0 <= d - 48 <= 9) by (unfold is_digit in Hdd; bool_to_prop; lia).
  assert (Hplain : afp_parse_version (Some (ds ++ [d])) =
    let v := digits_value ds * 10 + (d - 48) in if v <=? INT_MAX then Some v else None).
  { unfold afp_parse_version. rewrite no_dot_digits by done.
    rewrite <- (app_nil_r (ds ++ [d])), scan_long_digits; [|done|by destruct ds|done].
    unfold digits_value at 1 2. rewrite scan_digits_snoc by done. fold (digits_value ds).
    unfold INT64_MAX, in_int_range in *. cbv zeta. unfold INT_MAX.
    destruct (Z.leb_spec (digits_value ds * 10 + (d - 48)) 2147483647) as [Hle|Hgt].
    - replace (_ >? 9223372036854775807) with false by lia.
      rewrite Z.min_r by lia. by replace (_ || _)%bool with false by lia.
    - destruct (_ >? 9223372036854775807) eqn:E1; [done|].
      by replace (_ || _)%bool with true by lia. }
  split; [|done]. rewrite Hplain. unfold afp_parse_version.
  replace (existsb _ (ds ++ [ch_dot; d])) with true
    by (symmetry; apply existsb_exists; exists ch_dot; split; [apply in_app_iff; right; by left|done]).
  rewrite scan_long_digits; [|done|done|intros ? ? [= <- <-]; done].
  change (ch_dot =? ch_dot) with true. cbv iota.
  rewrite <- (app_nil_r [d]), scan_long_digits; [|by repeat constructor|done|done].
  assert (digits_value [d] = d - 48) as -> by (unfold digits_value; simpl; by rewrite Hdd).
  unfold INT64_MAX, in_int_range, INT_MAX. cbv zeta.
  replace (Z.min 9223372036854775807 (d - 48)) with (d - 48) by lia.
  destruct (Z.leb_spec (digits_value ds * 10 + (d - 48)) 2147483647) as [Hle|Hgt].
  - rewrite Z.min_r by lia.
    replace (_ || _ || _ || _)%bool with false by (symmetry; Z.div_mod_to_equations; lia).
    by replace (_ || _)%bool with false by lia.
  - replace (_ || _ || _ || _)%bool with true; [done|]. symmetry.
    Z.div_mod_to_equations. lia.
Qed.
