(* ===== verification/Unicode.v ===== *)
(** lib/unicode.c: canonical composition and decomposition of UCS-2.

    A UCS-2 character is a [Z] of [0, 65536), a UCS-2 string the list of its
    characters before the terminator. *)
From S2P Require Import Prelude UnicodeTable Utf8.

(** ** Composition *)

Definition delta : list Z := [499; 249; 125; 62; 31; 16; 8; 4; 2; 1; 0].

(** The uniform binary search of UCS2precompose() from entry [i], [ds] the
    steps from delta[j] on: the loop ends at the step 0. *)
Fixpoint precompose_loop (ds : list Z) (i needle : Z) : Z :=
  match ds with
  | d :: ((d' :: _) as ds') =>
      if d =? 0 then -1
      else
        match table !! Z.to_nat i with
        | None => -1
        | Some (pre, pat) =>
            if needle <? pat then precompose_loop ds' (i - d') needle
            else if needle >? pat then precompose_loop ds' (i + d') needle
            else pre
        end
  | _ => -1
  end.

Definition pattern_of (first second : Z) : Z := Z.lor (Z.shiftl first 16) second.

Definition UCS2precompose (first second : Z) : Z :=
  precompose_loop delta 499 (pattern_of first second).

(** ** Decomposition *)

Definition table_precomposed (i : nat) : Z :=
  match table !! i with Some (pre, _) => pre | None => 0 end.

(** compare_precomposed(), the order of qsort(3). *)
Definition compare_precomposed (a b : nat) : Z :=
  let left := table_precomposed a in
  let right := table_precomposed b in
  (if left >? right then 1 else 0) - (if left <? right then 1 else 0).

(** A sort by [compare_precomposed]: qsort(3)'s answer, whatever its method,
    as no two entries compare equal. *)
Fixpoint insert_index (x : nat) (l : list nat) : list nat :=
  match l with
  | [] => [x]
  | y :: r => if compare_precomposed x y <=? 0 then x :: l else y :: insert_index x r
  end.

Fixpoint sort_index (l : list nat) : list nat :=
  match l with
  | [] => []
  | x :: r => insert_index x (sort_index r)
  end.

Definition build_decompose_index : list nat :=
  0%nat :: sort_index (seq 1 (length table - 1)).

(** The index, sorted once for the process (pthread_once). *)
Definition decompose_index : list nat := Eval vm_compute in build_decompose_index.

(** The binary search of UCS2decompose() over [low, high). *)
Fixpoint decompose_loop (fuel : nat) (idx : list nat) (low high c : Z) : option (Z * Z) :=
  match fuel with
  | O => None
  | S k =>
      if low <? high then
        let mid := low + (high - low) / 2 in
        match idx !! Z.to_nat mid with
        | None => None
        | Some entry =>
            match table !! entry with
            | None => None
            | Some (pre, pat) =>
                if pre <? c then decompose_loop k idx (mid + 1) high c
                else if pre >? c then decompose_loop k idx low mid c
                else Some (Z.land (Z.shiftr pat 16) 0xFFFF, Z.land pat 0xFFFF)
            end
        end
      else None
  end.

(** The range halves each turn: eleven turns empty one of 997 entries. *)
Definition UCS2decompose (c : Z) : option (Z * Z) :=
  decompose_loop 11 decompose_index 1 (zlen table) c.

(** ** Correctness of the searches *)

(** The entries a search reads. *)
Fixpoint precompose_probes (ds : list Z) (i needle : Z) : list Z :=
  match ds with
  | d :: ((d' :: _) as ds') =>
      if d =? 0 then []
      else
        match table !! Z.to_nat i with
        | None => [i]
        | Some (pre, pat) =>
            i :: (if needle <? pat then precompose_probes ds' (i - d') needle
                  else if needle >? pat then precompose_probes ds' (i + d') needle
                  else [])
        end
  | _ => []
  end.

(** Every entry the search can reach lies in the table. *)
Fixpoint probes_ok (ds : list Z) (i : Z) : bool :=
  match ds with
  | d :: ((d' :: _) as ds') =>
      (d =? 0) || ((1 <=? i) && (i <=? 997) && probes_ok ds' (i - d') && probes_ok ds' (i + d'))
  | _ => true
  end.

Lemma precompose_probes_ok ds i needle :
  probes_ok ds i = true -> Forall (fun i => 1 <= i <= 997) (precompose_probes ds i needle).
Proof.
  revert i. induction ds as [|d [|d' ds] IH]; intros i H; try constructor.
  cbn [precompose_probes probes_ok] in *. destruct (d =? 0); [constructor|].
  simpl orb in H. bool_to_prop.
  destruct (table !! Z.to_nat i) as [[pre pat]|]; [|repeat constructor; lia].
  constructor; [lia|]. repeat case_if; auto.
Qed.

Lemma precompose_loop_sound ds i needle v :
  precompose_loop ds i needle = v -> v <> -1 -> (v, needle) ∈ table.
Proof.
  revert i. induction ds as [|d [|d' ds] IH]; intros i H Hv; [done|done|].
  cbn [precompose_loop] in H. destruct (d =? 0); [done|].
  destruct (table !! Z.to_nat i) as [[pre pat]|] eqn:Et; [|done].
  destruct (needle <? pat) eqn:E1; [by eapply IH|].
  destruct (needle >? pat) eqn:E2; [by eapply IH|].
  bool_to_prop. assert (needle = pat) by lia. subst.
  by eapply list_elem_of_lookup_2.
Qed.

Definition entry_of (e : Z * Z) : Z * Z :=
  (Z.land (Z.shiftr (snd e) 16) 0xFFFF, Z.land (snd e) 0xFFFF).

(** What evaluation shows of each entry: both searches find it. *)
Definition entry_found (e : Z * Z) : bool :=
  let (f, s) := entry_of e in
  (UCS2precompose f s =? fst e)
  && (pattern_of f s =? snd e)
  && bool_decide (UCS2decompose (fst e) = Some (f, s))
  && (0 <? fst e) && (fst e <? 0x10000)
  && negb (f =? 0) && negb (s =? 0)
  && bool_decide (UCS2decompose s = None).

Lemma entries_found : forallb entry_found (tail table) = true.
Proof. vm_compute. reflexivity. Qed.

Lemma entry_found_in e : e ∈ tail table -> entry_found e = true.
Proof.
  intros H. pose proof entries_found as G. rewrite forallb_forall in G.
  by apply G, list_elem_of_In.
Qed.

Lemma table_tail e : e ∈ table -> e = (0, 0) \/ e ∈ tail table.
Proof.
  assert (table = (0, 0) :: tail table) as -> by (vm_compute; reflexivity).
  intros H. apply list_elem_of_In in H as [<-|H]; [by left|right]. by apply list_elem_of_In.
Qed.

Lemma pattern_of_add f s : char16_ok s -> pattern_of f s = f * 65536 + s.
Proof. intros. unfold pattern_of. by rewrite lor_shiftl_add. Qed.

Lemma entry_of_pattern c f s :
  char16_ok f -> char16_ok s -> entry_of (c, pattern_of f s) = (f, s).
Proof.
  intros Hf Hs. unfold entry_of, char16_ok in *. cbn [snd].
  rewrite pattern_of_add by done.
  change 0xFFFF with (Z.ones 16). rewrite !Z.land_ones by lia.
  rewrite Z.shiftr_div_pow2 by lia. change (2 ^ 16) with 65536.
  rewrite Z.div_add_l, Z.div_small, Z.add_0_r, Z.mod_small by lia.
  rewrite Z.add_comm, Z.mod_add, Z.mod_small by lia. done.
Qed.

Lemma decompose_loop_sound fuel idx low high c f s :
  decompose_loop fuel idx low high c = Some (f, s) ->
  exists e, e ∈ table /\ fst e = c /\ entry_of e = (f, s).
Proof.
  revert low high. induction fuel as [|fuel IH]; intros low high H; [done|].
  cbn [decompose_loop] in H. cbv zeta in H. destruct (low <? high); [|done].
  destruct (idx !! _) as [entry|]; [|done].
  destruct (table !! entry) as [[pre pat]|] eqn:Et; [|done].
  destruct (pre <? c) eqn:E1; [by eapply IH|].
  destruct (pre >? c) eqn:E2; [by eapply IH|].
  bool_to_prop. exists (pre, pat). split_and!; [by eapply list_elem_of_lookup_2|simpl; lia|].
  unfold entry_of. cbn [snd]. congruence.
Qed.

Lemma UCS2decompose_sound c f s :
  UCS2decompose c = Some (f, s) ->
  exists e, e ∈ tail table /\ fst e = c /\ entry_of e = (f, s).
Proof.
  intros H. destruct (decompose_loop_sound _ _ _ _ _ _ _ H) as (e & He & <- & Hfs).
  apply table_tail in He as [->|He]; [|eauto]. exfalso. vm_compute in H. discriminate.
Qed.

Lemma UCS2precompose_iff f s c :
  char16_ok f -> char16_ok s -> c <> -1 ->
  UCS2precompose f s = c <-> (c, pattern_of f s) ∈ tail table.
Proof.
  intros Hf Hs Hc. split.
  - intros H. pose proof (precompose_loop_sound _ _ _ _ H Hc) as G.
    apply table_tail in G as [E|G]; [|done]. exfalso. injection E as -> E.
    unfold UCS2precompose in H. rewrite E in H. vm_compute in H. discriminate.
  - intros H. apply entry_found_in in H. unfold entry_found in H.
    rewrite entry_of_pattern in H by done. bool_to_prop. done.
Qed.

Lemma UCS2decompose_iff f s c :
  char16_ok f -> char16_ok s ->
  UCS2decompose c = Some (f, s) <-> (c, pattern_of f s) ∈ tail table.
Proof.
  intros Hf Hs. split.
  - intros H. apply UCS2decompose_sound in H as (e & He & <- & Hfs).
    pose proof (entry_found_in _ He) as G. unfold entry_found in G. rewrite Hfs in G.
    bool_to_prop. destruct e as [pre pat]. cbn [fst snd] in *. subst. done.
  - intros H. apply entry_found_in in H. unfold entry_found in H.
    rewrite entry_of_pattern in H by done. bool_to_prop.
    by match goal with G : bool_decide (UCS2decompose (fst _) = _) = true |- _ =>
      apply bool_decide_eq_true in G end.
Qed.

(** C28: the uniform binary search of UCS2precompose() reads only entries of
    the table and answers exactly the table's composition of the pair, -1
    when it has none. *)
Theorem UCS2precompose_correct f s :
  char16_ok f -> char16_ok s ->
  Forall (fun i => 1 <= i < zlen table) (precompose_probes delta 499 (pattern_of f s))
  /\ (forall c, c <> -1 -> UCS2precompose f s = c <-> (c, pattern_of f s) ∈ tail table)
  /\ (UCS2precompose f s = -1 <-> forall c, (c, pattern_of f s) ∉ tail table).
Proof.
  intros Hf Hs. assert (T : forall c, (c, pattern_of f s) ∈ tail table -> c <> -1).
  { intros c H. apply entry_found_in in H. unfold entry_found in H.
    rewrite entry_of_pattern in H by done. bool_to_prop. cbn [fst] in *. lia. }
  split_and!.
  - eapply Forall_impl; [by apply precompose_probes_ok; vm_compute|].
    assert (zlen table = 998) as -> by (vm_compute; reflexivity). intros i Hi; simpl in Hi; lia.
  - intros c Hc. by apply UCS2precompose_iff.
  - split.
    + intros H c Hin. pose proof (T c Hin). rewrite <- UCS2precompose_iff in Hin by done. congruence.
    + intros H. destruct (Z.eq_dec (UCS2precompose f s) (-1)) as [|Hne]; [done|].
      exfalso. eapply H. by apply UCS2precompose_iff; [..|done|reflexivity].
Qed.

Lemma UCS2precompose_correct_witness :
  UCS2precompose 0x41 0x300 = 0xC0 /\ UCS2precompose 0x41 0x42 = -1
  /\ (0xC0, pattern_of 0x41 0x300) ∈ tail table.
Proof.
  assert (H : forall s, char16_ok s -> char16_ok 0x41) by (intros; vm_compute; split; discriminate || reflexivity).
  assert (char16_ok 0x300) as H3 by (vm_compute; split; discriminate || reflexivity).
  split_and!; [reflexivity|reflexivity|].
  by apply (proj1 (proj1 (proj2 (UCS2precompose_correct 0x41 0x300 (H _ H3) H3)) 0xC0 ltac:(done))).
Defined.

(** Decomposition and composition are inverse: UCS2decompose() splits a
    character into the pair UCS2precompose() composes to it, and splits no
    other character. *)
Theorem UCS2decompose_precompose f s c :
  char16_ok f -> char16_ok s -> c <> -1 ->
  UCS2decompose c = Some (f, s) <-> UCS2precompose f s = c.
Proof. intros. by rewrite UCS2decompose_iff, UCS2precompose_iff. Qed.

Lemma UCS2decompose_precompose_witness : UCS2decompose 0x1EA6 = Some (0xC2, 0x300).
Proof. apply UCS2decompose_precompose; try (vm_compute; split; discriminate || reflexivity); vm_compute; done. Defined.
