(* ===== verification/MacRoman.v ===== *)
(** lib/mac_roman.h and the table lookups of lib/codepage.c: Mac Roman and
    UCS-2. *)
From S2P Require Import Prelude Utf8.

Definition mac_roman_2uni : list Z :=
  [0x00C4; 0x00C5; 0x00C7; 0x00C9; 0x00D1; 0x00D6; 0x00DC; 0x00E1; 0x00E0; 0x00E2; 0x00E4; 0x00E3;
   0x00E5; 0x00E7; 0x00E9; 0x00E8; 0x00EA; 0x00EB; 0x00ED; 0x00EC; 0x00EE; 0x00EF; 0x00F1; 0x00F3;
   0x00F2; 0x00F4; 0x00F6; 0x00F5; 0x00FA; 0x00F9; 0x00FB; 0x00FC; 0x2020; 0x00B0; 0x00A2; 0x00A3;
   0x00A7; 0x2022; 0x00B6; 0x00DF; 0x00AE; 0x00A9; 0x2122; 0x00B4; 0x00A8; 0x2260; 0x00C6; 0x00D8;
   0x221E; 0x00B1; 0x2264; 0x2265; 0x00A5; 0x00B5; 0x2202; 0x2211; 0x220F; 0x03C0; 0x222B; 0x00AA;
   0x00BA; 0x2126; 0x00E6; 0x00F8; 0x00BF; 0x00A1; 0x00AC; 0x221A; 0x0192; 0x2248; 0x2206; 0x00AB;
   0x00BB; 0x2026; 0x00A0; 0x00C0; 0x00C3; 0x00D5; 0x0152; 0x0153; 0x2013; 0x2014; 0x201C; 0x201D;
   0x2018; 0x2019; 0x00F7; 0x25CA; 0x00FF; 0x0178; 0x2044; 0x20AC; 0x2039; 0x203A; 0xFB01; 0xFB02;
   0x2021; 0x00B7; 0x201A; 0x201E; 0x2030; 0x00C2; 0x00CA; 0x00C1; 0x00CB; 0x00C8; 0x00CD; 0x00CE;
   0x00CF; 0x00CC; 0x00D3; 0x00D4; 0xF8FF; 0x00D2; 0x00DA; 0x00DB; 0x00D9; 0x0131; 0x02C6; 0x02DC;
   0x00AF; 0x02D8; 0x02D9; 0x02DA; 0x00B8; 0x02DD; 0x02DB; 0x02C7].

Definition mac_roman_page00 : list Z :=
  [0xCA; 0xC1; 0xA2; 0xA3; 0; 0xB4; 0; 0xA4; 0xAC; 0xA9; 0xBB; 0xC7;
   0xC2; 0; 0xA8; 0xF8; 0xA1; 0xB1; 0; 0; 0xAB; 0xB5; 0xA6; 0xE1;
   0xFC; 0; 0xBC; 0xC8; 0; 0; 0; 0xC0; 0xCB; 0xE7; 0xE5; 0xCC;
   0x80; 0x81; 0xAE; 0x82; 0xE9; 0x83; 0xE6; 0xE8; 0xED; 0xEA; 0xEB; 0xEC;
   0; 0x84; 0xF1; 0xEE; 0xEF; 0xCD; 0x85; 0; 0xAF; 0xF4; 0xF2; 0xF3;
   0x86; 0; 0; 0xA7; 0x88; 0x87; 0x89; 0x8B; 0x8A; 0x8C; 0xBE; 0x8D;
   0x8F; 0x8E; 0x90; 0x91; 0x93; 0x92; 0x94; 0x95; 0; 0x96; 0x98; 0x97;
   0x99; 0x9B; 0x9A; 0xD6; 0xBF; 0x9D; 0x9C; 0x9E; 0x9F; 0; 0; 0xD8].

Definition mac_roman_page01 : list Z :=
  [0xF5; 0; 0; 0; 0; 0; 0; 0; 0; 0; 0; 0;
   0; 0; 0; 0; 0; 0; 0; 0; 0; 0; 0; 0;
   0; 0; 0; 0; 0; 0; 0; 0; 0; 0xCE; 0xCF; 0;
   0; 0; 0; 0; 0; 0; 0; 0; 0; 0; 0; 0;
   0; 0; 0; 0; 0; 0; 0; 0; 0; 0; 0; 0;
   0; 0; 0; 0; 0; 0; 0; 0; 0; 0; 0; 0xD9;
   0; 0; 0; 0; 0; 0; 0; 0; 0; 0; 0; 0;
   0; 0; 0; 0; 0; 0; 0; 0; 0; 0; 0; 0;
   0; 0xC4].

Definition mac_roman_page02 : list Z :=
  [0xF6; 0xFF; 0; 0; 0; 0; 0; 0; 0; 0; 0; 0;
   0; 0; 0; 0; 0; 0; 0xF9; 0xFA; 0xFB; 0xFE; 0xF7; 0xFD].

Definition mac_roman_page20 : list Z :=
  [0xD0; 0xD1; 0; 0; 0; 0xD4; 0xD5; 0xE2; 0; 0xD2; 0xD3; 0xE3;
   0; 0xA0; 0xE0; 0xA5; 0; 0; 0; 0xC9; 0; 0; 0; 0;
   0; 0; 0; 0xE4; 0; 0; 0; 0; 0; 0; 0; 0;
   0; 0; 0xDC; 0xDD; 0; 0; 0; 0; 0; 0; 0; 0;
   0; 0xDA].

Definition mac_roman_page21 : list Z :=
  [0xAA; 0; 0; 0; 0xBD].

Definition mac_roman_page22 : list Z :=
  [0xB6; 0; 0; 0; 0xC6; 0; 0; 0; 0; 0; 0; 0;
   0; 0xB8; 0; 0xB7; 0; 0; 0; 0; 0; 0; 0; 0;
   0xC3; 0; 0; 0; 0xB0; 0; 0; 0; 0; 0; 0; 0;
   0; 0; 0; 0xBA; 0; 0; 0; 0; 0; 0; 0; 0;
   0; 0; 0; 0; 0; 0; 0; 0; 0; 0; 0; 0;
   0; 0; 0; 0; 0; 0; 0; 0; 0xC5; 0; 0; 0;
   0; 0; 0; 0; 0; 0; 0; 0; 0; 0; 0; 0;
   0; 0; 0; 0; 0; 0; 0; 0; 0; 0; 0xAD; 0;
   0; 0; 0xB2; 0xB3].

Definition mac_roman_pagefb : list Z :=
  [0xDE; 0xDF].

(** A lookup in a reverse table that starts at [lo]. *)
Definition page (t : list Z) (uc lo : Z) : Z := byte_at t (uc - lo).

(** The byte of a character, 0 when Mac Roman lacks it. A page's entry 0 falls
    through to the final return, which is 0 as well. *)
Definition unicode_to_mac_roman (uc : Z) : Z :=
  if (uc >=? 0x00A0) && (uc <=? 0x00FF) then page mac_roman_page00 uc 0x00A0
  else if (uc >=? 0x0131) && (uc <=? 0x0192) then page mac_roman_page01 uc 0x0131
  else if (uc >=? 0x02C6) && (uc <=? 0x02DD) then page mac_roman_page02 uc 0x02C6
  else if uc =? 0x03C0 then 0xB9
  else if (uc >=? 0x2013) && (uc <=? 0x2044) then page mac_roman_page20 uc 0x2013
  else if uc =? 0x20AC then 0xDB
  else if (uc >=? 0x2122) && (uc <=? 0x2126) then page mac_roman_page21 uc 0x2122
  else if (uc >=? 0x2202) && (uc <=? 0x2265) then page mac_roman_page22 uc 0x2202
  else if uc =? 0x25CA then 0xD7
  else if uc =? 0xF8FF then 0xF0
  else if (uc >=? 0xFB01) && (uc <=? 0xFB02) then page mac_roman_pagefb uc 0xFB01
  else 0.

(** The character of a Mac Roman byte, in convert_mac_roman_to_utf8(). *)
Definition mac_roman_char (c : Z) : Z :=
  if c <? 0x80 then c else byte_at mac_roman_2uni (c - 0x80).

(** The byte of a character, in convert_utf8_to_mac_roman(); [None] when Mac
    Roman lacks it. *)
Definition mac_roman_byte (c : Z) : option Z :=
  if c <? 0x80 then Some c
  else let mr := unicode_to_mac_roman c in if mr =? 0 then None else Some mr.

(** The bytes whose characters the reverse tables hold at another place:
    U+222B, U+2248 and U+2030. *)
Definition misplaced_bytes : list Z := [0xBA; 0xC5; 0xE4].

(** The characters the reverse tables give those bytes to instead. *)
Definition misplaced_chars : list Z := [0x2229; 0x2246; 0x202E].

Definition char_check (c : Z) : bool :=
  match mac_roman_byte c with
  | None => true
  | Some b => (0 <? b) && (b <? 256)
              && (bool_decide (c ∈ misplaced_chars) || (mac_roman_char b =? c))
  end.

Definition mr_byte_check (b : Z) : bool :=
  let c := mac_roman_char b in
  (bool_decide (b ∈ misplaced_bytes) || bool_decide (mac_roman_byte c = Some b))
  && bool_decide (scalar16 c).

Lemma mac_roman_char_of_byte c b :
  0 < c < 0x10000 -> mac_roman_byte c = Some b ->
  0 < b < 256 /\ (c ∉ misplaced_chars -> mac_roman_char b = c).
Proof.
  intros Hc H. assert (G : char_check c = true).
  { apply (check_range_spec 1 65535); [by vm_compute|lia]. }
  unfold char_check in G. rewrite H in G. bool_to_prop. split; [done|]. intros Hm.
  orb_case Q.
  - by apply bool_decide_eq_true in Q.
  - bool_to_prop. done.
Qed.

Lemma mac_roman_char_scalar b : 0 < b < 256 -> scalar16 (mac_roman_char b).
Proof.
  intros Hb. assert (G : mr_byte_check b = true).
  { apply (check_range_spec 1 255); [by vm_compute|lia]. }
  unfold mr_byte_check in G. bool_to_prop.
  by match goal with H : bool_decide _ = true |- _ => apply bool_decide_eq_true in H end.
Qed.

Lemma mac_roman_byte_of_char b :
  0 < b < 256 -> b ∉ misplaced_bytes -> mac_roman_byte (mac_roman_char b) = Some b.
Proof.
  intros Hb Hm. assert (G : mr_byte_check b = true).
  { apply (check_range_spec 1 255); [by vm_compute|lia]. }
  unfold mr_byte_check in G. bool_to_prop.
  orb_case Q; by apply bool_decide_eq_true in Q.
Qed.

(** the forward table and the reverse tables agree, three places apart:
    but for those, a Mac Roman byte shows as a character exactly when the
    character converts back to that byte. *)
Theorem mac_roman_bijection b c :
  0 < b < 256 -> 0 < c < 0x10000 -> b ∉ misplaced_bytes -> c ∉ misplaced_chars ->
  mac_roman_char b = c <-> mac_roman_byte c = Some b.
Proof.
  intros Hb Hc Hmb Hmc. split.
  - intros <-. by apply mac_roman_byte_of_char.
  - intros H. by apply mac_roman_char_of_byte.
Qed.

Lemma mac_roman_bijection_witness : mac_roman_byte 0x20AC = Some 0xDB.
Proof.
  apply mac_roman_bijection; [lia|lia| | |vm_compute; reflexivity];
    apply (bool_decide_unpack _); vm_compute; exact I.
Defined.

(** The reverse tables misplace three characters: the integral sign, the
    almost-equal sign and the per-mille sign, which a Mac Roman name shows, do
    not convert back, and U+2229, U+2246 and U+202E convert to their bytes. *)
Theorem mac_roman_reverse_misplaced :
  map mac_roman_char misplaced_bytes = [0x222B; 0x2248; 0x2030]
  /\ Forall (fun b => mac_roman_byte (mac_roman_char b) = None) misplaced_bytes
  /\ map mac_roman_byte misplaced_chars = map Some misplaced_bytes.
Proof. split_and!; [vm_compute; reflexivity|repeat constructor|vm_compute; reflexivity]. Qed.
