(* ===== verification/Codepage.v ===== *)
(** lib/codepage.c: names between the client's UTF-8 and the AFP encodings.

    A conversion answers the C result and the string its destination then
    holds; [dest0] is the string there before, which an early refusal leaves.
    A buffer a conversion takes on the heap is granted or refused by
    [heap], by its size in characters. *)
From S2P Require Import Prelude AfpProtocol Utf8 Utils UnicodeTable Unicode MacRoman.

(** Whether the bytes at a position are a four-byte sequence. *)
Definition supplementary_at (p : list Z) : bool :=
  match p with
  | c :: c1 :: c2 :: c3 :: _ =>
      (c >=? 0xf0) && (c <=? 0xf4) && is_cont c1 && is_cont c2 && is_cont c3
  | _ => false
  end.

Fixpoint contains_supplementary_utf8 (src : list Z) : bool :=
  match src with
  | [] => false
  | _ :: r => supplementary_at src || contains_supplementary_utf8 r
  end.

Definition utf8_is_ascii (src : list Z) : bool := forallb (fun c => negb (c >=? 0x80)) src.

(** The terminated copy shows the bytes before the first NUL. *)
Definition copy_identity (src : list Z) (dest_len : Z) (dest0 : list Z) : Z * list Z :=
  if zlen src >=? dest_len then (-1, if dest_len =? 0 then dest0 else [])
  else (0, until_nul src).

Definition copy_if_supplementary_utf8 (src : list Z) (dest_len : Z) (dest0 : list Z)
    : Z * list Z :=
  if negb (contains_supplementary_utf8 src) then (0, dest0)
  else
    let (r, dest) := copy_identity src dest_len dest0 in
    if r <? 0 then (-1, dest) else (1, dest).

Definition UCS2_STACK_CHARS : Z := (AFP_MAX_UTF8_NAME_CHARS + 1) * 4 + 1.

(** decompose_char(): the full decomposition. The table's decompositions nest
    three deep at most. *)
Fixpoint decompose_fuel (fuel : nat) (c : Z) : list Z :=
  match fuel with
  | O => [c]
  | S k =>
      match UCS2decompose c with
      | Some (first, second) => decompose_fuel k first ++ decompose_fuel k second
      | None => [c]
      end
  end.

Definition decompose_char (c : Z) : list Z := decompose_fuel 4 c.

Definition decompose_string (s : list Z) : list Z := flat_map decompose_char s.

(** The loop of convert_utf8dec_to_utf8pre(): what it emits for [s] with the
    character [prev] held back. *)
Fixpoint precompose_string (prev : Z) (s : list Z) : list Z :=
  match s with
  | [] => []
  | c :: r =>
      let comp := UCS2precompose prev c in
      let '(emitted, prev') :=
        if prev >? 0 then
          if negb (comp =? -1) then ([], u16 comp) else ([prev], c)
        else ([], c) in
      emitted ++ match r with [] => [prev'] | _ => precompose_string prev' r end
  end.

(** The loop of convert_mac_roman_to_utf8(). *)
Fixpoint mac_roman_loop (src : list Z) (ucs2_len : Z) : list Z :=
  match src with
  | [] => []
  | c :: r =>
      if c =? 0 then []
      else if ucs2_len >=? 255 then []
      else mac_roman_char c :: mac_roman_loop r (ucs2_len + 1)
  end.

Definition convert_mac_roman_to_utf8 (src : list Z) (dest_len : Z) (dest0 : list Z)
    : Z * list Z :=
  if (zlen src <=? 0) || (dest_len <=? 0) then (-1, dest0)
  else
    match UCS2toUTF8 (mac_roman_loop src 0) dest_len with
    | Some out => (0, out)
    | None => (-1, [])
    end.

(** The loop of convert_utf8_to_mac_roman(). *)
Fixpoint to_mac_roman_loop (chars : list Z) : option (list Z) :=
  match chars with
  | [] => Some []
  | c :: r =>
      match mac_roman_byte c with
      | None => None
      | Some b =>
          match to_mac_roman_loop r with
          | None => None
          | Some out => Some (b :: out)
          end
      end
  end.

Section Conversions.
Variable heap : Z -> bool.

Definition ucs2_buffer_get (chars : Z) : bool := (chars <=? UCS2_STACK_CHARS) || heap chars.

Definition utf8_decodes_whole (src : list Z) : bool :=
  if negb (ucs2_buffer_get (zlen src + 1)) then false
  else
    match UTF8toUCS2 src (zlen src + 1) with
    | None => false
    | Some d => (dec_substituted d =? 0) && (dec_consumed d =? zlen src)
    end.

Definition convert_utf8_to_mac_roman (src : list Z) (dest_len : Z) (dest0 : list Z)
    : Z * list Z :=
  if (zlen src <=? 0) || (dest_len <=? 0) then (-1, dest0)
  else if negb (ucs2_buffer_get (zlen src + 1)) then (-1, dest0)
  else
    match UTF8toUCS2 src (zlen src + 1) with
    | None => (-1, [])
    | Some d =>
        if negb (dec_substituted d =? 0) || negb (dec_consumed d =? zlen src) then (-1, [])
        else
          match to_mac_roman_loop (dec_chars d) with
          | None => (-1, [])
          | Some out => (0, out)
          end
    end.

Definition convert_utf8dec_to_utf8pre (src : list Z) (dest_len : Z) (dest0 : list Z)
    : Z * list Z :=
  if (zlen src <=? 0) || (dest_len <=? 0) then (-1, if dest_len >? 0 then [] else dest0)
  else if negb (ucs2_buffer_get (zlen src + 1)) then (-1, [])
  else
    match UTF8toUCS2 src (zlen src + 1) with
    | None => (-1, [])
    | Some d =>
        if negb (ucs2_buffer_get (zlen (dec_chars d) + 1)) then (-1, [])
        else
          match UCS2toUTF8 (precompose_string 0 (until_nul (dec_chars d))) dest_len with
          | None => (-1, [])
          | Some out =>
              if negb (dec_substituted d =? 0) || negb (dec_consumed d =? zlen src)
              then (1, out) else (0, out)
          end
    end.

Definition convert_utf8pre_to_utf8dec (src : list Z) (dest_len : Z) (dest0 : list Z)
    : Z * list Z :=
  if (zlen src <=? 0) || (dest_len <=? 0) then (-1, if dest_len >? 0 then [] else dest0)
  else if negb (ucs2_buffer_get (zlen src + 1)) then (-1, [])
  else
    match UTF8toUCS2 src (zlen src + 1) with
    | None => (-1, [])
    | Some d =>
        if negb (dec_substituted d =? 0) || negb (dec_consumed d =? zlen src) then (-1, [])
        else if negb (ucs2_buffer_get (zlen (dec_chars d) * 4 + 1)) then (-1, [])
        else
          match UCS2toUTF8 (decompose_string (until_nul (dec_chars d))) dest_len with
          | None => (-1, [])
          | Some out => (0, out)
          end
    end.

(** The last loop of convert_name_to_unix(), over [n] bytes at most. *)
Fixpoint slash_to_colon (n : nat) (s : list Z) : list Z :=
  match n, s with
  | S k, c :: r => (if c =? ch_slash then ch_colon else c) :: slash_to_colon k r
  | _, _ => s
  end.

(** The switch of convert_name_to_unix(): the name before its slashes are
    converted. *)
Definition name_to_unix_bytes (encoding : Z) (src : list Z) (dest_len : Z) : Z * list Z :=
  if encoding =? kFPUTF8Name then
    if utf8_is_ascii src then copy_identity src dest_len []
    else
      let (copied, dest) := copy_if_supplementary_utf8 src dest_len [] in
      if copied <? 0 then (-1, dest)
      else
        match dest with
        | _ :: _ => (0, dest)
        | [] =>
            if zlen src >? 0 then
              let (r, dest) := convert_utf8dec_to_utf8pre src dest_len [] in
              if r <? 0 then (-1, dest) else (0, dest)
            else (0, dest)
        end
  else if encoding =? kFPLongName then (0, snd (convert_mac_roman_to_utf8 src dest_len []))
  else (-1, []).

Definition convert_name_to_unix (encoding : Z) (src : list Z) (dest_len : Z)
    (dest0 : list Z) : Z * list Z :=
  if (dest_len =? 0) || (zlen src >? INT_MAX) || (dest_len >? INT_MAX) then (-1, dest0)
  else
    let (r, dest) := name_to_unix_bytes encoding src dest_len in
    if r <? 0 then (-1, dest)
    else (0, slash_to_colon (Z.to_nat (dest_len - 1)) dest).

Definition convert_path_to_unix (encoding : Z) (src : list Z) (dest_len : Z)
    (dest0 : list Z) : Z * list Z :=
  if dest_len <=? 0 then (-1, dest0)
  else convert_name_to_unix encoding (take (Z.to_nat (strnlen src dest_len)) src) dest_len dest0.

Definition convert_path_to_afp (encoding : Z) (src : list Z) (dest_len : Z)
    (dest0 : list Z) : Z * list Z :=
  if dest_len <=? 0 then (-1, dest0)
  else
    let src_len := strnlen src dest_len in
    if src_len >=? dest_len then (-1, [])
    else
      let s := take (Z.to_nat src_len) src in
      let ascii := utf8_is_ascii s in
      if encoding =? kFPUTF8Name then
        if ascii then copy_identity s dest_len []
        else
          let (copied, dest) := copy_if_supplementary_utf8 s dest_len [] in
          if (copied <? 0) || ((copied >? 0) && negb (utf8_decodes_whole s)) then (-1, [])
          else if (copied =? 0) && (src_len >? 0) then
            let (r, dest) := convert_utf8pre_to_utf8dec s dest_len [] in
            if r <? 0 then (-1, dest) else (0, dest)
          else (0, dest)
      else if encoding =? kFPLongName then
        let (r, dest) :=
          if ascii then copy_identity s dest_len []
          else if contains_supplementary_utf8 s then (-1, [])
          else convert_utf8_to_mac_roman s dest_len [] in
        if r <? 0 then (-1, dest)
        else if strnlen dest dest_len >? UINT8_MAX then (-1, [])
        else (0, dest)
      else (-1, []).

End Conversions.

(** What the conversions of lib/codepage.c promise: a name from the server is
    safe to show as one path component, decompositions fit the buffer the code
    takes for them, and a Mac Roman name survives the way to the client and
    back. *)

(** ** Characters and the bytes they become *)

Definition char_ok (c : Z) : Prop := 0 < c < 0x10000.

Lemma decode_char_range clen p : bytes_ok p -> 0 <= fst (decode_char clen p) < 0x10000.
Proof.
  intros Hp. pose proof (byte_at_ok p 0 Hp) as H0. unfold byte_ok in H0. unfold decode_char.
  pose proof u16_range as Hu. repeat case_if; cbn [fst]; try lia; apply Hu.
Qed.

Lemma utf8_loop_range fuel p room d :
  bytes_ok p -> utf8_loop fuel p room = Some d -> Forall (fun c => 0 <= c < 0x10000) (dec_chars d).
Proof.
  revert p room d. induction fuel as [|fuel IH]; intros p room d Hp H.
  { destruct p; injection H as <-; constructor. }
  destruct p as [|b r]; [injection H as <-; constructor|]. cbn [utf8_loop] in H.
  destruct ((b =? 0) || _)%bool; [injection H as <-; constructor|].
  destruct (_ >? _); [injection H as <-; constructor|]. destruct (_ <=? 1); [done|].
  pose proof (decode_char_range (mbCharLen b) (b :: r) Hp) as Hc.
  destruct (decode_char _ _) as [c rep]. destruct (utf8_loop fuel _ _) as [d'|] eqn:E; [|done].
  injection H as <-. constructor; [done|]. eapply IH; [|exact E]. by apply bytes_ok_drop.
Qed.

Lemma UTF8toUCS2_range src n d :
  bytes_ok src -> UTF8toUCS2 src n = Some d -> Forall (fun c => 0 <= c < 0x10000) (dec_chars d).
Proof. unfold UTF8toUCS2. case_if; [done|]. apply utf8_loop_range. Qed.

Lemma until_nul_chars s : Forall (fun c => 0 <= c < 0x10000) s -> Forall char_ok (until_nul s).
Proof.
  induction 1 as [|c r Hc _ IH]; simpl; [constructor|]. bsplit; constructor; [|done].
  unfold char_ok. lia.
Qed.

Lemma precompose_range f s c : UCS2precompose f s = c -> c <> -1 -> char_ok c.
Proof.
  intros H Hne. pose proof (precompose_loop_sound _ _ _ _ H Hne) as G.
  apply table_tail in G as [E|G].
  - exfalso. injection E as -> E. unfold UCS2precompose in H. rewrite E in H. vm_compute in H. discriminate.
  - apply entry_found_in in G. unfold entry_found in G. destruct (entry_of _) as [f0 s0].
    cbn [fst] in G. bool_to_prop. split; assumption.
Qed.

#[local] Opaque UCS2precompose UCS2decompose.

Lemma precompose_string_ok prev s :
  prev = 0 \/ char_ok prev -> Forall char_ok s -> Forall char_ok (precompose_string prev s).
Proof.
  intros Hp Hs. revert prev Hp. induction Hs as [|c r Hc _ IH]; intros prev Hp; [constructor|].
  cbn [precompose_string].
  assert (Hrest : forall p, char_ok p ->
    Forall char_ok (match r with [] => [p] | _ => precompose_string p r end)).
  { intros p Hpo. destruct r; [by constructor|]. apply IH. by right. }
  destruct (prev >? 0) eqn:E1; [|apply Hrest; done].
  destruct (UCS2precompose prev c =? -1) eqn:E2; simpl.
  - constructor; [|by apply Hrest]. destruct Hp as [->|]; [done|done].
  - bool_to_prop. pose proof (precompose_range _ _ _ eq_refl E2) as Hr. apply Hrest.
    unfold char_ok in *. rewrite u16_small; lia.
Qed.

(** What UCS2toUTF8 writes is a string without NUL that fits. *)
Lemma UCS2toUTF8_safe s n out :
  Forall char_ok s -> UCS2toUTF8 s n = Some out -> zlen out < n /\ no_nul out /\ bytes_ok out.
Proof.
  intros Hs H. rewrite UCS2toUTF8_spec in H by done. case_if; [|done]. injection H as <-.
  bool_to_prop. split; [done|]. clear E. induction Hs as [|c r Hc _ IH]; [by split; constructor|].
  destruct (encode_char_facts c Hc) as (_ & _ & _ & Hb & Hn). rewrite utf8_of_cons.
  destruct IH as [H1 H2]. split; by apply Forall_app.
Qed.

(** ** A name from the server *)

Definition safe (dest_len : Z) (out : list Z) : Prop := zlen out < dest_len /\ no_nul out /\ bytes_ok out.

Lemma safe_nil n : 0 < n -> safe n [].
Proof. intros. split; [rewrite zlen_nil; lia|]. split; constructor. Qed.

Lemma copy_identity_safe src n dest0 r out :
  bytes_ok src -> 0 < n -> copy_identity src n dest0 = (r, out) -> safe n out.
Proof.
  intros Hs Hn. unfold copy_identity. repeat case_if; intros [= <- <-]; bool_to_prop; try lia.
  - by apply safe_nil.
  - split; [pose proof (until_nul_le src); lia|]. split; [apply until_nul_no_nul|by apply until_nul_bytes_ok].
Qed.

Lemma supplementary_safe src n r out :
  bytes_ok src -> 0 < n -> copy_if_supplementary_utf8 src n [] = (r, out) -> safe n out.
Proof.
  intros Hs Hn. unfold copy_if_supplementary_utf8. case_if; [intros [= <- <-]; by apply safe_nil|].
  destruct (copy_identity src n []) as [r0 d0] eqn:Ec. apply copy_identity_safe in Ec; [|done|done].
  case_if; intros [= <- <-]; done.
Qed.

Lemma dec_to_pre_safe heap src n r out :
  bytes_ok src -> 0 < n -> convert_utf8dec_to_utf8pre heap src n [] = (r, out) -> safe n out.
Proof.
  intros Hs Hn. unfold convert_utf8dec_to_utf8pre.
  replace (n >? 0) with true by lia. do 2 (case_if; [intros [= <- <-]; by apply safe_nil|]).
  destruct (UTF8toUCS2 src _) as [d|] eqn:Ed; [|intros [= <- <-]; by apply safe_nil].
  apply UTF8toUCS2_range, until_nul_chars in Ed; [|done].
  case_if; [intros [= <- <-]; by apply safe_nil|].
  destruct (UCS2toUTF8 _ n) as [o|] eqn:Eo; [|intros [= <- <-]; by apply safe_nil].
  apply UCS2toUTF8_safe in Eo; [|apply precompose_string_ok; [by left|done]].
  case_if; intros [= <- <-]; done.
Qed.

Lemma mac_roman_loop_ok src k : bytes_ok src -> Forall char_ok (mac_roman_loop src k).
Proof.
  intros Hs. revert k. induction Hs as [|c r Hc _ IH]; intros k; simpl; [constructor|].
  repeat case_if; constructor; [|done]. bool_to_prop. apply mac_roman_char_scalar.
  unfold byte_ok in Hc. lia.
Qed.

Lemma mac_roman_safe src n r out :
  bytes_ok src -> 0 < n -> convert_mac_roman_to_utf8 src n [] = (r, out) -> safe n out.
Proof.
  intros Hs Hn. unfold convert_mac_roman_to_utf8. case_if; [intros [= <- <-]; by apply safe_nil|].
  destruct (UCS2toUTF8 _ n) as [o|] eqn:Eo; intros [= <- <-]; [|by apply safe_nil].
  apply UCS2toUTF8_safe in Eo; [done|by apply mac_roman_loop_ok].
Qed.

Lemma name_to_unix_bytes_safe heap encoding src n r out :
  bytes_ok src -> 0 < n -> name_to_unix_bytes heap encoding src n = (r, out) -> safe n out.
Proof.
  intros Hs Hn. unfold name_to_unix_bytes.
  destruct (encoding =? kFPUTF8Name); [|destruct (encoding =? kFPLongName)].
  - case_if; [by apply copy_identity_safe|].
    destruct (copy_if_supplementary_utf8 src n []) as [c d] eqn:Ec. apply supplementary_safe in Ec; [|done|done].
    case_if; [by intros [= <- <-]|]. destruct d as [|b d]; [|by intros [= <- <-]].
    case_if; [|by intros [= <- <-]].
    destruct (convert_utf8dec_to_utf8pre heap src n []) as [r0 d0] eqn:Ed.
    apply dec_to_pre_safe in Ed; [|done|done]. case_if; by intros [= <- <-].
  - destruct (convert_mac_roman_to_utf8 src n []) as [r0 d0] eqn:Ed. apply mac_roman_safe in Ed; [|done|done].
    by intros [= <- <-].
  - intros [= <- <-]. by apply safe_nil.
Qed.

Lemma slash_to_colon_all n s : (length s <= n)%nat ->
  slash_to_colon n s = map (fun c => if c =? ch_slash then ch_colon else c) s.
Proof.
  revert n. induction s as [|c r IH]; intros [|n] Hl; simpl in *; try done; [lia|].
  rewrite IH by lia. done.
Qed.

Lemma name_to_unix_safe heap encoding src dest_len dest0 r out :
  bytes_ok src -> 0 <= dest_len ->
  convert_name_to_unix heap encoding src dest_len dest0 = (r, out) ->
  r = 0 /\ zlen out < dest_len /\ no_nul out /\ bytes_ok out /\ (ch_slash ∉ out)
  \/ r = -1.
Proof.
  intros Hs Hd. unfold convert_name_to_unix. case_if; [intros [= <- <-]; by right|]. bool_to_prop.
  destruct (name_to_unix_bytes heap encoding src dest_len) as [r0 d0] eqn:Ec.
  apply name_to_unix_bytes_safe in Ec as (Hl & Hn & Hb); [|done|lia].
  case_if; intros [= <- <-]; [by right|left]. split; [done|].
  rewrite slash_to_colon_all by (unfold zlen in *; lia).
  split; [by rewrite zlen_map|]. split; [|split].
  - apply Forall_map. eapply Forall_impl; [exact Hn|]. intros c Hc. simpl. case_if; done.
  - apply Forall_map. eapply Forall_impl; [exact Hb|]. intros c Hc. simpl. case_if; [unfold byte_ok, ch_colon; lia|done].
  - intros Hin. apply list_elem_of_In, in_map_iff in Hin as (c & Hc & _). case_if; bool_to_prop; done.
Qed.

(** C6: a name from the server becomes one safe path component. Whatever bytes
    the server sends, in either encoding, a name convert_name_to_unix()
    accepts is a terminated string inside its destination, without a NUL and
    without the slash that would let it name another directory; every other
    call answers -1. *)
Theorem convert_name_to_unix_safe heap encoding src dest_len dest0 r out :
  bytes_ok src -> 0 <= dest_len ->
  convert_name_to_unix heap encoding src dest_len dest0 = (r, out) ->
  r = 0 /\ zlen out < dest_len /\ no_nul out /\ bytes_ok out /\ (ch_slash ∉ out)
  \/ r = -1.
Proof. apply name_to_unix_safe. Qed.

Theorem convert_name_to_unix_safe_witness :
  let out := [0xC3; 0xA9; ch_colon; 0x78] in
  convert_name_to_unix (fun _ => false) kFPUTF8Name [0x65; 0xCC; 0x81; ch_slash; 0x78; 0; 0x2E] 16 [] = (0, out)
  /\ (0 = 0 /\ zlen out < 16 /\ no_nul out /\ bytes_ok out /\ (ch_slash ∉ out) \/ 0 = -1).
Proof.
  assert (H : convert_name_to_unix (fun _ => false) kFPUTF8Name [0x65; 0xCC; 0x81; ch_slash; 0x78; 0; 0x2E] 16 []
              = (0, [0xC3; 0xA9; ch_colon; 0x78])) by (vm_compute; reflexivity).
  split; [exact H|]. apply (convert_name_to_unix_safe _ _ _ _ _ _ _) with (3 := H); [|lia].
  apply (bool_decide_unpack _). vm_compute. exact I.
Defined.

(** ** Decomposition *)

Definition settled (c : Z) : bool := bool_decide (UCS2decompose c = None).

Definition entry_settles (e : Z * Z) : bool :=
  (length (decompose_char (fst e)) <=? 4)%nat && forallb settled (decompose_char (fst e)).

Lemma entries_settle : forallb entry_settles (tail table) = true.
Proof. vm_compute. reflexivity. Qed.

Lemma decompose_char_settled c :
  (length (decompose_char c) <= 4)%nat /\ Forall (fun d => UCS2decompose d = None) (decompose_char c).
Proof.
  destruct (UCS2decompose c) as [[f s]|] eqn:E.
  - apply UCS2decompose_sound in E as (e & He & <- & _).
    pose proof entries_settle as G. rewrite forallb_forall in G.
    specialize (G e (proj1 (list_elem_of_In _ _) He)). unfold entry_settles in G.
    apply andb_prop in G as [G1 G2]. split; [by apply Nat.leb_le in G1|].
    apply Forall_forall. intros d Hd. rewrite forallb_forall in G2.
    specialize (G2 d (proj1 (list_elem_of_In _ _) Hd)). by apply bool_decide_eq_true in G2.
  - unfold decompose_char. cbn [decompose_fuel]. rewrite E. split; [simpl; lia|by constructor].
Qed.

(** A decomposition whose characters do not decompose does not change with
    more fuel: the recursion of the source has ended. *)
Lemma decompose_fuel_more k j c :
  Forall (fun d => UCS2decompose d = None) (decompose_fuel k c) ->
  decompose_fuel (k + j) c = decompose_fuel k c.
Proof.
  revert c. induction k as [|k IH]; intros c H.
  - destruct j; [done|]. cbn [decompose_fuel Nat.add] in *. inversion_clear H as [|? ? Hc _]. by rewrite Hc.
  - cbn [decompose_fuel Nat.add] in *. destruct (UCS2decompose c) as [[f s]|]; [|done].
    apply Forall_app in H as [Hf Hs]. by rewrite !IH.
Qed.

(** Decomposing a name fits the buffer convert_utf8pre_to_utf8dec() takes,
    four characters for each and a terminator; the recursion of
    decompose_char() has ended (more depth changes nothing) and every
    character it leaves has no decomposition of its own. *)
Theorem decompose_string_bounded s :
  zlen (decompose_string s) + 1 <= zlen s * 4 + 1
  /\ Forall (fun d => UCS2decompose d = None) (decompose_string s)
  /\ forall j, flat_map (decompose_fuel (4 + j)) s = decompose_string s.
Proof.
  unfold decompose_string. induction s as [|c r (IH1 & IH2 & IH3)]; [done|]. cbn [flat_map].
  destruct (decompose_char_settled c) as [H1 H2]. split; [|split].
  - rewrite zlen_app, zlen_cons. unfold zlen in *. lia.
  - by apply Forall_app.
  - intros j. rewrite IH3. f_equal. apply (decompose_fuel_more 4 j c H2).
Qed.

(** ** Mac Roman names *)

Definition mac_byte_ok (b : Z) : bool :=
  let c := mac_roman_char b in
  (b =? ch_colon) || bool_decide (b ∈ misplaced_bytes)
  || ((if c =? ch_slash then b =? ch_slash else bool_decide (mac_roman_byte c = Some b) && negb (c =? ch_colon))
      && ((c >=? 0x80) || (c =? b))).

Lemma mac_byte_checked b : 0 < b < 256 -> mac_byte_ok b = true.
Proof. intros Hb. apply (check_range_spec 1 255); [by vm_compute|lia]. Qed.

(** A byte of a Mac Roman name that the reverse tables know, and that is no
    separator of AFP paths. *)
Definition mac_byte (b : Z) : Prop := 0 < b < 256 /\ b <> ch_colon /\ b ∉ misplaced_bytes.

(** The character the client shows for the byte. *)
Definition shown (b : Z) : Z := let c := mac_roman_char b in if c =? ch_slash then ch_colon else c.

Lemma shown_facts b :
  mac_byte b -> scalar16 (shown b) /\ (shown b < 0x80 -> shown b = if b =? ch_slash then ch_colon else b)
  /\ mac_roman_byte (shown b) = Some (if b =? ch_slash then ch_colon else b).
Proof.
  intros (Hb & Hc & Hm). pose proof (mac_byte_checked b Hb) as G. unfold mac_byte_ok in G.
  orb_case Q; [orb_case R; [bool_to_prop; lia|by apply bool_decide_eq_true in R]|].
  pose proof (mac_roman_char_scalar b Hb) as Hs. unfold shown.
  destruct (mac_roman_char b =? ch_slash) eqn:E; bool_to_prop.
  - subst b. split; [|split; [done|vm_compute; reflexivity]]. split; [unfold ch_colon; lia|unfold ch_colon; lia].
  - match goal with H : bool_decide _ = true |- _ => apply bool_decide_eq_true in H; rename H into Hback end.
    assert (b <> ch_slash) as Hbs by (intros ->; vm_compute in E; done).
    replace (b =? ch_slash) with false by lia. split; [done|]. split; [|done].
    intros Hlt. orb_case R; bool_to_prop; lia.
Qed.

Definition path_byte (b : Z) : Z := if b =? ch_slash then ch_colon else b.

Lemma high_bytes c : 0x80 <= c < 0x10000 -> Forall (fun b => 0x80 <= b <= 0xef) (encode_char c).
Proof.
  intros Hc. destruct (encode_char_facts c ltac:(lia)) as (-> & _). unfold encode_arith.
  repeat case_if; bool_to_prop; try lia; repeat constructor; Z.div_mod_to_equations; lia.
Qed.

Lemma low_byte c : 0 < c < 0x80 -> encode_char c = [c].
Proof.
  intros Hc. destruct (encode_char_facts c ltac:(lia)) as (-> & _). unfold encode_arith.
  by replace (c <? 0x80) with true by lia.
Qed.

Lemma map_high (l : list Z) f : Forall (fun b => 0x80 <= b <= 0xef) l ->
  (forall b, 0x80 <= b -> f b = b) -> map f l = l.
Proof. intros Hl Hf. induction Hl as [|b r Hb _ IH]; simpl; [done|]. rewrite Hf, IH by lia. done. Qed.

Lemma shown_bytes src :
  Forall mac_byte src -> map path_byte (utf8_of (map mac_roman_char src)) = utf8_of (map shown src).
Proof.
  induction 1 as [|b r Hb _ IH]; [done|]. cbn [map]. rewrite !utf8_of_cons, map_app, IH. f_equal.
  pose proof (mac_roman_char_scalar b (proj1 Hb)) as [Hc _]. unfold shown.
  destruct (Z.lt_ge_cases (mac_roman_char b) 0x80) as [Hlow|Hhigh].
  - rewrite low_byte by lia. cbn [map]. unfold path_byte.
    case_if; [by vm_compute|]. by rewrite low_byte by lia.
  - replace (mac_roman_char b =? ch_slash) with false by (unfold ch_slash; lia).
    apply map_high; [apply high_bytes; lia|]. intros x Hx. unfold path_byte, ch_slash.
    by replace (x =? 47) with false by lia.
Qed.

Lemma mac_roman_loop_all src k :
  Forall mac_byte src -> 0 <= k -> k + zlen src <= 255 -> mac_roman_loop src k = map mac_roman_char src.
Proof.
  intros Hs. revert k. induction Hs as [|b r Hb _ IH]; intros k Hk Hl; [done|]. cbn [mac_roman_loop map].
  rewrite zlen_cons in Hl. pose proof (zlen_nonneg r). destruct Hb as [Hb _].
  replace (b =? 0) with false by lia. replace (k >=? 255) with false by lia. rewrite IH by lia. done.
Qed.

Lemma to_mac_roman_all src :
  Forall mac_byte src -> to_mac_roman_loop (map shown src) = Some (map path_byte src).
Proof.
  induction 1 as [|b r Hb _ IH]; [done|]. cbn [map to_mac_roman_loop].
  destruct (shown_facts b Hb) as (_ & _ & ->). by rewrite IH.
Qed.

Lemma utf8_len s : Forall char_ok s -> zlen s <= zlen (utf8_of s) <= 3 * zlen s.
Proof.
  induction 1 as [|c r Hc _ IH]; [done|]. rewrite utf8_of_cons, zlen_app, zlen_cons.
  destruct (encode_char_facts c Hc) as (_ & -> & _). pose proof (char_len_range c). lia.
Qed.

Lemma no_supplementary s : Forall char_ok s -> contains_supplementary_utf8 (utf8_of s) = false.
Proof.
  intros Hs. assert (Hb : Forall (fun b => b <= 0xef) (utf8_of s)).
  { induction Hs as [|c r Hc _ IH]; [constructor|]. rewrite utf8_of_cons. apply Forall_app. split; [|done].
    destruct (Z.lt_ge_cases c 0x80); [rewrite low_byte by (unfold char_ok in *; lia); repeat constructor; lia|].
    eapply Forall_impl; [apply high_bytes; unfold char_ok in *; lia|]. simpl. lia. }
  induction Hb as [|b r Hb _ IH]; [done|]. cbn [contains_supplementary_utf8]. rewrite IH, orb_false_r.
  unfold supplementary_at. destruct r as [|c1 [|c2 [|c3 r]]]; try done.
  by replace (b >=? 0xf0) with false by lia.
Qed.

Lemma ascii_shown src :
  Forall mac_byte src -> utf8_is_ascii (utf8_of (map shown src)) = true ->
  utf8_of (map shown src) = map path_byte src.
Proof.
  induction 1 as [|b r Hb _ IH]; [done|]. cbn [map]. rewrite utf8_of_cons. unfold utf8_is_ascii.
  rewrite forallb_app. intros [H1 H2]%andb_prop. rewrite IH by done.
  destruct (shown_facts b Hb) as ([Hc _] & Hlow & _). unfold path_byte at 2.
  destruct (Z.lt_ge_cases (shown b) 0x80) as [Hlt|Hge].
  - rewrite low_byte, Hlow by lia. done.
  - exfalso. pose proof (high_bytes (shown b) ltac:(lia)) as Hh.
    destruct (encode_char_cons (shown b) Hc) as (x & t & E). rewrite E in *.
    inversion_clear Hh. simpl in H1. lia.
Qed.

Lemma shown_ok src : Forall mac_byte src -> Forall char_ok (map shown src) /\ Forall scalar16 (map shown src).
Proof.
  intros Hs. split; apply Forall_map; eapply Forall_impl; try exact Hs; intros b Hb;
    destruct (shown_facts b Hb) as (H & _); [apply H|exact H].
Qed.

(** The bytes convert_path_to_afp() writes for a shown name. *)
Lemma shown_to_afp heap src n dest0 :
  Forall mac_byte src -> src <> [] -> zlen src <= 255 -> zlen (utf8_of (map shown src)) < n ->
  convert_path_to_afp heap kFPLongName (utf8_of (map shown src)) n dest0 = (0, map path_byte src).
Proof.
  intros Hs Hne Hlen Hn. destruct (shown_ok src Hs) as [Hok Hsc]. set (out := utf8_of (map shown src)) in *.
  assert (Hout : zlen src <= zlen out <= 3 * zlen src)
    by (pose proof (utf8_len _ Hok); rewrite zlen_map in *; done).
  pose proof (zlen_nonneg src). assert (0 < zlen src) by (destruct src; [done|rewrite zlen_cons; pose proof (zlen_nonneg src); lia]).
  assert (Hnn : no_nul out /\ bytes_ok out).
  { destruct (UCS2toUTF8_safe (map shown src) n out Hok) as (_ & ? & ?); [|done].
    rewrite UCS2toUTF8_spec by done. fold out. by replace (zlen out <? n) with true by lia. }
  destruct Hnn as [Hnn Hbo].
  assert (Hpb : no_nul (map path_byte src)).
  { apply Forall_map. eapply Forall_impl; [exact Hs|]. intros b (Hb & _). unfold path_byte. simpl. case_if; [done|lia]. }
  unfold convert_path_to_afp. replace (n <=? 0) with false by lia.
  rewrite strnlen_id, Z.min_r by (done || lia). replace (zlen out >=? n) with false by lia.
  replace (take (Z.to_nat (zlen out)) out) with out by (unfold zlen; by rewrite Nat2Z.id, firstn_all).
  change (kFPLongName =? kFPUTF8Name) with false. change (kFPLongName =? kFPLongName) with true. cbv iota.
  assert (Hend : (strnlen (map path_byte src) n >? UINT8_MAX) = false).
  { rewrite strnlen_id, zlen_map by (done || lia). unfold UINT8_MAX. lia. }
  destruct (utf8_is_ascii out) eqn:Ea.
  - unfold copy_identity. replace (zlen out >=? n) with false by lia.
    rewrite until_nul_id by done.
    assert (out = map path_byte src) as -> by by apply ascii_shown. simpl Z.ltb. cbv iota. by rewrite Hend.
  - unfold out at 1. rewrite no_supplementary by done. unfold convert_utf8_to_mac_roman.
    replace ((zlen out <=? 0) || (n <=? 0))%bool with false by lia.
    replace (ucs2_buffer_get heap (zlen out + 1)) with true
      by (unfold ucs2_buffer_get, UCS2_STACK_CHARS, AFP_MAX_UTF8_NAME_CHARS; lia).
    unfold UTF8toUCS2. replace (zlen out + 1 <=? 0) with false by lia. unfold out at 1 2.
    rewrite utf8_loop_encode; [|done|done|rewrite zlen_map; fold out; lia]. cbn [negb dec_substituted dec_consumed dec_chars].
    fold out. rewrite !Z.eqb_refl. cbn [negb orb]. rewrite to_mac_roman_all by done.
    change (0 <? 0) with false. cbv iota. by rewrite Hend.
Qed.

(** A Mac Roman name survives the way to the client and back. A name the
    server sent as a long name, of up to 255 bytes the tables convert both
    ways and without the colon AFP reserves, is shown to the client by
    convert_name_to_unix(); the shown name, converted by
    convert_path_to_afp() and by the byte map of unixpath_to_afppath(), is the
    server's name again, slashes included. *)
Theorem mac_roman_name_roundtrip heap src n dest0 dest1 :
  Forall mac_byte src -> src <> [] -> zlen src <= 255 -> 3 * zlen src < n <= INT_MAX ->
  exists out,
    convert_name_to_unix heap kFPLongName src n dest0 = (0, out)
    /\ (ch_slash ∉ out)
    /\ snd (convert_path_to_afp heap kFPLongName out n dest1) = map path_byte src
    /\ fst (convert_path_to_afp heap kFPLongName out n dest1) = 0
    /\ map afp_path_byte (map path_byte src) = src.
Proof.
  intros Hs Hne Hlen Hn. destruct (shown_ok src Hs) as [Hok _]. exists (utf8_of (map shown src)).
  assert (0 < zlen src) by (destruct src; [done|rewrite zlen_cons; pose proof (zlen_nonneg src); lia]).
  assert (Hmr : Forall char_ok (map mac_roman_char src)).
  { apply Forall_map. eapply Forall_impl; [exact Hs|]. intros b (Hb & _). apply (mac_roman_char_scalar b Hb). }
  assert (Hlen2 : zlen (utf8_of (map mac_roman_char src)) <= 3 * zlen src)
    by (pose proof (utf8_len _ Hmr); rewrite zlen_map in *; lia).
  assert (Hlen3 : zlen (utf8_of (map shown src)) <= 3 * zlen src)
    by (pose proof (utf8_len _ Hok); rewrite zlen_map in *; lia).
  assert (Hname : convert_name_to_unix heap kFPLongName src n dest0 = (0, utf8_of (map shown src))).
  { unfold convert_name_to_unix, INT_MAX in *.
    replace ((n =? 0) || (zlen src >? 2147483647) || (n >? 2147483647))%bool with false by lia.
    unfold name_to_unix_bytes. change (kFPLongName =? kFPUTF8Name) with false.
    change (kFPLongName =? kFPLongName) with true. cbv iota. unfold convert_mac_roman_to_utf8.
    replace ((zlen src <=? 0) || (n <=? 0))%bool with false by lia.
    rewrite mac_roman_loop_all, UCS2toUTF8_spec by (done || lia).
    replace (zlen (utf8_of (map mac_roman_char src)) <? n) with true by lia. cbn [snd]. simpl Z.ltb. cbv iota.
    rewrite slash_to_colon_all by (unfold zlen in *; lia). f_equal. by apply shown_bytes. }
  split; [done|]. rewrite shown_to_afp by (done || lia). split; [|split; [done|split; [done|]]].
  - destruct (name_to_unix_safe heap kFPLongName src n dest0 0 (utf8_of (map shown src)))
      as [(_ & _ & _ & _ & Hx)|Hx]; try done; [|lia].
    eapply Forall_impl; [exact Hs|]. intros b (Hb & _). unfold byte_ok. lia.
  - rewrite map_map. clear - Hs. induction Hs as [|b r (Hb & Hc & _) _ IH]; [done|]. cbn [map]. rewrite IH. f_equal.
    unfold path_byte, afp_path_byte. destruct (b =? ch_slash) eqn:E; bool_to_prop; [by subst|].
    replace (b =? ch_slash) with false by lia. by replace (b =? ch_colon) with false by lia.
Qed.

(** The name "r/e(acute)" of an old volume. *)
Theorem mac_roman_name_roundtrip_witness :
  exists out,
    convert_name_to_unix (fun _ => false) kFPLongName [0x72; 0x2F; 0x8E] 64 [] = (0, out)
    /\ (ch_slash ∉ out)
    /\ snd (convert_path_to_afp (fun _ => false) kFPLongName out 64 []) = [0x72; ch_colon; 0x8E]
    /\ fst (convert_path_to_afp (fun _ => false) kFPLongName out 64 []) = 0
    /\ map afp_path_byte [0x72; ch_colon; 0x8E] = [0x72; 0x2F; 0x8E].
Proof.
  apply (mac_roman_name_roundtrip (fun _ => false) [0x72; 0x2F; 0x8E] 64 [] []).
  - apply (bool_decide_unpack _). vm_compute. exact I.
  - done.
  - vm_compute. discriminate.
  - vm_compute. split; [reflexivity|discriminate].
Defined.
