(* ===== verification/Dates.v ===== *)
(** Dates: afp_date_to_unix and afp_date_from_unix (lib/proto_server.c), and the
    nanoseconds of the records (lib/afp_internal.h, lib/listing.c). A date is
    the 32-bit value of its four bytes on the wire. *)
From S2P Require Import Prelude AfpProtocol.

Definition AD_DATE_DELTA : Z := 946684800.
Definition AFP_NS_PER_SEC : Z := 1000000000.
Definition INT32_MAX : Z := 2147483647.
Definition INT32_MIN : Z := -2147483648.
Definition unset_date : Z := 0x80000000.

(** The server's clock: the version in use, when one is, and its offset. *)
Record clock := Clock { using_version : option Z; time_offset : Z }.

Definition server_uses_local_time (server : option clock) : bool :=
  match server with
  | Some c => match using_version c with Some v => v <? 30 | None => false end
  | None => false
  end.

(** What a server's dates are shifted by. *)
Definition local_offset (server : option clock) : Z :=
  match server with
  | Some c => if server_uses_local_time server then time_offset c else 0
  | None => 0
  end.

Definition afp_date_to_unix (server : option clock) (wire_seconds : Z) : Z :=
  let seconds := if negb (Z.land wire_seconds 0x80000000 =? 0)
                 then wire_seconds - 0x100000000 else wire_seconds in
  let seconds := seconds + AD_DATE_DELTA in
  if server_uses_local_time server then seconds - local_offset server else seconds.

Definition afp_date_from_unix (server : option clock) (date : Z) : Z :=
  let seconds := if date >? Z.shiftl 1 32 then Z.shiftl 1 32
                 else if date <? - Z.shiftl 1 32 then - Z.shiftl 1 32 else date in
  let seconds := seconds - AD_DATE_DELTA in
  let seconds := if server_uses_local_time server then seconds + local_offset server else seconds in
  let seconds := if seconds >? INT32_MAX then INT32_MAX
                 else if seconds <=? INT32_MIN then INT32_MIN + 1 else seconds in
  u32 seconds.

(** Saturated nanoseconds, and the seconds of nanoseconds toward zero. *)
Definition afp_ns_from_sec (s : Z) : Z :=
  if s >? Z.quot INT64_MAX AFP_NS_PER_SEC then INT64_MAX
  else if s <? Z.quot INT64_MIN AFP_NS_PER_SEC then INT64_MIN
  else s * AFP_NS_PER_SEC.

Definition afp_sec_from_ns (ns : Z) : Z := Z.quot ns AFP_NS_PER_SEC.

(** The timespec afp_dirent_time makes of a date that is set: seconds and
    nanoseconds, a date before 1970 borrowing a second. *)
Definition dirent_timespec (ns : Z) : Z * Z :=
  let tv_sec := afp_sec_from_ns ns in
  let tv_nsec := Z.rem ns AFP_NS_PER_SEC in
  if tv_nsec <? 0 then (tv_sec - 1, tv_nsec + AFP_NS_PER_SEC) else (tv_sec, tv_nsec).

(** ** Properties *)

Lemma sign_bit w : 0 <= w < 2 ^ 32 -> (Z.land w 0x80000000 =? 0) = (w <? 0x80000000).
Proof.
  intros Hw. change 0x80000000 with (2 ^ 31) at 1. destruct (Z.ltb_spec w 0x80000000) as [H|H].
  - apply Z.eqb_eq, Z.bits_inj'. intros n Hn. rewrite Z.land_spec, Z.bits_0.
    destruct (Z.eq_dec n 31) as [->|Hne]; [|by rewrite Z.pow2_bits_false, andb_false_r by lia].
    rewrite <- (Z.mod_small w (2 ^ 31)) by lia. by rewrite Z.mod_pow2_bits_high.
  - apply Z.eqb_neq. intros E. apply (f_equal (fun x => Z.testbit x 31)) in E.
    rewrite Z.land_spec, Z.pow2_bits_true, andb_true_r, Z.bits_0 in E by lia.
    apply Z.testbit_false in E; [|lia]. Z.div_mod_to_equations. lia.
Qed.

(** The signed value of a date, from its wire form. *)
Lemma u32_signed s : INT32_MIN <= s <= INT32_MAX ->
  0 <= u32 s < 2 ^ 32 /\ (if u32 s <? 0x80000000 then u32 s else u32 s - 0x100000000) = s.
Proof.
  unfold INT32_MIN, INT32_MAX, u32. intros Hs. split; [apply Z.mod_pos_bound; lia|].
  case_if; bool_to_prop; Z.div_mod_to_equations; lia.
Qed.

(** AFP dates. Writing a time as a date and reading it back, with the same
    server clock, gives the time itself when AFP's signed seconds from 2000
    hold it, and else the nearest time they hold; the date written is never
    the one that means "unset". *)
Theorem afp_date_roundtrip server t :
  Z.abs (local_offset server) <= 2 ^ 30 ->
  let lowest := INT32_MIN + 1 + AD_DATE_DELTA - local_offset server in
  let highest := INT32_MAX + AD_DATE_DELTA - local_offset server in
  afp_date_to_unix server (afp_date_from_unix server t) = Z.max lowest (Z.min t highest)
  /\ afp_date_from_unix server t <> unset_date
  /\ 0 <= afp_date_from_unix server t < 2 ^ 32.
Proof.
  intros Hoff lowest highest.
  assert (H0 : server_uses_local_time server = false -> local_offset server = 0).
  { unfold local_offset. by destruct server as [c|]; [intros ->|]. }
  set (clamp := Z.max (INT32_MIN + 1) (Z.min INT32_MAX (t - AD_DATE_DELTA + local_offset server))).
  assert (Hc : afp_date_from_unix server t = u32 clamp).
  { unfold afp_date_from_unix, clamp. f_equal. change (Z.shiftl 1 32) with 4294967296.
    unfold INT32_MIN, INT32_MAX, AD_DATE_DELTA. destruct (server_uses_local_time server) eqn:E;
      [|rewrite H0 by done]; repeat case_if; bool_to_prop; lia. }
  assert (Hr : INT32_MIN + 1 <= clamp <= INT32_MAX) by (unfold clamp, INT32_MIN, INT32_MAX; lia).
  rewrite Hc. destruct (u32_signed clamp ltac:(lia)) as [Hu Hs]. split; [|split].
  - unfold afp_date_to_unix. rewrite sign_bit by done.
    assert (Hs' : (if negb (u32 clamp <? 0x80000000) then u32 clamp - 0x100000000 else u32 clamp) = clamp)
      by (destruct (u32 clamp <? 0x80000000); done).
    rewrite Hs'. unfold lowest, highest, clamp, INT32_MIN, INT32_MAX, AD_DATE_DELTA in *.
    destruct (server_uses_local_time server) eqn:E; [lia|rewrite (H0 eq_refl); lia].
  - unfold unset_date. intros E. rewrite E in Hs. simpl in Hs. unfold INT32_MIN in *. lia.
  - done.
Qed.

Theorem afp_date_roundtrip_witness :
  afp_date_to_unix None (afp_date_from_unix None 1700000000) = 1700000000
  /\ afp_date_from_unix None (-3000000000) = 0x80000001.
Proof.
  split; [|vm_compute; reflexivity].
  rewrite (proj1 (afp_date_roundtrip None 1700000000 ltac:(vm_compute; discriminate))). vm_compute. reflexivity.
Defined.

(** The time shown for a record's date is the floor of its nanoseconds. *)
Lemma timespec_floor ns :
  let '(tv_sec, tv_nsec) := dirent_timespec ns in
  0 <= tv_nsec < AFP_NS_PER_SEC /\ tv_sec * AFP_NS_PER_SEC + tv_nsec = ns.
Proof.
  unfold dirent_timespec, afp_sec_from_ns, AFP_NS_PER_SEC.
  pose proof (Z.quot_rem' ns 1000000000) as Hq.
  pose proof (Z.rem_bound_abs ns 1000000000 ltac:(lia)) as Hb.
  case_if; bool_to_prop; lia.
Qed.
