(* ===== verification/ReplyBlock.v ===== *)
(** The parameter block of a file's or directory's reply
    (lib/proto_replyblock.c): parse_reply_block and its helpers.

    The block is the first [size] bytes of a memory [buf]; a position is an
    offset in it. A parser answers the next position, the record and the name,
    or [None] for the -1 of a block too short. *)
From S2P Require Import Prelude AfpProtocol Utf8 Codepage Dates.

(** ** The record (struct afp_dirent) *)

Record afp_dirent := Dirent {
  d_size : Z;
  d_resourcesize : Z;
  create_ns : Z;
  mod_ns : Z;
  valid : Z;
  cnid : Z;
  parent_did : Z;
  up_uid : Z;
  up_gid : Z;
  up_permissions : Z;
  up_ua_permissions : Z;
  name_off : Z;
  attributes : Z;
  offspring : Z;
  isdir : Z;
  kind : Z;
  finderinfo : list Z }.

Definition set_attributes (bit v : Z) (e : afp_dirent) : afp_dirent :=
  Dirent (d_size e) (d_resourcesize e) (create_ns e) (mod_ns e) (Z.lor (valid e) bit) (cnid e)
    (parent_did e) (up_uid e) (up_gid e) (up_permissions e) (up_ua_permissions e) (name_off e)
    (v) (offspring e) (isdir e) (kind e) (finderinfo e).

Definition set_parent_did (bit v : Z) (e : afp_dirent) : afp_dirent :=
  Dirent (d_size e) (d_resourcesize e) (create_ns e) (mod_ns e) (Z.lor (valid e) bit) (cnid e)
    (v) (up_uid e) (up_gid e) (up_permissions e) (up_ua_permissions e) (name_off e) (attributes
    e) (offspring e) (isdir e) (kind e) (finderinfo e).

Definition set_create_ns (bit v : Z) (e : afp_dirent) : afp_dirent :=
  Dirent (d_size e) (d_resourcesize e) (v) (mod_ns e) (Z.lor (valid e) bit) (cnid e) (parent_did
    e) (up_uid e) (up_gid e) (up_permissions e) (up_ua_permissions e) (name_off e) (attributes
    e) (offspring e) (isdir e) (kind e) (finderinfo e).

Definition set_mod_ns (bit v : Z) (e : afp_dirent) : afp_dirent :=
  Dirent (d_size e) (d_resourcesize e) (create_ns e) (v) (Z.lor (valid e) bit) (cnid e)
    (parent_did e) (up_uid e) (up_gid e) (up_permissions e) (up_ua_permissions e) (name_off e)
    (attributes e) (offspring e) (isdir e) (kind e) (finderinfo e).

Definition set_cnid (bit v : Z) (e : afp_dirent) : afp_dirent :=
  Dirent (d_size e) (d_resourcesize e) (create_ns e) (mod_ns e) (Z.lor (valid e) bit) (v)
    (parent_did e) (up_uid e) (up_gid e) (up_permissions e) (up_ua_permissions e) (name_off e)
    (attributes e) (offspring e) (isdir e) (kind e) (finderinfo e).

Definition set_offspring (bit v : Z) (e : afp_dirent) : afp_dirent :=
  Dirent (d_size e) (d_resourcesize e) (create_ns e) (mod_ns e) (Z.lor (valid e) bit) (cnid e)
    (parent_did e) (up_uid e) (up_gid e) (up_permissions e) (up_ua_permissions e) (name_off e)
    (attributes e) (v) (isdir e) (kind e) (finderinfo e).

Definition set_uid (bit v : Z) (e : afp_dirent) : afp_dirent :=
  Dirent (d_size e) (d_resourcesize e) (create_ns e) (mod_ns e) (Z.lor (valid e) bit) (cnid e)
    (parent_did e) (v) (up_gid e) (up_permissions e) (up_ua_permissions e) (name_off e)
    (attributes e) (offspring e) (isdir e) (kind e) (finderinfo e).

Definition set_gid (bit v : Z) (e : afp_dirent) : afp_dirent :=
  Dirent (d_size e) (d_resourcesize e) (create_ns e) (mod_ns e) (Z.lor (valid e) bit) (cnid e)
    (parent_did e) (up_uid e) (v) (up_permissions e) (up_ua_permissions e) (name_off e)
    (attributes e) (offspring e) (isdir e) (kind e) (finderinfo e).

Definition set_size (bit v : Z) (e : afp_dirent) : afp_dirent :=
  Dirent (v) (d_resourcesize e) (create_ns e) (mod_ns e) (Z.lor (valid e) bit) (cnid e)
    (parent_did e) (up_uid e) (up_gid e) (up_permissions e) (up_ua_permissions e) (name_off e)
    (attributes e) (offspring e) (isdir e) (kind e) (finderinfo e).

Definition set_resourcesize (bit v : Z) (e : afp_dirent) : afp_dirent :=
  Dirent (d_size e) (v) (create_ns e) (mod_ns e) (Z.lor (valid e) bit) (cnid e) (parent_did e)
    (up_uid e) (up_gid e) (up_permissions e) (up_ua_permissions e) (name_off e) (attributes e)
    (offspring e) (isdir e) (kind e) (finderinfo e).

Definition set_finderinfo (bit : Z) (v : list Z) (e : afp_dirent) : afp_dirent :=
  Dirent (d_size e) (d_resourcesize e) (create_ns e) (mod_ns e) (Z.lor (valid e) bit) (cnid e)
    (parent_did e) (up_uid e) (up_gid e) (up_permissions e) (up_ua_permissions e) (name_off e)
    (attributes e) (offspring e) (isdir e) (kind e) (v).

Definition set_valid (bit : Z) (e : afp_dirent) : afp_dirent :=
  Dirent (d_size e) (d_resourcesize e) (create_ns e) (mod_ns e) (Z.lor (valid e) bit) (cnid e)
    (parent_did e) (up_uid e) (up_gid e) (up_permissions e) (up_ua_permissions e) (name_off e)
    (attributes e) (offspring e) (isdir e) (kind e) (finderinfo e).

Definition set_unixprivs (bit uid gid perm ua : Z) (e : afp_dirent) : afp_dirent :=
  Dirent (d_size e) (d_resourcesize e) (create_ns e) (mod_ns e) (Z.lor (valid e) bit) (cnid e)
    (parent_did e) (uid) (gid) (perm) (ua) (name_off e) (attributes e) (offspring e) (isdir e)
    (kind e) (finderinfo e).

Definition empty_dirent (is_dir : Z) : afp_dirent :=
  Dirent 0 0 0 0 0 0 0 0 0 0 0 0 0 0 is_dir 0 (zero_bytes 32).

(** ** The parsers *)

Section Parser.

Context (heap : Z -> bool) (server : option clock).
Context (buf : list Z) (size : Z).

(** The position, the record, and the name's buffer: [None] for a name the
    caller skips. *)
Record pstate := PState { p2 : Z; entry : afp_dirent; pname : option (list Z) }.

Definition need_bytes (p len : Z) : bool := (p <=? size) && (size - p >=? len).

Definition locate_pascal (offset : Z) : option (list Z) :=
  if offset >=? size then None
  else
    let len := byte_at buf offset in
    if need_bytes (offset + 1) len then Some (sub (offset + 1) len buf) else None.

Definition locate_afpname (offset : Z) : option (list Z) :=
  if (offset >? size) || (size - offset <? 6) then None
  else
    let len := be_at buf (offset + 4) 2 in
    if need_bytes (offset + 6) len then Some (sub (offset + 6) len buf) else None.

(** [None] for the -1; a name the caller skips stays skipped. *)
Definition store_name (encoding : Z) (src : list Z) (name : option (list Z)) (name_len : Z)
    : option (option (list Z)) :=
  match name with
  | None => Some None
  | Some dest =>
      let (r, out) := convert_name_to_unix heap encoding src name_len dest in
      if r <? 0 then None else Some (Some out)
  end.

(** A big-endian parameter of [len] bytes, stored by [f]. *)
Definition parse_be (len : Z) (f : Z -> afp_dirent -> afp_dirent) (s : pstate) : option pstate :=
  if need_bytes (p2 s) len
  then Some (PState (p2 s + len) (f (be_at buf (p2 s) len) (entry s)) (pname s))
  else None.

Definition parse_u16 := parse_be 2.
Definition parse_u32 := parse_be 4.
Definition parse_u64 := parse_be 8.

Definition parse_date (f : Z -> afp_dirent -> afp_dirent) (s : pstate) : option pstate :=
  if need_bytes (p2 s) 4 then
    let date := be_at buf (p2 s) 4 in
    Some (PState (p2 s + 4)
            (if negb (date =? unset_date)
             then f (afp_ns_from_sec (afp_date_to_unix server date)) (entry s) else entry s)
            (pname s))
  else None.

Definition skip_bytes (len : Z) (s : pstate) : option pstate :=
  if need_bytes (p2 s) len then Some (PState (p2 s + len) (entry s) (pname s)) else None.

Definition parse_finderinfo (s : pstate) : option pstate :=
  if need_bytes (p2 s) 32
  then Some (PState (p2 s + 32) (set_finderinfo kFPFinderInfoBit (sub (p2 s) 32 buf) (entry s)) (pname s))
  else None.

Definition parse_longname (name_len : Z) (s : pstate) : option pstate :=
  match parse_u16 (fun _ => set_valid kFPLongNameBit) s with
  | None => None
  | Some s' =>
      match locate_pascal (be_at buf (p2 s) 2) with
      | None => None
      | Some src => PState (p2 s') (entry s') <$> store_name kFPLongName src (pname s) name_len
      end
  end.

Definition parse_utf8name (name_len : Z) (s : pstate) : option pstate :=
  match parse_u16 (fun _ => set_valid kFPUTF8NameBit) s with
  | None => None
  | Some s' =>
      match skip_bytes 4 s' with
      | None => None
      | Some s'' =>
          match locate_afpname (be_at buf (p2 s) 2) with
          | None => None
          | Some src => PState (p2 s'') (entry s'') <$> store_name kFPUTF8Name src (pname s) name_len
          end
      end
  end.

Definition parse_unixprivs (s : pstate) : option pstate :=
  if need_bytes (p2 s) 16
  then Some (PState (p2 s + 16)
               (set_unixprivs kFPUnixPrivsBit (be_at buf (p2 s) 4) (be_at buf (p2 s + 4) 4)
                  (be_at buf (p2 s + 8) 4) (be_at buf (p2 s + 12) 4) (entry s)) (pname s))
  else None.

(** A parameter the bitmap carries, or not. *)
Definition on (bitmap bit : Z) (parse : pstate -> option pstate) (s : pstate) : option pstate :=
  if has bitmap bit then parse s else Some s.

(** The parameters in the order the code reads them; the first that is cut
    short ends the parse. *)
Fixpoint run (parsers : list (pstate -> option pstate)) (s : pstate) : option pstate :=
  match parsers with
  | [] => Some s
  | p :: r => match p s with Some s' => run r s' | None => None end
  end.

Definition parse_dir_part (bitmap : Z) : list (pstate -> option pstate) :=
  [on bitmap kFPOffspringCountBit (parse_u16 (set_offspring kFPOffspringCountBit));
   on bitmap kFPOwnerIDBit (parse_u32 (set_uid kFPOwnerIDBit));
   on bitmap kFPGroupIDBit (parse_u32 (set_gid kFPGroupIDBit));
   on bitmap kFPAccessRightsBit (skip_bytes 4)].

Definition parse_file_part (bitmap : Z) : list (pstate -> option pstate) :=
  [on bitmap kFPDataForkLenBit (parse_u32 (set_size kFPDataForkLenBit));
   on bitmap kFPRsrcForkLenBit (parse_u32 (set_resourcesize kFPRsrcForkLenBit));
   on bitmap kFPExtDataForkLenBit (parse_u64 (set_size kFPExtDataForkLenBit));
   on bitmap kFPLaunchLimitBit (skip_bytes 2)].

Definition parse_all (is_dir bitmap name_len : Z) : list (pstate -> option pstate) :=
  [on bitmap kFPAttributeBit (parse_u16 (set_attributes kFPAttributeBit));
   on bitmap kFPParentDirIDBit (parse_u32 (set_parent_did kFPParentDirIDBit));
   on bitmap kFPCreateDateBit (parse_date (set_create_ns kFPCreateDateBit));
   on bitmap kFPModDateBit (parse_date (set_mod_ns kFPModDateBit));
   on bitmap kFPBackupDateBit (skip_bytes 4);
   on bitmap kFPFinderInfoBit parse_finderinfo;
   on bitmap kFPLongNameBit (parse_longname name_len);
   on bitmap kFPShortNameBit (skip_bytes 2);
   on bitmap kFPNodeIDBit (parse_u32 (set_cnid kFPNodeIDBit))]
  ++ (if is_dir =? 0 then parse_file_part bitmap else parse_dir_part bitmap)
  ++ [on bitmap kFPUTF8NameBit (parse_utf8name name_len);
      on bitmap kFPExtRsrcForkLenBit (parse_u64 (set_resourcesize kFPExtRsrcForkLenBit));
      on bitmap kFPUnixPrivsBit parse_unixprivs].

Definition parse_reply_block (is_dir filebitmap dirbitmap : Z) (name : option (list Z)) (name_len : Z)
    : option pstate :=
  let bitmap := if is_dir =? 0 then filebitmap else dirbitmap in
  let name0 := match name with
               | Some d => Some (if name_len >? 0 then [] else d)
               | None => None
               end in
  run (parse_all is_dir bitmap name_len) (PState 0 (empty_dirent is_dir) name0).

End Parser.

(** ** No read past the block

    Two memories with the same first [size] bytes parse alike: the parse does
    not depend on a byte past the block. *)

Section Local.

Context (heap : Z -> bool) (server : option clock) (mem mem' : list Z) (size : Z).
Context (Hmem : bytes_ok mem) (Hsame : take (Z.to_nat size) mem = take (Z.to_nat size) mem').

Lemma need_bytes_spec p len : need_bytes size p len = true <-> p <= size /\ p + len <= size.
Proof. unfold need_bytes. rewrite andb_true_iff, Z.leb_le, Z.geb_leb, Z.leb_le. lia. Qed.

Lemma locate_pascal_local off : 0 <= off -> locate_pascal mem size off = locate_pascal mem' size off.
Proof.
  intros Ho. unfold locate_pascal. case_if; [done|]. bool_to_prop.
  rewrite <- (byte_at_prefix size mem mem') by (done || lia).
  destruct (need_bytes _ _ _) eqn:En; [|done]. apply need_bytes_spec in En. pose proof (byte_at_ok mem off Hmem) as Hb. unfold byte_ok in Hb.
  by rewrite (sub_prefix size mem mem') by (done || lia).
Qed.

Lemma locate_afpname_local off : 0 <= off -> locate_afpname mem size off = locate_afpname mem' size off.
Proof.
  intros Ho. unfold locate_afpname. case_if; [done|]. bool_to_prop.
  rewrite <- (be_at_prefix size mem mem') by (done || lia).
  destruct (need_bytes _ _ _) eqn:En; [|done]. apply need_bytes_spec in En. pose proof (be_at_range mem (off + 4) 2 Hmem ltac:(lia)) as Hb.
  by rewrite (sub_prefix size mem mem') by (done || lia).
Qed.

(** A parser that answers the same on both memories, and goes forward. *)
Definition local (a b : pstate -> option pstate) : Prop :=
  forall s, 0 <= p2 s -> a s = b s /\ (forall s', a s = Some s' -> p2 s <= p2 s' <= Z.max (p2 s) size).

Lemma local_be len f : 0 < len -> local (parse_be mem size len f) (parse_be mem' size len f).
Proof.
  intros Hl s Hs. unfold parse_be. destruct (need_bytes size (p2 s) len) eqn:E; [|by split].
  apply need_bytes_spec in E. rewrite (be_at_prefix size mem mem') by (done || lia).
  split; [done|]. intros s' [= <-]. simpl. lia.
Qed.

Lemma local_skip len : 0 < len -> local (skip_bytes size len) (skip_bytes size len).
Proof.
  intros Hl s Hs. split; [done|]. unfold skip_bytes. case_if; [|done]. apply need_bytes_spec in E.
  intros s' [= <-]. simpl. lia.
Qed.

Lemma local_date f : local (parse_date server mem size f) (parse_date server mem' size f).
Proof.
  intros s Hs. unfold parse_date. destruct (need_bytes size (p2 s) 4) eqn:E; [|by split].
  apply need_bytes_spec in E. rewrite (be_at_prefix size mem mem') by (done || lia).
  split; [done|]. intros s' [= <-]. simpl. lia.
Qed.

Lemma local_finderinfo : local (parse_finderinfo mem size) (parse_finderinfo mem' size).
Proof.
  intros s Hs. unfold parse_finderinfo. destruct (need_bytes size (p2 s) 32) eqn:E; [|by split].
  apply need_bytes_spec in E. rewrite (sub_prefix size mem mem') by (done || lia).
  split; [done|]. intros s' [= <-]. simpl. lia.
Qed.

Lemma local_unixprivs : local (parse_unixprivs mem size) (parse_unixprivs mem' size).
Proof.
  intros s Hs. unfold parse_unixprivs. destruct (need_bytes size (p2 s) 16) eqn:E; [|by split].
  apply need_bytes_spec in E. rewrite !(be_at_prefix size mem mem') by (done || lia).
  split; [done|]. intros s' [= <-]. simpl. lia.
Qed.

Lemma local_longname n : local (parse_longname heap mem size n) (parse_longname heap mem' size n).
Proof.
  intros s Hs. unfold parse_longname, parse_u16, parse_be.
  destruct (need_bytes size (p2 s) 2) eqn:E; [|by split]. apply need_bytes_spec in E.
  pose proof (be_at_range mem (p2 s) 2 Hmem ltac:(lia)) as Hb.
  rewrite <- !(be_at_prefix size mem mem') by (done || lia). rewrite <- locate_pascal_local by lia.
  destruct (locate_pascal mem size _); [|by split]. split; [done|]. intros s'.
  destruct (store_name _ _ _ _ _); [|done]. intros [= <-]. simpl. lia.
Qed.

Lemma local_utf8name n : local (parse_utf8name heap mem size n) (parse_utf8name heap mem' size n).
Proof.
  intros s Hs. unfold parse_utf8name, parse_u16, parse_be.
  destruct (need_bytes size (p2 s) 2) eqn:E; [|by split]. apply need_bytes_spec in E.
  pose proof (be_at_range mem (p2 s) 2 Hmem ltac:(lia)) as Hb.
  rewrite <- !(be_at_prefix size mem mem') by (done || lia). unfold skip_bytes. cbn [p2].
  destruct (need_bytes size (p2 s + 2) 4) eqn:E2; [|by split]. apply need_bytes_spec in E2.
  rewrite <- locate_afpname_local by lia.
  destruct (locate_afpname mem size _); [|by split]. split; [done|]. intros s'.
  destruct (store_name _ _ _ _ _); [|done]. intros [= <-]. simpl. lia.
Qed.

Lemma local_on bitmap bit a b : local a b -> local (on bitmap bit a) (on bitmap bit b).
Proof.
  intros Hab s Hs. unfold on. destruct (has bitmap bit); [by apply Hab|].
  split; [done|]. intros s' [= <-]. lia.
Qed.

Lemma run_local ps ps' s :
  Forall2 local ps ps' -> 0 <= p2 s ->
  run ps s = run ps' s /\ (forall s', run ps s = Some s' -> p2 s <= p2 s' <= Z.max (p2 s) size).
Proof.
  intros H. revert s. induction H as [|a b ps ps' Hab _ IH]; intros s Hs; simpl.
  - split; [done|]. intros s' [= <-]. lia.
  - destruct (Hab s Hs) as [<- Hf]. destruct (a s) as [s1|] eqn:E; [|by split].
    specialize (Hf s1 eq_refl). destruct (IH s1 ltac:(lia)) as [H1 H2]. split; [done|].
    intros s' Hs'. specialize (H2 s' Hs'). lia.
Qed.

Lemma parse_all_local is_dir bitmap n :
  Forall2 local (parse_all heap server mem size is_dir bitmap n)
                (parse_all heap server mem' size is_dir bitmap n).
Proof.
  unfold parse_all, parse_file_part, parse_dir_part, parse_u16, parse_u32, parse_u64.
  destruct (is_dir =? 0); cbn [app];
    repeat (apply List.Forall2_cons; [apply local_on;
      first [apply local_be; lia|apply local_skip; lia|apply local_date|apply local_finderinfo
            |apply local_longname|apply local_utf8name|apply local_unixprivs]|]); apply List.Forall2_nil.
Qed.

End Local.

Lemma parse_reply_block_local heap server mem mem' size is_dir fbm dbm name n :
  bytes_ok mem -> 0 <= size -> take (Z.to_nat size) mem = take (Z.to_nat size) mem' ->
  parse_reply_block heap server mem size is_dir fbm dbm name n
  = parse_reply_block heap server mem' size is_dir fbm dbm name n
  /\ forall s, parse_reply_block heap server mem size is_dir fbm dbm name n = Some s -> 0 <= p2 s <= size.
Proof.
  intros Hmem Hsize Hsame. unfold parse_reply_block.
  destruct (run_local size _ _ (PState 0 (empty_dirent is_dir)
    (match name with Some d => Some (if n >? 0 then [] else d) | None => None end))
    (parse_all_local heap server mem mem' size Hmem Hsame is_dir (if is_dir =? 0 then fbm else dbm) n))
    as [H1 H2]; [simpl; lia|].
  split; [exact H1|]. intros s Hs. specialize (H2 s Hs). simpl in H2. lia.
Qed.

(** Parsing a reply's parameter block never reads past the block. Whatever
    bytes the server sent, and whatever the bitmaps, the record and the name
    do not depend on memory past the block's size, and a parse that succeeds
    has stayed within it. *)
Theorem parse_reply_block_bounded heap server mem mem' size is_dir fbm dbm name n :
  bytes_ok mem -> 0 <= size -> take (Z.to_nat size) mem = take (Z.to_nat size) mem' ->
  parse_reply_block heap server mem size is_dir fbm dbm name n
  = parse_reply_block heap server mem' size is_dir fbm dbm name n
  /\ forall s, parse_reply_block heap server mem size is_dir fbm dbm name n = Some s -> 0 <= p2 s <= size.
Proof. apply parse_reply_block_local. Qed.

Theorem parse_reply_block_bounded_witness :
  parse_reply_block (fun _ => false) None [0; 7; 99] 2 0 kFPAttributeBit 0 None 0
  = parse_reply_block (fun _ => false) None [0; 7] 2 0 kFPAttributeBit 0 None 0.
Proof.
  apply (parse_reply_block_bounded (fun _ => false) None [0; 7; 99] [0; 7] 2 0 kFPAttributeBit 0 None 0); [|lia|done].
  apply (bool_decide_unpack _). vm_compute. exact I.
Defined.

(** ** A block as a server writes it *)

(** The parameters of an object; the names' offsets in the block. *)
Record params := Params {
  q_attributes : Z; q_parent : Z; q_create : Z; q_mod : Z; q_backup : Z; q_finder : list Z;
  q_long : Z; q_short : Z; q_node : Z;
  q_offspring : Z; q_owner : Z; q_group : Z; q_access : Z;
  q_datalen : Z; q_rsrclen : Z; q_extdata : Z; q_launch : Z;
  q_utf8 : Z; q_hint : Z; q_extrsrc : Z; q_uid : Z; q_gid : Z; q_perm : Z; q_ua : Z }.

Definition u_ok (n : nat) (v : Z) : Prop := 0 <= v < 256 ^ Z.of_nat n.

Record params_ok (x : params) : Prop := {
  ok_16 : Forall (u_ok 2) [q_attributes x; q_long x; q_short x; q_offspring x; q_launch x; q_utf8 x];
  ok_32 : Forall (u_ok 4) [q_parent x; q_create x; q_mod x; q_backup x; q_node x; q_owner x; q_group x;
                           q_access x; q_datalen x; q_rsrclen x; q_hint x; q_uid x; q_gid x; q_perm x; q_ua x];
  ok_64 : Forall (u_ok 8) [q_extdata x; q_extrsrc x];
  ok_finder : zlen (q_finder x) = 32 /\ bytes_ok (q_finder x) }.

(** The fixed part: the bitmap's parameters, in its order. *)
Definition fixed_dir (x : params) : list (Z * list Z) :=
  [(kFPOffspringCountBit, be_put 2 (q_offspring x)); (kFPOwnerIDBit, be_put 4 (q_owner x));
   (kFPGroupIDBit, be_put 4 (q_group x)); (kFPAccessRightsBit, be_put 4 (q_access x))].

Definition fixed_file (x : params) : list (Z * list Z) :=
  [(kFPDataForkLenBit, be_put 4 (q_datalen x)); (kFPRsrcForkLenBit, be_put 4 (q_rsrclen x));
   (kFPExtDataForkLenBit, be_put 8 (q_extdata x)); (kFPLaunchLimitBit, be_put 2 (q_launch x))].

Definition fixed_fields (is_dir : Z) (x : params) : list (Z * list Z) :=
  [(kFPAttributeBit, be_put 2 (q_attributes x)); (kFPParentDirIDBit, be_put 4 (q_parent x));
   (kFPCreateDateBit, be_put 4 (q_create x)); (kFPModDateBit, be_put 4 (q_mod x));
   (kFPBackupDateBit, be_put 4 (q_backup x)); (kFPFinderInfoBit, q_finder x);
   (kFPLongNameBit, be_put 2 (q_long x)); (kFPShortNameBit, be_put 2 (q_short x));
   (kFPNodeIDBit, be_put 4 (q_node x))]
  ++ (if is_dir =? 0 then fixed_file x else fixed_dir x)
  ++ [(kFPUTF8NameBit, be_put 2 (q_utf8 x) ++ be_put 4 (q_hint x));
      (kFPExtRsrcForkLenBit, be_put 8 (q_extrsrc x));
      (kFPUnixPrivsBit, be_put 4 (q_uid x) ++ be_put 4 (q_gid x) ++ be_put 4 (q_perm x) ++ be_put 4 (q_ua x))].

Definition carried (bitmap : Z) (f : Z * list Z) : list Z := if has bitmap (fst f) then snd f else [].

Definition fixed_part (is_dir bitmap : Z) (x : params) : list Z :=
  concat (map (carried bitmap) (fixed_fields is_dir x)).

(** ** Reading the fields back *)

Section Read.

Context (heap : Z -> bool) (server : option clock) (buf : list Z) (size : Z).
Context (Hsize : size = zlen buf).

(** A parser that finds its field at the position takes it and changes the
    record and the name as [f] says. *)
Definition reads (parse : pstate -> option pstate) (bytes : list Z)
    (f : afp_dirent * option (list Z) -> option (afp_dirent * option (list Z))) : Prop :=
  forall s pre post, buf = pre ++ bytes ++ post -> p2 s = zlen pre ->
  parse s = (fun en => PState (p2 s + zlen bytes) (fst en) (snd en)) <$> f (entry s, pname s).

Definition pure (g : afp_dirent -> afp_dirent) (en : afp_dirent * option (list Z))
    : option (afp_dirent * option (list Z)) := Some (g (fst en), snd en).

Lemma need_field bytes pre post : buf = pre ++ bytes ++ post -> need_bytes size (zlen pre) (zlen bytes) = true.
Proof.
  intros ->. apply need_bytes_spec. rewrite Hsize, !zlen_app.
  pose proof (zlen_nonneg bytes). pose proof (zlen_nonneg post). lia.
Qed.

Lemma sub_field bytes pre post len :
  buf = pre ++ bytes ++ post -> len = zlen bytes -> sub (zlen pre) len buf = bytes.
Proof.
  intros -> ->. pose proof (zlen_nonneg bytes). rewrite sub_app_r, Z.sub_diag, sub_app_l by lia.
  by apply sub_all.
Qed.

Lemma be_field n v pre post :
  buf = pre ++ be_put n v ++ post -> u_ok n v -> be_at buf (zlen pre) (Z.of_nat n) = v.
Proof.
  intros E Hv. unfold be_at. rewrite (sub_field (be_put n v) pre post) by (by rewrite ?zlen_be_put).
  by apply be_get_put_small.
Qed.

Lemma reads_be n v f :
  u_ok n v -> reads (parse_be buf size (Z.of_nat n) f) (be_put n v) (pure (f v)).
Proof.
  intros Hv s pre post E Hp. unfold parse_be. rewrite Hp, zlen_be_put.
  pose proof (need_field _ _ _ E) as Hn. rewrite zlen_be_put in Hn. rewrite Hn.
  by rewrite (be_field n v pre post).
Qed.

Lemma reads_skip n v : reads (skip_bytes size (Z.of_nat n)) (be_put n v) (pure id).
Proof.
  intros s pre post E Hp. unfold skip_bytes. rewrite Hp, zlen_be_put.
  pose proof (need_field _ _ _ E) as Hn. rewrite zlen_be_put in Hn. by rewrite Hn.
Qed.

Lemma reads_date v f :
  u_ok 4 v ->
  reads (parse_date server buf size f) (be_put 4 v)
    (pure (fun e => if negb (v =? unset_date) then f (afp_ns_from_sec (afp_date_to_unix server v)) e else e)).
Proof.
  intros Hv s pre post E Hp. unfold parse_date. rewrite Hp, zlen_be_put.
  pose proof (need_field _ _ _ E) as Hn. rewrite zlen_be_put in Hn. pose proof (be_field 4 v pre post E Hv) as F.
  change (Z.of_nat 4) with 4 in *. by rewrite Hn, F.
Qed.

Lemma reads_finderinfo v :
  zlen v = 32 -> reads (parse_finderinfo buf size) v (pure (set_finderinfo kFPFinderInfoBit v)).
Proof.
  intros Hv s pre post E Hp. unfold parse_finderinfo. rewrite Hp, Hv.
  pose proof (need_field _ _ _ E) as Hn. rewrite Hv in Hn. rewrite Hn. by rewrite (sub_field v pre post).
Qed.

(** The name step: the located bytes, converted. *)
Definition named (encoding : Z) (located : option (list Z)) (name_len : Z) (g : afp_dirent -> afp_dirent)
    (en : afp_dirent * option (list Z)) : option (afp_dirent * option (list Z)) :=
  match located with
  | None => None
  | Some src => pair (g (fst en)) <$> store_name heap encoding src (snd en) name_len
  end.

Lemma reads_longname n off :
  u_ok 2 off ->
  reads (parse_longname heap buf size n) (be_put 2 off)
    (named kFPLongName (locate_pascal buf size off) n (set_valid kFPLongNameBit)).
Proof.
  intros Hv s pre post E Hp. unfold parse_longname, parse_u16, parse_be. rewrite Hp, zlen_be_put.
  pose proof (need_field _ _ _ E) as Hn. rewrite zlen_be_put in Hn. pose proof (be_field 2 off pre post E Hv) as F.
  change (Z.of_nat 2) with 2 in *. rewrite Hn, F. unfold named.
  destruct (locate_pascal buf size off); [|done]. cbn [fst snd p2 entry pname]. by destruct (store_name _ _ _ _ _).
Qed.

Lemma reads_utf8name n off hint :
  u_ok 2 off ->
  reads (parse_utf8name heap buf size n) (be_put 2 off ++ be_put 4 hint)
    (named kFPUTF8Name (locate_afpname buf size off) n (set_valid kFPUTF8NameBit)).
Proof.
  intros Hv s pre post E Hp. unfold parse_utf8name, parse_u16, parse_be, skip_bytes.
  rewrite Hp, zlen_app, !zlen_be_put. rewrite <- app_assoc in E. change (Z.of_nat 2) with 2.
  pose proof (need_field _ _ _ E) as Hn. rewrite zlen_be_put in Hn. change (Z.of_nat 2) with 2 in Hn.
  rewrite Hn. cbn [p2 entry pname].
  assert (E2 : buf = (pre ++ be_put 2 off) ++ be_put 4 hint ++ post) by (by rewrite <- !app_assoc).
  pose proof (need_field _ _ _ E2) as Hn2. rewrite zlen_app, !zlen_be_put in Hn2.
  change (Z.of_nat 2) with 2 in Hn2. change (Z.of_nat 4) with 4 in *. rewrite Hn2.
  pose proof (be_field 2 off pre _ E Hv) as F. change (Z.of_nat 2) with 2 in F. rewrite F. unfold named.
  destruct (locate_afpname buf size off); [|done]. cbn [fst snd p2 entry pname].
  destruct (store_name _ _ _ _ _); [|done]. simpl. by rewrite Z.add_assoc.
Qed.

Lemma reads_unixprivs a b c d :
  Forall (u_ok 4) [a; b; c; d] ->
  reads (parse_unixprivs buf size) (be_put 4 a ++ be_put 4 b ++ be_put 4 c ++ be_put 4 d)
    (pure (set_unixprivs kFPUnixPrivsBit a b c d)).
Proof.
  intros Hv s pre post E Hp. unfold parse_unixprivs. rewrite Hp.
  pose proof (need_field _ _ _ E) as Hn. rewrite !zlen_app, !zlen_be_put in *.
  change (Z.of_nat 4 + (Z.of_nat 4 + (Z.of_nat 4 + Z.of_nat 4))) with 16 in *. rewrite Hn.
  inversion_clear Hv as [|? ? Ha Hv']. inversion_clear Hv' as [|? ? Hb Hv]. inversion_clear Hv as [|? ? Hc Hv'].
  inversion_clear Hv' as [|? ? Hd _]. rewrite <- !app_assoc in E.
  pose proof (be_field 4 a pre _ E Ha) as F1.
  assert (E2 : buf = (pre ++ be_put 4 a) ++ be_put 4 b ++ be_put 4 c ++ be_put 4 d ++ post) by (by rewrite <- !app_assoc).
  assert (E3 : buf = (pre ++ be_put 4 a ++ be_put 4 b) ++ be_put 4 c ++ be_put 4 d ++ post) by (by rewrite <- !app_assoc).
  assert (E4 : buf = (pre ++ be_put 4 a ++ be_put 4 b ++ be_put 4 c) ++ be_put 4 d ++ post) by (by rewrite <- !app_assoc).
  pose proof (be_field 4 b _ _ E2 Hb) as F2. pose proof (be_field 4 c _ _ E3 Hc) as F3. pose proof (be_field 4 d _ _ E4 Hd) as F4.
  rewrite ?zlen_app, ?zlen_be_put in F2; rewrite ?zlen_app, ?zlen_be_put in F3; rewrite ?zlen_app, ?zlen_be_put in F4. change (Z.of_nat 4) with 4 in *. change (4 + 4) with 8 in F3. change (4 + (4 + 4)) with 12 in F4.
  by rewrite F1, F2, F3, F4.
Qed.

(** *** All the fields *)

Definition step_on (bitmap bit : Z)
    (f : afp_dirent * option (list Z) -> option (afp_dirent * option (list Z)))
    (en : afp_dirent * option (list Z)) : option (afp_dirent * option (list Z)) :=
  if has bitmap bit then f en else Some en.

Lemma reads_on bitmap bit parse bytes f :
  reads parse bytes f ->
  reads (on bitmap bit parse) (carried bitmap (bit, bytes)) (step_on bitmap bit f).
Proof.
  intros Hr s pre post E Hp. unfold on, carried, step_on in *. cbn [fst snd] in *.
  destruct (has bitmap bit); [by apply (Hr s pre post)|]. simpl. rewrite Z.add_0_r. by destruct s.
Qed.

Fixpoint steps (fs : list (afp_dirent * option (list Z) -> option (afp_dirent * option (list Z))))
    (en : afp_dirent * option (list Z)) : option (afp_dirent * option (list Z)) :=
  match fs with
  | [] => Some en
  | f :: r => match f en with Some en' => steps r en' | None => None end
  end.

Inductive reads_all : list (pstate -> option pstate) -> list (list Z)
    -> list (afp_dirent * option (list Z) -> option (afp_dirent * option (list Z))) -> Prop :=
| reads_nil : reads_all [] [] []
| reads_cons a b f la lb lf : reads a b f -> reads_all la lb lf -> reads_all (a :: la) (b :: lb) (f :: lf).

Lemma run_reads la lb lf : reads_all la lb lf -> forall s pre post,
  buf = pre ++ concat lb ++ post -> p2 s = zlen pre ->
  run la s = (fun en => PState (p2 s + zlen (concat lb)) (fst en) (snd en)) <$> steps lf (entry s, pname s).
Proof.
  induction 1 as [|a b f la lb lf Hr _ IH]; intros s pre post E Hp.
  - simpl. change (zlen (@nil Z)) with 0. rewrite Z.add_0_r. by destruct s.
  - cbn [run concat steps] in *. rewrite <- app_assoc in E. rewrite (Hr s pre _ E Hp).
    destruct (f (entry s, pname s)) as [[e n]|]; [|done]. cbn [fmap option_fmap option_map fst snd].
    rewrite (IH (PState (p2 s + zlen b) e n) (pre ++ b) post); cbn [p2 entry pname fst snd].
    + rewrite zlen_app, Z.add_assoc. done.
    + by rewrite <- app_assoc.
    + rewrite zlen_app. lia.
Qed.

Context (x : params) (Hx : params_ok x).

Definition file_steps (bitmap : Z) :=
  [step_on bitmap kFPDataForkLenBit (pure (set_size kFPDataForkLenBit (q_datalen x)));
   step_on bitmap kFPRsrcForkLenBit (pure (set_resourcesize kFPRsrcForkLenBit (q_rsrclen x)));
   step_on bitmap kFPExtDataForkLenBit (pure (set_size kFPExtDataForkLenBit (q_extdata x)));
   step_on bitmap kFPLaunchLimitBit (pure id)].

Definition dir_steps (bitmap : Z) :=
  [step_on bitmap kFPOffspringCountBit (pure (set_offspring kFPOffspringCountBit (q_offspring x)));
   step_on bitmap kFPOwnerIDBit (pure (set_uid kFPOwnerIDBit (q_owner x)));
   step_on bitmap kFPGroupIDBit (pure (set_gid kFPGroupIDBit (q_group x)));
   step_on bitmap kFPAccessRightsBit (pure id)].

Definition date_step (f : Z -> afp_dirent -> afp_dirent) (v : Z) :=
  pure (fun e => if negb (v =? unset_date) then f (afp_ns_from_sec (afp_date_to_unix server v)) e else e).

Definition all_steps (is_dir bitmap name_len : Z) :=
  [step_on bitmap kFPAttributeBit (pure (set_attributes kFPAttributeBit (q_attributes x)));
   step_on bitmap kFPParentDirIDBit (pure (set_parent_did kFPParentDirIDBit (q_parent x)));
   step_on bitmap kFPCreateDateBit (date_step (set_create_ns kFPCreateDateBit) (q_create x));
   step_on bitmap kFPModDateBit (date_step (set_mod_ns kFPModDateBit) (q_mod x));
   step_on bitmap kFPBackupDateBit (pure id);
   step_on bitmap kFPFinderInfoBit (pure (set_finderinfo kFPFinderInfoBit (q_finder x)));
   step_on bitmap kFPLongNameBit (named kFPLongName (locate_pascal buf size (q_long x)) name_len (set_valid kFPLongNameBit));
   step_on bitmap kFPShortNameBit (pure id);
   step_on bitmap kFPNodeIDBit (pure (set_cnid kFPNodeIDBit (q_node x)))]
  ++ (if is_dir =? 0 then file_steps bitmap else dir_steps bitmap)
  ++ [step_on bitmap kFPUTF8NameBit (named kFPUTF8Name (locate_afpname buf size (q_utf8 x)) name_len (set_valid kFPUTF8NameBit));
      step_on bitmap kFPExtRsrcForkLenBit (pure (set_resourcesize kFPExtRsrcForkLenBit (q_extrsrc x)));
      step_on bitmap kFPUnixPrivsBit (pure (set_unixprivs kFPUnixPrivsBit (q_uid x) (q_gid x) (q_perm x) (q_ua x)))].

(** The lemma for a field, by its parser. *)
Ltac field_reads :=
  match goal with
  | |- reads (parse_u16 _ _ _) _ _ => apply (reads_be 2)
  | |- reads (parse_u32 _ _ _) _ _ => apply (reads_be 4)
  | |- reads (parse_u64 _ _ _) _ _ => apply (reads_be 8)
  | |- reads (skip_bytes _ 2) _ _ => exact (reads_skip 2 _)
  | |- reads (skip_bytes _ 4) _ _ => exact (reads_skip 4 _)
  | |- reads (parse_date _ _ _ _) _ _ => apply reads_date
  | |- reads (parse_finderinfo _ _) _ _ => apply reads_finderinfo
  | |- reads (parse_longname _ _ _ _) _ _ => apply reads_longname
  | |- reads (parse_utf8name _ _ _ _) _ _ => apply reads_utf8name
  | |- reads (parse_unixprivs _ _) _ _ => 
      apply reads_unixprivs; repeat (apply List.Forall_cons; [assumption|]); apply List.Forall_nil
  end.

Lemma reads_all_fields is_dir bitmap name_len :
  reads_all (parse_all heap server buf size is_dir bitmap name_len)
    (map (carried bitmap) (fixed_fields is_dir x)) (all_steps is_dir bitmap name_len).
Proof.
  destruct Hx as [H16 H32 H64 [Hf1 Hf2]].
  repeat match goal with H : Forall _ (_ :: _) |- _ => inversion_clear H end.
  unfold parse_all, fixed_fields, all_steps, parse_file_part, parse_dir_part, fixed_file, fixed_dir, file_steps, dir_steps.
  destruct (is_dir =? 0); cbn [map app];
    repeat (apply reads_cons; [apply reads_on; field_reads; try assumption|]); apply reads_nil.
Qed.

End Read.

(** ** The record a block carries *)

Section Carried.

Context (server : option clock) (is_dir bitmap : Z) (x : params).

Definition bit_if (bit : Z) : Z := if has bitmap bit then bit else 0.
Definition bit_date (bit v : Z) : Z := if has bitmap bit && negb (v =? unset_date) then bit else 0.
Definition val_if (bit v : Z) (default : Z) : Z := if has bitmap bit then v else default.
Definition val_date (bit v : Z) : Z :=
  if has bitmap bit && negb (v =? unset_date) then afp_ns_from_sec (afp_date_to_unix server v) else 0.

(** The members, by the bits that carry them. *)
Definition carried_valid : Z :=
  foldl Z.lor 0
    ([bit_if kFPAttributeBit; bit_if kFPParentDirIDBit; bit_date kFPCreateDateBit (q_create x);
      bit_date kFPModDateBit (q_mod x); bit_if kFPFinderInfoBit; bit_if kFPLongNameBit; bit_if kFPNodeIDBit]
     ++ (if is_dir =? 0
         then [bit_if kFPDataForkLenBit; bit_if kFPRsrcForkLenBit; bit_if kFPExtDataForkLenBit]
         else [bit_if kFPOffspringCountBit; bit_if kFPOwnerIDBit; bit_if kFPGroupIDBit])
     ++ [bit_if kFPUTF8NameBit; bit_if kFPExtRsrcForkLenBit; bit_if kFPUnixPrivsBit]).

Definition carried_record : afp_dirent :=
  let file := is_dir =? 0 in
  Dirent
    (if file then val_if kFPExtDataForkLenBit (q_extdata x) (val_if kFPDataForkLenBit (q_datalen x) 0) else 0)
    (val_if kFPExtRsrcForkLenBit (q_extrsrc x) (if file then val_if kFPRsrcForkLenBit (q_rsrclen x) 0 else 0))
    (val_date kFPCreateDateBit (q_create x)) (val_date kFPModDateBit (q_mod x)) carried_valid
    (val_if kFPNodeIDBit (q_node x) 0) (val_if kFPParentDirIDBit (q_parent x) 0)
    (val_if kFPUnixPrivsBit (q_uid x) (if file then 0 else val_if kFPOwnerIDBit (q_owner x) 0))
    (val_if kFPUnixPrivsBit (q_gid x) (if file then 0 else val_if kFPGroupIDBit (q_group x) 0))
    (val_if kFPUnixPrivsBit (q_perm x) 0) (val_if kFPUnixPrivsBit (q_ua x) 0) 0
    (val_if kFPAttributeBit (q_attributes x) 0)
    (if file then 0 else val_if kFPOffspringCountBit (q_offspring x) 0) is_dir 0
    (if has bitmap kFPFinderInfoBit then q_finder x else zero_bytes 32).

End Carried.

Lemma step_attributes bitmap bit v sz rs cr md va cn pd ui gi pe ua no at_ os di ki fi n :
  step_on bitmap bit (pure (set_attributes bit v)) ((Dirent sz rs cr md va cn pd ui gi pe ua no
    at_ os di ki fi), n)
  = Some ((Dirent sz rs cr md (Z.lor va (bit_if bitmap bit)) cn pd ui gi pe ua no (val_if bitmap
    bit v at_) os di ki fi), n).
Proof. unfold step_on, pure, val_if, bit_if. destruct (has bitmap bit); simpl; by rewrite ?Z.lor_0_r. Qed.

Lemma step_parent bitmap bit v sz rs cr md va cn pd ui gi pe ua no at_ os di ki fi n :
  step_on bitmap bit (pure (set_parent_did bit v)) ((Dirent sz rs cr md va cn pd ui gi pe ua no
    at_ os di ki fi), n)
  = Some ((Dirent sz rs cr md (Z.lor va (bit_if bitmap bit)) cn (val_if bitmap bit v pd) ui gi
    pe ua no at_ os di ki fi), n).
Proof. unfold step_on, pure, val_if, bit_if. destruct (has bitmap bit); simpl; by rewrite ?Z.lor_0_r. Qed.

Lemma step_cnid bitmap bit v sz rs cr md va cn pd ui gi pe ua no at_ os di ki fi n :
  step_on bitmap bit (pure (set_cnid bit v)) ((Dirent sz rs cr md va cn pd ui gi pe ua no at_ os
    di ki fi), n)
  = Some ((Dirent sz rs cr md (Z.lor va (bit_if bitmap bit)) (val_if bitmap bit v cn) pd ui gi
    pe ua no at_ os di ki fi), n).
Proof. unfold step_on, pure, val_if, bit_if. destruct (has bitmap bit); simpl; by rewrite ?Z.lor_0_r. Qed.

Lemma step_offspring bitmap bit v sz rs cr md va cn pd ui gi pe ua no at_ os di ki fi n :
  step_on bitmap bit (pure (set_offspring bit v)) ((Dirent sz rs cr md va cn pd ui gi pe ua no
    at_ os di ki fi), n)
  = Some ((Dirent sz rs cr md (Z.lor va (bit_if bitmap bit)) cn pd ui gi pe ua no at_ (val_if
    bitmap bit v os) di ki fi), n).
Proof. unfold step_on, pure, val_if, bit_if. destruct (has bitmap bit); simpl; by rewrite ?Z.lor_0_r. Qed.

Lemma step_uid bitmap bit v sz rs cr md va cn pd ui gi pe ua no at_ os di ki fi n :
  step_on bitmap bit (pure (set_uid bit v)) ((Dirent sz rs cr md va cn pd ui gi pe ua no at_ os
    di ki fi), n)
  = Some ((Dirent sz rs cr md (Z.lor va (bit_if bitmap bit)) cn pd (val_if bitmap bit v ui) gi
    pe ua no at_ os di ki fi), n).
Proof. unfold step_on, pure, val_if, bit_if. destruct (has bitmap bit); simpl; by rewrite ?Z.lor_0_r. Qed.

Lemma step_gid bitmap bit v sz rs cr md va cn pd ui gi pe ua no at_ os di ki fi n :
  step_on bitmap bit (pure (set_gid bit v)) ((Dirent sz rs cr md va cn pd ui gi pe ua no at_ os
    di ki fi), n)
  = Some ((Dirent sz rs cr md (Z.lor va (bit_if bitmap bit)) cn pd ui (val_if bitmap bit v gi)
    pe ua no at_ os di ki fi), n).
Proof. unfold step_on, pure, val_if, bit_if. destruct (has bitmap bit); simpl; by rewrite ?Z.lor_0_r. Qed.

Lemma step_size bitmap bit v sz rs cr md va cn pd ui gi pe ua no at_ os di ki fi n :
  step_on bitmap bit (pure (set_size bit v)) ((Dirent sz rs cr md va cn pd ui gi pe ua no at_ os
    di ki fi), n)
  = Some ((Dirent (val_if bitmap bit v sz) rs cr md (Z.lor va (bit_if bitmap bit)) cn pd ui gi
    pe ua no at_ os di ki fi), n).
Proof. unfold step_on, pure, val_if, bit_if. destruct (has bitmap bit); simpl; by rewrite ?Z.lor_0_r. Qed.

Lemma step_resourcesize bitmap bit v sz rs cr md va cn pd ui gi pe ua no at_ os di ki fi n :
  step_on bitmap bit (pure (set_resourcesize bit v)) ((Dirent sz rs cr md va cn pd ui gi pe ua
    no at_ os di ki fi), n)
  = Some ((Dirent sz (val_if bitmap bit v rs) cr md (Z.lor va (bit_if bitmap bit)) cn pd ui gi
    pe ua no at_ os di ki fi), n).
Proof. unfold step_on, pure, val_if, bit_if. destruct (has bitmap bit); simpl; by rewrite ?Z.lor_0_r. Qed.

Lemma step_finder bitmap bit v sz rs cr md va cn pd ui gi pe ua no at_ os di ki fi n :
  step_on bitmap bit (pure (set_finderinfo bit v)) ((Dirent sz rs cr md va cn pd ui gi pe ua no
    at_ os di ki fi), n)
  = Some ((Dirent sz rs cr md (Z.lor va (bit_if bitmap bit)) cn pd ui gi pe ua no at_ os di ki
    (if has bitmap bit then v else fi)), n).
Proof. unfold step_on, pure, val_if, bit_if. destruct (has bitmap bit); simpl; by rewrite ?Z.lor_0_r. Qed.

Lemma step_skip bitmap bit  sz rs cr md va cn pd ui gi pe ua no at_ os di ki fi n :
  step_on bitmap bit (pure id) ((Dirent sz rs cr md va cn pd ui gi pe ua no at_ os di ki fi), n)
  = Some ((Dirent sz rs cr md va cn pd ui gi pe ua no at_ os di ki fi), n).
Proof. unfold step_on, pure, val_if, bit_if. destruct (has bitmap bit); simpl; by rewrite ?Z.lor_0_r. Qed.

Lemma step_unix bitmap bit a b c d sz rs cr md va cn pd ui gi pe ua no at_ os di ki fi n :
  step_on bitmap bit (pure (set_unixprivs bit a b c d)) ((Dirent sz rs cr md va cn pd ui gi pe
    ua no at_ os di ki fi), n)
  = Some ((Dirent sz rs cr md (Z.lor va (bit_if bitmap bit)) cn pd (val_if bitmap bit a ui)
    (val_if bitmap bit b gi) (val_if bitmap bit c pe) (val_if bitmap bit d ua) no at_ os di ki
    fi), n).
Proof. unfold step_on, pure, val_if, bit_if. destruct (has bitmap bit); simpl; by rewrite ?Z.lor_0_r. Qed.

Lemma step_create bitmap bit v server sz rs cr md va cn pd ui gi pe ua no at_ os di ki fi n :
  step_on bitmap bit (date_step server (set_create_ns bit) v) ((Dirent sz rs cr md va cn pd ui
    gi pe ua no at_ os di ki fi), n)
  = Some ((Dirent sz rs (if has bitmap bit && negb (v =? unset_date) then afp_ns_from_sec
    (afp_date_to_unix server v) else cr) md (Z.lor va (bit_date bitmap bit v)) cn pd ui gi pe ua
    no at_ os di ki fi), n).
Proof. unfold step_on, date_step, pure, val_if, bit_date. destruct (has bitmap bit), (v =? unset_date); simpl; by rewrite ?Z.lor_0_r. Qed.

Lemma step_mod bitmap bit v server sz rs cr md va cn pd ui gi pe ua no at_ os di ki fi n :
  step_on bitmap bit (date_step server (set_mod_ns bit) v) ((Dirent sz rs cr md va cn pd ui gi
    pe ua no at_ os di ki fi), n)
  = Some ((Dirent sz rs cr (if has bitmap bit && negb (v =? unset_date) then afp_ns_from_sec
    (afp_date_to_unix server v) else md) (Z.lor va (bit_date bitmap bit v)) cn pd ui gi pe ua no
    at_ os di ki fi), n).
Proof. unfold step_on, date_step, pure, val_if, bit_date. destruct (has bitmap bit), (v =? unset_date); simpl; by rewrite ?Z.lor_0_r. Qed.

(** A name the block may carry: located, and converted over the name so far. *)
Definition name_step (heap : Z -> bool) (bitmap bit encoding : Z) (located : option (list Z)) (n : Z)
    (name : option (list Z)) : option (option (list Z)) :=
  if has bitmap bit then located ≫= (fun src => store_name heap encoding src name n) else Some name.

Lemma step_name heap bitmap bit encoding located n sz rs cr md va cn pd ui gi pe ua no at_ os di ki fi name name' :
  name_step heap bitmap bit encoding located n name = Some name' ->
  step_on bitmap bit (named heap encoding located n (set_valid bit))
    (Dirent sz rs cr md va cn pd ui gi pe ua no at_ os di ki fi, name)
  = Some (Dirent sz rs cr md (Z.lor va (bit_if bitmap bit)) cn pd ui gi pe ua no at_ os di ki fi, name').
Proof.
  unfold step_on, named, bit_if, name_step. destruct (has bitmap bit); [|intros [= <-]; by rewrite Z.lor_0_r].
  destruct located as [src|]; [|done]. simpl. destruct (store_name _ _ _ _ _); [|done]. by intros [= <-].
Qed.

Lemma all_steps_record heap server buf size x is_dir bitmap n name n1 n2 :
  name_step heap bitmap kFPLongNameBit kFPLongName (locate_pascal buf size (q_long x)) n name = Some n1 ->
  name_step heap bitmap kFPUTF8NameBit kFPUTF8Name (locate_afpname buf size (q_utf8 x)) n n1 = Some n2 ->
  steps (all_steps heap server buf size x is_dir bitmap n) (empty_dirent is_dir, name)
  = Some (carried_record server is_dir bitmap x, n2).
Proof.
  intros Hl Hu. unfold all_steps, file_steps, dir_steps, empty_dirent, carried_record, carried_valid.
  destruct (is_dir =? 0); cbn [app steps foldl];
    rewrite step_attributes, step_parent, step_create, step_mod, step_skip, step_finder,
      (step_name _ _ _ _ _ _ _ _ _ _ _ _ _ _ _ _ _ _ _ _ _ _ _ _ _ Hl), step_skip, step_cnid.
  - rewrite step_size, step_resourcesize, step_size, step_skip,
      (step_name _ _ _ _ _ _ _ _ _ _ _ _ _ _ _ _ _ _ _ _ _ _ _ _ _ Hu), step_resourcesize, step_unix. done.
  - rewrite step_offspring, step_uid, step_gid, step_skip,
      (step_name _ _ _ _ _ _ _ _ _ _ _ _ _ _ _ _ _ _ _ _ _ _ _ _ _ Hu), step_resourcesize, step_unix. done.
Qed.


(** A file's modification date, node id, data fork length and long name "ab". *)
Definition sample_params : params :=
  Params 0 0 0 100 0 (zero_bytes 32) 14 0 77 0 0 0 0 4096 0 0 0 0 0 0 0 0 0 0.

Definition sample_bitmap : Z := Z.lor kFPModDateBit (Z.lor kFPLongNameBit (Z.lor kFPNodeIDBit kFPDataForkLenBit)).

