(* ===== verification/Listing.v ===== *)
(** Directory listings (lib/listing.c): the records and their name pool, and
    the stat form of a record with the identity mapping of lib/users.c.

    [entries] holds the [count] records committed and [pool] the [pool_used]
    bytes committed; [capacity] and [pool_cap] are what is allocated. A write
    past an allocation is [None]. The allocator is a parameter that grants or
    refuses a number of bytes. *)
From S2P Require Import Prelude AfpProtocol Dates ReplyBlock.

Definition AFP_META_NONE : Z := 0.
Definition AFP_META_RESOURCE : Z := 1.
Definition AFP_META_APPLEDOUBLE : Z := 2.
Definition AFP_META_FINDERINFO : Z := 3.
Definition AFP_META_COMMENT : Z := 4.
Definition AFP_META_SERVER_ICON : Z := 5.

Definition AFP_LISTING_MIN_ENTRIES : Z := 64.

(** sizeof(struct afp_dirent) on LP64. *)
Definition sizeof_afp_dirent : Z := 104.

Record afp_listing := Listing {
  entries : list afp_dirent;
  count : Z;
  capacity : Z;
  pool : list Z;
  pool_used : Z;
  pool_cap : Z }.

Definition empty_listing : afp_listing := Listing [] 0 0 [] 0 0.

(** ** Growth *)

Section Growth.

Context (realloc : Z -> bool).

(** The capacity of the grown array, or [None] for NULL. *)
Definition grown_array (cap need elem least : Z) : option Z :=
  let capacity := Z.max need (u64 (cap * 2)) in
  let capacity := Z.min (Z.max capacity least) (UINT32_MAX / elem) in
  if need >? capacity then None
  else if realloc (capacity * elem) then Some (u32 capacity) else None.

Definition set_capacity (cap : Z) (l : afp_listing) : afp_listing :=
  Listing (entries l) (count l) cap (pool l) (pool_used l) (pool_cap l).
Definition set_pool_cap (cap : Z) (l : afp_listing) : afp_listing :=
  Listing (entries l) (count l) (capacity l) (pool l) (pool_used l) cap.

Definition afp_listing_reserve (l : afp_listing) (n bytes : Z) : Z * afp_listing :=
  let need := u64 (count l + n) in
  let grown := if need >? capacity l
               then grown_array (capacity l) need sizeof_afp_dirent AFP_LISTING_MIN_ENTRIES
               else Some (capacity l) in
  match grown with
  | None => (- ENOMEM, l)
  | Some cap =>
      let l := set_capacity cap l in
      let need := u64 (pool_used l + bytes) in
      let grown := if need >? pool_cap l then grown_array (pool_cap l) need 1 0 else Some (pool_cap l) in
      match grown with
      | None => (- ENOMEM, l)
      | Some cap => (0, set_pool_cap cap l)
      end
  end.

End Growth.

(** ** Records *)

Definition set_name_off (off : Z) (e : afp_dirent) : afp_dirent :=
  Dirent (d_size e) (d_resourcesize e) (create_ns e) (mod_ns e) (valid e) (cnid e) (parent_did e)
    (up_uid e) (up_gid e) (up_permissions e) (up_ua_permissions e) off (attributes e) (offspring e)
    (isdir e) (kind e) (finderinfo e).
Definition set_kind_size (k size : Z) (e : afp_dirent) : afp_dirent :=
  Dirent size (d_resourcesize e) (create_ns e) (mod_ns e) (valid e) (cnid e) (parent_did e)
    (up_uid e) (up_gid e) (up_permissions e) (up_ua_permissions e) (name_off e) (attributes e) (offspring e)
    (isdir e) k (finderinfo e).

Definition afp_dirent_name (l : afp_listing) (e : afp_dirent) : list Z :=
  until_nul (drop (Z.to_nat (name_off e)) (pool l)).

(** The record [e] the producer wrote at entries[count], and the name it wrote
    with its terminator at pool + pool_used. *)
Definition afp_listing_commit (l : afp_listing) (e : afp_dirent) (name : list Z) : option afp_listing :=
  let stored := until_nul name ++ [0] in
  if (count l <? capacity l) && (pool_used l + zlen stored <=? pool_cap l) then
    Some (Listing (entries l ++ [set_name_off (pool_used l) e]) (u32 (count l + 1)) (capacity l)
            (pool l ++ stored) (u32 (pool_used l + zlen stored)) (pool_cap l))
  else None.

(** The answer and the listing; [None] for a write past an allocation. *)
Definition afp_listing_append (realloc : Z -> bool) (l : afp_listing) (e : afp_dirent) (suffix : list Z)
    (k size : Z) : option (Z * afp_listing) :=
  let name_len := zlen (afp_dirent_name l e) in
  let suffix_len := strlen suffix in
  let (ret, l') := afp_listing_reserve realloc l 1 (u64 (name_len + suffix_len + 1)) in
  if negb (ret =? 0) then Some (ret, l')
  else
    let name := afp_dirent_name l' e ++ until_nul suffix in
    pair 0 <$> afp_listing_commit l' (set_kind_size (u8 k) size e) name.

Definition afp_listing_drop_unnamed (l : afp_listing) : afp_listing :=
  let kept := filter (fun e => byte_at (drop (Z.to_nat (name_off e)) (pool l)) 0 <> 0) (entries l) in
  Listing kept (zlen kept) (capacity l) (pool l) (pool_used l) (pool_cap l).

Definition afp_listing_free (l : afp_listing) : afp_listing := empty_listing.

(** ** The stat form *)

Record timespec := Timespec { tv_sec : Z; tv_nsec : Z }.

Record stat := Stat {
  st_mode : Z; st_ino : Z; st_uid : Z; st_gid : Z; st_nlink : Z; st_size : Z; st_blocks : Z;
  st_blksize : Z; st_ctim : timespec; st_mtim : timespec }.

Definition zero_stat : stat := Stat 0 0 0 0 0 0 0 0 (Timespec 0 0) (Timespec 0 0).

Definition S_IFMT : Z := 0xF000.
Definition S_IFDIR : Z := 0x4000.
Definition S_IFREG : Z := 0x8000.
Definition S_ISDIR (m : Z) : bool := Z.land m S_IFMT =? S_IFDIR.

Definition AFP_MAPPING_UNKNOWN : Z := 0.
Definition AFP_MAPPING_COMMON : Z := 1.
Definition AFP_MAPPING_LOGINIDS : Z := 2.

(** What the stat form reads of the volume and its server. *)
Record identity := Identity { mapping : Z; pw_uid : Z; pw_gid : Z; connect_time : Z }.

Definition translate_uidgid_to_client (v : identity) (uid gid : Z) : option (Z * Z) :=
  if mapping v =? AFP_MAPPING_COMMON then Some (uid, gid)
  else if mapping v =? AFP_MAPPING_LOGINIDS then Some (pw_uid v, pw_gid v)
  else None.

Definition afp_dirent_time (v : identity) (e : afp_dirent) (bit ns : Z) : timespec :=
  if negb (has (valid e) bit) then Timespec (connect_time v) 0
  else let (s, n) := dirent_timespec ns in Timespec s n.

Definition blocks_of (size : Z) : Z :=
  Z.quot size 512 + (if Z.rem size 512 =? 0 then 0 else 1).

(** [mode & ~S_IFMT | S_IFREG], on a 32-bit mode. *)
Definition regular_mode (m : Z) : Z := Z.lor (Z.land m (UINT32_MAX - S_IFMT)) S_IFREG.

Definition afp_pseudo_file_stat (s : stat) (size : Z) : stat :=
  Stat (regular_mode (st_mode s)) (st_ino s) (st_uid s) (st_gid s) 1 size (blocks_of size) (st_blksize s)
    (st_ctim s) (st_mtim s).

Definition afp_dirent_mode (e : afp_dirent) : Z :=
  let mode := if negb (isdir e =? 0) then Z.lor 448 S_IFDIR else Z.lor 384 S_IFREG in
  let mode := if has (valid e) kFPUnixPrivsBit && negb (up_permissions e =? 0) then up_permissions e else mode in
  if (kind e =? AFP_META_FINDERINFO) || (kind e =? AFP_META_COMMENT) then regular_mode mode else mode.

Definition afp_dirent_to_stat (v : identity) (e : afp_dirent) : Z * stat :=
  let create := afp_dirent_time v e kFPCreateDateBit (create_ns e) in
  let mod_ := afp_dirent_time v e kFPModDateBit (mod_ns e) in
  match translate_uidgid_to_client v (up_uid e) (up_gid e) with
  | None => (- EIO, zero_stat)
  | Some (uid, gid) =>
      let mode := afp_dirent_mode e in
      let '(nlink, size) :=
        if S_ISDIR mode then
          (let n := offspring e + 2 in if n <? 2 then 1 else n,
           if kind e =? AFP_META_RESOURCE then 0 else offspring e * 34 + 24)
        else
          let len := if kind e =? AFP_META_RESOURCE then d_resourcesize e else d_size e in
          (1, Z.min len INT64_MAX) in
      (0, Stat mode (cnid e) uid gid nlink size (blocks_of size) 4096 create mod_)
  end.

(** ** Well-formed listings *)

(** A terminated name stands at an offset of the pool. *)
Definition named_at (pool : list Z) (off : Z) : Prop :=
  0 <= off /\ exists n rest, no_nul n /\ drop (Z.to_nat off) pool = n ++ 0 :: rest.

Record listing_wf (l : afp_listing) : Prop := {
  wf_count : count l = zlen (entries l);
  wf_capacity : count l <= capacity l;
  wf_bytes : capacity l * sizeof_afp_dirent <= UINT32_MAX;
  wf_used : pool_used l = zlen (pool l);
  wf_pool : pool_used l <= pool_cap l <= UINT32_MAX;
  wf_names : Forall (fun e => named_at (pool l) (name_off e)) (entries l) }.

Definition names (l : afp_listing) : list (list Z) := map (afp_dirent_name l) (entries l).

Lemma empty_listing_wf : listing_wf empty_listing.
Proof. split; try done; unfold UINT32_MAX; simpl; lia. Qed.

Lemma named_at_app p off x : named_at p off -> named_at (p ++ x) off
  /\ until_nul (drop (Z.to_nat off) (p ++ x)) = until_nul (drop (Z.to_nat off) p).
Proof.
  intros (H0 & n & rest & Hn & E).
  assert (Hle : (Z.to_nat off < length p)%nat).
  { apply (f_equal length) in E. rewrite length_drop, length_app in E. simpl in E. lia. }
  assert (E' : drop (Z.to_nat off) (p ++ x) = n ++ 0 :: (rest ++ x)).
  { rewrite drop_app_le by lia. rewrite E, <- app_assoc. done. }
  split; [split; [done|]; by exists n, (rest ++ x)|].
  by rewrite E', E, !until_nul_app_nul.
Qed.

Lemma grown_array_spec realloc cap need elem least :
  0 < elem -> 0 <= cap <= UINT32_MAX -> 0 <= least ->
  match grown_array realloc cap need elem least with
  | Some c => need <= c /\ c * elem <= UINT32_MAX
              /\ Z.min (Z.max (2 * cap) least) (UINT32_MAX / elem) <= c
  | None => (exists n, realloc n = false) \/ need * elem > UINT32_MAX
  end.
Proof.
  intros He Hc Hl. unfold grown_array. rewrite u64_small by (unfold UINT32_MAX in *; lia).
  set (c := Z.min _ _).
  assert (Hce : c <= UINT32_MAX / elem) by lia.
  assert (Hdiv : elem * (UINT32_MAX / elem) <= UINT32_MAX) by (apply Z.mul_div_le; lia).
  assert (Hq : 0 <= UINT32_MAX / elem) by (apply Z.div_pos; unfold UINT32_MAX; lia).
  destruct (need >? c) eqn:En; bool_to_prop.
  - right. assert (UINT32_MAX / elem < need) by lia.
    pose proof (Z.mul_succ_div_gt UINT32_MAX elem He). nia.
  - destruct (realloc (c * elem)) eqn:Er; [|eauto].
    assert (0 <= c) by lia. assert (c <= UINT32_MAX) by nia.
    rewrite u32_small by (unfold UINT32_MAX in *; lia). split; [lia|]. split; [nia|]. lia.
Qed.

(** Reserving never touches what is committed, and grants what it says. *)
Lemma reserve_spec realloc l n bytes :
  listing_wf l -> 0 <= n <= UINT32_MAX -> 0 <= bytes <= 2 * UINT32_MAX ->
  let '(r, l') := afp_listing_reserve realloc l n bytes in
  listing_wf l' /\ entries l' = entries l /\ count l' = count l /\ pool l' = pool l /\ pool_used l' = pool_used l
  /\ (r = 0 /\ count l + n <= capacity l' /\ pool_used l + bytes <= pool_cap l'
      \/ r = - ENOMEM /\ ((exists n, realloc n = false)
           \/ (count l + n) * sizeof_afp_dirent > UINT32_MAX \/ pool_used l + bytes > UINT32_MAX)).
Proof.
  intros [H1 H2 H3 H4 H5 H6] Hn Hb. unfold afp_listing_reserve.
  pose proof (zlen_nonneg (entries l)) as P1. pose proof (zlen_nonneg (pool l)) as P2.
  assert (Hc : 0 <= count l <= UINT32_MAX) by (unfold sizeof_afp_dirent in *; lia).
  assert (Hcap : 0 <= capacity l <= UINT32_MAX) by (unfold sizeof_afp_dirent in *; lia).
  rewrite (u64_small (count l + n)) by (unfold UINT32_MAX in *; lia).
  pose proof (grown_array_spec realloc (capacity l) (count l + n) sizeof_afp_dirent AFP_LISTING_MIN_ENTRIES
    ltac:(done) Hcap ltac:(done)) as G1.
  destruct (if count l + n >? capacity l then _ else Some (capacity l)) as [cap|] eqn:E1.
  - assert (Hcap' : count l + n <= cap /\ count l <= cap /\ cap * sizeof_afp_dirent <= UINT32_MAX).
    { case_if; bool_to_prop; [rewrite E1 in G1; lia|injection E1 as <-; lia]. }
    destruct Hcap' as (C1 & C2 & C3). simpl.
    rewrite (u64_small (pool_used l + bytes)) by (unfold UINT32_MAX in *; lia).
    pose proof (grown_array_spec realloc (pool_cap l) (pool_used l + bytes) 1 0
      ltac:(done) ltac:(lia) ltac:(done)) as G2.
    destruct (if pool_used l + bytes >? pool_cap l then _ else Some (pool_cap l)) as [pc|] eqn:E2.
    + assert (pool_used l + bytes <= pc /\ pool_used l <= pc <= UINT32_MAX).
      { case_if; bool_to_prop; [rewrite E2 in G2; lia|injection E2 as <-; lia]. }
      repeat split; simpl; try done; lia.
    + case_if; [|done]. rewrite E2 in G2.
      repeat split; simpl; try done; try lia. right. split; [done|]. destruct G2; [by left|right; right; lia].
  - case_if; [|done]. rewrite E1 in G1. repeat split; try done; try lia.
    right. split; [done|]. destruct G1; [by left|right; left; lia].
Qed.

Lemma names_app l x xs pc pu c cap : Forall (fun e => named_at (pool l) (name_off e)) (entries l) ->
  names (Listing (entries l ++ x) c cap (pool l ++ xs) pu pc)
  = names l ++ map (fun e => until_nul (drop (Z.to_nat (name_off e)) (pool l ++ xs))) x.
Proof.
  intros H. unfold names. simpl. rewrite map_app. f_equal. apply map_ext_in.
  intros e He%list_elem_of_In. rewrite Forall_forall in H. unfold afp_dirent_name. simpl.
  by apply named_at_app, H.
Qed.

Lemma commit_spec l e name :
  listing_wf l -> count l + 1 <= capacity l -> pool_used l + zlen (until_nul name) + 1 <= pool_cap l ->
  exists l', afp_listing_commit l e name = Some l' /\ listing_wf l'
    /\ entries l' = entries l ++ [set_name_off (pool_used l) e]
    /\ names l' = names l ++ [until_nul name].
Proof.
  intros [H1 H2 H3 H4 H5 H6] Hc Hp. unfold afp_listing_commit.
  pose proof (zlen_nonneg (entries l)). pose proof (zlen_nonneg (pool l)).
  pose proof (zlen_nonneg (until_nul name)).
  rewrite zlen_app, zlen_cons, zlen_nil. unfold sizeof_afp_dirent, UINT32_MAX in *.
  rewrite (proj2 (Z.ltb_lt _ _)), (proj2 (Z.leb_le _ _)) by lia. cbn [andb].
  rewrite !u32_small by lia.
  assert (Hd : drop (Z.to_nat (pool_used l)) (pool l ++ until_nul name ++ [0]) = until_nul name ++ [0])
    by (apply drop_app_zlen; rewrite H4; unfold zlen; lia).
  eexists. split; [reflexivity|]. split; [|split; [done|]].
  - split; cbn [count entries capacity pool pool_used pool_cap];
      rewrite ?zlen_app, ?zlen_cons; change (zlen (@nil Z)) with 0; change (zlen (@nil afp_dirent)) with 0;
      unfold sizeof_afp_dirent, UINT32_MAX; try lia.
    apply Forall_app. split.
    + eapply Forall_impl; [exact H6|]. intros e' He'. by apply named_at_app.
    + constructor; [|constructor]. simpl. split; [lia|]. exists (until_nul name), []. split; [apply until_nul_no_nul|done].
  - rewrite names_app by done. cbn [map name_off set_name_off]. rewrite Hd.
    rewrite until_nul_app_nul by apply until_nul_no_nul. done.
Qed.

(** Appending a pseudo-file to a listing. Whatever the allocator grants, a
    copy of one of the listing's entries never writes past an allocation, and
    the listing stays well formed: it holds its old names and then the
    entry's name with the suffix, under the kind and size asked for, or the
    answer is -ENOMEM with every record and name as it was, which happens
    only when the allocator refuses or 32 bits cannot hold the arrays. *)
Theorem afp_listing_append_spec realloc l e suffix k size :
  listing_wf l -> e ∈ entries l -> strlen suffix < UINT32_MAX ->
  exists r l', afp_listing_append realloc l e suffix k size = Some (r, l') /\ listing_wf l'
    /\ (r = 0 /\ names l' = names l ++ [afp_dirent_name l e ++ until_nul suffix]
          /\ entries l' = entries l ++ [set_name_off (pool_used l) (set_kind_size (u8 k) size e)]
        \/ r = - ENOMEM /\ names l' = names l /\ entries l' = entries l
          /\ ((exists n, realloc n = false) \/ (count l + 1) * sizeof_afp_dirent > UINT32_MAX
              \/ pool_used l + zlen (afp_dirent_name l e) + strlen suffix + 1 > UINT32_MAX)).
Proof.
  intros Hwf He Hs. unfold afp_listing_append.
  assert (Hl : zlen (afp_dirent_name l e) <= UINT32_MAX).
  { unfold afp_dirent_name. pose proof (until_nul_le (drop (Z.to_nat (name_off e)) (pool l))) as Hu.
    rewrite zlen_drop in Hu. destruct Hwf. pose proof (zlen_nonneg (pool l)). lia. }
  assert (Hs0 : 0 <= strlen suffix) by apply zlen_nonneg.
  pose proof (zlen_nonneg (afp_dirent_name l e)) as Hl0.
  rewrite u64_small by (unfold UINT32_MAX in *; lia).
  pose proof (reserve_spec realloc l 1 (zlen (afp_dirent_name l e) + strlen suffix + 1) Hwf
    ltac:(unfold UINT32_MAX; lia) ltac:(unfold UINT32_MAX in *; lia)) as Hr.
  destruct (afp_listing_reserve realloc l 1 _) as [r l']. destruct Hr as (Hwf' & E1 & E2 & E3 & E4 & Hr).
  assert (En : forall e, afp_dirent_name l' e = afp_dirent_name l e) by (intros; unfold afp_dirent_name; by rewrite E3).
  assert (Ens : names l' = names l) by (unfold names; rewrite E1; by apply map_ext).
  destruct Hr as [(-> & Hc & Hp)|[-> Hr]]; cbn [negb Z.eqb Z.opp ENOMEM].
  - rewrite En. destruct (commit_spec l' (set_kind_size (u8 k) size e) (afp_dirent_name l e ++ until_nul suffix))
      as (l'' & -> & Hwf'' & He'' & Hn''); [done|lia| |].
    + rewrite until_nul_id by (apply Forall_app; split; apply until_nul_no_nul).
      rewrite zlen_app. unfold strlen in Hp. lia.
    + exists 0, l''. split; [done|]. split; [done|]. left. rewrite He'', Hn'', Ens, E1, E4.
      by rewrite until_nul_id by (apply Forall_app; split; apply until_nul_no_nul).
  - eexists _, l'. split; [done|]. split; [done|]. right. rewrite Ens, E1.
    split; [done|]. split; [done|]. split; [done|]. destruct Hr as [?|[?|?]]; [by left|right; left; lia|right; right; lia].
Qed.

(** A listing of one file "ab". *)
Definition sample_listing : afp_listing := Listing [empty_dirent 0] 1 64 [97; 98; 0] 3 8.

Theorem afp_listing_append_spec_witness :
  match afp_listing_append (fun _ => true) sample_listing (empty_dirent 0) [46; 114] AFP_META_RESOURCE 7 with
  | Some (r, l') => r = 0 /\ names l' = [[97; 98]; [97; 98; 46; 114]]
  | None => False
  end.
Proof.
  destruct (afp_listing_append_spec (fun _ => true) sample_listing (empty_dirent 0) [46; 114] AFP_META_RESOURCE 7)
    as (r & l' & -> & _ & H).
  - split; try (vm_compute; done); try (vm_compute; split; discriminate).
    constructor; [|constructor]. split; [done|]. exists [97; 98], []. split; [|done].
    repeat constructor; done.
  - by left.
  - vm_compute. done.
  - destruct H as [(-> & Hn & _)|(_ & _ & _ & [[n Hn]|[H|H]])]; [split; [done|exact Hn]|done|vm_compute in H; done|vm_compute in H; done].
Defined.

(** Dropping the unnamed entries keeps the named ones, with their names, in
    their order, and leaves no empty name; the listing stays well formed. *)
Lemma drop_unnamed_spec l :
  listing_wf l ->
  listing_wf (afp_listing_drop_unnamed l)
  /\ names (afp_listing_drop_unnamed l) = filter (fun n => n <> []) (names l)
  /\ sublist (entries (afp_listing_drop_unnamed l)) (entries l).
Proof.
  intros [H1 H2 H3 H4 H5 H6]. unfold afp_listing_drop_unnamed.
  assert (Hsub : forall P `{forall e, Decision (P e)}, sublist (filter P (entries l)) (entries l)).
  { intros P HP. apply sublist_filter. }
  split; [|split].
  - split; cbn [count entries capacity pool pool_used pool_cap]; try done.
    + pose proof (length_filter (fun e => byte_at (drop (Z.to_nat (name_off e)) (pool l)) 0 <> 0) (entries l)).
      unfold zlen in *. lia.
    + rewrite Forall_forall in H6 |- *. intros e [_ He]%list_elem_of_filter. eauto.
  - unfold names. cbn [entries]. clear H1 H2 Hsub.
    induction H6 as [|e es (H0 & n & rest & Hn & E) _ IH]; [done|].
    cbn [map]. rewrite !filter_cons. cbn [map].
    assert (En : afp_dirent_name l e = n) by (unfold afp_dirent_name; by rewrite E, until_nul_app_nul).
    rewrite En, E, <- IH. destruct n as [|c n].
    + by rewrite decide_False, decide_False by tauto.
    + inversion Hn; subst. rewrite !decide_True by done. cbn [map]. f_equal. exact En.
  - apply Hsub.
Qed.

(** *** The stat form *)

Lemma blocks_of_spec size : 0 <= size -> 0 <= blocks_of size /\ size <= blocks_of size * 512 < size + 512.
Proof.
  intros H. unfold blocks_of. rewrite Z.quot_div_nonneg, Z.rem_mod_nonneg by lia.
  bsplit; Z.div_mod_to_equations; lia.
Qed.

Lemma afp_dirent_time_spec v e bit ns :
  let t := afp_dirent_time v e bit ns in
  0 <= tv_nsec t < AFP_NS_PER_SEC
  /\ (if has (valid e) bit then tv_sec t * AFP_NS_PER_SEC + tv_nsec t = ns
      else tv_sec t = connect_time v /\ tv_nsec t = 0).
Proof.
  unfold afp_dirent_time. destruct (has (valid e) bit); simpl; [|unfold AFP_NS_PER_SEC; lia].
  pose proof (timespec_floor ns) as H. destruct (dirent_timespec ns) as [a b]. simpl. tauto.
Qed.

Lemma regular_mode_not_dir m : S_ISDIR (regular_mode m) = false.
Proof.
  unfold S_ISDIR, regular_mode. apply Z.eqb_neq. intros E.
  apply (f_equal (fun z => Z.testbit z 15)) in E.
  rewrite Z.land_spec, Z.lor_spec in E. change (Z.testbit S_IFREG 15) with true in E.
  change (Z.testbit S_IFMT 15) with true in E. change (Z.testbit S_IFDIR 15) with false in E.
  by rewrite orb_true_r in E.
Qed.

(** The attributes a record shows. With a known identity mapping the answer
    is 0: the size is one off_t holds, the blocks are its 512-byte blocks, the
    nanoseconds are below a second, and each time is the record's date to the
    nanosecond, or the connection's when the server left it unset; without
    UNIX privileges an object shows as a directory exactly when it is one and
    no pseudo-file over one. With an unknown mapping the answer is -EIO and
    the attributes are zero. *)
Theorem afp_dirent_to_stat_spec v e :
  0 <= offspring e < 2 ^ 16 -> 0 <= d_size e -> 0 <= d_resourcesize e ->
  let '(r, s) := afp_dirent_to_stat v e in
  if (mapping v =? AFP_MAPPING_COMMON) || (mapping v =? AFP_MAPPING_LOGINIDS) then
    r = 0 /\ 0 <= st_size s <= INT64_MAX /\ st_size s <= st_blocks s * 512 < st_size s + 512
    /\ 0 <= tv_nsec (st_mtim s) < AFP_NS_PER_SEC /\ 0 <= tv_nsec (st_ctim s) < AFP_NS_PER_SEC
    /\ (has (valid e) kFPModDateBit = true ->
        tv_sec (st_mtim s) * AFP_NS_PER_SEC + tv_nsec (st_mtim s) = mod_ns e)
    /\ (has (valid e) kFPModDateBit = false -> st_mtim s = Timespec (connect_time v) 0)
    /\ (has (valid e) kFPCreateDateBit = true ->
        tv_sec (st_ctim s) * AFP_NS_PER_SEC + tv_nsec (st_ctim s) = create_ns e)
    /\ (has (valid e) kFPUnixPrivsBit = false ->
        S_ISDIR (st_mode s) = negb (isdir e =? 0)
          && negb ((kind e =? AFP_META_FINDERINFO) || (kind e =? AFP_META_COMMENT)))
    /\ (S_ISDIR (st_mode s) = true -> st_nlink s = offspring e + 2)
  else r = - EIO /\ s = zero_stat.
Proof.
  intros Ho Hd Hr. unfold afp_dirent_to_stat, translate_uidgid_to_client.
  destruct (mapping v =? AFP_MAPPING_COMMON) eqn:Em; cbn [orb];
    [|destruct (mapping v =? AFP_MAPPING_LOGINIDS) eqn:Em2; [|done]].
  all: pose proof (afp_dirent_time_spec v e kFPModDateBit (mod_ns e)) as [Ht1 Ht2];
    pose proof (afp_dirent_time_spec v e kFPCreateDateBit (create_ns e)) as [Hc1 Hc2];
    set (m := afp_dirent_time v e kFPModDateBit _) in *; set (c := afp_dirent_time v e kFPCreateDateBit _) in *.
  all: assert (Hmode : has (valid e) kFPUnixPrivsBit = false ->
        S_ISDIR (afp_dirent_mode e) = negb (isdir e =? 0)
          && negb ((kind e =? AFP_META_FINDERINFO) || (kind e =? AFP_META_COMMENT)))
    by (intros Hp; unfold afp_dirent_mode; rewrite Hp; cbn [andb];
        destruct (_ || _) eqn:Ek; [rewrite regular_mode_not_dir; by rewrite andb_false_r|];
        destruct (isdir e =? 0); done).
  all: destruct (S_ISDIR (afp_dirent_mode e)) eqn:Edir;
    [destruct (offspring e + 2 <? 2) eqn:En; bool_to_prop; [lia|]|];
    cbn [st_size st_blocks st_mtim st_ctim st_mode st_nlink].
  all: match goal with |- context [blocks_of ?n] =>
         assert (Hn : 0 <= n <= INT64_MAX) by (unfold INT64_MAX; bsplit; lia);
         pose proof (blocks_of_spec n (proj1 Hn)) end.
  all: repeat (split; [done || lia|]).
  all: split; [intros E; by rewrite E in Ht2|].
  all: split; [intros E; rewrite E in Ht2; destruct m; simpl in Ht2; destruct Ht2; by subst|].
  all: split; [intros E; by rewrite E in Hc2|].
  all: rewrite Edir; split; [exact Hmode|done].
Qed.

Theorem afp_dirent_to_stat_spec_witness :
  let e := Dirent 1000 0 (-5) 1500000000 (Z.lor kFPModDateBit kFPCreateDateBit) 9 2 0 0 0 0 0 0 3 128 0 (zero_bytes 32) in
  let s := snd (afp_dirent_to_stat (Identity AFP_MAPPING_LOGINIDS 1000 1000 77) e) in
  st_nlink s = 5 /\ st_mtim s = Timespec 1 500000000 /\ st_ctim s = Timespec (-1) 999999995.
Proof.
  pose proof (afp_dirent_to_stat_spec (Identity AFP_MAPPING_LOGINIDS 1000 1000 77)
    (Dirent 1000 0 (-5) 1500000000 (Z.lor kFPModDateBit kFPCreateDateBit) 9 2 0 0 0 0 0 0 3 128 0 (zero_bytes 32)))
    as H.
  vm_compute in H. vm_compute. destruct H as (_ & _ & _ & _ & _ & _ & _ & _ & _ & Hn);
    [split; [discriminate|reflexivity]|discriminate|discriminate|].
  split; [apply Hn; reflexivity|]. split; reflexivity.
Defined.
