(* ===== verification/Uams.v ===== *)
(** The names of authentication methods and of identity mappings
    (lib/uams_def.c, lib/uams.c, lib/map_def.c) and the choice of a version and
    a method (lib/afp.c). *)
From S2P Require Import Prelude AfpProtocol.
From S2P Require Import Listing.

(** ASCII letters compare without their case: strcasecmp answering 0. *)
Definition lower (b : Z) : Z := if (65 <=? b) && (b <=? 90) then b + 32 else b.
Definition strcasecmp_eq (a b : list Z) : bool := list_eqb (map lower a) (map lower b).

(** ** uams_def.c *)

Definition afp_strings : list (list Z) :=
  [str "No User Authent"; str "Cleartxt Passwrd"; str "Randnum Exchange"; str "2-Way Randnum Exchange";
   str "DHCAST128"; str "Client Krb v2"; str "DHX2"; str "Recon1"; str "SRP"].

Definition uam_aliases : list (list Z * list Z) :=
  [(str "guest", str "No User Authent"); (str "clrtxt", str "Cleartxt Passwrd"); (str "randnum", str "Randnum Exchange");
   (str "randnum2", str "2-Way Randnum Exchange"); (str "dhx", str "DHCAST128"); (str "dhx2", str "DHX2");
   (str "srp", str "SRP")].

Definition resolve_uam_shorthand (name : list Z) : list Z :=
  match find (fun a => strcasecmp_eq name (fst a)) uam_aliases with
  | Some (_, full) => full
  | None => name
  end.

Fixpoint string_bit (name : list Z) (strings : list (list Z)) (i : Z) : Z :=
  match strings with
  | [] => 0
  | s :: r => if strcasecmp_eq name s then Z.shiftl 1 i else string_bit name r (i + 1)
  end.
Definition uam_string_to_bitmap (name : list Z) : Z := string_bit (resolve_uam_shorthand name) afp_strings 0.

(** The highest bit's name. *)
Fixpoint highest_string (bitmap : Z) (strings : list (list Z)) (i : Z) : option (list Z) :=
  match strings with
  | [] => None
  | s :: r => match highest_string bitmap r (i + 1) with
              | Some t => Some t
              | None => if has bitmap (Z.shiftl 1 i) then Some s else None
              end
  end.
Definition uam_bitmap_to_string (bitmap : Z) : option (list Z) := highest_string bitmap afp_strings 0.

(** ** uams.c *)

Definition UAM_NOUSERAUTHENT : Z := 0x1.
Definition UAM_CLEARTXTPASSWRD : Z := 0x2.
Definition UAM_RANDNUMEXCHANGE : Z := 0x4.
Definition UAM_2WAYRANDNUM : Z := 0x8.
Definition UAM_DHCAST128 : Z := 0x10.
Definition UAM_DHX2 : Z := 0x40.
Definition UAM_SRP : Z := 0x100.

(** Each method's login and its change of a password. *)
Inductive uam_method := Noauth | Cleartxt | Randnum | Randnum2 | Dhx | Dhx2 | Srp.

Record afp_uam := Uam { uam_bitmap : Z; uam_name : list Z; uam_method_of : uam_method; uam_changes_password : bool }.

(** [gcrypt] is the build with libgcrypt. *)
Definition all_uams (gcrypt : bool) : list (list Z * uam_method * bool) :=
  [(str "Cleartxt Passwrd", Cleartxt, true); (str "No User Authent", Noauth, false)]
  ++ if gcrypt
     then [(str "Randnum Exchange", Randnum, true); (str "2-Way Randnum Exchange", Randnum2, true);
           (str "DHCAST128", Dhx, true); (str "DHX2", Dhx2, true); (str "SRP", Srp, false)]
     else [].

Definition default_uams_mask (gcrypt : bool) : Z :=
  Z.lor UAM_CLEARTXTPASSWRD
    (if gcrypt then foldr Z.lor 0 [UAM_RANDNUMEXCHANGE; UAM_2WAYRANDNUM; UAM_DHCAST128; UAM_DHX2; UAM_SRP] else 0).

Definition register_uam (uam_base : list afp_uam) (u : list Z * uam_method * bool) : Z * list afp_uam :=
  let '(name, m, p) := u in
  let bitmap := uam_string_to_bitmap name in
  if bitmap =? 0 then (-1, uam_base) else (0, uam_base ++ [Uam bitmap name m p]).

Definition init_uams (gcrypt : bool) : Z * list afp_uam :=
  foldl (fun st u => let (r, base) := register_uam (snd st) u in (Z.lor (fst st) r, base)) (0, []) (all_uams gcrypt).

Definition find_uam_by_bitmap (uam_base : list afp_uam) (i : Z) : option afp_uam :=
  find (fun u => uam_bitmap u =? i) uam_base.

Definition find_uam_by_name (uam_base : list afp_uam) (name : list Z) : Z :=
  match find (fun u => list_eqb (uam_name u) (resolve_uam_shorthand name)) uam_base with
  | Some u => uam_bitmap u
  | None => 0
  end.

Fixpoint names_list (us : list afp_uam) : list Z :=
  match us with
  | [] => []
  | [u] => uam_name u
  | u :: r => uam_name u ++ str ", " ++ names_list r
  end.
Definition get_uam_names_list (calloc : bool) (uam_base : list afp_uam) : list Z :=
  if calloc then names_list uam_base else [].

(** The method that logs in, or none. *)
Definition afp_dologin (uam_base : list afp_uam) (uam : Z) : option uam_method :=
  uam_method_of <$> find_uam_by_bitmap uam_base uam.

(** The method that changes the password, or the answer without one. *)
Definition afp_dopasswd (uam_base : list afp_uam) (uam : Z) : Z + uam_method :=
  match find_uam_by_bitmap uam_base uam with
  | None => inl (-1)
  | Some u => if uam_changes_password u then inr (uam_method_of u) else inl kFPCallNotSupported
  end.

(** ** Versions and the choice of both (afp.c) *)

Definition SERVER_MAX_VERSIONS : Z := 10.
Definition AFP_MAX_SUPPORTED_VERSION : Z := 34.

Definition afp_versions : list (list Z * Z) :=
  [(str "AFPVersion 1.1", 11); (str "AFPVersion 2.0", 20); (str "AFPVersion 2.1", 21); (str "AFP2.2", 22);
   (str "AFPX03", 30); (str "AFP3.1", 31); (str "AFP3.2", 32); (str "AFP3.3", 33); (str "AFP3.4", 34)].

(** The highest version offered, of the slots up to the first empty one. *)
Fixpoint highest_offered (requested : Z) (versions : list Z) (version_num : Z) : Z :=
  match versions with
  | [] => version_num
  | v :: r =>
      if v =? 0 then version_num
      else highest_offered requested r
             (if (requested =? 0) || (v <=? requested) then Z.max version_num v else version_num)
  end.

Definition pick_version (versions : list Z) (requested : Z) : option (list Z * Z) :=
  let requested := if requested =? 0 then 0 else Z.min requested AFP_MAX_SUPPORTED_VERSION in
  let version_num := highest_offered requested (take (Z.to_nat SERVER_MAX_VERSIONS) versions) 0 in
  find (fun v => snd v =? version_num) afp_versions.

Fixpoint pick_bit (n : nat) (common : Z) : Z :=
  match n with
  | O => -1
  | S k => if has (Z.shiftl 1 (Z.of_nat k)) common then Z.shiftl 1 (Z.of_nat k) else pick_bit k common
  end.
Definition pick_uam (uam2 uam1 : Z) : Z := pick_bit 16 (Z.land uam2 uam1).

(** ** map_def.c *)

Definition AFP_MAPPING_NAME : Z := 3.

Definition afp_map_strings : list (list Z) :=
  [str "Unknown"; str "Common user directory"; str "Login ids"; str "Name mapped"; []].

Definition get_mapping_name (mapping : Z) : option (list Z) := afp_map_strings !! Z.to_nat mapping.

Fixpoint map_index (name : list Z) (strings : list (list Z)) (i : Z) : Z :=
  match strings with
  | [] => 0
  | s :: r => if zlen s =? 0 then 0 else if strcasecmp_eq name s then i else map_index name r (i + 1)
  end.
Definition map_string_to_num (name : list Z) : Z :=
  if strcasecmp_eq name (str "common") then AFP_MAPPING_COMMON
  else if strcasecmp_eq name (str "loginids") then AFP_MAPPING_LOGINIDS
  else if strcasecmp_eq name (str "name") then AFP_MAPPING_NAME
  else map_index name afp_map_strings 0.
