(* ===== verification/Status.v ===== *)
(** The status of a server (afpc_dsi_getstatus_reply of lib/dsi.c): what the
    client keeps of it, and the version and the authentication method a login
    then uses (pick_version, pick_uam of lib/afp.c). *)
From S2P Require Import Prelude AfpProtocol Utils Codepage Listing Uams.

Definition SERVER_MAX_UAMS : Z := 10.

(** ** The lists of names *)

(** The number of a version by its name. *)
Definition version_number (name : list Z) : option Z :=
  snd <$> find (fun v => list_eqb (fst v) name) afp_versions.

(** The loop over the names at [p]: a name's length byte counts one more in a
    byte. *)
Fixpoint versions_loop (n : nat) (p : list Z) : list Z :=
  match n with
  | O => []
  | S n =>
      let (len, name) := copy_from_pascal (Some p) 33 (zero_bytes 33) in
      match version_number (until_nul name) with
      | Some v => [v]
      | None => []
      end ++ versions_loop n (drop (Z.to_nat (u8 (len + 1))) p)
  end.

(** The slots of the server, zero where there is no version. *)
Definition afpc_dsi_parse_versions (msg : list Z) : list Z :=
  let num_versions := Z.min (byte_at msg 0) SERVER_MAX_VERSIONS in
  let vs := versions_loop (Z.to_nat num_versions) (drop 1 msg) in
  vs ++ zero_bytes (SERVER_MAX_VERSIONS - zlen vs).

(** [ua_name] keeps its bytes from name to name, but each copy clears those it
    covers. *)
Fixpoint uams_loop (n : nat) (p : list Z) : Z :=
  match n with
  | O => 0
  | S n =>
      let (len, name) := copy_from_pascal (Some p) AFP_UAM_LENGTH (zero_bytes AFP_UAM_LENGTH) in
      Z.lor (uam_string_to_bitmap (until_nul name)) (uams_loop n (drop (Z.to_nat (u8 (len + 1))) p))
  end.

Definition afpc_dsi_parse_uams (msg : list Z) : Z :=
  let num_uams := Z.min (byte_at msg 0) SERVER_MAX_UAMS in
  uams_loop (Z.to_nat num_uams) (drop 1 msg).

(** ** The reply *)

(** What the reply sets of the server. *)
Record server_status := Status {
  ss_machine_type : list Z; ss_versions : list Z; ss_supported_uams : Z; ss_icon : list Z; ss_flags : Z;
  ss_name : list Z; ss_signature : list Z; ss_name_utf8 : list Z; ss_printable : list Z }.

(** [iconv] is the conversion of a name without a UTF-8 form, [heap] grants
    the buffers of the other. [buf] is the receive buffer. *)
Definition afpc_dsi_getstatus_reply (heap : Z -> bool) (iconv : list Z -> list Z -> list Z) (buf : list Z) (data_read : Z)
    (s : server_status) : server_status :=
  if data_read <? 16 + 10 + 8 then s
  else
    let data := drop 16 buf in
    let at_ off := drop (Z.to_nat off) data in
    let machine := snd (copy_from_pascal (Some (at_ (be_at data 0 2))) AFP_MACHINETYPE_LEN (ss_machine_type s)) in
    let versions := afpc_dsi_parse_versions (at_ (be_at data 2 2)) in
    let uams := afpc_dsi_parse_uams (at_ (be_at data 4 2)) in
    let icon := if be_at data 6 2 >? 0 then sub (be_at data 6 2) AFP_SERVER_ICON_LEN data else ss_icon s in
    let flags := be_at data 8 2 in
    let (len, name) := copy_from_pascal (Some (at_ 10)) AFP_SERVER_NAME_LEN (ss_name s) in
    let p := 10 + len + 1 in
    let p := if Z.odd p then p + 1 else p in
    let signature := sub (be_at data p 2) AFP_SIGNATURE_LEN data in
    let p := p + 2 in
    let p := if has flags kSupportsTCP then p + 2 else p in
    let p := if has flags kSupportsDirServices then p + 2 else p in
    if has flags kSupportsUTF8SrvrName then
      let p2 := be_at data p 2 + 1 in
      let (len, utf8) := copy_from_pascal (Some (at_ p2)) AFP_SERVER_NAME_UTF8_LEN (ss_name_utf8 s) in
      let utf8 := if len =? 0
                  then snd (copy_from_pascal (Some (at_ (p2 + 1))) AFP_SERVER_NAME_UTF8_LEN (ss_name_utf8 s))
                  else utf8 in
      Status machine versions uams icon flags name signature utf8
        (snd (convert_utf8dec_to_utf8pre heap (until_nul utf8) AFP_SERVER_NAME_UTF8_LEN (ss_printable s)))
    else
      Status machine versions uams icon flags name signature (ss_name_utf8 s) (iconv (until_nul name) (ss_printable s)).

(** ** What a login uses *)

(** The names of a list as the server writes them. *)
Definition pascal_list (names : list (list Z)) : list Z :=
  zlen names :: flat_map (fun n => zlen n :: n) names.

Lemma until_nul_stored n bs : no_nul bs -> zlen bs < n -> until_nul (store (zero_bytes n) 0 bs) = bs.
Proof.
  intros Hb Hn. unfold store, zero_bytes. simpl. rewrite drop_replicate.
  destruct (Z.to_nat n - length bs)%nat eqn:E; [unfold zlen in Hn; lia|]. simpl. by apply until_nul_app_nul.
Qed.

(** One name of a list read. *)
Lemma copy_name n name rest :
  no_nul name -> zlen name < n <= 255 ->
  copy_from_pascal (Some (zlen name :: name ++ rest)) n (zero_bytes n) = (zlen name, store (zero_bytes n) 0 name)
  /\ drop (Z.to_nat (u8 (zlen name + 1))) (zlen name :: name ++ rest) = rest.
Proof.
  intros Hn Hl. pose proof (zlen_nonneg name). split.
  - unfold copy_from_pascal. replace (n =? 0) with false by lia.
    change (byte_at (zlen name :: name ++ rest) 0) with (zlen name). cbv zeta.
    replace (zlen name >=? n) with false by lia.
    change (zlen name :: name ++ rest) with ([zlen name] ++ name ++ rest).
    rewrite sub_app_r, sub_app_l, sub_all by (change (zlen [zlen name]) with 1; lia). done.
  - rewrite u8_small by lia. replace (Z.to_nat (zlen name + 1)) with (S (length name)) by (unfold zlen; lia).
    simpl. by apply drop_app_zlen.
Qed.

Definition names_ok (limit : Z) (names : list (list Z)) : Prop :=
  Forall (fun n => no_nul n /\ zlen n < limit) names.

Lemma versions_loop_list names rest :
  names_ok 33 names ->
  versions_loop (length names) (flat_map (fun n => zlen n :: n) names ++ rest) = omap version_number names.
Proof.
  induction 1 as [|n ns [Hn Hl] _ IH]; [done|]. cbn [length versions_loop flat_map]. rewrite <- app_assoc, <- app_comm_cons.
  destruct (copy_name 33 n (flat_map (fun n => zlen n :: n) ns ++ rest)) as [-> ->]; [done|lia|].
  rewrite until_nul_stored, IH by done. simpl. by destruct (version_number n).
Qed.

Lemma uams_loop_list names rest :
  names_ok AFP_UAM_LENGTH names ->
  uams_loop (length names) (flat_map (fun n => zlen n :: n) names ++ rest)
  = foldr (fun n m => Z.lor (uam_string_to_bitmap n) m) 0 names.
Proof.
  induction 1 as [|n ns [Hn Hl] _ IH]; [done|]. cbn [length uams_loop flat_map foldr].
  rewrite <- app_assoc, <- app_comm_cons.
  destruct (copy_name AFP_UAM_LENGTH n (flat_map (fun n => zlen n :: n) ns ++ rest)) as [-> ->]; [done|split; [done|done]|].
  by rewrite until_nul_stored, IH.
Qed.

(** *** The highest version *)

Definition allowed (requested v : Z) : Prop := requested = 0 \/ v <= requested.

Lemma highest_offered_spec requested vs k m :
  Forall (fun v => 0 < v) vs ->
  let h := highest_offered requested (vs ++ zero_bytes k) m in
  m <= h /\ (h = m \/ h ∈ vs /\ allowed requested h) /\ forall v, v ∈ vs -> allowed requested v -> v <= h.
Proof.
  intros Hv. revert m. induction Hv as [|v vs Hv _ IH]; intros m h; simpl in h.
  - assert (h = m) as ->.
    { subst h. unfold zero_bytes. by destruct (Z.to_nat k). }
    split_and!; [lia|by left|]. by intros v ?%elem_of_nil.
  - subst h. replace (v =? 0) with false by lia. set (m' := if (requested =? 0) || (v <=? requested) then Z.max m v else m).
    destruct (IH m') as (H1 & H2 & H3). set (h := highest_offered _ _ m') in *.
    assert (Hm : m <= m' /\ (m' = m \/ m' = v /\ allowed requested v) /\ (allowed requested v -> v <= m')).
    { subst m'. unfold allowed. destruct ((requested =? 0) || (v <=? requested)) eqn:E; lia. }
    split_and!; [lia| |].
    + destruct H2 as [->|[H2 H2']]; [|right; split; [by right|done]].
      destruct Hm as (_ & [->|[-> Ha]] & _); [by left|]. right. split; [by left|done].
    + intros u [->|Hu]%elem_of_cons Ha; [destruct Hm as (_ & _ & Hm); specialize (Hm Ha); lia|by apply H3].
Qed.

Lemma version_number_in name v : version_number name = Some v -> (name, v) ∈ afp_versions.
Proof.
  unfold version_number. destruct (find _ afp_versions) as [[n u]|] eqn:E; [|done]. intros [= <-].
  apply find_some in E as [Hin He]. simpl in He. apply list_eqb_eq in He as <-. by apply list_elem_of_In.
Qed.

Lemma versions_positive n v : (n, v) ∈ afp_versions -> 0 < v <= AFP_MAX_SUPPORTED_VERSION.
Proof.
  assert (G : forallb (fun e => (0 <? snd e) && (snd e <=? AFP_MAX_SUPPORTED_VERSION)) afp_versions = true)
    by (vm_compute; reflexivity).
  intros Hin%list_elem_of_In. rewrite forallb_forall in G. specialize (G _ Hin). simpl in G. lia.
Qed.

Lemma find_number n v : (n, v) ∈ afp_versions -> find (fun e => snd e =? v) afp_versions = Some (n, v).
Proof.
  assert (G : forallb (fun e => bool_decide (find (fun e' => snd e' =? snd e) afp_versions = Some e)) afp_versions = true)
    by (vm_compute; reflexivity).
  intros Hin%list_elem_of_In. rewrite forallb_forall in G. specialize (G _ Hin). by apply bool_decide_eq_true in G.
Qed.

(** *** The highest method *)

Lemma uam_bit name : uam_string_to_bitmap name = 0 \/ exists i, 0 <= i < 16 /\ uam_string_to_bitmap name = 2 ^ i.
Proof.
  unfold uam_string_to_bitmap. generalize (resolve_uam_shorthand name). intros n.
  assert (G : forall strings i, 0 <= i -> i + zlen strings <= 16 ->
    string_bit n strings i = 0 \/ exists j, 0 <= j < 16 /\ string_bit n strings i = 2 ^ j).
  { induction strings as [|s r IH]; intros i Hi Hl; simpl; [by left|]. rewrite zlen_cons in Hl.
    pose proof (zlen_nonneg r). case_if; [|apply IH; lia].
    right. exists i. split; [lia|]. by rewrite Z.shiftl_1_l. }
  apply G; vm_compute; discriminate.
Qed.

Lemma has_pow k c : 0 <= k -> has (2 ^ k) c = Z.testbit c k.
Proof.
  intros Hk. unfold has. rewrite Z.land_comm, <- (Z.shiftl_1_l k).
  destruct (Z.testbit c k) eqn:E.
  - apply negb_true_iff, Z.eqb_neq. intros G. apply (f_equal (fun z => Z.testbit z k)) in G.
    rewrite Z.land_spec, E, Z.shiftl_spec, Z.sub_diag, Z.bits_0 in G by done. done.
  - apply negb_false_iff, Z.eqb_eq. apply Z.bits_inj'. intros i Hi. rewrite Z.land_spec, Z.bits_0.
    destruct (decide (i = k)) as [->|Hne]; [by rewrite E|].
    rewrite Z.shiftl_1_l, Z.pow2_bits_false by done. apply andb_false_r.
Qed.

Lemma pick_bit_spec n c :
  let r := pick_bit n c in
  r = -1 /\ (forall k, 0 <= k < Z.of_nat n -> Z.testbit c k = false)
  \/ exists k, 0 <= k < Z.of_nat n /\ r = 2 ^ k /\ Z.testbit c k = true
       /\ forall j, k < j < Z.of_nat n -> Z.testbit c j = false.
Proof.
  induction n as [|n IH]; [left; split; [done|]; simpl; lia|]. cbn [pick_bit].
  rewrite Z.shiftl_1_l, has_pow by lia. destruct (Z.testbit c (Z.of_nat n)) eqn:E.
  - right. exists (Z.of_nat n). split_and!; [lia|lia|done|done|]. intros j Hj. lia.
  - destruct IH as [[-> IH]|(k & Hk & Hr & Hb & IH)].
    + left. split; [done|]. intros k Hk. destruct (decide (k = Z.of_nat n)) as [->|]; [done|]. apply IH. lia.
    + right. exists k. split_and!; [lia|lia|done|done|]. intros j Hj.
      destruct (decide (j = Z.of_nat n)) as [->|]; [done|]. apply IH. lia.
Qed.

Lemma offered_bit names i : 0 <= i ->
  Z.testbit (foldr (fun n m => Z.lor (uam_string_to_bitmap n) m) 0 names) i = true
  <-> exists n, n ∈ names /\ uam_string_to_bitmap n = 2 ^ i.
Proof.
  intros Hi. induction names as [|n ns IH]; simpl.
  - rewrite Z.bits_0. split; [done|]. by intros (n & ?%elem_of_nil & _).
  - rewrite Z.lor_spec, orb_true_iff, IH. split.
    + intros [Hb|(m & Hm & Hb)]; [|exists m; split; [by right|done]]. exists n. split; [by left|].
      destruct (uam_bit n) as [E|(j & Hj & E)]; rewrite E in Hb |- *; [by rewrite Z.bits_0 in Hb|].
      destruct (decide (i = j)) as [->|Hne]; [done|]. by rewrite Z.pow2_bits_false in Hb.
    + intros (m & [->|Hm]%elem_of_cons & Hb); [left|right; by exists m]. rewrite Hb. by apply Z.pow2_bits_true.
Qed.

(** The method's choice among the names offered. *)
Definition best_uam (names : list (list Z)) (mask r : Z) : Prop :=
  r = -1 /\ (forall n, n ∈ names -> Z.land (uam_string_to_bitmap n) mask = 0)
  \/ exists n, n ∈ names /\ uam_string_to_bitmap n = r /\ Z.land r mask <> 0
       /\ forall m, m ∈ names -> Z.land (uam_string_to_bitmap m) mask <> 0 -> uam_string_to_bitmap m <= r.

(** The version's choice. *)
Definition best_version (names : list (list Z)) (requested : Z) (r : option (list Z * Z)) : Prop :=
  match r with
  | Some (name, v) => name ∈ names /\ version_number name = Some v /\ allowed requested v
      /\ forall n u, n ∈ names -> version_number n = Some u -> allowed requested u -> u <= v
  | None => forall n u, n ∈ names -> version_number n = Some u -> ~ allowed requested u
  end.

Lemma land_pow i mask : 0 <= i -> Z.land (2 ^ i) mask <> 0 <-> Z.testbit mask i = true.
Proof. intros Hi. rewrite <- has_pow by done. unfold has. rewrite negb_true_iff, Z.eqb_neq. done. Qed.

Lemma pick_uam_best names mask :
  best_uam names mask (pick_uam (foldr (fun n m => Z.lor (uam_string_to_bitmap n) m) 0 names) mask).
Proof.
  unfold pick_uam. destruct (pick_bit_spec 16 (Z.land (foldr (fun n m => Z.lor (uam_string_to_bitmap n) m) 0 names) mask))
    as [[-> Hn]|(k & Hk & -> & Hb & Hn)].
  - left. split; [done|]. intros n Hin. destruct (uam_bit n) as [->|(i & Hi & E)]; [done|]. rewrite E.
    specialize (Hn i ltac:(lia)). rewrite Z.land_spec in Hn. apply dec_stable. intros G. apply land_pow in G; [|lia].
    rewrite G, andb_true_r in Hn. assert (Z.testbit (foldr (fun n m => Z.lor (uam_string_to_bitmap n) m) 0 names) i = true)
      by (apply offered_bit; [lia|by exists n]). congruence.
  - rewrite Z.land_spec in Hb. apply andb_prop in Hb as [Hb1 Hb2]. apply offered_bit in Hb1 as (n & Hin & E); [|lia].
    right. exists n. split_and!; [done|done|by apply land_pow; [lia|]|]. intros m Hm Hl.
    destruct (uam_bit m) as [->|(j & Hj & Ej)]; [apply Z.pow_nonneg; lia|]. rewrite Ej in Hl |- *.
    apply land_pow in Hl; [|lia]. destruct (Z.le_gt_cases j k); [apply Z.pow_le_mono_r; lia|].
    specialize (Hn j ltac:(lia)). rewrite Z.land_spec, Hl, andb_true_r in Hn.
    assert (Z.testbit (foldr (fun n m => Z.lor (uam_string_to_bitmap n) m) 0 names) j = true)
      by (apply offered_bit; [lia|by exists m]). congruence.
Qed.

Lemma omap_known (names : list (list Z)) v : v ∈ omap version_number names <-> exists n, n ∈ names /\ version_number n = Some v.
Proof. by rewrite list_elem_of_omap. Qed.

Lemma omap_short (names : list (list Z)) : (length (omap version_number names) <= length names)%nat.
Proof. induction names as [|n ns IH]; simpl in *; [lia|]. unfold omap in IH. destruct (version_number n); simpl; lia. Qed.

Lemma pick_version_best (names : list (list Z)) requested k :
  zlen (omap version_number names) <= SERVER_MAX_VERSIONS -> 0 <= requested ->
  best_version names requested (pick_version (omap version_number names ++ zero_bytes k) requested).
Proof.
  intros Hl Hr. unfold pick_version. rewrite take_app.
  rewrite take_ge by (unfold zlen, SERVER_MAX_VERSIONS in *; lia).
  set (req := if requested =? 0 then 0 else Z.min requested AFP_MAX_SUPPORTED_VERSION).
  assert (Hreq : forall v, v <= AFP_MAX_SUPPORTED_VERSION -> allowed req v <-> allowed requested v).
  { intros v Hv. unfold allowed, req. destruct (requested =? 0) eqn:E; unfold AFP_MAX_SUPPORTED_VERSION in *; lia. }
  assert (Hpos : forall n v, version_number n = Some v -> 0 < v <= AFP_MAX_SUPPORTED_VERSION)
    by (intros n v Hv; by apply (versions_positive n), version_number_in).
  unfold zero_bytes. rewrite take_replicate. set (j := Nat.min _ _).
  destruct (highest_offered_spec req (omap version_number names) (Z.of_nat j) 0) as (H1 & H2 & H3).
  { apply Forall_forall. intros v (n & _ & Hv)%omap_known. apply (Hpos n v Hv). }
  unfold zero_bytes in *. rewrite Nat2Z.id in *. set (h := highest_offered req _ 0) in *.
  destruct H2 as [->|[H2 Ha]].
  - intros n u Hn Hu Hal. destruct (Hpos n u Hu) as [P1 P2]. apply Hreq in Hal; [|done].
    specialize (H3 u ltac:(apply omap_known; by exists n) Hal). lia.
  - apply omap_known in H2 as (n & Hn & Hv). rewrite (find_number n h) by (by apply version_number_in).
    split_and!; [done|done|apply Hreq; [by apply (Hpos n)|done]|].
    intros m u Hm Hu Hal. apply H3; [apply omap_known; by exists m|]. apply Hreq; [by apply (Hpos m)|done].
Qed.

(** C40: a login uses the best both sides have. From the status of a server that
    offers any names of versions and of authentication methods, ten of each
    at most, the version chosen is the highest one known of those offered, at
    most the one requested, and the method is the highest of those offered
    and allowed; none is chosen exactly when there is none. *)
Theorem login_negotiated versions uams rest rest' requested mask :
  names_ok 33 versions -> names_ok AFP_UAM_LENGTH uams -> zlen versions <= SERVER_MAX_VERSIONS ->
  zlen uams <= SERVER_MAX_UAMS -> 0 <= requested ->
  best_version versions requested (pick_version (afpc_dsi_parse_versions (pascal_list versions ++ rest)) requested)
  /\ best_uam uams mask (pick_uam (afpc_dsi_parse_uams (pascal_list uams ++ rest')) mask).
Proof.
  intros Hv Hu Lv Lu Hr. pose proof (zlen_nonneg versions). pose proof (zlen_nonneg uams). split.
  - unfold afpc_dsi_parse_versions, pascal_list. change (byte_at (_ ++ rest) 0) with (zlen versions).
    rewrite Z.min_l by done. replace (Z.to_nat (zlen versions)) with (length versions) by (unfold zlen; lia).
    rewrite <- app_comm_cons, skipn_cons, drop_0, versions_loop_list by done. apply pick_version_best; [|done].
    unfold zlen in *. pose proof (omap_short versions). lia.
  - unfold afpc_dsi_parse_uams, pascal_list. change (byte_at (_ ++ rest') 0) with (zlen uams).
    rewrite Z.min_l by done. replace (Z.to_nat (zlen uams)) with (length uams) by (unfold zlen; lia).
    rewrite <- app_comm_cons, skipn_cons, drop_0, uams_loop_list by done. apply pick_uam_best.
Qed.

Lemma login_negotiated_witness :
  let r := pick_version (afpc_dsi_parse_versions (pascal_list [str "AFP2.2"; str "AFP3.4"; str "AFP3.3"] ++ [])) 33 in
  let u := pick_uam (afpc_dsi_parse_uams (pascal_list [str "DHX2"; str "No User Authent"] ++ [])) 0x1ff in
  r = Some (str "AFP3.3", 33) /\ u = UAM_DHX2
  /\ best_version [str "AFP2.2"; str "AFP3.4"; str "AFP3.3"] 33 r /\ best_uam [str "DHX2"; str "No User Authent"] 0x1ff u.
Proof.
  intros r u. split; [vm_compute; reflexivity|]. split; [vm_compute; reflexivity|].
  apply login_negotiated; try (vm_compute; discriminate).
  - repeat constructor; vm_compute; done.
  - repeat constructor; vm_compute; done.
Defined.
