(* ===== verification/World.v ===== *)
(** The world of the file operations (lib/did.c, lib/forklist.c, lib/lowlevel.c,
    lib/resource.c, lib/midlevel.c): the volume's state in the client, and the
    requests the client sends, as the interface [Env] between those components
    and what answers them.

    A request is a [cmd] with the type of its answer; an environment handles
    it. Everything a server, the clock or the allocator decides comes from the
    environment, so a theorem holds for any. [Logged] records the requests of
    any environment, for theorems about what is sent. *)
From stdpp Require Import gmap.
From S2P Require Import Prelude AfpProtocol Dates ReplyBlock Listing.

(** ** Requests *)

(** What an open's reply stores in the record (afp_openfork_reply). *)
Record open_reply := OpenReply {
  or_forkid : option Z; or_cnid : option Z; or_size : option Z }.

(** What afp_getvolparms stores of the volume's struct statvfs. *)
Record vol_space := VolSpace { f_bsize : Z; f_blocks : Z; f_bfree : Z }.

(** struct afp_extattr_info: the value's length, and the bytes copied. *)
Record extattr_info := ExtAttr { ea_size : Z; ea_data : list Z }.

(** Which of the three enumerations a listing's page asks with. *)
Inductive enum_kind : Set := Enumerate16 | EnumerateExt | EnumerateExt2.

Inductive cmd : Type -> Type :=
| Gettimeofday : cmd Z
| Malloc (bytes : Z) : cmd bool
| Sleep (seconds : Z) : cmd unit
| GetFileDirParms (dirid filebitmap dirbitmap : Z) (name : list Z) : cmd (Z * afp_dirent)
| SetFileDirParms (dirid : Z) (name : list Z) (bitmap : Z) (e : afp_dirent) : cmd Z
| SetDirParms (dirid : Z) (name : list Z) (bitmap : Z) (e : afp_dirent) : cmd Z
| OpenFork (forktype dirid accessmode bitmap : Z) (name : list Z) : cmd (Z * open_reply)
| CloseFork (forkid : Z) : cmd Z
| FlushFork (forkid wait : Z) : cmd Z
| SyncFork (forkid wait : Z) : cmd Z
| ReadFork (ext : bool) (forkid offset count : Z) : cmd (Z * list Z)
| WriteFork (ext : bool) (forkid offset : Z) (data : list Z) : cmd (Z * Z)
| ByteRangeLock (ext : bool) (flag forkid offset len : Z) : cmd Z
| SetForkParms (forkid bitmap size : Z) : cmd Z
| CreateFile (flag dirid : Z) (name : list Z) : cmd Z
| CreateDir (dirid : Z) (name : list Z) : cmd Z
| Delete (dirid : Z) (name : list Z) : cmd Z
| CopyFile (src_did : Z) (src_name : list Z) (dst_did : Z) (dst_name : list Z) (wait : Z) : cmd Z
| MoveAndRename (src_did dst_did : Z) (src_name : list Z) (dst_folder : option (list Z)) (dst_name : list Z) : cmd Z
| ExchangeFiles (src_did dst_did : Z) (src_name dst_name : list Z) : cmd Z
| Enumerate (kind : enum_kind) (dirid filebitmap dirbitmap reqcount startindex : Z) (name : list Z)
    (l : afp_listing) : cmd (Z * afp_listing)
| GetVolParms (bitmap : Z) : cmd (Z * vol_space)
| OpenDT : cmd (Z * Z)
| GetComment (dirid : Z) (name : list Z) : cmd (Z * list Z)
| AddComment (dirid : Z) (name comment : list Z) : cmd Z
| GetExtAttr (dirid bitmap replysize : Z) (path name : list Z) : cmd (Z * extattr_info)
| SetExtAttr (dirid bitmap offset : Z) (path name data : list Z) : cmd Z
| ListExtAttr (dirid bitmap : Z) (path : list Z) : cmd (Z * extattr_info)
| RemoveExtAttr (dirid bitmap : Z) (path name : list Z) : cmd Z.

(** What answers the requests. *)
Class Env (E : Type) : Type := handle : forall A, cmd A -> E -> A * E.
Arguments handle {E _ A} _ _.

(** The requests that change an object on the server's volume. *)
Definition changes {A} (c : cmd A) : bool :=
  match c with
  | SetFileDirParms _ _ _ _ | SetDirParms _ _ _ _ | WriteFork _ _ _ _ | SetForkParms _ _ _
  | CreateFile _ _ _ | CreateDir _ _ | Delete _ _ | CopyFile _ _ _ _ _ | MoveAndRename _ _ _ _ _
  | ExchangeFiles _ _ _ _ | AddComment _ _ _ | SetExtAttr _ _ _ _ _ _ | RemoveExtAttr _ _ _ _ => true
  | OpenFork _ _ mode _ _ => has mode AFP_OPENFORK_ALLOWWRITE
  | _ => false
  end.

(** ** The volume's state in the client *)

(** struct did_cache_entry, less the link; [time_] is tv_sec. *)
Record did_cache_entry := DidEntry {
  dirname : list Z; did : Z; parentdid : Z; entry_name : list Z; time_ : Z }.

Record did_stats := DidStats { hits : Z; misses : Z; expired_ : Z; force_removed : Z }.

(** struct afp_file_info, less the link. *)
Record afp_file_info := FileInfo {
  fi_size : Z; fi_did : Z; fi_cnid : Z; fi_resource : Z; fi_forkid : Z;
  fi_sync : bool; fi_writable : bool; fi_dirty : bool; fi_created : bool; fi_basename : list Z }.

(** The fork records live at addresses, [open_forks] is the list of those
    linked through largelist_next. *)
Record volume := Volume {
  did_cache : list did_cache_entry;
  did_cache_stats : did_stats;
  forks : gmap Z afp_file_info;
  open_forks : list Z;
  dtrefnum : Z;
  no_desktop : bool;
  vstat : vol_space }.

Inductive server_type_t : Set :=
| AFPC_SERVER_TYPE_UNKNOWN | AFPC_SERVER_TYPE_NETATALK | AFPC_SERVER_TYPE_AIRPORT
| AFPC_SERVER_TYPE_MACINTOSH | AFPC_SERVER_TYPE_TIMECAPSULE | AFPC_SERVER_TYPE_WINDOWS.

(** What the operations read of the volume and its server and do not change. *)
Record config := Config {
  av_number : Z;
  quantum : Z;
  server_type : server_type_t;
  server_version : Z * Z * Z;
  path_encoding : Z;
  extra_flags : Z;
  vol_attributes : Z;
  volume_name : list Z;
  mount_time : Z;
  vol_identity : identity;
  icon : list Z;
  dsi_default_timeout : Z;
  conv_heap : Z -> bool }.             (* the allocator of the name conversions *)

Definition VOLUME_EXTRA_FLAGS_SHOW_APPLEDOUBLE : Z := 0x4.
Definition VOLUME_EXTRA_FLAGS_VOL_SUPPORTS_UNIX : Z := 0x8.
Definition VOLUME_EXTRA_FLAGS_NO_LOCKING : Z := 0x10.
Definition VOLUME_EXTRA_FLAGS_IGNORE_UNIXPRIVS : Z := 0x20.
Definition VOLUME_EXTRA_FLAGS_READONLY : Z := 0x40.
Definition VOLUME_EXTRA_FLAGS_FLUSH_ON_CLOSE : Z := 0x80.

Definition volume_is_readonly (cf : config) : bool :=
  has (vol_attributes cf) kReadOnly || has (extra_flags cf) VOLUME_EXTRA_FLAGS_READONLY.

(** ** Operations as state passing *)

Definition M (E A : Type) : Type := volume * E -> A * (volume * E).

Definition ret {E A} (a : A) : M E A := fun w => (a, w).
Definition bind {E A B} (m : M E A) (k : A -> M E B) : M E B := fun w => let (a, w') := m w in k a w'.

Notation "'let!' x ':=' m 'in' k" := (bind m (fun x => k))
  (at level 10, x pattern, m at level 100, k at level 200) : afp_scope.
Notation "m ';;!' k" := (bind m (fun _ => k)) (at level 60, right associativity) : afp_scope.

Section Ops.
Context {E : Type} `{Env E}.

Definition call {A} (c : cmd A) : M E A :=
  fun w => let (a, e) := handle c (snd w) in (a, (fst w, e)).
Definition get {A} (f : volume -> A) : M E A := fun w => (f (fst w), w).
Definition modify (f : volume -> volume) : M E unit := fun w => (tt, (f (fst w), snd w)).

End Ops.

Definition set_did_cache (c : list did_cache_entry) (v : volume) : volume :=
  Volume c (did_cache_stats v) (forks v) (open_forks v) (dtrefnum v) (no_desktop v) (vstat v).
Definition set_did_stats (s : did_stats) (v : volume) : volume :=
  Volume (did_cache v) s (forks v) (open_forks v) (dtrefnum v) (no_desktop v) (vstat v).
Definition set_forks (f : gmap Z afp_file_info) (v : volume) : volume :=
  Volume (did_cache v) (did_cache_stats v) f (open_forks v) (dtrefnum v) (no_desktop v) (vstat v).
Definition set_open_forks (l : list Z) (v : volume) : volume :=
  Volume (did_cache v) (did_cache_stats v) (forks v) l (dtrefnum v) (no_desktop v) (vstat v).
Definition set_dt (ref : Z) (none : bool) (v : volume) : volume :=
  Volume (did_cache v) (did_cache_stats v) (forks v) (open_forks v) ref none (vstat v).
Definition set_vstat (s : vol_space) (v : volume) : volume :=
  Volume (did_cache v) (did_cache_stats v) (forks v) (open_forks v) (dtrefnum v) (no_desktop v) s.

(** The record at an address; a freed one reads as zeros. *)
Definition null_fork : afp_file_info := FileInfo 0 0 0 0 0 false false false false [].
Definition fork_at (p : Z) (v : volume) : afp_file_info := default null_fork (forks v !! p).
Definition set_fork (p : Z) (f : afp_file_info) (v : volume) : volume := set_forks (<[p := f]> (forks v)) v.

(** ** Rules for triples *)

Section Rules.
Context {E : Type} `{Env E}.

(** From a world in [P], [m] ends in [Q]. *)
Definition triple {A} (P : volume * E -> Prop) (m : M E A) (Q : A -> volume * E -> Prop) : Prop :=
  forall w, P w -> Q (fst (m w)) (snd (m w)).

Lemma triple_ret {A} (P : volume * E -> Prop) (a : A) Q : (forall w, P w -> Q a w) -> triple P (ret a) Q.
Proof. intros HQ w Hw. by apply HQ. Qed.

Lemma triple_bind {A B} P (m : M E A) (k : A -> M E B) R Q :
  triple P m R -> (forall a, triple (R a) (k a) Q) -> triple P (bind m k) Q.
Proof.
  intros Hm Hk w Hw. specialize (Hm w Hw). unfold bind. destruct (m w) as [a w']. by apply Hk.
Qed.

Lemma triple_conseq {A} (P P' : volume * E -> Prop) (m : M E A) Q Q' :
  triple P' m Q' -> (forall w, P w -> P' w) -> (forall a w, Q' a w -> Q a w) -> triple P m Q.
Proof. intros Hm HP HQ w Hw. apply HQ, Hm, HP, Hw. Qed.

Lemma triple_if {A} P (b : bool) (m n : M E A) Q :
  (b = true -> triple P m Q) -> (b = false -> triple P n Q) -> triple P (if b then m else n) Q.
Proof. destruct b; auto. Qed.

End Rules.

(** [keeps P m]: the operation keeps a property of the world. *)
Definition keeps {E A} (P : volume * E -> Prop) (m : M E A) : Prop := forall w, P w -> P (snd (m w)).

Section Keeps.
Context {E : Type} `{Env E} (P : volume * E -> Prop).

Lemma keeps_ret {A} (a : A) : keeps P (ret a).
Proof. by intros w Hw. Qed.

Lemma keeps_bind {A B} (m : M E A) (k : A -> M E B) : keeps P m -> (forall a, keeps P (k a)) -> keeps P (bind m k).
Proof. intros Hm Hk w Hw. specialize (Hm w Hw). unfold bind. destruct (m w) as [a w']. by apply Hk. Qed.

Lemma keeps_get {A} (f : volume -> A) : keeps P (get f).
Proof. by intros w Hw. Qed.

Lemma keeps_if {A} (b : bool) (m n : M E A) : keeps P m -> keeps P n -> keeps P (if b then m else n).
Proof. by destruct b. Qed.

End Keeps.

Create HintDb keeps.
#[export] Hint Resolve keeps_ret keeps_bind keeps_get keeps_if : keeps.

(** A property that only the requests that change the server's volume can
    break. *)
Class Quiet {E} `{Env E} (P : volume * E -> Prop) : Prop := {
  quiet_call : forall A (c : cmd A), changes c = false -> keeps P (call c);
  quiet_modify : forall f, keeps P (modify f) }.

#[export] Hint Resolve quiet_modify : keeps.
#[export] Hint Extern 1 (keeps _ (call _)) => (apply quiet_call; reflexivity) : keeps.

(** Proves that an operation keeps a property, from the hints, case by case. *)
Ltac keep_step :=
  match goal with
  | |- forall _, _ => intro
  | |- keeps _ (bind _ _) => apply keeps_bind
  | |- keeps _ (ret _) => apply keeps_ret
  | |- keeps _ (get _) => apply keeps_get
  | |- keeps _ (if true then _ else _) => cbn iota
  | |- keeps _ (if false then _ else _) => cbn iota
  | |- keeps _ (if false && _ then _ else _) => cbn [andb]
  | |- keeps _ (if _ || true then _ else _) => rewrite orb_true_r
  | |- keeps _ (match ?x with _ => _ end) => destruct x
  | |- keeps _ (let _ := _ in _) => cbv zeta
  | |- keeps _ _ => solve [eauto with keeps]
  end.
Ltac keep := repeat keep_step.

(** ** The log of an environment *)

(** A request with its answer. *)
Record sent := Sent { sent_type : Type; sent_cmd : cmd sent_type; sent_answer : sent_type }.

Definition Logged (E : Type) : Type := E * list sent.

#[export] Instance logged_env {E} `{Env E} : Env (Logged E) :=
  fun A c e => let (a, e') := handle c (fst e) in (a, (e', snd e ++ [Sent A c a])).

(** A world after a request. *)
Definition after {E A} (w : volume * Logged E) (e : E) (c : cmd A) (a : A) : volume * Logged E :=
  (fst w, (e, snd (snd w) ++ [Sent A c a])).

Lemma call_logged {E} `{Env E} {A} (c : cmd A) (w : volume * Logged E) : exists a e, call c w = (a, after w e c a).
Proof. unfold call, handle, logged_env. destruct (handle c (fst (snd w))) as [a e]. by exists a, e. Qed.

(** Takes the next request of the goal from its log. *)
Ltac next_call a e := match goal with |- context [call ?c ?w] => destruct (call_logged c w) as (a & e & ->) end.

(** ** Environments for examples *)

(** The answer of a server that is gone: the clock stands, memory is granted,
    every request fails. *)
Definition no_answer {A} (c : cmd A) : A :=
  match c in cmd A return A with
  | Gettimeofday => 0
  | Malloc _ => true
  | Sleep _ => tt
  | GetFileDirParms _ _ _ _ => (- EIO, empty_dirent 0)
  | OpenFork _ _ _ _ _ => (- EIO, OpenReply None None None)
  | ReadFork _ _ _ _ => (- EIO, [])
  | WriteFork _ _ _ _ => (- EIO, 0)
  | Enumerate _ _ _ _ _ _ _ l => (- EIO, l)
  | GetVolParms _ => (- EIO, VolSpace 0 0 0)
  | OpenDT => (- EIO, 0)
  | GetComment _ _ => (- EIO, [])
  | GetExtAttr _ _ _ _ _ => (- EIO, ExtAttr 0 [])
  | ListExtAttr _ _ _ => (- EIO, ExtAttr 0 [])
  | SetFileDirParms _ _ _ _ | SetDirParms _ _ _ _ | CloseFork _ | FlushFork _ _ | SyncFork _ _
  | ByteRangeLock _ _ _ _ _ | SetForkParms _ _ _ | CreateFile _ _ _ | CreateDir _ _ | Delete _ _
  | CopyFile _ _ _ _ _ | MoveAndRename _ _ _ _ _ | ExchangeFiles _ _ _ _ | AddComment _ _ _
  | SetExtAttr _ _ _ _ _ _ | RemoveExtAttr _ _ _ _ => - EIO
  end.

Definition empty_volume : volume :=
  Volume [] (DidStats 0 0 0 0) ∅ [] 0 false (VolSpace 0 0 0).

Definition sample_config : config :=
  Config 34 65536 AFPC_SERVER_TYPE_NETATALK (4, 2, 3) kFPUTF8Name 0 0 [] 0
    (Identity AFP_MAPPING_COMMON 0 0 0) [] DSI_DEFAULT_TIMEOUT (fun _ => true).

(** The requests of a log that change the server's volume. *)
Definition changing (l : list sent) : list sent :=
  filter (fun s => changes (sent_cmd s) = true) l.

#[export] Instance changing_quiet {E} `{Env E} l :
  Quiet (E := Logged E) (fun w => changing (snd (snd w)) = l).
Proof.
  split; [|by intros f w Hw]. intros A c Hc w Hw. unfold call, handle, logged_env.
  destruct (handle c (fst (snd w))) as [a e]. simpl. unfold changing. rewrite filter_app, filter_cons_False, app_nil_r.
  - exact Hw.
  - simpl. by rewrite Hc.
Qed.
