(* ===== verification/DidCache.v ===== *)
(** The cache of directory identifiers and the lookup that fills it
    (lib/did.c). A path is a byte list without NUL; a pointer into it is an
    offset. *)
From stdpp Require Import gmap.
From S2P Require Import Prelude AfpProtocol Utils Codepage ReplyBlock Listing World.

(** ** Answers as errno (ll_answer_errno, lib/lowlevel.c) *)

Definition ll_answer_errno (rc : Z) : Z :=
  if rc =? kFPNoErr then 0
  else if rc =? kFPAccessDenied then EACCES
  else if rc =? kFPObjectNotFound then ENOENT
  else if rc =? kFPVolLocked then EROFS
  else EIO.

(** ** C strings *)

(** strncmp and memcmp answering 0. *)
Definition strncmp_eq (l k : list Z) (n : Z) : bool :=
  list_eqb (take (Z.to_nat n) l) (take (Z.to_nat n) k).

(** ** The cache *)

Definition timeout : Z := 10.

Definition did_entry_expired (p : did_cache_entry) (now : Z) : bool := now >? time_ p + timeout.

Fixpoint strip_slashes (path : list Z) (len : nat) : nat :=
  match len with
  | S (S _ as k) => if byte_at path (Z.of_nat k) =? ch_slash then strip_slashes path k else len
  | _ => len
  end.

Definition did_path_length (path : list Z) : Z := Z.of_nat (strip_slashes path (length path)).

Definition did_separator (path_len : Z) : Z := if path_len =? 1 then 0 else path_len.

Definition did_child_of (dir path : list Z) (path_len : Z) : bool :=
  let sep := did_separator path_len in
  strncmp_eq dir path sep && (byte_at dir sep =? ch_slash)
  && match strchr dir (sep + 1) ch_slash with Some _ => false | None => true end.

Definition walk_start (path : list Z) (path_len : Z) : Z :=
  if byte_at path path_len =? ch_slash then path_len + 1 else path_len.

Definition count_expired (s : did_stats) : did_stats :=
  DidStats (hits s) (misses s) (u64 (expired_ s + 1)) (force_removed s).
Definition count_removed (s : did_stats) : did_stats :=
  DidStats (hits s) (misses s) (expired_ s) (u64 (force_removed s + 1)).
Definition count_hit (s : did_stats) : did_stats :=
  DidStats (u64 (hits s + 1)) (misses s) (expired_ s) (force_removed s).
Definition count_miss (s : did_stats) : did_stats :=
  DidStats (hits s) (u64 (misses s + 1)) (expired_ s) (force_removed s).

(** Whether the walk of forget_locked matches an entry's path. *)
Definition on_line (path dir : list Z) (ancestors : bool) : bool :=
  let path_len := did_path_length path in
  let sep := did_separator path_len in
  let len := zlen dir in
  strncmp_eq dir path (Z.min len path_len)
  && ((len =? path_len)
      || ((len >? path_len) && (byte_at dir sep =? ch_slash))
      || (ancestors && (len <? path_len) && (byte_at path len =? ch_slash))).

Fixpoint forget_walk (path : list Z) (ancestors : bool) (now : Z) (c : list did_cache_entry) (s : did_stats)
    : list did_cache_entry * did_stats :=
  match c with
  | [] => ([], s)
  | p :: next =>
      let expired := did_entry_expired p now in
      if expired || on_line path (dirname p) ancestors
      then forget_walk path ancestors now next (if expired then count_expired s else count_removed s)
      else let (c', s') := forget_walk path ancestors now next s in (p :: c', s')
  end.

Definition forget_locked (path : list Z) (ancestors : bool) (now : Z) (v : volume) : volume :=
  let (c, s) := forget_walk path ancestors now (did_cache v) (did_cache_stats v) in
  set_did_stats s (set_did_cache c v).

Fixpoint forget_taken_walk (taken : list did_cache_entry) (now : Z) (v : volume) : volume :=
  match taken with
  | [] => v
  | p :: next =>
      let v := forget_locked (dirname p) false now v in
      forget_taken_walk next now (set_did_stats (count_removed (did_cache_stats v)) v)
  end.

(** *** The index of a listing *)

Record listed_folder := Folder { lf_name : list Z; lf_cnid : Z }.

(** strcmp(3). *)
Fixpoint strcmp (a b : list Z) : comparison :=
  match a, b with
  | [], [] => Eq
  | [], _ :: _ => Lt
  | _ :: _, [] => Gt
  | x :: r, y :: s => match x ?= y with Eq => strcmp r s | c => c end
  end.

Definition listed_folder_cmp (a b : listed_folder) : comparison := strcmp (lf_name a) (lf_name b).

(** qsort(3), as the stable sort glibc has. *)
Fixpoint folder_insert (f : listed_folder) (l : list listed_folder) : list listed_folder :=
  match l with
  | [] => [f]
  | g :: r => match listed_folder_cmp f g with Gt => g :: folder_insert f r | _ => f :: l end
  end.
Definition folder_sort (l : list listed_folder) : list listed_folder := foldr folder_insert [] l.

Definition folders_of (l : afp_listing) : list listed_folder :=
  map (fun e => Folder (afp_dirent_name l e) (cnid e))
    (filter (fun e => negb (isdir e =? 0) && has (valid e) kFPNodeIDBit = true)
       (take (Z.to_nat (count l)) (entries l))).

(** bsearch(3): the loop of glibc over [l, u). *)
Fixpoint bsearch_loop (fuel : nat) (key : listed_folder) (folders : list listed_folder) (l u : nat)
    : option listed_folder :=
  match fuel with
  | O => None
  | S fuel =>
      if (l <? u)%nat then
        let idx := Nat.div2 (l + u) in
        match folders !! idx with
        | None => None
        | Some f =>
            match listed_folder_cmp key f with
            | Lt => bsearch_loop fuel key folders l idx
            | Gt => bsearch_loop fuel key folders (S idx) u
            | Eq => Some f
            end
        end
      else None
  end.

Definition bsearch (key : listed_folder) (folders : list listed_folder) : option listed_folder :=
  bsearch_loop (S (length folders)) key folders 0 (length folders).

Definition listing_holds_folder (folders : list listed_folder) (name : list Z) (d : Z) : bool :=
  match folders with
  | [] => false
  | _ => match bsearch (Folder name 0) folders with
         | Some f => lf_cnid f =? d
         | None => false
         end
  end.

(** *** Operations on the volume *)

Section Did.
Context {E : Type} `{Env E} (cf : config).

Definition free_entire_did_cache : M E Z := modify (set_did_cache []) ;;! ret 0.

Definition forget_did_paths (path : list Z) (ancestors : bool) : M E unit :=
  let! now := call Gettimeofday in modify (forget_locked path ancestors now).

Definition remove_did_lineage (path : list Z) : M E unit := forget_did_paths path true.
Definition remove_did_subtree (path : list Z) : M E unit := forget_did_paths path false.

Definition forget_taken (taken : list did_cache_entry) : M E unit :=
  match taken with
  | [] => ret tt
  | _ => let! now := call Gettimeofday in modify (forget_taken_walk taken now)
  end.

Definition sizeof_listed_folder : Z := 16.

Definition index_folders (l : afp_listing) : M E (option (list listed_folder)) :=
  let! ok := call (Malloc (count l * sizeof_listed_folder)) in
  ret (if ok : bool then Some (folder_sort (folders_of l)) else None).

Definition has_cached_child (path : list Z) (path_len : Z) (v : volume) : bool :=
  existsb (fun p => did_child_of (dirname p) path path_len) (did_cache v).

(** Whether the folder's identifier, or its listing's index, contradicts an
    entry. *)
Definition contradicted (path : list Z) (path_len d : Z) (folders : option (list listed_folder))
    (p : did_cache_entry) : bool :=
  if negb (d =? 0) && strncmp_eq (dirname p) path path_len && (zlen (dirname p) =? path_len)
  then negb (World.did p =? d)
  else if did_child_of (dirname p) path path_len
  then (negb (d =? 0) && negb (parentdid p =? d))
       || match folders with
          | Some fs => negb (listing_holds_folder fs (entry_name p) (World.did p))
          | None => false
          end
  else false.

Definition check_did_entry (path : list Z) (d : Z) (l : option afp_listing) : M E unit :=
  let path_len := did_path_length path in
  let! folders :=
    match l with
    | None => ret None
    | Some l =>
        if count l >? 0 then
          let! cached := get (has_cached_child path path_len) in
          if cached : bool then index_folders l else ret None
        else ret (Some [])
    end in
  let! taken := get (fun v => rev (filter (fun p => contradicted path path_len d folders p = true) (did_cache v))) in
  modify (fun v => set_did_cache
                     (filter (fun p => contradicted path path_len d folders p = false) (did_cache v)) v) ;;!
  forget_taken taken.

Definition sizeof_did_cache_entry : Z := 48.

Definition add_did_cache_entry (parent new_did : Z) (path name : list Z) : M E Z :=
  let! ok := call (Malloc sizeof_did_cache_entry) in
  if negb ok then ret (-1)
  else
    let! ok := call (Malloc (zlen path + 1)) in
    if negb ok then ret (-1)
    else
      let (r, unix_name) :=
        convert_name_to_unix (conv_heap cf) (path_encoding cf) name AFPC_MAX_NAME_BYTES [] in
      if negb (r =? 0) then ret (-1)
      else
        let! ok := call (Malloc (zlen unix_name + 1)) in
        if negb ok then ret (-1)
        else
          let! now := call Gettimeofday in
          modify (fun v => set_did_cache (DidEntry path new_did parent unix_name now :: did_cache v) v) ;;!
          ret 0.

(** The walk of find_dirid_by_fullname: the identifier, or 0, and the cache. *)
Fixpoint find_walk (now : Z) (path : list Z) (c : list did_cache_entry) (s : did_stats)
    : Z * list did_cache_entry * did_stats :=
  match c with
  | [] => (0, [], s)
  | p :: next =>
      if did_entry_expired p now then
        if list_eqb (dirname p) path then (0, next, count_expired s)
        else find_walk now path next (count_expired s)
      else if list_eqb (dirname p) path then (World.did p, p :: next, count_hit s)
      else let '(d, c', s') := find_walk now path next s in (d, p :: c', s')
  end.

Definition find_dirid_by_fullname (path : list Z) : M E Z :=
  let! now := call Gettimeofday in
  let! r := get (fun v => find_walk now path (did_cache v) (did_cache_stats v)) in
  let '(d, c, s) := r in
  modify (fun v => set_did_stats s (set_did_cache c v)) ;;! ret d.

(** *** The lookup (get_dirid) *)

(** The nearest cached directory above: its identifier and its path's length.
    [parent_did] is the variable's value so far; [None] if [fuel] steps are not
    enough. *)
Fixpoint known_parent_loop (fuel : nat) (known_parent : list Z) (parent_did : Z) : M E (option (Z * Z)) :=
  match fuel with
  | O => ret None
  | S fuel =>
      match strrchr known_parent ch_slash with
      | None => ret (Some (parent_did, 0))
      | Some slash =>
          if slash =? 0 then ret (Some (AFP_ROOT_DID, 1))
          else
            let known_parent := take (Z.to_nat slash) known_parent in
            let! parent_did := find_dirid_by_fullname known_parent in
            if negb (parent_did =? 0) then ret (Some (parent_did, zlen known_parent))
            else known_parent_loop fuel known_parent parent_did
      end
  end.

(** The errno a component's answer means, 0 for a folder. *)
Definition component_errno (rc : Z) (fi : afp_dirent) : Z :=
  let ret := - ll_answer_errno rc in
  let ret := if (ret =? 0) && negb (has (valid fi) kFPNodeIDBit) then - EIO else ret in
  if (ret =? 0) && (isdir fi =? 0) then - ENOTDIR else ret.

(** The walk from a directory: the answer and the last identifier. [None] is
    the end of the fuel. *)
Fixpoint walk_loop (fuel : nat) (path : list Z) (component known_parent_len parent_did : Z)
    : M E (option (Z * Z)) :=
  match fuel with
  | O => ret None
  | S fuel =>
      match strchr path component ch_slash with
      | None => ret (Some (0, parent_did))
      | Some component_end =>
          let name := sub component (component_end - component) path in
          let! ok := call (Malloc (zlen name + 1)) in
          if negb ok then ret (Some (- ENOMEM, parent_did))
          else
            modify (fun v => set_did_stats (count_miss (did_cache_stats v)) v) ;;!
            let! r := call (GetFileDirParms parent_did kFPNodeIDBit kFPNodeIDBit name) in
            let (rc, fi) := r : Z * afp_dirent in
            if ((rc =? kFPDirNotFound) || (rc =? kFPObjectNotFound)) && (known_parent_len >? 1) then
              remove_did_lineage path ;;!
              walk_loop fuel path (walk_start path 1) 1 AFP_ROOT_DID
            else
              let err := component_errno rc fi in
              if negb (err =? 0) then ret (Some (err, parent_did))
              else
                let full_parent := take (Z.to_nat component_end) path in
                let! ok := call (Malloc (zlen full_parent + 1)) in
                if negb ok then ret (Some (- ENOMEM, parent_did))
                else
                  check_did_entry full_parent (cnid fi) None ;;!
                  add_did_cache_entry parent_did (cnid fi) full_parent name ;;!
                  walk_loop fuel path (component_end + 1) known_parent_len (cnid fi)
      end
  end.

(** The answer, the last name when it was stored, and the identifier on
    success. *)
(** get_dirid, [None] if one of its loops were not to end. *)
Definition get_dirid_run (path : list Z) : M E (option (Z * option (list Z) * option Z)) :=
  match strrchr path ch_slash with
  | None => ret (Some (- EINVAL, None, None))
  | Some last_slash =>
      let base := drop (Z.to_nat (last_slash + 1)) path in
      if zlen base >=? AFPC_MAX_NAME_BYTES then ret (Some (- ENAMETOOLONG, None, None))
      else if last_slash =? 0 then ret (Some (0, Some base, Some AFP_ROOT_DID))
      else
        let parent := take (Z.to_nat last_slash) path in
        let! ok := call (Malloc (zlen parent + 1)) in
        if negb ok then ret (Some (- ENOMEM, Some base, None))
        else
          let! newdid := find_dirid_by_fullname parent in
          if negb (newdid =? 0) then ret (Some (0, Some base, Some newdid))
          else
            let! k := known_parent_loop (S (length parent)) parent AFP_ROOT_DID in
            match k with
            | None => ret None
            | Some (parent_did, known_parent_len) =>
                let! r := walk_loop (2 * length path + 2) path (walk_start path known_parent_len)
                            known_parent_len parent_did in
                ret (match r with
                     | Some (0, d) => Some (0, Some base, Some d)
                     | Some (err, _) => Some (err, Some base, None)
                     | None => None
                     end)
            end
  end.

(** Its answer; it has one (get_dirid_terminates in [DidProofs]). *)
Definition get_dirid (path : list Z) : M E (Z * option (list Z) * option Z) :=
  let! r := get_dirid_run path in ret (default (- EIO, None, None) r).

End Did.
