(* ===== verification/DidProofs.v ===== *)
(** The cache of directory identifiers: what its walks forget, the search of a
    listing, and the lookup against a walk without a cache. *)
From stdpp Require Import gmap.
From S2P Require Import Prelude AfpProtocol Utils Codepage ReplyBlock Listing World DidCache.

(** ** Paths as components *)

Definition render (cs : list (list Z)) : list Z := flat_map (fun c => ch_slash :: c) cs.

(** A name between slashes. *)
Definition slash_free (c : list Z) : Prop := Forall (fun b => b <> ch_slash) c.
Definition comp_ok (c : list Z) : Prop := c <> [] /\ slash_free c.

Lemma render_app a b : render (a ++ b) = render a ++ render b.
Proof. apply flat_map_app. Qed.

Lemma render_cons c cs : render (c :: cs) = ch_slash :: c ++ render cs.
Proof. done. Qed.

Lemma slash_free_split c c' r r' :
  slash_free c -> slash_free c' -> (r = [] \/ exists x, r = ch_slash :: x) -> (r' = [] \/ exists x, r' = ch_slash :: x) ->
  c ++ r = c' ++ r' -> c = c' /\ r = r'.
Proof.
  revert c'. induction c as [|a c IH]; intros [|a' c'] Hc Hc' Hr Hr' E; simpl in E.
  - done.
  - destruct Hr as [->|[x ->]]; [done|]. injection E as <- E. inversion Hc'; subst. done.
  - destruct Hr' as [->|[x ->]]; [done|]. injection E as -> E. inversion Hc; subst. done.
  - injection E as <- E. inversion Hc; inversion Hc'; subst. destruct (IH c') as [-> ->]; done.
Qed.

Lemma render_head cs : render cs = [] \/ exists x, render cs = ch_slash :: x.
Proof. destruct cs as [|c cs]; [by left|right; rewrite render_cons; eauto]. Qed.

Lemma render_inj cs cs' : Forall slash_free cs -> Forall slash_free cs' -> render cs = render cs' -> cs = cs'.
Proof.
  revert cs'. induction cs as [|c cs IH]; intros [|c' cs'] H H' E; try done.
  rewrite !render_cons in E. injection E as E. inversion H; inversion H'; subst.
  destruct (slash_free_split c c' (render cs) (render cs')) as [-> E']; auto using render_head.
  f_equal. auto.
Qed.

Lemma comps_slash_free cs : Forall comp_ok cs -> Forall slash_free cs.
Proof. intros H. eapply Forall_impl; [exact H|]. by intros c []. Qed.

(** ** strchr, strrchr *)

Lemma index_of_none c s : Forall (fun b => b <> c) s -> index_of c s = None.
Proof. induction 1 as [|x s Hx _ IH]; simpl; [done|]. rewrite (proj2 (Z.eqb_neq _ _)) by done. by rewrite IH. Qed.

Lemma index_of_app c s r : Forall (fun b => b <> c) s -> index_of c (s ++ c :: r) = Some (zlen s).
Proof.
  induction 1 as [|x s Hx _ IH]; simpl; [by rewrite Z.eqb_refl|].
  rewrite (proj2 (Z.eqb_neq _ _)), IH by done. simpl. rewrite zlen_cons. f_equal. lia.
Qed.

Lemma index_of_some c s i : index_of c s = Some i -> 0 <= i < zlen s.
Proof.
  revert i. induction s as [|x s IH]; intros i; simpl; [done|]. rewrite zlen_cons. pose proof (zlen_nonneg s).
  case_if; [intros [= <-]; lia|]. destruct (index_of c s) as [j|]; [|done]. simpl.
  intros [= <-]. specialize (IH j eq_refl). lia.
Qed.

Lemma strchr_some s off c i : strchr s off c = Some i -> off <= i /\ (0 <= off -> i < zlen s).
Proof.
  unfold strchr. destruct (index_of c _) as [j|] eqn:Ej; [|done]. simpl. intros [= <-].
  apply index_of_some in Ej. rewrite zlen_drop in Ej. lia.
Qed.

Lemma strchr_drop pre s c off : off = zlen pre -> strchr (pre ++ s) off c = Z.add off <$> index_of c s.
Proof. intros ->. unfold strchr. rewrite drop_app_zlen; [done|unfold zlen; lia]. Qed.

(** ** What the walks forget *)

Lemma strip_slashes_rendered s a n : n = S (length s) -> a <> ch_slash -> strip_slashes (s ++ [a]) n = n.
Proof.
  intros -> Ha. destruct s as [|b s]; [done|]. cbn [length strip_slashes].
  rewrite byte_at_app_r by (unfold zlen; simpl length; lia).
  replace (Z.of_nat (S (length s)) - zlen (b :: s)) with 0 by (unfold zlen; simpl length; lia).
  change (byte_at [a] 0) with a. by rewrite (proj2 (Z.eqb_neq _ _)).
Qed.

(** A path of components has no trailing slash. *)
Lemma did_path_length_render cs : Forall comp_ok cs -> cs <> [] -> did_path_length (render cs) = zlen (render cs).
Proof.
  intros Hcs Hne. destruct (exists_last Hne) as (cs' & c & ->).
  apply Forall_app in Hcs as [_ Hc]. inversion Hc as [|? ? [Hc0 Hsf]]; subst.
  destruct (exists_last Hc0) as (c' & a & ->). apply Forall_app in Hsf as [_ Ha]. inversion Ha; subst.
  unfold did_path_length. rewrite render_app, render_cons. change (render []) with (@nil Z).
  rewrite app_nil_r, app_comm_cons, app_assoc.
  rewrite strip_slashes_rendered; [unfold zlen; done| |done]. rewrite length_app. simpl. lia.
Qed.

Lemma strncmp_eq_spec l k n : strncmp_eq l k n = true <-> take (Z.to_nat n) l = take (Z.to_nat n) k.
Proof. apply list_eqb_eq. Qed.

Lemma take_min_prefix {A} (l k : list A) :
  take (Nat.min (length l) (length k)) l = take (Nat.min (length l) (length k)) k <-> l `prefix_of` k \/ k `prefix_of` l.
Proof.
  split.
  - intros H. destruct (le_lt_dec (length l) (length k)).
    + left. rewrite Nat.min_l in H by lia. rewrite take_ge in H by lia. rewrite H. apply prefix_take.
    + right. rewrite Nat.min_r in H by lia. rewrite (take_ge k) in H by lia. rewrite <- H. apply prefix_take.
  - intros [[x ->]|[x ->]]; rewrite length_app.
    + rewrite Nat.min_l by lia. by rewrite take_app_le, take_ge by lia.
    + rewrite Nat.min_r by lia. by rewrite take_app_le, (take_ge k) by lia.
Qed.

(** A rendered path continues another at a component. *)
Lemma render_prefix cs ps x :
  Forall slash_free cs -> Forall slash_free ps -> (x = [] \/ exists y, x = ch_slash :: y) ->
  render ps = render cs ++ x -> cs `prefix_of` ps.
Proof.
  revert ps. induction cs as [|c cs IH]; intros ps Hcs Hps Hx E; [apply prefix_nil|].
  destruct ps as [|p ps]; [done|]. rewrite !render_cons in E. injection E as E. rewrite <- app_assoc in E.
  inversion Hcs; inversion Hps; subst.
  destruct (slash_free_split p c (render ps) (render cs ++ x)) as [-> E']; auto using render_head.
  { destruct (render_head cs) as [->|[y ->]]; [done|right; by exists (y ++ x)]. }
  apply prefix_cons. by apply IH.
Qed.

Lemma prefix_render cs ps : cs `prefix_of` ps -> exists x, render ps = render cs ++ x /\ (x = [] \/ exists y, x = ch_slash :: y).
Proof. intros [x ->]. exists (render x). split; [apply render_app|apply render_head]. Qed.

Lemma byte_at_cons x l : byte_at (x :: l) 0 = x.
Proof. done. Qed.

Lemma byte_at_end (a x : list Z) : byte_at (a ++ x) (zlen a) = byte_at x 0.
Proof. rewrite byte_at_app_r by lia. f_equal. lia. Qed.

(** On components, the walk of a path matches the path, what is beneath it
    and, when asked, what is above it. *)
Lemma on_line_spec ps cs ancestors :
  Forall comp_ok ps -> Forall comp_ok cs -> ps <> [] -> cs <> [] ->
  on_line (render ps) (render cs) ancestors = true
  <-> ps `prefix_of` cs \/ (ancestors = true /\ cs `prefix_of` ps).
Proof.
  intros Hps Hcs Hp0 Hc0. unfold on_line. rewrite did_path_length_render by done.
  assert (Hsf := comps_slash_free _ Hps). assert (Hsf' := comps_slash_free _ Hcs).
  assert (Hlen : (zlen (render ps) =? 1) = false).
  { destruct ps as [|p ps]; [done|]. inversion Hps as [|? ? [Hp _]]; subst. destruct p as [|a p]; [done|].
    apply Z.eqb_neq. rewrite render_cons, zlen_cons. simpl. rewrite zlen_cons. pose proof (zlen_nonneg (p ++ render ps)). lia. }
  unfold did_separator. rewrite Hlen.
  rewrite andb_true_iff, strncmp_eq_spec.
  replace (Z.to_nat (Z.min (zlen (render cs)) (zlen (render ps))))
    with (Nat.min (length (render cs)) (length (render ps))) by (unfold zlen; lia).
  rewrite take_min_prefix, !orb_true_iff, !andb_true_iff, Z.eqb_eq, Z.gtb_lt, Z.ltb_lt, !Z.eqb_eq.
  split.
  - intros [Hpre Hcase].
    assert (Hx : (exists x, render cs = render ps ++ x) \/ (exists x, render ps = render cs ++ x)).
    { destruct Hpre as [[x ?]|[x ?]]; eauto. }
    destruct Hcase as [[Hl|[Hl Hb]]|[[Ha Hl] Hb]].
    + left. apply (render_prefix ps cs []); auto. rewrite app_nil_r.
      destruct Hx as [[x E]|[x E]]; assert (x = []) as -> by (apply zlen_0_inv; rewrite E, zlen_app in Hl; lia);
        by rewrite app_nil_r in E.
    + destruct Hx as [[x E]|[x E]]; [|rewrite E, zlen_app in Hl; pose proof (zlen_nonneg x); lia].
      left. apply (render_prefix ps cs x); auto. right. rewrite E, byte_at_end in Hb.
      destruct x as [|b x]; [done|]. rewrite byte_at_cons in Hb. subst b. eauto.
    + destruct Hx as [[x E]|[x E]]; [rewrite E, zlen_app in Hl; pose proof (zlen_nonneg x); lia|].
      right. split; [done|]. apply (render_prefix cs ps x); auto. right. rewrite E, byte_at_end in Hb.
      destruct x as [|b x]; [done|]. rewrite byte_at_cons in Hb. subst b. eauto.
  - intros [Hpre|[Ha Hpre]]; apply prefix_render in Hpre as (x & E & Hx).
    + split; [right; by exists x|]. left. rewrite E, byte_at_end, zlen_app.
      destruct Hx as [->|[y ->]]; [left; rewrite zlen_nil; lia|right].
      rewrite zlen_cons. pose proof (zlen_nonneg y). split; [lia|done].
    + split; [left; by exists x|]. rewrite E, byte_at_end, zlen_app.
      destruct Hx as [->|[y ->]]; [left; left; rewrite zlen_nil; lia|right].
      rewrite zlen_cons. pose proof (zlen_nonneg y). split; [split; [done|lia]|done].
Qed.

Lemma forget_walk_filter path ancestors now c s :
  fst (forget_walk path ancestors now c s)
  = filter (fun p => did_entry_expired p now || on_line path (dirname p) ancestors = false) c.
Proof.
  revert s. induction c as [|p c IH]; intros s; [done|]. cbn [forget_walk]. rewrite filter_cons.
  destruct (did_entry_expired p now || on_line path (dirname p) ancestors) eqn:Em.
  - rewrite IH. by rewrite decide_False.
  - rewrite decide_True by done. specialize (IH s). destruct (forget_walk _ _ _ _ _). simpl in *. by f_equal.
Qed.

(** Every entry's path is one of components. *)
Definition path_of (p : did_cache_entry) (cs : list (list Z)) : Prop :=
  cs <> [] /\ Forall comp_ok cs /\ dirname p = render cs.

Lemma path_of_unique p cs cs' : path_of p cs -> path_of p cs' -> cs = cs'.
Proof. intros (_ & H & E) (_ & H' & E'). apply render_inj; auto using comps_slash_free. congruence. Qed.

(** Forgetting a folder's identifiers. remove_did_subtree leaves exactly the
    entries that are neither past their time nor the folder's or of a folder
    beneath it; remove_did_lineage leaves in addition no entry of a folder
    above it. "Beneath" goes by whole components, so a folder whose name
    merely begins like another's stays, and the entries left keep their
    order. *)
Theorem forget_did_paths_spec {E} `{Env E} ps ancestors (w : volume * E) :
  Forall comp_ok ps -> ps <> [] -> Forall (fun p => exists cs, path_of p cs) (did_cache (fst w)) ->
  let now := fst (handle Gettimeofday (snd w)) in
  let c := did_cache (fst w) in
  let c' := did_cache (fst (snd (forget_did_paths (render ps) ancestors w))) in
  sublist c' c
  /\ forall p, p ∈ c' <-> p ∈ c /\ did_entry_expired p now = false
       /\ forall cs, path_of p cs -> ~ ps `prefix_of` cs /\ (ancestors = true -> ~ cs `prefix_of` ps).
Proof.
  intros Hps Hp0 Hc now c c'.
  assert (Ec' : c' = filter (fun p => did_entry_expired p now || on_line (render ps) (dirname p) ancestors = false) c).
  { unfold c', forget_did_paths, bind, call, modify, forget_locked, now. destruct (handle Gettimeofday (snd w)) as [t e].
    simpl. rewrite <- (forget_walk_filter _ _ _ _ (did_cache_stats (fst w))).
    by destruct (forget_walk _ _ _ _ _). }
  rewrite Ec'. split; [apply sublist_filter|]. intros p. rewrite list_elem_of_filter, orb_false_iff.
  rewrite Forall_forall in Hc. split.
  - intros [[He Hl] Hp]. split; [done|]. split; [done|]. intros cs (Hc0 & Hcs & Ep).
    rewrite Ep in Hl. apply not_true_iff_false in Hl. rewrite on_line_spec in Hl by done. tauto.
  - intros (Hp & He & Hl). split; [|done]. split; [done|]. destruct (Hc p Hp) as [cs Hpc].
    destruct (Hl cs Hpc) as [H1 H2]. destruct Hpc as (Hc0 & Hcs & Ep). rewrite Ep.
    apply not_true_iff_false. rewrite on_line_spec by done. tauto.
Qed.

(** ** The search of a listing *)

Lemma strcmp_eq a b : strcmp a b = Eq <-> a = b.
Proof.
  revert b. induction a as [|x a IH]; intros [|y b]; simpl; try (split; congruence).
  destruct (Z.compare_spec x y) as [->|Hl|Hl].
  - rewrite IH. split; [by intros ->|by intros [= ->]].
  - split; [done|]. intros [= -> _]. lia.
  - split; [done|]. intros [= -> _]. lia.
Qed.

Lemma strcmp_antisym a b : strcmp b a = CompOpp (strcmp a b).
Proof.
  revert b. induction a as [|x a IH]; intros [|y b]; simpl; try done.
  rewrite (Z.compare_antisym x y). destruct (x ?= y) eqn:Ex; simpl; auto.
Qed.

Lemma strcmp_trans a b c : strcmp a b = Lt -> strcmp b c = Lt -> strcmp a c = Lt.
Proof.
  revert b c. induction a as [|x a IH]; intros [|y b] [|z c]; simpl; try done.
  destruct (Z.compare_spec x y) as [->|?|?]; destruct (Z.compare_spec y z) as [->|?|?]; try done; intros H1 H2.
  all: first [by eapply IH; eauto | by rewrite (proj2 (Z.compare_lt_iff _ _)) by lia].
Qed.

(** Names in strictly ascending order. *)
Definition ascending (l : list listed_folder) : Prop :=
  forall i j f g, l !! i = Some f -> l !! j = Some g -> (i < j)%nat -> strcmp (lf_name f) (lf_name g) = Lt.

Lemma folder_insert_perm f l : folder_insert f l ≡ₚ f :: l.
Proof.
  induction l as [|g l IH]; [done|]. simpl. destruct (listed_folder_cmp f g); try done.
  rewrite IH. constructor.
Qed.

Lemma folder_sort_perm l : folder_sort l ≡ₚ l.
Proof. induction l as [|f l IH]; [done|]. simpl. by rewrite folder_insert_perm, IH. Qed.

Lemma ascending_cons f l :
  ascending l -> (forall g, g ∈ l -> strcmp (lf_name f) (lf_name g) = Lt) -> ascending (f :: l).
Proof.
  intros Hl Hf [|i] [|j] a b Ha Hb Hij; simpl in *; try lia.
  - injection Ha as <-. apply Hf. eapply list_elem_of_lookup_2; eauto.
  - eapply Hl; eauto. lia.
Qed.

Lemma ascending_tail f l : ascending (f :: l) -> ascending l.
Proof. intros H i j a b Ha Hb Hij. apply (H (S i) (S j) a b); auto. lia. Qed.

Lemma ascending_head f l g : ascending (f :: l) -> g ∈ l -> strcmp (lf_name f) (lf_name g) = Lt.
Proof. intros H [i Hi]%list_elem_of_lookup. apply (H 0%nat (S i)); auto. lia. Qed.

Lemma folder_insert_ascending f l :
  ascending l -> (forall g, g ∈ l -> lf_name g <> lf_name f) -> ascending (folder_insert f l).
Proof.
  induction l as [|g l IH]; intros Hl Hne; simpl.
  - apply ascending_cons; [intros [|] ? ? ? Ha|set_solver]; done.
  - unfold listed_folder_cmp. destruct (strcmp (lf_name f) (lf_name g)) eqn:Ec.
    + apply strcmp_eq in Ec. exfalso. apply (Hne g); [set_solver|done].
    + apply ascending_cons; [done|]. intros h [->|Hh]%elem_of_cons; [done|].
      eapply strcmp_trans; [exact Ec|]. by apply (ascending_head g l).
    + apply ascending_cons.
      * apply IH; [by eapply ascending_tail|]. intros h Hh. apply Hne. by right.
      * intros h Hh. rewrite folder_insert_perm in Hh. apply elem_of_cons in Hh as [->|Hh].
        -- rewrite strcmp_antisym, Ec. done.
        -- by apply (ascending_head g l).
Qed.

Lemma folder_sort_ascending l : NoDup (map lf_name l) -> ascending (folder_sort l).
Proof.
  induction l as [|f l IH]; simpl; [intros _ [|] ? ? ? Ha; done|]. intros H. inversion H as [|? ? Hf Hl]; subst.
  apply folder_insert_ascending; [auto|]. intros g Hg Heq. rewrite folder_sort_perm in Hg.
  apply Hf. rewrite <- Heq. by apply list_elem_of_fmap_2.
Qed.

(** The loop finds the key's name between its bounds, if it is there. *)
Lemma bsearch_loop_spec key fs : ascending fs -> forall fuel l u, (u - l < fuel)%nat -> (u <= length fs)%nat ->
  (forall i f, fs !! i = Some f -> lf_name f = lf_name key -> (l <= i < u)%nat) ->
  match bsearch_loop fuel key fs l u with
  | Some f => f ∈ fs /\ lf_name f = lf_name key
  | None => forall f, f ∈ fs -> lf_name f <> lf_name key
  end.
Proof.
  intros Hasc. induction fuel as [|fuel IH]; intros l u Hf Hu Hin; [lia|]. cbn [bsearch_loop].
  destruct (l <? u)%nat eqn:Elu.
  - apply Nat.ltb_lt in Elu. set (idx := Nat.div2 (l + u)).
    assert (Hidx : (l <= idx < u)%nat) by (unfold idx; rewrite Nat.div2_div; split;
      [apply Nat.div_le_lower_bound; lia|apply Nat.Div0.div_lt_upper_bound; lia]).
    destruct (fs !! idx) as [f|] eqn:Ei; [|apply lookup_ge_None in Ei; lia].
    unfold listed_folder_cmp. destruct (strcmp (lf_name key) (lf_name f)) eqn:Ec.
    + apply strcmp_eq in Ec. split; [|done]. eapply list_elem_of_lookup_2; eauto.
    + apply IH; [lia|lia|]. intros i g Hg En. specialize (Hin i g Hg En). split; [lia|].
      destruct (Nat.lt_ge_cases i idx); [done|]. exfalso. rewrite <- En in Ec.
      destruct (decide (i = idx)) as [->|]; [rewrite Ei in Hg; injection Hg as ->; rewrite (proj2 (strcmp_eq _ _) eq_refl) in Ec; done|].
      pose proof (Hasc idx i f g Ei Hg ltac:(lia)) as Hlt. rewrite strcmp_antisym, Hlt in Ec. done.
    + apply IH; [lia|lia|]. intros i g Hg En. specialize (Hin i g Hg En). split; [|lia].
      destruct (Nat.lt_ge_cases idx i); [lia|]. exfalso. rewrite <- En in Ec.
      destruct (decide (i = idx)) as [->|]; [rewrite Ei in Hg; injection Hg as ->; rewrite (proj2 (strcmp_eq _ _) eq_refl) in Ec; done|].
      pose proof (Hasc i idx g f Hg Ei ltac:(lia)) as Hlt. rewrite Hlt in Ec. done.
  - apply Nat.ltb_ge in Elu. intros f [i Hi]%list_elem_of_lookup En. specialize (Hin i f Hi En). lia.
Qed.

(** The search of a listing's index. For a listing whose folders have
    distinct names, the binary search over the sorted index says that a
    folder of a name and an identifier is listed exactly when it is. *)
Theorem listing_holds_folder_spec l name d :
  NoDup (map lf_name (folders_of l)) ->
  listing_holds_folder (folder_sort (folders_of l)) name d = true <-> Folder name d ∈ folders_of l.
Proof.
  intros Hnd. pose proof (folder_sort_ascending _ Hnd) as Hasc. pose proof (folder_sort_perm (folders_of l)) as Hp.
  set (fs := folder_sort (folders_of l)) in *. set (src := folders_of l) in *.
  assert (Hs := bsearch_loop_spec (Folder name 0) fs Hasc (S (length fs)) 0 (length fs) ltac:(lia) ltac:(lia)).
  unfold listing_holds_folder, bsearch.
  assert (Hin : forall f, f ∈ fs <-> f ∈ src) by (intros f; by rewrite Hp).
  destruct fs as [|f0 fs0]; [rewrite <- Hin; split; [done|set_solver]|].
  destruct (bsearch_loop _ _ _ _ _) as [f|].
  - destruct Hs as [Hf En]; [intros i g Hi _; split; [lia|by eapply lookup_lt_Some]|].
    simpl in En. apply Hin in Hf. destruct f as [n c]; simpl in *; subst n. rewrite Z.eqb_eq.
    split; [by intros ->|]. intros Hd.
    apply list_elem_of_lookup in Hf as [i Hi]. apply list_elem_of_lookup in Hd as [j Hj].
    assert (i = j) as ->.
    { eapply (NoDup_lookup (map lf_name src)); [exact Hnd| |].
      - by rewrite list_lookup_fmap, Hi.
      - by rewrite list_lookup_fmap, Hj. }
    congruence.
  - split; [done|]. intros Hd%Hin. exfalso. eapply Hs; [|exact Hd|done].
    intros i g Hi _. split; [lia|by eapply lookup_lt_Some].
Qed.

(** *** Witnesses *)

#[local] Instance clock_env : Env unit := fun A c e => (no_answer c, e).

Theorem forget_did_paths_spec_witness :
  let ab := DidEntry (render [[97; 98]]) 7 2 [97; 98] 0 in
  let a := DidEntry (render [[97]]) 8 2 [97] 0 in
  let c' := did_cache (fst (snd (forget_did_paths (render [[97]]) false (set_did_cache [ab; a] empty_volume, tt)))) in
  ab ∈ c' /\ ~ a ∈ c'.
Proof.
  destruct (forget_did_paths_spec [[97]] false
    (set_did_cache [DidEntry (render [[97; 98]]) 7 2 [97; 98] 0; DidEntry (render [[97]]) 8 2 [97] 0] empty_volume, tt))
    as [_ H].
  - repeat constructor; done.
  - done.
  - repeat constructor; [exists [[97; 98]]|exists [[97]]]; (split; [done|split; [repeat constructor; done|done]]).
  - cbv zeta. split; rewrite H; cbn [fst did_cache set_did_cache].
    + split; [by left|]. split; [done|]. intros cs Hcs.
      assert (cs = [[97; 98]]) as -> by (eapply path_of_unique; [exact Hcs|split; [done|split; [repeat constructor; done|done]]]).
      split; [|done]. intros [x Hx]. discriminate Hx.
    + intros (_ & _ & Hno). destruct (Hno [[97]]) as [Hn _]; [split; [done|split; [repeat constructor; done|done]]|].
      by apply Hn.
Defined.

Theorem listing_holds_folder_spec_witness :
  let l := Listing [set_name_off 2 (set_cnid kFPNodeIDBit 9 (empty_dirent 128)); set_cnid kFPNodeIDBit 5 (empty_dirent 128)]
             2 64 [98; 0; 97; 0] 4 8 in
  listing_holds_folder (folder_sort (folders_of l)) [97] 9 = true.
Proof.
  apply listing_holds_folder_spec; [|by left].
  repeat constructor; vm_compute; intros Hin; inversion Hin as [|? ? ? Hin']; subst; inversion Hin'.
Defined.

(** The lookup of a path's parent (get_dirid) against a walk from the root that
    knows no cache, and its termination. *)

(** ** Termination *)

Section Termination.
Context {E : Type} `{Env E} (cf : config).

(** Steps the walk has left: one per component, and one more walk while it
    stands on a cached directory. *)
Definition steps_left (path : list Z) (component known : Z) : Z :=
  Z.max 0 (zlen path - component) + (if known >? 1 then zlen path + 1 else 0).

Lemma walk_start_range path n : 0 <= n -> n <= walk_start path n <= n + 1.
Proof. intros. unfold walk_start. case_if; lia. Qed.

Lemma walk_loop_ends fuel path component known d w :
  0 <= component -> steps_left path component known < Z.of_nat fuel ->
  fst (walk_loop cf fuel path component known d w) <> None.
Proof.
  revert component known d w. induction fuel as [|fuel IH]; intros component known d w Hc Hf.
  { unfold steps_left in Hf. pose proof (zlen_nonneg path). case_if; lia. }
  cbn [walk_loop]. destruct (strchr path component ch_slash) as [ce|] eqn:Ece; [|done].
  apply strchr_some in Ece as [Hce1 Hce2]. specialize (Hce2 Hc).
  unfold bind at 1. destruct (call (Malloc _) w) as [[|] w1]; cbn [negb]; [|done].
  unfold bind at 1, modify. unfold bind at 1. destruct (call (GetFileDirParms _ _ _ _) _) as [[rc fi] w2].
  pose proof (zlen_nonneg path).
  destruct (((rc =? kFPDirNotFound) || (rc =? kFPObjectNotFound)) && (known >? 1)) eqn:Er.
  - apply andb_prop in Er as [_ Ek]. unfold bind at 1. destruct (remove_did_lineage path w2) as [[] w3].
    pose proof (walk_start_range path 1 ltac:(lia)).
    apply IH; [lia|]. unfold steps_left in *. rewrite Ek in Hf. change (1 >? 1) with false. cbn iota. lia.
  - destruct (negb _); [done|]. unfold bind at 1. destruct (call (Malloc _) w2) as [[|] w3]; cbn [negb]; [|done].
    unfold bind at 1. destruct (check_did_entry _ _ _ w3) as [[] w4].
    unfold bind at 1. destruct (add_did_cache_entry _ _ _ _ _ w4) as [r w5].
    apply IH; [lia|]. unfold steps_left in *. case_if; lia.
Qed.

End Termination.

(** The nearest cached directory is found or ruled out in a step for each byte
    of the path and one more. *)
Lemma known_parent_ends {E} `{Env E} fuel path d (w : volume * E) : (length path < fuel)%nat ->
  exists d' known, fst (known_parent_loop fuel path d w) = Some (d', known) /\ 0 <= known.
Proof.
  revert path d w. induction fuel as [|fuel IH]; intros path d w Hf; [lia|]. cbn [known_parent_loop].
  destruct (strrchr path ch_slash) as [slash|] eqn:Es; [|by exists d, 0].
  destruct (slash =? 0) eqn:Ez; [by exists AFP_ROOT_DID, 1|]. bool_to_prop.
  unfold bind at 1. destruct (find_dirid_by_fullname _ w) as [d' w']. destruct (negb (d' =? 0)).
  - exists d', (zlen (take (Z.to_nat slash) path)). split; [done|apply zlen_nonneg].
  - apply IH. rewrite length_take. apply strrchr_range in Es. unfold zlen in *. lia.
Qed.

(** C27: the lookup of a path ends. Whatever the cache holds and whatever the
    server answers, neither the search for the nearest cached directory, in a
    step for each byte of the parent's path and one more, nor the walk over the
    components, started again from the root once when a cached directory turns
    out gone, in two steps for each byte of the path and two more, exhausts its
    steps: get_dirid has an answer. *)
Theorem get_dirid_terminates {E} `{Env E} cf path (w : volume * E) :
  exists answer w', get_dirid_run cf path w = (Some answer, w') /\ get_dirid cf path w = (answer, w').
Proof.
  cut (fst (get_dirid_run cf path w) <> None).
  { intros Hn. unfold get_dirid, bind. destruct (get_dirid_run cf path w) as [[a|] w']; [by exists a, w'|done]. }
  unfold get_dirid_run. destruct (strrchr path ch_slash) as [slash|]; [|done].
  destruct (_ >=? _); [done|]. destruct (slash =? 0); [done|].
  unfold bind at 1. destruct (call (Malloc _) w) as [[|] w1]; cbn [negb]; [|done].
  unfold bind at 1. destruct (find_dirid_by_fullname _ w1) as [nd w2]. destruct (negb _); [done|].
  unfold bind at 1. set (parent := take _ path).
  destruct (known_parent_ends (S (length parent)) parent AFP_ROOT_DID w2 ltac:(lia)) as (d & known & Ek & Hk).
  destruct (known_parent_loop _ _ _ w2) as [k w3]. cbn [fst] in Ek. subst k.
  unfold bind at 1. pose proof (walk_start_range path known Hk).
  pose proof (walk_loop_ends cf (2 * length path + 2) path (walk_start path known) known d w3 ltac:(lia)) as Hend.
  destruct (walk_loop cf _ _ _ _ _ w3) as [r w4]. cbn [ret fst] in Hend |- *.
  destruct r as [[[| |] d']|]; try done. intros _. apply Hend; [unfold steps_left; case_if; unfold zlen; lia|done].
Qed.

(** ** Correctness *)

(** The walk without a cache. *)
Fixpoint walk (child : Z -> list Z -> Z * afp_dirent) (d : Z) (cs : list (list Z)) : res Z :=
  match cs with
  | [] => Ok d
  | c :: r =>
      let (rc, fi) := child d c in
      let e := component_errno rc fi in
      if e =? 0 then walk child (cnid fi) r else Err e
  end.

Lemma walk_app child d a b :
  walk child d (a ++ b) = match walk child d a with Ok d' => walk child d' b | Err e => Err e end.
Proof.
  revert d. induction a as [|c a IH]; intros d; [done|]. simpl. destruct (child d c) as [rc fi]. case_if; auto.
Qed.

(** A server that stands still: each request it answers leaves what it
    answers about folders as it was. *)
Class Still (E : Type) `{Env E} (view : E -> Z -> list Z -> Z * afp_dirent) : Prop := {
  still_view : forall A (c : cmd A) e d n, changes c = false -> view (snd (handle c e)) d n = view e d n;
  still_answer : forall e d f b n, fst (handle (GetFileDirParms d f b n) e) = view e d n }.

Section Correct.
Context {E : Type} {HE : Env E} (cf : config) (view : E -> Z -> list Z -> Z * afp_dirent) {St : Still E view}.
Context (child : Z -> list Z -> Z * afp_dirent).

(** A folder that is gone: the server finds nothing in it. *)
Definition gone (d : Z) : Prop :=
  forall n, fst (child d n) = kFPDirNotFound \/ fst (child d n) = kFPObjectNotFound.

Definition right (cs : list (list Z)) (d : Z) : Prop := walk child AFP_ROOT_DID cs = Ok d.

(** An entry is right, or of a folder that is gone; that of [parent] is right. *)
Definition entry_ok (parent : list (list Z)) (p : did_cache_entry) : Prop :=
  exists cs, path_of p cs /\ (right cs (World.did p) \/ gone (World.did p) /\ cs <> parent).

Definition inv (parent : list (list Z)) (w : volume * E) : Prop :=
  (forall d n, view (snd w) d n = child d n) /\ Forall (entry_ok parent) (did_cache (fst w)).

Lemma inv_call parent A (c : cmd A) : changes c = false -> keeps (inv parent) (call c).
Proof.
  intros Hc w [Hv Hp]. unfold call. pose proof (fun d n => still_view A c (snd w) d n Hc) as Hs.
  destruct (handle c (snd w)) as [a e]. split; [|done]. simpl in *. intros d n. by rewrite Hs.
Qed.

Lemma inv_modify parent f :
  (forall v, sublist (did_cache (f v)) (did_cache v)) -> keeps (inv parent) (modify f).
Proof.
  intros Hf w [Hv Hp]. split; [done|]. simpl. specialize (Hf (fst w)). rewrite Forall_forall in *.
  intros p Hin. apply Hp. by eapply elem_of_sublist.
Qed.

Lemma forget_locked_sublist path anc now v : sublist (did_cache (forget_locked path anc now v)) (did_cache v).
Proof.
  unfold forget_locked. pose proof (forget_walk_filter path anc now (did_cache v) (did_cache_stats v)) as Hf.
  destruct (forget_walk _ _ _ _ _) as [c s]. simpl in *. rewrite Hf. apply sublist_filter.
Qed.

Lemma forget_taken_sublist taken now v : sublist (did_cache (forget_taken_walk taken now v)) (did_cache v).
Proof.
  revert v. induction taken as [|p taken IH]; intros v; [done|]. cbn [forget_taken_walk].
  etransitivity; [apply IH|]. simpl. apply forget_locked_sublist.
Qed.

Lemma inv_lineage parent path : keeps (inv parent) (remove_did_lineage path).
Proof.
  apply keeps_bind; [by apply inv_call|]. intros now. apply inv_modify. intros v. apply forget_locked_sublist.
Qed.

Lemma inv_check parent path d : keeps (inv parent) (check_did_entry path d None).
Proof.
  unfold check_did_entry. apply keeps_bind; [apply keeps_ret|]. intros fs.
  apply keeps_bind; [apply keeps_get|]. intros taken.
  apply keeps_bind; [apply inv_modify; intros v; apply sublist_filter|]. intros _.
  unfold forget_taken. destruct taken; [apply keeps_ret|].
  apply keeps_bind; [by apply inv_call|]. intros now. apply inv_modify. intros v. apply forget_taken_sublist.
Qed.

Lemma inv_add parent par d cs path name :
  right cs d -> cs <> [] -> Forall comp_ok cs -> path = render cs ->
  keeps (inv parent) (add_did_cache_entry cf par d path name).
Proof.
  intros Hr H0 Hcs ->. unfold add_did_cache_entry.
  repeat first [ apply keeps_bind; [by apply inv_call|intros]
               | apply keeps_if; [apply keeps_ret|]
               | match goal with |- keeps _ (let (_, _) := ?x in _) => destruct x end ].
  apply keeps_bind; [|intros; apply keeps_ret]. intros w [Hv Hp]. split; [done|]. simpl. constructor; [|done].
  exists cs. split; [split; [done|split; done]|by left].
Qed.

Lemma find_walk_spec now path c s :
  let '(d, c', s') := find_walk now path c s in
  sublist c' c /\ (d = 0 \/ exists p, p ∈ c /\ dirname p = path /\ World.did p = d).
Proof.
  revert s. induction c as [|p c IH]; intros s; cbn [find_walk]; [split; [done|by left]|].
  destruct (did_entry_expired p now).
  - destruct (list_eqb (dirname p) path); [split; [by apply sublist_cons|by left]|].
    specialize (IH (count_expired s)). destruct (find_walk _ _ _ _) as [[d c'] s'].
    destruct IH as [Hs [->|(q & Hq & H')]]; (split; [by apply sublist_cons|]); [by left|].
    right. exists q. split; [by right|done].
  - destruct (list_eqb (dirname p) path) eqn:Ep.
    + split; [done|]. right. exists p. apply list_eqb_eq in Ep. split; [by left|done].
    + specialize (IH s). destruct (find_walk _ _ _ _) as [[d c'] s'].
      destruct IH as [Hs [->|(q & Hq & H')]]; (split; [by apply sublist_skip|]); [by left|].
      right. exists q. split; [by right|done].
Qed.

(** What the cache answers for a path of components. *)
Lemma find_spec parent cs w :
  inv parent w -> Forall comp_ok cs ->
  let '(d, w') := find_dirid_by_fullname (render cs) w in
  inv parent w' /\ (d = 0 \/ right cs d \/ gone d /\ cs <> parent).
Proof.
  intros Hw Hcs. unfold find_dirid_by_fullname, bind, get, modify.
  pose proof (inv_call parent _ Gettimeofday eq_refl w Hw) as Hw1.
  destruct (call Gettimeofday w) as [now w1]. simpl in Hw1.
  pose proof (find_walk_spec now (render cs) (did_cache (fst w1)) (did_cache_stats (fst w1))) as Hf.
  destruct (find_walk _ _ _ _) as [[d c] s]. destruct Hw1 as [Hv Hp], Hf as [Hs Hd]. rewrite Forall_forall in Hp.
  split.
  - split; [done|]. simpl. apply Forall_forall. intros p Hin. apply Hp. by eapply elem_of_sublist.
  - destruct Hd as [->|(p & Hin & En & <-)]; [by left|]. right.
    destruct (Hp p Hin) as (cs' & (_ & Hcs' & Ed) & Hr).
    assert (cs' = cs) as -> by (apply render_inj; auto using comps_slash_free; congruence). done.
Qed.

(** *** The nearest cached directory *)

(** What the walk starts from: the components done, right or gone. *)
Definition start_ok (done : list (list Z)) (d known : Z) : Prop :=
  (right done d \/ gone d /\ done <> []) /\ known = (if decide (done = []) then 1 else zlen (render done)).

Lemma known_parent_spec parent cs fuel d w :
  inv parent w -> Forall comp_ok cs -> (length cs < fuel)%nat -> cs <> [] ->
  let (k, w') := known_parent_loop fuel (render cs) d w in
  inv parent w' /\ exists d' known front back, k = Some (d', known) /\ cs = front ++ back /\ back <> [] /\ start_ok front d' known.
Proof.
  revert cs d w. induction fuel as [|fuel IH]; intros cs d w Hw Hcs Hf H0; [lia|].
  destruct (exists_last H0) as (front & c & ->). apply Forall_app in Hcs as [Hfr Hc].
  inversion Hc as [|? ? [Hc0 Hsf]]; subst. cbn [known_parent_loop].
  rewrite render_app, render_cons. change (render []) with (@nil Z). rewrite app_nil_r.
  rewrite strrchr_app by done.
  destruct (zlen (render front) =? 0) eqn:Ez.
  - apply Z.eqb_eq, zlen_0_inv in Ez. destruct front as [|c0 front]; [|done].
    split; [done|]. exists AFP_ROOT_DID, 1, [], [c]. split; [done|]. split; [done|]. split; [done|]. split; [by left|done].
  - replace (take (Z.to_nat (zlen (render front))) (render front ++ ch_slash :: c)) with (render front)
      by (symmetry; apply take_app_zlen; unfold zlen; lia).
    assert (Hfr0 : front <> []) by (intros ->; done).
    unfold bind at 1. pose proof (find_spec parent front w Hw Hfr) as Hfind.
    destruct (find_dirid_by_fullname (render front) w) as [d' w']. destruct Hfind as [Hw' Hd'].
    destruct (d' =? 0) eqn:Ed; cbn [negb].
    + specialize (IH front d' w' Hw' Hfr). rewrite length_app in Hf. simpl in Hf.
      specialize (IH ltac:(lia) Hfr0).
      destruct (known_parent_loop fuel (render front) d' w') as [k w''].
      destruct IH as (Hw'' & d'' & k' & f' & b & -> & -> & Hb & Hst). split; [done|]. exists d'', k', f', (b ++ [c]).
      rewrite app_assoc. split; [done|]. split; [done|]. split; [by destruct b|done].
    + bool_to_prop. split; [done|]. exists d', (zlen (render front)), front, [c]. split; [done|]. split; [done|]. split; [done|].
      split; [destruct Hd' as [?|[?|[? ?]]]; [done|by left|by right]|]. by rewrite decide_False.
Qed.


(** *** The walk *)

Section Walk.
Context (cs : list (list Z)) (base : list Z) (Hcs : Forall comp_ok cs) (Hbase : slash_free base).

Abbreviation path := (render (cs ++ [base])).

Lemma path_split front c back :
  cs = front ++ c :: back ->
  path = (render front ++ [ch_slash]) ++ c ++ ch_slash :: drop 1 (render (back ++ [base])).
Proof.
  intros ->. rewrite <- (app_assoc front), render_app, <- (app_assoc (render front)). f_equal.
  change (render ((c :: back) ++ [base])) with (ch_slash :: c ++ render (back ++ [base])). simpl. do 2 f_equal.
  by destruct back.
Qed.

Lemma comp_in front c back : cs = front ++ c :: back -> comp_ok c /\ Forall comp_ok (front ++ [c]).
Proof.
  intros Ecs. pose proof Hcs as H. rewrite Ecs, Forall_app in H. destruct H as [H1 H2]. inversion H2; subst.
  split; [done|]. apply Forall_app. split; [done|by constructor].
Qed.

Lemma next_slash front back :
  cs = front ++ back ->
  strchr path (zlen (render front) + 1) ch_slash
  = match back with [] => None | c :: _ => Some (zlen (render front) + 1 + zlen c) end.
Proof.
  intros Ecs. destruct back as [|c back].
  - rewrite app_nil_r in Ecs. subst front. rewrite render_app, render_cons. change (render []) with (@nil Z).
    rewrite app_nil_r. change (ch_slash :: base) with ([ch_slash] ++ base). rewrite app_assoc.
    rewrite strchr_drop by (rewrite zlen_app; done). by rewrite index_of_none.
  - rewrite (path_split _ _ _ Ecs), strchr_drop by (rewrite zlen_app; done).
    destruct (comp_in _ _ _ Ecs) as [[_ Hsf] _]. rewrite index_of_app by done. done.
Qed.

Lemma next_name front c back :
  cs = front ++ c :: back -> sub (zlen (render front) + 1) (zlen c) path = c.
Proof.
  intros Ecs. assert (Hl : zlen (render front ++ [ch_slash]) = zlen (render front) + 1) by (by rewrite zlen_app).
  rewrite (path_split _ _ _ Ecs), sub_app_r by lia. rewrite Hl, Z.sub_diag.
  pose proof (zlen_nonneg c). rewrite sub_app_l by lia. by apply sub_all.
Qed.

Lemma next_parent front c back :
  cs = front ++ c :: back -> take (Z.to_nat (zlen (render front) + 1 + zlen c)) path = render (front ++ [c]).
Proof.
  intros Ecs. assert (Er : render (front ++ [c]) = (render front ++ [ch_slash]) ++ c).
  { rewrite render_app, <- app_assoc. f_equal. change (render [c]) with (ch_slash :: c ++ []). by rewrite app_nil_r. }
  rewrite (path_split _ _ _ Ecs), app_assoc, <- Er. apply take_app_zlen. rewrite Er, !length_app. unfold zlen. simpl. lia.
Qed.

Lemma root_start front back : cs = front ++ back -> front <> [] \/ back <> [] -> walk_start path 1 = 1.
Proof.
  intros Ecs H. unfold walk_start. destruct cs as [|c r]; [destruct front, back; naive_solver|].
  inversion Hcs as [|? ? [Hc Hsf] _]; subst. destruct c as [|a c]; [done|]. inversion Hsf; subst.
  change (byte_at path 1) with a. by rewrite (proj2 (Z.eqb_neq _ _)).
Qed.

(** The answer the walk without a cache gives, or -ENOMEM. *)
Definition walked (r : option (Z * Z)) : Prop :=
  match r with
  | None => True
  | Some (e, d) =>
      e = - ENOMEM \/ match walk child AFP_ROOT_DID cs with Ok d0 => e = 0 /\ d = d0 | Err e0 => e = e0 end
  end.

Lemma not_found_errno rc fi : rc = kFPDirNotFound \/ rc = kFPObjectNotFound -> component_errno rc fi <> 0.
Proof. intros [->| ->]; by vm_compute. Qed.

Lemma walk_loop_spec fuel front back d known w :
  inv cs w -> cs = front ++ back ->
  right front d \/ gone d /\ back <> [] /\ known > 1 ->
  let '(r, w') := walk_loop cf fuel path (zlen (render front) + 1) known d w in inv cs w' /\ walked r.
Proof.
  revert front back d known w. induction fuel as [|fuel IH]; intros front back d known w Hw Ecs Hst; [done|].
  cbn [walk_loop]. rewrite (next_slash _ _ Ecs). destruct back as [|c back].
  { destruct Hst as [Hr|(_ & ? & _)]; [|done]. rewrite app_nil_r in Ecs. subst front. split; [done|]. simpl.
    right. unfold right in Hr. by rewrite Hr. }
  unfold bind at 1. pose proof (inv_call cs _ (Malloc (zlen (sub (zlen (render front) + 1)
    (zlen (render front) + 1 + zlen c - (zlen (render front) + 1)) path) + 1)) eq_refl w Hw) as Hw1.
  destruct (call (Malloc _) w) as [[|] w1]; cbn [negb]; [|split; [done|by left]]. simpl in Hw1.
  replace (zlen (render front) + 1 + zlen c - (zlen (render front) + 1)) with (zlen c) by lia.
  rewrite (next_name _ _ _ Ecs), (next_parent _ _ _ Ecs).
  unfold bind at 1, modify. unfold bind at 1.
  set (w1' := (set_did_stats _ _, snd w1)).
  assert (Hw1' : inv cs w1') by exact Hw1.
  pose proof (inv_call cs _ (GetFileDirParms d kFPNodeIDBit kFPNodeIDBit c) eq_refl w1' Hw1') as Hw2.
  assert (Hans : fst (call (GetFileDirParms d kFPNodeIDBit kFPNodeIDBit c) w1') = child d c).
  { unfold call. pose proof (still_answer (snd w1') d kFPNodeIDBit kFPNodeIDBit c) as Ha.
    destruct (handle _ (snd w1')) as [a e]. simpl in *. rewrite Ha. apply Hw1'. }
  destruct (call (GetFileDirParms _ _ _ _) w1') as [[rc fi] w2]. cbn [fst snd] in Hans, Hw2.
  destruct (((rc =? kFPDirNotFound) || (rc =? kFPObjectNotFound)) && (known >? 1)) eqn:Er.
  - unfold bind at 1. pose proof (inv_lineage cs path w2 Hw2) as Hw3.
    destruct (remove_did_lineage path w2) as [[] w3]. simpl in Hw3.
    rewrite (root_start _ _ Ecs) by (right; done).
    apply (IH [] cs AFP_ROOT_DID 1 w3 Hw3 eq_refl). by left.
  - assert (Hr : right front d).
    { destruct Hst as [Hr|(Hg & _ & Hk)]; [done|]. exfalso. specialize (Hg c). rewrite <- Hans in Hg. simpl in Hg.
      rewrite (proj2 (Z.gtb_lt _ _)) in Er by lia. rewrite andb_true_r in Er. apply orb_false_elim in Er as [E1 E2].
      bool_to_prop. naive_solver. }
    assert (Hwalk : walk child AFP_ROOT_DID cs
      = if component_errno rc fi =? 0 then walk child (cnid fi) back else Err (component_errno rc fi)).
    { rewrite Ecs, walk_app, Hr. simpl. by rewrite <- Hans. }
    destruct (component_errno rc fi =? 0) eqn:Ee; cbn [negb].
    + assert (Hr' : right (front ++ [c]) (cnid fi)).
      { unfold right. rewrite walk_app, Hr. simpl. rewrite <- Hans, Ee. done. }
      destruct (comp_in _ _ _ Ecs) as [_ Hfc].
      unfold bind at 1. pose proof (inv_call cs _ (Malloc (zlen (render (front ++ [c])) + 1)) eq_refl w2 Hw2) as Hw3.
      destruct (call (Malloc _) w2) as [[|] w3]; cbn [negb]; [|split; [done|by left]]. simpl in Hw3.
      unfold bind at 1. pose proof (inv_check cs (render (front ++ [c])) (cnid fi) w3 Hw3) as Hw4.
      destruct (check_did_entry _ _ _ w3) as [[] w4]. simpl in Hw4.
      unfold bind at 1.
      pose proof (inv_add cs d (cnid fi) (front ++ [c]) _ c Hr' ltac:(by destruct front) Hfc eq_refl w4 Hw4) as Hw5.
      destruct (add_did_cache_entry _ _ _ _ _ w4) as [r w5]. simpl in Hw5.
      replace (zlen (render front) + 1 + zlen c + 1) with (zlen (render (front ++ [c])) + 1)
        by (rewrite render_app, render_cons, zlen_app, zlen_cons, zlen_app; change (zlen (render [])) with 0; lia).
      apply (IH (front ++ [c]) back (cnid fi) known w5 Hw5); [|by left].
      rewrite <- app_assoc. exact Ecs.
    + split; [done|]. simpl. right. rewrite Hwalk. done.
Qed.

End Walk.

End Correct.

Lemma render_longer cs : Forall comp_ok cs -> cs <> [] -> (length cs < length (render cs))%nat.
Proof.
  induction 1 as [|c cs [Hc _] _ IH]; [done|]. intros _. rewrite render_cons. simpl. rewrite length_app.
  destruct c as [|a c]; [done|]. simpl. destruct cs; [simpl; lia|]. specialize (IH ltac:(done)). lia.
Qed.

Lemma walk_err child cs e : forall d, walk child d cs = Err e -> e <> 0.
Proof.
  induction cs as [|c r IH]; intros d; simpl; [done|].
  destruct (child d c) as [rc fi]. destruct (component_errno rc fi =? 0) eqn:E0; [apply IH|].
  intros [= <-]. by bool_to_prop.
Qed.

(** The walk goes on after the part of the path the cache knows. *)
Lemma walk_start_known cs base front back known :
  Forall comp_ok cs -> cs = front ++ back -> back <> [] ->
  known = (if decide (front = []) then 1 else zlen (render front)) ->
  walk_start (render (cs ++ [base])) known = zlen (render front) + 1 /\ (front <> [] -> known > 1).
Proof.
  intros Hcs Ec Hbk ->. destruct (decide (front = [])) as [->|Hf0].
  - rewrite (root_start cs base Hcs [] back Ec) by (by right). split; [done|]. done.
  - split.
    + unfold walk_start. rewrite Ec, <- app_assoc, render_app, byte_at_end.
      destruct back as [|c back]; [done|]. simpl app. rewrite render_cons. done.
    + intros _. destruct front as [|c front]; [done|]. rewrite render_cons, zlen_cons, zlen_app.
      subst cs. apply Forall_app in Hcs as [Hfr _]. inversion Hfr as [|? ? [Hc _]]; subst. destruct c; [done|].
      rewrite zlen_cons. pose proof (zlen_nonneg c). pose proof (zlen_nonneg (render front)). lia.
Qed.

(** C9: the lookup of a path's parent is the walk from the root. On a server
    that stands still, with a cache whose entries are right or of folders that
    are gone since, and right for the parent itself, get_dirid gives the last
    name and the identifier a walk from the root without a cache finds, or
    that walk's errno (-ENOMEM when the allocator refuses); and the cache it
    leaves is of that kind again. *)
Theorem get_dirid_correct {E} `{Env E} cf view `{!Still E view} child cs base (w : volume * E) :
  Forall comp_ok cs -> slash_free base -> zlen base < AFPC_MAX_NAME_BYTES -> inv view child cs w ->
  let '(r, b, d, w') := get_dirid cf (render (cs ++ [base])) w in
  b = Some base /\ inv view child cs w'
  /\ (r = - ENOMEM /\ d = None
      \/ match walk child AFP_ROOT_DID cs with
         | Ok d0 => r = 0 /\ d = Some d0
         | Err e => r = e /\ d = None
         end).
Proof.
  intros Hcs Hb Hl Hw. unfold get_dirid, get_dirid_run. unfold bind at 1.
  assert (Ep : render (cs ++ [base]) = render cs ++ ch_slash :: base)
    by (rewrite render_app, render_cons; change (render []) with (@nil Z); by rewrite app_nil_r).
  replace (strrchr (render (cs ++ [base])) ch_slash) with (Some (zlen (render cs))) by (by rewrite Ep, strrchr_app).
  assert (Ed : drop (Z.to_nat (zlen (render cs) + 1)) (render (cs ++ [base])) = base).
  { rewrite Ep. change (ch_slash :: base) with ([ch_slash] ++ base). rewrite app_assoc.
    apply drop_app_zlen. rewrite length_app. unfold zlen. simpl. lia. }
  rewrite Ed. destruct (zlen base >=? AFPC_MAX_NAME_BYTES) eqn:El; bool_to_prop; [lia|].
  destruct (zlen (render cs) =? 0) eqn:Ez.
  { bool_to_prop. apply zlen_0_inv in Ez. destruct cs as [|c cs]; [|done]. split; [done|]. split; [done|]. by right. }
  bool_to_prop. assert (Hc0 : cs <> []) by (intros ->; done).
  assert (Et : take (Z.to_nat (zlen (render cs))) (render (cs ++ [base])) = render cs)
    by (rewrite Ep; apply take_app_zlen; unfold zlen; lia).
  rewrite Et. unfold bind at 1.
  pose proof (inv_call view child cs _ (Malloc (zlen (render cs) + 1)) eq_refl w Hw) as Hw1.
  destruct (call (Malloc _) w) as [[|] w1]; cbn [negb]; [|split; [done|split; [done|by left]]]. simpl in Hw1.
  unfold bind at 1. pose proof (find_spec view child cs cs w1 Hw1 Hcs) as Hf.
  destruct (find_dirid_by_fullname (render cs) w1) as [nd w2]. destruct Hf as [Hw2 Hnd].
  destruct (nd =? 0) eqn:En; cbn [negb].
  - unfold bind at 1.
    pose proof (render_longer cs Hcs Hc0) as Hlen.
    pose proof (known_parent_spec view child cs cs (S (length (render cs))) AFP_ROOT_DID w2 Hw2 Hcs ltac:(lia) Hc0) as Hk.
    destruct (known_parent_loop _ _ _ w2) as [k w3]. destruct Hk as (Hw3 & pd & known & front & back & -> & Ec & Hbk & Hst & Ek).
    pose proof (walk_start_known cs base front back known Hcs Ec Hbk Ek) as Hstart.
    destruct Hstart as [Hs1 Hs2]. unfold bind at 1.
    pose proof (walk_loop_ends cf (2 * length (render (cs ++ [base])) + 2) (render (cs ++ [base]))
      (walk_start (render (cs ++ [base])) known) known pd w3) as Hend.
    rewrite Hs1 in Hend |- *.
    assert (Hend' := Hend ltac:(pose proof (zlen_nonneg (render front)); lia)
      ltac:(unfold steps_left; pose proof (zlen_nonneg (render front)); unfold zlen in *; case_if; lia)). clear Hend.
    pose proof (walk_loop_spec cf view child cs base Hcs Hb (2 * length (render (cs ++ [base])) + 2) front back pd known w3
      Hw3 Ec ltac:(destruct Hst as [?|[? ?]]; [by left|right; auto])) as Hwl.
    destruct (walk_loop cf _ _ _ _ _ w3) as [r w4]. destruct Hwl as [Hw4 Hwl]. simpl in Hend'.
    destruct r as [[e d]|]; [|done]. simpl in Hwl. unfold ret.
    destruct Hwl as [->|Hwl]; [split; [done|split; [done|by left]]|].
    destruct (walk child AFP_ROOT_DID cs) as [d0|e0] eqn:Ew.
    + destruct Hwl as [-> ->]. split; [done|]. split; [done|]. by right.
    + subst e0. pose proof (walk_err _ _ _ _ Ew) as He.
      destruct e; try done; (split; [done|]; split; [done|]; by right).
  - bool_to_prop. split; [done|]. split; [done|]. right.
    destruct Hnd as [?|[Hr|[_ ?]]]; [done| |done]. unfold right in Hr. rewrite Hr. done.
Qed.

(** *** Witnesses *)

(** A folder "a" in the root, and a folder "b" in it. *)
Definition sample_child (d : Z) (n : list Z) : Z * afp_dirent :=
  if (d =? AFP_ROOT_DID) && list_eqb n [97]
  then (kFPNoErr, set_cnid kFPNodeIDBit 17 (empty_dirent 0x80))
  else if (d =? 17) && list_eqb n [98]
  then (kFPNoErr, set_cnid kFPNodeIDBit 19 (empty_dirent 0x80))
  else (kFPObjectNotFound, empty_dirent 0).

Definition sample_env : Env unit :=
  fun A c e => (match c in cmd A return A with
                | GetFileDirParms d _ _ n => sample_child d n
                | c => no_answer c
                end, e).

Lemma sample_still : @Still unit sample_env (fun _ => sample_child).
Proof. split; intros; done. Qed.

(** The cache still has an old folder "a" under the identifier 11. *)
Theorem get_dirid_correct_witness :
  fst (@get_dirid unit sample_env sample_config (render [[97]; [98]; [99]])
         (set_did_cache [DidEntry (render [[97]]) 11 2 [97] 0] empty_volume, tt))
  = (0, Some [99], Some 19).
Proof.
  pose proof (@get_dirid_correct unit sample_env sample_config (fun _ => sample_child) sample_still sample_child
    [[97]; [98]] [99] (set_did_cache [DidEntry (render [[97]]) 11 2 [97] 0] empty_volume, tt)) as H.
  change ([[97]; [98]] ++ [[99]]) with [[97]; [98]; [99]] in H.
  destruct (get_dirid sample_config (render [[97]; [98]; [99]]) _) as [[[r b] d] w'] eqn:Eg.
  destruct H as (Hb & _ & H).
  - repeat constructor; done.
  - repeat constructor; done.
  - done.
  - split; [done|]. constructor; [|constructor]. exists [[97]]. split; [split; [done|split; [repeat constructor; done|done]]|].
    right. split; [|done]. intros n. right. done.
  - cbn [fst]. subst b. change (walk sample_child AFP_ROOT_DID [[97]; [98]]) with (Ok 19) in H. cbv iota in H.
    destruct H as [[-> ->]|[-> ->]]; [|done].
    exfalso. apply (f_equal (fun x => fst (fst (fst x)))) in Eg. vm_compute in Eg. discriminate.
Defined.
