(* ===== verification/Identify.v ===== *)
(** What a server is and does (lib/identify.c): the machine type it reports, its
    version, and the behaviours that go by them. *)
From stdpp Require Import gmap.
From S2P Require Import Prelude AfpProtocol Utils World DidCache.

Definition mac_models : list (list Z) :=
  [str "Mac"; str "iMac"; str "eMac"; str "iBook"; str "PowerBook"; str "PowerMac"; str "RackMac";
   str "Xserve"; str "VMware"].

(** strncmp(s, prefix, strlen(prefix)) == 0. *)
Definition starts (s prefix : list Z) : bool := strncmp_eq s prefix (zlen prefix).

Definition is_mac_model (machine_type : list Z) : bool := existsb (starts machine_type) mac_models.

Definition afp_identify_machine_type (machine_type : option (list Z)) : server_type_t :=
  match machine_type with
  | None => AFPC_SERVER_TYPE_UNKNOWN
  | Some m =>
      if starts m (str "Netatalk") then AFPC_SERVER_TYPE_NETATALK
      else if starts m (str "AirPort") then AFPC_SERVER_TYPE_AIRPORT
      else if is_mac_model m then AFPC_SERVER_TYPE_MACINTOSH
      else if starts m (str "TimeCapsule") then AFPC_SERVER_TYPE_TIMECAPSULE
      else if starts m (str "Windows") then AFPC_SERVER_TYPE_WINDOWS
      else AFPC_SERVER_TYPE_UNKNOWN
  end.

Definition UINT_MAX : Z := 4294967295.

(** One number of a version: its value, and the text after its dot, if any. *)
Definition version_part (p : list Z) : option (Z * option (list Z)) :=
  if is_digit (byte_at p 0) then
    let (number, end_) := scan_digits 0 p in
    Some (if number >? UINT_MAX then UINT_MAX else number,
          match end_ with x :: r => if x =? ch_dot then Some r else None | [] => None end)
  else None.

Definition server_version_parse (text : list Z) : Z * (Z * Z * Z) :=
  match version_part text with
  | None => (-1, (0, 0, 0))
  | Some (major, None) => (0, (major, 0, 0))
  | Some (major, Some p) =>
      match version_part p with
      | None => (0, (major, 0, 0))
      | Some (minor, None) => (0, (major, minor, 0))
      | Some (minor, Some p) =>
          match version_part p with
          | None => (0, (major, minor, 0))
          | Some (patch, _) => (0, (major, minor, patch))
          end
      end
  end.

Definition server_version_at_least (version : Z * Z * Z) (major minor patch : Z) : bool :=
  let '(a, b, c) := version in
  if negb (a =? major) then a >? major
  else if negb (b =? minor) then b >? minor
  else c >=? patch.

(** The type, the version and the default timeout. *)
Definition afp_server_identify (machine_type : list Z) : server_type_t * (Z * Z * Z) * Z :=
  let ty := afp_identify_machine_type (Some machine_type) in
  (ty,
   match ty with
   | AFPC_SERVER_TYPE_NETATALK => snd (server_version_parse (drop (length (str "Netatalk")) machine_type))
   | _ => (0, 0, 0)
   end,
   match ty with
   | AFPC_SERVER_TYPE_TIMECAPSULE => DSI_TIMECAPSULE_DEFAULT_TIMEOUT
   | _ => DSI_DEFAULT_TIMEOUT
   end).

(** ** Behaviours *)

Definition is_netatalk (cf : config) : bool :=
  match server_type cf with AFPC_SERVER_TYPE_NETATALK => true | _ => false end.

Definition afp_server_is_apple (cf : config) : bool :=
  match server_type cf with
  | AFPC_SERVER_TYPE_TIMECAPSULE | AFPC_SERVER_TYPE_AIRPORT | AFPC_SERVER_TYPE_MACINTOSH => true
  | _ => false
  end.

Definition afp_server_reports_fork_length (cf : config) : bool := is_netatalk cf && (av_number cf >=? 30).
Definition afp_server_copies_files (cf : config) : bool := is_netatalk cf && (av_number cf >=? 34).
Definition afp_server_drops_long_commands (cf : config) : bool :=
  is_netatalk cf && negb (server_version_at_least (server_version cf) 4 5 0).
Definition afp_server_gives_directory_ids_to_files (cf : config) : bool :=
  is_netatalk cf && negb (server_version_at_least (server_version cf) 3 0 0).
Definition afp_server_keeps_unset_ids (cf : config) : bool := is_netatalk cf.
Definition afp_server_keeps_directory_modes (cf : config) : bool :=
  is_netatalk cf && negb (server_version_at_least (server_version cf) 3 0 0).

(** ** Properties *)

(** The text a version prints as: digits between dots, and a suffix. *)
Definition version_text (a b c suffix : list Z) : list Z := a ++ ch_dot :: b ++ ch_dot :: c ++ suffix.

Definition not_digit_head (s : list Z) : Prop := is_digit (byte_at s 0) = false.

Lemma version_part_digits ds rest :
  digits ds -> ds <> [] -> not_digit_head rest ->
  version_part (ds ++ rest)
  = Some (Z.min (digits_value ds) UINT_MAX,
          match rest with x :: r => if x =? ch_dot then Some r else None | [] => None end).
Proof.
  intros Hd H0 Hr. unfold version_part. destruct ds as [|d ds]; [done|].
  assert (Hd0 : is_digit d = true) by (by inversion Hd). change (byte_at ((d :: ds) ++ rest) 0) with d. rewrite Hd0.
  rewrite scan_digits_app; [|done|intros b r ->; exact Hr]. fold (digits_value (d :: ds)).
  assert (Hm : (if digits_value (d :: ds) >? UINT_MAX then UINT_MAX else digits_value (d :: ds))
               = Z.min (digits_value (d :: ds)) UINT_MAX) by (case_if; bool_to_prop; lia).
  by rewrite Hm.
Qed.

Lemma server_version_at_least_lex v a b c :
  server_version_at_least v a b c = true
  <-> let '(x, y, z) := v in x > a \/ x = a /\ (y > b \/ y = b /\ z >= c).
Proof.
  destruct v as [[x y] z]. unfold server_version_at_least.
  destruct (Z.eqb_spec x a); cbn [negb]; [|rewrite Z.gtb_lt; lia].
  destruct (Z.eqb_spec y b); cbn [negb]; [rewrite Z.geb_leb, Z.leb_le; lia|rewrite Z.gtb_lt; lia].
Qed.

(** a Netatalk server is known by its machine type. Whatever digits its
    version has, and whatever suffix follows them, "Netatalk" with the
    version is identified as Netatalk of that version, a number above 32 bits
    counted as the largest; it is held to drop long commands exactly below
    4.5.0, and to give a directory's ids to its files exactly below 3. *)
Theorem netatalk_identified cf a b c suffix :
  digits a -> digits b -> digits c -> a <> [] -> b <> [] -> c <> [] -> not_digit_head suffix ->
  let v x := Z.min (digits_value x) UINT_MAX in
  let '(ty, version, timeout) := afp_server_identify (str "Netatalk" ++ version_text a b c suffix) in
  ty = AFPC_SERVER_TYPE_NETATALK /\ version = (v a, v b, v c) /\ timeout = DSI_DEFAULT_TIMEOUT
  /\ (server_type cf = ty -> server_version cf = version ->
      (afp_server_drops_long_commands cf = true <-> v a < 4 \/ v a = 4 /\ v b < 5)
      /\ (afp_server_gives_directory_ids_to_files cf = true <-> v a < 3)).
Proof.
  intros Ha Hb Hc Ha0 Hb0 Hc0 Hs v.
  assert (Hnn : forall x, 0 <= v x).
  { intros x. unfold v. pose proof (scan_digits_nonneg 0 x ltac:(lia)). unfold digits_value, UINT_MAX. lia. }
  unfold afp_server_identify.
  change (afp_identify_machine_type (Some (str "Netatalk" ++ version_text a b c suffix))) with AFPC_SERVER_TYPE_NETATALK.
  cbv iota. rewrite drop_app_length.
  assert (Hv : server_version_parse (version_text a b c suffix) = (0, (v a, v b, v c))).
  { unfold server_version_parse, version_text.
    rewrite (version_part_digits a) by done. rewrite Z.eqb_refl.
    rewrite (version_part_digits b) by done. rewrite Z.eqb_refl.
    rewrite (version_part_digits c) by done. done. }
  rewrite Hv. split; [done|]. split; [done|]. split; [done|]. intros Ht Hver.
  unfold afp_server_drops_long_commands, afp_server_gives_directory_ids_to_files, is_netatalk. rewrite Ht, Hver.
  cbn [andb snd]. rewrite !negb_true_iff, <- !not_true_iff_false, !server_version_at_least_lex.
  pose proof (Hnn a). pose proof (Hnn b). pose proof (Hnn c). split; lia.
Qed.

Theorem netatalk_identified_witness :
  fst (afp_server_identify (str "Netatalk4.10.1dev")) = (AFPC_SERVER_TYPE_NETATALK, (4, 10, 1)).
Proof.
  pose proof (netatalk_identified sample_config (str "4") (str "10") (str "1") (str "dev")) as H.
  change (str "Netatalk" ++ version_text (str "4") (str "10") (str "1") (str "dev")) with (str "Netatalk4.10.1dev") in H.
  destruct (afp_server_identify (str "Netatalk4.10.1dev")) as [[ty ver] t].
  destruct H as (-> & -> & _); try done; repeat constructor.
Defined.
