(* ===== verification/DsiQueue.v ===== *)
(** The request queue of a DSI session: lib/dsi.c (request identifiers, the
    queue, deadlines, the sender's wait) and struct dsi_request of lib/dsi.h.

    Requests live in a heap, [command_requests] is the list of the addresses
    the queue links. Each operation that runs under request_queue_mutex (or
    the request's waiting_mutex) is one function; [step] interleaves the
    threads at those critical sections: any number of senders inside
    afpc_dsi_send_with_reply, the receiver inside afpc_dsi_recv, and the
    threads that flush or fail the queue. *)
From stdpp Require Import gmap.
From S2P Require Import Prelude AfpProtocol.

(** ** Data *)

(** struct afp_rx_buffer: [rx_data] is the allocation, of [rx_maxsize] bytes. *)
Record afp_rx_buffer := RxBuffer {
  rx_size : Z;
  rx_maxsize : Z;
  rx_data : list Z }.

Record dsi_request := Request {
  requestid : Z;
  subcommand : Z;
  other : option afp_rx_buffer;         (* a read's buffer; other commands' contexts are their handlers' *)
  wait : Z;
  deadline : Z;                         (* tv_sec *)
  done_waiting : bool;
  ignore_replies : bool;
  receiving : bool;
  return_code : Z;
  request_generation : Z;
  reply_handler : bool;                 (* whether the sender named a parser of its own *)
  stream_buffer : option afp_rx_buffer }.

Definition set_return (code : Z) (r : dsi_request) : dsi_request :=
  Request (requestid r) (subcommand r) (other r) (wait r) (deadline r) (done_waiting r)
    (ignore_replies r) (receiving r) code (request_generation r) (reply_handler r) (stream_buffer r).
Definition set_wait (w : Z) (r : dsi_request) : dsi_request :=
  Request (requestid r) (subcommand r) (other r) w (deadline r) (done_waiting r)
    (ignore_replies r) (receiving r) (return_code r) (request_generation r) (reply_handler r) (stream_buffer r).
Definition set_done (r : dsi_request) : dsi_request :=
  Request (requestid r) (subcommand r) (other r) (wait r) (deadline r) true
    (ignore_replies r) (receiving r) (return_code r) (request_generation r) (reply_handler r) (stream_buffer r).
Definition set_ignore (r : dsi_request) : dsi_request :=
  Request (requestid r) (subcommand r) (other r) (wait r) (deadline r) (done_waiting r)
    true (receiving r) (return_code r) (request_generation r) (reply_handler r) (stream_buffer r).
Definition set_receiving (b : bool) (r : dsi_request) : dsi_request :=
  Request (requestid r) (subcommand r) (other r) (wait r) (deadline r) (done_waiting r)
    (ignore_replies r) b (return_code r) (request_generation r) (reply_handler r) (stream_buffer r).
Definition set_tv (t : Z) (r : dsi_request) : dsi_request :=
  Request (requestid r) (subcommand r) (other r) (wait r) t (done_waiting r)
    (ignore_replies r) (receiving r) (return_code r) (request_generation r) (reply_handler r) (stream_buffer r).

(** The buffer a read's reply streams into: stream_buffer, or else other. *)
Definition read_buffer (r : dsi_request) : option afp_rx_buffer :=
  match stream_buffer r with Some b => Some b | None => other r end.

Definition set_read_buffer (b : afp_rx_buffer) (r : dsi_request) : dsi_request :=
  match stream_buffer r with
  | Some _ =>
      Request (requestid r) (subcommand r) (other r) (wait r) (deadline r) (done_waiting r)
        (ignore_replies r) (receiving r) (return_code r) (request_generation r) (reply_handler r) (Some b)
  | None =>
      Request (requestid r) (subcommand r) (Some b) (wait r) (deadline r) (done_waiting r)
        (ignore_replies r) (receiving r) (return_code r) (request_generation r) (reply_handler r) None
  end.

Record queue := Queue {
  heap : gmap Z dsi_request;
  command_requests : list Z;
  requests_pending : Z }.

(** ** Request identifiers (afpc_dsi_setup_header) *)

Definition next_requestid (supports_replay_cache : bool) (last : Z) : Z :=
  if last =? 65535 then (if supports_replay_cache then 1 else 0) else last + 1.

(** The header's bytes, with the length the send fills in later. *)
Definition afpc_dsi_setup_header (supports_replay_cache : bool) (last command : Z) : Z * list Z :=
  let id := next_requestid supports_replay_cache last in
  (id, [DSI_REQUEST; u8 command] ++ be_put 2 id ++ zero_bytes 4 ++ zero_bytes 4 ++ zero_bytes 4).

(** ** The queue's critical sections *)

Definition awaits (h : gmap Z dsi_request) (request_id p : Z) : bool :=
  match h !! p with
  | Some r => negb (ignore_replies r) && negb (done_waiting r) && (request_id =? requestid r)
  | None => false
  end.

Fixpoint find_waiting (h : gmap Z dsi_request) (request_id : Z) (ps : list Z) : option Z :=
  match ps with
  | [] => None
  | p :: next => if awaits h request_id p then Some p else find_waiting h request_id next
  end.

Definition update (f : dsi_request -> dsi_request) (p : Z) (q : queue) : queue :=
  Queue (alter f p (heap q)) (command_requests q) (requests_pending q).

Definition afpc_dsi_find_request (q : queue) (request_id : Z) : queue * option Z :=
  match find_waiting (heap q) request_id (command_requests q) with
  | Some p => (update (set_receiving true) p q, Some p)
  | None => (q, None)
  end.

Definition afpc_dsi_release_request (q : queue) (p : Z) : queue :=
  update (set_receiving false) p q.

(** Wake a request with a result, unless it has one. *)
Definition wake (error : Z) (r : dsi_request) : dsi_request :=
  if done_waiting r then r else set_done (set_return error r).

(** The receiver's signal at the label out of afpc_dsi_recv_frame. *)
Definition signal_request (result : Z) (r : dsi_request) : dsi_request :=
  if done_waiting r then r else set_done (set_wait 0 (set_return result r)).

Definition afpc_dsi_fail_request_queue (q : queue) (error : Z) : queue :=
  Queue (foldr (alter (wake error)) (heap q) (command_requests q))
    (command_requests q) (requests_pending q).

Definition afpc_dsi_flush_request_queue (q : queue) : queue :=
  Queue (foldr (alter (fun r => wake (- EIO) (set_ignore r))) (heap q) (command_requests q))
    [] (u64 (requests_pending q - zlen (command_requests q))).

Fixpoint unlink (p : Z) (ps : list Z) : list Z :=
  match ps with
  | [] => []
  | x :: r => if x =? p then r else x :: unlink p r
  end.

(** Runs once the receiver has let the request go. [None] is the answer -1,
    which leaves the request allocated. *)
Definition afpc_dsi_remove_from_request_queue (q : queue) (p : Z) : option queue :=
  if existsb (fun x => x =? p) (command_requests q) then
    Some (Queue (delete p (heap q)) (unlink p (command_requests q)) (u64 (requests_pending q - 1)))
  else
    match heap q !! p with
    | Some r => if ignore_replies r
                then Some (Queue (delete p (heap q)) (command_requests q) (requests_pending q))
                else None
    | None => None
    end.

(** The queueing part of afpc_dsi_send_with_reply. *)
Definition enqueue (q : queue) (p : Z) (r : dsi_request) : queue :=
  Queue (<[p := r]> (heap q)) (command_requests q ++ [p]) (u64 (requests_pending q + 1)).

Definition new_request (id sub : Z) (oth : option afp_rx_buffer) (w generation : Z)
    (handler : bool) (stream : option afp_rx_buffer) : dsi_request :=
  Request id sub oth w 0 false false false 0 generation handler stream.

(** The waits of the requests written ahead and still awaited. *)
Definition waits_ahead (h : gmap Z dsi_request) (ps : list Z) : Z :=
  foldr (fun p acc => match h !! p with
                      | Some r => if deadline r =? 0 then acc else wait r + acc
                      | None => acc
                      end) 0 ps.

Definition afpc_dsi_set_deadline (q : queue) (p now : Z) : queue :=
  update (fun r => set_tv (now + (wait r + waits_ahead (heap q) (command_requests q))) r) p q.

Definition afpc_dsi_transfer_wait (dsi_default_timeout bytes bytes_per_second : Z) : Z :=
  dsi_default_timeout + Z.min (bytes / bytes_per_second) DSI_MAX_TRANSFER_WAIT.

(** ** The threads *)

(** Where a sender is in afpc_dsi_send_with_reply, by the request it owns:
    before its write has ended, in its wait, or about to take the request off
    with the result it answers. *)
Inductive sender : Type :=
| Writing
| Waiting
| Removing (rc : Z).

Record sys := Sys {
  sys_queue : queue;
  senders : gmap Z sender;
  holding : option Z }.                  (* the request the receiver holds *)

Definition written (q : queue) (p now : Z) : queue :=
  match heap q !! p with
  | Some r => if wait r >? 0 then afpc_dsi_set_deadline q p now else q
  | None => q
  end.

Inductive step (s : sys) : sys -> Prop :=
| step_enqueue p id sub oth w generation handler stream :
    heap (sys_queue s) !! p = None ->
    step s (Sys (enqueue (sys_queue s) p (new_request id sub oth w generation handler stream))
              (<[p := Writing]> (senders s)) (holding s))
| step_written p now :
    senders s !! p = Some Writing ->
    step s (Sys (written (sys_queue s) p now) (<[p := Waiting]> (senders s)) (holding s))
| step_write_failed p :
    senders s !! p = Some Writing ->
    step s (Sys (update (set_return (- EIO)) p (sys_queue s))
              (<[p := Removing (- EIO)]> (senders s)) (holding s))
| step_answered p r :
    senders s !! p = Some Waiting -> heap (sys_queue s) !! p = Some r -> done_waiting r = true ->
    step s (Sys (sys_queue s) (<[p := Removing (return_code r)]> (senders s)) (holding s))
| step_timeout p r :
    senders s !! p = Some Waiting -> heap (sys_queue s) !! p = Some r ->
    done_waiting r = false -> 0 <= wait r ->
    step s (Sys (sys_queue s) (<[p := Removing ETIMEDOUT]> (senders s)) (holding s))
| step_remove p rc r q' :
    senders s !! p = Some (Removing rc) -> heap (sys_queue s) !! p = Some r ->
    receiving r = false -> afpc_dsi_remove_from_request_queue (sys_queue s) p = Some q' ->
    step s (Sys q' (delete p (senders s)) (holding s))
| step_find id q' found :
    holding s = None -> afpc_dsi_find_request (sys_queue s) id = (q', found) ->
    step s (Sys q' (senders s) found)
| step_fill p b :
    holding s = Some p ->
    step s (Sys (update (set_read_buffer b) p (sys_queue s)) (senders s) (holding s))
| step_signal p result :
    holding s = Some p ->
    step s (Sys (update (signal_request result) p (sys_queue s)) (senders s) (holding s))
| step_release p :
    holding s = Some p ->
    step s (Sys (afpc_dsi_release_request (sys_queue s) p) (senders s) None)
| step_flush : step s (Sys (afpc_dsi_flush_request_queue (sys_queue s)) (senders s) (holding s))
| step_fail error :
    step s (Sys (afpc_dsi_fail_request_queue (sys_queue s) error) (senders s) (holding s)).

Definition sys_start : sys := Sys (Queue ∅ [] 0) ∅ None.

(** The states the threads reach from an empty queue. *)
Definition reachable (s : sys) : Prop := rtc step sys_start s.

(** ** The queue's invariant *)

Record queue_inv (s : sys) : Prop := {
  inv_owned : forall p, is_Some (heap (sys_queue s) !! p) <-> is_Some (senders s !! p);
  inv_nodup : NoDup (command_requests (sys_queue s));
  inv_linked : forall p, p ∈ command_requests (sys_queue s) -> is_Some (heap (sys_queue s) !! p);
  inv_flushed : forall p r, heap (sys_queue s) !! p = Some r ->
                  p ∈ command_requests (sys_queue s) <-> ignore_replies r = false;
  inv_held : forall p, holding s = Some p -> is_Some (heap (sys_queue s) !! p);
  inv_receiving : forall p r, heap (sys_queue s) !! p = Some r ->
                    receiving r = true <-> holding s = Some p;
  inv_pending : requests_pending (sys_queue s) = u64 (zlen (command_requests (sys_queue s))) }.

(** *** Lookups through the operations *)

Lemma lookup_alter_all f (h : gmap Z dsi_request) ps p :
  (forall r, f (f r) = f r) ->
  foldr (alter f) h ps !! p = if decide (p ∈ ps) then f <$> h !! p else h !! p.
Proof.
  intros Hf. induction ps as [|x ps IH]; cbn [foldr].
  - case_decide; [set_solver|done].
  - destruct (decide (x = p)) as [->|Hne].
    + rewrite lookup_alter_eq, IH, (decide_True (P := p ∈ p :: ps)) by set_solver.
      case_decide; [|done]. destruct (h !! p); simpl; by rewrite ?Hf.
    + rewrite lookup_alter_ne, IH by done. apply decide_ext. set_solver.
Qed.

Lemma wake_idem error r : wake error (wake error r) = wake error r.
Proof. unfold wake. destruct (done_waiting r) eqn:E; [by rewrite E|done]. Qed.

Lemma flush_idem r :
  wake (- EIO) (set_ignore (wake (- EIO) (set_ignore r))) = wake (- EIO) (set_ignore r).
Proof. unfold wake. cbn. destruct (done_waiting r) eqn:E; cbn; rewrite ?E; done. Qed.

Lemma unlink_elem p x ps : NoDup ps -> x ∈ unlink p ps <-> x ∈ ps /\ x <> p.
Proof.
  induction 1 as [|y ps Hy Hps IH]; simpl; [set_solver|].
  bsplit; [subst|]; rewrite ?elem_of_cons, ?IH; [|set_solver].
  split; [intros; split; [by right|by intros ->]|]. intros [[->|] ?]; [done|done].
Qed.

Lemma unlink_NoDup p ps : NoDup ps -> NoDup (unlink p ps).
Proof.
  induction 1 as [|y ps Hy Hps IH]; simpl; [constructor|]. case_if; [done|].
  constructor; [|done]. rewrite unlink_elem by done. tauto.
Qed.

Lemma unlink_zlen p ps : p ∈ ps -> zlen (unlink p ps) = zlen ps - 1.
Proof.
  induction ps as [|y ps IH]; simpl; [set_solver|]. intros Hp. rewrite zlen_cons.
  bsplit; [lia|]. rewrite zlen_cons, IH by set_solver. lia.
Qed.

Lemma existsb_elem p ps : existsb (fun x => x =? p) ps = true <-> p ∈ ps.
Proof.
  rewrite existsb_exists, list_elem_of_In. split.
  - intros (x & Hx & ->%Z.eqb_eq). done.
  - intros Hp. exists p. by rewrite Z.eqb_refl.
Qed.

Lemma find_waiting_some h id ps p :
  find_waiting h id ps = Some p -> p ∈ ps /\ awaits h id p = true.
Proof.
  induction ps as [|x ps IH]; simpl; [done|]. case_if; [|intros H; apply IH in H; set_solver].
  intros [= <-]. set_solver.
Qed.

(** An operation that keeps a request's flags keeps what the invariant says. *)
Lemma update_lookup f p q x :
  heap (update f p q) !! x = if decide (x = p) then f <$> heap q !! p else heap q !! x.
Proof.
  unfold update. simpl. case_decide as Hx; [subst; apply lookup_alter_eq|].
  by apply lookup_alter_ne.
Qed.

Lemma update_inv f p q sd sd' h :
  (forall r, ignore_replies (f r) = ignore_replies r /\ receiving (f r) = receiving r) ->
  (forall x, is_Some (sd' !! x) <-> is_Some (sd !! x)) ->
  queue_inv (Sys q sd h) -> queue_inv (Sys (update f p q) sd' h).
Proof.
  intros Hf Hsd [H1 H2 H3 H4 H5 H6 H7]. simpl in *.
  assert (Hsome : forall x, is_Some (heap (update f p q) !! x) <-> is_Some (heap q !! x)).
  { intros x. rewrite update_lookup. case_decide; [subst|done]. by rewrite fmap_is_Some. }
  split; simpl; try done.
  - intros x. change (alter f p (heap q)) with (heap (update f p q)). by rewrite Hsome, Hsd.
  - intros x Hx. change (alter f p (heap q)) with (heap (update f p q)). rewrite Hsome. auto.
  - intros x r. change (alter f p (heap q)) with (heap (update f p q)). rewrite update_lookup.
    case_decide; [subst|eauto]. destruct (heap q !! p) as [r0|] eqn:E; [|done].
    intros [= <-]. destruct (Hf r0) as [-> _]. eauto.
  - intros x Hx. change (alter f p (heap q)) with (heap (update f p q)). rewrite Hsome. auto.
  - intros x r. change (alter f p (heap q)) with (heap (update f p q)). rewrite update_lookup.
    case_decide; [subst|eauto]. destruct (heap q !! p) as [r0|] eqn:E; [|done].
    intros [= <-]. destruct (Hf r0) as [_ ->]. eauto.
Qed.

Lemma same_keys (m : gmap Z sender) p (v w : sender) :
  m !! p = Some v -> forall x, is_Some (<[p := w]> m !! x) <-> is_Some (m !! x).
Proof.
  intros Hp x. destruct (decide (x = p)) as [->|Hne].
  - rewrite lookup_insert_eq, Hp. split; eauto.
  - by rewrite lookup_insert_ne.
Qed.

Lemma senders_inv q sd sd' h :
  (forall x, is_Some (sd' !! x) <-> is_Some (sd !! x)) ->
  queue_inv (Sys q sd h) -> queue_inv (Sys q sd' h).
Proof. intros Hsd [H1 ? ? ? ? ? ?]. split; simpl in *; try done. intros x. by rewrite H1, Hsd. Qed.

(** *** Every step keeps the invariant *)

Lemma enqueue_inv q sd h p r :
  heap q !! p = None -> ignore_replies r = false -> receiving r = false ->
  queue_inv (Sys q sd h) -> queue_inv (Sys (enqueue q p r) (<[p := Writing]> sd) h).
Proof.
  intros Hp Hi Hr [H1 H2 H3 H4 H5 H6 H7]. simpl in *.
  assert (Hnp : p ∉ command_requests q) by (intros Hin; destruct (H3 p Hin); congruence).
  split; simpl.
  - intros x. destruct (decide (x = p)) as [->|]; [rewrite !lookup_insert_eq; split; eauto|].
    rewrite !lookup_insert_ne by done. apply H1.
  - apply NoDup_app. split; [done|]. split; [set_solver|]. apply NoDup_singleton.
  - intros x Hx. destruct (decide (x = p)) as [->|]; [rewrite lookup_insert_eq; eauto|].
    rewrite lookup_insert_ne by done. apply H3. set_solver.
  - intros x r0. destruct (decide (x = p)) as [->|].
    + rewrite lookup_insert_eq. intros [= <-]. set_solver.
    + rewrite lookup_insert_ne by done. intros Hx. rewrite <- (H4 x r0 Hx). set_solver.
  - intros x Hx. destruct (H5 x Hx) as [r0 Hr0]. exists r0. rewrite lookup_insert_ne; congruence.
  - intros x r0. destruct (decide (x = p)) as [->|].
    + rewrite lookup_insert_eq. intros [= <-]. rewrite Hr. split; [done|].
      intros Hh. destruct (H5 p Hh). congruence.
    + rewrite lookup_insert_ne by done. apply H6.
  - rewrite H7, zlen_app, zlen_cons, zlen_nil. unfold u64. by rewrite Zplus_mod_idemp_l.
Qed.

Lemma remove_inv q sd h p r q' :
  heap q !! p = Some r -> receiving r = false ->
  afpc_dsi_remove_from_request_queue q p = Some q' ->
  queue_inv (Sys q sd h) -> queue_inv (Sys q' (delete p sd) h).
Proof.
  intros Hp Hr Hrem [H1 H2 H3 H4 H5 H6 H7]. simpl in *.
  assert (Hnh : h <> Some p) by (intros ->; apply (H6 p r Hp) in Hr || (destruct (H6 p r Hp) as [_ G]; rewrite G in Hr); congruence).
  assert (Hq : heap q' = delete p (heap q) /\ command_requests q' = unlink p (command_requests q)
               /\ requests_pending q' = u64 (zlen (unlink p (command_requests q)))).
  { unfold afpc_dsi_remove_from_request_queue in Hrem. destruct (existsb _ _) eqn:E.
    - apply existsb_elem in E. injection Hrem as <-. simpl. split; [done|]. split; [done|].
      rewrite unlink_zlen, H7 by done. unfold u64. by rewrite Zminus_mod_idemp_l.
    - rewrite Hp in Hrem. destruct (ignore_replies r) eqn:Ei; [|done]. injection Hrem as <-. simpl.
      assert (Hnp : p ∉ command_requests q) by (rewrite (H4 p r Hp), Ei; done).
      assert (unlink p (command_requests q) = command_requests q) as ->; [|done].
      clear -Hnp. induction (command_requests q) as [|x l IH]; simpl; [done|].
      bsplit; [set_solver|]. rewrite IH by set_solver. done. }
  destruct Hq as (Hh & Hc & Hn). split; simpl; rewrite ?Hh, ?Hc.
  - intros x. destruct (decide (x = p)) as [->|]; [by rewrite !lookup_delete_eq|].
    rewrite !lookup_delete_ne by done. apply H1.
  - by apply unlink_NoDup.
  - intros x. rewrite unlink_elem by done. intros [Hx ?]. rewrite lookup_delete_ne by done. auto.
  - intros x r0. rewrite lookup_delete_Some, unlink_elem by done. intros [Hne Hx].
    rewrite (H4 x r0 Hx). naive_solver.
  - intros x Hx. rewrite lookup_delete_ne by congruence. auto.
  - intros x r0. rewrite lookup_delete_Some. intros [_ Hx]. eauto.
  - done.
Qed.

Lemma find_inv q sd id q' found :
  afpc_dsi_find_request q id = (q', found) ->
  queue_inv (Sys q sd None) -> queue_inv (Sys q' sd found).
Proof.
  unfold afpc_dsi_find_request. intros Hf [H1 H2 H3 H4 H5 H6 H7]. simpl in *.
  destruct (find_waiting _ _ _) as [p|] eqn:E; simplify_eq; [|by split].
  apply find_waiting_some in E as [Hp _].
  assert (Hsome : forall x, is_Some (alter (set_receiving true) p (heap q) !! x) <-> is_Some (heap q !! x)).
  { intros x. destruct (decide (x = p)) as [->|];
      [rewrite lookup_alter_eq, fmap_is_Some|rewrite lookup_alter_ne by done]; done. }
  split; simpl; try done.
  - intros x. by rewrite Hsome, H1.
  - intros x Hx. rewrite Hsome. auto.
  - intros x r. rewrite lookup_alter_Some. intros [(<- & r0 & Hx & ->)|[_ Hx]]; [|eauto].
    simpl. eauto.
  - intros x [= <-]. rewrite Hsome. auto.
  - intros x r. rewrite lookup_alter_Some. intros [(<- & r0 & Hx & ->)|[Hne Hx]]; [done|].
    rewrite (H6 x r Hx). naive_solver.
Qed.

Lemma release_inv q sd p :
  queue_inv (Sys q sd (Some p)) -> queue_inv (Sys (afpc_dsi_release_request q p) sd None).
Proof.
  intros [H1 H2 H3 H4 H5 H6 H7]. simpl in *.
  assert (Hsome : forall x, is_Some (alter (set_receiving false) p (heap q) !! x) <-> is_Some (heap q !! x)).
  { intros x. destruct (decide (x = p)) as [->|];
      [rewrite lookup_alter_eq, fmap_is_Some|rewrite lookup_alter_ne by done]; done. }
  split; simpl; try done.
  - intros x. by rewrite Hsome, H1.
  - intros x Hx. rewrite Hsome. auto.
  - intros x r. rewrite lookup_alter_Some. intros [(<- & r0 & Hx & ->)|[_ Hx]]; [|eauto].
    simpl. eauto.
  - intros x r. rewrite lookup_alter_Some. intros [(<- & r0 & Hx & ->)|[Hne Hx]]; [done|].
    rewrite (H6 x r Hx). naive_solver.
Qed.

(** The operations that change every queued request. *)
Lemma sweep_inv q sd h f ps' n' :
  (forall r, f (f r) = f r) -> (forall r, receiving (f r) = receiving r) ->
  NoDup ps' -> (forall p, p ∈ ps' -> p ∈ command_requests q) -> n' = u64 (zlen ps') ->
  (forall p r, heap q !! p = Some r -> p ∈ command_requests q ->
     p ∈ ps' <-> ignore_replies (f r) = false) ->
  queue_inv (Sys q sd h) ->
  queue_inv (Sys (Queue (foldr (alter f) (heap q) (command_requests q)) ps' n') sd h).
Proof.
  intros Hf Hrec Hnd Hsub Hn Hig [H1 H2 H3 H4 H5 H6 H7]. simpl in *.
  assert (Hsome : forall x, is_Some (foldr (alter f) (heap q) (command_requests q) !! x)
                            <-> is_Some (heap q !! x)).
  { intros x. rewrite lookup_alter_all by done. case_decide; [by rewrite fmap_is_Some|done]. }
  split; simpl; try done.
  - intros x. by rewrite Hsome, H1.
  - intros x Hx. rewrite Hsome. auto.
  - intros x r. rewrite lookup_alter_all by done. case_decide as Hin.
    + rewrite fmap_Some. intros (r0 & Hx & ->). by apply Hig.
    + intros Hx. destruct (H4 x r Hx) as [? H4']. split; [intros G; apply Hsub in G; done|].
      intros G. apply H4' in G. done.
  - intros x Hx. rewrite Hsome. auto.
  - intros x r. rewrite lookup_alter_all by done. case_decide; [|eauto].
    rewrite fmap_Some. intros (r0 & Hx & ->). rewrite Hrec. eauto.
Qed.

Lemma wake_flags e r : ignore_replies (wake e r) = ignore_replies r /\ receiving (wake e r) = receiving r.
Proof. unfold wake. by case_if. Qed.

Lemma step_inv s s' : step s s' -> queue_inv s -> queue_inv s'.
Proof.
  destruct s as [q sd h]. intros Hs Hinv. inversion Hs; subst; simpl in *.
  - by apply enqueue_inv.
  - unfold written. destruct (heap q !! p); [case_if|]; unfold afpc_dsi_set_deadline;
      (apply update_inv with (sd := sd) || apply senders_inv with (sd := sd)); eauto using same_keys.
  - apply update_inv with (sd := sd); eauto using same_keys.
  - apply senders_inv with (sd := sd); eauto using same_keys.
  - apply senders_inv with (sd := sd); eauto using same_keys.
  - by eapply remove_inv.
  - subst. by eapply find_inv.
  - apply update_inv with (sd := sd); [|done|done].
    intros r. unfold set_read_buffer. by destruct (stream_buffer r).
  - apply update_inv with (sd := sd); [|done|done].
    intros r. unfold signal_request. by case_if.
  - subst. by apply release_inv.
  - apply sweep_inv; try done.
    + apply flush_idem.
    + intros r. by rewrite (proj2 (wake_flags _ _)).
    + apply NoDup_nil_2.
    + set_solver.
    + destruct Hinv as [_ _ _ _ _ _ H7]. simpl in H7. rewrite H7. unfold u64.
      by rewrite Zminus_mod_idemp_l, Z.sub_diag.
    + intros p r _ _. rewrite (proj1 (wake_flags _ _)). simpl. split; [set_solver|done].
  - pose proof Hinv as [_ H2 _ H4 _ _ H7]. simpl in *. apply sweep_inv; try done.
    + apply wake_idem.
    + intros r. by rewrite (proj2 (wake_flags _ _)).
    + intros p r Hp _. rewrite (proj1 (wake_flags _ _)). eauto.
Qed.

Lemma reachable_inv s : reachable s -> queue_inv s.
Proof.
  unfold reachable. intros H. refine (rtc_ind_r (R := step) queue_inv sys_start _ _ s H).
  - split; simpl; try done; try set_solver.
    + intros p. rewrite !lookup_empty. done.
    + apply NoDup_nil_2.
  - intros y z _ Hstep Hy. by eapply step_inv.
Qed.

(** ** Properties of the queue *)

(** C3: whatever the interleaving of senders, receiver, flushes and failures,
    no thread reaches a freed request. The request a sender owns, the request
    the receiver holds and every request the queue links are allocated; a
    sender that may free its request never frees the one the receiver holds;
    the sender's removal always succeeds; and the pending count is the
    queue's length. *)
Theorem queue_no_dangling s :
  reachable s ->
  (forall p, is_Some (senders s !! p) -> is_Some (heap (sys_queue s) !! p))
  /\ (forall p, holding s = Some p -> is_Some (heap (sys_queue s) !! p))
  /\ (forall p, p ∈ command_requests (sys_queue s) -> is_Some (heap (sys_queue s) !! p))
  /\ (forall p s' , step s s' -> holding s = Some p -> is_Some (heap (sys_queue s') !! p))
  /\ (forall p, is_Some (senders s !! p) ->
        is_Some (afpc_dsi_remove_from_request_queue (sys_queue s) p))
  /\ requests_pending (sys_queue s) = u64 (zlen (command_requests (sys_queue s))).
Proof.
  intros Hr%reachable_inv. pose proof Hr as [H1 H2 H3 H4 H5 H6 H7].
  split; [intros p; by rewrite H1|]. do 2 (split; [done|]). split; [|split; [|done]].
  - intros p s' Hs Hp. pose proof (step_inv _ _ Hs Hr) as [_ _ _ _ H5' _ _].
    destruct (H5 p Hp) as [r Hr0]. inversion Hs; subst; simpl in *; try by apply H5'.
    + congruence.
    + change (alter _ p0 (heap (sys_queue s))) with (heap (afpc_dsi_release_request (sys_queue s) p0)).
      unfold afpc_dsi_release_request. rewrite update_lookup.
      case_decide; [subst|]; rewrite ?Hr0; eauto.
  - intros p Hp. rewrite <- H1 in Hp. destruct Hp as [r Hp].
    unfold afpc_dsi_remove_from_request_queue. destruct (existsb _ _) eqn:E; [eauto|].
    rewrite Hp. destruct (ignore_replies r) eqn:Ei; [eauto|].
    apply (H4 p r Hp) in Ei. apply existsb_elem in Ei. congruence.
Qed.

Definition sample_request : dsi_request := new_request 7 24 None 5 0 false None.

Definition sample_sys : sys :=
  Sys (update (set_receiving true) 1 (enqueue (Queue ∅ [] 0) 1 sample_request))
    (<[1 := Writing]> ∅) (Some 1).

Lemma sample_reachable : reachable sample_sys.
Proof.
  eapply rtc_l; [apply (step_enqueue sys_start 1 7 24 None 5 0 false None); done|].
  eapply rtc_l; [|apply rtc_refl]. by refine (step_find (Sys _ _ _) 7 _ _ _ _).
Qed.

(** A request the receiver holds survives a flush of the queue. *)
Theorem queue_no_dangling_witness :
  is_Some (heap (afpc_dsi_flush_request_queue (sys_queue sample_sys)) !! 1).
Proof.
  pose proof (queue_no_dangling sample_sys sample_reachable) as (_ & _ & _ & H & _).
  exact (H 1 _ (step_flush sample_sys) eq_refl).
Defined.

(** C5: no request leaks: once every sender has returned, nothing is allocated,
    the queue is empty, the count is zero and the receiver holds nothing. *)
Theorem queue_no_leak s :
  reachable s -> senders s = ∅ ->
  heap (sys_queue s) = ∅ /\ command_requests (sys_queue s) = []
  /\ requests_pending (sys_queue s) = 0 /\ holding s = None.
Proof.
  intros [H1 H2 H3 H4 H5 H6 H7]%reachable_inv Hs.
  assert (Hh : forall p, heap (sys_queue s) !! p = None).
  { intros p. apply eq_None_not_Some. rewrite H1, Hs, lookup_empty. by intros [? ?]. }
  assert (Hc : command_requests (sys_queue s) = []).
  { destruct (command_requests (sys_queue s)) as [|p l] eqn:E; [done|].
    destruct (H3 p) as [r Hp]; [set_solver|]. by rewrite Hh in Hp. }
  split; [apply map_eq; intros p; by rewrite Hh, lookup_empty|]. split; [done|].
  rewrite H7, Hc. split; [done|].
  destruct (holding s) as [p|] eqn:E; [|done]. destruct (H5 p eq_refl) as [r Hp]. by rewrite Hh in Hp.
Qed.

(** A request whose write failed, then taken off. *)
Definition sample_failed : sys :=
  let q := update (set_return (- EIO)) 1 (enqueue (Queue ∅ [] 0) 1 sample_request) in
  Sys (default q (afpc_dsi_remove_from_request_queue q 1))
    (delete 1 (<[1 := Removing (- EIO)]> (<[1 := Writing]> ∅))) None.

Theorem queue_no_leak_witness :
  heap (sys_queue sample_failed) = ∅ /\ command_requests (sys_queue sample_failed) = []
  /\ requests_pending (sys_queue sample_failed) = 0 /\ holding sample_failed = None.
Proof.
  apply (queue_no_leak sample_failed); [|vm_compute; reflexivity].
  eapply rtc_l; [apply (step_enqueue sys_start 1 7 24 None 5 0 false None); done|].
  eapply rtc_l; [by apply (step_write_failed _ 1)|].
  eapply rtc_l; [|apply rtc_refl].
  refine (step_remove (Sys _ _ _) 1 (- EIO) _ _ _ _ _ _); vm_compute; reflexivity.
Defined.

(** A request whose sender will answer [code]: it is past its wait with that
    result, or it waits and has been woken with it. *)
Definition answered (p code : Z) (s : sys) : Prop :=
  senders s !! p = Some (Removing code)
  \/ (senders s !! p = Some Waiting
      /\ exists r, heap (sys_queue s) !! p = Some r /\ done_waiting r = true /\ return_code r = code).

Lemma signal_kept x r : done_waiting r = true -> signal_request x r = r.
Proof. intros Hd. unfold signal_request. by rewrite Hd. Qed.

Lemma wake_kept x r : done_waiting r = true -> wake x r = r.
Proof. intros Hd. unfold wake. by rewrite Hd. Qed.

Lemma update_kept p x f q r :
  heap q !! p = Some r ->
  (p <> x \/ done_waiting (f r) = done_waiting r /\ return_code (f r) = return_code r) ->
  exists r', heap (update f x q) !! p = Some r'
             /\ done_waiting r' = done_waiting r /\ return_code r' = return_code r.
Proof.
  intros Hp Hf. rewrite update_lookup. case_decide; [subst|by exists r].
  rewrite Hp. exists (f r). simpl. naive_solver.
Qed.

Lemma sweep_kept p f q r :
  heap q !! p = Some r -> (forall r, f (f r) = f r) -> done_waiting (f r) = done_waiting r ->
  return_code (f r) = return_code r ->
  exists r', foldr (alter f) (heap q) (command_requests q) !! p = Some r'
             /\ done_waiting r' = done_waiting r /\ return_code r' = return_code r.
Proof.
  intros Hp Hi Hd Hc. rewrite lookup_alter_all by done.
  case_decide; rewrite Hp; [by exists (f r)|by exists r].
Qed.

(** Every step keeps a woken request's result until its sender takes it. *)
Lemma step_kept s s' p r :
  step s s' -> senders s !! p = Some Waiting -> heap (sys_queue s) !! p = Some r ->
  done_waiting r = true ->
  senders s' !! p = Some (Removing (return_code r))
  \/ (senders s' !! p = Some Waiting
      /\ exists r', heap (sys_queue s') !! p = Some r'
                    /\ done_waiting r' = done_waiting r /\ return_code r' = return_code r).
Proof.
  destruct s as [q sd h]. intros Hs Hw Hr Hd. simpl in *.
  inversion Hs; subst; simpl in *; try (right; split; [done|]).
  - right. assert (p <> p0) by congruence. rewrite !lookup_insert_ne by done. split; [done|]. by exists r.
  - right. assert (p <> p0) by congruence. rewrite lookup_insert_ne by done. split; [done|].
    unfold written. destruct (heap q !! p0); [case_if|]; try by exists r.
    apply update_kept; auto.
  - right. assert (p <> p0) by congruence. rewrite lookup_insert_ne by done. split; [done|].
    apply update_kept; auto.
  - destruct (decide (p = p0)) as [->|Hne].
    + left. rewrite lookup_insert_eq. congruence.
    + right. rewrite lookup_insert_ne by done. split; [done|]. by exists r.
  - right. assert (p <> p0) by congruence. rewrite lookup_insert_ne by done. split; [done|]. by exists r.
  - right. assert (p <> p0) by congruence. rewrite lookup_delete_ne by done. split; [done|]. exists r.
    split; [|done]. unfold afpc_dsi_remove_from_request_queue in *.
    repeat case_match; simplify_eq; simpl; by rewrite lookup_delete_ne.
  - unfold afpc_dsi_find_request in *. case_match; simplify_eq; [|by exists r].
    apply update_kept; auto.
  - apply update_kept; [done|]. right. unfold set_read_buffer. by destruct (stream_buffer r).
  - apply update_kept; [done|]. right. by rewrite signal_kept.
  - apply update_kept; auto.
  - apply sweep_kept; [done|apply flush_idem|by rewrite wake_kept..].
  - apply sweep_kept; [done|apply wake_idem|by rewrite wake_kept..].
Qed.

Lemma step_removing s s' p rc :
  step s s' -> is_Some (heap (sys_queue s) !! p) -> senders s !! p = Some (Removing rc) ->
  senders s' !! p = Some (Removing rc) \/ heap (sys_queue s') !! p = None.
Proof.
  destruct s as [q sd h]. intros Hs [r Hr] Hw. simpl in *.
  inversion Hs; subst; simpl in *; try (by left);
    try (left; assert (p <> p0) by congruence; by rewrite lookup_insert_ne).
  destruct (decide (p = p0)) as [->|]; [|left; by rewrite lookup_delete_ne].
  right. unfold afpc_dsi_remove_from_request_queue in *.
  repeat case_match; simplify_eq; simpl; by rewrite lookup_delete_eq.
Qed.

(** C4: the first answer stands. Once a waiting request has been woken, by the
    receiver's signal, by a failure or by a flush, no later signal, failure,
    flush, timeout or reply changes the result its sender returns: every step
    keeps the answer until the sender has freed the request. *)
Theorem answer_kept s s' p code :
  reachable s -> step s s' -> answered p code s ->
  answered p code s' \/ (senders s !! p = Some (Removing code) /\ heap (sys_queue s') !! p = None).
Proof.
  intros Hr Hs [H|(Hw & r & Hp & Hd & Hc)].
  - destruct (step_removing s s' p code Hs) as [G|G]; [|done|by left; left|by right].
    apply (inv_owned _ (reachable_inv _ Hr)). eauto.
  - left. destruct (step_kept s s' p r Hs Hw Hp Hd) as [G|(G & r' & Hr' & Hd' & Hc')].
    + left. congruence.
    + right. split; [done|]. exists r'. split; [done|]. split; congruence.
Qed.

Definition sample_answered : sys :=
  Sys (update (signal_request 0) 1 (update (set_receiving true) 1 (written (enqueue (Queue ∅ [] 0) 1 sample_request) 1 100)))
    (<[1 := Waiting]> (<[1 := Writing]> ∅)) (Some 1).

(** A flush after the receiver's signal leaves the reply's result. *)
Theorem answer_kept_witness :
  let s' := Sys (afpc_dsi_flush_request_queue (sys_queue sample_answered))
              (senders sample_answered) (holding sample_answered) in
  answered 1 0 s' \/ (senders sample_answered !! 1 = Some (Removing 0) /\ heap (sys_queue s') !! 1 = None).
Proof.
  apply (answer_kept sample_answered); [|apply step_flush|].
  - eapply rtc_l; [apply (step_enqueue sys_start 1 7 24 None 5 0 false None); done|].
    eapply rtc_l; [by apply (step_written _ 1 100)|].
    eapply rtc_l; [by refine (step_find (Sys _ _ _) 7 _ _ _ _)|].
    eapply rtc_l; [by apply (step_signal _ 1 0)|]. apply rtc_refl.
  - right. split; [done|]. eexists. split; [reflexivity|]. done.
Defined.

(** Request identifiers do not repeat: from any last identifier, the
    identifiers of two of the next requests are distinct unless 65535 requests
    or more lie between them; each fits the header's 16 bits, and none is 0
    on a session with a replay cache. *)
Theorem requestids_distinct replay last i j :
  0 <= last <= 65535 -> (1 <= i < j)%nat -> Z.of_nat j < Z.of_nat i + 65535 ->
  let id n := Nat.iter n (next_requestid replay) last in
  id i <> id j /\ 0 <= id i <= 65535 /\ (replay = true -> 1 <= id i).
Proof.
  intros Hl Hij Hj id.
  assert (Hc : forall n, (1 <= n)%nat ->
    id n = if replay then (Z.max last 1 - 1 + (Z.of_nat n - (if last =? 0 then 1 else 0))) mod 65535 + 1
           else (last + Z.of_nat n) mod 65536).
  { induction n as [|n IH]; [lia|]. intros _. destruct n as [|n].
    - unfold id. simpl. unfold next_requestid. destruct replay; bsplit; subst; simpl; try done;
        Z.div_mod_to_equations; lia.
    - change (id (S (S n))) with (next_requestid replay (id (S n))). rewrite IH by lia.
      unfold next_requestid. destruct replay; bsplit; Z.div_mod_to_equations; lia. }
  rewrite !Hc by lia. destruct replay; [case_if|]; (split; [|split; [|]]); try done;
    Z.div_mod_to_equations; lia.
Qed.

Theorem requestids_distinct_witness :
  Nat.iter 2 (next_requestid true) 65534 = 1
  /\ Nat.iter 1 (next_requestid true) 65534 <> Nat.iter 2 (next_requestid true) 65534.
Proof. split; [done|]. apply (requestids_distinct true 65534 1 2); lia. Defined.
