(* ===== verification/ForkList.v ===== *)
(** A volume's list of open forks (lib/forklist.c), with the flushes of
    lib/midlevel.c it calls at an unmount. *)
From stdpp Require Import gmap.
From S2P Require Import Prelude AfpProtocol Listing World DidCache Identify DsiQueue.

(** ** Records *)

Definition set_fi_dirty (b : bool) (f : afp_file_info) : afp_file_info :=
  FileInfo (fi_size f) (fi_did f) (fi_cnid f) (fi_resource f) (fi_forkid f) (fi_sync f) (fi_writable f) b
    (fi_created f) (fi_basename f).
Definition set_fi_size (n : Z) (f : afp_file_info) : afp_file_info :=
  FileInfo n (fi_did f) (fi_cnid f) (fi_resource f) (fi_forkid f) (fi_sync f) (fi_writable f) (fi_dirty f)
    (fi_created f) (fi_basename f).
Definition set_fi_cnid (n : Z) (f : afp_file_info) : afp_file_info :=
  FileInfo (fi_size f) (fi_did f) n (fi_resource f) (fi_forkid f) (fi_sync f) (fi_writable f) (fi_dirty f)
    (fi_created f) (fi_basename f).
Definition set_fi_forkid (n : Z) (f : afp_file_info) : afp_file_info :=
  FileInfo (fi_size f) (fi_did f) (fi_cnid f) (fi_resource f) n (fi_sync f) (fi_writable f) (fi_dirty f)
    (fi_created f) (fi_basename f).
Definition set_fi_name (d : Z) (name : list Z) (f : afp_file_info) : afp_file_info :=
  FileInfo (fi_size f) d (fi_cnid f) (fi_resource f) (fi_forkid f) (fi_sync f) (fi_writable f) (fi_dirty f)
    (fi_created f) name.
Definition set_fi_resource (r : Z) (f : afp_file_info) : afp_file_info :=
  FileInfo (fi_size f) (fi_did f) (fi_cnid f) r (fi_forkid f) (fi_sync f) (fi_writable f) (fi_dirty f)
    (fi_created f) (fi_basename f).
Definition set_fi_modes (sync writable dirty : bool) (f : afp_file_info) : afp_file_info :=
  FileInfo (fi_size f) (fi_did f) (fi_cnid f) (fi_resource f) (fi_forkid f) sync writable dirty
    (fi_created f) (fi_basename f).

(** What the parser of an open's reply stores. *)
Definition fill_opened (r : open_reply) (f : afp_file_info) : afp_file_info :=
  let f := match or_forkid r with Some n => set_fi_forkid n f | None => f end in
  let f := match or_cnid r with Some n => set_fi_cnid n f | None => f end in
  match or_size r with Some n => set_fi_size n f | None => f end.

Record dirty_fork_record := DirtyFork { dr_forkid : Z; dr_did : Z; dr_resource : Z; dr_basename : list Z }.

Definition sizeof_dirty_fork_record : Z := 1036.

Definition names_file (p : afp_file_info) (d : Z) (basename : list Z) : bool :=
  (fi_did p =? d) && list_eqb (fi_basename p) basename.

Definition AFP_DISK_BYTES_PER_SECOND : Z := 1024 * 1024.

Section Forks.
Context {E : Type} `{Env E} (cf : config).

Definition update_fork (f : afp_file_info -> afp_file_info) (p : Z) : M E unit :=
  modify (fun v => set_forks (alter f p (forks v)) v).

Definition add_opened_fork (p : Z) : M E unit :=
  modify (fun v => set_open_forks (p :: open_forks v) v).

Definition remove_opened_fork (p : Z) : M E unit :=
  modify (fun v => set_open_forks (unlink p (open_forks v)) v).

(** Whether the first walk takes the record at an address for a flush. *)
Definition wants_flush (fp q : Z) (v : volume) : bool :=
  let f := fork_at fp v in
  let p := fork_at q v in
  negb ((q =? fp) || negb (fi_writable p) || negb (fi_dirty p)
        || negb (fi_resource p =? fi_resource f) || negb (names_file p (fi_did f) (fi_basename f))).

(** The first walk: the records of the forks to flush, each clean from here
    on; one the array has no memory for is left dirty. *)
Fixpoint collect_dirty (fp : Z) (ps : list Z) (records : list dirty_fork_record) (capacity : Z)
    : M E (list dirty_fork_record) :=
  match ps with
  | [] => ret records
  | q :: next =>
      let! want := get (wants_flush fp q) in
      if negb want then collect_dirty fp next records capacity
      else
        let! p := get (fork_at q) in
        let keep cap :=
          update_fork (set_fi_dirty false) q ;;!
          collect_dirty fp next
            (records ++ [DirtyFork (fi_forkid p) (fi_did p) (fi_resource p) (fi_basename p)]) cap in
        if zlen records =? capacity then
          let new_capacity := if capacity =? 0 then 4 else capacity * 2 in
          let! ok := call (Malloc (new_capacity * sizeof_dirty_fork_record)) in
          if ok : bool then keep new_capacity else collect_dirty fp next records capacity
        else keep capacity
  end.

(** The record on the list that a failed flush makes dirty again. *)
Definition matches_record (r : dirty_fork_record) (p : afp_file_info) : bool :=
  (fi_forkid p =? dr_forkid r) && (fi_resource p =? dr_resource r) && names_file p (dr_did r) (dr_basename r).

Fixpoint redirty (r : dirty_fork_record) (ps : list Z) (v : volume) : volume :=
  match ps with
  | [] => v
  | q :: next => if matches_record r (fork_at q v)
                 then set_forks (alter (set_fi_dirty true) q (forks v)) v
                 else redirty r next v
  end.

Fixpoint flush_records (records : list dirty_fork_record) : M E unit :=
  match records with
  | [] => ret tt
  | r :: next =>
      let! rc := call (FlushFork (dr_forkid r) DSI_DEFAULT_TIMEOUT) in
      (if negb (rc =? kFPNoErr) then modify (fun v => redirty r (open_forks v) v) else ret tt) ;;!
      flush_records next
  end.

Definition flush_dirty_forks_for_file (fp : Z) : M E unit :=
  let! ps := get open_forks in
  let! records := collect_dirty fp ps [] 0 in
  flush_records records.

Definition other_fork_open (fp : Z) (v : volume) : bool :=
  existsb (fun q => negb (q =? fp)
                    && names_file (fork_at q v) (fi_did (fork_at fp v)) (fi_basename (fork_at fp v)))
    (open_forks v).

(** ** Flushes (lib/midlevel.c) *)

Definition ml_fsync (fp : Z) : M E Z :=
  let! f := get (fork_at fp) in
  let was_dirty := fi_dirty f in
  if fi_resource f >? AFP_META_RESOURCE then ret 0
  else if fi_forkid f =? 0 then ret (- EIO)
  else
    update_fork (set_fi_dirty false) fp ;;!
    let wait := afpc_dsi_transfer_wait (dsi_default_timeout cf) (fi_size f) AFP_DISK_BYTES_PER_SECOND in
    let! rc := if av_number cf >=? 31 then call (SyncFork (fi_forkid f) wait) else ret kFPCallNotSupported in
    let! rc := if rc =? kFPCallNotSupported then call (FlushFork (fi_forkid f) wait) else ret rc in
    if rc =? kFPNoErr then ret 0
    else
      (if was_dirty then update_fork (set_fi_dirty true) fp else ret tt) ;;!
      ret (if rc =? kFPAccessDenied then - EACCES else - EIO).

Definition ml_close_flush (fp : Z) : M E Z :=
  let! f := get (fork_at fp) in
  if negb (fi_dirty f) || negb (has (extra_flags cf) VOLUME_EXTRA_FLAGS_FLUSH_ON_CLOSE)
  then ret 0 else ml_fsync fp.

(** ** The unmount *)

Fixpoint remove_forks (ps : list Z) : M E unit :=
  match ps with
  | [] => ret tt
  | p :: next =>
      ml_close_flush p ;;!
      let! f := get (fork_at p) in
      call (CloseFork (fi_forkid f)) ;;!
      modify (fun v => set_forks (delete p (forks v)) (set_open_forks next v)) ;;!
      remove_forks next
  end.

Definition remove_fork_list : M E unit :=
  let! ps := get open_forks in remove_forks ps.

End Forks.
