(* ===== verification/LowLevel.v ===== *)
(** Fork and directory operations (lib/lowlevel.c). A handle is the address of
    its record; a path is in the volume's form. *)
From stdpp Require Import gmap.
From S2P Require Import Prelude AfpProtocol Utils Dates ReplyBlock Listing World DidCache Identify DsiQueue ForkList.

Definition O_RDONLY : Z := 0.
Definition O_WRONLY : Z := 1.
Definition O_RDWR : Z := 2.
Definition O_ACCMODE : Z := 3.
Definition O_CREAT : Z := 0x40.
Definition O_EXCL : Z := 0x80.
Definition O_TRUNC : Z := 0x200.
Definition O_APPEND : Z := 0x400.
Definition O_SYNC : Z := 0x101000.

Definition MAX_LOCKTRYCOUNT : nat := 10.

(** ** Answers as errno *)

Definition ll_openfork_errno (rc : Z) : Z :=
  if rc =? kFPNoErr then 0
  else if (rc =? kFPAccessDenied) || (rc =? kFPLockErr) then EACCES
  else if rc =? kFPObjectNotFound then ENOENT
  else if rc =? kFPObjectLocked then EPERM
  else if rc =? kFPVolLocked then EROFS
  else if rc =? kFPObjectTypeErr then EISDIR
  else if rc =? kFPTooManyFilesOpen then EMFILE
  else if rc =? kFPDenyConflict then EBUSY
  else if rc =? ETIMEDOUT then ETIMEDOUT
  else EIO.

Definition setfork_errno (rc : Z) : Z :=
  if rc =? kFPNoErr then 0
  else if rc =? kFPAccessDenied then EACCES
  else if rc =? kFPVolLocked then EROFS
  else if rc =? kFPLockErr then EBUSY
  else if rc =? kFPDiskFull then ENOSPC
  else EIO.

Definition create_errno (rc : Z) : Z :=
  if (rc =? kFPObjectExists) || (rc =? kFPObjectTypeErr) then - EEXIST
  else if rc =? kFPDiskFull then - ENOSPC
  else if rc =? kFPFileBusy then - EBUSY
  else - ll_answer_errno rc.

Section LowLevel.
Context {E : Type} `{Env E} (cf : config).

Definition afp2 : bool := av_number cf <? 30.

Definition fork_length_bit (resource : bool) : Z :=
  if afp2 then (if resource then kFPRsrcForkLenBit else kFPDataForkLenBit)
  else (if resource then kFPExtRsrcForkLenBit else kFPExtDataForkLenBit).

(** ** Locks *)

(** The lock request of the version: AFP 2's carries 32 bits. *)
Definition lock_request (flag forkid offset size : Z) : M E Z :=
  if afp2 then call (ByteRangeLock false flag forkid (u32 offset) (u32 size))
  else call (ByteRangeLock true flag forkid offset size).

Definition no_locking : bool := has (extra_flags cf) VOLUME_EXTRA_FLAGS_NO_LOCKING.

Definition ll_handle_unlocking (forkid offset size : Z) : M E Z :=
  if no_locking then ret 0
  else
    let! rc := lock_request ByteRangeLock_Unlock forkid offset size in
    ret (if rc =? kFPNoErr then 0 else -1).

Fixpoint lock_loop (tries : nat) (forkid offset size : Z) : M E Z :=
  match tries with
  | O => ret 0
  | S tries =>
      let! rc := lock_request ByteRangeLock_Lock forkid offset size in
      if rc =? kFPNoErr then ret 0
      else if (rc =? kFPNoMoreLocks) || (rc =? kFPLockErr)
      then call (Sleep 1) ;;! lock_loop tries forkid offset size
      else ret (-1)
  end.

Definition ll_handle_locking (forkid offset size : Z) : M E Z :=
  if no_locking then ret 0 else lock_loop MAX_LOCKTRYCOUNT forkid offset size.

(** ** Lengths and creation *)

Definition ll_setfork_size (forkid : Z) (resource : bool) (size : Z) : M E Z :=
  if afp2 && (size >? AFP_MAX_AFP2_FILESIZE) then ret EFBIG
  else
    let! rc := call (SetForkParms forkid (fork_length_bit resource) size) in
    ret (setfork_errno rc).

Definition ll_createfile (d : Z) (basename : list Z) : M E Z :=
  let! rc := call (CreateFile kFPSoftCreate d basename) in
  ret (create_errno rc).

(** ** Open *)

(** The access an open asks for. *)
Definition open_access (flags : Z) : Z :=
  let access_mode := Z.land flags O_ACCMODE in
  if access_mode =? O_RDONLY then AFP_OPENFORK_ALLOWREAD
  else if (access_mode =? O_WRONLY) || (access_mode =? O_RDWR)
  then Z.lor AFP_OPENFORK_ALLOWREAD AFP_OPENFORK_ALLOWWRITE
  else 0.

(** The label error: a file this open made goes. *)
Definition open_error (fp : Z) (created : bool) (err : Z) : M E Z :=
  let! f := get (fork_at fp) in
  (if created then call (Delete (fi_did f) (fi_basename f)) ;;! ret tt else ret tt) ;;!
  ret (- err).

(** From the open request to the end. *)
Definition open_fork (flags aflags fp : Z) (created : bool) : M E Z :=
  let! f := get (fork_at fp) in
  let resource := negb (fi_resource f =? 0) in
  update_fork (set_fi_modes (has flags O_SYNC) (has aflags AFP_OPENFORK_ALLOWWRITE) false) fp ;;!
  let bitmap := if negb resource && afp_server_reports_fork_length cf
                then Z.lor kFPExtDataForkLenBit (if afp_server_copies_files cf then kFPNodeIDBit else 0)
                else 0 in
  let! r := call (OpenFork (if resource then 1 else 0) (fi_did f) aflags bitmap (fi_basename f)) in
  let (dsi_ret, reply) := r : Z * open_reply in
  update_fork (fill_opened reply) fp ;;!
  (if dsi_ret =? kFPNoErr then add_opened_fork fp else ret tt) ;;!
  let err := ll_openfork_errno dsi_ret in
  let created := if err =? ETIMEDOUT then false else created in
  if negb (err =? 0) then open_error fp created err
  else if has flags O_TRUNC && negb created then
    let! f := get (fork_at fp) in
    let! err := ll_setfork_size (fi_forkid f) resource 0 in
    if negb (err =? 0) then
      call (CloseFork (fi_forkid f)) ;;!
      remove_opened_fork fp ;;!
      open_error fp created err
    else
      update_fork (fun f => set_fi_dirty true (set_fi_size 0 f)) fp ;;! ret 0
  else ret 0.

Definition ll_open (flags fp : Z) : M E Z :=
  let aflags := open_access flags in
  let! f := get (fork_at fp) in
  let resource := negb (fi_resource f =? 0) in
  if has aflags AFP_OPENFORK_ALLOWWRITE && volume_is_readonly cf then open_error fp false EROFS
  else
    let! rc := if has flags O_CREAT then ll_createfile (fi_did f) (fi_basename f) else ret (- EEXIST) in
    let created := has flags O_CREAT && (rc =? 0) in
    if has flags O_CREAT && negb (rc =? 0) && (negb (rc =? - EEXIST) || has flags O_EXCL)
    then open_error fp false (- rc)
    else if afp2 then
      let! r := call (GetFileDirParms (fi_did f) (Z.lor kFPNodeIDBit (fork_length_bit resource)) 0 (fi_basename f)) in
      let (rc, e) := r : Z * afp_dirent in
      let err := ll_answer_errno rc in
      let err := if (err =? 0) && negb (isdir e =? 0) then EISDIR else err in
      if negb (err =? 0) then open_error fp created err
      else
        update_fork (fun f => set_fi_cnid (cnid e)
                                (set_fi_size (if resource then d_resourcesize e else d_size e) f)) fp ;;!
        open_fork flags aflags fp created
    else open_fork flags aflags fp created.

(** ** Read *)

Definition afp2_fork_reaches (fp offset : Z) : M E Z :=
  let! f := get (fork_at fp) in
  let resource := negb (fi_resource f =? 0) in
  if (fi_size f <=? offset) && (fi_size f <? UINT32_MAX) then
    let! r := call (GetFileDirParms (fi_did f) (fork_length_bit resource) 0 (fi_basename f)) in
    let (rc, now) := r : Z * afp_dirent in
    if negb (rc =? kFPNoErr) then ret (- ll_answer_errno rc)
    else
      let length := if resource then d_resourcesize now else d_size now in
      ret (if (length >? offset) || (length >=? UINT32_MAX) then 1 else 0)
  else ret (if (fi_size f >? offset) || (fi_size f >=? UINT32_MAX) then 1 else 0).

(** The loop over the quanta: the bytes read so far and the end's mark, or the
    errno. [None] is the end of the fuel. *)
Fixpoint read_loop (fuel : nat) (forkid offset size : Z) (got : list Z) : M E (option (res (list Z * bool))) :=
  if zlen got <? size then
    match fuel with
    | O => ret None
    | S fuel =>
        let chunksize := Z.min (quantum cf) (size - zlen got) in
        let read_offset := offset + zlen got in
        let! r := if afp2 then call (ReadFork false forkid (u32 read_offset) (u32 chunksize))
                  else call (ReadFork true forkid read_offset chunksize) in
        let (rc, data) := r : Z * list Z in
        if rc =? kFPAccessDenied then ret (Some (Err EACCES))
        else if rc =? kFPLockErr then ret (Some (Err EBUSY))
        else if rc =? kFPEOFErr then ret (Some (Ok (got ++ data, true)))
        else if rc =? kFPNoErr then
          if zlen data =? 0 then ret (Some (Ok (got, false)))
          else read_loop fuel forkid offset size (got ++ data)
        else ret (Some (Err EIO))
    end
  else ret (Some (Ok (got, false))).

(** The result: the count or the errno, the bytes, and the end's mark. *)
Definition read_result : Type := Z * list Z * bool.

Definition read_locked (forkid offset size : Z) : M E read_result :=
  let! l := ll_handle_locking forkid offset size in
  if negb (l =? 0) then ret (- EBUSY, [], false)
  else
    let! r := read_loop (Z.to_nat size) forkid offset size [] in
    match r with
    | Some (Ok (got, eof)) =>
        let! u := ll_handle_unlocking forkid offset size in
        if negb (u =? 0) then ll_handle_unlocking forkid offset size ;;! ret (- EIO, got, eof)
        else ret (zlen got, got, eof)
    | Some (Err e) => ll_handle_unlocking forkid offset size ;;! ret (- e, [], false)
    | None => ret (- EIO, [], false)
    end.

Definition ll_read (size offset : Z) (fp : option Z) : M E read_result :=
  match fp with
  | None => ret (- EBADF, [], false)
  | Some p =>
      let! f := get (fork_at p) in
      if fi_forkid f =? 0 then ret (- EIO, [], false)
      else if size =? 0 then ret (0, [], false)
      else
        let size := Z.min size INT_MAX in
        if offset <? 0 then ret (- EINVAL, [], false)
        else
          (if afp_server_is_apple cf then flush_dirty_forks_for_file p else ret tt) ;;!
          if quantum cf =? 0 then ret (- EIO, [], false)
          else if afp2 then
            if offset >? AFP_MAX_AFP2_FILESIZE then
              let! r := afp2_fork_reaches p offset in
              ret (if r <? 0 then (r, [], false)
                   else if r =? 0 then (0, [], true) else (- EOVERFLOW, [], false))
            else read_locked (fi_forkid f) offset (Z.min size (AFP_MAX_AFP2_FILESIZE - offset + 1))
          else read_locked (fi_forkid f) offset size
  end.

(** ** Write *)

(** The loop over the quanta: the errno, 0 for none, and the bytes written. *)
Fixpoint write_loop (fuel : nat) (fp forkid offset : Z) (data : list Z) (done : Z) : M E (option (Z * Z)) :=
  if done <? zlen data then
    match fuel with
    | O => ret None
    | S fuel =>
        let sizetowrite := if zlen data - done <? quantum cf then zlen data - done else quantum cf in
        let chunk := sub done sizetowrite data in
        if sizetowrite =? 0 then ret (Some (EIO, done))
        else
          let! r := if afp2 then call (WriteFork false forkid (u32 (offset + done)) chunk)
                    else call (WriteFork true forkid (u64 (offset + done)) chunk) in
          let (rc, reply_offset) := r : Z * Z in
          if rc =? kFPAccessDenied then ret (Some (EACCES, done))
          else if rc =? kFPDiskFull then ret (Some (ENOSPC, done))
          else if rc =? kFPLockErr then ret (Some (EBUSY, done))
          else if negb (rc =? kFPNoErr) then ret (Some (EIO, done))
          else
            let write_offset := u64 (offset + done) in
            if reply_offset <? write_offset then ret (Some (EIO, done))
            else
              let written := reply_offset - write_offset in
              if (written =? 0) || (written >? sizetowrite) then ret (Some (EIO, done))
              else
                update_fork (set_fi_dirty true) fp ;;!
                write_loop fuel fp forkid offset data (done + written)
    end
  else ret (Some (0, done)).

(** The answer and the bytes written. *)
Definition ll_write (data : list Z) (offset : Z) (fp : option Z) : M E (Z * Z) :=
  let size := zlen data in
  match fp with
  | None => ret (- EBADF, 0)
  | Some p =>
      let! f := get (fork_at p) in
      if fi_forkid f =? 0 then ret (- EIO, 0)
      else if quantum cf =? 0 then ret (- EIO, 0)
      else if afp2 && (u64 (offset + size) >? AFP_MAX_AFP2_FILESIZE) then ret (- EFBIG, 0)
      else
        let! l := ll_handle_locking (fi_forkid f) offset size in
        if negb (l =? 0) then ret (- EBUSY, 0)
        else
          let! r := write_loop (length data) p (fi_forkid f) offset data 0 in
          match r with
          | Some (err, done) =>
              if err =? 0 then
                let! u := ll_handle_unlocking (fi_forkid f) offset size in
                if negb (u =? 0) then ll_handle_unlocking (fi_forkid f) offset size ;;! ret (- EIO, done)
                else ret (0, done)
              else ll_handle_unlocking (fi_forkid f) offset size ;;! ret (- err, done)
          | None => ret (- EIO, 0)
          end
  end.

(** ** Directories *)

Definition supports_unix : bool := has (extra_flags cf) VOLUME_EXTRA_FLAGS_VOL_SUPPORTS_UNIX.

Definition bits (l : list Z) : Z := foldr Z.lor 0 l.

(** The bitmaps of a listing, files' and folders'. *)
Definition readdir_bitmaps (resource : bool) : Z * Z :=
  let common := bits [kFPAttributeBit; kFPParentDirIDBit; kFPCreateDateBit; kFPModDateBit; kFPNodeIDBit] in
  let privs := if supports_unix then kFPUnixPrivsBit else 0 in
  let name := if has (vol_attributes cf) kSupportsUTF8Names then kFPUTF8NameBit
              else Z.lor kFPLongNameBit kFPShortNameBit in
  (bits [common; privs; name; fork_length_bit resource],
   bits [common; kFPOffspringCountBit; kFPOwnerIDBit; kFPGroupIDBit; privs; name]).

(** The page request of the version. *)
Definition enumerate (dirid filebitmap dirbitmap startindex : Z) (basename : list Z) (l : afp_listing)
    : M E (Z * afp_listing) :=
  if afp2 then call (Enumerate Enumerate16 dirid filebitmap dirbitmap 256 (u16 startindex) basename l)
  else if av_number cf =? 30
  then call (Enumerate EnumerateExt dirid filebitmap dirbitmap 256 (u16 startindex) basename l)
  else call (Enumerate EnumerateExt2 dirid filebitmap dirbitmap INT16_MAX startindex basename l).

(** The loop over the pages: the errno, 0 for none, and the listing. [None] is
    the end of the fuel. *)
Fixpoint readdir_loop (fuel : nat) (path basename : list Z) (filebitmap dirbitmap dirid startindex : Z)
    (resolved : bool) (l : afp_listing) : M E (option (Z * afp_listing)) :=
  match fuel with
  | O => ret None
  | S fuel =>
      let! r := enumerate dirid filebitmap dirbitmap startindex basename l in
      let (rc, l') := r : Z * afp_listing in
      if (rc =? 0) || (rc =? kFPObjectNotFound) then
        let startindex := startindex + (count l' - count l) in
        if (count l' =? count l) || (rc =? kFPObjectNotFound) then ret (Some (0, l'))
        else if (startindex >? UINT16_MAX) && (av_number cf <=? 30) then ret (Some (EOVERFLOW, l'))
        else readdir_loop fuel path basename filebitmap dirbitmap dirid startindex resolved l'
      else if rc =? kFPAccessDenied then ret (Some (EACCES, l'))
      else if rc =? kFPDirNotFound then
        if resolved then ret (Some (ENOENT, l'))
        else
          remove_did_lineage path ;;!
          let! g := get_dirid cf path in
          match g with
          | (0, b, Some newdid) =>
              if negb (newdid =? dirid)
              then readdir_loop fuel path (default basename b) filebitmap dirbitmap newdid 1 true
                     (Listing [] 0 (capacity l') [] 0 (pool_cap l'))
              else ret (Some (ENOENT, l'))
          | _ => ret (Some (ENOENT, l'))
          end
      else ret (Some (EIO, l'))
  end.

Definition invalid_name (path : list Z) : bool :=
  invalid_filename (path_encoding cf) (Some (av_number cf)) (Some path).

(** [pages] bounds the pages asked for; [None] when they do not suffice. *)
Definition ll_readdir (pages : nat) (path : list Z) (l : afp_listing) (resource : bool)
    : M E (option (Z * afp_listing)) :=
  if invalid_name path then ret (Some (- ENAMETOOLONG, empty_listing))
  else
    let! g := get_dirid cf path in
    match g with
    | (r, Some basename, Some dirid) =>
        if r <? 0 then ret (Some (- ENOENT, empty_listing))
        else
          let (filebitmap, dirbitmap) := readdir_bitmaps resource in
          let! o := readdir_loop pages path basename filebitmap dirbitmap dirid 1 false l in
          match o with
          | None => ret None
          | Some (err, l') =>
              if negb (err =? 0) then ret (Some (- err, empty_listing))
              else
                let l' := afp_listing_drop_unnamed l' in
                match entries l' with
                | [] => remove_did_subtree path ;;! ret (Some (0, l'))
                | e0 :: _ =>
                    check_did_entry path (if has (valid e0) kFPParentDirIDBit then parent_did e0 else 0) (Some l') ;;!
                    ret (Some (0, l'))
                end
          end
    | _ => ret (Some (- ENOENT, empty_listing))
    end.

(** ** Attributes *)

Definition getattr_bitmaps (resource : bool) : Z * Z :=
  let dir := bits [kFPAttributeBit; kFPCreateDateBit; kFPModDateBit; kFPNodeIDBit; kFPParentDirIDBit;
                   kFPOffspringCountBit] in
  let file := bits [kFPAttributeBit; kFPCreateDateBit; kFPModDateBit; kFPNodeIDBit; kFPFinderInfoBit;
                    kFPParentDirIDBit; fork_length_bit resource] in
  if supports_unix then (Z.lor file kFPUnixPrivsBit, Z.lor dir kFPUnixPrivsBit)
  else (file, bits [dir; kFPOwnerIDBit; kFPGroupIDBit]).

Definition is_root (path : list Z) : bool := list_eqb path [ch_slash].

(** The root shows the time of the mount. *)
Definition root_dates (path : list Z) (e : afp_dirent) : afp_dirent :=
  if is_root path && negb (isdir e =? 0) then
    let t := afp_ns_from_sec (mount_time cf) in
    set_mod_ns kFPModDateBit t (set_create_ns kFPCreateDateBit t e)
  else e.

Definition ll_getattr (path : list Z) (resource : bool) : M E (Z * stat) :=
  if invalid_name path then ret (- ENAMETOOLONG, zero_stat)
  else
    let! g := get_dirid cf path in
    match g with
    | (r, Some basename, Some dirid) =>
        if r <? 0 then ret (- ENOENT, zero_stat)
        else
          let (filebitmap, dirbitmap) := getattr_bitmaps resource in
          let (basename, dirid) :=
            if afp2 && is_root path
            then (take (Z.to_nat (AFPC_MAX_NAME_BYTES - 1)) (until_nul (volume_name cf)), 1)
            else (basename, dirid) in
          let! a := call (GetFileDirParms dirid filebitmap dirbitmap basename) in
          let (rc, e) := a : Z * afp_dirent in
          if rc =? kFPAccessDenied then ret (- EACCES, zero_stat)
          else if rc =? kFPObjectNotFound then ret (- ENOENT, zero_stat)
          else if negb (rc =? kFPNoErr) then ret (- EIO, zero_stat)
          else
            (if negb (isdir e =? 0) && has (valid e) kFPNodeIDBit
             then check_did_entry path (cnid e) None else ret tt) ;;!
            let e := set_kind_size (if resource then AFP_META_RESOURCE else AFP_META_NONE) (d_size e) e in
            ret (afp_dirent_to_stat (vol_identity cf) (root_dates path e))
    | _ => ret (- ENOENT, zero_stat)
    end.

End LowLevel.
