(* ===== verification/Quiet.v ===== *)
(** The operations that change nothing on the server's volume: lookups, locks,
    flushes, reads and listings keep every property that only a changing
    request can break ([Quiet] of World). *)
From stdpp Require Import gmap.
From S2P Require Import Prelude AfpProtocol Listing World DidCache Identify ForkList LowLevel.

Section Quietly.
Context {E : Type} {HE : Env E} (cf : config) (P : volume * E -> Prop) {HP : Quiet P}.

Lemma forget_did_paths_quiet path b : keeps P (forget_did_paths path b).
Proof. unfold forget_did_paths. keep. Qed.

Lemma forget_taken_quiet l : keeps P (forget_taken l).
Proof. unfold forget_taken. keep. Qed.

Lemma index_folders_quiet l : keeps P (index_folders l).
Proof. unfold index_folders. keep. Qed.

#[local] Hint Resolve forget_did_paths_quiet forget_taken_quiet index_folders_quiet : keeps.

Lemma remove_did_lineage_quiet path : keeps P (remove_did_lineage path).
Proof. unfold remove_did_lineage. keep. Qed.

Lemma remove_did_subtree_quiet path : keeps P (remove_did_subtree path).
Proof. unfold remove_did_subtree. keep. Qed.

Lemma check_did_entry_quiet path d l : keeps P (check_did_entry path d l).
Proof. unfold check_did_entry. keep. Qed.

Lemma add_did_cache_entry_quiet par d path name : keeps P (add_did_cache_entry cf par d path name).
Proof. unfold add_did_cache_entry. keep. Qed.

Lemma find_dirid_quiet path : keeps P (find_dirid_by_fullname path).
Proof. unfold find_dirid_by_fullname. keep. Qed.

#[local] Hint Resolve remove_did_lineage_quiet check_did_entry_quiet add_did_cache_entry_quiet find_dirid_quiet : keeps.

Lemma known_parent_quiet fuel : forall path d, keeps P (known_parent_loop fuel path d).
Proof. induction fuel; cbn [known_parent_loop]; keep. Qed.

Lemma walk_loop_quiet fuel : forall path c k d, keeps P (walk_loop cf fuel path c k d).
Proof. induction fuel; cbn [walk_loop]; keep. Qed.

#[local] Hint Resolve known_parent_quiet walk_loop_quiet : keeps.

Lemma get_dirid_quiet path : keeps P (get_dirid cf path).
Proof. unfold get_dirid, get_dirid_run. keep. Qed.

Lemma update_fork_quiet f p : keeps P (update_fork f p).
Proof. unfold update_fork. keep. Qed.

#[local] Hint Resolve update_fork_quiet : keeps.

Lemma collect_dirty_quiet fp ps : forall r c, keeps P (collect_dirty fp ps r c).
Proof. induction ps; cbn [collect_dirty]; keep. Qed.

Lemma flush_records_quiet rs : keeps P (flush_records rs).
Proof. induction rs; cbn [flush_records]; keep. Qed.

#[local] Hint Resolve collect_dirty_quiet flush_records_quiet : keeps.

Lemma flush_dirty_forks_quiet fp : keeps P (flush_dirty_forks_for_file fp).
Proof. unfold flush_dirty_forks_for_file. keep. Qed.

Lemma ml_fsync_quiet fp : keeps P (ml_fsync cf fp).
Proof. unfold ml_fsync. keep. Qed.

#[local] Hint Resolve ml_fsync_quiet : keeps.

Lemma ml_close_flush_quiet fp : keeps P (ml_close_flush cf fp).
Proof. unfold ml_close_flush. keep. Qed.

Lemma lock_request_quiet flag f off n : keeps P (lock_request cf flag f off n).
Proof. unfold lock_request. keep. Qed.

#[local] Hint Resolve lock_request_quiet : keeps.

Lemma ll_handle_unlocking_quiet f off n : keeps P (ll_handle_unlocking cf f off n).
Proof. unfold ll_handle_unlocking. keep. Qed.

Lemma lock_loop_quiet t f off n : keeps P (lock_loop cf t f off n).
Proof. induction t; cbn [lock_loop]; keep. Qed.

#[local] Hint Resolve lock_loop_quiet : keeps.

Lemma ll_handle_locking_quiet f off n : keeps P (ll_handle_locking cf f off n).
Proof. unfold ll_handle_locking. keep. Qed.

#[local] Hint Resolve ll_handle_locking_quiet ll_handle_unlocking_quiet flush_dirty_forks_quiet get_dirid_quiet
  remove_did_subtree_quiet : keeps.

Lemma read_loop_quiet fuel : forall f off n got, keeps P (read_loop cf fuel f off n got).
Proof. induction fuel; cbn [read_loop]; keep. Qed.

#[local] Hint Resolve read_loop_quiet : keeps.

Lemma ll_read_quiet n off fp : keeps P (ll_read cf n off fp).
Proof. unfold ll_read, afp2_fork_reaches, read_locked. keep. Qed.

Lemma readdir_loop_quiet fuel : forall path b fb db d i r l, keeps P (readdir_loop cf fuel path b fb db d i r l).
Proof. induction fuel; cbn [readdir_loop]; unfold enumerate; keep. Qed.

#[local] Hint Resolve readdir_loop_quiet : keeps.

Lemma ll_readdir_quiet pages path l r : keeps P (ll_readdir cf pages path l r).
Proof. unfold ll_readdir. keep. Qed.

Lemma ll_getattr_quiet path r : keeps P (ll_getattr cf path r).
Proof. unfold ll_getattr. keep. Qed.

End Quietly.

#[export] Hint Resolve forget_did_paths_quiet remove_did_lineage_quiet remove_did_subtree_quiet check_did_entry_quiet
  get_dirid_quiet update_fork_quiet flush_dirty_forks_quiet ml_fsync_quiet ml_close_flush_quiet
  ll_handle_unlocking_quiet ll_handle_locking_quiet ll_read_quiet ll_readdir_quiet ll_getattr_quiet
  read_loop_quiet find_dirid_quiet add_did_cache_entry_quiet : keeps.
