(* ===== verification/Resource.v ===== *)
(** The .AppleDouble view of a volume (lib/resource.c): the pseudo-files that
    show a file's resource fork, Finder information and comment. *)
From stdpp Require Import gmap.
From S2P Require Import Prelude AfpProtocol Codepage ReplyBlock Listing World DidCache Identify DsiQueue ForkList LowLevel.

Definition appledouble : list Z := str ".AppleDouble".
Definition finderinfo_string : list Z := str ".finderinfo".
Definition comment_string : list Z := str ".comment".
Definition AFP_COMMENT_MAX : Z := 199.
Definition servericon_string : list Z := str "/.servericon".
Definition ML_SYMLINK_FINDERINFO : list Z := str "slnkrhap".

Definition S_IFLNK : Z := 0xA000.
Definition S_ISLNK (m : Z) : bool := Z.land m S_IFMT =? S_IFLNK.
Definition S_ISREG (m : Z) : bool := Z.land m S_IFMT =? S_IFREG.

(** ** Names of the view *)

(** The first whole component .AppleDouble that something follows: its offset.
    [prev] is the byte before. *)
Fixpoint view_component (prev : option Z) (i : Z) (s : list Z) : option Z :=
  match s with
  | [] => None
  | c :: r =>
      if starts s appledouble && bool_decide (prev = Some ch_slash) && (byte_at s (zlen appledouble) =? ch_slash)
      then Some i else view_component (Some c) (i + 1) r
  end.

Definition ends_with (suffix s : list Z) : bool :=
  (zlen s >? zlen suffix) && list_eqb (drop (Z.to_nat (zlen s - zlen suffix)) s) suffix.

Definition cut_suffix (suffix s : list Z) : list Z := take (Z.to_nat (zlen s - zlen suffix)) s.

(** A name after the view's folder: the kind, and the file's path. *)
Definition pseudo_kind (newpath : list Z) : Z * list Z :=
  if ends_with finderinfo_string newpath then (AFP_META_FINDERINFO, cut_suffix finderinfo_string newpath)
  else if ends_with comment_string newpath then (AFP_META_COMMENT, cut_suffix comment_string newpath)
  else (AFP_META_RESOURCE, newpath).

Definition names_pseudo_file (name : list Z) : bool :=
  let tail s := (zlen name >=? zlen s) && list_eqb (drop (Z.to_nat (zlen name - zlen s)) name) s in
  tail finderinfo_string || tail comment_string.

(** Whether a change can carry the time read (ml_carries_time, lib/midlevel.c). *)
Definition ml_carries_time (e : afp_dirent) : bool :=
  has (valid e) kFPModDateBit && (mod_ns e >=? 0) && negb (S_ISLNK (up_permissions e))
  && negb (list_eqb (take 8 (finderinfo e)) ML_SYMLINK_FINDERINFO).

Section Resource.
Context {E : Type} `{Env E} (cf : config).

Definition shows_appledouble : bool := has (extra_flags cf) VOLUME_EXTRA_FLAGS_SHOW_APPLEDOUBLE.

(** The kind, 0 for none, or -ENOMEM; and the path the pseudo-file stands for. *)
Definition extra_translate (path : list Z) : M E (Z * list Z) :=
  if negb shows_appledouble then ret (0, [])
  else if list_eqb path servericon_string then ret (AFP_META_SERVER_ICON, [])
  else if zlen path <? zlen appledouble + 1 then ret (0, [])
  else
    match strrchr path ch_slash with
    | None => ret (0, [])
    | Some slash =>
        if list_eqb (drop (Z.to_nat (slash + 1)) path) appledouble then
          let! ok := call (Malloc (zlen path)) in
          if negb ok then ret (- ENOMEM, [])
          else ret (AFP_META_APPLEDOUBLE,
                    if zlen path =? zlen appledouble + 1 then [ch_slash]
                    else take (Z.to_nat (zlen path - (zlen appledouble + 1))) path)
        else
          match view_component None 0 path with
          | None => ret (0, [])
          | Some component =>
              let rest := drop (Z.to_nat (component + zlen appledouble + 1)) path in
              let! ok := call (Malloc (component + zlen rest + 1)) in
              if negb ok then ret (- ENOMEM, [])
              else ret (pseudo_kind (take (Z.to_nat component) path ++ rest))
          end
    end.

Definition appledouble_shadows (dir name : list Z) : bool :=
  shows_appledouble
  && (list_eqb name appledouble || (list_eqb dir [ch_slash] && list_eqb name (drop 1 servericon_string))).

(** ** Comments *)

Definition ensure_dt_opened : M E Z :=
  let! ref := get dtrefnum in
  let! none := get no_desktop in
  if ref >? 0 then ret 0
  else if none : bool then ret (- ENOENT)
  else
    let! r := call OpenDT in
    let (rc, refnum) := r : Z * Z in
    (if rc =? kFPNoErr then modify (set_dt refnum none) else ret tt) ;;!
    if rc =? kFPCallNotSupported then
      modify (fun v => set_dt (dtrefnum v) true v) ;;! ret (- ENOENT)
    else ret (if rc =? kFPNoErr then 0 else - EIO).

(** The length or the errno, and the bytes; [size] is the caller's buffer, or
    none. *)
Definition read_comment (basename : list Z) (d : Z) (size : option Z) : M E (Z * list Z) :=
  let! r := ensure_dt_opened in
  if negb (r =? 0) then ret (r, [])
  else
    let! a := call (GetComment d basename) in
    let (rc, comment) := a : Z * list Z in
    if (rc =? kFPNoErr) || (rc =? kFPItemNotFound) then
      let comment := if rc =? kFPNoErr then comment else [] in
      ret (match size with
           | Some n => let n := Z.min n (zlen comment) in (n, take (Z.to_nat n) comment)
           | None => (zlen comment, [])
           end)
    else if rc =? kFPAccessDenied then ret (- EACCES, [])
    else if rc =? kFPObjectNotFound then ret (- ENOENT, [])
    else ret (- EIO, []).

Definition set_comment_length (basename : list Z) (d length : Z) : M E Z :=
  if length <? 0 then ret (- EINVAL)
  else if length >? AFP_COMMENT_MAX then ret (- EFBIG)
  else
    let! r := ensure_dt_opened in
    if negb (r =? 0) then ret r
    else
      let! c := if length >? 0 then read_comment basename d (Some AFP_COMMENT_MAX) else ret (0, []) in
      let (len, comment) := c : Z * list Z in
      if len <? 0 then ret len
      else
        let! rc := call (AddComment d basename (take (Z.to_nat length) (comment ++ zero_bytes (length - len)))) in
        ret (- ll_answer_errno rc).

(** ** Refusals *)

Definition appledouble_creat (path : list Z) : M E Z :=
  let! t := extra_translate path in
  let (resource, _) := t : Z * list Z in
  ret (if resource <? 0 then resource
       else if (resource =? AFP_META_RESOURCE) || (resource =? AFP_META_FINDERINFO) || (resource =? AFP_META_COMMENT)
       then 1
       else if resource =? AFP_META_APPLEDOUBLE then - EBADF
       else if resource =? AFP_META_SERVER_ICON then - EPERM
       else 0).

(** appledouble_setattr, _unlink, _mkdir, _readlink, _rmdir, _symlink and
    _rename: -EPERM for a pseudo-file. *)
Definition appledouble_setattr (path : list Z) : M E Z :=
  let! t := extra_translate path in
  let (resource, _) := t : Z * list Z in
  ret (if resource <=? 0 then resource else - EPERM).
Definition appledouble_unlink (path : list Z) : M E Z := appledouble_setattr path.
Definition appledouble_mkdir (path : list Z) : M E Z := appledouble_setattr path.
Definition appledouble_readlink (path : list Z) : M E Z := appledouble_setattr path.
Definition appledouble_rmdir (path : list Z) : M E Z := appledouble_setattr path.
Definition appledouble_symlink (path1 path2 : list Z) : M E Z := appledouble_setattr path2.
Definition appledouble_rename (path_from path_to : list Z) : M E Z := appledouble_setattr path_to.

(** ** Close *)

Definition appledouble_close (fp : Z) : M E Z :=
  let! f := get (fork_at fp) in
  if fi_resource f =? AFP_META_RESOURCE then
    let! r := ml_close_flush cf fp in
    let! f := get (fork_at fp) in
    let! r := if (r =? 0) && fi_dirty f && afp_server_is_apple cf then
                let! rc := call (FlushFork (fi_forkid f) DSI_DEFAULT_TIMEOUT) in
                ret (if rc =? kFPNoErr then r else - EIO)
              else ret r in
    let! rc := call (CloseFork (fi_forkid f)) in
    remove_opened_fork fp ;;!
    ret (if rc =? kFPNoErr then r else - EIO)
  else ret (if fi_resource f =? AFP_META_APPLEDOUBLE then - EBADF else 0).

(** ** Write and read *)

(** [size] bytes at [offset] of [base], which keeps the others. *)
Definition overlay (base : list Z) (offset : Z) (data : list Z) : list Z :=
  take (Z.to_nat offset) (base ++ zero_bytes (offset - zlen base)) ++ data
  ++ drop (Z.to_nat (offset + zlen data)) base.

(** 1 for a pseudo-file's, 0 for a data fork or an errno; and the bytes
    written. *)
Definition appledouble_write (fp : Z) (data : list Z) (offset : Z) : M E (Z * Z) :=
  let size := zlen data in
  let! f := get (fork_at fp) in
  if fi_resource f =? AFP_META_RESOURCE then
    let! r := ll_write cf data offset (Some fp) in
    let (r, written) := r : Z * Z in
    ret (if r <? 0 then r else 1, written)
  else if fi_resource f =? AFP_META_APPLEDOUBLE then ret (- EBADF, 0)
  else if fi_resource f =? AFP_META_FINDERINFO then
    if (offset <? 0) || (offset >=? 32) then ret (- EINVAL, 0)
    else
      let towrite := if size >? 32 - offset then 32 - offset else size in
      let bitmap := bits [kFPFinderInfoBit; kFPModDateBit; if supports_unix cf then kFPUnixPrivsBit else 0] in
      let! r := call (GetFileDirParms (fi_did f) bitmap bitmap (fi_basename f)) in
      let (rc, fp2) := r : Z * afp_dirent in
      if negb (rc =? kFPNoErr) then ret (- ll_answer_errno rc, 0)
      else
        let keeps_time := ml_carries_time fp2 in
        let info := overlay (finderinfo fp2) offset (take (Z.to_nat towrite) data) in
        let keeps_time := keeps_time && negb (list_eqb (take 8 info) ML_SYMLINK_FINDERINFO) in
        let! rc := call (SetFileDirParms (fi_did f) (fi_basename f)
                           (Z.lor kFPFinderInfoBit (if keeps_time then kFPModDateBit else 0))
                           (set_finderinfo 0 info fp2)) in
        ret (if negb (rc =? kFPNoErr) then (- ll_answer_errno rc, 0) else (1, towrite))
  else if fi_resource f =? AFP_META_COMMENT then
    if offset <? 0 then ret (- EINVAL, 0)
    else if offset >=? AFP_COMMENT_MAX then ret (- EFBIG, 0)
    else if size =? 0 then ret (1, 0)
    else
      let! c := read_comment (fi_basename f) (fi_did f) (Some AFP_COMMENT_MAX) in
      let (len, comment) := c : Z * list Z in
      if len <? 0 then ret (len, 0)
      else
        let towrite := Z.min size (AFP_COMMENT_MAX - offset) in
        let! rc := call (AddComment (fi_did f) (fi_basename f)
                           (overlay comment offset (take (Z.to_nat towrite) data))) in
        ret (if negb (rc =? kFPNoErr) then (- ll_answer_errno rc, 0) else (1, towrite))
  else if fi_resource f =? AFP_META_SERVER_ICON then ret (- EPERM, 0)
  else ret (0, 0).

(** 1 for a pseudo-file's, 0 for another file or an errno; the bytes, and the
    end's mark. *)
Definition appledouble_read (fp size offset : Z) : M E (Z * list Z * bool) :=
  let! f := get (fork_at fp) in
  if fi_resource f =? AFP_META_RESOURCE then
    let! r := ll_read cf size offset (Some fp) in
    let '(n, got, eof) := r : read_result in
    ret (if n <? 0 then (n, [], eof) else (1, got, eof))
  else if fi_resource f =? AFP_META_APPLEDOUBLE then ret (- EBADF, [], false)
  else if fi_resource f =? AFP_META_FINDERINFO then
    if (offset <? 0) || (offset >? 32) then ret (- EFAULT, [], false)
    else
      let! r := call (GetFileDirParms (fi_did f) kFPFinderInfoBit kFPFinderInfoBit (fi_basename f)) in
      let (rc, info) := r : Z * afp_dirent in
      if negb (rc =? kFPNoErr) then ret (- ll_answer_errno rc, [], false)
      else
        let tocopy := Z.min size (32 - offset) in
        ret (1, sub offset tocopy (finderinfo info), offset + tocopy =? 32)
  else if fi_resource f =? AFP_META_COMMENT then
    let! c := read_comment (fi_basename f) (fi_did f) (Some AFP_COMMENT_MAX) in
    let (len, comment) := c : Z * list Z in
    if len <? 0 then ret (len, [], false)
    else if offset <? 0 then ret (- EINVAL, [], false)
    else
      let tocopy := if offset <? len then Z.min size (len - offset) else 0 in
      ret (1, sub offset tocopy comment, offset + tocopy >=? len)
  else if fi_resource f =? AFP_META_SERVER_ICON then
    if (offset <? 0) || (offset >? AFP_SERVER_ICON_LEN) then ret (- EFAULT, [], false)
    else
      let tocopy := Z.min size (AFP_SERVER_ICON_LEN - offset) in
      ret (1, sub offset tocopy (icon cf), true)
  else ret (0, [], false).

(** ** Open, length, attributes *)

Definition appledouble_ftruncate (fp offset : Z) : M E Z :=
  let! f := get (fork_at fp) in
  if fi_resource f =? AFP_META_FINDERINFO then ret 1
  else if fi_resource f =? AFP_META_COMMENT then
    let! r := set_comment_length (fi_basename f) (fi_did f) offset in
    ret (if r <? 0 then r else 1)
  else if fi_resource f =? AFP_META_SERVER_ICON then ret (- EPERM)
  else ret 0.

(** get_dirid into a record: the name and, on success, the directory. *)
Definition place_fork (fp : Z) (path : list Z) : M E Z :=
  let! g := get_dirid cf path in
  let '(r, b, d) := g : Z * option (list Z) * option Z in
  update_fork (fun f => set_fi_name (default (fi_did f) d) (default (fi_basename f) b) f) fp ;;! ret r.

Definition appledouble_open (path : list Z) (flags fp : Z) : M E Z :=
  let! t := extra_translate path in
  let (resource, newpath) := t : Z * list Z in
  if resource <? 0 then ret resource
  else
    update_fork (set_fi_resource resource) fp ;;!
    if resource =? AFP_META_RESOURCE then
      let! r := place_fork fp newpath in
      if r <? 0 then ret r
      else
        let! r := ll_open cf flags fp in
        ret (if r <? 0 then r else 1)
    else if resource =? AFP_META_APPLEDOUBLE then ret (- EISDIR)
    else if resource =? AFP_META_FINDERINFO then
      let! r := place_fork fp newpath in
      ret (if r <? 0 then r else 1)
    else if resource =? AFP_META_COMMENT then
      let! r := place_fork fp newpath in
      if r <? 0 then ret r
      else
        let! r := ensure_dt_opened in
        if negb (r =? 0) then ret r
        else if has flags O_TRUNC then
          let! f := get (fork_at fp) in
          let! r := set_comment_length (fi_basename f) (fi_did f) 0 in
          ret (if r <? 0 then r else 1)
        else ret 1
    else if resource =? AFP_META_SERVER_ICON then
      ret (if Z.land flags (Z.lor O_ACCMODE O_TRUNC) =? O_RDONLY then 1 else - EPERM)
    else ret 0.

(** The record is zeroed first, but for its kind. *)
Definition appledouble_open_meta (path : list Z) (resource flags fp : Z) : M E Z :=
  modify (set_fork fp (set_fi_resource resource null_fork)) ;;!
  if resource =? AFP_META_RESOURCE then
    let! r := place_fork fp path in
    if r <? 0 then ret r else ll_open cf flags fp
  else if resource =? AFP_META_FINDERINFO then place_fork fp path
  else ret (- EINVAL).

Definition set_st_mode (m : Z) (s : stat) : stat :=
  Stat m (st_ino s) (st_uid s) (st_gid s) (st_nlink s) (st_size s) (st_blocks s) (st_blksize s) (st_ctim s) (st_mtim s).

(** [stbuf] is the caller's, zeroed. *)
Definition appledouble_getattr (path : list Z) (stbuf : stat) : M E (Z * stat) :=
  let! t := extra_translate path in
  let (resource, newpath) := t : Z * list Z in
  if resource <? 0 then ret (resource, stbuf)
  else if resource =? AFP_META_RESOURCE then
    let! r := ll_getattr cf newpath true in
    let (r, s) := r : Z * stat in
    let r := if (r =? 0) && negb (S_ISREG (st_mode s)) then - ENOENT else r in
    ret (if r <? 0 then (r, s) else (1, s))
  else if resource =? AFP_META_APPLEDOUBLE then ret (1, set_st_mode (Z.lor 448 S_IFDIR) stbuf)
  else if resource =? AFP_META_FINDERINFO then
    let! r := ll_getattr cf newpath false in
    let (r, s) := r : Z * stat in
    ret (if r <? 0 then (r, s) else (1, afp_pseudo_file_stat s 32))
  else if resource =? AFP_META_COMMENT then
    let! r := ll_getattr cf newpath false in
    let (r, s) := r : Z * stat in
    if r <? 0 then ret (r, s)
    else
      let! g := get_dirid cf newpath in
      match g with
      | (r, Some basename, Some d) =>
          if r <? 0 then ret (r, s)
          else
            let! c := read_comment basename d None in
            ret (if fst (c : Z * list Z) <? 0 then (fst c, s) else (1, afp_pseudo_file_stat s (fst c)))
      | (r, _, _) => ret (r, s)
      end
  else if resource =? AFP_META_SERVER_ICON then
    ret (1, afp_pseudo_file_stat (set_st_mode 292 stbuf) AFP_SERVER_ICON_LEN)
  else ret (0, stbuf).

(** ** The view's listing *)

(** The loop over the real entries: the answer, the listing with the
    pseudo-files appended, and the entries kept. *)
Fixpoint view_loop (real : list afp_dirent) (l : afp_listing) (kept : list afp_dirent)
    : M E (option (Z * afp_listing * list afp_dirent)) :=
  match real with
  | [] => ret (Some (0, l, kept))
  | e :: next =>
      match afp_listing_append (conv_heap cf) l e finderinfo_string AFP_META_FINDERINFO 32 with
      | None => ret None
      | Some (r, l) =>
          let (c, afp_name) :=
            convert_path_to_afp (conv_heap cf) (path_encoding cf) (afp_dirent_name l e) AFPC_MAX_NAME_BYTES [] in
          let! o := if (r =? 0) && (c =? 0) then
                      let! m := read_comment afp_name (parent_did e) None in
                      ret (if fst (m : Z * list Z) >? 0
                           then afp_listing_append (conv_heap cf) l e comment_string AFP_META_COMMENT (fst m)
                           else Some (r, l))
                    else ret (Some (r, l)) in
          match o with
          | None => ret None
          | Some (r, l) =>
              let kept := if S_ISREG (afp_dirent_mode e) && negb (d_resourcesize e =? 0)
                             && negb (names_pseudo_file (afp_dirent_name l e))
                          then kept ++ [set_kind_size AFP_META_RESOURCE (d_size e) e] else kept in
              if r =? 0 then view_loop next l kept else ret (Some (r, l, kept))
          end
      end
  end.

(** [None]: the fuel of the pages ran out, or a write past an allocation. *)
Definition appledouble_readdir (pages : nat) (path : list Z) (l : afp_listing) : M E (option (Z * afp_listing)) :=
  let! t := extra_translate path in
  let (resource, newpath) := t : Z * list Z in
  if resource <? 0 then ret (Some (resource, l))
  else if resource =? 0 then ret (Some (0, l))
  else if resource =? AFP_META_APPLEDOUBLE then
    let! o := ll_readdir cf pages newpath l true in
    match o with
    | None => ret None
    | Some (r, l) =>
        if r <? 0 then ret (Some (r, l))
        else
          let! v := view_loop (entries l) l [] in
          match v with
          | None => ret None
          | Some (r, l', kept) =>
              if r <? 0 then ret (Some (r, empty_listing))
              else
                let made := drop (length (entries l)) (entries l') in
                ret (Some (1, Listing (kept ++ made) (zlen kept + zlen made) (capacity l') (pool l') (pool_used l')
                               (pool_cap l')))
          end
    end
  else ret (Some (- ENOTDIR, l)).

End Resource.
