(* ===== verification/Midlevel.v ===== *)
(** POSIX operations on a volume (lib/midlevel.c): open, create, list, read,
    write, attributes, removal, links, renames. The copies and the extended
    attributes are in [Xattr]. *)
From stdpp Require Import gmap.
From S2P Require Import Prelude AfpProtocol Path Codepage Dates ReplyBlock Listing World DidCache Identify DsiQueue.
From S2P Require Import ForkList LowLevel Resource.

Definition ML_SET_MODE : Z := 1.
Definition ML_SET_UID : Z := 2.
Definition ML_SET_GID : Z := 4.
Definition ML_SET_MTIME : Z := 8.

Definition S_ISUID : Z := 2048.
Definition S_ISGID : Z := 1024.
Definition S_ISVTX : Z := 512.
Definition S_IRWX : Z := 511.

(** [mode & ~S_IFMT], on 32 bits. *)
Definition perm_bits (mode : Z) : Z := Z.land mode (UINT32_MAX - S_IFMT).

Definition set_ids (uid gid : Z) (e : afp_dirent) : afp_dirent :=
  set_unixprivs 0 uid gid (up_permissions e) (up_ua_permissions e) e.
Definition set_permissions (perm : Z) (e : afp_dirent) : afp_dirent :=
  set_unixprivs 0 (up_uid e) (up_gid e) perm (up_ua_permissions e) e.
Definition clear_valid (bit : Z) (e : afp_dirent) : afp_dirent :=
  Dirent (d_size e) (d_resourcesize e) (create_ns e) (mod_ns e) (Z.ldiff (valid e) bit) (cnid e) (parent_did e)
    (up_uid e) (up_gid e) (up_permissions e) (up_ua_permissions e) (name_off e) (attributes e) (offspring e)
    (isdir e) (kind e) (finderinfo e).

(** The answers of FPSetFileDirParms, FPDelete and FPCreateDir as errno. *)
Definition set_errno (bitmap rc : Z) : Z :=
  if rc =? kFPNoErr then 0
  else if rc =? kFPAccessDenied
  then (if has bitmap (bits [kFPUnixPrivsBit; kFPOwnerIDBit; kFPGroupIDBit]) then - EPERM else - EACCES)
  else if rc =? kFPBitmapErr then - ENOSYS
  else if rc =? kFPObjectNotFound then - ENOENT
  else if rc =? kFPVolLocked then - EROFS
  else - EIO.

Definition delete_errno (rc : Z) : Z :=
  if rc =? kFPObjectLocked then EPERM
  else if rc =? kFPFileBusy then EBUSY
  else if rc =? kFPDirNotEmpty then ENOTEMPTY
  else ll_answer_errno rc.

Definition mkdir_errno (rc : Z) : Z :=
  if rc =? kFPDiskFull then ENOSPC
  else if rc =? kFPObjectExists then EEXIST
  else if rc =? kFPFlatVol then EPERM
  else ll_answer_errno rc.

Section Midlevel.
Context {E : Type} `{Env E} (cf : config).

(** ** Records *)

Definition sizeof_afp_file_info : Z := 1056.

(** A new record's address, past every other's. *)
Definition new_addr (v : volume) : Z := 1 + map_fold (fun k _ m => Z.max k m) 0 (forks v).

Definition alloc_fork : M E Z :=
  let! p := get new_addr in modify (set_fork p null_fork) ;;! ret p.
Definition free_fork (p : Z) : M E unit := modify (fun v => set_forks (delete p (forks v)) v).

(** ** Paths *)

Definition convert_path_to_afp_alloc (path : list Z) : M E (res (list Z)) :=
  match afpc_path_validate (Some path) AFPC_MAX_UTF8_PATH_BYTES with
  | Err e => ret (Err e)
  | Ok len =>
      let converted_len := len * 4 + 1 in
      let! ok := call (Malloc converted_len) in
      if negb ok then ret (Err (- ENOMEM))
      else
        let (r, converted) := convert_path_to_afp (conv_heap cf) (path_encoding cf) path converted_len [] in
        ret (if negb (r =? 0) then Err (- EINVAL)
             else if strnlen converted converted_len >? AFPC_MAX_UTF8_PATH_BYTES then Err (- ENAMETOOLONG)
             else Ok converted)
  end.

(** The name and the directory of a path, or get_dirid's errno. *)
Definition lookup_dirid (path : list Z) : M E (res (list Z * Z)) :=
  let! g := get_dirid cf path in
  ret (match g with
       | (0, Some basename, Some d) => Ok (basename, d)
       | (r, _, _) => Err r
       end).

(** ** Parameters *)

Definition get_parameters (d : Z) (basename : list Z) (bitmap : Z) : M E (Z * afp_dirent) :=
  let! r := call (GetFileDirParms d bitmap bitmap basename) in
  let (rc, e) := r : Z * afp_dirent in ret (- ll_answer_errno rc, e).

Definition is_dir (d : Z) (basename : list Z) : M E Z :=
  let! r := get_parameters d basename 0 in
  let (r, e) := r : Z * afp_dirent in
  ret (if negb (r =? 0) then r else if isdir e =? 0 then 0 else 1).

Definition set_parameters (d : Z) (basename : list Z) (bitmap : Z) (e : afp_dirent) : M E Z :=
  let! rc := if has bitmap (Z.lor kFPOwnerIDBit kFPGroupIDBit)
             then call (SetDirParms d basename bitmap e)
             else call (SetFileDirParms d basename bitmap e) in
  ret (set_errno bitmap rc).

(** The loop of the source ends after its first round, which gives the record
    the ids asked for. *)
Definition set_owner (d : Z) (basename : list Z) (fp : afp_dirent) (mode uid gid : Z) : M E Z :=
  let was_uid := up_uid fp in
  let was_gid := up_gid fp in
  let dir := negb (isdir fp =? 0) in
  if (was_uid =? uid) && (was_gid =? gid) then ret 0
  else if negb dir && has mode (Z.lor S_ISUID S_ISGID) then ret (- EPERM)
  else if dir && afp_server_gives_directory_ids_to_files cf then ret (- EPERM)
  else
    let bitmap := if negb dir then Z.lor kFPUnixPrivsBit (Z.land (valid fp) kFPModDateBit)
                  else Z.lor (if was_uid =? uid then 0 else kFPOwnerIDBit) (if was_gid =? gid then 0 else kFPGroupIDBit) in
    let fp := set_ids uid gid fp in
    let sent := if negb dir && afp_server_keeps_unset_ids cf
                then set_ids (if uid =? was_uid then UINT32_MAX else uid) (if gid =? was_gid then UINT32_MAX else gid) fp
                else fp in
    let! r := set_parameters d basename bitmap sent in
    if negb (r =? 0) then ret r
    else
      let! c := get_parameters d basename kFPUnixPrivsBit in
      let (r, check) := c : Z * afp_dirent in
      ret (if negb (r =? 0) then r
           else if (negb (uid =? was_uid) && negb (up_uid check =? uid))
                   || (negb (gid =? was_gid) && negb (up_gid check =? gid))
           then - EPERM else 0).

(** ** Open, create, list *)

Definition write_flags : Z := bits [O_WRONLY; O_RDWR; O_TRUNC; O_APPEND; O_CREAT].

(** The errno, or 0 and the record. *)
Definition ml_open (path : list Z) (flags : Z) : M E (Z * option Z) :=
  let! c := convert_path_to_afp_alloc path in
  match c with
  | Err r => ret (r, None)
  | Ok converted =>
      if invalid_name cf converted then ret (- ENAMETOOLONG, None)
      else if volume_is_readonly cf && has flags write_flags then ret (- EROFS, None)
      else
        let! ok := call (Malloc sizeof_afp_file_info) in
        if negb ok then ret (- ENOMEM, None)
        else
          let! fp := alloc_fork in
          let! r := appledouble_open cf converted flags fp in
          if r <? 0 then free_fork fp ;;! ret (r, None)
          else if r =? 1 then ret (0, Some fp)
          else
            let! r := place_fork cf fp converted in
            if negb (r =? 0) then free_fork fp ;;! ret (r, None)
            else
              let! r := ll_open cf flags fp in
              if r <? 0 then free_fork fp ;;! ret (r, None) else ret (0, Some fp)
  end.

(** The answer, and whether this call made the file. *)
Definition ml_creat (path : list Z) : M E (Z * bool) :=
  let! c := convert_path_to_afp_alloc path in
  match c with
  | Err r => ret (r, false)
  | Ok converted =>
      if volume_is_readonly cf then ret (- EROFS, false)
      else
        let! r := appledouble_creat cf path in
        if r <? 0 then ret (r, false)
        else if r =? 1 then ret (0, false)
        else if invalid_name cf converted then ret (- ENAMETOOLONG, false)
        else
          let! g := lookup_dirid converted in
          match g with
          | Err r => ret (r, false)
          | Ok (basename, d) => let! r := ll_createfile d basename in ret (r, r =? 0)
          end
  end.

Definition takes_created_mode : bool := supports_unix cf.

Definition set_created_mode (d : Z) (basename : list Z) (mode : Z) : M E unit :=
  if negb takes_created_mode then ret tt
  else
    let! g := if afp_server_keeps_unset_ids cf then ret (0, set_ids UINT32_MAX UINT32_MAX (empty_dirent 0))
              else get_parameters d basename kFPUnixPrivsBit in
    let (r, fp) := g : Z * afp_dirent in
    if r =? 0
    then set_parameters d basename kFPUnixPrivsBit (set_permissions (perm_bits mode) fp) ;;! ret tt
    else ret tt.

Definition ml_set_created_mode (path : list Z) (mode : Z) : M E unit :=
  if negb takes_created_mode then ret tt
  else
    let! c := convert_path_to_afp_alloc path in
    match c with
    | Err _ => ret tt
    | Ok converted =>
        let! g := lookup_dirid converted in
        match g with
        | Err _ => ret tt
        | Ok (basename, d) => set_created_mode d basename mode
        end
    end.

Definition ml_readdir (pages : nat) (path : list Z) (l : afp_listing) : M E (option (Z * afp_listing)) :=
  let! c := convert_path_to_afp_alloc path in
  match c with
  | Err r => ret (Some (r, l))
  | Ok converted =>
      let! o := appledouble_readdir cf pages converted l in
      match o with
      | Some (0, l) => ll_readdir cf pages converted l false
      | Some (r, l) => ret (Some (if r <? 0 then r else 0, l))
      | None => ret None
      end
  end.

(** ** Read and write *)

(** The count or the errno, the bytes, and the end's mark. *)
Definition ml_read (size offset fp : Z) : M E read_result :=
  let! f := get (fork_at fp) in
  if negb (fi_resource f =? 0) then
    let! a := appledouble_read cf fp size offset in
    let '(r, got, eof) := a : Z * list Z * bool in
    if r <? 0 then ret (r, [], eof)
    else if r =? 1 then ret (zlen got, got, eof)
    else ll_read cf size offset (Some fp)
  else ll_read cf size offset (Some fp).

Definition ml_write (data : list Z) (offset fp : Z) : M E Z :=
  if volume_is_readonly cf then ret (- EROFS)
  else
    let! a := appledouble_write cf fp data offset in
    let (r, written) := a : Z * Z in
    if r <? 0 then ret r
    else if r =? 1 then ret written
    else
      let! w := ll_write cf data offset (Some fp) in
      let (r, written) := w : Z * Z in
      if r <? 0 then ret r
      else
        update_fork (fun f => if offset + written >? fi_size f then set_fi_size (offset + written) f else f) fp ;;!
        ret written.

(** ** Attributes *)

(** A change of owner on a volume whose ids are not the server's: whether the
    call asks for what the volume shows. *)
Definition shown_ids_differ (privs uid gid : Z) : bool :=
  match translate_uidgid_to_client (vol_identity cf) 0 0 with
  | None => true
  | Some (shown_uid, shown_gid) =>
      (has privs ML_SET_UID && negb (uid =? shown_uid)) || (has privs ML_SET_GID && negb (gid =? shown_gid))
  end.

(** Whether a mode the server may have kept is read back, as it was and as it
    is now. *)
Definition mode_check (d : Z) (basename : list Z) (fp : afp_dirent) (mode was result : Z) : M E (Z * Z) :=
  let dir := negb (isdir fp =? 0) in
  let shown := Z.lor S_IRWX (if dir then Z.lor S_ISUID S_ISVTX else 0) in
  let added := if dir then 0 else Z.land (Z.ldiff mode was) (bits [S_ISUID; S_ISGID; S_ISVTX]) in
  let asked := Z.lor (Z.land (Z.lxor mode was) shown) added in
  if asked =? 0 then ret (0, result)
  else
    let! g := get_parameters d basename kFPUnixPrivsBit in
    let (r, now) := g : Z * afp_dirent in
    ret (if negb (r =? 0) then (r, result)
         else if Z.lor (Z.land (Z.lxor (up_permissions now) was) shown) (Z.land (up_permissions now) added) =? 0
         then (0, - EPERM) else (0, result)).

(** From the read of the parameters to the end. *)
Definition setattr_at (d : Z) (basename : list Z) (privs which mode uid gid mtime result : Z) : M E Z :=
  let! g := if negb (privs =? 0) then get_parameters d basename (Z.lor kFPUnixPrivsBit kFPModDateBit)
            else ret (0, empty_dirent 0) in
  let (r, fp) := g : Z * afp_dirent in
  let was := up_permissions fp in
  let fp := if negb (privs =? 0) && negb (ml_carries_time fp) then clear_valid kFPModDateBit fp else fp in
  let result := if negb (r =? 0) then r else result in
  let privs := if negb (r =? 0) then 0 else privs in
  let chmod := has privs ML_SET_MODE && negb (perm_bits was =? perm_bits mode) in
  let fp := if chmod then set_permissions (Z.lor (Z.land was S_IFMT) (perm_bits mode)) fp else fp in
  let bitmap := if chmod then kFPUnixPrivsBit else 0 in
  let fp := if has which ML_SET_MTIME then set_mod_ns kFPModDateBit (afp_ns_from_sec mtime) fp else fp in
  let bitmap := if (negb (bitmap =? 0) || has which ML_SET_MTIME) && has (valid fp) kFPModDateBit
                then Z.lor bitmap kFPModDateBit else bitmap in
  let! r := if negb (bitmap =? 0) then
              let sent := if has bitmap kFPUnixPrivsBit && afp_server_keeps_unset_ids cf
                          then set_ids UINT32_MAX UINT32_MAX fp else fp in
              let! r := set_parameters d basename bitmap sent in
              if ((r =? - EPERM) || (r =? - ENOSYS)) && has bitmap kFPUnixPrivsBit && has which ML_SET_MTIME then
                let! time_ret := set_parameters d basename kFPModDateBit fp in
                ret (if negb (time_ret =? 0) then time_ret else r)
              else ret r
            else ret 0 in
  if negb (r =? 0) then ret r
  else
    let! c := if has bitmap kFPUnixPrivsBit
                 && (if negb (isdir fp =? 0) then afp_server_keeps_directory_modes cf
                     else negb (has (up_ua_permissions fp) kUserIsOwner) || (up_uid fp =? 0))
              then mode_check d basename fp mode was result else ret (0, result) in
    let (r, result) := c : Z * Z in
    if negb (r =? 0) then ret r
    else if has privs (Z.lor ML_SET_UID ML_SET_GID) then
      let! r := set_owner d basename fp was (if has privs ML_SET_UID then uid else up_uid fp)
                  (if has privs ML_SET_GID then gid else up_gid fp) in
      ret (if negb (r =? 0) then r else result)
    else ret result.

Definition ml_setattr (path : list Z) (which mode uid gid mtime : Z) : M E Z :=
  let privs := Z.land which (bits [ML_SET_MODE; ML_SET_UID; ML_SET_GID]) in
  if volume_is_readonly cf then ret (- EROFS)
  else
    let! r := appledouble_setattr cf path in
    if r <? 0 then ret r
    else
      let! c := convert_path_to_afp_alloc path in
      match c with
      | Err r => ret r
      | Ok converted =>
          let ignore := has (extra_flags cf) VOLUME_EXTRA_FLAGS_IGNORE_UNIXPRIVS in
          let unsupported := negb (privs =? 0) && negb (supports_unix cf) in
          if invalid_name cf converted then ret (- ENAMETOOLONG)
          else if unsupported && ignore && negb (has which ML_SET_MTIME) then
            let! a := ll_getattr cf converted false in ret (fst (a : Z * stat))
          else
            let result := if unsupported && negb ignore then - ENOSYS else 0 in
            let privs := if unsupported then 0 else privs in
            let owner := has privs (Z.lor ML_SET_UID ML_SET_GID)
                         && negb (mapping (vol_identity cf) =? AFP_MAPPING_COMMON) in
            let result := if owner && shown_ids_differ privs uid gid then - EPERM else result in
            let privs := if owner then Z.ldiff privs (Z.lor ML_SET_UID ML_SET_GID) else privs in
            if (privs =? 0) && negb (has which ML_SET_MTIME) then ret result
            else
              let! g := lookup_dirid converted in
              match g with
              | Err r => ret r
              | Ok (basename, d) => setattr_at d basename privs which mode uid gid mtime result
              end
      end.

Definition ml_chmod (path : list Z) (mode : Z) : M E Z := ml_setattr path ML_SET_MODE mode 0 0 0.
Definition ml_chown (path : list Z) (uid gid : Z) : M E Z :=
  ml_setattr path (Z.lor (if uid =? UINT32_MAX then 0 else ML_SET_UID) (if gid =? UINT32_MAX then 0 else ML_SET_GID))
    0 uid gid 0.
Definition ml_utime (path : list Z) (modtime : Z) : M E Z := ml_setattr path ML_SET_MTIME 0 0 0 modtime.

Definition ml_getattr (path : list Z) : M E (Z * stat) :=
  let! c := convert_path_to_afp_alloc path in
  match c with
  | Err r => ret (r, zero_stat)
  | Ok converted =>
      let! a := appledouble_getattr cf converted zero_stat in
      let (r, s) := a : Z * stat in
      if r <? 0 then ret (r, s)
      else if r >? 0 then ret (0, s)
      else ll_getattr cf converted false
  end.

(** ** Removal and directories *)

Definition ml_unlink (path : list Z) : M E Z :=
  let! c := convert_path_to_afp_alloc path in
  match c with
  | Err r => ret r
  | Ok converted =>
      if invalid_name cf converted then ret (- ENAMETOOLONG)
      else if volume_is_readonly cf then ret (- EROFS)
      else
        let! r := appledouble_unlink cf path in
        if r <? 0 then ret r
        else if r =? 1 then ret 0
        else
          let! g := lookup_dirid converted in
          match g with
          | Err r => ret r
          | Ok (basename, d) =>
              let! r := is_dir d basename in
              if negb (r =? 0) then ret (if r <? 0 then r else - EISDIR)
              else
                let! rc := call (Delete d basename) in
                let r := delete_errno rc in
                (if r =? 0 then remove_did_subtree converted else ret tt) ;;! ret (- r)
          end
  end.

Definition ml_mkdir (path : list Z) (mode : Z) : M E Z :=
  let! c := convert_path_to_afp_alloc path in
  match c with
  | Err r => ret r
  | Ok converted =>
      if invalid_name cf converted then ret (- ENAMETOOLONG)
      else if volume_is_readonly cf then ret (- EROFS)
      else
        let! r := appledouble_mkdir cf path in
        if r <? 0 then ret r
        else if r =? 1 then ret 0
        else
          let! g := lookup_dirid converted in
          match g with
          | Err r => ret r
          | Ok (basename, d) =>
              let! rc := call (CreateDir d basename) in
              let r := mkdir_errno rc in
              (if r =? 0 then remove_did_subtree converted ;;! set_created_mode d basename mode else ret tt) ;;!
              ret (- r)
          end
  end.

Definition ml_rmdir (path : list Z) : M E Z :=
  let! c := convert_path_to_afp_alloc path in
  match c with
  | Err r => ret r
  | Ok converted =>
      if invalid_name cf converted then ret (- ENAMETOOLONG)
      else if volume_is_readonly cf then ret (- EROFS)
      else
        let! r := appledouble_rmdir cf path in
        if r <? 0 then ret r
        else if r =? 1 then ret 0
        else
          let! g := lookup_dirid converted in
          match g with
          | Err r => ret r
          | Ok (basename, d) =>
              let! r := is_dir d basename in
              if r <=? 0 then remove_did_subtree converted ;;! ret (if r <? 0 then r else - ENOTDIR)
              else
                let! rc := call (Delete d basename) in
                let r := delete_errno rc in
                (if r =? 0 then remove_did_subtree converted else ret tt) ;;! ret (- r)
          end
  end.

(** ** Close and length *)

Definition ml_close (fp : option Z) : M E Z :=
  match fp with
  | None => ret (- EBADF)
  | Some fp =>
      let! f := get (fork_at fp) in
      if negb (fi_resource f =? 0) then appledouble_close cf fp
      else if fi_forkid f =? 0 then ret 0
      else
        let! synced := ml_close_flush cf fp in
        let! rc := call (CloseFork (fi_forkid f)) in
        remove_opened_fork fp ;;!
        ret (if rc =? kFPNoErr then synced else - EIO)
  end.

Definition ml_ftruncate (fp offset : Z) : M E Z :=
  if offset <? 0 then ret (- EINVAL)
  else
    let! r := appledouble_ftruncate fp offset in
    if negb (r =? 0) then ret (if r <? 0 then r else 0)
    else
      let! f := get (fork_at fp) in
      if fi_forkid f =? 0 then ret (- EIO)
      else
        let! e := ll_setfork_size cf (fi_forkid f) (fi_resource f =? AFP_META_RESOURCE) offset in
        (if e =? 0 then update_fork (fun f => set_fi_dirty true (set_fi_size offset f)) fp else ret tt) ;;!
        ret (- e).

(** The path's checks of the resource fork and Finder information. *)
Definition open_appledouble_meta (path : list Z) (resource flags fp : Z) : M E Z :=
  let! c := convert_path_to_afp_alloc path in
  match c with
  | Err r => ret r
  | Ok converted =>
      if invalid_name cf converted then ret (- ENAMETOOLONG)
      else appledouble_open_meta cf converted resource flags fp
  end.

Definition ml_truncateresourcefork (path : list Z) (size : Z) : M E Z :=
  if size >? INT64_MAX then ret (- EFBIG)
  else if volume_is_readonly cf then ret (- EROFS)
  else
    let! fp := alloc_fork in
    let! r := open_appledouble_meta path AFP_META_RESOURCE O_RDWR fp in
    let! r := if r <? 0 then ret r
              else
                let! r := ml_ftruncate fp size in
                let! close_ret := appledouble_close cf fp in
                ret (if negb (r =? 0) then r else if close_ret <? 0 then close_ret else 0) in
    free_fork fp ;;! ret r.

(** appledouble_truncate of lib/resource.c. *)
Definition appledouble_truncate (path : list Z) (offset : Z) : M E Z :=
  let! t := extra_translate cf path in
  let (resource, newpath) := t : Z * list Z in
  if resource <? 0 then ret resource
  else if resource =? AFP_META_RESOURCE then
    let! r := ml_truncateresourcefork newpath (u64 offset) in
    ret (if r <? 0 then r else 1)
  else if resource =? AFP_META_APPLEDOUBLE then ret (- EISDIR)
  else if resource =? AFP_META_FINDERINFO then ret 1
  else if resource =? AFP_META_SERVER_ICON then ret (- EPERM)
  else ret 0.

Definition ml_truncate (path : list Z) (offset : Z) : M E Z :=
  if offset <? 0 then ret (- EINVAL)
  else if volume_is_readonly cf then ret (- EROFS)
  else
    let! r := appledouble_truncate path offset in
    if negb (r =? 0) then ret (if r <? 0 then r else 0)
    else
      let! o := ml_open path O_WRONLY in
      match o with
      | (0, Some fp) =>
          let! r := ml_ftruncate fp offset in
          let! close_ret := ml_close (Some fp) in
          free_fork fp ;;!
          ret (if r =? 0 then close_ret else r)
      | (r, _) => ret r
      end.

(** ** Space *)

Record statvfs := Statvfs { sv_bsize : Z; sv_frsize : Z; sv_blocks : Z; sv_bfree : Z; sv_bavail : Z; sv_namemax : Z }.

Definition ml_statfs : M E (Z * statvfs) :=
  let flags := if afp2 cf then Z.lor kFPVolBytesFreeBit kFPVolBytesTotalBit
               else bits [kFPVolExtBytesFreeBit; kFPVolExtBytesTotalBit; kFPVolBlockSizeBit] in
  let! r := call (GetVolParms flags) in
  let (rc, space) := r : Z * vol_space in
  modify (set_vstat space) ;;!
  if negb (rc =? kFPNoErr) then ret (- EIO, Statvfs 0 0 0 0 0 0)
  else
    let bsize := if f_bsize space =? 0 then 4096 else f_bsize space in
    modify (set_vstat (VolSpace bsize (f_blocks space) (f_bfree space))) ;;!
    let bfree := Z.quot (f_bfree space) bsize in
    ret (0, Statvfs bsize bsize (Z.quot (f_blocks space) bsize) bfree bfree 255).

End Midlevel.
