(* ===== verification/Xattr.v ===== *)
(** The rest of lib/midlevel.c: links, renames, copies, resource forks, Finder
    information and extended attributes (with lib/xattr.h). *)
From stdpp Require Import gmap.
From S2P Require Import Prelude AfpProtocol Codepage Dates ReplyBlock Listing World DidCache Identify DsiQueue ForkList.
From S2P Require Import LowLevel Resource Midlevel.

Definition AFP_COPY_OFFLOAD_MIN_BYTES : Z := 512 * 1024.
Definition AFP_COPY_OFFLOAD_MAX_BYTES : Z := 1024 * 1024 * 1024.
Definition AFP_COPY_QUANTA_PER_CALL : Z := 16.
Definition AFP_COPY_INHIBIT_ATTRIBUTES : Z :=
  Z.lor kFPWriteInhibitBit (Z.lor kFPRenameInhibitBit kFPDeleteInhibitBit).
Definition UINT64_MAX : Z := 18446744073709551615.

Definition AFP_XATTR_RESOURCEFORK : list Z := str "com.apple.ResourceFork".
Definition AFP_XATTR_FINDERINFO : list Z := str "com.apple.FinderInfo".
Definition NETATALK_XATTR_META : list Z := str "org.netatalk.Metadata".
Definition AFP_EXTATTR_DATA_MAX : Z := 4096.
Definition AFP_XATTR_NAME_MAX : Z := 255.
Definition AFP_XATTR_USER_PREFIX : list Z := str "user.".

(** ** Link targets *)

Definition is_separator (b : Z) : bool := (b =? ch_colon) || (b =? ch_slash).

(** The walk over the converted target: each ':' takes back the '/' it stands
    for. *)
Fixpoint restore_loop (dest src : list Z) : list Z :=
  match dest with
  | [] => []
  | d :: dest =>
      if negb (d =? ch_colon) then d :: restore_loop dest src
      else
        (fix seek (src : list Z) : list Z :=
           match src with
           | [] => d :: restore_loop dest []
           | s :: src => if is_separator s
                         then (if s =? ch_slash then ch_slash else d) :: restore_loop dest src
                         else seek src
           end) src
  end.

Definition restore_link_separators (dest src : list Z) : list Z :=
  if zlen (filter (fun b => b = ch_colon) dest) =? zlen (filter (fun b => is_separator b = true) src)
  then restore_loop dest src else dest.

(** Where a target that fills the buffer is cut. *)
Fixpoint link_cut (utf8 : bool) (link : list Z) (cut : nat) : nat :=
  match cut with
  | O => O
  | S c => if utf8 && (Z.land (byte_at link (Z.of_nat cut)) 0xC0 =? 0x80) then link_cut utf8 link c else cut
  end.

(** ** Names of attributes *)

Definition afp_xattr_strip_user_prefix (name : list Z) : list Z :=
  if starts name AFP_XATTR_USER_PREFIX then drop (length AFP_XATTR_USER_PREFIX) name else name.

Definition normalize_xattr_name (name : list Z) : res (list Z) :=
  if zlen name >? AFP_XATTR_NAME_MAX then Err (- ENAMETOOLONG) else Ok (afp_xattr_strip_user_prefix name).

Definition is_resourcefork_xattr (name : list Z) : bool :=
  list_eqb (afp_xattr_strip_user_prefix name) AFP_XATTR_RESOURCEFORK.
Definition is_finderinfo_xattr (name : list Z) : bool :=
  list_eqb (afp_xattr_strip_user_prefix name) AFP_XATTR_FINDERINFO.
Definition IS_INTERNAL_SERVER_XATTR (name : list Z) : bool := starts name NETATALK_XATTR_META.
Definition is_netatalk_meta_xattr (name : list Z) : bool :=
  IS_INTERNAL_SERVER_XATTR (afp_xattr_strip_user_prefix name).

Definition validate_xattr_flags (flags : Z) : Z :=
  if negb (Z.ldiff flags (Z.lor kXAttrCreate kXAttrReplace) =? 0) || (has flags kXAttrCreate && has flags kXAttrReplace)
  then - EINVAL else 0.

Definition validate_special_xattr_flags (flags exists_ret : Z) : Z :=
  if has flags kXAttrCreate && has flags kXAttrReplace then - EINVAL
  else if (exists_ret <? 0) && negb (exists_ret =? - ENOATTR) && negb (exists_ret =? - EFBIG) then exists_ret
  else
    let exists_ := (exists_ret >=? 0) || (exists_ret =? - EFBIG) in
    if has flags kXAttrCreate && exists_ then - EEXIST
    else if has flags kXAttrReplace && negb exists_ then - ENOATTR
    else 0.

(** One name of the list, under user.: the list so far, or the errno. [used] is
    the length the whole list needs. *)
Definition append_listed_xattr_name (out : list Z) (used size : Z) (name : list Z) : res (list Z * Z) :=
  let output_namelen := zlen name + zlen AFP_XATTR_USER_PREFIX in
  if zlen name >? AFP_XATTR_NAME_MAX then Err (- ENAMETOOLONG)
  else if used >? UINT64_MAX - output_namelen - 1 then Err (- EOVERFLOW)
  else if size >? 0 then
    if used + output_namelen + 1 >? size then Err (- ERANGE)
    else Ok (out ++ AFP_XATTR_USER_PREFIX ++ name ++ [0], used + output_namelen + 1)
  else Ok (out, used + output_namelen + 1).

(** The walk over the server's list. *)
Fixpoint list_names (fuel : nat) (src : list Z) (out : list Z) (used size : Z) : res (list Z * Z) :=
  match fuel, src with
  | O, _ | _, [] => Ok (out, used)
  | S fuel, _ =>
      let name := until_nul src in
      if zlen name =? 0 then Ok (out, used)
      else if zlen name =? zlen src then Err (- EIO)
      else
        let rest := drop (Z.to_nat (zlen name + 1)) src in
        if IS_INTERNAL_SERVER_XATTR name then list_names fuel rest out used size
        else
          match append_listed_xattr_name out used size name with
          | Err e => Err e
          | Ok (out, used) => list_names fuel rest out used size
          end
  end.

Section Xattr.
Context {E : Type} `{Env E} (cf : config).

(** ** Links *)

(** The answer and the target. *)
Definition ml_readlink (path : list Z) (size : Z) : M E (Z * list Z) :=
  if (size =? 0) || (size >? INT_MAX) then ret (- ENAMETOOLONG, [])
  else
    let! ok := call (Malloc (size + 1)) in
    if negb ok then ret (- ENOMEM, [])
    else
      let! c := convert_path_to_afp_alloc cf path in
      match c with
      | Err r => ret (r, [])
      | Ok converted =>
          let! g := lookup_dirid cf converted in
          match g with
          | Err r => ret (r, [])
          | Ok (basename, d) =>
              let! fp := alloc_fork in
              let! o := call (OpenFork 0 d AFP_OPENFORK_ALLOWREAD 0 basename) in
              let (rc, reply) := o : Z * open_reply in
              update_fork (fill_opened reply) fp ;;!
              let e := ll_openfork_errno rc in
              if negb (e =? 0) then free_fork fp ;;! ret (- e, [])
              else
                add_opened_fork fp ;;!
                let! f := get (fork_at fp) in
                let! a := call (ReadFork (negb (afp2 cf)) (fi_forkid f) 0 size) in
                let (rc, data) := a : Z * list Z in
                let e := if rc =? kFPAccessDenied then EACCES
                         else if rc =? kFPLockErr then EBUSY
                         else if (rc =? kFPEOFErr) || (rc =? kFPNoErr) then 0
                         else EIO in
                let! crc := call (CloseFork (fi_forkid f)) in
                remove_opened_fork fp ;;! free_fork fp ;;!
                if negb (e =? 0) then ret (- e, [])
                else if negb (crc =? kFPNoErr) then ret (- EIO, [])
                else
                  let link := until_nul data in
                  let unix l := snd (convert_path_to_unix (conv_heap cf) (path_encoding cf) l size []) in
                  let buf := unix link in
                  let (buf, link) :=
                    if (zlen buf =? 0) && negb (zlen link =? 0) then
                      let cut := take (link_cut (path_encoding cf =? kFPUTF8Name) data (Z.to_nat (size - 1))) link in
                      (unix cut, cut)
                    else (buf, link) in
                  ret (0, restore_link_separators buf link)
          end
      end.

(** The close of the fork after a refused write, and the end that deletes what
    the call made. *)
Definition symlink_undo (d : Z) (basename : list Z) (created : bool) (e : Z) : M E Z :=
  (if negb (e =? 0) && created then call (Delete d basename) ;;! ret tt else ret tt) ;;! ret (- e).

Definition symlink_write_errno (rc written len : Z) : Z :=
  if rc =? kFPNoErr then (if written =? len then 0 else EIO)
  else if rc =? kFPAccessDenied then EACCES
  else if rc =? kFPDiskFull then ENOSPC
  else if rc =? kFPObjectNotFound then ENOENT
  else EIO.

Definition ml_symlink (path1 path2 : list Z) : M E Z :=
  if afp2 cf then ret (- ENOSYS)
  else
    let! c1 := convert_path_to_afp_alloc cf path1 in
    match c1 with
    | Err r => ret r
    | Ok target =>
        let! c2 := convert_path_to_afp_alloc cf path2 in
        match c2 with
        | Err r => ret r
        | Ok converted =>
            if volume_is_readonly cf then ret (- EROFS)
            else
              let! r := appledouble_symlink cf path1 path2 in
              if r <? 0 then ret r
              else if r =? 1 then ret 0
              else
                let! g := lookup_dirid cf converted in
                match g with
                | Err r => ret r
                | Ok (basename, d) =>
                    let! r := ll_createfile d basename in
                    if negb (r =? 0) then symlink_undo d basename false (- r)
                    else
                      let! fp := alloc_fork in
                      let! o := call (OpenFork 0 d (Z.lor AFP_OPENFORK_ALLOWWRITE AFP_OPENFORK_ALLOWREAD) 0 basename) in
                      let (rc, reply) := o : Z * open_reply in
                      update_fork (fill_opened reply) fp ;;!
                      let e := ll_openfork_errno rc in
                      if negb (e =? 0)
                      then free_fork fp ;;! symlink_undo d basename (negb (e =? ETIMEDOUT)) e
                      else
                        add_opened_fork fp ;;!
                        let! f := get (fork_at fp) in
                        let! a := call (WriteFork true (fi_forkid f) 0 target) in
                        let (rc, written) := a : Z * Z in
                        let e := symlink_write_errno rc written (zlen target) in
                        let! crc := call (CloseFork (fi_forkid f)) in
                        remove_opened_fork fp ;;! free_fork fp ;;!
                        if negb (e =? 0) then symlink_undo d basename true e
                        else if negb (crc =? kFPNoErr) then symlink_undo d basename true EIO
                        else
                          let marker := set_finderinfo 0 (ML_SYMLINK_FINDERINFO ++ zero_bytes 24) (empty_dirent 0) in
                          let! r := set_parameters d basename kFPFinderInfoBit marker in
                          symlink_undo d basename true (- r)
                end
        end
    end.

(** ** Renames *)

(** The answer of the second move, after the destination's deletion, whose own
    answer is not kept. *)
Definition move_again_errno (rc : Z) : Z :=
  if (rc =? kFPObjectLocked) || (rc =? kFPAccessDenied) then EACCES
  else if rc =? kFPCantRename then EROFS
  else if (rc =? kFPObjectExists) || (rc =? kFPObjectNotFound) then ENOENT
  else if (rc =? kFPParamErr) || (rc =? kFPMiscErr) then EIO
  else 0.

Definition move_errno (rc : Z) : Z :=
  if (rc =? kFPObjectLocked) || (rc =? kFPAccessDenied) then EACCES
  else if rc =? kFPCantRename then EROFS
  else if rc =? kFPObjectNotFound then ENOENT
  else if rc =? kFPNoErr then 0
  else EIO.

(** The requests of a rename between two names: the errno. *)
Definition rename_names (d_from : Z) (from : list Z) (d_to : Z) (to : list Z) : M E Z :=
  let! dst_type := is_dir d_to to in
  let move folder name := call (MoveAndRename d_from d_to from folder name) in
  let answer rc :=
    if rc =? kFPObjectExists then
      call (Delete d_to to) ;;!
      let! rc := move None to in
      ret (move_again_errno rc)
    else ret (move_errno rc) in
  if dst_type =? 1 then let! rc := move (Some to) from in answer rc
  else
    let! exchanged := if (dst_type =? 0) && negb (has (vol_attributes cf) kNoExchangeFiles)
                      then let! rc := call (ExchangeFiles d_from d_to from to) in ret (rc =? kFPNoErr)
                      else ret false in
    if exchanged : bool then call (Delete d_from from) ;;! ret 0
    else let! rc := move None to in answer rc.

Definition ml_rename (path_from path_to : list Z) : M E Z :=
  let! c1 := convert_path_to_afp_alloc cf path_from in
  match c1 with
  | Err r => ret r
  | Ok converted_from =>
      let! c2 := convert_path_to_afp_alloc cf path_to in
      match c2 with
      | Err r => ret r
      | Ok converted_to =>
          if volume_is_readonly cf then ret (- EACCES)
          else
            let! g1 := lookup_dirid cf converted_from in
            match g1 with
            | Err r => ret r
            | Ok (from, d_from) =>
                let! g2 := lookup_dirid cf converted_to in
                match g2 with
                | Err r => ret r
                | Ok (to, d_to) =>
                    let! e := rename_names d_from from d_to to in
                    remove_did_subtree converted_from ;;!
                    remove_did_subtree converted_to ;;!
                    ret (- e)
                end
            end
      end
  end.

Definition exchange_errno (rc : Z) : Z :=
  if rc =? kFPNoErr then 0
  else if rc =? kFPAccessDenied then EACCES
  else if rc =? kFPObjectTypeErr then EISDIR
  else if (rc =? kFPObjectNotFound) || (rc =? kFPIDNotFound) then ENOENT
  else if rc =? kFPCallNotSupported then ENOSYS
  else EIO.

Definition ml_exchange (path_from path_to : list Z) : M E Z :=
  if has (vol_attributes cf) kNoExchangeFiles then ret (- ENOSYS)
  else
    let! c1 := convert_path_to_afp_alloc cf path_from in
    match c1 with
    | Err r => ret r
    | Ok converted_from =>
        let! c2 := convert_path_to_afp_alloc cf path_to in
        match c2 with
        | Err r => ret r
        | Ok converted_to =>
            if volume_is_readonly cf then ret (- EACCES)
            else
              let! g1 := lookup_dirid cf converted_from in
              match g1 with
              | Err _ => ret (- ENOENT)
              | Ok (from, d_from) =>
                  let! g2 := lookup_dirid cf converted_to in
                  match g2 with
                  | Err _ => ret (- ENOENT)
                  | Ok (to, d_to) =>
                      let! rc := call (ExchangeFiles d_from d_to from to) in ret (- exchange_errno rc)
                  end
              end
        end
    end.

(** ** Copies *)

(** The parameters of the file at the fork's name, when it is the fork's. *)
Definition fork_still_named (fp bitmap : Z) : M E (option afp_dirent) :=
  let! f := get (fork_at fp) in
  if fi_cnid f =? 0 then ret None
  else
    let! r := call (GetFileDirParms (fi_did f) (Z.lor bitmap kFPNodeIDBit) 0 (fi_basename f)) in
    let (rc, params) := r : Z * afp_dirent in
    ret (if (rc =? kFPNoErr) && (cnid params =? fi_cnid f) then Some params else None).

Definition copy_lost_fork (fp : Z) : M E Z :=
  remove_opened_fork fp ;;! update_fork (set_fi_forkid 0) fp ;;! ret (- EIO).

(** The request's errno, and whether the name holds a file found: the create
    after a copy that was not made. *)
Definition copy_name_file (rc d : Z) (basename : list Z) : M E (option bool) :=
  if rc =? kFPNoErr then ret (Some false)
  else
    let! crc := call (CreateFile kFPSoftCreate d basename) in
    ret (if crc =? kFPNoErr then Some false else if crc =? kFPObjectExists then Some true else None).

(** The new file's mode and time. *)
Definition copy_attributes (fp_out rc : Z) (dst : afp_dirent) : M E unit :=
  let! f := get (fork_at fp_out) in
  let privs := if up_permissions dst =? 0 then 0 else kFPUnixPrivsBit in
  let! now := if rc =? kFPNoErr then call Gettimeofday else ret 0 in
  let bitmap := if rc =? kFPNoErr then Z.lor privs kFPModDateBit else privs in
  let dst := if rc =? kFPNoErr then set_mod_ns 0 (afp_ns_from_sec now) dst else dst in
  if negb (bitmap =? 0) then call (SetFileDirParms (fi_did f) (fi_basename f) bitmap dst) ;;! ret tt else ret tt.

Definition copy_into_destination (fp_in fp_out : Z) (src dst : afp_dirent) : M E Z :=
  let! i := get (fork_at fp_in) in
  let! o := get (fork_at fp_out) in
  let! crc := call (CloseFork (fi_forkid o)) in
  if negb (crc =? kFPNoErr) then copy_lost_fork fp_out
  else
    update_fork (set_fi_forkid 0) fp_out ;;!
    let! rc := call (Delete (fi_did o) (fi_basename o)) in
    let deleted := rc =? kFPNoErr in
    let! rc := if deleted
               then call (CopyFile (fi_did i) (fi_basename i) (fi_did o) (fi_basename o)
                            (afpc_dsi_transfer_wait (dsi_default_timeout cf) (d_size src + d_resourcesize src)
                               AFP_DISK_BYTES_PER_SECOND))
               else ret rc in
    let! named := copy_name_file rc (fi_did o) (fi_basename o) in
    match named with
    | None => copy_lost_fork fp_out
    | Some exists_ =>
        update_fork (set_fi_cnid 0) fp_out ;;!
        let! r := call (OpenFork 0 (fi_did o) (Z.lor AFP_OPENFORK_ALLOWREAD AFP_OPENFORK_ALLOWWRITE)
                          (Z.lor kFPNodeIDBit kFPExtDataForkLenBit) (fi_basename o)) in
        let (orc, reply) := r : Z * open_reply in
        update_fork (fill_opened reply) fp_out ;;!
        if negb (orc =? kFPNoErr) then copy_lost_fork fp_out
        else
          let! f := get (fork_at fp_out) in
          let late := exists_ && deleted && (rc =? ETIMEDOUT) && (fi_size f =? d_size src) in
          if exists_ && negb late && (deleted || negb (fi_cnid f =? cnid dst)) then
            call (CloseFork (fi_forkid f)) ;;! copy_lost_fork fp_out
          else
            let rc := if late then kFPNoErr else rc in
            (if deleted || negb exists_ then copy_attributes fp_out rc dst else ret tt) ;;!
            if negb (rc =? kFPNoErr) then ret 0
            else update_fork (set_fi_dirty true) fp_out ;;! ret (d_size src)
    end.

Definition copy_range_on_server (fp_in off_in fp_out off_out len : Z) : M E Z :=
  let! i := get (fork_at fp_in) in
  let! o := get (fork_at fp_out) in
  let cap := if afp_server_drops_long_commands cf then AFP_COPY_OFFLOAD_MAX_BYTES else UINT64_MAX in
  if negb (fi_resource i =? AFP_META_NONE) || negb (fi_resource o =? AFP_META_NONE)
     || (fi_forkid i =? 0) || (fi_forkid o =? 0) || negb (fi_created o)
     || negb (fi_size o =? 0) || negb (off_in =? 0) || negb (off_out =? 0)
     || (len <? AFP_COPY_OFFLOAD_MIN_BYTES) || (len >? cap) || negb (afp_server_copies_files cf)
  then ret 0
  else
    let! other := get (other_fork_open fp_out) in
    if other : bool then ret 0
    else
      let! s := fork_still_named fp_in (bits [kFPAttributeBit; kFPExtDataForkLenBit; kFPExtRsrcForkLenBit]) in
      match s with
      | None => ret 0
      | Some src =>
          if negb (d_size src =? len) || (d_resourcesize src >? u64 (cap - d_size src))
             || has (attributes src) AFP_COPY_INHIBIT_ATTRIBUTES
          then ret 0
          else
            let! t := fork_still_named fp_out (bits [kFPExtDataForkLenBit; kFPExtRsrcForkLenBit;
                                                     if supports_unix cf then kFPUnixPrivsBit else 0]) in
            match t with
            | None => ret 0
            | Some dst =>
                if negb (d_size dst =? 0) || negb (d_resourcesize dst =? 0)
                   || (supports_unix cf
                       && negb (Z.ldiff (Z.lor kUserCanRead kUserCanWrite) (up_ua_permissions dst) =? 0))
                then ret 0
                else copy_into_destination fp_in fp_out src dst
            end
      end.

(** The loop over the quanta: the last answer and the bytes copied; [None] is
    the end of the fuel. *)
Fixpoint copy_loop (fuel : nat) (fp_in off_in fp_out off_out len copied : Z) : M E (option (Z * Z)) :=
  if copied <? len then
    match fuel with
    | O => ret None
    | S fuel =>
        let! r := ml_read cf (Z.min (len - copied) (quantum cf)) (off_in + copied) fp_in in
        let '(n, got, eof) := r : read_result in
        if n <=? 0 then ret (Some (n, copied))
        else
          let! n := ml_write cf got (off_out + copied) fp_out in
          if n <=? 0 then ret (Some (n, copied))
          else if eof : bool then ret (Some (n, copied + n))
          else copy_loop fuel fp_in off_in fp_out off_out len (copied + n)
    end
  else ret (Some (0, copied)).

Definition copy_range_through_client (fp_in off_in fp_out off_out len : Z) : M E Z :=
  let len := Z.min len (Z.min INT_MAX (AFP_COPY_QUANTA_PER_CALL * quantum cf)) in
  let! ok := call (Malloc (Z.min len (quantum cf))) in
  if negb ok then ret (- ENOMEM)
  else
    let! r := copy_loop (Z.to_nat len) fp_in off_in fp_out off_out len 0 in
    ret (match r with
         | Some (r, copied) => if copied =? 0 then r else copied
         | None => - EIO
         end).

Definition ml_copy_range (fp_in off_in fp_out off_out len : Z) : M E Z :=
  let! i := get (fork_at fp_in) in
  let! o := get (fork_at fp_out) in
  if (fi_resource i >? AFP_META_RESOURCE) || (fi_resource o >? AFP_META_RESOURCE) then ret (- EOPNOTSUPP)
  else if negb (fi_writable o) || volume_is_readonly cf then ret (- EBADF)
  else if len =? 0 then ret 0
  else
    let! copied := copy_range_on_server fp_in off_in fp_out off_out len in
    let! copied := if copied =? 0 then copy_range_through_client fp_in off_in fp_out off_out len else ret copied in
    if (copied >? 0) && fi_sync o then
      let! rc := ml_fsync cf fp_out in ret (if rc <? 0 then rc else copied)
    else ret copied.

(** ** Resource forks *)

(** The reads until the value is full, the fork ends or a read fails: the
    errno, 0 for none, and the bytes. *)
Fixpoint resource_loop (fuel : nat) (fp size position remaining : Z) (got : list Z) : M E (Z * list Z) :=
  match fuel with
  | O => ret (0, got)
  | S fuel =>
      if (zlen got <? size) && (remaining >? 0) then
        let! a := appledouble_read cf fp (Z.min (size - zlen got) remaining) (position + zlen got) in
        let '(r, data, eof) := a : Z * list Z * bool in
        if r <? 0 then ret (r, got)
        else if negb (r =? 1) then ret (- EIO, got)
        else if zlen data =? 0 then ret (0, got)
        else if eof : bool then ret (0, got ++ data)
        else resource_loop fuel fp size position (remaining - zlen data) (got ++ data)
      else ret (0, got)
  end.

(** The length or the errno, and the bytes; a [size] of 0 asks the length. *)
Definition ml_getresourcefork (path : list Z) (size position : Z) : M E (Z * list Z) :=
  let! c := convert_path_to_afp_alloc cf path in
  match c with
  | Err r => ret (r, [])
  | Ok converted =>
      let! a := ll_getattr cf converted true in
      let (r, s) := a : Z * stat in
      if (r <? 0) && negb (r =? - EFBIG) then ret (r, [])
      else if st_size s =? 0 then ret (- ENOATTR, [])
      else if size =? 0 then ret (if st_size s >? INT_MAX then - EFBIG else st_size s, [])
      else if (position <? 0) || (position >=? st_size s) then ret (0, [])
      else
        let! fp := alloc_fork in
        let! r := open_appledouble_meta cf path AFP_META_RESOURCE O_RDONLY fp in
        if r <? 0 then free_fork fp ;;! ret (r, [])
        else
          let! l := resource_loop (Z.to_nat size) fp size position (st_size s - position) [] in
          let (r, got) := l : Z * list Z in
          appledouble_close cf fp ;;!
          free_fork fp ;;!
          ret (if r <? 0 then (r, []) else if zlen got >? INT_MAX then (- EFBIG, []) else (zlen got, got))
  end.

Definition write_resource_fork (path value : list Z) (position : Z) (whole : bool) : M E Z :=
  let size := zlen value in
  if position <? 0 then ret (- EINVAL)
  else if (position >? INT_MAX) || (size >? INT_MAX - position) then ret (- EFBIG)
  else if volume_is_readonly cf then ret (- EROFS)
  else
    let! fp := alloc_fork in
    let! r := open_appledouble_meta cf path AFP_META_RESOURCE O_RDWR fp in
    let! r :=
      if r <? 0 then ret r
      else
        let! w := if size >? 0 then appledouble_write cf fp value position else ret (1, size) in
        let (r, written) := w : Z * Z in
        if r <? 0 then appledouble_close cf fp ;;! ret r
        else if negb (r =? 1) || negb (written =? size) then appledouble_close cf fp ;;! ret (- EIO)
        else
          let! r := if (position =? 0) && ((size =? 0) || whole) then ml_ftruncate cf fp size else ret 0 in
          if r <? 0 then appledouble_close cf fp ;;! ret r
          else
            let! r := appledouble_close cf fp in ret (if r <? 0 then r else 0) in
    free_fork fp ;;! ret r.

Definition ml_setresourcefork (path value : list Z) (position : Z) : M E Z :=
  write_resource_fork path value position false.

Definition ml_setresourcefork_flags (path value : list Z) (position flags : Z) : M E Z :=
  let r := validate_xattr_flags flags in
  if r <? 0 then ret r
  else
    let! r := if has flags (Z.lor kXAttrCreate kXAttrReplace) then
                let! g := ml_getresourcefork path 0 0 in
                ret (validate_special_xattr_flags flags (fst (g : Z * list Z)))
              else ret 0 in
    if r <? 0 then ret r else write_resource_fork path value position true.

Definition ml_removeresourcefork (path : list Z) : M E Z :=
  let! g := ml_getresourcefork path 0 0 in
  let (r, _) := g : Z * list Z in
  if (r <? 0) && negb (r =? - EFBIG) then ret r else ml_setresourcefork path [] 0.

(** ** Finder information *)

Definition ml_getfinderinfo (path : list Z) (size : Z) : M E (Z * list Z) :=
  let! fp := alloc_fork in
  let! r := open_appledouble_meta cf path AFP_META_FINDERINFO O_RDONLY fp in
  if r <? 0 then free_fork fp ;;! ret (r, [])
  else
    let! a := appledouble_read cf fp 32 0 in
    let '(r, info, _) := a : Z * list Z * bool in
    appledouble_close cf fp ;;!
    free_fork fp ;;!
    ret (if r <? 0 then (r, [])
         else if negb (r =? 1) || negb (zlen info =? 32) then (- EIO, [])
         else if list_eqb info (zero_bytes 32) then (- ENOATTR, [])
         else if size =? 0 then (32, [])
         else if size <? 32 then (- ERANGE, [])
         else (32, info)).

Definition ml_setfinderinfo (path value : list Z) : M E Z :=
  if negb (zlen value =? 32) then ret (- EINVAL)
  else if volume_is_readonly cf then ret (- EROFS)
  else
    let! fp := alloc_fork in
    let! r := open_appledouble_meta cf path AFP_META_FINDERINFO O_RDWR fp in
    if r <? 0 then free_fork fp ;;! ret r
    else
      let! w := appledouble_write cf fp value 0 in
      let (r, written) := w : Z * Z in
      appledouble_close cf fp ;;!
      free_fork fp ;;!
      ret (if r <? 0 then r else if negb (r =? 1) || negb (written =? 32) then - EIO else 0).

Definition ml_setfinderinfo_flags (path value : list Z) (flags : Z) : M E Z :=
  let r := validate_xattr_flags flags in
  if r <? 0 then ret r
  else
    let! r := if has flags (Z.lor kXAttrCreate kXAttrReplace) then
                let! g := ml_getfinderinfo path 0 in
                ret (validate_special_xattr_flags flags (fst (g : Z * list Z)))
              else ret 0 in
    if r <? 0 then ret r else ml_setfinderinfo path value.

Definition ml_removefinderinfo (path : list Z) : M E Z := ml_setfinderinfo path (zero_bytes 32).

(** ** Extended attributes *)

Definition supports_extattrs : bool := has (vol_attributes cf) kSupportsExtAttrs.

(** A missing attribute's answers: AFP 3.2 and 3.3's kFPMiscErr, 3.4's
    kFPItemNotFound, Apple's kFPParamErr. *)
Definition no_such_attr (rc : Z) : bool := (rc =? kFPItemNotFound) || (rc =? kFPMiscErr) || (rc =? kFPParamErr).

Definition ml_getxattr (path name : list Z) (size : Z) : M E (Z * list Z) :=
  if is_resourcefork_xattr name then ml_getresourcefork path size 0
  else if is_finderinfo_xattr name then ml_getfinderinfo path size
  else if negb supports_extattrs || is_netatalk_meta_xattr name || is_root path then ret (- ENOATTR, [])
  else
    match normalize_xattr_name name with
    | Err r => ret (r, [])
    | Ok afp_name =>
        let! g := lookup_dirid cf path in
        match g with
        | Err r => ret (r, [])
        | Ok (basename, d) =>
            let! a := call (GetExtAttr d 0 AFP_EXTATTR_DATA_MAX basename afp_name) in
            let (rc, info) := a : Z * extattr_info in
            ret (if rc =? kFPNoErr then
                   if size =? 0 then (ea_size info, [])
                   else if size <? ea_size info then (- ERANGE, [])
                   else if zlen (ea_data info) <? ea_size info then (- ERANGE, [])
                   else (ea_size info, take (Z.to_nat (ea_size info)) (ea_data info))
                 else if no_such_attr rc then (- ENOATTR, [])
                 else if rc =? kFPAccessDenied then (- EACCES, [])
                 else if rc =? kFPObjectNotFound then (- ENOENT, [])
                 else (- EIO, []))
        end
    end.

Definition ml_setxattr (path name value : list Z) (flags : Z) : M E Z :=
  let r := validate_xattr_flags flags in
  if r <? 0 then ret r
  else if is_resourcefork_xattr name then ml_setresourcefork_flags path value 0 flags
  else if is_finderinfo_xattr name then ml_setfinderinfo_flags path value flags
  else if volume_is_readonly cf then ret (- EROFS)
  else if negb supports_extattrs || is_netatalk_meta_xattr name || is_root path then ret 0
  else
    match normalize_xattr_name name with
    | Err r => ret r
    | Ok afp_name =>
        let! g := lookup_dirid cf path in
        match g with
        | Err r => ret r
        | Ok (basename, d) =>
            let bitmap := Z.lor (Z.land flags kXAttrCreate) (Z.land flags kXAttrReplace) in
            let! rc := call (SetExtAttr d bitmap 0 basename afp_name value) in
            ret (if rc =? kFPNoErr then 0
                 else if rc =? kFPAccessDenied then - EACCES
                 else if rc =? kFPObjectNotFound then - ENOENT
                 else if rc =? kFPObjectExists then - EEXIST
                 else if rc =? kFPItemNotFound then - ENOATTR
                 else if rc =? kFPVolLocked then - EROFS
                 else - EIO)
        end
    end.

Definition listed (info : extattr_info) (size : Z) : Z * list Z :=
  if zlen (ea_data info) <? ea_size info then (- E2BIG, [])
  else
    match list_names (length (ea_data info)) (ea_data info) [] 0 size with
    | Err e => (e, [])
    | Ok (out, used) => (if used >? INT_MAX then - E2BIG else used, out)
    end.

(** The list's length or the errno, and the list. *)
Definition ml_listxattr (path : list Z) (size : Z) : M E (Z * list Z) :=
  if supports_extattrs && negb (is_root path) then
    let! g := lookup_dirid cf path in
    match g with
    | Err r => ret (r, [])
    | Ok (basename, d) =>
        let! a := call (ListExtAttr d 0 basename) in
        let (rc, info) := a : Z * extattr_info in
        ret (if rc =? kFPNoErr then listed info size
             else if rc =? kFPAccessDenied then (- EACCES, [])
             else if rc =? kFPObjectNotFound then (- ENOENT, [])
             else if rc =? kFPParamErr then listed (ExtAttr 0 (ea_data info)) size
             else (- EIO, []))
    end
  else ret (listed (ExtAttr 0 []) size).

Definition ml_removexattr (path name : list Z) : M E Z :=
  if is_resourcefork_xattr name then ml_removeresourcefork path
  else if is_finderinfo_xattr name then ml_removefinderinfo path
  else if volume_is_readonly cf then ret (- EROFS)
  else if negb supports_extattrs then ret (- ENOATTR)
  else if is_netatalk_meta_xattr name || is_root path then ret (- EACCES)
  else
    match normalize_xattr_name name with
    | Err r => ret r
    | Ok afp_name =>
        let! g := lookup_dirid cf path in
        match g with
        | Err r => ret r
        | Ok (basename, d) =>
            let! rc := call (RemoveExtAttr d 0 basename afp_name) in
            ret (if rc =? kFPNoErr then 0
                 else if no_such_attr rc then - ENOATTR
                 else if rc =? kFPAccessDenied then - EACCES
                 else if rc =? kFPObjectNotFound then - ENOENT
                 else if rc =? kFPVolLocked then - EROFS
                 else - EIO)
        end
    end.

End Xattr.

(** After the deletion of the destination, a second move that a locked volume
    or a lost connection stops counts as done. *)
Theorem move_again_ignores_errors :
  move_again_errno kFPVolLocked = 0 /\ move_again_errno (- EIO) = 0
  /\ move_errno kFPVolLocked = EIO /\ move_errno (- EIO) = EIO.
Proof. vm_compute. done. Qed.
