(* ===== verification/ReadOnly.v ===== *)
(** A read-only volume (volume_is_readonly of lib/afp_internal.h): of the operations
    of lib/midlevel.c only ml_ftruncate and ml_set_created_mode, which do not look
    at the flag, send a request that changes the server's volume. *)
From stdpp Require Import gmap.
From S2P Require Import Prelude AfpProtocol Codepage ReplyBlock Listing World DidCache Identify DsiQueue ForkList.
From S2P Require Import LowLevel Quiet Resource Midlevel Xattr.

(** ** Operations that change nothing *)

Section Quietly.
Context {E : Type} {HE : Env E} (cf : config) (P : volume * E -> Prop) {HP : Quiet P}.

Lemma extra_translate_quiet path : keeps P (extra_translate cf path).
Proof. unfold extra_translate. keep. Qed.

Lemma ensure_dt_opened_quiet : keeps P ensure_dt_opened.
Proof. unfold ensure_dt_opened. keep. Qed.

#[local] Hint Resolve extra_translate_quiet ensure_dt_opened_quiet : keeps.

Lemma read_comment_quiet b d n : keeps P (read_comment b d n).
Proof. unfold read_comment. keep. Qed.

Lemma appledouble_setattr_quiet path : keeps P (appledouble_setattr cf path).
Proof. unfold appledouble_setattr. keep. Qed.

#[local] Hint Resolve read_comment_quiet appledouble_setattr_quiet : keeps.

Lemma remove_opened_fork_quiet p : keeps P (remove_opened_fork p).
Proof. unfold remove_opened_fork. keep. Qed.

Lemma add_opened_fork_quiet p : keeps P (add_opened_fork p).
Proof. unfold add_opened_fork. keep. Qed.

#[local] Hint Resolve remove_opened_fork_quiet add_opened_fork_quiet : keeps.

Lemma appledouble_close_quiet fp : keeps P (appledouble_close cf fp).
Proof. unfold appledouble_close. keep. Qed.

Lemma appledouble_read_quiet fp n off : keeps P (appledouble_read cf fp n off).
Proof. unfold appledouble_read. keep. Qed.

Lemma appledouble_getattr_quiet path s : keeps P (appledouble_getattr cf path s).
Proof. unfold appledouble_getattr. keep. Qed.

Lemma view_loop_quiet real : forall l kept, keeps P (view_loop cf real l kept).
Proof. induction real; cbn [view_loop]; keep. Qed.

#[local] Hint Resolve view_loop_quiet : keeps.

Lemma appledouble_readdir_quiet pages path l : keeps P (appledouble_readdir cf pages path l).
Proof. unfold appledouble_readdir. keep. Qed.

Lemma place_fork_quiet fp path : keeps P (place_fork cf fp path).
Proof. unfold place_fork. keep. Qed.

Lemma alloc_fork_quiet : keeps P alloc_fork.
Proof. unfold alloc_fork. keep. Qed.

Lemma free_fork_quiet p : keeps P (free_fork p).
Proof. unfold free_fork. keep. Qed.

Lemma convert_path_to_afp_alloc_quiet path : keeps P (convert_path_to_afp_alloc cf path).
Proof. unfold convert_path_to_afp_alloc. keep. Qed.

Lemma lookup_dirid_quiet path : keeps P (lookup_dirid cf path).
Proof. unfold lookup_dirid. keep. Qed.

End Quietly.

#[export] Hint Resolve extra_translate_quiet ensure_dt_opened_quiet read_comment_quiet appledouble_setattr_quiet
  remove_opened_fork_quiet add_opened_fork_quiet appledouble_close_quiet appledouble_read_quiet
  appledouble_getattr_quiet appledouble_readdir_quiet place_fork_quiet alloc_fork_quiet free_fork_quiet
  convert_path_to_afp_alloc_quiet lookup_dirid_quiet : keeps.

Section ReadOnly.
Context {E : Type} {HE : Env E} (cf : config) (P : volume * E -> Prop) {HP : Quiet P}.
Context (Hro : volume_is_readonly cf = true).

(** *** Opens to read *)

Lemma read_flags flags : has flags write_flags = false ->
  open_access flags = AFP_OPENFORK_ALLOWREAD \/ open_access flags = 0.
Proof.
  intros Hf. unfold open_access. unfold has in Hf. apply negb_false_iff, Z.eqb_eq in Hf.
  destruct (Z.eqb_spec (Z.land flags O_ACCMODE) O_RDONLY); [by left|]. right.
  destruct (Z.eqb_spec (Z.land flags O_ACCMODE) O_WRONLY) as [H1|];
    [|destruct (Z.eqb_spec (Z.land flags O_ACCMODE) O_RDWR) as [H1|]; [|done]]; exfalso.
  - assert (Ht : Z.testbit (Z.land flags write_flags) 0 = true); [|by rewrite Hf in Ht].
    rewrite Z.land_spec. apply (f_equal (fun z => Z.testbit z 0)) in H1. rewrite Z.land_spec in H1.
    change (Z.testbit O_ACCMODE 0) with true in H1. change (Z.testbit write_flags 0) with true. exact H1.
  - assert (Ht : Z.testbit (Z.land flags write_flags) 1 = true); [|by rewrite Hf in Ht].
    rewrite Z.land_spec. apply (f_equal (fun z => Z.testbit z 1)) in H1. rewrite Z.land_spec in H1.
    change (Z.testbit O_ACCMODE 1) with true in H1. change (Z.testbit write_flags 1) with true. exact H1.
Qed.

Lemma no_write_bit flags bit : has flags write_flags = false -> Z.land write_flags bit = bit -> has flags bit = false.
Proof.
  unfold has. intros Hf Hb. apply negb_false_iff, Z.eqb_eq in Hf. apply negb_false_iff, Z.eqb_eq.
  by rewrite <- Hb, Z.land_assoc, Hf.
Qed.

Lemma read_access_quiet flags (b : bool) d bm name : has flags write_flags = false ->
  keeps P (call (OpenFork (if b then 1 else 0) d (open_access flags) bm name)).
Proof. intros Hf. apply quiet_call. cbn [changes]. by destruct (read_flags flags Hf) as [-> | ->]. Qed.

Lemma ll_open_quiet flags fp : has flags write_flags = false -> keeps P (ll_open cf flags fp).
Proof.
  intros Hf. pose proof (no_write_bit flags O_CREAT Hf eq_refl) as Hc.
  pose proof (no_write_bit flags O_TRUNC Hf eq_refl) as Ht.
  pose proof (fun b d bm name => read_access_quiet flags b d bm name Hf) as Ho.
  assert (He : forall err, keeps P (open_error fp false err)) by (intros; unfold open_error; keep).
  assert (Hopen : keeps P (open_fork cf flags (open_access flags) fp false)).
  { unfold open_fork. rewrite Ht. keep. by destruct (_ =? ETIMEDOUT). }
  unfold ll_open. rewrite Hc. keep.
Qed.

#[local] Hint Resolve ll_open_quiet : keeps.

Lemma appledouble_open_quiet path flags fp : has flags write_flags = false ->
  keeps P (appledouble_open cf path flags fp).
Proof.
  intros Hf. unfold appledouble_open. rewrite (no_write_bit flags O_TRUNC Hf eq_refl). keep.
Qed.

Lemma appledouble_open_meta_quiet path r flags fp : has flags write_flags = false ->
  keeps P (appledouble_open_meta cf path r flags fp).
Proof. intros Hf. unfold appledouble_open_meta. keep. Qed.

#[local] Hint Resolve appledouble_open_quiet appledouble_open_meta_quiet : keeps.

Lemma ml_open_quiet path flags : keeps P (ml_open cf path flags).
Proof.
  unfold ml_open. rewrite Hro. cbn [andb]. destruct (has flags write_flags) eqn:Hf; keep.
Qed.

Lemma open_appledouble_meta_quiet path r fp : keeps P (open_appledouble_meta cf path r O_RDONLY fp).
Proof. unfold open_appledouble_meta. keep. Qed.

Lemma ml_read_quiet n off fp : keeps P (ml_read cf n off fp).
Proof. unfold ml_read. keep. Qed.

#[local] Hint Resolve ml_open_quiet open_appledouble_meta_quiet ml_read_quiet : keeps.

Lemma ml_readlink_quiet path n : keeps P (ml_readlink cf path n).
Proof. unfold ml_readlink. keep. Qed.

Lemma resource_loop_quiet fuel : forall fp n pos rem got, keeps P (resource_loop cf fuel fp n pos rem got).
Proof. induction fuel; cbn [resource_loop]; keep. Qed.

#[local] Hint Resolve resource_loop_quiet : keeps.

Lemma ml_getresourcefork_quiet path n pos : keeps P (ml_getresourcefork cf path n pos).
Proof. unfold ml_getresourcefork. keep. Qed.

Lemma ml_getfinderinfo_quiet path n : keeps P (ml_getfinderinfo cf path n).
Proof. unfold ml_getfinderinfo. keep. Qed.

#[local] Hint Resolve ml_getresourcefork_quiet ml_getfinderinfo_quiet : keeps.

(** *** Operations the volume refuses *)

Lemma write_resource_fork_quiet path v pos whole : keeps P (write_resource_fork cf path v pos whole).
Proof. unfold write_resource_fork. rewrite Hro. keep. Qed.

Lemma ml_setfinderinfo_quiet path v : keeps P (ml_setfinderinfo cf path v).
Proof. unfold ml_setfinderinfo. rewrite Hro. keep. Qed.

#[local] Hint Resolve write_resource_fork_quiet ml_setfinderinfo_quiet : keeps.

End ReadOnly.

(** ** The operations of a volume

    Every operation of lib/midlevel.h on a volume; chmod, chown and utime are
    calls of ml_setattr. *)

Inductive volume_op : Type :=
| OpOpen (path : list Z) (flags : Z)
| OpCreat (path : list Z)
| OpReaddir (pages : nat) (path : list Z) (l : afp_listing)
| OpRead (size offset fp : Z)
| OpWrite (data : list Z) (offset fp : Z)
| OpSetattr (path : list Z) (which mode uid gid mtime : Z)
| OpGetattr (path : list Z)
| OpUnlink (path : list Z)
| OpMkdir (path : list Z) (mode : Z)
| OpRmdir (path : list Z)
| OpClose (fp : option Z)
| OpFsync (fp : Z)
| OpTruncate (path : list Z) (offset : Z)
| OpReadlink (path : list Z) (size : Z)
| OpSymlink (path1 path2 : list Z)
| OpRename (path_from path_to : list Z)
| OpExchange (path_from path_to : list Z)
| OpCopyRange (fp_in off_in fp_out off_out len : Z)
| OpStatfs
| OpGetxattr (path name : list Z) (size : Z)
| OpSetxattr (path name value : list Z) (flags : Z)
| OpListxattr (path : list Z) (size : Z)
| OpRemovexattr (path name : list Z)
| OpCloseFlush (fp : Z)
| OpGetresourcefork (path : list Z) (size position : Z)
| OpSetresourcefork (path value : list Z) (position flags : Z)
| OpTruncateresourcefork (path : list Z) (size : Z)
| OpRemoveresourcefork (path : list Z)
| OpGetfinderinfo (path : list Z) (size : Z)
| OpSetfinderinfo (path value : list Z) (flags : Z)
| OpRemovefinderinfo (path : list Z)
| OpFtruncate (fp offset : Z)
| OpSetCreatedMode (path : list Z) (mode : Z).

(** The operations that refuse a read-only volume or change nothing:
    ml_ftruncate and ml_set_created_mode have no such test. *)
Definition guarded (o : volume_op) : bool :=
  match o with
  | OpFtruncate _ _ | OpSetCreatedMode _ _ => false
  | _ => true
  end.

Definition run_op {E} `{Env E} (cf : config) (o : volume_op) : M E unit :=
  match o with
  | OpOpen path flags => ml_open cf path flags ;;! ret tt
  | OpCreat path => ml_creat cf path ;;! ret tt
  | OpReaddir pages path l => ml_readdir cf pages path l ;;! ret tt
  | OpRead size offset fp => ml_read cf size offset fp ;;! ret tt
  | OpWrite data offset fp => ml_write cf data offset fp ;;! ret tt
  | OpSetattr path which mode uid gid mtime => ml_setattr cf path which mode uid gid mtime ;;! ret tt
  | OpGetattr path => ml_getattr cf path ;;! ret tt
  | OpUnlink path => ml_unlink cf path ;;! ret tt
  | OpMkdir path mode => ml_mkdir cf path mode ;;! ret tt
  | OpRmdir path => ml_rmdir cf path ;;! ret tt
  | OpClose fp => ml_close cf fp ;;! ret tt
  | OpFsync fp => ml_fsync cf fp ;;! ret tt
  | OpTruncate path offset => ml_truncate cf path offset ;;! ret tt
  | OpReadlink path size => ml_readlink cf path size ;;! ret tt
  | OpSymlink path1 path2 => ml_symlink cf path1 path2 ;;! ret tt
  | OpRename path_from path_to => ml_rename cf path_from path_to ;;! ret tt
  | OpExchange path_from path_to => ml_exchange cf path_from path_to ;;! ret tt
  | OpCopyRange fp_in off_in fp_out off_out len => ml_copy_range cf fp_in off_in fp_out off_out len ;;! ret tt
  | OpStatfs => ml_statfs cf ;;! ret tt
  | OpGetxattr path name size => ml_getxattr cf path name size ;;! ret tt
  | OpSetxattr path name value flags => ml_setxattr cf path name value flags ;;! ret tt
  | OpListxattr path size => ml_listxattr cf path size ;;! ret tt
  | OpRemovexattr path name => ml_removexattr cf path name ;;! ret tt
  | OpCloseFlush fp => ml_close_flush cf fp ;;! ret tt
  | OpGetresourcefork path size position => ml_getresourcefork cf path size position ;;! ret tt
  | OpSetresourcefork path value position flags => ml_setresourcefork_flags cf path value position flags ;;! ret tt
  | OpTruncateresourcefork path size => ml_truncateresourcefork cf path size ;;! ret tt
  | OpRemoveresourcefork path => ml_removeresourcefork cf path ;;! ret tt
  | OpGetfinderinfo path size => ml_getfinderinfo cf path size ;;! ret tt
  | OpSetfinderinfo path value flags => ml_setfinderinfo_flags cf path value flags ;;! ret tt
  | OpRemovefinderinfo path => ml_removefinderinfo cf path ;;! ret tt
  | OpFtruncate fp offset => ml_ftruncate cf fp offset ;;! ret tt
  | OpSetCreatedMode path mode => ml_set_created_mode cf path mode
  end.

(** A sequence of operations. *)
Fixpoint run_ops {E} `{Env E} (cf : config) (os : list volume_op) : M E unit :=
  match os with
  | [] => ret tt
  | o :: os => run_op cf o ;;! run_ops cf os
  end.

Lemma run_ops_app {E} `{Env E} cf os1 os2 (w : volume * E) :
  run_ops cf (os1 ++ os2) w = run_ops cf os2 (snd (run_ops cf os1 w)).
Proof.
  revert w. induction os1 as [|o os1 IH]; intros w; [done|]. cbn [app run_ops]. unfold bind.
  destruct (run_op cf o w) as [[] w1]. apply IH.
Qed.

Section Run.
Context {E : Type} {HE : Env E} (cf : config) (P : volume * E -> Prop) {HP : Quiet P}.
Context (Hro : volume_is_readonly cf = true).

#[local] Hint Resolve ml_open_quiet ml_read_quiet ml_readlink_quiet ml_getresourcefork_quiet ml_getfinderinfo_quiet
  write_resource_fork_quiet ml_setfinderinfo_quiet : keeps.

Lemma run_op_quiet o : guarded o = true -> keeps P (run_op cf o).
Proof.
  intros Hg. destruct o; try discriminate Hg; cbn [run_op]; apply keeps_bind; try (intros; apply keeps_ret).
  - keep.
  - unfold ml_creat. rewrite Hro. keep.
  - unfold ml_readdir. keep.
  - keep.
  - unfold ml_write. rewrite Hro. keep.
  - unfold ml_setattr. rewrite Hro. keep.
  - unfold ml_getattr. keep.
  - unfold ml_unlink. rewrite Hro. keep.
  - unfold ml_mkdir. rewrite Hro. keep.
  - unfold ml_rmdir. rewrite Hro. keep.
  - unfold ml_close. keep.
  - keep.
  - unfold ml_truncate. rewrite Hro. keep.
  - keep.
  - unfold ml_symlink. rewrite Hro. keep.
  - unfold ml_rename. rewrite Hro. keep.
  - unfold ml_exchange. rewrite Hro. keep.
  - unfold ml_copy_range. rewrite Hro. keep.
  - unfold ml_statfs. keep.
  - unfold ml_getxattr. keep.
  - unfold ml_setxattr, ml_setresourcefork_flags, ml_setfinderinfo_flags. rewrite Hro. keep.
  - unfold ml_listxattr. keep.
  - unfold ml_removexattr, ml_removeresourcefork, ml_removefinderinfo, ml_setresourcefork. rewrite Hro. keep.
  - keep.
  - keep.
  - unfold ml_setresourcefork_flags. keep.
  - unfold ml_truncateresourcefork. rewrite Hro. keep.
  - unfold ml_removeresourcefork, ml_setresourcefork. keep.
  - keep.
  - unfold ml_setfinderinfo_flags. keep.
  - unfold ml_removefinderinfo. keep.
Qed.

End Run.

Definition readonly_config : config :=
  Config 34 65536 AFPC_SERVER_TYPE_NETATALK (4, 2, 3) kFPUTF8Name VOLUME_EXTRA_FLAGS_READONLY 0 [] 0
    (Identity AFP_MAPPING_COMMON 0 0 0) [] DSI_DEFAULT_TIMEOUT (fun _ => true).

(** C7: a read-only volume is changed only by ml_ftruncate and
    ml_set_created_mode. Whatever sequence of operations went before, those two
    among them, and whatever the paths, flags, data and handles and the server's
    answers are, every other operation sends no request that makes, deletes,
    moves, writes or re-labels an object, or opens a fork to write. *)
Theorem readonly_sends_no_change {E} `{Env E} cf os o (w : volume * Logged E) :
  volume_is_readonly cf = true ->
  guarded o = true ->
  changing (snd (snd (snd (run_ops cf (os ++ [o]) w)))) = changing (snd (snd (snd (run_ops cf os w)))).
Proof.
  intros Hro Hg. rewrite run_ops_app. cbn [run_ops]. set (w1 := snd (run_ops cf os w)).
  apply (keeps_bind (fun w' => changing (snd (snd w')) = changing (snd (snd w1)))); [|intros; apply keeps_ret|done].
  exact (run_op_quiet cf (fun w' => changing (snd (snd w')) = changing (snd (snd w1))) Hro o Hg).
Qed.

#[local] Instance opening_unit : Env unit := fun A c e =>
  (match c in cmd A return A with
   | OpenFork res d access bm name => (0, OpenReply (Some 7) None None)
   | c => no_answer c
   end, e).

(** A file opened to read on a read-only volume can still be cut through its
    handle: ml_ftruncate sends the new length. *)
Lemma ftruncate_unguarded :
  changing (snd (snd (snd (run_ops readonly_config [OpOpen (str "/a") O_RDONLY; OpFtruncate 1 0]
    (empty_volume, (tt, [])))))) = [Sent Z (SetForkParms 7 kFPExtDataForkLenBit 0) (- EIO)].
Proof. vm_compute. reflexivity. Qed.

Lemma readonly_sends_no_change_witness :
  changing (snd (snd (snd (run_ops readonly_config
    ([OpOpen (str "/a") O_RDONLY; OpFtruncate 1 0; OpUnlink (str "/a/b"); OpMkdir (str "/c") 448] ++
     [OpSetxattr (str "/a") (str "user.x") (str "y") 0]) (empty_volume, (tt, []))))))
  = [Sent Z (SetForkParms 7 kFPExtDataForkLenBit 0) (- EIO)].
Proof.
  rewrite (readonly_sends_no_change readonly_config
    [OpOpen (str "/a") O_RDONLY; OpFtruncate 1 0; OpUnlink (str "/a/b"); OpMkdir (str "/c") 448]
    (OpSetxattr (str "/a") (str "user.x") (str "y") 0) (empty_volume, (tt, []))) by reflexivity.
  vm_compute. reflexivity.
Defined.
