(* ===== verification/Requests.v ===== *)
(** The AFP requests' bytes (lib/proto_fork.c, proto_directory.c,
    proto_files.c, proto_attr.c, proto_desktop.c, proto_volume.c): each
    function's packet from the command byte on, after the DSI header. *)
From S2P Require Import Prelude AfpProtocol Utils Dates ReplyBlock Listing World.

(** What the requests read of the volume and its server. *)
Record wire := Wire { w_volid : Z; w_encoding : Z; w_dtrefnum : Z; w_bufsize : Z; w_clock : option clock }.

Section Requests.
Context (wr : wire).

Definition path (name : list Z) : list Z := path_block (w_encoding wr) name.
Definition volid : list Z := be_put 2 (w_volid wr).

(** The byte that puts the next field on an even offset of the packet. *)
Definition even_pad (before : list Z) : list Z := if Z.odd (zlen before) then [0] else [].

(** ** proto_fork.c *)

Definition afp_setforkparms (forkid bitmap len : Z) : list Z :=
  [afpSetForkParms; 0] ++ be_put 2 forkid ++ be_put 2 bitmap
  ++ (if has bitmap (Z.lor kFPExtDataForkLenBit kFPExtRsrcForkLenBit) then be_put 8 len else be_put 4 len).

Definition afp_fork_command (command forkid : Z) : list Z := [command; 0] ++ be_put 2 forkid.
Definition afp_closefork (forkid : Z) : list Z := afp_fork_command afpCloseFork forkid.
Definition afp_flushfork (forkid : Z) : list Z := afp_fork_command afpFlushFork forkid.
Definition afp_syncfork (forkid : Z) : list Z := afp_fork_command afpSyncFork forkid.

Definition afp_openfork (forktype dirid accessmode bitmap : Z) (filename : list Z) : list Z :=
  [afpOpenFork; if forktype =? 0 then AFP_FORKTYPE_DATA else AFP_FORKTYPE_RESOURCE] ++ volid ++ be_put 4 dirid
  ++ be_put 2 bitmap ++ be_put 2 accessmode ++ path filename.

Definition afp_byterangelock (flag forkid offset len : Z) : list Z :=
  [afpByteRangeLock; u8 flag] ++ be_put 2 forkid ++ be_put 4 offset ++ be_put 4 len.
Definition afp_byterangelockext (flag forkid offset len : Z) : list Z :=
  [afpByteRangeLockExt; u8 flag] ++ be_put 2 forkid ++ be_put 8 offset ++ be_put 8 len.

(** ** proto_directory.c *)

Definition AFP_ENUMERATE_MAX_REPLY_SIZE : Z := INT16_MAX.
Definition AFP_ENUMERATE_REPLY_HEADER_BYTES : Z := 6.

Definition enumerate_max_payload : Z :=
  let reserved := 16 + AFP_ENUMERATE_REPLY_HEADER_BYTES in
  if w_bufsize wr <=? reserved then 0 else w_bufsize wr - reserved.
Definition enumerate_max_reply_size : Z := Z.min AFP_ENUMERATE_MAX_REPLY_SIZE enumerate_max_payload.

Definition afp_exchangefiles (src_did dst_did : Z) (src_path dst_path : list Z) : list Z :=
  [afpExchangeFiles; 0] ++ volid ++ be_put 4 src_did ++ be_put 4 dst_did ++ path src_path ++ path dst_path.

Definition afp_moveandrename (src_did dst_did : Z) (src_path : list Z) (dst_path : option (list Z)) (new_name : list Z)
    : list Z :=
  [afpMoveAndRename; 0] ++ volid ++ be_put 4 src_did ++ be_put 4 dst_did
  ++ path src_path ++ path (default [] dst_path) ++ path new_name.

Definition afp_rename (dirid : Z) (path_from path_to : list Z) : list Z :=
  [afpRename; 0] ++ volid ++ be_put 4 dirid ++ path path_from ++ path path_to.

Definition afp_createdir (dirid : Z) (pathname : list Z) : list Z :=
  [afpCreateDir; 0] ++ volid ++ be_put 4 dirid ++ path pathname.

(** The request of an enumeration. Its length is an [unsigned short len], of which
    the block is allocated and sent; [None] where the sum of the headers and the
    path wraps, so that the fields are written past the block. *)
Definition enumerate_request (fixed pathname : list Z) : option (list Z) :=
  let whole := sizeof_path_header (w_encoding wr) + zlen pathname + (16 + zlen fixed) in
  let len := u16 whole in
  if len <? whole then None else Some (fixed ++ path pathname).

Definition afp_enumerate (dirid filebitmap dirbitmap reqcount startindex : Z) (pathname : list Z) : option (list Z) :=
  enumerate_request ([afpEnumerate; 0] ++ volid ++ be_put 4 dirid ++ be_put 2 filebitmap ++ be_put 2 dirbitmap
    ++ be_put 2 reqcount ++ be_put 2 startindex ++ be_put 2 enumerate_max_reply_size) pathname.
Definition afp_enumerateext (dirid filebitmap dirbitmap reqcount startindex : Z) (pathname : list Z)
    : option (list Z) :=
  enumerate_request ([afpEnumerateExt; 0] ++ volid ++ be_put 4 dirid ++ be_put 2 filebitmap ++ be_put 2 dirbitmap
    ++ be_put 2 reqcount ++ be_put 2 startindex ++ be_put 2 enumerate_max_reply_size) pathname.
Definition afp_enumerateext2 (dirid filebitmap dirbitmap reqcount startindex : Z) (pathname : list Z)
    : option (list Z) :=
  enumerate_request ([afpEnumerateExt2; 0] ++ volid ++ be_put 4 dirid ++ be_put 2 filebitmap ++ be_put 2 dirbitmap
    ++ be_put 2 reqcount ++ be_put 4 startindex ++ be_put 4 enumerate_max_payload) pathname.

(** ** proto_files.c *)

(** The parameters of a set, in the order of their bits. *)
Definition set_params_block (bitmap : Z) (e : afp_dirent) : list Z :=
  let on bit l := if has bitmap bit then l else [] in
  let date ns := be_put 4 (afp_date_from_unix (w_clock wr) (afp_sec_from_ns ns)) in
  on kFPAttributeBit (be_put 2 (attributes e))
  ++ on kFPCreateDateBit (date (create_ns e))
  ++ on kFPModDateBit (date (mod_ns e))
  ++ on kFPFinderInfoBit (finderinfo e)
  ++ on kFPOwnerIDBit (be_put 4 (up_uid e))
  ++ on kFPGroupIDBit (be_put 4 (up_gid e))
  ++ on kFPUnixPrivsBit (be_put 4 (up_uid e) ++ be_put 4 (up_gid e) ++ be_put 4 (up_permissions e)
                         ++ be_put 4 (up_ua_permissions e)).

Definition set_params (command dirid : Z) (pathname : list Z) (bitmap : Z) (params : list Z) : list Z :=
  let fixed := [command; 0] ++ volid ++ be_put 4 dirid ++ be_put 2 bitmap ++ path pathname in
  fixed ++ even_pad fixed ++ params.
Definition afp_setfiledirparms (dirid : Z) (pathname : list Z) (bitmap : Z) (e : afp_dirent) : list Z :=
  set_params afpSetFileDirParms dirid pathname bitmap (set_params_block bitmap e).
Definition afp_setdirparms (dirid : Z) (pathname : list Z) (bitmap : Z) (e : afp_dirent) : list Z :=
  set_params afpSetDirParms dirid pathname bitmap (set_params_block bitmap e).

Definition afp_delete (dirid : Z) (pathname : list Z) : list Z :=
  [afpDelete; 0] ++ volid ++ be_put 4 dirid ++ path pathname.

Definition afp_copyfile (srcdid : Z) (srcname : list Z) (dstdid : Z) (dstname : list Z) : list Z :=
  [afpCopyFile; 0] ++ volid ++ be_put 4 srcdid ++ volid ++ be_put 4 dstdid
  ++ path srcname ++ path [] ++ path dstname.

Definition afp_read (forkid offset count : Z) : list Z :=
  [afpRead; 0] ++ be_put 2 forkid ++ be_put 4 offset ++ be_put 4 count ++ [0; 0].
Definition afp_readext (forkid offset count : Z) : list Z :=
  [afpReadExt; 0] ++ be_put 2 forkid ++ be_put 8 offset ++ be_put 8 count.

Definition afp_getfiledirparms (did filebitmap dirbitmap : Z) (pathname : list Z) : list Z :=
  [afpGetFileDirParms; 0] ++ volid ++ be_put 4 did ++ be_put 2 filebitmap ++ be_put 2 dirbitmap ++ path pathname.

Definition afp_createfile (flag did : Z) (pathname : list Z) : list Z :=
  [afpCreateFile; u8 flag] ++ volid ++ be_put 4 did ++ path pathname.

Definition afp_write (forkid offset : Z) (data : list Z) : list Z :=
  [afpWrite; 0] ++ be_put 2 forkid ++ be_put 4 offset ++ be_put 4 (zlen data) ++ data.
Definition afp_writeext (forkid offset : Z) (data : list Z) : list Z :=
  [afpWriteExt; 0] ++ be_put 2 forkid ++ be_put 8 offset ++ be_put 8 (zlen data) ++ data.

(** ** proto_attr.c *)

Definition attr_name (name : list Z) : list Z := be_put 2 (zlen name) ++ name.

Definition afp_listextattr (dirid bitmap maxsize : Z) (pathname : list Z) : list Z :=
  [afpListExtAttrs; 0] ++ volid ++ be_put 4 dirid ++ be_put 2 bitmap ++ be_put 2 0 ++ be_put 4 0 ++ be_put 4 maxsize
  ++ path pathname.
Definition afp_getextattr (dirid bitmap replysize : Z) (pathname name : list Z) : list Z :=
  let fixed := [afpGetExtAttr; 0] ++ volid ++ be_put 4 dirid ++ be_put 2 bitmap ++ be_put 8 0 ++ be_put 8 SIZE_MAX
               ++ be_put 4 replysize ++ path pathname in
  fixed ++ even_pad fixed ++ attr_name name.
Definition afp_setextattr (dirid bitmap offset : Z) (pathname name data : list Z) : list Z :=
  let fixed := [afpSetExtAttr; 0] ++ volid ++ be_put 4 dirid ++ be_put 2 bitmap ++ be_put 8 offset ++ path pathname in
  fixed ++ even_pad fixed ++ attr_name name ++ be_put 4 (zlen data) ++ data.
Definition afp_removeextattr (dirid bitmap : Z) (pathname name : list Z) : list Z :=
  let fixed := [afpRemoveExtAttr; 0] ++ volid ++ be_put 4 dirid ++ be_put 2 bitmap ++ path pathname in
  fixed ++ even_pad fixed ++ attr_name name.

(** ** proto_desktop.c, proto_volume.c *)

Definition afp_opendt : list Z := [afpOpenDT; 0] ++ volid.
Definition afp_closedt (refnum : Z) : list Z := [afpCloseDT; 0] ++ be_put 2 refnum.
Definition afp_geticon (filecreator filetype icontype length : Z) : list Z :=
  [afpGetIcon; 0] ++ be_put 2 (w_dtrefnum wr) ++ be_put 4 filecreator ++ be_put 4 filetype ++ [u8 icontype; 0]
  ++ be_put 2 length.
Definition afp_geticoninfo (filecreator index : Z) : list Z :=
  [afpGetIconInfo; 0] ++ be_put 2 (w_dtrefnum wr) ++ be_put 4 filecreator ++ be_put 2 index.
Definition afp_getappl (filecreator index bitmap : Z) : list Z :=
  [afpGetAPPL; 0] ++ be_put 2 (w_dtrefnum wr) ++ be_put 4 filecreator ++ be_put 2 index ++ be_put 2 bitmap.
Definition afp_getcomment (did : Z) (pathname : list Z) : list Z :=
  [afpGetComment; 0] ++ be_put 2 (w_dtrefnum wr) ++ be_put 4 did ++ path pathname.

(** [None] for a comment or a packet too long. *)
Definition afp_addcomment_sized (did : Z) (pathname comment : list Z) : option (list Z) :=
  if zlen comment >? UINT8_MAX then None
  else if zlen pathname >? INT_MAX - 24 - sizeof_path_header (w_encoding wr) - 2 - zlen comment then None
  else
    let fixed := [afpAddComment; 0] ++ be_put 2 (w_dtrefnum wr) ++ be_put 4 did ++ path pathname in
    Some (fixed ++ even_pad fixed ++ [zlen comment] ++ comment).

Definition afp_volclose : list Z := [afpCloseVol; 0] ++ volid.
Definition afp_getvolparms (bitmap : Z) : list Z := [afpGetVolParms; 0] ++ volid ++ be_put 2 bitmap.

(** The volume's name, and a password in eight bytes at the end, which starts
    on an even offset. *)
Definition afp_volopen (volume_name : list Z) (bitmap : Z) (password : option (list Z)) : list Z :=
  let fixed := [afpOpenVol; 0] ++ be_put 2 bitmap ++ copy_to_pascal volume_name in
  match password with
  | None => fixed
  | Some p =>
      let pass := take (Z.to_nat (strnlen p AFP_VOLPASS_LEN)) p in
      fixed ++ even_pad fixed ++ pass ++ zero_bytes (AFP_VOLPASS_LEN - zlen pass)
  end.

(** ** The requests of the file operations *)

(** What goes on the wire of a request of [World], and what does not: a
    command of the client's machine, a comment that is refused, or an
    enumeration whose length wraps. *)
Definition packet {A} (c : cmd A) : option (list Z) :=
  match c with
  | Gettimeofday | Malloc _ | Sleep _ => None
  | GetFileDirParms d fb db n => Some (afp_getfiledirparms d fb db n)
  | SetFileDirParms d n bm e => Some (afp_setfiledirparms d n bm e)
  | SetDirParms d n bm e => Some (afp_setdirparms d n bm e)
  | OpenFork t d m bm n => Some (afp_openfork t d m bm n)
  | CloseFork f => Some (afp_closefork f)
  | FlushFork f _ => Some (afp_flushfork f)
  | SyncFork f _ => Some (afp_syncfork f)
  | ReadFork true f off n => Some (afp_readext f off n)
  | ReadFork false f off n => Some (afp_read f off n)
  | WriteFork true f off d => Some (afp_writeext f off d)
  | WriteFork false f off d => Some (afp_write f off d)
  | ByteRangeLock true fl f off n => Some (afp_byterangelockext fl f off n)
  | ByteRangeLock false fl f off n => Some (afp_byterangelock fl f off n)
  | SetForkParms f bm n => Some (afp_setforkparms f bm n)
  | CreateFile fl d n => Some (afp_createfile fl d n)
  | CreateDir d n => Some (afp_createdir d n)
  | Delete d n => Some (afp_delete d n)
  | CopyFile sd s dd dn _ => Some (afp_copyfile sd s dd dn)
  | MoveAndRename sd dd s f n => Some (afp_moveandrename sd dd s f n)
  | ExchangeFiles sd dd s d => Some (afp_exchangefiles sd dd s d)
  | Enumerate Enumerate16 d fb db r i n _ => afp_enumerate d fb db r i n
  | Enumerate EnumerateExt d fb db r i n _ => afp_enumerateext d fb db r i n
  | Enumerate EnumerateExt2 d fb db r i n _ => afp_enumerateext2 d fb db r i n
  | GetVolParms bm => Some (afp_getvolparms bm)
  | OpenDT => Some afp_opendt
  | GetComment d n => Some (afp_getcomment d n)
  | AddComment d n c => afp_addcomment_sized d n c
  | GetExtAttr d bm r p n => Some (afp_getextattr d bm r p n)
  | SetExtAttr d bm off p n v => Some (afp_setextattr d bm off p n v)
  | ListExtAttr d bm p => Some (afp_listextattr d bm (64 * 1024) p)
  | RemoveExtAttr d bm p n => Some (afp_removeextattr d bm p n)
  end.

End Requests.
