(* ===== verification/Replies.v ===== *)
(** The reply handlers (lib/proto_fork.c, proto_directory.c, proto_files.c,
    proto_attr.c, proto_desktop.c, proto_volume.c, proto_server.c,
    proto_login.c, proto_session.c, proto_map.c) and their table in lib/afp.c.

    [buf] is the memory from the packet's DSI header on, [size] the bytes of
    it the packet has, so a handler that reads past the packet shows. A
    handler gives its answer and what it stores for the caller; [None] for
    what it leaves as it was. Byte order is a little-endian host's. *)
From S2P Require Import Prelude AfpProtocol Utils Codepage Dates ReplyBlock Listing World.

Definition HEADER : Z := 16.

(** The error code of the header as the handlers compare and return it, in
    network order on a little-endian host. *)
Definition error_code (buf : list Z) : Z := i32 (be_get (rev (sub 4 4 buf))).

Section Handlers.
Context (heap : Z -> bool) (server : option clock).

Definition afp_blank_reply (buf : list Z) (size : Z) : Z := error_code buf.

(** ** proto_fork.c *)

Definition afp_openfork_reply (buf : list Z) (size : Z) : Z * open_reply :=
  let nothing := OpenReply None None None in
  let reply := sub 0 (HEADER + 4) buf in
  if (error_code reply =? kFPNoErr) || (error_code reply =? kFPDenyConflict) then
    if size <? HEADER + 4 then (-1, nothing)
    else
      let forkid := be_at reply (HEADER + 2) 2 in
      let bitmap := be_at reply HEADER 2 in
      let params := if bitmap =? 0 then None
                    else parse_reply_block heap server (drop (Z.to_nat (HEADER + 4)) buf) (size - (HEADER + 4))
                           0 bitmap 0 None 0 in
      let member bit f := match params with
                          | Some s => if has bitmap bit then Some (f (entry s)) else None
                          | None => None
                          end in
      (0, OpenReply (Some forkid) (member kFPNodeIDBit cnid) (member kFPExtDataForkLenBit d_size))
  else (0, nothing).

Definition afp_byterangelock_reply (buf : list Z) (size : Z) : Z * Z :=
  (error_code buf, if size >=? HEADER + 8 then be_at buf HEADER 4 else 0).

Definition afp_byterangelockext_reply (buf : list Z) (size : Z) : Z * Z :=
  (error_code buf, if size >=? HEADER + 8 then be_at buf HEADER 8 else 0).

(** ** proto_directory.c *)

Definition afp_createdir_reply (buf : list Z) (size : Z) : Z * Z :=
  if negb (error_code buf =? 0) then (error_code buf, 0)
  else if size <? HEADER + 4 then (-1, 0)
  else (0, be_at buf HEADER 4).

(** The listing rolled back to what it held, its arrays as they have grown. *)
Definition roll_back (l0 l : afp_listing) : afp_listing :=
  Listing (take (Z.to_nat (count l0)) (entries l)) (count l0) (capacity l)
    (take (Z.to_nat (pool_used l0)) (pool l)) (pool_used l0) (pool_cap l).

(** The loop over [n] more entries from [p] on: the answer and the listing,
    or [None] for a write past an allocation. *)
Fixpoint enumerate_entries (realloc : Z -> bool) (buf : list Z) (size : Z) (ext : bool) (fbm dbm : Z)
    (l0 : afp_listing) (n : nat) (p : Z) (l : afp_listing) : option (Z * afp_listing) :=
  match n with
  | O => Some (0, l)
  | S n =>
      let header := if ext then 4 else 2 in
      if size - p <? header then Some (-1, roll_back l0 l)
      else
        let entry_size := if ext then be_at buf p 2 else byte_at buf p in
        let isdir := byte_at buf (if ext then p + 2 else p + 1) in
        if (entry_size <? header) || (size - p <? entry_size) then Some (-1, roll_back l0 l)
        else
          let (r, l) := afp_listing_reserve realloc l 1 AFPC_MAX_NAME_BYTES in
          if r <? 0 then Some (-1, roll_back l0 l)
          else
            match parse_reply_block heap server (drop (Z.to_nat (p + header)) buf) (entry_size - header) isdir fbm dbm
                    (Some []) AFPC_MAX_NAME_BYTES with
            | None => Some (-1, roll_back l0 l)
            | Some s =>
                match afp_listing_commit l (entry s) (default [] (pname s)) with
                | None => None
                | Some l => enumerate_entries realloc buf size ext fbm dbm l0 n (p + entry_size) l
                end
            end
  end.

Definition enumerate_reply (realloc : Z -> bool) (buf : list Z) (size : Z) (ext : bool) (l : afp_listing)
    : option (Z * afp_listing) :=
  if size <? HEADER then Some (-1, l)
  else if negb (error_code buf =? 0) then Some (error_code buf, l)
  else if size <? HEADER + 6 then Some (-1, l)
  else enumerate_entries realloc buf size ext (be_at buf HEADER 2) (be_at buf (HEADER + 2) 2) l
         (Z.to_nat (be_at buf (HEADER + 4) 2)) (HEADER + 6) l.

Definition afp_enumerate_reply (realloc : Z -> bool) (buf : list Z) (size : Z) (l : afp_listing) :=
  enumerate_reply realloc buf size false l.
Definition afp_enumerateext2_reply (realloc : Z -> bool) (buf : list Z) (size : Z) (l : afp_listing) :=
  enumerate_reply realloc buf size true l.

(** ** proto_files.c *)

(** What a read's buffer of [maxsize] bytes receives, and the error code. *)
Definition afp_read_reply (buf : list Z) (size maxsize : Z) : Z * (list Z * option Z) :=
  if size <? HEADER then (-1, ([], None))
  else (0, (sub HEADER (Z.min (size - HEADER) maxsize) buf, Some (i32 (be_at buf 4 4)))).
Definition afp_readext_reply (buf : list Z) (size maxsize : Z) : Z * (list Z * option Z) :=
  afp_read_reply buf size maxsize.

(** The record, and the answer. *)
Definition afp_getfiledirparms_reply (buf : list Z) (size : Z) : Z * option afp_dirent :=
  if size <? HEADER + 6 then (-1, None)
  else if negb (error_code buf =? 0) then (error_code buf, None)
  else
    match parse_reply_block heap server (drop (Z.to_nat (HEADER + 6)) buf) (size - (HEADER + 6))
            (byte_at buf (HEADER + 4)) (be_at buf HEADER 2) (be_at buf (HEADER + 2) 2) None 0 with
    | None => (-1, None)
    | Some s => (0, Some (entry s))
    end.

(** The bytes the server says it wrote, at the reply's end. *)
Definition written_reply (width : Z) (buf : list Z) (size : Z) : Z * Z :=
  (0, if (size <? HEADER) || negb (error_code buf =? 0) || (size <? HEADER + width) then 0
      else be_at buf (size - width) width).
Definition afp_write_reply (buf : list Z) (size : Z) : Z * Z := written_reply 4 buf size.
Definition afp_writeext_reply (buf : list Z) (size : Z) : Z * Z := written_reply 8 buf size.

(** ** proto_attr.c *)

(** The value's length and the bytes copied, of at most [maxsize]. *)
Definition extattr_reply (buf : list Z) (size maxsize : Z) : Z * extattr_info :=
  if size <? HEADER then (0, ExtAttr 0 [])
  else if negb (error_code buf =? 0) then (0, ExtAttr 0 [])
  else if size <? HEADER + 6 then (0, ExtAttr 0 [])
  else
    let datalength := be_at buf (HEADER + 2) 4 in
    let available := size - (HEADER + 6) in
    (0, ExtAttr datalength (sub (HEADER + 6) (Z.min maxsize (Z.min datalength available)) buf)).
Definition afp_listextattrs_reply (buf : list Z) (size maxsize : Z) : Z * extattr_info := extattr_reply buf size maxsize.
Definition afp_getextattr_reply (buf : list Z) (size maxsize : Z) : Z * extattr_info := extattr_reply buf size maxsize.

(** ** proto_desktop.c *)

Definition afp_geticon_reply (buf : list Z) (size maxsize : Z) : Z * option (list Z) :=
  if size <? HEADER then (-1, None)
  else if negb (error_code buf =? kFPNoErr) then (error_code buf, None)
  else
    let len := size - HEADER in
    if len >? maxsize then (-1, None) else (0, Some (sub HEADER len buf)).

Definition afp_getcomment_reply (buf : list Z) (size maxsize : Z) : Z * option (list Z) :=
  if size <? HEADER + 1 then (-1, None)
  else if negb (error_code buf =? kFPNoErr) then (error_code buf, None)
  else
    let len := byte_at buf HEADER in
    if (len >? size - (HEADER + 1)) || (len >? maxsize) then (-1, None)
    else (0, Some (sub (HEADER + 1) len buf)).

Definition afp_opendt_reply (buf : list Z) (size : Z) : Z * option Z :=
  if size <? HEADER + 2 then (-1, None)
  else if negb (error_code buf =? kFPNoErr) then (error_code buf, None)
  else (0, Some (be_at buf HEADER 2)).

Record icon_info := IconInfo { ii_tag : Z; ii_filetype : Z; ii_size : Z; ii_icontype : Z }.

Definition afp_geticoninfo_reply (buf : list Z) (size : Z) : Z * option icon_info :=
  if size <? HEADER + 12 then (-1, None)
  else if negb (error_code buf =? kFPNoErr) then (error_code buf, None)
  else (0, Some (IconInfo (be_at buf HEADER 4) (be_at buf (HEADER + 4) 4) (be_at buf (HEADER + 10) 2)
                   (byte_at buf (HEADER + 8)))).

Record appl := Appl { ap_bitmap : Z; ap_tag : Z; ap_file : afp_dirent; ap_name : list Z }.

Definition afp_getappl_reply (buf : list Z) (size : Z) : Z * option appl :=
  if size <? HEADER + 6 then (-1, None)
  else if negb (error_code buf =? kFPNoErr) then (error_code buf, None)
  else
    let bitmap := be_at buf HEADER 2 in
    match parse_reply_block heap server (drop (Z.to_nat (HEADER + 6)) buf) (size - (HEADER + 6)) 0 bitmap 0
            (Some []) AFPC_MAX_NAME_BYTES with
    | None => (-1, None)
    | Some s => (0, Some (Appl bitmap (be_at buf (HEADER + 2) 4) (entry s) (default [] (pname s))))
    end.
End Handlers.
