(* ===== verification/Session.v ===== *)
(** The requests and replies of a session and of its volumes
    (lib/proto_login.c, proto_session.c, proto_map.c, proto_server.c,
    proto_volume.c), and the table of reply handlers in lib/afp.c. *)
From S2P Require Import Prelude AfpProtocol Utils Codepage Dates ReplyBlock Listing World Requests Replies.

(** ** proto_volume.c *)

(** What a parameter reply stores in struct afp_volume. *)
Record vol_parms := VolParms {
  v_attributes : Z; v_signature : Z; v_creation_date : Z; v_modification_date : Z; v_backup_date : Z;
  v_volid : Z; v_bfree : Z; v_blocks : Z; v_bsize : Z }.

Definition set_v_attributes (x : Z) (v : vol_parms) : vol_parms :=
  VolParms x (v_signature v) (v_creation_date v) (v_modification_date v) (v_backup_date v) (v_volid v) (v_bfree v)
    (v_blocks v) (v_bsize v).
Definition set_v_signature (x : Z) (v : vol_parms) : vol_parms :=
  VolParms (v_attributes v) x (v_creation_date v) (v_modification_date v) (v_backup_date v) (v_volid v) (v_bfree v)
    (v_blocks v) (v_bsize v).
Definition set_v_creation_date (x : Z) (v : vol_parms) : vol_parms :=
  VolParms (v_attributes v) (v_signature v) x (v_modification_date v) (v_backup_date v) (v_volid v) (v_bfree v)
    (v_blocks v) (v_bsize v).
Definition set_v_modification_date (x : Z) (v : vol_parms) : vol_parms :=
  VolParms (v_attributes v) (v_signature v) (v_creation_date v) x (v_backup_date v) (v_volid v) (v_bfree v)
    (v_blocks v) (v_bsize v).
Definition set_v_backup_date (x : Z) (v : vol_parms) : vol_parms :=
  VolParms (v_attributes v) (v_signature v) (v_creation_date v) (v_modification_date v) x (v_volid v) (v_bfree v)
    (v_blocks v) (v_bsize v).
Definition set_v_volid (x : Z) (v : vol_parms) : vol_parms :=
  VolParms (v_attributes v) (v_signature v) (v_creation_date v) (v_modification_date v) (v_backup_date v) x (v_bfree v)
    (v_blocks v) (v_bsize v).
Definition set_v_bfree (x : Z) (v : vol_parms) : vol_parms :=
  VolParms (v_attributes v) (v_signature v) (v_creation_date v) (v_modification_date v) (v_backup_date v) (v_volid v) x
    (v_blocks v) (v_bsize v).
Definition set_v_blocks (x : Z) (v : vol_parms) : vol_parms :=
  VolParms (v_attributes v) (v_signature v) (v_creation_date v) (v_modification_date v) (v_backup_date v) (v_volid v)
    (v_bfree v) x (v_bsize v).
Definition set_v_bsize (x : Z) (v : vol_parms) : vol_parms :=
  VolParms (v_attributes v) (v_signature v) (v_creation_date v) (v_modification_date v) (v_backup_date v) (v_volid v)
    (v_bfree v) (v_blocks v) x.

(** The bits of a volume's bitmap in their order, each with its width and
    where its value goes. *)
Definition vol_fields (server : option clock) : list (Z * Z * (Z -> vol_parms -> vol_parms)) :=
  [(kFPVolAttributeBit, 2, set_v_attributes); (kFPVolSignatureBit, 2, set_v_signature);
   (kFPVolCreateDateBit, 4, fun d => set_v_creation_date (afp_date_to_unix server d));
   (kFPVolModDateBit, 4, fun d => set_v_modification_date (afp_date_to_unix server d));
   (kFPVolBackupDateBit, 4, fun d => set_v_backup_date (afp_date_to_unix server d));
   (kFPVolIDBit, 2, set_v_volid); (kFPVolBytesFreeBit, 4, set_v_bfree); (kFPVolBytesTotalBit, 4, set_v_blocks);
   (kFPVolNameBit, 2, fun _ v => v); (kFPVolExtBytesFreeBit, 8, set_v_bfree);
   (kFPVolExtBytesTotalBit, 8, set_v_blocks); (kFPVolBlockSizeBit, 4, set_v_bsize)].

Fixpoint vol_loop (bitmap : Z) (fs : list (Z * Z * (Z -> vol_parms -> vol_parms))) (msg : list Z) (p : Z)
    (v : vol_parms) : vol_parms :=
  match fs with
  | [] => v
  | (bit, width, store) :: r =>
      if has bitmap bit then vol_loop bitmap r msg (p + width) (store (be_at msg p width) v)
      else vol_loop bitmap r msg p v
  end.

(** The one check compares the message's start with its end, so no reply is
    refused. *)
Definition parse_volbitmap_reply (server : option clock) (v : vol_parms) (bitmap : Z) (msg : list Z) (size : Z)
    : Z * vol_parms :=
  if has bitmap kFPVolAttributeBit && (0 >? size) then (-1, v)
  else (0, vol_loop bitmap (vol_fields server) msg 0 v).

Definition afp_getvolparms_reply (server : option clock) (buf : list Z) (size : Z) (v : vol_parms) : Z * vol_parms :=
  if size <? HEADER + 2 then (-1, v)
  else parse_volbitmap_reply server v (be_at buf HEADER 2) (drop (Z.to_nat (HEADER + 2)) buf) (size - (HEADER + 2)).

(** The volume's name of the server in the client's form. *)
Definition printable_name (heap : Z -> bool) (utf8 : bool) (name printable : list Z) : list Z :=
  let src := take (Z.to_nat (strnlen name AFP_VOLUME_NAME_UTF8_LEN)) name in
  if utf8 then snd (convert_utf8dec_to_utf8pre heap src AFP_VOLUME_NAME_UTF8_LEN printable)
  else snd (convert_mac_roman_to_utf8 src AFP_VOLUME_NAME_UTF8_LEN printable).

(** The answer, the parameters and the printable name. *)
Definition afp_volopen_reply (heap : Z -> bool) (server : option clock) (buf : list Z) (size : Z) (v : vol_parms)
    (volume_name volume_name_printable : list Z) : Z * vol_parms * list Z :=
  let (r, v') := afp_getvolparms_reply server buf size v in
  if negb (r =? 0) then (-1, v', volume_name_printable)
  else (0, v', printable_name heap (has (v_attributes v') kSupportsUTF8Names) volume_name volume_name_printable).

(** ** proto_server.c *)

Definition afp_getsrvrparms : list Z := [afpGetSrvrParms].
Definition afp_getsrvrmsg (messagetype : Z) (utf8 : bool) : list Z :=
  [afpGetSrvrMsg; 0] ++ be_put 2 messagetype
  ++ be_put 2 (Z.lor AFP_GETSRVRMSG_GETMSG (if utf8 then AFP_GETSRVRMSG_UTF8 else 0)).
Definition afp_zzzzz : list Z := [afpZzzzz; 0] ++ be_put 4 0.

(** A volume as the server lists it. *)
Record listed_volume := ListedVolume { lv_flags : Z; lv_name : list Z; lv_printable : list Z }.

(** What the reply sets of the server. *)
Record srvr_parms := SrvrParms { sp_connect_time : Z; sp_clock : option clock; sp_volumes : list listed_volume }.

Definition set_time_offset (server : option clock) (offset : Z) : option clock :=
  match server with Some c => Some (Clock (using_version c) offset) | None => None end.

(** The volumes from [p] on; [None] for a reply cut short. *)
Fixpoint volumes_loop (heap : Z -> bool) (mac_roman : bool) (msg : list Z) (size : Z) (n : nat) (p : Z)
    : option (list listed_volume) :=
  match n with
  | O => Some []
  | S n =>
      if p >=? size then None
      else
        let (len, name) :=
          copy_from_pascal (Some (drop (Z.to_nat (p + 1)) msg)) AFP_VOLUME_NAME_UTF8_LEN
            (zero_bytes AFP_VOLUME_NAME_UTF8_LEN) in
        let flags := byte_at msg p in
        cons (ListedVolume (if flags >=? 128 then flags - 256 else flags) name
                (printable_name heap (negb mac_roman) name []))
          <$> volumes_loop heap mac_roman msg size n (p + 1 + len + 1)
  end.

Definition afp_getsrvrparms_reply (heap : Z -> bool) (now : Z) (calloc : bool) (buf : list Z) (size : Z) (s : srvr_parms)
    : Z * srvr_parms :=
  if size <? HEADER + 5 then (-1, s)
  else
    let connect_time := afp_date_to_unix None (be_at buf HEADER 4) in
    let local := server_uses_local_time (sp_clock s) in
    let s := if local
             then SrvrParms (connect_time - (connect_time - now)) (set_time_offset (sp_clock s) (connect_time - now))
                    (sp_volumes s)
             else SrvrParms connect_time (sp_clock s) (sp_volumes s) in
    let numvolumes := byte_at buf (HEADER + 4) in
    if negb calloc && (numvolumes >? 0) then (-1, s)
    else
      let mac_roman := match sp_clock s with
                       | Some c => match using_version c with Some v => v <? 30 | None => false end
                       | None => false
                       end in
      match volumes_loop heap mac_roman buf size (Z.to_nat numvolumes) (HEADER + 5) with
      | None => (-1, s)
      | Some vs => (0, SrvrParms (sp_connect_time s) (sp_clock s) vs)
      end.

(** [mesg] is the handler's static buffer, kept from call to call; the
    caller receives a copy of it. *)
Definition afp_getsrvrmsg_reply (buf : list Z) (size : Z) (mesg : list Z) : Z * list Z :=
  if size <? HEADER + 4 then (-1, mesg)
  else
    let src := Some (drop (Z.to_nat (HEADER + 4)) buf) in
    if has (be_at buf (HEADER + 2) 2) AFP_GETSRVRMSG_UTF8
    then (0, snd (copy_from_pascal_two src AFP_LOGINMESG_LEN mesg))
    else (0, snd (copy_from_pascal src AFP_LOGINMESG_LEN mesg)).

(** ** proto_login.c *)

Definition afp_logout : list Z := [afpLogout; 0].

(** What a login's buffer of [maxsize] bytes receives. A packet shorter than
    its header would wrap the size around. *)
Definition afp_login_reply (buf : list Z) (size maxsize : Z) : Z * option (list Z) :=
  let size := u32 (size - HEADER) in
  (0, if size >? 0 then Some (sub HEADER (Z.min size maxsize) buf) else None).
Definition afp_changepassword_reply (buf : list Z) (size maxsize : Z) : Z * option (list Z) :=
  afp_login_reply buf size maxsize.

(** The length of the name is taken in a byte, the name itself capped. *)
Definition afp_changepassword (ua_name userauthinfo : list Z) : list Z :=
  let name := copy_to_pascal ua_name in
  [afpChangePassword; 0] ++ name ++ (if Z.odd (u8 (strlen ua_name) + 1) then [0] else []) ++ userauthinfo.

Definition afp_login (version ua_name userauthinfo : list Z) : list Z :=
  [afpLogin] ++ copy_to_pascal version ++ copy_to_pascal ua_name ++ userauthinfo.

(** The user's name and an empty path in UTF-8, and the information of the
    method from an even offset on. *)
Definition afp_loginext (version ua_name username userauthinfo : list Z) : list Z :=
  let user := take (Z.to_nat (strnlen username AFP_MAX_USERNAME_LEN)) username in
  let fixed := [afpLoginExt; 0; 0; 0] ++ copy_to_pascal version ++ copy_to_pascal ua_name
               ++ [3] ++ be_put 2 (zlen user) ++ user ++ [3; 0; 0] in
  fixed ++ even_pad fixed ++ userauthinfo.

Definition afp_logincont (id : Z) (userauthinfo : list Z) : list Z :=
  [afpLoginCont; 0] ++ be_put 2 id ++ userauthinfo.

(** ** proto_session.c *)

(** [None] for a kind of request that is not sent. The timestamp goes in the
    host's byte order. *)
Definition afp_getsessiontoken (type timestamp : Z) (token : list Z) : option (list Z) :=
  let send time data :=
    Some ([afpGetSessionToken; 0] ++ be_put 2 type ++ be_put 4 (zlen data) ++ time ++ data) in
  if (type =? kLoginWithTimeAndID) || (type =? kReconnWithTimeAndID) then send (rev (be_put 4 timestamp)) token
  else if type =? kRecon1Login then send [] token
  else if (type =? kLoginWithoutID) || (type =? kRecon1RefreshToken) || (type =? kRecon1ReconnectLogin)
  then send [] []
  else None.

(** The length is the header's, not the bytes received. *)
Definition afp_getsessiontoken_reply (buf : list Z) (size : Z) : Z * option (list Z) :=
  let length := be_at buf 8 4 in
  if length <=? HEADER then (0, Some [])
  else
    let token_len := be_at buf HEADER 4 in
    if (token_len >? AFP_TOKEN_MAX_LEN) || (length - HEADER <? token_len) then (-1, None)
    else (0, Some (sub (HEADER + 4) token_len buf)).

(** The pad byte is what the allocation holds. *)
Definition afp_disconnectoldsession (pad type : Z) (token : list Z) : option (list Z) :=
  if zlen token >? AFP_TOKEN_MAX_LEN then None
  else Some ([afpDisconnectOldSession; pad] ++ be_put 2 type ++ be_put 4 (zlen token) ++ token).

(** ** proto_map.c *)

Definition afp_getuserinfo (thisuser userid bitmap : Z) : list Z :=
  [afpGetUserInfo; if thisuser =? 0 then 0 else 1] ++ be_put 4 userid ++ be_put 2 bitmap.

(** The answer, the user and the group. *)
Definition afp_getuserinfo_reply (buf : list Z) (size : Z) : Z * (Z * Z) :=
  if size <? HEADER + 10 then (-1, (0, 0))
  else
    let bitmap := be_at buf HEADER 2 in
    let id1 := be_at buf (HEADER + 2) 4 in
    if negb (error_code buf =? kFPNoErr) then (-1, (0, 0))
    else if has bitmap kFPGetUserInfo_USER_ID
    then (0, (id1, if has bitmap kFPGetUserInfo_PRI_GROUPID then be_at buf (HEADER + 6) 4 else 0))
    else (0, (0, if has bitmap kFPGetUserInfo_PRI_GROUPID then id1 else 0)).

Definition afp_mapid (subfunction id : Z) : list Z := [afpMapID; u8 subfunction] ++ be_put 4 id.
(** A name over 255 bytes is cut and the rest of the request is filler. *)
Definition afp_mapname (subfunction : Z) (name : list Z) : list Z :=
  [afpMapName; u8 subfunction] ++ copy_to_pascal name ++ replicate (Z.to_nat (strlen name - UINT8_MAX)) 0x4b.
Definition afp_mapname_reply (buf : list Z) (size : Z) : Z * option Z :=
  if size <? HEADER + 2 then (-1, None) else (0, Some (be_at buf HEADER 4)).

(** ** The table of handlers (lib/afp.c) *)

Inductive reply_handler :=
| H_byterangelock
| H_blank
| H_createdir
| H_enumerate
| H_getsrvrparms
| H_getvolparms
| H_login
| H_mapid
| H_mapname
| H_volopen
| H_openfork
| H_read
| H_write
| H_getfiledirparms
| H_changepassword
| H_getuserinfo
| H_getsrvrmsg
| H_opendt
| H_geticon
| H_geticoninfo
| H_getappl
| H_getcomment
| H_byterangelockext
| H_readext
| H_writeext
| H_getsessiontoken
| H_enumerateext2
| H_getextattr
| H_listextattrs.

(** By subcommand, of the table's 256 slots; the others are NULL. *)
Definition afp_replies : list (Z * reply_handler) :=
  [(1, H_byterangelock); (2, H_blank); (4, H_blank); (5, H_blank); (6, H_createdir); (7, H_blank);
   (8, H_blank); (9, H_enumerate); (10, H_blank); (11, H_blank); (16, H_getsrvrparms); (17, H_getvolparms);
   (18, H_login); (19, H_login); (20, H_blank); (21, H_mapid); (22, H_mapname); (23, H_blank);
   (24, H_volopen); (26, H_openfork); (27, H_read); (28, H_blank); (29, H_blank); (30, H_blank);
   (31, H_blank); (33, H_write); (34, H_getfiledirparms); (35, H_blank); (36, H_changepassword);
   (37, H_getuserinfo); (38, H_getsrvrmsg); (42, H_blank); (48, H_opendt); (49, H_blank); (51, H_geticon);
   (52, H_geticoninfo); (55, H_getappl); (56, H_blank); (58, H_getcomment); (59, H_byterangelockext);
   (60, H_readext); (61, H_writeext); (63, H_login); (64, H_getsessiontoken); (65, H_blank);
   (66, H_enumerateext2); (68, H_enumerateext2); (69, H_getextattr); (70, H_blank); (71, H_blank);
   (72, H_listextattrs); (73, H_blank); (74, H_blank); (75, H_blank); (78, H_blank); (79, H_blank);
   (122, H_blank)].

Definition afp_reply (subcommand size : Z) (run : reply_handler -> Z) : Z :=
  if size <? HEADER then -1
  else match find (fun h => fst h =? subcommand) afp_replies with
       | Some (_, h) => run h
       | None => 0
       end.
