(* ===== verification/RepliesProofs.v ===== *)
(** What the reply handlers answer depends on no byte past their packet, and which
    handlers' answers do. *)
From S2P Require Import Prelude AfpProtocol Utils Codepage Dates ReplyBlock Listing World Requests.
From S2P Require Import Replies Session.

(** ** The packet is all an answer depends on *)

(** What depends on the first [size] bytes of the memory alone. *)
Definition bounded {A} (size : Z) (f : list Z -> A) : Prop :=
  forall buf buf', bytes_ok buf -> take (Z.to_nat size) buf = take (Z.to_nat size) buf' -> f buf = f buf'.

Lemma take_drop_prefix {A} (l k : list A) size off len :
  0 <= off -> 0 <= len -> off + len <= size -> take (Z.to_nat size) l = take (Z.to_nat size) k ->
  take (Z.to_nat len) (drop (Z.to_nat off) l) = take (Z.to_nat len) (drop (Z.to_nat off) k).
Proof.
  intros Ho Hl Hs E. rewrite !take_drop_commute.
  replace (Z.to_nat off + Z.to_nat len)%nat with (Z.to_nat (off + len)) by lia.
  apply (f_equal (take (Z.to_nat (off + len)))) in E. rewrite !take_take in E.
  replace (Z.to_nat (off + len) `min` Z.to_nat size)%nat with (Z.to_nat (off + len)) in E by lia. by rewrite E.
Qed.

Section Prefix.
Context (buf buf' : list Z) (size : Z) (Hok : bytes_ok buf).
Context (E : take (Z.to_nat size) buf = take (Z.to_nat size) buf').

Lemma error_same : 16 <= size -> error_code buf' = error_code buf.
Proof. intros Hs. unfold error_code. by rewrite (sub_prefix size buf buf') by (done || lia). Qed.

Lemma be_same off len : 0 <= off -> 0 <= len -> off + len <= size -> be_at buf' off len = be_at buf off len.
Proof. intros. symmetry. by apply (be_at_prefix size). Qed.

Lemma byte_same i : 0 <= i < size -> byte_at buf' i = byte_at buf i.
Proof. intros. symmetry. by apply (byte_at_prefix size). Qed.

Lemma sub_same off len : 0 <= off -> 0 <= len -> off + len <= size -> sub off len buf' = sub off len buf.
Proof. intros. symmetry. by apply (sub_prefix size). Qed.

Lemma parse_same heap server off len is_dir fbm dbm name n :
  0 <= off -> 0 <= len -> off + len <= size ->
  parse_reply_block heap server (drop (Z.to_nat off) buf') len is_dir fbm dbm name n
  = parse_reply_block heap server (drop (Z.to_nat off) buf) len is_dir fbm dbm name n.
Proof.
  intros. symmetry. apply parse_reply_block_local; [by apply bytes_ok_drop|done|by apply (take_drop_prefix _ _ size)].
Qed.

End Prefix.

(** Turns what a handler reads of the one memory into the other's, check by
    check. *)
Ltac read_same buf buf' size Hok E :=
  repeat first
    [ match goal with
      | |- context [error_code buf'] => rewrite (error_same buf buf' size E) by lia
      | |- context [be_at buf' ?o ?l] => rewrite (be_same buf buf' size E o l) by lia
      | |- context [byte_at buf' ?i] => rewrite (byte_same buf buf' size E i) by lia
      | |- context [sub ?o ?l buf'] => rewrite (sub_same buf buf' size E o l) by lia
      | |- context [parse_reply_block ?h ?s (drop (Z.to_nat ?o) buf') ?l] =>
          rewrite (parse_same buf buf' size Hok E h s o l) by lia
      end
    | done
    | case_if; bool_to_prop ].

Section Bounded.
Context (heap : Z -> bool) (server : option clock) (size : Z) (Hsize : HEADER <= size).

Ltac bounded_reply f :=
  unfold bounded; intros; unfold f, HEADER in *; cbv zeta;
  match goal with
  | Hok : bytes_ok ?buf, E : take (Z.to_nat ?n) ?buf = take _ ?buf' |- _ => read_same buf buf' n Hok E
  end.

(** The open's handler works on its copy of the first 20 bytes, which may have been
    taken past the end of a shorter packet: it looks at those only behind the
    size check. *)
Lemma openfork_bounded : bounded size (fun b => afp_openfork_reply heap server b size).
Proof.
  assert (C : forall (b : list Z) off len, 0 <= off -> 0 <= len -> off + len <= HEADER + 4 ->
    sub off len (sub 0 (HEADER + 4) b) = sub off len b) by (intros; by apply sub_take_all).
  assert (Ce : forall b, error_code (sub 0 (HEADER + 4) b) = error_code b)
    by (intros; unfold error_code; by rewrite C by (unfold HEADER; lia)).
  assert (Cb : forall b off len, 0 <= off -> 0 <= len -> off + len <= HEADER + 4 ->
    be_at (sub 0 (HEADER + 4) b) off len = be_at b off len) by (intros; unfold be_at; by rewrite C).
  unfold bounded; intros; unfold afp_openfork_reply; cbv zeta. rewrite !Ce, !Cb by (unfold HEADER; lia).
  unfold HEADER in *.
  match goal with
  | Hok : bytes_ok ?buf, E : take (Z.to_nat ?n) ?buf = take _ ?buf' |- _ => read_same buf buf' n Hok E
  end.
Qed.

Lemma byterangelock_bounded : bounded size (fun b => afp_byterangelock_reply b size).
Proof. bounded_reply afp_byterangelock_reply. Qed.

Lemma byterangelockext_bounded : bounded size (fun b => afp_byterangelockext_reply b size).
Proof. bounded_reply afp_byterangelockext_reply. Qed.

Lemma createdir_bounded : bounded size (fun b => afp_createdir_reply b size).
Proof. bounded_reply afp_createdir_reply. Qed.

Lemma read_bounded maxsize : 0 <= maxsize -> bounded size (fun b => afp_read_reply b size maxsize).
Proof. intros Hm. bounded_reply afp_read_reply. Qed.

Lemma getfiledirparms_bounded : bounded size (fun b => afp_getfiledirparms_reply heap server b size).
Proof. bounded_reply afp_getfiledirparms_reply. Qed.

Lemma written_bounded width : 0 <= width -> bounded size (fun b => written_reply width b size).
Proof. intros Hw. bounded_reply written_reply. Qed.

Lemma extattr_bounded maxsize : 0 <= maxsize -> bounded size (fun b => extattr_reply b size maxsize).
Proof.
  intros Hm buf buf' Hok. pose proof (be_at_range buf (HEADER + 2) 4 Hok ltac:(lia)) as Hb.
  bounded_reply extattr_reply.
Qed.

Lemma geticon_bounded maxsize : bounded size (fun b => afp_geticon_reply b size maxsize).
Proof. bounded_reply afp_geticon_reply. Qed.

Lemma getcomment_bounded maxsize : bounded size (fun b => afp_getcomment_reply b size maxsize).
Proof.
  intros buf buf' Hok. pose proof (byte_at_ok buf HEADER Hok) as Hb. unfold byte_ok in Hb.
  bounded_reply afp_getcomment_reply.
Qed.

Lemma opendt_bounded : bounded size (fun b => afp_opendt_reply b size).
Proof. bounded_reply afp_opendt_reply. Qed.

Lemma geticoninfo_bounded : bounded size (fun b => afp_geticoninfo_reply b size).
Proof. bounded_reply afp_geticoninfo_reply. Qed.

Lemma getappl_bounded : bounded size (fun b => afp_getappl_reply heap server b size).
Proof. bounded_reply afp_getappl_reply. Qed.

Lemma login_bounded maxsize : 0 <= maxsize -> size < 2 ^ 32 -> bounded size (fun b => afp_login_reply b size maxsize).
Proof.
  intros Hm Hs buf buf' Hok E. unfold afp_login_reply, HEADER in *.
  rewrite (u32_small (size - 16)) by lia. cbv zeta. read_same buf buf' size Hok E.
Qed.

Lemma getuserinfo_bounded : bounded size (fun b => afp_getuserinfo_reply b size).
Proof. bounded_reply afp_getuserinfo_reply. Qed.

Lemma entries_bounded realloc buf buf' ext fbm dbm l0 n p l :
  bytes_ok buf -> take (Z.to_nat size) buf = take (Z.to_nat size) buf' -> 0 <= p ->
  enumerate_entries heap server realloc buf size ext fbm dbm l0 n p l
  = enumerate_entries heap server realloc buf' size ext fbm dbm l0 n p l.
Proof.
  intros Hok E. revert p l. induction n as [|n IH]; intros p l Hp; [done|]. cbn [enumerate_entries]. cbv zeta.
  set (header := if ext then 4 else 2). assert (2 <= header /\ (ext = true -> header = 4)) as [Hh He]
    by (unfold header; destruct ext; lia).
  pose proof (be_at_range buf p 2 Hok ltac:(lia)) as R1. pose proof (byte_at_ok buf p Hok) as R2. unfold byte_ok in R2.
  destruct (size - p <? header) eqn:E1; [done|]. bool_to_prop.
  assert (S1 : (if ext then be_at buf' p 2 else byte_at buf' p) = if ext then be_at buf p 2 else byte_at buf p).
  { destruct ext; [apply (be_same buf buf' size E)|apply (byte_same buf buf' size E)]; lia. }
  assert (S2 : byte_at buf' (if ext then p + 2 else p + 1) = byte_at buf (if ext then p + 2 else p + 1)).
  { apply (byte_same buf buf' size E). destruct ext; [specialize (He eq_refl)|]; lia. }
  rewrite S1, S2. set (esize := if ext then be_at buf p 2 else byte_at buf p).
  assert (0 <= esize) by (unfold esize; destruct ext; lia).
  destruct ((esize <? header) || (size - p <? esize)) eqn:E2; [done|]. apply orb_false_elim in E2 as [E2 E3]. bool_to_prop.
  destruct (afp_listing_reserve _ _ _ _) as [r l']. destruct (r <? 0); [done|].
  rewrite (parse_same buf buf' size Hok E) by lia.
  destruct (parse_reply_block _ _ _ _ _ _ _ _ _) as [s|]; [|done].
  destruct (afp_listing_commit _ _ _); [|done]. apply IH. lia.
Qed.

Lemma enumerate_bounded realloc ext l : bounded size (fun b => enumerate_reply heap server realloc b size ext l).
Proof.
  intros buf buf' Hok E. unfold enumerate_reply, HEADER in *. read_same buf buf' size Hok E.
  by apply entries_bounded.
Qed.

End Bounded.

(** C13: what a reply handler of a file operation returns and stores does not depend
    on a byte past its packet. With any memory behind the packet, the handlers
    of opens, locks, new folders, pages of listings, reads, attributes, writes,
    extended attributes, icons, comments, the desktop, logins and user ids
    answer and store the same, whatever counts, lengths and offsets the packet
    carries. The handler of opens does copy up to four bytes from behind a
    packet that ends with its header, but does not use them. *)
Theorem replies_bounded heap server realloc size maxsize ext l :
  HEADER <= size < 2 ^ 32 -> 0 <= maxsize ->
  bounded size (fun b => afp_openfork_reply heap server b size)
  /\ bounded size (fun b => afp_byterangelock_reply b size) /\ bounded size (fun b => afp_byterangelockext_reply b size)
  /\ bounded size (fun b => afp_createdir_reply b size)
  /\ bounded size (fun b => enumerate_reply heap server realloc b size ext l)
  /\ bounded size (fun b => afp_read_reply b size maxsize)
  /\ bounded size (fun b => afp_getfiledirparms_reply heap server b size)
  /\ bounded size (fun b => afp_write_reply b size) /\ bounded size (fun b => afp_writeext_reply b size)
  /\ bounded size (fun b => afp_listextattrs_reply b size maxsize)
  /\ bounded size (fun b => afp_getextattr_reply b size maxsize)
  /\ bounded size (fun b => afp_geticon_reply b size maxsize) /\ bounded size (fun b => afp_getcomment_reply b size maxsize)
  /\ bounded size (fun b => afp_opendt_reply b size) /\ bounded size (fun b => afp_geticoninfo_reply b size)
  /\ bounded size (fun b => afp_getappl_reply heap server b size)
  /\ bounded size (fun b => afp_login_reply b size maxsize) /\ bounded size (fun b => afp_getuserinfo_reply b size).
Proof.
  intros [H1 H2] Hm.
  pose proof openfork_bounded; pose proof byterangelock_bounded; pose proof byterangelockext_bounded;
    pose proof createdir_bounded; pose proof enumerate_bounded; pose proof read_bounded;
    pose proof getfiledirparms_bounded; pose proof written_bounded; pose proof extattr_bounded;
    pose proof geticon_bounded; pose proof getcomment_bounded; pose proof opendt_bounded; pose proof geticoninfo_bounded;
    pose proof getappl_bounded; pose proof login_bounded; pose proof getuserinfo_bounded.
  unfold afp_write_reply, afp_writeext_reply, afp_listextattrs_reply, afp_getextattr_reply.
  repeat split; auto with lia.
Qed.

(** A comment's reply of two bytes that claims three. *)
Lemma replies_bounded_witness :
  afp_getcomment_reply (zero_bytes 16 ++ [3; 104; 105] ++ [1; 2; 3]) 19 200
  = afp_getcomment_reply (zero_bytes 16 ++ [3; 104; 105] ++ [7; 8; 9]) 19 200.
Proof.
  apply (replies_bounded (fun _ => true) None (fun _ => true) 19 200 false empty_listing).
  - split; vm_compute; [discriminate|reflexivity].
  - lia.
  - apply (bool_decide_unpack _). vm_compute. exact I.
  - reflexivity.
Defined.

(** ** The handlers that do read past their packet *)

Definition no_parms : vol_parms := VolParms 0 0 0 0 0 0 0 0 0.

Lemma not_bounded {A} size (f : list Z -> A) buf buf' :
  bytes_ok buf -> take (Z.to_nat size) buf = take (Z.to_nat size) buf' -> f buf <> f buf' -> ~ bounded size f.
Proof. intros H1 H2 H3 Hb. by apply H3, Hb. Qed.

Ltac differ a b :=
  apply (not_bounded _ _ a b);
  [apply (bool_decide_unpack _); vm_compute; exact I | reflexivity | intros G; vm_compute in G; discriminate G].

(** Handlers that do not keep to their packet. Those of volume parameters,
    of a name's id, of the server's message and of its volumes check less than
    they read; that of the session token goes by the length the header claims.
    Each accepts a packet and answers by the bytes behind it. *)
Theorem unchecked_replies_read_past :
  ~ bounded 18 (fun b => afp_getvolparms_reply None b 18 no_parms)
  /\ ~ bounded 18 (fun b => afp_mapname_reply b 18)
  /\ ~ bounded 21 (fun b => afp_getsrvrmsg_reply b 21 (zero_bytes 200))
  /\ ~ bounded 23 (fun b => afp_getsrvrparms_reply (fun _ => true) 0 true b 23 (SrvrParms 0 None []))
  /\ ~ bounded 20 (fun b => afp_getsessiontoken_reply b 20).
Proof.
  split_and!.
  - differ (zero_bytes 16 ++ [0; 1] ++ [1; 1]) (zero_bytes 16 ++ [0; 1] ++ [2; 2]).
  - differ (zero_bytes 18 ++ [1; 1]) (zero_bytes 18 ++ [2; 2]).
  - differ (zero_bytes 20 ++ [3] ++ [97; 98; 99]) (zero_bytes 20 ++ [3] ++ [97; 98; 100]).
  - differ (zero_bytes 20 ++ [1; 0; 3] ++ [97; 98; 99]) (zero_bytes 20 ++ [1; 0; 3] ++ [97; 98; 100]).
  - differ (zero_bytes 8 ++ [0; 0; 0; 17] ++ zero_bytes 4 ++ [0; 0; 0; 1] ++ [7])
      (zero_bytes 8 ++ [0; 0; 0; 17] ++ zero_bytes 4 ++ [0; 0; 0; 1] ++ [8]).
Qed.

(** A session token's reply as a server sends it, its length the payload's:
    the handler refuses it, or takes an empty token for a short one. *)
Theorem session_token_refused token :
  zlen token <= AFP_TOKEN_MAX_LEN ->
  let buf := zero_bytes 8 ++ be_put 4 (4 + zlen token) ++ zero_bytes 4 ++ be_put 4 (zlen token) ++ token in
  afp_getsessiontoken_reply buf (zlen buf) = if zlen token <=? 12 then (0, Some []) else (-1, None).
Proof.
  intros Ht buf. pose proof (zlen_nonneg token). unfold AFP_TOKEN_MAX_LEN in Ht.
  assert (L1 : be_at buf 8 4 = 4 + zlen token).
  { unfold be_at, buf. rewrite sub_app_r by done. rewrite sub_app_l by (rewrite ?zlen_be_put; done).
    rewrite sub_all by (rewrite ?zlen_be_put; done). apply be_get_put_small. lia. }
  assert (L2 : be_at buf HEADER 4 = zlen token).
  { unfold be_at, buf, HEADER. rewrite sub_app_r by done. rewrite sub_app_r by (rewrite ?zlen_be_put; done).
    rewrite sub_app_r by (rewrite ?zlen_be_put; done). rewrite sub_app_l by (rewrite ?zlen_be_put; done).
    rewrite sub_all by (rewrite ?zlen_be_put; done). apply be_get_put_small. lia. }
  unfold afp_getsessiontoken_reply. rewrite L1, L2. unfold HEADER, AFP_TOKEN_MAX_LEN.
  destruct (zlen token <=? 12) eqn:E1; bool_to_prop; [by replace (4 + zlen token <=? 16) with true by lia|].
  replace (4 + zlen token <=? 16) with false by lia. by replace (_ || _) with true by lia.
Qed.

(** An empty UTF-8 message leaves the one before it in the static buffer. *)
Example empty_message_is_the_last_one :
  let reply text := zero_bytes 16 ++ [0; 0; 0; 2] ++ text in
  let m1 := snd (afp_getsrvrmsg_reply (reply [0; 1; 104]) 23 (zero_bytes 200)) in
  snd (afp_getsrvrmsg_reply (reply [0; 0]) 22 m1) = m1 /\ until_nul m1 = [104].
Proof. vm_compute. done. Qed.
