(* ===== verification/Pages.v ===== *)
(** A page of a directory listing: what enumerate_reply does with the bytes of
    any reply, and the whole listing ll_readdir gathers from the pages. *)
From S2P Require Import Prelude AfpProtocol Utils Codepage Dates ReplyBlock Listing World DidCache LowLevel Replies.

(** ** The names of a page *)

(** A name that is one component of a path and fits its buffer. *)
Definition safe_name (n : list Z) : Prop :=
  zlen n < AFPC_MAX_NAME_BYTES /\ no_nul n /\ ch_slash ∉ n.

Definition safe_pname (name : option (list Z)) : Prop :=
  match name with Some n => safe_name n | None => False end.

Section Names.
Context (heap : Z -> bool) (server : option clock) (buf : list Z) (size : Z) (Hok : bytes_ok buf).

Definition keeps_safe (parse : pstate -> option pstate) : Prop :=
  forall s s', parse s = Some s' -> safe_pname (pname s) -> safe_pname (pname s').

Lemma store_name_safe encoding src name name' :
  bytes_ok src -> store_name heap encoding src name AFPC_MAX_NAME_BYTES = Some name' ->
  safe_pname name -> safe_pname name'.
Proof.
  intros Hs. unfold store_name. destruct name as [dest|]; [|done].
  destruct (convert_name_to_unix _ _ _ _ _) as [r out] eqn:Ec. destruct (r <? 0) eqn:Er; [done|].
  intros [= <-] _. bool_to_prop.
  assert (Hm : 0 <= AFPC_MAX_NAME_BYTES) by done.
  destruct (name_to_unix_safe _ _ _ _ _ _ _ Hs Hm Ec) as [(_ & ? & ? & _ & ?)| ->]; [done|lia].
Qed.

Lemma on_safe bitmap bit parse : keeps_safe parse -> keeps_safe (on bitmap bit parse).
Proof. intros Hp s s'. unfold on. case_if; [apply Hp|by intros [= <-]]. Qed.

Lemma be_safe len f : keeps_safe (parse_be buf size len f).
Proof. intros s s'. unfold parse_be. case_if; [|done]. by intros [= <-]. Qed.

Lemma skip_safe len : keeps_safe (skip_bytes size len).
Proof. intros s s'. unfold skip_bytes. case_if; [|done]. by intros [= <-]. Qed.

Lemma date_safe f : keeps_safe (parse_date server buf size f).
Proof. intros s s'. unfold parse_date. case_if; [|done]. by intros [= <-]. Qed.

Lemma finderinfo_safe : keeps_safe (parse_finderinfo buf size).
Proof. intros s s'. unfold parse_finderinfo. case_if; [|done]. by intros [= <-]. Qed.

Lemma unixprivs_safe : keeps_safe (parse_unixprivs buf size).
Proof. intros s s'. unfold parse_unixprivs. case_if; [|done]. by intros [= <-]. Qed.

Lemma longname_safe : keeps_safe (parse_longname heap buf size AFPC_MAX_NAME_BYTES).
Proof.
  intros s s'. unfold parse_longname, locate_pascal. destruct (parse_u16 _ _ _ _); [|done].
  case_if; [done|]. case_if; [|done].
  destruct (store_name _ _ _ _ _) as [n|] eqn:En; [|done]. intros [= <-]. simpl.
  eapply store_name_safe; [|exact En]. by apply bytes_ok_sub.
Qed.

Lemma utf8name_safe : keeps_safe (parse_utf8name heap buf size AFPC_MAX_NAME_BYTES).
Proof.
  intros s s'. unfold parse_utf8name, locate_afpname. destruct (parse_u16 _ _ _ _); [|done].
  destruct (skip_bytes _ _ _); [|done]. case_if; [done|]. case_if; [|done].
  destruct (store_name _ _ _ _ _) as [n|] eqn:En; [|done]. intros [= <-]. simpl.
  eapply store_name_safe; [|exact En]. by apply bytes_ok_sub.
Qed.

Lemma run_safe ps s s' : Forall keeps_safe ps -> run ps s = Some s' -> safe_pname (pname s) -> safe_pname (pname s').
Proof.
  intros Hp. revert s. induction Hp as [|p r H1 _ IH]; intros s; simpl; [by intros [= <-]|].
  destruct (p s) as [s1|] eqn:E1; [|done]. intros Hr Hs. by apply (IH s1), (H1 s).
Qed.

Lemma parse_safe is_dir fbm dbm s :
  parse_reply_block heap server buf size is_dir fbm dbm (Some []) AFPC_MAX_NAME_BYTES = Some s -> safe_pname (pname s).
Proof.
  intros Hr. apply (run_safe _ _ _) with (2 := Hr).
  - unfold parse_all. rewrite !Forall_app.
    destruct (is_dir =? 0); split_and!; repeat apply Forall_cons_2; try apply Forall_nil_2; apply on_safe;
      first [apply be_safe | apply skip_safe | apply date_safe | apply finderinfo_safe | apply longname_safe
            | apply utf8name_safe | apply unixprivs_safe].
  - change (safe_name []). split; [done|]. split; [constructor|]. by intros ?%elem_of_nil.
Qed.

End Names.

(** ** A page *)

(** What a listing holds of another, and what it has more. *)
Record extends (l0 l : afp_listing) (es : list afp_dirent) (ns : list (list Z)) : Prop := {
  ex_wf : listing_wf l;
  ex_entries : entries l = entries l0 ++ es;
  ex_names : names l = names l0 ++ ns;
  ex_pool : exists x, pool l = pool l0 ++ x;
  ex_len : length ns = length es;
  ex_safe : Forall safe_name ns }.

Lemma extends_refl l : listing_wf l -> extends l l [] [].
Proof. intros H. split; rewrite ?app_nil_r; try done. exists []. by rewrite app_nil_r. Qed.

Lemma commit_pool l e n l' : afp_listing_commit l e n = Some l' -> pool l' = pool l ++ until_nul n ++ [0].
Proof. unfold afp_listing_commit. case_if; [|done]. by intros [= <-]. Qed.

(** Rolling back gives the listing as it was. *)
Lemma roll_back_spec l0 l es ns :
  listing_wf l0 -> extends l0 l es ns ->
  listing_wf (roll_back l0 l) /\ entries (roll_back l0 l) = entries l0 /\ names (roll_back l0 l) = names l0.
Proof.
  intros W0 [W He Hn [x Hx] _ _].
  assert (E1 : take (Z.to_nat (count l0)) (entries l) = entries l0)
    by (rewrite He, (wf_count _ W0); apply take_app_zlen; unfold zlen; lia).
  assert (E2 : take (Z.to_nat (pool_used l0)) (pool l) = pool l0)
    by (rewrite Hx, (wf_used _ W0); apply take_app_zlen; unfold zlen; lia).
  unfold roll_back, names, afp_dirent_name. simpl. rewrite E1, E2. split_and!; try done.
  destruct W0 as [H1 H2 H3 H4 H5 H6], W as [G1 G2 G3 G4 G5 G6].
  assert (count l0 <= count l) by (rewrite G1, He, zlen_app, H1; pose proof (zlen_nonneg es); lia).
  assert (pool_used l0 <= pool_used l) by (rewrite G4, Hx, zlen_app, H4; pose proof (zlen_nonneg x); lia).
  split; simpl; try done; lia.
Qed.

Section Page.
Context (heap : Z -> bool) (server : option clock) (realloc : Z -> bool) (buf : list Z) (size : Z).
Context (Hok : bytes_ok buf).

(** One entry more, after a reservation. *)
Lemma extends_commit l0 l1 l2 es ns e n :
  extends l0 l1 es ns -> listing_wf l2 -> entries l2 = entries l1 -> pool l2 = pool l1 ->
  pool_used l2 = pool_used l1 -> count l2 = count l1 ->
  count l1 + 1 <= capacity l2 -> pool_used l1 + AFPC_MAX_NAME_BYTES <= pool_cap l2 -> safe_name n ->
  exists l3, afp_listing_commit l2 e n = Some l3
    /\ extends l0 l3 (es ++ [set_name_off (pool_used l2) e]) (ns ++ [n]).
Proof.
  intros [W He Hn [x Hx] Hl Hs] W2 E1 E2 E3 E4 Hc Hp Hn'. pose proof Hn' as (N1 & N2 & N3).
  rewrite <- (until_nul_id n N2) in N1.
  destruct (commit_spec l2 e n W2 ltac:(lia) ltac:(lia)) as (l3 & C1 & C2 & C3 & C4).
  exists l3. split; [done|].
  assert (Hnames : names l2 = names l1) by (unfold names, afp_dirent_name; by rewrite E1, E2).
  split.
  - done.
  - by rewrite C3, E1, He, app_assoc.
  - by rewrite C4, Hnames, Hn, until_nul_id, app_assoc.
  - exists (x ++ until_nul n ++ [0]). by rewrite (commit_pool _ _ _ _ C1), E2, Hx, <- app_assoc.
  - rewrite !length_app. simpl. lia.
  - apply Forall_app. by split; [|constructor].
Qed.

(** The loop over the entries either takes them all or rolls back. *)
Lemma entries_spec ext fbm dbm l0 n p l es ns :
  listing_wf l0 -> extends l0 l es ns ->
  exists r l', enumerate_entries heap server realloc buf size ext fbm dbm l0 n p l = Some (r, l')
    /\ (r = 0 /\ (exists es' ns', length es' = (length es + n)%nat /\ extends l0 l' es' ns')
        \/ r = -1 /\ listing_wf l' /\ entries l' = entries l0 /\ names l' = names l0).
Proof.
  intros W0. revert p l es ns. induction n as [|n IH]; intros p l es ns Hx; cbn [enumerate_entries].
  { exists 0, l. split; [done|]. left. split; [done|]. exists es, ns. split; [lia|done]. }
  cbv zeta. pose proof (roll_back_spec _ _ _ _ W0 Hx) as Hb.
  case_if; [exists (-1), (roll_back l0 l); by auto|]. case_if; [exists (-1), (roll_back l0 l); by auto|].
  pose proof (reserve_spec realloc l 1 AFPC_MAX_NAME_BYTES (ex_wf _ _ _ _ Hx) ltac:(done) ltac:(done)) as Hr.
  destruct (afp_listing_reserve _ _ _ _) as [r l2]. destruct Hr as (W2 & E1 & E4 & E2 & E3 & Hr).
  assert (Hx2 : extends l0 l2 es ns).
  { destruct Hx. split; try done; rewrite ?E1, ?E2; try done. unfold names, afp_dirent_name in *. by rewrite E1, E2. }
  pose proof (roll_back_spec _ _ _ _ W0 Hx2) as Hb2.
  destruct (r <? 0) eqn:Er; [exists (-1), (roll_back l0 l2); by auto|]. bool_to_prop.
  destruct Hr as [(-> & C1 & C2)|(-> & _)]; [|unfold ENOMEM in Er; lia].
  destruct (parse_reply_block _ _ _ _ _ _ _ _ _) as [s|] eqn:Ep; [|exists (-1), (roll_back l0 l2); by auto].
  apply parse_safe in Ep; [|by apply bytes_ok_drop]. destruct (pname s) as [nm|]; [|done]. simpl in Ep. simpl default.
  destruct (extends_commit l0 l l2 es ns (entry s) nm Hx W2 E1 E2 E3 E4 ltac:(lia) ltac:(lia) Ep) as (l3 & -> & Hx3).
  set (q := p + _). destruct (IH q l3 _ _ Hx3) as (r' & l' & -> & Hr). exists r', l'. split; [done|].
  rewrite length_app in Hr. simpl in Hr. replace (length es + 1 + n)%nat with (length es + S n)%nat in Hr by lia. done.
Qed.

End Page.

(** C11: a page of a listing. Whatever bytes a server sends for a page, reading
    it never writes past an allocation and leaves a well-formed listing. With
    the answer 0 the listing has as many entries more as the page announces,
    after those it had, each under a name that is one path component and fits
    a name's buffer; with any other answer it has exactly the entries and
    names it had, however far the reading had come. *)
Theorem enumerate_reply_spec heap server realloc buf size ext l :
  bytes_ok buf -> listing_wf l ->
  exists r l', enumerate_reply heap server realloc buf size ext l = Some (r, l') /\ listing_wf l'
    /\ (r = 0 /\ (exists es ns, entries l' = entries l ++ es /\ names l' = names l ++ ns /\ Forall safe_name ns
                    /\ zlen es = be_at buf (HEADER + 4) 2)
        \/ r <> 0 /\ entries l' = entries l /\ names l' = names l).
Proof.
  intros Hok W. unfold enumerate_reply.
  case_if; [exists (-1), l; split_and!; [done|done|by right]|]. case_if.
  { exists (error_code buf), l. bool_to_prop. split; [done|]. split; [done|]. by right. }
  case_if; [exists (-1), l; split_and!; [done|done|by right]|].
  destruct (entries_spec heap server realloc buf size Hok ext (be_at buf HEADER 2) (be_at buf (HEADER + 2) 2) l
    (Z.to_nat (be_at buf (HEADER + 4) 2)) (HEADER + 6) l [] [] W (extends_refl l W)) as (r & l' & -> & Hr).
  exists r, l'. split; [done|]. pose proof (be_at_range buf (HEADER + 4) 2 Hok ltac:(done)).
  destruct Hr as [(-> & es & ns & Hl & [W' He Hn _ _ Hs])|(-> & W' & He & Hn)]; (split; [done|]).
  - left. split; [done|]. exists es, ns. split_and!; try done. simpl in Hl. unfold zlen. lia.
  - by right.
Qed.

(** A page of two files, "a" and "b", and one whose second entry is cut
    short. *)
Definition sample_page (second : list Z) : list Z :=
  zero_bytes 16 ++ be_put 2 kFPLongNameBit ++ be_put 2 kFPLongNameBit ++ be_put 2 2
  ++ [6; 0; 0; 2; 1; 97] ++ second.

Lemma enumerate_reply_spec_witness :
  let page := sample_page [6; 0; 0; 2; 1; 98] in
  exists r l', enumerate_reply (fun _ => true) None (fun _ => true) page 34 false empty_listing = Some (r, l')
    /\ listing_wf l' /\ r = 0 /\ names l' = [[97]; [98]].
Proof.
  intros page.
  destruct (enumerate_reply_spec (fun _ => true) None (fun _ => true) page 34 false empty_listing) as (r & l' & E & W & _).
  - apply (bool_decide_unpack _). vm_compute. exact I.
  - exact empty_listing_wf.
  - exists r, l'. split; [exact E|]. split; [exact W|]. vm_compute in E. injection E as <- <-. vm_compute. done.
Defined.

Example page_cut_short :
  let '(r, l) := default (0, empty_listing)
    (enumerate_reply (fun _ => true) None (fun _ => true) (sample_page [6; 0; 0; 9; 1; 98]) 34 false empty_listing) in
  r = -1 /\ names l = [] /\ count l = 0.
Proof. vm_compute. done. Qed.

(** ** All the pages of a folder *)

(** An entry under its name, wherever the pool has it. *)
Definition content (l : afp_listing) : list (list Z * afp_dirent) :=
  map (fun e => (afp_dirent_name l e, set_name_off 0 e)) (entries l).

Lemma content_length l : listing_wf l -> zlen (content l) = count l.
Proof. intros W. unfold content. by rewrite zlen_map, (wf_count _ W). Qed.

Lemma content_zip l : content l = zip (names l) (map (set_name_off 0) (entries l)).
Proof. unfold content, names. induction (entries l) as [|e r IH]; simpl; [done|]. by rewrite IH. Qed.

Lemma extends_content l0 l es ns :
  extends l0 l es ns -> content l = content l0 ++ zip ns (map (set_name_off 0) es).
Proof.
  intros [_ He Hn _ _ _]. rewrite !content_zip, He, Hn, map_app, zip_with_app; [done|].
  unfold names. by rewrite !length_map.
Qed.

(** The entries without a name go. *)
Lemma drop_unnamed_content l : listing_wf l ->
  content (afp_listing_drop_unnamed l) = filter (fun x => fst x <> []) (content l).
Proof.
  intros W. pose proof (wf_names _ W) as Hn. unfold content, afp_listing_drop_unnamed, afp_dirent_name. simpl.
  induction Hn as [|e r (H0 & n & rest & Hnn & Hd) _ IH]; [done|]. simpl map. rewrite !filter_cons. simpl.
  rewrite Hd, until_nul_app_nul by done.
  destruct n as [|b n]; simpl.
  - exact IH.
  - apply Forall_cons in Hnn as [Hb Hnn]. rewrite decide_True by done. simpl. rewrite Hd.
    rewrite until_nul_app_nul by (by constructor). by rewrite IH.
Qed.

(** A server whose folder stands still: a page from an index in the folder
    appends some of its entries from there on, at least one and at most as
    many as asked; a page past its end is kFPObjectNotFound; a page that fails
    otherwise, which a [reliable] one never does, leaves the listing's entries
    as they were. *)
Class PageServer (E : Type) `{Env E} (reliable : bool) (d : Z) (name : list Z)
    (items : list (list Z * afp_dirent)) : Prop :=
  page_answer : forall kind fb db n i l e, listing_wf l -> 0 < n -> 1 <= i ->
    let '(rc, l') := fst (handle (Enumerate kind d fb db n i name l) e) in
    listing_wf l'
    /\ (zlen items < i /\ rc = kFPObjectNotFound /\ content l' = content l
        \/ i <= zlen items /\ rc = 0 /\ (exists k, 0 < k /\ content l' = content l ++ sub (i - 1) k items)
        \/ reliable = false /\ rc <> 0 /\ rc <> kFPObjectNotFound /\ rc <> kFPDirNotFound).

Section Gather.
Context {E : Type} `{PageServer E reliable d name items} (cf : config).

Lemma enumerate_call i fb db l (w : volume * E) :
  1 <= i -> i <= UINT16_MAX \/ 30 < av_number cf ->
  exists kind r, 0 < r /\ enumerate cf d fb db i name l w
    = (let (a, e) := handle (Enumerate kind d fb db r i name l) (snd w) in (a, (fst w, e))).
Proof.
  intros Hi Hv. unfold enumerate, afp2, call. destruct (av_number cf <? 30) eqn:E1; bool_to_prop.
  - exists Enumerate16, 256. rewrite u16_small by (unfold UINT16_MAX in *; lia). done.
  - destruct (av_number cf =? 30) eqn:E2; bool_to_prop.
    + exists EnumerateExt, 256. rewrite u16_small by (unfold UINT16_MAX in *; lia). done.
    + by exists EnumerateExt2, INT16_MAX.
Qed.

(** The loop has the first [i - 1] entries and asks from [i] on. *)
Lemma readdir_loop_spec fuel path fb db i resolved l (w : volume * E) :
  listing_wf l -> 1 <= i <= zlen items + 1 -> content l = take (Z.to_nat (i - 1)) items ->
  zlen items - i + 2 < Z.of_nat fuel -> (i <= UINT16_MAX \/ 30 < av_number cf) -> (zlen items < UINT16_MAX \/ 30 < av_number cf) ->
  exists err l', fst (readdir_loop cf fuel path name fb db d i resolved l w) = Some (err, l')
    /\ 0 <= err /\ (reliable = true -> err = 0) /\ (err = 0 -> listing_wf l' /\ content l' = items).
Proof.
  revert i l w. induction fuel as [|fuel IH]; intros i l w W Hi Hc Hf Hv Hn; [lia|]. cbn [readdir_loop].
  destruct (enumerate_call i fb db l w) as (kind & r & Hr & Ecall); [lia|done|].
  unfold bind at 1. rewrite Ecall.
  pose proof (page_answer kind fb db r i l (snd w) W Hr ltac:(lia)) as Hp.
  destruct (handle _ (snd w)) as [[rc l'] e'] eqn:Eh. simpl fst in Hp. destruct Hp as [W' Hp].
  pose proof (content_length l W) as C1. pose proof (content_length l' W') as C2. cbv beta iota zeta.
  destruct Hp as [(Hend & -> & Hl)|[(Hin & -> & k & Hk & Hl)|(Hrel & R1 & R2 & R3)]].
  - assert (i = zlen items + 1) by lia. subst i. replace (zlen items + 1 - 1) with (zlen items) in Hc by lia.
    rewrite take_ge in Hc by (unfold zlen; lia). simpl. rewrite orb_true_r. simpl.
    exists 0, l'. split_and!; try done. intros _. by rewrite Hl.
  - rewrite Hl, zlen_app, C1 in C2. set (m := zlen (sub (i - 1) k items)) in C2.
    assert (Hm : m = Z.min k (zlen items - (i - 1))) by (unfold m, sub; rewrite zlen_take, zlen_drop; lia).
    replace (count l' - count l) with m by lia. simpl orb. cbv iota. rewrite orb_false_r.
    replace (count l' =? count l) with false by lia.
    replace ((i + m >? UINT16_MAX) && (av_number cf <=? 30)) with false by (unfold UINT16_MAX in *; lia).
    apply IH; try done; try (unfold UINT16_MAX in *; lia).
    rewrite Hl, Hc. unfold sub. rewrite take_take_drop.
    destruct (Z.le_gt_cases k (zlen items - (i - 1))).
    + f_equal. lia.
    + rewrite !take_ge by (unfold zlen in *; lia). done.
  - replace (rc =? 0) with false by lia. replace (rc =? kFPObjectNotFound) with false by lia. simpl orb. cbv iota.
    replace (rc =? kFPDirNotFound) with false by lia.
    destruct (rc =? kFPAccessDenied); eexists _, l'; (split; [reflexivity|]); (split; [done|]); by rewrite Hrel.
Qed.

(** C10: a listing is the whole folder. Against a server whose folder stands
    still while it is listed, and however it cuts the folder into pages,
    ll_readdir ends within a page for each entry and two more; when it answers
    0 the listing holds every named entry of the folder once, in the server's
    order, and nothing else; and it does answer 0 when no page fails. AFP 3.0
    and older have indices of 16 bits, so their folders are below 65535
    entries here. *)
Theorem ll_readdir_complete pages path resource (w w1 : volume * E) :
  invalid_name cf path = false -> get_dirid cf path w = (0, Some name, Some d, w1) ->
  zlen items + 1 < Z.of_nat pages -> zlen items < UINT16_MAX \/ 30 < av_number cf ->
  exists r l', fst (ll_readdir cf pages path empty_listing resource w) = Some (r, l')
    /\ r <= 0 /\ (reliable = true -> r = 0)
    /\ (r = 0 -> content l' = filter (fun x => fst x <> []) items).
Proof.
  intros Hi Hg Hp Hn. unfold ll_readdir. rewrite Hi. unfold bind at 1. rewrite Hg. cbv iota beta.
  change (0 <? 0) with false. cbv iota.
  destruct (readdir_bitmaps cf resource) as [fb db]. unfold bind at 1.
  destruct (readdir_loop_spec pages path fb db 1 false empty_listing w1 empty_listing_wf) as (err & l' & Hl & H1 & H2 & H3);
    [pose proof (zlen_nonneg items); lia|done|lia|by left|done|].
  destruct (readdir_loop _ _ _ _ _ _ _ _ _ _ _) as [o w2]. simpl in Hl. subst o.
  destruct (err =? 0) eqn:He; bool_to_prop; simpl negb; cbv iota.
  - destruct (H3 He) as [W Hc]. pose proof (drop_unnamed_content l' W) as Hd. rewrite Hc in Hd.
    exists 0, (afp_listing_drop_unnamed l'). split_and!; [|done|done|done].
    destruct (entries (afp_listing_drop_unnamed l')); cbn [negb]; cbv iota; unfold bind; by case_match.
  - exists (- err), empty_listing. split_and!; [done|lia|intros Hr; specialize (H2 Hr); lia|lia].
Qed.

End Gather.

(** A folder with one file, "a", listed with the client's own growth of the
    arrays. *)
Definition one_page (i : Z) (l : afp_listing) : Z * afp_listing :=
  if i >? 1 then (kFPObjectNotFound, l)
  else
    let (r, l') := afp_listing_reserve (fun _ => true) l 1 AFPC_MAX_NAME_BYTES in
    if r <? 0 then (- EIO, l')
    else match afp_listing_commit l' (empty_dirent 0) [97] with
         | Some l'' => (0, l'')
         | None => (- EIO, l')
         end.

#[local] Instance one_file_server : Env unit := fun A c e =>
  match c in cmd B return B * unit with
  | Enumerate _ _ _ _ _ i _ l => (one_page i l, e)
  | c => (no_answer c, e)
  end.

#[local] Instance one_file_pages : PageServer unit false AFP_ROOT_DID [] [([97], empty_dirent 0)].
Proof.
  intros kind fb db n i l e W Hn Hi. simpl. unfold one_page.
  destruct (i >? 1) eqn:E1; bool_to_prop.
  { split; [done|]. left. unfold zlen. simpl. split_and!; [lia|done|done]. }
  pose proof (reserve_spec (fun _ => true) l 1 AFPC_MAX_NAME_BYTES W ltac:(done) ltac:(done)) as Hr.
  destruct (afp_listing_reserve _ _ _ _) as [r l2]. destruct Hr as (W2 & H1 & H4 & H2 & H3 & Hr).
  destruct (r <? 0) eqn:Er; bool_to_prop; [split; [done|]; right; right; by split_and!|].
  destruct Hr as [(-> & C1 & C2)|(-> & _)]; [|unfold ENOMEM in Er; lia].
  assert (Hs : safe_name [97]).
  { split; [done|]. split; [by repeat constructor|]. intros [?|[]%elem_of_nil]%elem_of_cons. done. }
  destruct (extends_commit l l l2 [] [] (empty_dirent 0) [97] (extends_refl l W) W2 H1 H2 H3 H4
    ltac:(lia) ltac:(lia) Hs) as (l3 & Hc & Hx).
  rewrite Hc. split; [apply (ex_wf _ _ _ _ Hx)|]. right. left.
  assert (i = 1) as -> by lia. split; [by vm_compute|]. split; [done|]. exists 1. split; [lia|].
  by rewrite (extends_content _ _ _ _ Hx).
Qed.

Lemma ll_readdir_complete_witness :
  exists r l', fst (ll_readdir sample_config 4 [ch_slash] empty_listing false (empty_volume, tt)) = Some (r, l')
    /\ r = 0 /\ content l' = [([97], empty_dirent 0)].
Proof.
  destruct (ll_readdir_complete (d := AFP_ROOT_DID) (name := []) (items := [([97], empty_dirent 0)])
    sample_config 4 [ch_slash] false (empty_volume, tt)
    (snd (get_dirid sample_config [ch_slash] (empty_volume, tt)))) as (r & l' & E1 & _ & _ & E2).
  - vm_compute. reflexivity.
  - vm_compute. reflexivity.
  - vm_compute. reflexivity.
  - left. vm_compute. reflexivity.
  - exists r, l'. split; [exact E1|]. vm_compute in E1. injection E1 as <- <-.
    split; [reflexivity|]. exact (E2 eq_refl).
Defined.
