(* ===== verification/RequestsProofs.v ===== *)
(** A reader of AFP requests as the protocol lays them out, and that it finds
    in the client's packets the command and the arguments they were made of. *)
From S2P Require Import Prelude AfpProtocol Utils Dates ReplyBlock Listing World Requests.

(** ** The values of a request and their fields *)

Inductive value :=
| VInt (width : nat) (z : Z)
| VPath (name : list Z)
| VText (bs : list Z).

#[export] Instance value_eq_dec : EqDecision value.
Proof. solve_decision. Defined.

(** A value its field can hold. *)
Definition fits (encoding : Z) (v : value) : Prop :=
  match v with
  | VInt n z => 0 <= z < 256 ^ Z.of_nat n
  | VPath p => no_nul p /\ zlen p <= path_limit encoding
  | VText bs => zlen bs < 2 ^ 32
  end.

#[export] Instance fits_dec encoding v : Decision (fits encoding v).
Proof. destruct v; simpl; apply _. Defined.

(** A parser takes the position in the packet and the bytes left; it ends
    with the packet. *)
Definition parser : Type := Z -> list Z -> option (list value).

Definition then_value (v : value) (r : option (list value)) : option (list value) := cons v <$> r.

Definition p_end : parser := fun _ bs => match bs with [] => Some [] | _ => None end.

Definition p_int (n : nat) (k : Z -> parser) : parser := fun pos bs =>
  if zlen bs <? Z.of_nat n then None
  else let z := be_get (take n bs) in then_value (VInt n z) (k z (pos + Z.of_nat n) (drop n bs)).

Definition p_text (n : Z) (k : parser) : parser := fun pos bs =>
  if zlen bs <? n then None
  else then_value (VText (take (Z.to_nat n) bs)) (k (pos + n) (drop (Z.to_nat n) bs)).

(** A byte of padding, and one only at an odd position. *)
Definition p_zero (k : parser) : parser := fun pos bs =>
  match bs with b :: r => if b =? 0 then k (pos + 1) r else None | [] => None end.
Definition p_even (k : parser) : parser := fun pos bs =>
  if Z.odd pos then p_zero k pos bs else k pos bs.

(** A path: the type of the name, its length and the path. *)
Definition p_path (k : parser) : parser := fun pos bs =>
  match bs with
  | t :: r =>
      let head := if t =? kFPUTF8Name then 6 else 1 in
      let len := if t =? kFPUTF8Name then be_at r 4 2 else byte_at r 0 in
      if negb ((t =? kFPUTF8Name) || (t =? kFPLongName)) || (zlen r <? head + len) then None
      else then_value (VPath (map unix_path_byte (sub head len r)))
             (k (pos + 1 + head + len) (drop (Z.to_nat (head + len)) r))
  | [] => None
  end.

Definition p_int_ (n : nat) (k : parser) : parser := p_int n (fun _ => k).
Definition p_counted (n : nat) (k : parser) : parser := p_int n (fun len => p_text len k).
Definition p_volume_dir (k : parser) : parser := p_zero (p_int_ 2 (p_int_ 4 k)).

(** ** The layout of each command *)

Definition p_if (b : bool) (p : parser -> parser) (k : parser) : parser := if b then p k else k.

(** The parameters of a set, by the bitmap. *)
Definition p_params (bitmap : Z) : parser :=
  p_if (has bitmap kFPAttributeBit) (p_int_ 2) (p_if (has bitmap kFPCreateDateBit) (p_int_ 4)
  (p_if (has bitmap kFPModDateBit) (p_int_ 4) (p_if (has bitmap kFPFinderInfoBit) (p_text 32)
  (p_if (has bitmap kFPOwnerIDBit) (p_int_ 4) (p_if (has bitmap kFPGroupIDBit) (p_int_ 4)
  (p_if (has bitmap kFPUnixPrivsBit) (fun k => p_int_ 4 (p_int_ 4 (p_int_ 4 (p_int_ 4 k)))) p_end)))))).

Definition p_set_params : parser := p_volume_dir (p_int 2 (fun bitmap => p_path (p_even (p_params bitmap)))).
Definition p_enumerate (wide : nat) : parser :=
  p_volume_dir (p_int_ 2 (p_int_ 2 (p_int_ 2 (p_int_ wide (p_int_ wide (p_path p_end)))))).

Definition layouts : list (Z * parser) :=
  [(afpGetFileDirParms, p_volume_dir (p_int_ 2 (p_int_ 2 (p_path p_end))));
   (afpSetFileDirParms, p_set_params); (afpSetDirParms, p_set_params);
   (afpOpenFork, p_int_ 1 (p_int_ 2 (p_int_ 4 (p_int_ 2 (p_int_ 2 (p_path p_end))))));
   (afpCloseFork, p_zero (p_int_ 2 p_end)); (afpFlushFork, p_zero (p_int_ 2 p_end));
   (afpSyncFork, p_zero (p_int_ 2 p_end));
   (afpRead, p_zero (p_int_ 2 (p_int_ 4 (p_int_ 4 (p_int_ 1 (p_int_ 1 p_end))))));
   (afpReadExt, p_zero (p_int_ 2 (p_int_ 8 (p_int_ 8 p_end))));
   (afpWrite, p_zero (p_int_ 2 (p_int_ 4 (p_counted 4 p_end))));
   (afpWriteExt, p_zero (p_int_ 2 (p_int_ 8 (p_counted 8 p_end))));
   (afpByteRangeLock, p_int_ 1 (p_int_ 2 (p_int_ 4 (p_int_ 4 p_end))));
   (afpByteRangeLockExt, p_int_ 1 (p_int_ 2 (p_int_ 8 (p_int_ 8 p_end))));
   (afpSetForkParms, p_zero (p_int_ 2 (p_int 2 (fun bitmap =>
     if has bitmap (Z.lor kFPExtDataForkLenBit kFPExtRsrcForkLenBit) then p_int_ 8 p_end else p_int_ 4 p_end))));
   (afpCreateFile, p_int_ 1 (p_int_ 2 (p_int_ 4 (p_path p_end))));
   (afpCreateDir, p_volume_dir (p_path p_end)); (afpDelete, p_volume_dir (p_path p_end));
   (afpCopyFile, p_volume_dir (p_int_ 2 (p_int_ 4 (p_path (p_path (p_path p_end))))));
   (afpMoveAndRename, p_volume_dir (p_int_ 4 (p_path (p_path (p_path p_end)))));
   (afpExchangeFiles, p_volume_dir (p_int_ 4 (p_path (p_path p_end))));
   (afpEnumerate, p_enumerate 2); (afpEnumerateExt, p_enumerate 2); (afpEnumerateExt2, p_enumerate 4);
   (afpGetVolParms, p_zero (p_int_ 2 (p_int_ 2 p_end))); (afpOpenDT, p_zero (p_int_ 2 p_end));
   (afpGetComment, p_volume_dir (p_path p_end));
   (afpAddComment, p_volume_dir (p_path (p_even (p_counted 1 p_end))));
   (afpGetExtAttr, p_volume_dir (p_int_ 2 (p_int_ 8 (p_int_ 8 (p_int_ 4 (p_path (p_even (p_counted 2 p_end))))))));
   (afpSetExtAttr, p_volume_dir (p_int_ 2 (p_int_ 8 (p_path (p_even (p_counted 2 (p_counted 4 p_end)))))));
   (afpListExtAttrs, p_volume_dir (p_int_ 2 (p_int_ 2 (p_int_ 4 (p_int_ 4 (p_path p_end))))));
   (afpRemoveExtAttr, p_volume_dir (p_int_ 2 (p_path (p_even (p_counted 2 p_end)))))].

Fixpoint layout (command : Z) (ls : list (Z * parser)) : option parser :=
  match ls with
  | [] => None
  | (c, p) :: r => if command =? c then Some p else layout command r
  end.

(** The command of a packet and its arguments. *)
Definition read_request (packet : list Z) : option (Z * list value) :=
  match packet with
  | [] => None
  | c :: r => p ← layout c layouts; vs ← p 1 r; Some (c, vs)
  end.

(** ** What each request of the client carries *)

Section Carries.
Context (wr : wire).

Definition v_dir (dirid : Z) : list value := [VInt 2 (w_volid wr); VInt 4 dirid].
Definition v_counted (n : nat) (bs : list Z) : list value := [VInt n (zlen bs); VText bs].

Definition v_params (bitmap : Z) (e : afp_dirent) : list value :=
  let on bit l := if has bitmap bit then l else [] in
  let date ns := VInt 4 (afp_date_from_unix (w_clock wr) (afp_sec_from_ns ns)) in
  on kFPAttributeBit [VInt 2 (attributes e)] ++ on kFPCreateDateBit [date (create_ns e)]
  ++ on kFPModDateBit [date (mod_ns e)] ++ on kFPFinderInfoBit [VText (finderinfo e)]
  ++ on kFPOwnerIDBit [VInt 4 (up_uid e)] ++ on kFPGroupIDBit [VInt 4 (up_gid e)]
  ++ on kFPUnixPrivsBit [VInt 4 (up_uid e); VInt 4 (up_gid e); VInt 4 (up_permissions e); VInt 4 (up_ua_permissions e)].

Definition v_set (d : Z) (n : list Z) (bm : Z) (e : afp_dirent) : list value :=
  v_dir d ++ [VInt 2 bm; VPath n] ++ v_params bm e.
Definition v_enumerate (wide : nat) (size d fb db r i : Z) (n : list Z) : list value :=
  v_dir d ++ [VInt 2 fb; VInt 2 db; VInt 2 r; VInt wide i; VInt wide size; VPath n].

(** The command of a request and its arguments in the protocol's order; none
    for what is no request. *)
Definition carries {A} (c : cmd A) : option (Z * list value) :=
  match c with
  | Gettimeofday | Malloc _ | Sleep _ => None
  | GetFileDirParms d fb db n => Some (afpGetFileDirParms, v_dir d ++ [VInt 2 fb; VInt 2 db; VPath n])
  | SetFileDirParms d n bm e => Some (afpSetFileDirParms, v_set d n bm e)
  | SetDirParms d n bm e => Some (afpSetDirParms, v_set d n bm e)
  | OpenFork t d m bm n =>
      Some (afpOpenFork, [VInt 1 (if t =? 0 then AFP_FORKTYPE_DATA else AFP_FORKTYPE_RESOURCE)] ++ v_dir d
                         ++ [VInt 2 bm; VInt 2 m; VPath n])
  | CloseFork f => Some (afpCloseFork, [VInt 2 f])
  | FlushFork f _ => Some (afpFlushFork, [VInt 2 f])
  | SyncFork f _ => Some (afpSyncFork, [VInt 2 f])
  | ReadFork true f off n => Some (afpReadExt, [VInt 2 f; VInt 8 off; VInt 8 n])
  | ReadFork false f off n => Some (afpRead, [VInt 2 f; VInt 4 off; VInt 4 n; VInt 1 0; VInt 1 0])
  | WriteFork true f off d => Some (afpWriteExt, [VInt 2 f; VInt 8 off] ++ v_counted 8 d)
  | WriteFork false f off d => Some (afpWrite, [VInt 2 f; VInt 4 off] ++ v_counted 4 d)
  | ByteRangeLock true fl f off n => Some (afpByteRangeLockExt, [VInt 1 fl; VInt 2 f; VInt 8 off; VInt 8 n])
  | ByteRangeLock false fl f off n => Some (afpByteRangeLock, [VInt 1 fl; VInt 2 f; VInt 4 off; VInt 4 n])
  | SetForkParms f bm n =>
      Some (afpSetForkParms,
        [VInt 2 f; VInt 2 bm; VInt (if has bm (Z.lor kFPExtDataForkLenBit kFPExtRsrcForkLenBit) then 8 else 4) n])
  | CreateFile fl d n => Some (afpCreateFile, [VInt 1 fl] ++ v_dir d ++ [VPath n])
  | CreateDir d n => Some (afpCreateDir, v_dir d ++ [VPath n])
  | Delete d n => Some (afpDelete, v_dir d ++ [VPath n])
  | CopyFile sd s dd dn _ => Some (afpCopyFile, v_dir sd ++ v_dir dd ++ [VPath s; VPath []; VPath dn])
  | MoveAndRename sd dd s f n =>
      Some (afpMoveAndRename, v_dir sd ++ [VInt 4 dd; VPath s; VPath (default [] f); VPath n])
  | ExchangeFiles sd dd s d => Some (afpExchangeFiles, v_dir sd ++ [VInt 4 dd; VPath s; VPath d])
  | Enumerate Enumerate16 d fb db r i n _ =>
      Some (afpEnumerate, v_enumerate 2 (enumerate_max_reply_size wr) d fb db r i n)
  | Enumerate EnumerateExt d fb db r i n _ =>
      Some (afpEnumerateExt, v_enumerate 2 (enumerate_max_reply_size wr) d fb db r i n)
  | Enumerate EnumerateExt2 d fb db r i n _ =>
      Some (afpEnumerateExt2, v_enumerate 4 (enumerate_max_payload wr) d fb db r i n)
  | GetVolParms bm => Some (afpGetVolParms, [VInt 2 (w_volid wr); VInt 2 bm])
  | OpenDT => Some (afpOpenDT, [VInt 2 (w_volid wr)])
  | GetComment d n => Some (afpGetComment, [VInt 2 (w_dtrefnum wr); VInt 4 d; VPath n])
  | AddComment d n cm => Some (afpAddComment, [VInt 2 (w_dtrefnum wr); VInt 4 d; VPath n] ++ v_counted 1 cm)
  | GetExtAttr d bm r p n =>
      Some (afpGetExtAttr,
        v_dir d ++ [VInt 2 bm; VInt 8 0; VInt 8 SIZE_MAX; VInt 4 r; VPath p] ++ v_counted 2 n)
  | SetExtAttr d bm off p n v =>
      Some (afpSetExtAttr, v_dir d ++ [VInt 2 bm; VInt 8 off; VPath p] ++ v_counted 2 n ++ v_counted 4 v)
  | ListExtAttr d bm p =>
      Some (afpListExtAttrs, v_dir d ++ [VInt 2 bm; VInt 2 0; VInt 4 0; VInt 4 (64 * 1024); VPath p])
  | RemoveExtAttr d bm p n => Some (afpRemoveExtAttr, v_dir d ++ [VInt 2 bm; VPath p] ++ v_counted 2 n)
  end.

End Carries.

(** ** Reading what was written *)

Lemma p_int_put n k pos z bs :
  0 <= z < 256 ^ Z.of_nat n ->
  p_int n k pos (be_put n z ++ bs) = then_value (VInt n z) (k z (pos + Z.of_nat n) bs).
Proof.
  intros Hz. unfold p_int. rewrite zlen_app, zlen_be_put. pose proof (zlen_nonneg bs).
  replace (_ <? _) with false by lia.
  rewrite take_app_zlen, drop_app_zlen by (by rewrite be_put_length). by rewrite be_get_put_small.
Qed.

Lemma p_int_put' n k pos z bs :
  0 <= z < 256 ^ Z.of_nat n ->
  p_int_ n k pos (be_put n z ++ bs) = then_value (VInt n z) (k (pos + Z.of_nat n) bs).
Proof. apply p_int_put. Qed.

Lemma p_byte_put k pos z bs :
  0 <= z < 256 -> p_int_ 1 k pos (z :: bs) = then_value (VInt 1 z) (k (pos + 1) bs).
Proof. intros Hz. unfold p_int_, p_int. rewrite zlen_cons. pose proof (zlen_nonneg bs).
  change (Z.of_nat 1) with 1. by replace (1 + zlen bs <? 1) with false by lia.
Qed.

Lemma be_put_1 z : 0 <= z < 256 -> be_put 1 z = [z].
Proof. intros Hz. cbv [be_put]. by rewrite Z.shiftr_0_r, Z.mod_small. Qed.

Lemma p_zero_put k pos bs : p_zero k pos (0 :: bs) = k (pos + 1) bs.
Proof. done. Qed.

Lemma p_text_put n k pos l bs :
  n = zlen l -> p_text n k pos (l ++ bs) = then_value (VText l) (k (pos + zlen l) bs).
Proof.
  intros ->. unfold p_text. rewrite zlen_app. pose proof (zlen_nonneg bs).
  replace (_ <? _) with false by lia.
  by rewrite take_app_zlen, drop_app_zlen by (unfold zlen; lia).
Qed.

Lemma p_counted_put n k pos l bs :
  zlen l < 256 ^ Z.of_nat n ->
  p_counted n k pos (be_put n (zlen l) ++ l ++ bs)
  = then_value (VInt n (zlen l)) (then_value (VText l) (k (pos + Z.of_nat n + zlen l) bs)).
Proof.
  intros Hl. unfold p_counted. rewrite p_int_put by (pose proof (zlen_nonneg l); lia). by rewrite p_text_put.
Qed.

(** Position and length of the packet so far are the same. *)
Lemma p_even_put k pos fixed bs :
  pos = zlen fixed ->
  p_even k pos (even_pad fixed ++ bs) = k (pos + zlen (even_pad fixed)) bs.
Proof.
  intros ->. unfold p_even, even_pad. destruct (Z.odd (zlen fixed)); simpl; [done|].
  by rewrite Z.add_0_r.
Qed.

Lemma p_path_put encoding k pos p bs :
  encoding = kFPUTF8Name \/ encoding = kFPLongName -> no_nul p -> zlen p <= path_limit encoding ->
  p_path k pos (path_block encoding p ++ bs)
  = then_value (VPath p) (k (pos + zlen (path_block encoding p)) bs).
Proof.
  intros [-> | ->] Hn Hl; unfold path_limit in Hl; simpl in Hl; pose proof (zlen_nonneg p);
    pose proof (zlen_nonneg bs).
  - rewrite path_block_utf8 by done. unfold UINT16_MAX in Hl.
    set (h := be_put 4 PATH_HINT ++ be_put 2 (zlen p)).
    assert (Hh : zlen h = 6) by (unfold h; rewrite zlen_app, !zlen_be_put; done).
    rewrite app_assoc. fold h. rewrite <- app_comm_cons, <- app_assoc. unfold p_path.
    change (kFPUTF8Name =? kFPUTF8Name) with true. cbv iota. rewrite orb_true_l.
    assert (be_at (h ++ map afp_path_byte p ++ bs) 4 2 = zlen p) as ->.
    { unfold be_at. rewrite sub_app_l by lia. unfold h.
      rewrite (sub_app_r 4) by (rewrite zlen_be_put; lia).
      rewrite sub_all by (rewrite !zlen_be_put; done). apply be_get_put_small. simpl. lia. }
    rewrite !zlen_app, zlen_map, Hh. simpl negb. rewrite orb_false_l. replace (_ <? _) with false by lia.
    rewrite sub_app_r, Hh by lia. rewrite sub_app_l by (rewrite ?zlen_map; lia).
    rewrite sub_all by (rewrite ?zlen_map; lia). rewrite unix_afp_path by done.
    rewrite app_assoc, drop_app_zlen by (rewrite length_app, length_map; unfold zlen in *; lia).
    rewrite zlen_cons, zlen_app, Hh, zlen_map. f_equal. f_equal. lia.
  - rewrite path_block_long by done. rewrite <- !app_comm_cons. unfold p_path, UINT8_MAX in *.
    change (kFPLongName =? kFPUTF8Name) with false. change (kFPLongName =? kFPLongName) with true.
    cbn [orb negb]. cbv iota.
    change (byte_at (zlen p :: _) 0) with (zlen p).
    rewrite zlen_cons, zlen_app, zlen_map. replace (_ <? _) with false by lia.
    change (zlen p :: map afp_path_byte p ++ bs) with ([zlen p] ++ map afp_path_byte p ++ bs).
    rewrite sub_app_r by (change (zlen [zlen p]) with 1; lia).
    rewrite sub_app_l by (rewrite ?zlen_map; change (zlen [zlen p]) with 1; lia).
    rewrite sub_all by (rewrite ?zlen_map; change (zlen [zlen p]) with 1; lia). rewrite unix_afp_path by done.
    rewrite app_assoc, drop_app_zlen by (rewrite length_app, length_map; unfold zlen in *; simpl; lia).
    rewrite !zlen_cons, zlen_map. f_equal. f_equal. lia.
Qed.

Lemma read_request_at c p r : layout c layouts = Some p -> read_request (c :: r) = pair c <$> p 1 r.
Proof. simpl. intros ->. simpl. by destruct (p 1 r). Qed.

Ltac fits_split H :=
  repeat first [rewrite Forall_app in H | rewrite Forall_cons in H];
  repeat match type of H with
  | _ /\ _ => let H' := fresh "F" in destruct H as [H' H]; fits_split H'
  end.

(** One field of the packet read, or all of them. *)
Ltac read_field enc :=
  first [rewrite p_zero_put | rewrite p_byte_put by done | rewrite p_int_put' by done | rewrite p_int_put by done
        | rewrite (p_path_put enc) by tauto | rewrite p_counted_put by lia | rewrite p_text_put by done
        | rewrite p_even_put by (repeat rewrite ?zlen_app, ?zlen_cons, ?zlen_be_put; change (zlen (@nil Z)) with 0; lia)].
Ltac read_fields enc := unfold p_enumerate; unfold p_volume_dir; repeat read_field enc.

(** A field that is there when its bit is set. *)
Lemma p_if_put b p v bytes k pos bs :
  (b = true -> p k pos (bytes ++ bs) = then_value v (k (pos + zlen bytes) bs)) ->
  p_if b p k pos ((if b then bytes else []) ++ bs)
  = app (if b then [v] else []) <$> k (pos + (if b then zlen bytes else 0)) bs.
Proof.
  intros H. destruct b; simpl; [by rewrite H|]. rewrite Z.add_0_r. by destruct (k pos bs).
Qed.

Lemma Forall_if {A} (P : A -> Prop) (b : bool) v : Forall P (if b then [v] else []) -> b = true -> P v.
Proof. intros H ->. by inversion H. Qed.

Lemma p_params_put wr bitmap e pos :
  zlen (finderinfo e) = 32 -> Forall (fits (w_encoding wr)) (v_params wr bitmap e) ->
  p_params bitmap pos (set_params_block wr bitmap e) = Some (v_params wr bitmap e).
Proof.
  intros Hf HF. unfold p_params, set_params_block, v_params in *.
  rewrite !Forall_app in HF. destruct HF as (H1 & H2 & H3 & H4 & H5 & H6 & H7).
  assert (P : forall bit n z k q bs, Forall (fits (w_encoding wr)) (if has bitmap bit then [VInt n z] else []) ->
    p_if (has bitmap bit) (p_int_ n) k q ((if has bitmap bit then be_put n z else []) ++ bs)
    = app (if has bitmap bit then [VInt n z] else [])
        <$> k (q + (if has bitmap bit then zlen (be_put n z) else 0)) bs).
  { intros bit n z k q bs HP. apply (p_if_put _ _ (VInt n z)). intros Hb. rewrite zlen_be_put.
    apply p_int_put'. by apply (Forall_if _ _ _ HP). }
  rewrite !P by done.
  rewrite (p_if_put _ _ (VText (finderinfo e))) by (intros _; by apply p_text_put). rewrite !P by done.
  unfold p_if. destruct (has bitmap kFPUnixPrivsBit); cbv iota beta.
  - rewrite <- (app_nil_r (be_put 4 (up_ua_permissions e))).
    fits_split H7. by rewrite !p_int_put'.
  - done.
Qed.

(** The finder information of a set is its 32 bytes. *)
Definition finderinfo_whole {A} (c : cmd A) : Prop :=
  match c with
  | SetFileDirParms _ _ _ e | SetDirParms _ _ _ e => zlen (finderinfo e) = 32
  | _ => True
  end.

Lemma read_set_params wr command d n bm e :
  w_encoding wr = kFPUTF8Name \/ w_encoding wr = kFPLongName -> zlen (finderinfo e) = 32 ->
  layout command layouts = Some p_set_params -> Forall (fits (w_encoding wr)) (v_set wr d n bm e) ->
  read_request (set_params wr command d n bm (set_params_block wr bm e)) = Some (command, v_set wr d n bm e).
Proof.
  intros He Hf Hc HF. unfold v_set, v_dir in *. fits_split HF.
  unfold set_params, volid, path. cbn [app]. rewrite (read_request_at command _ _ Hc).
  rewrite <- !app_assoc. unfold p_set_params. simpl fits in *. read_fields (w_encoding wr).
  by rewrite p_params_put.
Qed.

(** Reads a packet that is a concatenation of fields. *)
Ltac read_packet wr Hc HF Hp :=
  injection Hc as <- <-; apply (inj Some) in Hp; rewrite <- Hp; clear Hp; unfold v_enumerate in *; unfold v_dir, v_counted in *; fits_split HF;
  simpl fits in *;
  unfold afp_getfiledirparms, afp_openfork, afp_closefork, afp_flushfork, afp_syncfork, afp_fork_command, afp_read,
    afp_readext, afp_write, afp_writeext, afp_byterangelock, afp_byterangelockext, afp_setforkparms, afp_createfile,
    afp_createdir, afp_delete, afp_copyfile, afp_moveandrename, afp_exchangefiles, afp_getvolparms, afp_opendt, afp_getcomment, afp_getextattr, afp_setextattr, afp_listextattr,
    afp_removeextattr, attr_name, volid, path;
  rewrite ?u8_small by done; rewrite <- (app_nil_r (_ ++ _)); cbn [app];
  eapply eq_trans; [apply read_request_at; reflexivity|];
  rewrite <- ?app_assoc; read_fields (w_encoding wr); try done.

(** The request of an enumeration whose length fits. *)
Lemma enumerate_request_whole wr fixed pathname bytes :
  enumerate_request wr fixed pathname = Some bytes -> Some (fixed ++ path wr pathname) = Some bytes.
Proof. unfold enumerate_request. by destruct (_ <? _). Qed.

(** Up to the longest length of an unsigned short, 65535 less the headers, the
    enumeration is built; at the longest path a UTF-8 name can carry it is not. *)
Lemma enumerate_request_built wr fixed pathname :
  zlen pathname <= UINT16_MAX - 16 - zlen fixed - sizeof_path_header (w_encoding wr) ->
  enumerate_request wr fixed pathname = Some (fixed ++ path wr pathname).
Proof.
  intros Hp. unfold enumerate_request. pose proof (zlen_nonneg pathname). pose proof (zlen_nonneg fixed).
  assert (0 <= sizeof_path_header (w_encoding wr)) by (unfold sizeof_path_header; repeat case_if; lia).
  unfold UINT16_MAX in Hp. rewrite u16_small by lia. by rewrite Z.ltb_irrefl.
Qed.

Lemma enumerate_wraps :
  packet (Wire 7 kFPUTF8Name 3 4096 None) (Enumerate EnumerateExt2 2 0 0 20 1 (replicate (Z.to_nat 65535) 97) empty_listing) = None.
Proof. vm_compute. reflexivity. Qed.

(** C14: a request reaches the server as it was meant. Every request of the file
    operations that is built, read the way the protocol lays its command out,
    gives the command and its arguments, each whole, whatever they are as long
    as their fields hold them. The ones not built are a comment of more than 255
    bytes, which is refused, and an enumeration whose length passes its 16 bits. *)
Theorem request_roundtrip wr {A} (c : cmd A) command args bytes :
  w_encoding wr = kFPUTF8Name \/ w_encoding wr = kFPLongName -> finderinfo_whole c ->
  carries wr c = Some (command, args) -> Forall (fits (w_encoding wr)) args ->
  packet wr c = Some bytes -> read_request bytes = Some (command, args).
Proof.
  intros He Hf Hc HF Hp.
  destruct c as [| | | | | | | | | |[]|[]|[]| | | | | | | |[]| | | | | | | |];
    cbv beta iota delta [packet carries finderinfo_whole] in Hf, Hc, Hp; try discriminate Hc.
  2,3: injection Hc as <- <-; injection Hp as <-; by apply read_set_params.
  all: try (apply enumerate_request_whole in Hp; read_packet wr Hc HF Hp; fail).
  all: try (read_packet wr Hc HF Hp; fail).
  - destruct (has bitmap (Z.lor kFPExtDataForkLenBit kFPExtRsrcForkLenBit)) eqn:Hb; read_packet wr Hc HF Hp.
    all: rewrite Hb; by rewrite p_int_put'.
  - unfold afp_addcomment_sized in Hp. destruct (zlen comment >? UINT8_MAX) eqn:Hl; [done|].
    destruct (zlen name >? _); [done|]. pose proof (zlen_nonneg comment). unfold UINT8_MAX in Hl.
    rewrite <- (be_put_1 (zlen comment)) in Hp by lia. cbv zeta in Hp. read_packet wr Hc HF Hp.
Qed.

Lemma request_roundtrip_witness :
  let wr := Wire 7 kFPUTF8Name 3 4096 None in
  let bytes := default [] (packet wr (MoveAndRename 2 17 [97; 47; 98] None [99; 58])) in
  read_request bytes
  = Some (afpMoveAndRename, [VInt 2 7; VInt 4 2; VInt 4 17; VPath [97; 47; 98]; VPath []; VPath [99; 58]]).
Proof.
  intros wr bytes.
  apply (request_roundtrip wr (MoveAndRename 2 17 [97; 47; 98] None [99; 58])).
  - by left.
  - exact I.
  - reflexivity.
  - apply (bool_decide_unpack _). vm_compute. exact I.
  - reflexivity.
Defined.
