(* ===== verification/ForkFlush.v ===== *)
(** The list of open forks (lib/forklist.c): a dirty mark goes only with a flush
    the server acknowledged, and an unmount closes every fork. *)
From stdpp Require Import gmap.
From S2P Require Import Prelude AfpProtocol Listing World DidCache Identify DsiQueue ForkList.

(** ** The list *)

(** Every address on the list is of a record, and no two open forks share the
    server's reference number. *)
Definition forks_wf (v : volume) : Prop :=
  NoDup (open_forks v) /\ Forall (fun q => is_Some (forks v !! q)) (open_forks v)
  /\ NoDup (map (fun q => fi_forkid (fork_at q v)) (open_forks v)).

(** The records of two volumes differ in dirty marks only. *)
Definition same_forks (v v' : volume) : Prop :=
  open_forks v' = open_forks v
  /\ forall q, set_fi_dirty false <$> (forks v' !! q) = set_fi_dirty false <$> (forks v !! q).

Lemma same_forks_trans v1 v2 v3 : same_forks v1 v2 -> same_forks v2 v3 -> same_forks v1 v3.
Proof. intros [H1 H2] [H3 H4]. split; [congruence|]. intros q. by rewrite H4. Qed.

Lemma same_forks_dirty b q v : same_forks v (set_forks (alter (set_fi_dirty b) q (forks v)) v).
Proof.
  split; [done|]. intros q'. simpl. destruct (decide (q' = q)) as [->|Hq].
  - rewrite lookup_alter_eq. by destruct (forks v !! q).
  - by rewrite lookup_alter_ne.
Qed.

Lemma same_forks_field {A} (f : afp_file_info -> A) v v' q :
  (forall b i, f (set_fi_dirty b i) = f i) -> same_forks v v' -> f (fork_at q v') = f (fork_at q v).
Proof.
  intros Hf [_ Hs]. unfold fork_at. specialize (Hs q).
  destruct (forks v' !! q) as [i|], (forks v !! q) as [j|]; try done. simpl in *.
  injection Hs as Hs. rewrite <- (Hf false i), <- (Hf false j). f_equal. unfold set_fi_dirty. congruence.
Qed.

Lemma dirty_at b q v : is_Some (forks v !! q) ->
  fork_at q (set_forks (alter (set_fi_dirty b) q (forks v)) v) = set_fi_dirty b (fork_at q v).
Proof. intros [i Hi]. unfold fork_at. simpl. by rewrite lookup_alter_eq, Hi. Qed.

Lemma dirty_other b q q' v : q' <> q ->
  fork_at q' (set_forks (alter (set_fi_dirty b) q (forks v)) v) = fork_at q' v.
Proof. intros Hq. unfold fork_at. simpl. by rewrite lookup_alter_ne. Qed.

Lemma fork_inj v p q : forks_wf v -> p ∈ open_forks v -> q ∈ open_forks v ->
  fi_forkid (fork_at p v) = fi_forkid (fork_at q v) -> p = q.
Proof.
  intros (_ & _ & Hd) Hp Hq Heq. apply list_elem_of_lookup in Hp as [i Hi]. apply list_elem_of_lookup in Hq as [j Hj].
  enough (i = j) as -> by congruence.
  eapply (NoDup_lookup _ _ _ (fi_forkid (fork_at q v)) Hd).
  - rewrite list_lookup_fmap, Hi. simpl. by rewrite Heq.
  - by rewrite list_lookup_fmap, Hj.
Qed.

(** ** The flush *)

(** The server answered a flush of the fork with success. *)
Definition flushed (forkid : Z) (l : list sent) : bool :=
  existsb (fun s => match sent_cmd s in cmd A return A -> bool with
                    | FlushFork f _ => fun rc => (f =? forkid) && (rc =? kFPNoErr)
                    | SyncFork f _ => fun rc => (f =? forkid) && (rc =? kFPNoErr)
                    | _ => fun _ => false
                    end (sent_answer s)) l.

Definition record_of (v : volume) (q : Z) : dirty_fork_record :=
  let p := fork_at q v in DirtyFork (fi_forkid p) (fi_did p) (fi_resource p) (fi_basename p).

Lemma redirty_spec v q ps :
  (forall p, p ∈ ps -> fi_forkid (fork_at p v) = fi_forkid (fork_at q v) -> p = q) -> q ∈ ps ->
  redirty (record_of v q) ps v = set_forks (alter (set_fi_dirty true) q (forks v)) v.
Proof.
  induction ps as [|p ps IH]; intros Hu Hq; [by apply elem_of_nil in Hq|].
  cbn [redirty]. unfold matches_record, record_of at 1, names_file. cbn [dr_forkid].
  destruct (Z.eqb_spec (fi_forkid (fork_at p v)) (fi_forkid (fork_at q v))) as [Heq|Hne].
  - assert (p = q) as -> by (apply Hu; [left|done]).
    unfold record_of. simpl. by rewrite !Z.eqb_refl, list_eqb_refl.
  - cbn [andb]. apply elem_of_cons in Hq as [->|Hq]; [done|]. apply IH; [|done]. intros p' Hp'. apply Hu. by right.
Qed.

Section Flush.
Context {E : Type} {HE : Env E}.

(** During a flush that started from [v0]: a fork that was dirty is dirty, or
    waits for its flush, or the server acknowledged one. *)
Definition flushing (v0 : volume) (pending : list Z) (w : volume * Logged E) : Prop :=
  same_forks v0 (fst w)
  /\ forall q, q ∈ open_forks v0 -> fi_dirty (fork_at q v0) = true ->
       fi_dirty (fork_at q (fst w)) = true \/ q ∈ pending \/ flushed (fi_forkid (fork_at q v0)) (snd (snd w)) = true.

Lemma flushed_app f l k : flushed f (l ++ k) = flushed f l || flushed f k.
Proof. unfold flushed. by rewrite existsb_app. Qed.

Lemma flushing_call v0 pending A (c : cmd A) : keeps (flushing v0 pending) (call c).
Proof.
  intros w [Hs Hd]. unfold call, handle, logged_env. destruct (handle c (fst (snd w))) as [a e]. split; [done|].
  intros q Hq Hdq. simpl. rewrite flushed_app. destruct (Hd q Hq Hdq) as [?|[?| ->]]; auto.
Qed.

Lemma record_same v0 v q : same_forks v0 v -> record_of v q = record_of v0 q.
Proof.
  intros Hs. unfold record_of.
  by rewrite !(same_forks_field fi_forkid v0 v q), (same_forks_field fi_did v0 v q),
    (same_forks_field fi_resource v0 v q), (same_forks_field fi_basename v0 v q).
Qed.

Lemma same_some v v' q : same_forks v v' -> is_Some (forks v !! q) -> is_Some (forks v' !! q).
Proof. intros [_ Hs] [i Hi]. specialize (Hs q). rewrite Hi in Hs. by destruct (forks v' !! q). Qed.

Lemma flushing_clear v0 pending q w : forks_wf v0 -> q ∈ open_forks v0 -> flushing v0 pending w ->
  flushing v0 (pending ++ [q]) (snd (update_fork (set_fi_dirty false) q w)).
Proof.
  intros (_ & Hso & _) Hq [Hs Hd]. unfold update_fork, modify. cbn [snd fst].
  split; [eapply same_forks_trans; [exact Hs|apply same_forks_dirty]|].
  intros q' Hq' Hdq'. destruct (decide (q' = q)) as [->|Hne]; [right; left; set_solver|].
  simpl. rewrite dirty_other by done. destruct (Hd q' Hq' Hdq') as [?|[?|?]]; [auto|right; left; set_solver|auto].
Qed.

Lemma collect_dirty_spec v0 fp ps pending cap w :
  forks_wf v0 -> (forall q, q ∈ ps -> q ∈ open_forks v0) -> (forall q, q ∈ pending -> q ∈ open_forks v0) ->
  flushing v0 pending w ->
  let (rs, w') := collect_dirty fp ps (map (record_of v0) pending) cap w in
  exists pending', rs = map (record_of v0) pending' /\ (forall q, q ∈ pending' -> q ∈ open_forks v0)
                   /\ flushing v0 pending' w'.
Proof.
  intros Hwf. revert pending cap w. induction ps as [|q ps IH]; intros pending cap w Hps Hpe Hw.
  { by exists pending. }
  cbn [collect_dirty]. unfold bind at 1, get. cbn [fst snd].
  destruct (negb (wants_flush fp q (fst w))); [apply IH; [set_solver|done|done]|].
  unfold bind at 1. assert (Hq : q ∈ open_forks v0) by set_solver.
  assert (Hr : DirtyFork (fi_forkid (fork_at q (fst w))) (fi_did (fork_at q (fst w))) (fi_resource (fork_at q (fst w)))
                 (fi_basename (fork_at q (fst w))) = record_of v0 q) by (apply (record_same v0 (fst w) q), Hw).
  assert (Hkeep : forall cap w1, flushing v0 pending w1 ->
    let (rs, w') := bind (update_fork (set_fi_dirty false) q)
      (fun _ => collect_dirty fp ps (map (record_of v0) pending ++ [record_of v0 q]) cap) w1 in
    exists pending', rs = map (record_of v0) pending' /\ (forall q, q ∈ pending' -> q ∈ open_forks v0)
                   /\ flushing v0 pending' w').
  { intros cap' w1 Hw1. unfold bind. pose proof (flushing_clear v0 pending q w1 Hwf Hq Hw1) as Hc.
    destruct (update_fork (set_fi_dirty false) q w1) as [[] w2]. change ([record_of v0 q]) with (map (record_of v0) [q]).
    rewrite <- map_app. apply IH; [set_solver|set_solver|done]. }
  rewrite Hr. case_if; [|by apply Hkeep]. unfold bind at 1.
  pose proof (flushing_call v0 pending _ (Malloc ((if cap =? 0 then 4 else cap * 2) * sizeof_dirty_fork_record)) w Hw) as Hm.
  destruct (call (Malloc _) w) as [[|] w1]; [by apply Hkeep|]. apply IH; [set_solver|done|done].
Qed.

Lemma flush_records_spec v0 pending w :
  forks_wf v0 -> (forall q, q ∈ pending -> q ∈ open_forks v0) -> flushing v0 pending w ->
  flushing v0 [] (snd (flush_records (map (record_of v0) pending) w)).
Proof.
  intros Hwf. revert w. induction pending as [|q pending IH]; intros w Hp Hw; [done|]. cbn [map flush_records].
  assert (Hq : q ∈ open_forks v0) by set_solver.
  unfold bind at 1. unfold call at 1, handle, logged_env. destruct (handle _ (fst (snd w))) as [rc e].
  destruct Hw as [Hs Hd]. unfold bind at 1.
  destruct (Z.eqb_spec rc kFPNoErr) as [->|Hrc]; cbn [negb].
  - apply IH; [set_solver|]. split; [done|]. intros q' Hq' Hdq'. cbn [fst snd]. rewrite flushed_app.
    destruct (Hd q' Hq' Hdq') as [?|[[->|?]%elem_of_cons| ->]]; [auto| |auto|auto].
    right; right. rewrite orb_true_iff. right. simpl. by rewrite Z.eqb_refl.
  - unfold modify. apply IH; [set_solver|]. cbn [fst snd]. destruct Hwf as (Hnd & Hso & Hdis).
    assert (Hrd : redirty (record_of v0 q) (open_forks (fst w)) (fst w)
                  = set_forks (alter (set_fi_dirty true) q (forks (fst w))) (fst w)).
    { rewrite <- (record_same v0 (fst w) q Hs), (proj1 Hs). apply redirty_spec; [|done].
      intros p Hpo. rewrite !(same_forks_field fi_forkid v0 (fst w)) by done. by apply fork_inj. }
    rewrite Hrd. split; [eapply same_forks_trans; [exact Hs|apply same_forks_dirty]|].
    intros q' Hq' Hdq'. cbn [fst snd]. rewrite flushed_app. destruct (decide (q' = q)) as [->|Hne].
    + left. rewrite dirty_at; [done|]. eapply same_some; [exact Hs|]. exact (proj1 (Forall_forall _ _) Hso q Hq).
    + rewrite dirty_other by done. destruct (Hd q' Hq' Hdq') as [?|[[->|?]%elem_of_cons| ->]]; auto.
Qed.

Lemma flush_dirty_spec fp w : forks_wf (fst w) ->
  flushing (fst w) [] (snd (flush_dirty_forks_for_file fp w)).
Proof.
  intros Hwf. unfold flush_dirty_forks_for_file. unfold bind at 1, get. unfold bind at 1.
  pose proof (collect_dirty_spec (fst w) fp (open_forks (fst w)) [] 0 w Hwf ltac:(done) ltac:(set_solver)
    ltac:(split; [by split|by left])) as Hc.
  cbn [map] in Hc. destruct (collect_dirty _ _ _ _ w) as [rs w1]. destruct Hc as (pe & -> & Hp & Hw).
  by apply flush_records_spec.
Qed.

(** What is known once the fork was asked to be flushed, by the answer. *)
Definition asked (v0 : volume) (q rc : Z) (w : volume * Logged E) : Prop :=
  flushing v0 [q] w /\ (rc = kFPNoErr -> flushing v0 [] w)
  /\ (fi_dirty (fork_at q v0) = false -> flushing v0 [] w).

Lemma asked_call v0 q (c : cmd Z) rc0 w :
  flushed (fi_forkid (fork_at q v0)) [Sent Z c kFPNoErr] = true -> asked v0 q rc0 w ->
  let (rc, w') := call c w in asked v0 q rc w'.
Proof.
  intros Hc (Hw & _ & Hcl). pose proof (flushing_call v0 [q] Z c w Hw) as Hw'.
  pose proof (fun Hd => flushing_call v0 [] Z c w (Hcl Hd)) as Hcl'. revert Hw' Hcl'.
  unfold call, handle, logged_env. destruct (handle c (fst (snd w))) as [rc e]. cbn [snd fst]. intros Hw' Hcl'.
  split; [done|]. split; [|done]. intros ->. destruct Hw' as [Hs Hd]. split; [done|]. intros q' Hq' Hdq'.
  destruct (Hd q' Hq' Hdq') as [?|[Hin|?]]; [auto| |auto].
  apply list_elem_of_singleton in Hin as ->. right; right. cbn [snd fst]. rewrite flushed_app, Hc. apply orb_true_r.
Qed.

Lemma asked_clear v0 q w : fst w = v0 ->
  asked v0 q kFPCallNotSupported (snd (update_fork (set_fi_dirty false) q w)).
Proof.
  intros <-. unfold update_fork, modify. cbn [snd].
  pose proof (same_forks_dirty false q (fst w)) as Hs.
  split; [|split; [done|intros Hcl]]; (split; [exact Hs|]); intros q' Hq Hdq; cbn [fst snd];
    (destruct (decide (q' = q)) as [->|Hne]; [|left; rewrite dirty_other by done; exact Hdq]).
  - right; left. by left.
  - congruence.
Qed.

Lemma asked_mark v0 q rc w : forks_wf v0 -> asked v0 q rc w ->
  flushing v0 [] (snd (update_fork (set_fi_dirty true) q w)).
Proof.
  intros (_ & Hso & _) ([Hs Hd] & _). unfold update_fork, modify. cbn [snd fst].
  split; [eapply same_forks_trans; [exact Hs|apply same_forks_dirty]|].
  intros q' Hq Hdq. cbn [fst snd]. destruct (decide (q' = q)) as [->|Hne].
  - left. rewrite dirty_at; [done|]. eapply same_some; [exact Hs|]. exact (proj1 (Forall_forall _ _) Hso q Hq).
  - rewrite dirty_other by done. destruct (Hd q' Hq Hdq) as [?|[?%list_elem_of_singleton|?]]; [auto|done|auto].
Qed.

Lemma ml_fsync_flushing cf fp w : forks_wf (fst w) -> flushing (fst w) [] (snd (ml_fsync cf fp w)).
Proof.
  intros Hwf. set (v0 := fst w). assert (Hw : flushing v0 [] w) by (split; [by split|by left]).
  unfold ml_fsync. unfold bind at 1, get. cbn [fst snd]. fold v0. repeat (case_if; [exact Hw|]).
  unfold bind at 1. pose proof (asked_clear v0 fp w eq_refl) as Hw1.
  destruct (update_fork (set_fi_dirty false) fp w) as [[] w1]. cbn [snd] in Hw1. clear Hw.
  cbv zeta. set (wait := afpc_dsi_transfer_wait _ _ _).
  set (sync := if av_number cf >=? 31 then call (SyncFork (fi_forkid (fork_at fp v0)) wait)
               else ret kFPCallNotSupported).
  assert (Hsync : let (rc, w2) := sync w1 in asked v0 fp rc w2).
  { unfold sync. case_if; [|done]. eapply asked_call; [|exact Hw1]. simpl. by rewrite Z.eqb_refl. }
  unfold bind at 1. destruct (sync w1) as [rc1 w2].
  set (flush := if rc1 =? kFPCallNotSupported then call (FlushFork (fi_forkid (fork_at fp v0)) wait) else ret rc1).
  assert (Hflush : let (rc, w3) := flush w2 in asked v0 fp rc w3).
  { unfold flush. case_if; [|done]. eapply asked_call; [|exact Hsync]. simpl. by rewrite Z.eqb_refl. }
  unfold bind at 1. destruct (flush w2) as [rc w3].
  pose proof Hflush as (_ & Hok & Hclean).
  destruct (Z.eqb_spec rc kFPNoErr) as [Hrc|]; [exact (Hok Hrc)|]. unfold bind.
  destruct (fi_dirty (fork_at fp v0)) eqn:Ed; [|exact (Hclean eq_refl)].
  pose proof (asked_mark v0 fp rc w3 Hwf Hflush) as Hm. by destruct (update_fork _ fp w3) as [[] w4].
Qed.

End Flush.

(** ** The unmount *)

(** The forks a log's requests closed, in order. *)
Definition closes (l : list sent) : list Z :=
  flat_map (fun s => match sent_cmd s with CloseFork f => [f] | _ => [] end) l.

Section Unmount.
Context {E : Type} {HE : Env E} (cf : config).

Definition closing (v0 : volume) (l : list Z) (w : volume * Logged E) : Prop :=
  same_forks v0 (fst w) /\ closes (snd (snd w)) = l.

Lemma closes_app l k : closes (l ++ k) = closes l ++ closes k.
Proof. apply flat_map_app. Qed.

Lemma closing_call v0 l A (c : cmd A) :
  match c with CloseFork _ => false | _ => true end = true -> keeps (closing v0 l) (call c).
Proof.
  intros Hc w [Hs Hl]. unfold call, handle, logged_env. destruct (handle c (fst (snd w))) as [a e].
  split; [done|]. simpl. rewrite closes_app, Hl. destruct c; simpl; try done; by rewrite app_nil_r.
Qed.

Lemma closing_dirty v0 l b q : keeps (closing v0 l) (update_fork (set_fi_dirty b) q).
Proof.
  intros w [Hs Hl]. split; [|done]. eapply same_forks_trans; [exact Hs|apply same_forks_dirty].
Qed.

#[local] Hint Resolve closing_dirty : keeps.
#[local] Hint Extern 1 (keeps (closing _ _) (call _)) => (apply closing_call; reflexivity) : keeps.

Lemma closing_flush v0 l q : keeps (closing v0 l) (ml_close_flush cf q).
Proof. unfold ml_close_flush, ml_fsync. keep. Qed.

Lemma remove_forks_spec ps (w : volume * Logged E) : NoDup ps -> open_forks (fst w) = ps ->
  let (_, w') := remove_forks cf ps w in
  open_forks (fst w') = [] /\ Forall (fun q => forks (fst w') !! q = None) ps
  /\ (forall q, q ∉ ps -> is_Some (forks (fst w') !! q) -> is_Some (forks (fst w) !! q))
  /\ closes (snd (snd w')) = closes (snd (snd w)) ++ map (fun q => fi_forkid (fork_at q (fst w))) ps.
Proof.
  revert w. induction ps as [|p ps IH]; intros w Hnd Hop; cbn [remove_forks].
  { cbn. rewrite app_nil_r. done. }
  apply NoDup_cons in Hnd as [Hp Hnd]. unfold bind at 1.
  pose proof (closing_flush (fst w) (closes (snd (snd w))) p w ltac:(by split; [split|])) as Hc.
  destruct (ml_close_flush cf p w) as [r w1]. destruct Hc as [Hs Hl]. cbn [snd fst] in Hs, Hl. unfold bind at 1, get. cbn [fst snd].
  unfold bind at 1. unfold call at 1, handle, logged_env. destruct (handle _ (fst (snd w1))) as [rc e].
  unfold bind at 1, modify. cbn [fst snd].
  set (w2 := ((set_forks (delete p (forks (fst w1))) (set_open_forks ps (fst w1)),
              (e, snd (snd w1) ++ [Sent Z (CloseFork (fi_forkid (fork_at p (fst w1)))) rc])) : volume * Logged E)).
  specialize (IH w2 Hnd eq_refl).
  change (remove_forks cf ps _) with (remove_forks cf ps w2). destruct (remove_forks cf ps w2) as [[] w3]. cbn [fst snd] in IH. destruct IH as (H1 & H2 & H3 & H4).
  assert (Hfree : forks (fst w3) !! p = None).
  { destruct (forks (fst w3) !! p) eqn:Ep; [|done]. exfalso.
    destruct (H3 p Hp ltac:(by rewrite Ep)) as [i Hi]. simpl in Hi. by rewrite lookup_delete_eq in Hi. }
  split; [done|]. split; [by constructor|]. split.
  - intros q Hq Hsome. apply not_elem_of_cons in Hq as [Hqp Hq]. specialize (H3 q Hq Hsome). simpl in H3.
    rewrite lookup_delete_ne in H3 by done. destruct Hs as [_ Hs]. specialize (Hs q). destruct H3 as [i Hi].
    rewrite Hi in Hs. by destruct (forks (fst w) !! q).
  - rewrite H4. cbn [snd fst w2]. rewrite closes_app, Hl, <- app_assoc. f_equal. cbn.
    rewrite (same_forks_field fi_forkid (fst w) (fst w1) p) by done. f_equal.
    apply map_ext_in. intros q Hq%list_elem_of_In.
    rewrite <- (same_forks_field fi_forkid (fst w) (fst w1) q) by done. unfold fork_at. simpl.
    rewrite lookup_delete_ne; [done|]. intros ->. done.
Qed.

End Unmount.

(** ** Theorems *)

Definition flush_volume : volume :=
  set_open_forks [1; 2]
    (set_fork 2 (FileInfo 0 2 0 0 6 false true true false (str "a"))
      (set_fork 1 (FileInfo 0 2 0 0 5 false false false false (str "a")) empty_volume)).

#[export] Instance gone_server : Env unit := fun A c e => (no_answer c, e).

Lemma flush_volume_wf : forks_wf flush_volume.
Proof.
  split; [|split].
  - repeat constructor; set_solver.
  - repeat constructor; by eexists.
  - vm_compute. repeat constructor; set_solver.
Qed.

(** C23: a dirty mark goes only with an acknowledged flush. After the flush of
    the other forks of a file, and after an fsync, an open fork that was dirty
    still is, or the server answered a flush or a sync of it with success;
    nothing else of any record changes. Whatever fails: the requests, or the
    memory for the forks to flush. *)
Theorem dirty_until_flushed {E} `{Env E} cf fp (w : volume * Logged E) m :
  forks_wf (fst w) -> m = flush_dirty_forks_for_file fp \/ m = (ml_fsync cf fp ;;! ret tt) ->
  let w' := snd (m w) in
  same_forks (fst w) (fst w')
  /\ forall q, q ∈ open_forks (fst w) -> fi_dirty (fork_at q (fst w)) = true ->
       fi_dirty (fork_at q (fst w')) = true \/ flushed (fi_forkid (fork_at q (fst w))) (snd (snd w')) = true.
Proof.
  intros Hwf Hm. enough (Hf : flushing (fst w) [] (snd (m w))).
  { destruct Hf as [Hs Hd]. split; [done|]. intros q Hq Hdq. destruct (Hd q Hq Hdq) as [?|[?%elem_of_nil|?]]; auto. }
  destruct Hm as [->| ->]; [by apply flush_dirty_spec|].
  unfold bind. pose proof (ml_fsync_flushing cf fp w Hwf). by destruct (ml_fsync cf fp w).
Qed.

Lemma dirty_until_flushed_witness :
  let w' := snd (flush_dirty_forks_for_file 1 (flush_volume, (tt, []))) in
  length (snd (snd w')) = 2%nat
  /\ (fi_dirty (fork_at 2 (fst w')) = true \/ flushed 6 (snd (snd w')) = true).
Proof.
  split; [by vm_compute|].
  apply (dirty_until_flushed sample_config 1 (flush_volume, (tt, [])) _ flush_volume_wf (or_introl eq_refl));
    [set_solver|done].
Defined.

(** An unmount closes every open fork, each once and in the list's order,
    frees its record and leaves the list empty, whatever the flushes and the
    closes answer. *)
Theorem remove_fork_list_spec {E} `{Env E} cf (w : volume * Logged E) : NoDup (open_forks (fst w)) ->
  let w' := snd (remove_fork_list cf w) in
  open_forks (fst w') = [] /\ Forall (fun q => forks (fst w') !! q = None) (open_forks (fst w))
  /\ closes (snd (snd w')) = closes (snd (snd w)) ++ map (fun q => fi_forkid (fork_at q (fst w))) (open_forks (fst w)).
Proof.
  intros Hnd. unfold remove_fork_list, bind, get. pose proof (remove_forks_spec cf _ w Hnd eq_refl) as Hr.
  destruct (remove_forks cf (open_forks (fst w)) w) as [u w']. naive_solver.
Qed.

Lemma remove_fork_list_spec_witness :
  closes (snd (snd (snd (remove_fork_list sample_config (flush_volume, (tt, [])))))) = [5; 6].
Proof. apply (remove_fork_list_spec sample_config (flush_volume, (tt, [])) (proj1 flush_volume_wf)). Defined.
