(* ===== verification/ForkIO.v ===== *)
(** Reads and writes of a fork (ll_read, ll_write of lib/lowlevel.c) against the
    bytes a server keeps: what is read is what is there, what is written gets
    there, and every lock granted is released. *)
From stdpp Require Import gmap.
From S2P Require Import Prelude AfpProtocol Utils ReplyBlock Listing World DidCache Identify DsiQueue ForkList LowLevel Quiet.

(** ** Bytes of a fork *)

(** Writing past the end fills the gap with zeros; writing nothing changes
    nothing. *)
Definition put (c : list Z) (off : Z) (d : list Z) : list Z :=
  match d with
  | [] => c
  | _ => take (Z.to_nat off) (c ++ zero_bytes (off - zlen c)) ++ d ++ drop (Z.to_nat (off + zlen d)) c
  end.

Lemma put_eq c off d : d <> [] ->
  put c off d = take (Z.to_nat off) (c ++ zero_bytes (off - zlen c)) ++ d ++ drop (Z.to_nat (off + zlen d)) c.
Proof. by destruct d. Qed.

Lemma take_put_prefix c off : 0 <= off ->
  zlen (take (Z.to_nat off) (c ++ zero_bytes (off - zlen c))) = off.
Proof.
  intros H. rewrite zlen_take, zlen_app. unfold zero_bytes. rewrite zlen_replicate. pose proof (zlen_nonneg c). lia.
Qed.

(** Two writes in a row are one. *)
Lemma put_put c off a b : 0 <= off -> put (put c off a) (off + zlen a) b = put c off (a ++ b).
Proof.
  intros H. destruct a as [|a0 a']; [rewrite zlen_nil, Z.add_0_r; done|]. set (a := a0 :: a').
  destruct b as [|b0 b']; [by rewrite app_nil_r|]. set (b := b0 :: b').
  pose proof (zlen_nonneg a) as Ha0. pose proof (zlen_nonneg b) as Hb0.
  set (p := take (Z.to_nat off) (c ++ zero_bytes (off - zlen c))).
  assert (Hp : zlen p = off) by (by apply take_put_prefix).
  assert (Eput : put c off a = (p ++ a) ++ drop (Z.to_nat (off + zlen a)) c)
    by (rewrite put_eq by done; by rewrite <- app_assoc).
  rewrite (put_eq _ (off + zlen a)), Eput, <- app_assoc by done.
  rewrite (take_app_zlen (p ++ a)) by (rewrite length_app; unfold zlen in *; lia).
  rewrite put_eq by done. fold p. rewrite <- !app_assoc. do 3 f_equal.
  rewrite app_assoc, drop_app_ge by (rewrite length_app; unfold zlen in *; lia).
  rewrite drop_drop, zlen_app, length_app. f_equal. unfold zlen in *. lia.
Qed.

Lemma sub_sub_app {A} off n k (l : list A) : 0 <= off -> 0 <= n -> 0 <= k ->
  sub off n l ++ sub (off + n) k l = sub off (n + k) l.
Proof.
  intros. unfold sub. rewrite Z2Nat.inj_add, Z2Nat.inj_add by lia.
  rewrite <- drop_drop. apply take_take_drop.
Qed.

Lemma take_sub_app {A} done n k (l : list A) : 0 <= done -> 0 <= n <= k ->
  take (Z.to_nat done) l ++ take (Z.to_nat n) (sub done k l) = take (Z.to_nat (done + n)) l.
Proof.
  intros. unfold sub. rewrite firstn_firstn, Nat.min_l, Z2Nat.inj_add by lia.
  apply take_take_drop.
Qed.

(** ** A server that keeps forks *)

(** [content e f] is what the server keeps of fork [f]. A write it answers
    kFPNoErr stored as many bytes as its reply's offset says; a read answers a
    prefix of what is asked for, an empty one only at the end, and kFPEOFErr
    only with all of it, at the end. *)
Class ForkServer (E : Type) `{Env E} (content : E -> Z -> list Z) : Prop := {
  fs_other : forall A (c : cmd A) e f, changes c = false -> content (snd (handle c e)) f = content e f;
  fs_write : forall ext f off d e,
    let '((rc, reply), e') := handle (WriteFork ext f off d) e in
    (rc = kFPNoErr -> exists n, 0 <= n <= zlen d /\ reply = off + n
                       /\ content e' f = put (content e f) off (take (Z.to_nat n) d))
    /\ (rc <> kFPNoErr -> content e' f = content e f)
    /\ forall g, g <> f -> content e' g = content e g;
  fs_read : forall ext f off n e,
    let (rc, d) := fst (handle (ReadFork ext f off n) e) in
    (rc = kFPNoErr -> d `prefix_of` sub off n (content e f) /\ (d = [] -> sub off n (content e f) = []))
    /\ (rc = kFPEOFErr -> d = sub off n (content e f) /\ off + zlen d >= zlen (content e f)) }.

Section Transfers.
Context {E : Type} {HE : Env E} (cf : config) (content : E -> Z -> list Z) {Fs : ForkServer E content}.

Definition holds (c : Z -> list Z) (w : volume * E) : Prop := forall f, content (snd w) f = c f.

Lemma holds_call c A (k : cmd A) : changes k = false -> keeps (holds c) (call k).
Proof.
  intros Hk w Hw f. unfold call. pose proof (fs_other A k (snd w) f Hk) as Ho.
  destruct (handle k (snd w)) as [a e]. simpl in *. by rewrite Ho.
Qed.

#[local] Instance holds_quiet c : Quiet (holds c).
Proof. split; [intros; by apply holds_call|by intros f w Hw]. Qed.

Lemma holds_lock c f off n : keeps (holds c) (ll_handle_locking cf f off n).
Proof. auto with keeps typeclass_instances. Qed.

Lemma holds_unlock c f off n : keeps (holds c) (ll_handle_unlocking cf f off n).
Proof. auto with keeps typeclass_instances. Qed.

(** *** Writes *)

(** The offsets of a transfer fit the request of the version. *)
Definition offsets_fit (offset size : Z) : Prop :=
  0 <= offset /\ offset + size < 2 ^ 63 /\ (afp2 cf = true -> offset + size <= 2 ^ 32).

Lemma write_request_offset offset size done : offsets_fit offset size -> 0 <= done < size ->
  u64 (offset + done) = offset + done /\ (afp2 cf = true -> u32 (offset + done) = offset + done).
Proof.
  intros (H1 & H2 & H3) Hd. split; [apply u64_small; lia|]. intros Ha. specialize (H3 Ha). apply u32_small. lia.
Qed.

(** The loop's end with an errno. *)
Ltac stop_at err :=
  exists err; eexists; (split; [reflexivity|]); (split; [lia|]); (split; [done|]); (split; [done || lia|]).

Lemma write_loop_spec fuel p f offset data done c w :
  0 < quantum cf -> offsets_fit offset (zlen data) -> holds c w -> 0 <= done <= zlen data ->
  zlen data - done <= Z.of_nat fuel ->
  let '(r, w') := write_loop cf fuel p f offset data done w in
  exists err done', r = Some (err, done') /\ done <= done' <= zlen data /\ 0 <= err
    /\ (err = 0 -> done' = zlen data)
    /\ holds (fun g => if g =? f then put (c f) (offset + done) (sub done (done' - done) data) else c g) w'.
Proof.
  intros Hq Hoff. revert done c w. induction fuel as [|fuel IH]; intros done c w Hw Hd Hf; cbn [write_loop].
  all: assert (Hsame : holds (fun g => if g =? f then put (c f) (offset + done) (sub done (done - done) data) else c g) w)
    by (intros g; rewrite Z.sub_diag; change (sub done 0 data) with (@nil Z); simpl;
        destruct (Z.eqb_spec g f) as [->|]; apply Hw).
  - destruct (Z.ltb_spec done (zlen data)); [lia|]. by stop_at 0.
  - destruct (Z.ltb_spec done (zlen data)) as [Hlt|]; [|by stop_at 0].
    set (n := if zlen data - done <? quantum cf then zlen data - done else quantum cf).
    assert (Hn : 0 < n <= zlen data - done) by (unfold n; case_if; bool_to_prop; lia).
    rewrite (proj2 (Z.eqb_neq n 0)) by lia.
    destruct (write_request_offset _ _ done Hoff ltac:(lia)) as [Ho1 Ho2]. rewrite Ho1.
    assert (Hreq : (if afp2 cf then call (WriteFork false f (u32 (offset + done)) (sub done n data))
                    else call (WriteFork true f (offset + done) (sub done n data)))
                   = call (WriteFork (negb (afp2 cf)) f (offset + done) (sub done n data))).
    { destruct (afp2 cf); [by rewrite Ho2|done]. }
    rewrite Hreq. unfold bind at 1, call.
    pose proof (fs_write (negb (afp2 cf)) f (offset + done) (sub done n data) (snd w)) as Hwr.
    destruct (handle (WriteFork _ _ _ _) (snd w)) as [[rc reply] e]. cbn [fst snd].
    destruct Hwr as (Hok & Hno & Hother).
    assert (Hkeep : rc <> kFPNoErr ->
      holds (fun g => if g =? f then put (c f) (offset + done) (sub done (done - done) data) else c g) (fst w, e)).
    { intros Hrc g. cbn [snd]. pose proof (Hsame g) as Hs. cbv beta in Hs |- *. destruct (Z.eqb_spec g f) as [Eg|Hg].
      - rewrite Eg in Hs |- *. rewrite Hno by done. exact Hs.
      - rewrite Hother by done. exact Hs. }
    destruct (Z.eqb_spec rc kFPAccessDenied) as [->|]; [stop_at EACCES; by apply Hkeep|].
    destruct (Z.eqb_spec rc kFPDiskFull) as [->|]; [stop_at ENOSPC; by apply Hkeep|].
    destruct (Z.eqb_spec rc kFPLockErr) as [->|]; [stop_at EBUSY; by apply Hkeep|].
    destruct (Z.eqb_spec rc kFPNoErr) as [->|]; cbn [negb]; [|stop_at EIO; by apply Hkeep].
    destruct (Hok eq_refl) as (k & Hk & -> & Hput).
    rewrite zlen_sub in Hk by lia.
    rewrite (proj2 (Z.ltb_ge (offset + done + k) (offset + done))) by lia.
    replace (offset + done + k - (offset + done)) with k by lia.
    assert (Hstep : take (Z.to_nat k) (sub done n data) = sub done k data)
      by (unfold sub; rewrite firstn_firstn; f_equal; lia).
    rewrite Hstep in Hput.
    set (c' := fun g => if g =? f then put (c f) (offset + done) (sub done k data) else c g).
    assert (Hw' : holds c' (fst w, e)).
    { intros g. unfold c'. cbn [snd]. destruct (Z.eqb_spec g f) as [->|Hg]; [rewrite Hput; f_equal; apply Hw|].
      rewrite Hother by done. apply Hw. }
    destruct (Z.eqb_spec k 0) as [->|Hk0]; cbn [orb].
    { stop_at EIO. intros g. rewrite Z.sub_diag. apply Hw'. }
    rewrite (Z.gtb_ltb k n), (proj2 (Z.ltb_ge n k)) by lia.
    unfold bind at 1. unfold update_fork, modify. cbn [fst snd].
    specialize (IH (done + k) c' (set_forks (alter (set_fi_dirty true) p (forks (fst w))) (fst w), e)
      ltac:(exact Hw') ltac:(lia) ltac:(lia)).
    destruct (write_loop cf fuel p f offset data (done + k) _) as [r w'].
    destruct IH as (err & done' & -> & Hd' & He & Herr & Hhold). exists err, done'.
    split; [done|]. split; [lia|]. split; [done|]. split; [done|]. intros g. rewrite Hhold. unfold c'.
    destruct (Z.eqb_spec g f) as [->|]; [|done]. rewrite Z.eqb_refl.
    assert (Hl : zlen (sub done k data) = k) by (apply zlen_sub; lia).
    replace (offset + (done + k)) with (offset + done + zlen (sub done k data)) by lia.
    rewrite put_put by (destruct Hoff; lia). rewrite sub_sub_app by lia. do 2 f_equal. lia.
Qed.

Lemma ll_write_content data offset p w c :
  0 <= quantum cf -> 0 <= offset -> offset + zlen data < 2 ^ 63 -> holds c w ->
  let f := fi_forkid (fork_at p (fst w)) in
  let '((r, n), w') := ll_write cf data offset (Some p) w in
  0 <= n <= zlen data /\ r <= 0 /\ (r = 0 -> n = zlen data)
  /\ holds (fun g => if g =? f then put (c f) offset (take (Z.to_nat n) data) else c g) w'.
Proof.
  intros Hq0 Ho Hs Hw f. unfold ll_write, bind at 1, get. cbn [fst snd]. fold f. pose proof (zlen_nonneg data) as Hl.
  assert (H0 : forall w', holds c w' -> holds (fun g => if g =? f then put (c f) offset (take (Z.to_nat 0) data) else c g) w').
  { intros w' Hw' g. cbn. destruct (Z.eqb_spec g f) as [->|]; apply Hw'. }
  assert (Hstop : forall e w', e < 0 -> holds c w' ->
    0 <= 0 <= zlen data /\ e <= 0 /\ (e = 0 -> 0 = zlen data)
    /\ holds (fun g => if g =? f then put (c f) offset (take (Z.to_nat 0) data) else c g) w').
  { intros e w' He Hw'. split; [lia|]. split; [lia|]. split; [lia|]. by apply H0. }
  destruct (f =? 0); [by apply Hstop|]. destruct (quantum cf =? 0) eqn:Eq; [by apply Hstop|].
  destruct (afp2 cf && _) eqn:Ea; [by apply Hstop|].
  assert (Hoff : offsets_fit offset (zlen data)).
  { split; [done|]. split; [done|]. intros Ha. rewrite Ha in Ea. cbn [andb] in Ea. bool_to_prop.
    rewrite u64_small in Ea by lia. unfold AFP_MAX_AFP2_FILESIZE in Ea. lia. }
  unfold bind at 1. pose proof (holds_lock c f offset (zlen data) w Hw) as Hw1.
  destruct (ll_handle_locking cf f offset (zlen data) w) as [l w1]. cbn [snd] in Hw1.
  destruct (negb (l =? 0)); [by apply Hstop|]. unfold bind at 1.
  assert (Hq : 0 < quantum cf) by (bool_to_prop; lia).
  pose proof (write_loop_spec (length data) p f offset data 0 c w1 Hq Hoff Hw1 ltac:(lia) ltac:(unfold zlen; lia)) as Hl1.
    destruct (write_loop cf (length data) p f offset data 0 w1) as [r w2].
    destruct Hl1 as (err & n & -> & Hn & He & Herr & Hw2). rewrite Z.add_0_r, Z.sub_0_r in Hw2.
    change (sub 0 n data) with (take (Z.to_nat n) data) in Hw2.
    pose proof (holds_unlock _ f offset (zlen data) w2 Hw2) as Hw3.
    destruct (Z.eqb_spec err 0) as [->|Hne].
  - unfold bind at 1. destruct (ll_handle_unlocking cf f offset (zlen data) w2) as [u w3]. cbn [snd] in Hw3.
      destruct (negb (u =? 0)).
    + unfold bind. pose proof (holds_unlock _ f offset (zlen data) w3 Hw3) as Hw4.
        destruct (ll_handle_unlocking cf f offset (zlen data) w3) as [u' w4]. cbn [snd ret] in Hw4 |- *.
        split; [lia|]. split; [done|]. split; [done|exact Hw4].
    + cbn [ret]. split; [lia|]. split; [lia|]. split; [auto|exact Hw3].
  - unfold bind. destruct (ll_handle_unlocking cf f offset (zlen data) w2) as [u w3]. cbn [snd ret] in Hw3 |- *.
      split; [lia|]. split; [lia|]. split; [lia|exact Hw3].
Qed.

(** *** Reads *)

Lemma prefix_sub off n c (d : list Z) : d `prefix_of` sub off n c -> 0 <= off -> 0 <= n ->
  d = sub off (zlen d) c /\ zlen d <= n.
Proof.
  intros [x Hx] Ho Hn. pose proof (zlen_nonneg d). assert (Hl : zlen d + zlen x <= n).
  { rewrite <- zlen_app, <- Hx. unfold sub. rewrite zlen_take. lia. }
  pose proof (zlen_nonneg x). split; [|lia].
  assert (E1 : sub off (zlen d) c = take (length d) (sub off n c))
    by (unfold sub; rewrite firstn_firstn; f_equal; unfold zlen in *; lia).
  by rewrite E1, Hx, take_app_length.
Qed.

Lemma sub_end off n k (c : list Z) : 0 <= off -> 0 <= n <= k -> sub (off + n) (k - n) c = [] -> sub off n c = sub off k c.
Proof.
  intros Ho Hn He. assert (Hk : sub off k c = sub off n c ++ sub (off + n) (k - n) c).
  { rewrite sub_sub_app by lia. f_equal. lia. }
  by rewrite Hk, He, app_nil_r.
Qed.

Lemma read_loop_spec fuel f offset size got c w :
  0 < quantum cf -> offsets_fit offset size -> size <= INT_MAX -> holds c w ->
  got = sub offset (zlen got) (c f) -> zlen got <= size -> size - zlen got <= Z.of_nat fuel ->
  let '(r, w') := read_loop cf fuel f offset size got w in
  holds c w'
  /\ ((exists e, r = Some (Err e) /\ 0 < e)
      \/ exists eof, r = Some (Ok (sub offset size (c f), eof))
           /\ (eof = true -> offset + zlen (sub offset size (c f)) >= zlen (c f))).
Proof.
  intros Hq Hoff Hmax. revert got w. induction fuel as [|fuel IH]; intros got w Hw Hg Hs Hf; cbn [read_loop].
  all: pose proof (zlen_nonneg got) as Hg0.
  all: destruct (Z.ltb_spec (zlen got) size) as [Hlt|Hge];
    [|split; [done|]; right; exists false; replace (zlen got) with size in Hg by lia; by rewrite <- Hg].
  { lia. }
  pose proof Hoff as (H1 & H2 & H3).
  set (n := Z.min (quantum cf) (size - zlen got)). assert (Hn : 0 < n <= size - zlen got) by (unfold n; lia).
  assert (Hreq : (if afp2 cf then call (ReadFork false f (u32 (offset + zlen got)) (u32 n))
                  else call (ReadFork true f (offset + zlen got) n))
                 = call (ReadFork (negb (afp2 cf)) f (offset + zlen got) n)).
  { destruct (afp2 cf) eqn:Ea; [|done]. specialize (H3 eq_refl). unfold INT_MAX in Hmax. rewrite (u32_small n), u32_small by lia. done. }
  rewrite Hreq. unfold bind at 1. pose proof (holds_call c _ (ReadFork (negb (afp2 cf)) f (offset + zlen got) n) eq_refl w Hw) as Hw1.
  unfold call in *. pose proof (fs_read (negb (afp2 cf)) f (offset + zlen got) n (snd w)) as Hrd.
  destruct (handle (ReadFork _ _ _ _) (snd w)) as [[rc d] e]. cbn [fst snd] in *. destruct Hrd as [Hok Heof].
  assert (Hc : content (snd w) f = c f) by apply Hw. rewrite Hc in Hok, Heof.
  destruct (Z.eqb_spec rc kFPAccessDenied); [split; [done|]; left; by exists EACCES|].
  destruct (Z.eqb_spec rc kFPLockErr); [split; [done|]; left; by exists EBUSY|].
  destruct (Z.eqb_spec rc kFPEOFErr) as [->|].
  - destruct (Heof eq_refl) as [Hd Hend]. split; [done|]. right. exists true.
    assert (Hall : got ++ d = sub offset size (c f)).
    { rewrite Hg, Hd, sub_sub_app by lia. apply sub_end; [done|lia|].
      unfold sub. rewrite drop_ge; [by rewrite take_nil|]. rewrite Hd in Hend.
      unfold sub, zlen in *. rewrite length_take, length_drop in Hend. lia. }
    rewrite Hall. split; [done|]. intros _. rewrite <- Hall, zlen_app. lia.
  - destruct (Z.eqb_spec rc kFPNoErr) as [->|]; [|split; [done|]; left; by exists EIO].
    destruct (Hok eq_refl) as [Hpre Hempty]. destruct (prefix_sub _ _ _ _ Hpre ltac:(lia) ltac:(lia)) as [Hd Hdn].
    destruct (Z.eqb_spec (zlen d) 0) as [Hz|Hz].
    + apply zlen_0_inv in Hz. specialize (Hempty Hz). split; [done|]. right. exists false. split; [|done].
      do 3 f_equal. rewrite Hg. apply sub_end; [done|lia|].
      assert (Hlen : zlen (sub (offset + zlen got) n (c f)) = 0) by (by rewrite Hempty).
      apply zlen_0_inv. unfold sub, zlen in *. rewrite length_take, length_drop in *. lia.
    + specialize (IH (got ++ d) (fst w, e) Hw1). rewrite zlen_app in IH. pose proof (zlen_nonneg d).
      apply IH; [|lia|lia]. rewrite Hg at 1. rewrite Hd at 1. apply sub_sub_app; lia.
Qed.

(** What a read's result says of the fork's bytes. *)
Definition read_right (offset size : Z) (bytes : list Z) (r : read_result) : Prop :=
  let '(n, got, eof) := r in
  (0 <= n -> n = zlen got /\ got = sub offset size bytes)
  /\ (0 <= n -> eof = true -> offset + n >= zlen bytes).

Lemma read_locked_right f offset size c w :
  0 < quantum cf -> offsets_fit offset size -> 0 <= size <= INT_MAX -> holds c w ->
  let (r, w') := read_locked cf f offset size w in read_right offset size (c f) r /\ holds c w'.
Proof.
  intros Hq Hoff Hsz Hw. unfold read_locked. unfold bind at 1. pose proof (holds_lock c f offset size w Hw) as Hw1.
  destruct (ll_handle_locking cf f offset size w) as [l w1]. cbn [snd] in Hw1.
  destruct (negb (l =? 0)); [split; [|done]; cbn; unfold EBUSY; lia|]. unfold bind at 1.
  pose proof (read_loop_spec (Z.to_nat size) f offset size [] c w1 Hq Hoff ltac:(lia) Hw1) as Hr.
  rewrite zlen_nil in Hr. specialize (Hr ltac:(by unfold sub) ltac:(lia) ltac:(lia)).
  destruct (read_loop cf _ f offset size [] w1) as [r w2]. destruct Hr as [Hw2 Hr].
  pose proof (holds_unlock c f offset size w2 Hw2) as Hw3.
  destruct Hr as [(e & -> & He)|(eof & -> & Heof)].
  - unfold bind. destruct (ll_handle_unlocking cf f offset size w2) as [u w3]. split; [|done]. cbn. lia.
  - unfold bind at 1. destruct (ll_handle_unlocking cf f offset size w2) as [u w3]. cbn [snd] in Hw3.
    destruct (negb (u =? 0)).
    + unfold bind. pose proof (holds_unlock c f offset size w3 Hw3) as Hw4.
      destruct (ll_handle_unlocking cf f offset size w3) as [u' w4]. split; [cbn; unfold EIO; lia|done].
    + split; [|done]. cbn. split; [done|]. intros _ He. by apply Heof.
Qed.

Lemma ll_read_content size offset p w c :
  0 <= quantum cf -> 0 <= size -> 0 <= offset -> offset + size < 2 ^ 63 ->
  (afp2 cf = true -> offset <= AFP_MAX_AFP2_FILESIZE) -> holds c w ->
  let size' := if afp2 cf then Z.min (Z.min size INT_MAX) (AFP_MAX_AFP2_FILESIZE - offset + 1)
               else Z.min size INT_MAX in
  let (r, w') := ll_read cf size offset (Some p) w in
  read_right offset size' (c (fi_forkid (fork_at p (fst w)))) r /\ holds c w'.
Proof.
  intros Hq Hn Ho Hs H2 Hw. cbv zeta. unfold ll_read, bind at 1, get. cbn [fst snd].
  set (f := fi_forkid (fork_at p (fst w))).
  destruct (f =? 0); [split; [cbn; unfold EIO; lia|done]|].
  destruct (Z.eqb_spec size 0) as [->|Hz].
  { split; [|done]. rewrite (Z.min_l 0 INT_MAX) by done.
    replace (if afp2 cf then _ else 0) with 0; [by cbn|].
    destruct (afp2 cf); [specialize (H2 eq_refl); lia|done]. }
  rewrite (proj2 (Z.ltb_ge offset 0)) by lia. unfold bind at 1.
  assert (Hw1 : holds c (snd ((if afp_server_is_apple cf then flush_dirty_forks_for_file p else ret tt) w)))
    by (case_match; [by apply flush_dirty_forks_quiet; [apply _|]|done]).
  destruct ((if afp_server_is_apple cf then flush_dirty_forks_for_file p else ret tt) w) as [[] w1]. cbn [snd] in Hw1.
  destruct (Z.eqb_spec (quantum cf) 0); [split; [cbn; unfold EIO; lia|done]|].
  destruct (afp2 cf) eqn:Ea.
  - rewrite Z.gtb_ltb, (proj2 (Z.ltb_ge _ _)) by auto. specialize (H2 eq_refl).
    apply read_locked_right; [lia| |unfold AFP_MAX_AFP2_FILESIZE, INT_MAX in *; lia|done].
    split; [done|]. split; [unfold INT_MAX in *; lia|]. unfold AFP_MAX_AFP2_FILESIZE in *. lia.
  - apply read_locked_right; [lia| |unfold INT_MAX; lia|done].
    split; [done|]. split; [lia|]. congruence.
Qed.

End Transfers.

(** ** Termination *)

Section Ends.
Context {E : Type} {HE : Env E} (cf : config).

Lemma read_loop_ends fuel f off n got (w : volume * E) :
  n - zlen got <= Z.of_nat fuel -> fst (read_loop cf fuel f off n got w) <> None.
Proof.
  revert got w. induction fuel as [|fuel IH]; intros got w Hf; cbn [read_loop];
    (destruct (Z.ltb_spec (zlen got) n); [|done]); [lia|].
  unfold bind at 1. match goal with |- context [let (_, _) := ?m w in _] => destruct (m w) as [[rc d] w1] end.
  repeat (case_if; [done|]). case_if; [|done]. destruct (Z.eqb_spec (zlen d) 0); [done|].
  apply IH. rewrite zlen_app. pose proof (zlen_nonneg d). lia.
Qed.

Lemma write_loop_ends fuel p f off data sofar (w : volume * E) :
  zlen data - sofar <= Z.of_nat fuel -> fst (write_loop cf fuel p f off data sofar w) <> None.
Proof.
  revert sofar w. induction fuel as [|fuel IH]; intros sofar w Hf; cbn [write_loop];
    (destruct (Z.ltb_spec sofar (zlen data)); [|done]); [lia|]. cbv zeta.
  case_if; [done|]. set (chunk := sub sofar _ data). clearbody chunk. unfold bind at 1.
  match goal with |- context [let (_, _) := ?m w in _] => destruct (m w) as [[rc reply] w1] end.
  repeat (case_if; [done|]). bool_to_prop. unfold bind, update_fork, modify. apply IH. lia.
Qed.

End Ends.

(** ** Locks *)

(** A range: the request's form, the fork, the offset and the length. *)
Definition range : Type := bool * Z * Z * Z.

(** The ranges locked after the requests of a log: the server granted the lock
    and no unlock of it was sent since. *)
Definition lock_effect (held : gset range) (s : sent) : gset range :=
  match sent_cmd s in cmd A return A -> gset range with
  | ByteRangeLock ext flag f off n => fun rc =>
      if flag =? ByteRangeLock_Lock then (if rc =? kFPNoErr then {[(ext, f, off, n)]} ∪ held else held)
      else held ∖ {[(ext, f, off, n)]}
  | _ => fun _ => held
  end (sent_answer s).

Definition locked (l : list sent) : gset range := foldl lock_effect ∅ l.

Definition is_lock {A} (c : cmd A) : bool := match c with ByteRangeLock _ _ _ _ _ => true | _ => false end.

Section Locks.
Context {E : Type} {HE : Env E} (cf : config).

(** At most the ranges of [H] are locked. *)
Definition within (H : gset range) (w : volume * Logged E) : Prop := locked (snd (snd w)) ⊆ H.

Lemma within_call H A (c : cmd A) : is_lock c = false -> keeps (within H) (call c).
Proof.
  intros Hc w Hw. unfold call, handle, logged_env. destruct (handle c (fst (snd w))) as [a e].
  unfold within, locked in *. simpl. rewrite foldl_app. by destruct c.
Qed.

Lemma within_modify H f : keeps (within H) (modify f).
Proof. by intros w Hw. Qed.

#[local] Hint Resolve within_modify : keeps.
#[local] Hint Extern 1 (keeps (within _) (call _)) => (apply within_call; reflexivity) : keeps.

Lemma within_update H f p : keeps (within H) (update_fork f p).
Proof. unfold update_fork. keep. Qed.

#[local] Hint Resolve within_update : keeps.

Lemma within_flush H fp : keeps (within H) (flush_dirty_forks_for_file fp).
Proof.
  assert (Hc : forall ps r n, keeps (within H) (collect_dirty fp ps r n))
    by (induction ps; cbn [collect_dirty]; keep).
  assert (Hf : forall rs, keeps (within H) (flush_records rs)) by (induction rs; cbn [flush_records]; keep).
  unfold flush_dirty_forks_for_file. keep.
Qed.

Lemma within_read_loop H fuel f off n : forall got, keeps (within H) (read_loop cf fuel f off n got).
Proof. induction fuel; cbn [read_loop]; keep. Qed.

Lemma within_write_loop H fuel p f off data : forall done, keeps (within H) (write_loop cf fuel p f off data done).
Proof. induction fuel; cbn [write_loop]; keep. Qed.

(** The range a transfer locks. *)
Definition lock_range (f off n : Z) : range :=
  if afp2 cf then (false, f, u32 off, u32 n) else (true, f, off, n).

Lemma lock_request_within H f off n w : within H w ->
  let (rc, w') := lock_request cf ByteRangeLock_Lock f off n w in
  within (H ∪ {[lock_range f off n]}) w' /\ (rc <> kFPNoErr -> within H w').
Proof.
  intros Hw. unfold lock_request, lock_range, call, within, locked in *.
  destruct (afp2 cf); (unfold handle, logged_env; destruct (handle _ (fst (snd w))) as [rc e]);
    simpl; rewrite foldl_app; simpl; cbv [lock_effect sent_cmd sent_answer]; rewrite Z.eqb_refl;
    destruct (Z.eqb_spec rc kFPNoErr); (split; [set_solver|done]).
Qed.

Lemma unlock_within H f off n w : within (H ∪ {[lock_range f off n]}) w -> no_locking cf = false ->
  within H (snd (ll_handle_unlocking cf f off n w)).
Proof.
  intros Hw Hn. unfold ll_handle_unlocking. rewrite Hn. unfold lock_request, lock_range, call, within, locked, bind in *.
  destruct (afp2 cf); (unfold handle, logged_env; destruct (handle _ (fst (snd w))) as [rc e]);
    simpl; rewrite foldl_app; simpl; cbv [lock_effect sent_cmd sent_answer];
    change (ByteRangeLock_Unlock =? ByteRangeLock_Lock) with false; cbn iota; set_solver.
Qed.

Lemma lock_within H f off n w : within H w ->
  let (r, w') := ll_handle_locking cf f off n w in
  (no_locking cf = false -> within (H ∪ {[lock_range f off n]}) w')
  /\ (no_locking cf = true \/ r <> 0 -> within H w').
Proof.
  intros Hw. unfold ll_handle_locking. destruct (no_locking cf); [split; done|].
  enough (Hl : forall t w, within H w ->
    let (r, w') := lock_loop cf t f off n w in
    within (H ∪ {[lock_range f off n]}) w' /\ (r <> 0 -> within H w')).
  { specialize (Hl MAX_LOCKTRYCOUNT w Hw). destruct (lock_loop _ _ _ _ _ w) as [r w']. naive_solver. }
  clear w Hw. induction t as [|t IH]; intros w Hw; cbn [lock_loop].
  { split; [|done]. unfold within in *. set_solver. }
  unfold bind at 1. pose proof (lock_request_within H f off n w Hw) as Hl.
  destruct (lock_request cf ByteRangeLock_Lock f off n w) as [rc w1]. destruct Hl as [Hl Hno].
  destruct (Z.eqb_spec rc kFPNoErr) as [->|]; [split; done|].
  destruct ((rc =? kFPNoMoreLocks) || (rc =? kFPLockErr)); [|by split; [|auto]].
  unfold bind. pose proof (within_call H _ (Sleep 1) eq_refl w1 (Hno ltac:(done))) as Hs.
  destruct (call (Sleep 1) w1) as [[] w2]. by apply IH.
Qed.

(** A transfer between a lock and its unlock leaves no lock. *)
Lemma unlocked_after {A} H f off n w (m : M (Logged E) A) :
  keeps (within (H ∪ {[lock_range f off n]})) m -> keeps (within H) m ->
  (no_locking cf = false -> within (H ∪ {[lock_range f off n]}) w) -> (no_locking cf = true -> within H w) ->
  within H (snd (ll_handle_unlocking cf f off n (snd (m w)))).
Proof.
  intros Hm Hm' H1 H2. destruct (no_locking cf) eqn:En.
  - unfold ll_handle_unlocking. rewrite En. apply Hm', H2. done.
  - apply unlock_within; [|done]. apply Hm, H1. done.
Qed.

Lemma unlock_again H f off n w : within H w -> within H (snd (ll_handle_unlocking cf f off n w)).
Proof.
  intros Hw. destruct (no_locking cf) eqn:En; [unfold ll_handle_unlocking; by rewrite En|].
  apply unlock_within; [|done]. unfold within in *. set_solver.
Qed.

Lemma read_locked_within H f off n : keeps (within H) (read_locked cf f off n).
Proof.
  intros w Hw. unfold read_locked. unfold bind at 1. pose proof (lock_within H f off n w Hw) as Hl.
  destruct (ll_handle_locking cf f off n w) as [l w1]. destruct Hl as [Hl Hno].
  destruct (Z.eqb_spec l 0) as [->|]; cbn [negb]; [|by apply Hno; right].
  unfold bind at 1. pose proof (unlocked_after H f off n w1 (read_loop cf (Z.to_nat n) f off n [])
    (within_read_loop _ _ _ _ _ _) (within_read_loop _ _ _ _ _ _) Hl ltac:(auto)) as Hu.
  assert (Hend : fst (read_loop cf (Z.to_nat n) f off n [] w1) <> None).
  { apply read_loop_ends. rewrite zlen_nil. lia. }
  destruct (read_loop cf (Z.to_nat n) f off n [] w1) as [[[[got eof]|e]|] w2]; [| |done]; unfold bind; cbn [snd] in Hu;
    destruct (ll_handle_unlocking cf f off n w2) as [u w3]; [|done].
  destruct (negb (u =? 0)); [|done]. pose proof (unlock_again H f off n w3 Hu) as Hu'.
  by destruct (ll_handle_unlocking cf f off n w3) as [u' w4].
Qed.

Lemma ll_read_within H n off fp : keeps (within H) (ll_read cf n off fp).
Proof.
  unfold ll_read, afp2_fork_reaches. pose proof (within_flush H). pose proof (read_locked_within H). keep.
Qed.

Lemma ll_write_within H data off fp : keeps (within H) (ll_write cf data off fp).
Proof.
  unfold ll_write. destruct fp as [p|]; [|keep]. intros w Hw. unfold bind at 1, get. cbn [fst snd].
  set (f := fi_forkid _). set (n := zlen data). repeat (case_if; [done|]). unfold bind at 1.
  pose proof (lock_within H f off n w Hw) as Hl. destruct (ll_handle_locking cf f off n w) as [l w1].
  destruct Hl as [Hl Hno]. destruct (Z.eqb_spec l 0) as [->|]; cbn [negb]; [|by apply Hno; right].
  unfold bind at 1. pose proof (unlocked_after H f off n w1 (write_loop cf (length data) p f off data 0)
    (within_write_loop _ _ _ _ _ _ _) (within_write_loop _ _ _ _ _ _ _) Hl ltac:(auto)) as Hu.
  pose proof (write_loop_ends cf (length data) p f off data 0 w1 ltac:(unfold zlen; lia)) as Hend.
  destruct (write_loop cf (length data) p f off data 0 w1) as [[[err k]|] w2]; [|done]. cbn [snd] in Hu.
  destruct (err =? 0); unfold bind; destruct (ll_handle_unlocking cf f off n w2) as [u w3]; [|done].
  destruct (negb (u =? 0)); [|done]. pose proof (unlock_again H f off n w3 Hu) as Hu'.
  by destruct (ll_handle_unlocking cf f off n w3) as [u' w4].
Qed.

End Locks.

(** ** A server for the examples *)

(** Fork 5 holds bytes; a write stores three of them at most, a read before the
    end answers four at most. *)
Definition short_answer A (c : cmd A) (e : list Z) : A * list Z :=
  match c in cmd A return A * list Z with
  | WriteFork _ f off d =>
      if f =? 5 then let n := Z.min 3 (zlen d) in ((kFPNoErr, off + n), put e off (take (Z.to_nat n) d))
      else ((kFPParamErr, 0), e)
  | ReadFork _ f off n =>
      if f =? 5 then
        let d := sub off n e in
        (if off + zlen d >=? zlen e then (kFPEOFErr, d) else (kFPNoErr, take 4 d), e)
      else ((kFPParamErr, []), e)
  | ByteRangeLock _ _ _ _ _ => (kFPNoErr, e)
  | c => (no_answer c, e)
  end.

#[export] Instance short_server : Env (list Z) := short_answer.

Definition short_content (e : list Z) (f : Z) : list Z := if f =? 5 then e else [].

#[export] Instance short_fork_server : ForkServer (list Z) short_content.
Proof.
  split.
  - intros A c e f Hc. unfold handle, short_server. destruct c; simpl in *; try done. by destruct (forkid =? 5).
  - intros ext f off d e. unfold handle, short_server, short_answer, short_content. pose proof (zlen_nonneg d).
    destruct (Z.eqb_spec f 5) as [->|Hf].
    + cbv zeta. split; [|split; [done|]].
      * intros _. exists (Z.min 3 (zlen d)). split; [lia|done].
      * intros g Hg. by rewrite (proj2 (Z.eqb_neq g 5)).
    + done.
  - intros ext f off n e. unfold handle, short_server, short_answer, short_content.
    destruct (Z.eqb_spec f 5) as [->|Hf]; [|done]. cbv zeta. simpl fst.
    destruct (off + zlen (sub off n e) >=? zlen e) eqn:Ee.
    + split; [done|]. intros _. split; [done|]. bool_to_prop. lia.
    + split; [|done]. intros _. split; [exists (drop 4 (sub off n e)); by rewrite take_drop|].
      destruct (sub off n e); done.
Qed.

Definition open_volume : volume :=
  set_open_forks [1] (set_fork 1 (FileInfo 0 2 0 0 5 false true false false (str "a")) empty_volume).

(** ** Theorems *)

(** C8: what ll_write reports is what the server holds. For a server that
    stores what its write replies say it stored, ll_write ends with the fork
    holding its old bytes with the first [n] bytes of the data at the offset,
    [n] the count it reports; it reports success only with all of them written,
    and no other fork changes. *)
Theorem ll_write_spec {E} `{ForkServer E content} cf data offset p (w : volume * E) :
  0 <= quantum cf -> 0 <= offset -> offset + zlen data < 2 ^ 63 ->
  let f := fi_forkid (fork_at p (fst w)) in
  let '((r, n), w') := ll_write cf data offset (Some p) w in
  0 <= n <= zlen data /\ r <= 0 /\ (r = 0 -> n = zlen data)
  /\ content (snd w') f = put (content (snd w) f) offset (take (Z.to_nat n) data)
  /\ forall g, g <> f -> content (snd w') g = content (snd w) g.
Proof.
  intros Hq Ho Hs f. pose proof (ll_write_content cf content data offset p w (content (snd w)) Hq Ho Hs
    ltac:(by intros g)) as Hw. cbv zeta in Hw. fold f in Hw.
  destruct (ll_write cf data offset (Some p) w) as [[r n] w']. destruct Hw as (H1 & H2 & H3 & Hw).
  split; [done|]. split; [done|]. split; [done|]. split.
  - rewrite Hw. by rewrite Z.eqb_refl.
  - intros g Hg. rewrite Hw. by rewrite (proj2 (Z.eqb_neq g f)).
Qed.

Lemma ll_write_spec_witness :
  let '((r, n), w') := ll_write sample_config (str "hello") 2 (Some 1) (open_volume, str "abc") in
  (r, n, snd w') = (0, 5, str "abhello")
  /\ (r = 0 -> n = zlen (str "hello")).
Proof.
  pose proof (ll_write_spec (content := short_content) sample_config (str "hello") 2 1 (open_volume, str "abc")
    ltac:(done) ltac:(done) ltac:(done)) as Hw.
  cbv zeta in Hw.
  destruct (ll_write sample_config (str "hello") 2 (Some 1) (open_volume, str "abc")) as [[r n] w'] eqn:Ew.
  split; [|by destruct Hw as (_ & _ & ? & _)].
  vm_compute in Ew. by inversion Ew.
Defined.

(** What ll_read returns is what the server holds. For a server whose reads
    answer a prefix of what is asked, all of it when they say end of file, a
    read that does not fail returns the fork's bytes from the offset, as many
    as were asked for or as many as there are, and marks the end only there;
    the bytes the server keeps do not change. *)
Theorem ll_read_spec {E} `{ForkServer E content} cf size offset p (w : volume * E) :
  0 <= quantum cf -> 0 <= size <= INT_MAX -> 0 <= offset -> offset + size < 2 ^ 63 ->
  (afp2 cf = true -> offset + size <= AFP_MAX_AFP2_FILESIZE) ->
  let bytes := content (snd w) (fi_forkid (fork_at p (fst w))) in
  let '((n, got, eof), w') := ll_read cf size offset (Some p) w in
  (0 <= n -> n = zlen got /\ got = sub offset size bytes)
  /\ (0 <= n -> eof = true -> offset + n >= zlen bytes)
  /\ forall g, content (snd w') g = content (snd w) g.
Proof.
  intros Hq Hz Ho Hs H2 bytes. pose proof (ll_read_content cf content size offset p w (content (snd w)) Hq
    ltac:(lia) Ho Hs ltac:(intros Ha; specialize (H2 Ha); lia) ltac:(by intros g)) as Hr.
  assert (Hsz : (if afp2 cf then Z.min (Z.min size INT_MAX) (AFP_MAX_AFP2_FILESIZE - offset + 1)
                 else Z.min size INT_MAX) = size).
  { destruct (afp2 cf); [specialize (H2 eq_refl)|]; lia. }
  cbv zeta in Hr. rewrite Hsz in Hr. destruct (ll_read cf size offset (Some p) w) as [[[n got] eof] w'].
  destruct Hr as [[H3 H4] Hw]. done.
Qed.

Lemma ll_read_spec_witness :
  let '((n, got, eof), w') := ll_read sample_config 7 1 (Some 1) (open_volume, str "abcdefgh") in
  (n, got, eof) = (7, str "bcdefgh", true) /\ (0 <= n -> eof = true -> 1 + n >= 8).
Proof.
  pose proof (ll_read_spec (content := short_content) sample_config 7 1 1 (open_volume, str "abcdefgh")
    ltac:(done) ltac:(done) ltac:(done) ltac:(done) ltac:(done)) as Hr.
  cbv zeta in Hr.
  destruct (ll_read sample_config 7 1 (Some 1) (open_volume, str "abcdefgh")) as [[[n got] eof] w'] eqn:Er.
  destruct Hr as (_ & Hr & _). split; [|exact Hr]. vm_compute in Er. by inversion Er.
Defined.

(** A transfer leaves no lock behind. Whatever the server answers, however
    the read or write fails and however often the lock was tried, every range
    the server holds locked for the client afterwards was locked before. *)
Theorem transfers_unlock {E} `{Env E} cf (w : volume * Logged E) fp size data offset :
  locked (snd (snd (snd (ll_read cf size offset fp w)))) ⊆ locked (snd (snd w))
  /\ locked (snd (snd (snd (ll_write cf data offset fp w)))) ⊆ locked (snd (snd w)).
Proof. split; [apply ll_read_within|apply ll_write_within]; by unfold within. Qed.

(** Transfers end. However the server splits a read or a write, each request
    it answers without an error moves on by a byte at least, so one round for
    each byte suffices. *)
Theorem transfer_loops_end {E} `{Env E} cf fp forkid offset size data (w : volume * E) :
  fst (read_loop cf (Z.to_nat size) forkid offset size [] w) <> None
  /\ fst (write_loop cf (length data) fp forkid offset data 0 w) <> None.
Proof. split; [apply read_loop_ends|apply write_loop_ends]; unfold zlen; simpl; lia. Qed.
