(* ===== verification/OpenFork.v ===== *)
(** The open of a fork (ll_open of lib/lowlevel.c): what a failed open leaves
    behind, and what a successful one has done. *)
From stdpp Require Import gmap.
From S2P Require Import Prelude AfpProtocol Utils ReplyBlock Listing World DidCache Identify DsiQueue ForkList LowLevel.

(** ** What a log says *)

(** Forks opened less forks closed. *)
Definition open_effect (s : sent) : Z :=
  match sent_cmd s in cmd A return A -> Z with
  | OpenFork _ _ _ _ _ => fun a => if fst a =? kFPNoErr then 1 else 0
  | CloseFork _ => fun _ => -1
  | _ => fun _ => 0
  end (sent_answer s).

(** A file made, or asked to be deleted. *)
Definition file_effect (d : Z) (name : list Z) (s : sent) : Z :=
  match sent_cmd s in cmd A return A -> Z with
  | CreateFile _ d' n => fun rc => if (d' =? d) && list_eqb n name && (rc =? kFPNoErr) then 1 else 0
  | Delete d' n => fun _ => if (d' =? d) && list_eqb n name then -1 else 0
  | _ => fun _ => 0
  end (sent_answer s).

Definition balance (f : sent -> Z) (l : list sent) : Z := foldr (fun s n => f s + n) 0 l.

Lemma balance_sent f l s : balance f (l ++ [s]) = balance f l + f s.
Proof. induction l as [|s' l IH]; simpl; [lia|]. rewrite IH. lia. Qed.

Lemma file_effect_delete d name rc : file_effect d name (Sent Z (Delete d name) rc) = -1.
Proof. unfold file_effect. simpl. by rewrite Z.eqb_refl, list_eqb_refl. Qed.

Lemma file_effect_create d name flag rc :
  file_effect d name (Sent Z (CreateFile flag d name) rc) = if rc =? kFPNoErr then 1 else 0.
Proof. unfold file_effect. simpl. by rewrite Z.eqb_refl, list_eqb_refl. Qed.

Lemma create_errno_0 rc : create_errno rc = 0 <-> rc = kFPNoErr.
Proof.
  split; [|by intros ->]. unfold create_errno, ll_answer_errno.
  repeat case_if; intros H'; try (by vm_compute in H'). by apply Z.eqb_eq.
Qed.

Lemma ll_openfork_errno_0 rc : ll_openfork_errno rc = 0 <-> rc = kFPNoErr.
Proof.
  split; [|by intros ->]. unfold ll_openfork_errno.
  repeat case_if; intros H'; try (by vm_compute in H'). by apply Z.eqb_eq.
Qed.

Lemma ll_openfork_errno_nonneg rc : 0 <= ll_openfork_errno rc.
Proof. unfold ll_openfork_errno. by repeat case_if. Qed.

Lemma create_errno_neg rc : create_errno rc <= 0.
Proof. unfold create_errno, ll_answer_errno. by repeat case_if. Qed.

Section Open.
Context {E : Type} {HE : Env E} (cf : config).

(** Balances of a world's log. *)
Definition opened_in (w : volume * Logged E) : Z := balance open_effect (snd (snd w)).
Definition made_in (d : Z) (name : list Z) (w : volume * Logged E) : Z := balance (file_effect d name) (snd (snd w)).

(** What an open that started in [w0] promises. *)
Definition open_promise (fp : Z) (w0 : volume * Logged E) (r : Z) (w : volume * Logged E) : Prop :=
  let f := fork_at fp (fst w0) in
  r <= 0
  /\ (r = 0 -> open_forks (fst w) = fp :: open_forks (fst w0) /\ opened_in w = opened_in w0 + 1)
  /\ (r <> 0 -> open_forks (fst w) = open_forks (fst w0) /\ opened_in w = opened_in w0)
  /\ (r <> 0 -> r <> - ETIMEDOUT -> made_in (fi_did f) (fi_basename f) w = made_in (fi_did f) (fi_basename f) w0).

(** The world between: nothing open yet, [n] files made. *)
Definition opening (fp : Z) (w0 : volume * Logged E) (n : Z) (w : volume * Logged E) : Prop :=
  let f := fork_at fp (fst w0) in
  fi_did (fork_at fp (fst w)) = fi_did f /\ fi_basename (fork_at fp (fst w)) = fi_basename f
  /\ open_forks (fst w) = open_forks (fst w0) /\ opened_in w = opened_in w0
  /\ made_in (fi_did f) (fi_basename f) w = made_in (fi_did f) (fi_basename f) w0 + n.

(** A record's update that keeps where its file is. *)
Lemma opening_update fp w0 n g w :
  (forall f, fi_did (g f) = fi_did f /\ fi_basename (g f) = fi_basename f) ->
  opening fp w0 n w -> opening fp w0 n (snd (update_fork g fp w)).
Proof.
  intros Hg (H1 & H2 & H3 & H4 & H5). unfold update_fork, modify, opening, fork_at in *. cbn [fst snd set_forks forks].
  rewrite lookup_alter_eq. destruct (forks (fst w) !! fp) as [f|]; simpl in *; [|done].
  destruct (Hg f) as [-> ->]. done.
Qed.

Lemma opening_call fp w0 n A (c : cmd A) w :
  match c with OpenFork _ _ _ _ _ | CloseFork _ | CreateFile _ _ _ | Delete _ _ => false | _ => true end = true ->
  opening fp w0 n w -> opening fp w0 n (snd (call c w)).
Proof.
  intros Hc (H1 & H2 & H3 & H4 & H5). unfold call, handle, logged_env.
  destruct (handle c (fst (snd w))) as [a e]. unfold opening, opened_in, made_in in *. cbn [fst snd].
  rewrite !balance_sent, H4, H5. destruct c; try done; unfold open_effect, file_effect; simpl; repeat split; try done; lia.
Qed.

Lemma open_error_promise fp w0 n (created : bool) err w :
  0 < err -> opening fp w0 n w -> n = (if created then 1 else 0) \/ err = ETIMEDOUT /\ created = false ->
  let (r, w') := open_error fp created err w in open_promise fp w0 r w'.
Proof.
  intros He (H1 & H2 & H3 & H4 & H5) Hn. unfold open_error. unfold bind at 1, get. cbn [fst snd].
  rewrite H1, H2. destruct created.
  - unfold bind, call, handle, logged_env, ret. destruct (handle _ (fst (snd w))) as [rc e].
    unfold open_promise, opened_in, made_in in *. cbn [fst snd]. rewrite !balance_sent, H4, H5, file_effect_delete.
    change (open_effect (Sent Z (Delete _ _) rc)) with 0. repeat split; try done; lia.
  - unfold bind, ret, open_promise. repeat split; try done; lia.
Qed.

Lemma fill_opened_place r f : fi_did (fill_opened r f) = fi_did f /\ fi_basename (fill_opened r f) = fi_basename f.
Proof. unfold fill_opened. by destruct (or_forkid r), (or_cnid r), (or_size r). Qed.

(** The fork is open and on the list. *)
Definition is_open (fp : Z) (w0 : volume * Logged E) (n : Z) (w : volume * Logged E) : Prop :=
  let f := fork_at fp (fst w0) in
  fi_did (fork_at fp (fst w)) = fi_did f /\ fi_basename (fork_at fp (fst w)) = fi_basename f
  /\ open_forks (fst w) = fp :: open_forks (fst w0) /\ opened_in w = opened_in w0 + 1
  /\ made_in (fi_did f) (fi_basename f) w = made_in (fi_did f) (fi_basename f) w0 + n.

Lemma is_open_promise fp w0 n w : is_open fp w0 n w -> open_promise fp w0 0 w.
Proof. intros (_ & _ & H3 & H4 & _). repeat split; done. Qed.

Lemma truncate_promise fp w0 resource w :
  is_open fp w0 0 w ->
  let (r, w') := (let! f := get (fork_at fp) in
    let! err := ll_setfork_size cf (fi_forkid f) resource 0 in
    if negb (err =? 0) then
      call (CloseFork (fi_forkid f)) ;;! remove_opened_fork fp ;;! open_error fp false err
    else update_fork (fun f => set_fi_dirty true (set_fi_size 0 f)) fp ;;! ret 0) w in
  open_promise fp w0 r w'.
Proof.
  intros Hw. unfold bind at 1, get. cbn [fst snd]. set (id := fi_forkid _). unfold bind at 1.
  unfold ll_setfork_size. rewrite andb_false_r. unfold bind at 1. next_call rc e. cbn [ret].
  destruct Hw as (H1 & H2 & H3 & H4 & H5). destruct (Z.eqb_spec (setfork_errno rc) 0) as [Hz|Hz]; cbn [negb].
  - unfold bind, update_fork, modify, ret. eapply (is_open_promise _ _ 0).
    unfold is_open, opened_in, made_in, fork_at, after in *. cbn [fst snd set_forks forks open_forks].
    rewrite lookup_alter_eq, !balance_sent, H4, H5.
    change (open_effect (Sent Z (SetForkParms _ _ _) rc)) with 0.
    change (file_effect _ _ (Sent Z (SetForkParms _ _ _) rc)) with 0.
    destruct (forks (fst w) !! fp) as [f|]; simpl in *; repeat split; try done; lia.
  - unfold bind at 1. next_call rc' e'.
    unfold bind at 1. unfold remove_opened_fork, modify. cbn [fst snd].
    apply (open_error_promise fp w0 0); [unfold setfork_errno in *; repeat case_if; done| |by left].
    unfold opening, opened_in, made_in, fork_at, after in *. cbn [fst snd set_open_forks open_forks forks].
    rewrite H3. cbn [unlink]. rewrite Z.eqb_refl, !balance_sent, H4, H5.
    change (open_effect (Sent Z (SetForkParms _ _ _) rc)) with 0.
    change (file_effect _ _ (Sent Z (SetForkParms _ _ _) rc)) with 0.
    change (open_effect (Sent Z (CloseFork _) rc')) with (-1).
    change (file_effect _ _ (Sent Z (CloseFork _) rc')) with 0.
    repeat split; try done; lia.
Qed.

Lemma opened_request fp w0 n w t d m b name rc reply e :
  opening fp w0 n w ->
  let w1 := after w e (OpenFork t d m b name) (rc, reply) in
  let w2 := snd (update_fork (fill_opened reply) fp w1) in
  (rc = kFPNoErr -> is_open fp w0 n (snd (add_opened_fork fp w2))) /\ (rc <> kFPNoErr -> opening fp w0 n w2).
Proof.
  intros (H1 & H2 & H3 & H4 & H5). cbv zeta.
  unfold is_open, opening, opened_in, made_in, fork_at, add_opened_fork, update_fork, modify, after in *.
  cbn [fst snd set_forks forks set_open_forks open_forks]. rewrite lookup_alter_eq, !balance_sent, H3, H4, H5.
  change (file_effect _ _ (Sent _ (OpenFork t d m b name) (rc, reply))) with 0.
  change (open_effect (Sent _ (OpenFork t d m b name) (rc, reply))) with (if rc =? kFPNoErr then 1 else 0).
  destruct (forks (fst w) !! fp) as [f|]; cbn [fmap option_fmap option_map default from_option id] in *;
    [destruct (fill_opened_place reply f) as [-> ->]|];
    (destruct (Z.eqb_spec rc kFPNoErr); split; intros; [|done|done|]; repeat split; try done; lia).
Qed.

Lemma open_fork_promise flags aflags fp (created : bool) w0 w :
  opening fp w0 (if created then 1 else 0) w ->
  let (r, w') := open_fork cf flags aflags fp created w in open_promise fp w0 r w'.
Proof.
  intros Hw. unfold open_fork. unfold bind at 1, get. cbn [fst snd]. unfold bind at 1.
  pose proof (opening_update fp w0 _ (set_fi_modes (has flags O_SYNC) (has aflags AFP_OPENFORK_ALLOWWRITE) false) w
    ltac:(done) Hw) as Hw1.
  destruct (update_fork _ fp w) as [[] w1]. cbn [snd] in Hw1. cbv zeta. unfold bind at 1. next_call a e.
  destruct a as [rc reply].
  match goal with |- context [after _ _ (OpenFork ?t ?d ?m ?b ?name) _] =>
    destruct (opened_request fp w0 _ w1 t d m b name rc reply e Hw1) as [Hok Hno] end.
  unfold bind at 1. destruct (update_fork (fill_opened reply) fp _) as [[] w2]. cbn [snd] in Hok, Hno.
  destruct (Z.eqb_spec rc kFPNoErr) as [->|Hrc].
  - specialize (Hok eq_refl). unfold bind at 1. destruct (add_opened_fork fp w2) as [[] w3]. cbn [snd] in Hok.
    change (ll_openfork_errno kFPNoErr) with 0.
    change (0 =? ETIMEDOUT) with false. change (negb (0 =? 0)) with false. cbn iota.
    destruct (has flags O_TRUNC && negb created) eqn:Et; [|by eapply is_open_promise].
    destruct created; [by rewrite andb_false_r in Et|]. by apply truncate_promise.
  - specialize (Hno Hrc). unfold bind at 1. cbn [ret].
    assert (Hz : ll_openfork_errno rc <> 0) by (by rewrite ll_openfork_errno_0).
    rewrite (proj2 (Z.eqb_neq _ 0) Hz). cbn [negb]. pose proof (ll_openfork_errno_nonneg rc).
    eapply open_error_promise; [lia|exact Hno|]. destruct (Z.eqb_spec (ll_openfork_errno rc) ETIMEDOUT); auto.
Qed.

Lemma ll_open_promise flags fp w :
  let (r, w') := ll_open cf flags fp w in open_promise fp w r w'.
Proof.
  assert (H0 : opening fp w 0 w) by (repeat split; lia).
  unfold ll_open. unfold bind at 1, get. cbn [fst snd]. set (f := fork_at fp (fst w)).
  destruct (has (open_access flags) AFP_OPENFORK_ALLOWWRITE && volume_is_readonly cf).
  { by apply (open_error_promise fp w 0); [|done|left]. }
  set (create := if has flags O_CREAT then ll_createfile (fi_did f) (fi_basename f) else ret (- EEXIST)).
  unfold bind at 1.
  assert (Hc : let (rc, w1) := create w in
            rc <= 0 /\ (has flags O_CREAT = false -> rc <> 0) /\ opening fp w (if rc =? 0 then 1 else 0) w1).
  { unfold create. destruct (has flags O_CREAT); [|done]. unfold ll_createfile, bind. next_call rc e. cbn [ret].
    split; [apply create_errno_neg|]. split; [done|]. destruct H0 as (H1 & H2 & H3 & H4 & H5).
    unfold opening, opened_in, made_in, after in *. cbn [fst snd]. fold f in H5 |- *.
    rewrite !balance_sent, file_effect_create.
    change (open_effect (Sent Z (CreateFile _ _ _) rc)) with 0.
    pose proof (create_errno_0 rc). destruct (Z.eqb_spec (create_errno rc) 0), (Z.eqb_spec rc kFPNoErr);
      try tauto; repeat split; try done; lia. }
  destruct (create w) as [rc w1]. destruct Hc as (Hneg & Hno & Hw1). cbv zeta.
  destruct (has flags O_CREAT && negb (rc =? 0) && (negb (rc =? - EEXIST) || has flags O_EXCL)) eqn:Ef.
  { apply andb_prop in Ef as [[_ Hz]%andb_prop _]. apply negb_true_iff in Hz. rewrite Hz in Hw1.
    eapply open_error_promise; [|exact Hw1|by left]. bool_to_prop. lia. }
  assert (Ecr : opening fp w (if has flags O_CREAT && (rc =? 0) then 1 else 0) w1).
  { destruct (has flags O_CREAT); [done|]. rewrite (proj2 (Z.eqb_neq _ _) (Hno eq_refl)) in Hw1. done. }
  destruct (afp2 cf); [|by apply open_fork_promise]. unfold bind at 1.
  match goal with |- context [call ?c w1] => pose proof (opening_call fp w _ _ c w1 eq_refl Ecr) as Hw2;
    destruct (call c w1) as [[rc' d] w2] end. cbn [snd] in Hw2.
  set (err := if (ll_answer_errno rc' =? 0) && negb (isdir d =? 0) then EISDIR else ll_answer_errno rc').
  destruct (Z.eqb_spec err 0) as [He|He]; cbn [negb].
  - unfold bind at 1.
    pose proof (opening_update fp w _ (fun f => set_fi_cnid (cnid d) (set_fi_size
      (if negb (fi_resource (fork_at fp (fst w)) =? 0) then d_resourcesize d else d_size d) f)) w2 ltac:(done) Hw2) as Hw3.
    unfold f. destruct (update_fork _ fp w2) as [[] w3]. by apply open_fork_promise.
  - eapply open_error_promise; [|exact Hw2|by left]. revert He. unfold err, ll_answer_errno. by repeat case_if.
Qed.

(** *** The record of an open fork *)

(** The record an open leaves: filled from the reply, with the modes of the
    flags, and cut if the open truncates. *)
Definition opened_record (flags : Z) (created : bool) (reply : open_reply) (f : afp_file_info) : afp_file_info :=
  let g := fill_opened reply (set_fi_modes (has flags O_SYNC) (has (open_access flags) AFP_OPENFORK_ALLOWWRITE) false f) in
  if has flags O_TRUNC && negb created then set_fi_dirty true (set_fi_size 0 g) else g.

Definition open_bitmap (f : afp_file_info) : Z :=
  if (fi_resource f =? 0) && afp_server_reports_fork_length cf
  then Z.lor kFPExtDataForkLenBit (if afp_server_copies_files cf then kFPNodeIDBit else 0) else 0.

(** The request that opened the fork of [f], and the one that AFP 2 reads its
    id and length with. *)
Definition open_sent (flags : Z) (f : afp_file_info) (reply : open_reply) : sent :=
  Sent _ (OpenFork (if negb (fi_resource f =? 0) then 1 else 0) (fi_did f) (open_access flags) (open_bitmap f) (fi_basename f)) (kFPNoErr, reply).

Definition parms_sent (f : afp_file_info) (e : afp_dirent) : sent :=
  Sent _ (GetFileDirParms (fi_did f) (Z.lor kFPNodeIDBit (fork_length_bit cf (negb (fi_resource f =? 0)))) 0 (fi_basename f)) (kFPNoErr, e).

Definition measured (f : afp_file_info) (e : afp_dirent) : afp_file_info :=
  set_fi_cnid (cnid e) (set_fi_size (if negb (fi_resource f =? 0) then d_resourcesize e else d_size e) f).

Definition placed_as (f g : afp_file_info) : Prop :=
  fi_did g = fi_did f /\ fi_basename g = fi_basename f /\ fi_resource g = fi_resource f.

Definition filled (fp flags : Z) (created : bool) (f g : afp_file_info) (w w' : volume * Logged E) : Prop :=
  exists reply news, snd (snd w') = snd (snd w) ++ news /\ open_sent flags f reply ∈ news
    /\ forks (fst w') = <[fp := opened_record flags created reply g]> (forks (fst w)).

Lemma open_error_fails fp created err w (Q : volume * Logged E -> Prop) :
  err <> 0 -> let (r, w') := open_error fp created err w in r = 0 -> Q w'.
Proof.
  intros He. unfold open_error, bind, get, ret. cbn [fst snd]. destruct created; [destruct (call _ w) as [rc w1]|]; lia.
Qed.

Lemma forks_fork_at v fp f : forks v !! fp = Some f -> fork_at fp v = f.
Proof. intros Hf. unfold fork_at. by rewrite Hf. Qed.

Lemma alter_known (m : gmap Z afp_file_info) k f x : m !! k = Some x -> alter f k m = <[k := f x]> m.
Proof.
  intros Hx. apply map_eq. intros i. destruct (decide (i = k)) as [->|Hi].
  - by rewrite lookup_alter_eq, lookup_insert_eq, Hx.
  - by rewrite lookup_alter_ne, lookup_insert_ne.
Qed.

(** The answer to the open is taken into the record. *)
Lemma open_fork_record flags fp created f g w :
  forks (fst w) !! fp = Some g -> placed_as f g ->
  let (r, w') := open_fork cf flags (open_access flags) fp created w in r = 0 -> filled fp flags created f g w w'.
Proof.
  intros Hg (P1 & P2 & P3). unfold open_fork. unfold bind at 1, get. cbn [fst snd]. rewrite (forks_fork_at _ _ _ Hg), P1, P2, P3, negb_involutive.
  unfold bind at 1, update_fork at 1, modify. cbv zeta. unfold bind at 1. next_call a e. destruct a as [rc reply].
  unfold bind at 1, update_fork at 1, modify, after. cbn [fst snd set_forks forks].
  rewrite (alter_known _ _ _ _ Hg), (alter_known _ _ _ _ (lookup_insert_eq _ _ _)), insert_insert_eq.
  set (g1 := fill_opened reply _). destruct (Z.eqb_spec rc kFPNoErr) as [->|Hrc].
  2: { unfold bind at 1, ret at 1. assert (Hz : ll_openfork_errno rc <> 0) by (by rewrite ll_openfork_errno_0).
       rewrite (proj2 (Z.eqb_neq _ 0) Hz). cbn [negb].
       by apply (open_error_fails fp _ _ _ (filled fp flags created f g w)). }
  unfold bind at 1, add_opened_fork, modify. cbn [fst snd]. change (ll_openfork_errno kFPNoErr) with 0.
  change (0 =? ETIMEDOUT) with false. change (negb (0 =? 0)) with false. cbv iota.
  assert (Hin : forall rest, open_sent flags f reply ∈ [open_sent flags f reply] ++ rest) by (intros; by left).
  destruct (has flags O_TRUNC && negb created) eqn:Et.
  2: { intros _. exists reply, [open_sent flags f reply]. cbn [fst snd set_open_forks forks set_forks]. unfold opened_record. rewrite Et.
       split; [done|]. split; [by left|done]. }
  unfold bind at 1. cbn [fst snd]. unfold fork_at. cbn [set_open_forks forks set_forks]. rewrite lookup_insert_eq. cbn [default from_option id].
  unfold bind at 1. unfold ll_setfork_size. rewrite andb_false_r. unfold bind at 1. next_call rc e'. unfold ret at 1.
  destruct (Z.eqb_spec (setfork_errno rc) 0) as [Hz|Hz]; cbn [negb].
  2: { unfold bind at 1. next_call rc' e2. unfold bind at 1, remove_opened_fork, modify.
       by apply (open_error_fails fp _ _ _ (filled fp flags created f g w)). }
  unfold bind, update_fork, modify, ret, after. cbn [fst snd set_open_forks forks set_forks]. intros _.
  eexists reply, _. split; [cbn [fst snd]; by rewrite <- app_assoc|]. split; [apply Hin|]. cbn [fst snd forks set_forks set_open_forks].
  rewrite (alter_known _ _ _ _ (lookup_insert_eq _ _ _)), insert_insert_eq. unfold opened_record. by rewrite Et.
Qed.

(** What an open that returns 0 made of the record [f] at [fp]. *)
Definition open_fills (fp flags : Z) (f : afp_file_info) (w w' : volume * Logged E) : Prop :=
  exists created g, (created = true -> has flags O_CREAT = true) /\ filled fp flags created f g w w'
    /\ if afp2 cf then exists e, parms_sent f e ∈ drop (length (snd (snd w))) (snd (snd w')) /\ g = measured f e else g = f.

Lemma filled_trans fp flags created f g (w w1 w' : volume * Logged E) log1 :
  (forall x, <[fp := x]> (forks (fst w1)) = <[fp := x]> (forks (fst w))) -> snd (snd w1) = snd (snd w) ++ log1 ->
  filled fp flags created f g w1 w' -> filled fp flags created f g w w'.
Proof.
  intros Hv Hl (reply & news & Hn & Hin & Hf). exists reply, (log1 ++ news). rewrite Hn, Hl, app_assoc, Hf, Hv.
  split; [done|]. split; [|done]. apply elem_of_app. by right.
Qed.

Lemma ll_open_record flags fp f (w : volume * Logged E) :
  forks (fst w) !! fp = Some f ->
  let (r, w') := ll_open cf flags fp w in r = 0 -> open_fills fp flags f w w'.
Proof.
  intros Hf. unfold ll_open. unfold bind at 1, get. cbn [fst snd]. rewrite (forks_fork_at _ _ _ Hf).
  destruct (has (open_access flags) AFP_OPENFORK_ALLOWWRITE && volume_is_readonly cf);
    [by apply (open_error_fails fp _ _ _ (open_fills fp flags f w))|].
  set (create := if has flags O_CREAT then ll_createfile (fi_did f) (fi_basename f) else ret (- EEXIST)). unfold bind at 1.
  assert (Hc : let (rc, w1) := create w in rc <= 0 /\ exists log1, fst w1 = fst w /\ snd (snd w1) = snd (snd w) ++ log1).
  { unfold create. destruct (has flags O_CREAT); [|split; [done|]; exists []; by rewrite app_nil_r].
    unfold ll_createfile, bind. next_call rc e. cbn [ret]. split; [apply create_errno_neg|]. by eexists. }
  destruct (create w) as [rc w1]. destruct Hc as (Hneg & log1 & Hv1 & Hl1). cbv zeta.
  destruct (has flags O_CREAT && negb (rc =? 0) && (negb (rc =? - EEXIST) || has flags O_EXCL)) eqn:Ef.
  { apply andb_prop in Ef as [[_ Hz]%andb_prop _]. apply negb_true_iff in Hz.
    apply (open_error_fails fp _ _ _ (open_fills fp flags f w)). bool_to_prop. lia. }
  set (created := has flags O_CREAT && (rc =? 0)).
  assert (Hcr : created = true -> has flags O_CREAT = true) by (unfold created; by intros [? _]%andb_prop).
  destruct (afp2 cf) eqn:E2.
  2: { pose proof (open_fork_record flags fp created f f w1 ltac:(by rewrite Hv1) ltac:(done)) as Ho.
       destruct (open_fork _ _ _ _ _ w1) as [r w']. intros Hr. exists created, f. rewrite E2. split_and!; [done| |done].
       eapply filled_trans; [intros; by rewrite Hv1|exact Hl1|by apply Ho]. }
  unfold bind at 1. next_call a e. destruct a as [rc' d].
  set (err := if (ll_answer_errno rc' =? 0) && negb (isdir d =? 0) then EISDIR else ll_answer_errno rc').
  destruct (Z.eqb_spec err 0) as [He|He]; cbn [negb]; [|by apply (open_error_fails fp _ _ _ (open_fills fp flags f w))].
  assert (Hrc : rc' = kFPNoErr).
  { destruct (Z.eq_dec rc' kFPNoErr) as [|Hne]; [done|]. assert (Hz : ll_answer_errno rc' <> 0).
    { unfold ll_answer_errno. rewrite (proj2 (Z.eqb_neq _ _) Hne). by repeat case_if. }
    unfold err in He. rewrite (proj2 (Z.eqb_neq _ _) Hz) in He. done. }
  unfold bind at 1, update_fork, modify, after. cbn [fst snd]. rewrite Hv1, Hl1, (alter_known _ _ _ _ Hf).
  set (w2 := (set_forks _ _, _) : volume * Logged E).
  pose proof (open_fork_record flags fp created f (measured f d) w2 ltac:(apply lookup_insert_eq) ltac:(done)) as Ho.
  destruct (open_fork _ _ _ _ _ w2) as [r w']. intros Hr. specialize (Ho Hr). exists created, (measured f d). rewrite E2. split; [done|]. split.
  - eapply filled_trans; [| |exact Ho]; [intros x; apply insert_insert_eq|]. unfold w2. cbn [fst snd]. by rewrite <- app_assoc.
  - exists d. split; [|done]. destruct Ho as (reply & news & Hn & _). rewrite Hn. unfold w2. cbn [fst snd].
    rewrite <- !app_assoc, drop_app_length, Hrc. apply elem_of_app. right. by left.
Qed.

End Open.


#[local] Instance opens_five : Env unit := fun A c e =>
  (match c in cmd A return A with
   | OpenFork _ _ _ _ _ => (kFPNoErr, OpenReply (Some 7) (Some 40) (Some 5))
   | c => no_answer c
   end, e).

Definition one_fork : volume := set_fork 1 (set_fi_forkid 3 null_fork) empty_volume.

Definition one_fork_world : volume * Logged unit := (one_fork, (tt, [])).

