(* ===== verification/Dsi.v ===== *)
(** The DSI receiver: afpc_dsi_recv and what it calls (lib/dsi.c), with
    loop_disconnect and the receive of process_server_fds (lib/loop.c).

    A call of the receiver is a program over the socket: it asks for at most
    so many bytes and goes on with what the read answers ([io]). The server is
    split in two records: [rx_state] holds what the receiver alone keeps of the
    stream, [session] what the rest of the client sees. *)
From stdpp Require Import gmap.
From S2P Require Import Prelude AfpProtocol DsiQueue.

(** ** Data *)

Definition sizeof_dsi_header : Z := 16.

Record rx_state := RxState {
  incoming_buffer : list Z;
  data_read : Z;
  bufsize : Z;
  discard_remaining : Z;
  stream_read : Z;
  rx_generation : Z;
  runt_packets : Z }.

Record session := Session {
  fd : Z;
  connection_generation : Z;
  connect_state : Z;
  need_resume : bool;
  dtrefnums : list Z;                  (* the volumes' desktop references *)
  quantum : Z;
  replay_cache_size : Z;
  supports_replay_cache : bool;
  rx_bytes : Z;
  requests : queue }.

Record server := Server { rx : rx_state; ses : session }.


Definition set_requests (q : queue) (s : session) : session :=
  Session (fd s) (connection_generation s) (connect_state s) (need_resume s) (dtrefnums s)
    (quantum s) (replay_cache_size s) (supports_replay_cache s) (rx_bytes s) q.

Definition count_rx (n : Z) (s : session) : session :=
  Session (fd s) (connection_generation s) (connect_state s) (need_resume s) (dtrefnums s)
    (quantum s) (replay_cache_size s) (supports_replay_cache s) (u64 (rx_bytes s + n)) (requests s).

(** Bytes read into the incoming buffer at an offset, and the count of those
    the frame in progress has there. *)
Definition received (at_ : Z) (bs : list Z) (read : Z) (r : rx_state) : rx_state :=
  RxState (store (incoming_buffer r) at_ bs) read (bufsize r) (discard_remaining r)
    (stream_read r) (rx_generation r) (runt_packets r).
Definition progress (read discard stream : Z) (r : rx_state) : rx_state :=
  RxState (incoming_buffer r) read (bufsize r) discard stream (rx_generation r) (runt_packets r).
Definition count_runt (r : rx_state) : rx_state :=
  RxState (incoming_buffer r) (data_read r) (bufsize r) (discard_remaining r) (stream_read r)
    (rx_generation r) (u64 (runt_packets r + 1)).

(** ** Reads *)

(** What afpc_dsi_read answers: bytes, the end of the stream (0), an error
    (-1), or DSI_READ_REPLACED. *)
Inductive read_result : Type :=
| ReadBytes (bs : list Z)
| ReadEof
| ReadError
| ReadReplaced.

Inductive io (A : Type) : Type :=
| Done (a : A)
| Read (n : Z) (k : read_result -> io A).
Arguments Done {A} a.
Arguments Read {A} n k.

(** A read of no bytes answers 0. *)
Definition afpc_dsi_read {A} (n : Z) (k : read_result -> io A) : io A :=
  if n =? 0 then k ReadEof else Read n k.

(** ** What a call does *)

Inductive event : Type :=
| Ev_reply (request : Z) (packet : list Z)      (* the parser of a request's reply runs *)
| Ev_getstatus (packet : list Z)
| Ev_tickle
| Ev_attention (generation : Z) (packet : list Z)
| Ev_disconnect.

Record outcome := Outcome {
  ret : Z;
  state : server;
  found : option Z;
  events : list event }.

(** ** Header fields *)

Definition hdr_flags (b : list Z) : Z := byte_at b 0.
Definition hdr_command (b : list Z) : Z := byte_at b 1.
Definition hdr_requestid (b : list Z) : Z := be_at b 2 2.
Definition hdr_error_code (b : list Z) : Z := i32 (be_at b 4 4).
Definition hdr_length (b : list Z) : Z := be_at b 8 4.

Definition afpc_dsi_command_is_defined (command : Z) : bool :=
  (command =? DSI_DSICloseSession) || (command =? DSI_DSICommand)
  || (command =? DSI_DSIGetStatus) || (command =? DSI_DSIOpenSession)
  || (command =? DSI_DSITickle) || (command =? DSI_DSIWrite)
  || (command =? DSI_DSIAttention).

(** ** Session options (afpc_dsi_opensession_reply) *)

Definition DSI_DEFAULT_QUANTUM : Z := 1024 * 1024.
Definition DSI_MAX_QUANTUM : Z := 256 * 1024 * 1024.

(** The loop over the options in the [fuel] bytes at most that follow
    [offset]: the quantum, and the replay cache's size when one is offered. *)
Fixpoint options_loop (fuel : nat) (b : list Z) (data_read offset quantum : Z)
    (cache : option Z) : Z * option Z :=
  match fuel with
  | O => (quantum, cache)
  | S fuel =>
      if offset + 2 <=? data_read then
        let option_type := byte_at b offset in
        let option_len := byte_at b (offset + 1) in
        if offset + 2 + option_len >? data_read then (quantum, cache)
        else
          let value := be_at b (offset + 2) 4 in
          let '(quantum', cache') :=
            if (option_type =? 0) && (option_len =? 4) then (value, cache)
            else if (option_type =? kServerReplayCacheSize) && (option_len =? 4)
            then (quantum, Some value) else (quantum, cache) in
          options_loop fuel b data_read (offset + 2 + option_len) quantum' cache'
      else (quantum, cache)
  end.

Definition afpc_dsi_opensession_reply (b : list Z) (data_read : Z) (s : session) : session :=
  let '(q, cache) := options_loop (Z.to_nat data_read) b data_read sizeof_dsi_header 0 None in
  Session (fd s) (connection_generation s) (connect_state s) (need_resume s) (dtrefnums s)
    (if (q =? 0) || (q >? DSI_MAX_QUANTUM) then DSI_DEFAULT_QUANTUM else q)
    (default (replay_cache_size s) cache)
    (match cache with Some _ => true | None => supports_replay_cache s end)
    (rx_bytes s) (requests s).

(** ** The end of a connection (loop_disconnect, with no connect overtaking it) *)

Definition loop_disconnect (s : session) : session :=
  Session (-1) (connection_generation s)
    (if (connect_state s =? SERVER_STATE_CONNECTED) || (connect_state s =? SERVER_STATE_CONNECTING)
     then SERVER_STATE_DISCONNECTED else connect_state s)
    true
    (if fd s >=? 0 then map (fun _ => 0) (dtrefnums s) else dtrefnums s)
    (quantum s) (replay_cache_size s) (supports_replay_cache s) (rx_bytes s)
    (afpc_dsi_fail_request_queue (requests s) (- EIO)).

Definition is_read (r : dsi_request) : bool :=
  (subcommand r =? afpRead) || (subcommand r =? afpReadExt).

(** ** One call of the receiver *)

Section Receiver.

(** The parsers of replies, by the request they fill: the sender's own, and
    those afp_reply finds by the command in its table. *)
Context (handler : Z -> list Z -> Z) (afp_reply : Z -> Z -> list Z -> Z).

(** The start of a thread for an attention packet, with the bytes received so
    far: without memory for the packet's copy, or with it, and whether the
    thread starts. *)
Context (attention : Z -> list Z -> option bool).

(** The rest of a frame being dropped, one piece per call. *)
Definition drop_piece (sv : server) : io outcome :=
  let r := rx sv in
  afpc_dsi_read (Z.min (discard_remaining r) (bufsize r)) (fun a =>
    match a with
    | ReadReplaced => Done (Outcome 0 sv None [])
    | ReadError | ReadEof => Done (Outcome (-1) sv None [])
    | ReadBytes bs =>
        let r' := received 0 bs (data_read r) r in
        Done (Outcome 0 (Server (progress (data_read r) (discard_remaining r - zlen bs) (stream_read r) r')
                           (count_rx (zlen bs) (ses sv))) None [])
    end).

(** The frame a whole header announces: the request it answers, if the queue
    has one of this connection, and whether the frame is dropped. *)
Definition classify (sv : server) : server * option Z * option Z * bool :=
  let b := incoming_buffer (rx sv) in
  if hdr_flags b =? DSI_REPLY then
    let '(q', f) := afpc_dsi_find_request (requests (ses sv)) (hdr_requestid b) in
    let sv' := Server (rx sv) (set_requests q' (ses sv)) in
    match f with
    | None => (Server (count_runt (rx sv)) (ses sv'), None, None, true)
    | Some p =>
        match heap q' !! p with
        | Some r => if request_generation r =? connection_generation (ses sv)
                    then (sv', Some p, Some p, false)
                    else (Server (count_runt (rx sv)) (ses sv'), Some p, None, true)
        | None => (sv', Some p, Some p, false)
        end
    end
  else if (hdr_command b =? DSI_DSICloseSession) || (hdr_command b =? DSI_DSITickle)
          || (hdr_command b =? DSI_DSIAttention)
  then (sv, None, None, false)
  else (Server (count_runt (rx sv)) (ses sv), None, None, true).

(** The label out: the request's sender is woken. *)
Definition out_label (sv : server) (f request : option Z) (result : Z) (evs : list event) : outcome :=
  Outcome 0
    (match request with
     | Some p => Server (rx sv) (set_requests (update (signal_request result) p (requests (ses sv))) (ses sv))
     | None => sv
     end) f evs.

Definition error_label (sv : server) (f : option Z) (evs : list event) : outcome :=
  Outcome (-1) sv f evs.

(** The label after_processing: the frame leaves the buffer. *)
Definition after_processing (sv : server) (f request : option Z) (result : Z) (evs : list event) : outcome :=
  let r := rx sv in
  let len := hdr_length (incoming_buffer r) in
  if data_read r =? len + sizeof_dsi_header
  then out_label (Server (progress 0 (discard_remaining r) (stream_read r) r) (ses sv)) f request result evs
  else
    let packet_size := u32 (len + sizeof_dsi_header) in
    if data_read r <? packet_size then error_label sv f evs
    else
      let size_to_copy := data_read r - packet_size in
      out_label (Server (received 0 (sub packet_size size_to_copy (incoming_buffer r)) size_to_copy r) (ses sv))
        f request result evs.

(** afpc_dsi_command_reply: the answer, and the state with what a read of its
    own stores. *)
Definition afpc_dsi_command_reply (sv : server) (p : Z) (req : dsi_request) : io (server * Z) :=
  let r := rx sv in
  let packet sv := take (Z.to_nat (data_read (rx sv))) (incoming_buffer (rx sv)) in
  if data_read r <? sizeof_dsi_header then Done (sv, -1)
  else if subcommand req =? 0 then Done (sv, -1)
  else if is_read req then
    match other req with
    | Some buf =>
        afpc_dsi_read (rx_maxsize buf - rx_size buf) (fun a =>
          match a with
          | ReadBytes bs =>
              let sv' := Server (progress (data_read r + zlen bs) (discard_remaining r) (stream_read r) r)
                           (count_rx (zlen bs) (set_requests (update (fun q =>
                              Request (requestid q) (subcommand q)
                                (Some (RxBuffer (rx_size buf) (rx_maxsize buf) (store (rx_data buf) (rx_size buf) bs)))
                                (wait q) (deadline q) (done_waiting q) (ignore_replies q) (receiving q)
                                (return_code q) (request_generation q) (reply_handler q) (stream_buffer q))
                              p (requests (ses sv))) (ses sv))) in
              Done (sv', afp_reply (subcommand req) p (packet sv'))
          | _ => Done (sv, -1)
          end)
    | None => Done (sv, -1)
    end
  else Done (sv, afp_reply (subcommand req) p (packet sv)).

(** The label process_packet: a whole frame is served. *)
Definition process_packet (sv : server) (f request : option Z) (result : Z) : io outcome :=
  let r := rx sv in
  let b := incoming_buffer r in
  let packet := take (Z.to_nat (data_read r)) b in
  let command := hdr_command b in
  if command =? DSI_DSICloseSession
  then Done (after_processing (Server r (loop_disconnect (ses sv))) f request result [Ev_disconnect])
  else if command =? DSI_DSIGetStatus
  then Done (after_processing sv f request result [Ev_getstatus packet])
  else if command =? DSI_DSIOpenSession
  then Done (after_processing (Server r (afpc_dsi_opensession_reply b (data_read r) (ses sv))) f request result [])
  else if command =? DSI_DSITickle
  then Done (after_processing sv f request result [Ev_tickle])
  else if (command =? DSI_DSIWrite) || (command =? DSI_DSICommand) then
    match request ≫= (fun p => pair p <$> heap (requests (ses sv)) !! p) with
    | Some (p, req) =>
        let continue sv' reply_result :=
          Done (after_processing sv' f request
                  (if negb (reply_result =? 0) && (result =? 0) then reply_result else result)
                  [Ev_reply p packet]) in
        if reply_handler req then continue sv (handler p packet)
        else match afpc_dsi_command_reply sv p req with
             | Done (sv', rr) => continue sv' rr
             | Read n k => Read n (fun a => match k a with
                                            | Done (sv', rr) => continue sv' rr
                                            | Read _ _ => Done (error_label sv f [])
                                            end)
             end
    | None => Done (after_processing sv f request result [])
    end
  else if command =? DSI_DSIAttention
  then Done (match attention (rx_bytes (ses sv)) packet with
             | None => error_label sv f []
             | Some started =>
                 after_processing sv f request result
                   (if started then [Ev_attention (connection_generation (ses sv)) packet] else [])
             end)
  else Done (error_label sv f []).

(** A read's reply streams into the request's buffer. *)
Definition stream_piece (sv : server) (f : option Z) (p : Z) (req : dsi_request) (result : Z) : io outcome :=
  let r := rx sv in
  let announced := hdr_length (incoming_buffer r) in
  if (data_read r =? sizeof_dsi_header) && (announced =? 0)
  then Done (out_label (Server (progress 0 (discard_remaining r) (stream_read r) r) (ses sv)) f (Some p) result [])
  else
    match read_buffer req with
    | None => Done (error_label sv f [])
    | Some buf =>
        if rx_maxsize buf =? 0 then Done (error_label sv f [])
        else if (announced <? rx_size buf) || (announced >? rx_maxsize buf) then Done (error_label sv f [])
        else
          let newmax := Z.min (rx_maxsize buf - rx_size buf) (announced - rx_size buf) in
          afpc_dsi_read newmax (fun a =>
            match a with
            | ReadReplaced => Done (Outcome 0 sv f [])
            | ReadError | ReadEof => Done (error_label sv f [])
            | ReadBytes bs =>
                let buf' := RxBuffer (u32 (rx_size buf + zlen bs)) (rx_maxsize buf)
                              (store (rx_data buf) (rx_size buf) bs) in
                let s' := count_rx (zlen bs)
                            (set_requests (update (set_read_buffer buf') p (requests (ses sv))) (ses sv)) in
                if announced =? rx_size buf' then
                  let size_to_copy := data_read r - sizeof_dsi_header in
                  if size_to_copy =? 0
                  then Done (out_label (Server (progress 0 (discard_remaining r) 0 r) s') f (Some p) result [])
                  else if size_to_copy <? 0
                  then Done (error_label (Server (progress (data_read r) (discard_remaining r) 0 r) s') f [])
                  else process_packet
                         (Server (received 0 (sub sizeof_dsi_header size_to_copy (incoming_buffer r)) size_to_copy
                                    (progress (data_read r) (discard_remaining r) 0 r)) s') f (Some p) result
                else Done (Outcome 0 (Server (progress (data_read r) (discard_remaining r)
                                                (stream_read r + zlen bs) r) s') f [])
            end)
    end.

(** Any other frame is gathered in the incoming buffer, or dropped. *)
Definition payload_piece (sv : server) (f request : option Z) (runt : bool) (result : Z) : io outcome :=
  let r := rx sv in
  let payload_length := hdr_length (incoming_buffer r) in
  let serve sv := if runt then Done (after_processing sv f request result [])
                  else process_packet sv f request result in
  if (data_read r =? sizeof_dsi_header) && (payload_length =? 0) then serve sv
  else
    let payload_read := data_read r - sizeof_dsi_header in
    if stream_read r >? 0 then
      Done (out_label (Server (progress 0 (payload_length - stream_read r) 0 r) (ses sv)) f request result [])
    else if payload_length >? bufsize r - sizeof_dsi_header then
      if payload_length >? quantum (ses sv) then Done (error_label sv f [])
      else Done (out_label (Server (progress 0 (payload_length - payload_read) (stream_read r) r) (ses sv))
                   f request (- EIO) [])
    else if payload_read >? payload_length then Done (error_label sv f [])
    else
      let payload_remaining := payload_length - payload_read in
      if payload_remaining =? 0 then process_packet sv f request result
      else
        afpc_dsi_read (Z.min payload_remaining (bufsize r - data_read r)) (fun a =>
          match a with
          | ReadReplaced => Done (Outcome 0 sv f [])
          | ReadError | ReadEof => Done (error_label sv f [])
          | ReadBytes bs =>
              let r' := received (data_read r) bs (data_read r + zlen bs) r in
              let sv' := Server r' (count_rx (zlen bs) (ses sv)) in
              if data_read r' <? hdr_length (incoming_buffer r') + sizeof_dsi_header
              then Done (Outcome 0 sv' f [])
              else serve sv'
          end).

(** The label gotenough: the header is whole. *)
Definition gotenough (sv : server) : io outcome :=
  let b := incoming_buffer (rx sv) in
  if negb ((hdr_flags b =? DSI_REQUEST) || (hdr_flags b =? DSI_REPLY))
     || negb (afpc_dsi_command_is_defined (hdr_command b))
  then Done (error_label sv None [])
  else
    let '(sv', f, request, runt) := classify sv in
    let req := request ≫= (fun p => pair p <$> heap (requests (ses sv')) !! p) in
    let result := match request with Some _ => hdr_error_code b | None => 0 end in
    match req with
    | Some (p, r) => if is_read r then stream_piece sv' f p r result
                     else payload_piece sv' f request runt result
    | None => payload_piece sv' f request runt result
    end.

Definition afpc_dsi_recv_frame (sv : server) : io outcome :=
  let r := rx sv in
  if discard_remaining r >? 0 then drop_piece sv
  else if data_read r <? sizeof_dsi_header then
    afpc_dsi_read (sizeof_dsi_header - data_read r) (fun a =>
      match a with
      | ReadReplaced => Done (Outcome 0 sv None [])
      | ReadError | ReadEof => Done (error_label sv None [])
      | ReadBytes bs =>
          let r' := received (data_read r) bs (data_read r + zlen bs) r in
          let sv' := Server r' (count_rx (zlen bs) (ses sv)) in
          if (data_read r' =? sizeof_dsi_header) && (hdr_length (incoming_buffer r') =? 0)
          then gotenough sv' else Done (Outcome 0 sv' None [])
      end)
  else gotenough sv.

(** A call starts afresh on a new connection, and lets the request go at its
    end. *)
Definition release_found (o : outcome) : outcome :=
  match found o with
  | Some p => Outcome (ret o)
                (Server (rx (state o))
                   (set_requests (afpc_dsi_release_request (requests (ses (state o))) p) (ses (state o))))
                (found o) (events o)
  | None => o
  end.

Fixpoint io_map {A B} (g : A -> B) (c : io A) : io B :=
  match c with
  | Done a => Done (g a)
  | Read n k => Read n (fun a => io_map g (k a))
  end.

Definition afpc_dsi_recv (sv : server) : io outcome :=
  let s := ses sv in
  if fd s <? 0 then Done (Outcome 0 sv None [])
  else
    let r := rx sv in
    let r' := if rx_generation r =? connection_generation s then r
              else RxState (incoming_buffer r) 0 (bufsize r) 0 0 (connection_generation s) (runt_packets r) in
    io_map release_found (afpc_dsi_recv_frame (Server r' s)).

(** What the loop does with a server that is ready: a stream that ended, or
    lost its framing, ends the connection. *)
Definition serve_ready (sv : server) : io outcome :=
  io_map (fun o => if ret o =? -1
                   then Outcome 0 (Server (rx (state o)) (loop_disconnect (ses (state o)))) (found o)
                          (events o ++ [Ev_disconnect])
                   else Outcome 1 (state o) (found o) (events o))
         (afpc_dsi_recv sv).

End Receiver.
