(* ===== verification/DsiFraming.v ===== *)
(** The DSI receiver against its specification: what a whole frame does to a
    session ([serve]), and that the receiver of Dsi.v does it however the
    stream is cut into pieces, and keeps its place in the stream whatever the
    other threads do to the queue meanwhile. *)
From stdpp Require Import gmap.
From S2P Require Import Prelude AfpProtocol DsiQueue Dsi.

(** ** The socket

    A read takes what it asked for or less, from the front of the stream: at
    most [k] bytes, the piece that has arrived. *)
Fixpoint run_io {A} (c : io A) (k : Z) (rest : list Z) : A * list Z :=
  match c with
  | Done a => (a, rest)
  | Read n c' =>
      let bs := take (Z.to_nat (Z.min k n)) rest in
      run_io (c' (ReadBytes bs)) k (drop (length bs) rest)
  end.

Lemma run_io_map {A B} (g : A -> B) c k rest :
  run_io (io_map g c) k rest = (g (fst (run_io c k rest)), snd (run_io c k rest)).
Proof.
  revert rest. induction c as [a|n c IH]; intros rest; simpl; [done|]. apply IH.
Qed.

(** ** Sessions up to the receiver's hold *)

Definition erase_q (q : queue) : queue :=
  Queue (set_receiving false <$> heap q) (command_requests q) (requests_pending q).
Definition erase (s : session) : session := set_requests (erase_q (requests s)) s.

Lemma erase_update f p q :
  (forall r, set_receiving false (f r) = f (set_receiving false r)) ->
  erase_q (update f p q) = update f p (erase_q q).
Proof.
  intros Hf. unfold erase_q, update. simpl. f_equal. apply map_eq. intros x.
  rewrite lookup_fmap. destruct (decide (x = p)) as [->|Hne].
  - rewrite !lookup_alter_eq, lookup_fmap. destruct (heap q !! p); simpl; [by rewrite Hf|done].
  - by rewrite !lookup_alter_ne, lookup_fmap by done.
Qed.

Lemma erase_hold b p q : erase_q (update (set_receiving b) p q) = erase_q q.
Proof.
  unfold erase_q, update. simpl. f_equal. apply map_eq. intros x. rewrite !lookup_fmap.
  destruct (decide (x = p)) as [->|Hne].
  - rewrite lookup_alter_eq. by destruct (heap q !! p).
  - by rewrite lookup_alter_ne.
Qed.

Lemma erase_fail q e : erase_q (afpc_dsi_fail_request_queue q e) = afpc_dsi_fail_request_queue (erase_q q) e.
Proof.
  unfold erase_q, afpc_dsi_fail_request_queue. simpl. f_equal. apply map_eq. intros x.
  rewrite lookup_fmap, !lookup_alter_all, lookup_fmap by apply wake_idem.
  case_decide; [|done]. destruct (heap q !! x) as [r|]; [|done]. simpl. f_equal.
  unfold wake. simpl. by case_if.
Qed.

Lemma erase_signal c r : set_receiving false (signal_request c r) = signal_request c (set_receiving false r).
Proof. unfold signal_request. simpl. by case_if. Qed.

Lemma erase_buffer b r : set_receiving false (set_read_buffer b r) = set_read_buffer b (set_receiving false r).
Proof. unfold set_read_buffer. simpl. by case_match. Qed.

Lemma erase_disconnect s : erase (loop_disconnect s) = loop_disconnect (erase s).
Proof. unfold erase, loop_disconnect, set_requests. simpl. by rewrite erase_fail. Qed.

Lemma erase_open b n s : erase (afpc_dsi_opensession_reply b n s) = afpc_dsi_opensession_reply b n (erase s).
Proof. unfold afpc_dsi_opensession_reply. by destruct (options_loop _ _ _ _ _ _). Qed.

(** ** The request a frame answers *)

Definition target (s : session) (h : list Z) : option (Z * dsi_request) :=
  if hdr_flags h =? DSI_REPLY then
    match find_waiting (heap (requests s)) (hdr_requestid h) (command_requests (requests s)) with
    | Some p =>
        match heap (requests s) !! p with
        | Some r => if request_generation r =? connection_generation s then Some (p, r) else None
        | None => None
        end
    | None => None
    end
  else None.

(** A frame of the server's own, which the client serves. *)
Definition server_request (h : list Z) : bool :=
  (hdr_command h =? DSI_DSICloseSession) || (hdr_command h =? DSI_DSITickle)
  || (hdr_command h =? DSI_DSIAttention).

Lemma awaits_erase h id p : awaits (set_receiving false <$> h) id p = awaits h id p.
Proof. unfold awaits. rewrite lookup_fmap. by destruct (h !! p). Qed.

Lemma find_erase h id ps : find_waiting (set_receiving false <$> h) id ps = find_waiting h id ps.
Proof. induction ps as [|p ps IH]; simpl; [done|]. by rewrite awaits_erase, IH. Qed.

Lemma erase_found q id : erase_q (fst (afpc_dsi_find_request q id)) = erase_q q.
Proof. unfold afpc_dsi_find_request. case_match; [apply erase_hold|done]. Qed.

(** ** What a whole frame does *)

Definition signal_opt (t : option (Z * dsi_request)) (result : Z) (s : session) : session :=
  match t with
  | Some (p, _) => set_requests (update (signal_request result) p (requests s)) s
  | None => s
  end.

(** A read's buffer with the first bytes of the payload in it. *)
Definition filled (b : afp_rx_buffer) (bs : list Z) : afp_rx_buffer :=
  RxBuffer (zlen bs) (rx_maxsize b) (store (rx_data b) 0 bs).

Definition fill (p : Z) (r : dsi_request) (bs : list Z) (s : session) : session :=
  match read_buffer r with
  | Some b => set_requests (update (set_read_buffer (filled b bs)) p (requests s)) s
  | None => s
  end.

Section Spec.

Context (handler : Z -> list Z -> Z) (afp_reply : Z -> Z -> list Z -> Z) (attention : Z -> list Z -> option bool).

Definition reply_result (p : Z) (r : dsi_request) (packet : list Z) : Z :=
  if reply_handler r then handler p packet
  else if subcommand r =? 0 then -1 else afp_reply (subcommand r) p packet.

(** A frame the receiver has gathered whole. *)
Definition dispatch (s : session) (packet : list Z) (t : option (Z * dsi_request)) : session * list event :=
  let c := hdr_command packet in
  let result := match t with Some _ => hdr_error_code packet | None => 0 end in
  if c =? DSI_DSICloseSession then (signal_opt t result (loop_disconnect s), [Ev_disconnect])
  else if c =? DSI_DSIGetStatus then (signal_opt t result s, [Ev_getstatus packet])
  else if c =? DSI_DSIOpenSession
  then (signal_opt t result (afpc_dsi_opensession_reply packet (zlen packet) s), [])
  else if c =? DSI_DSITickle then (signal_opt t result s, [Ev_tickle])
  else if (c =? DSI_DSIWrite) || (c =? DSI_DSICommand) then
    match t with
    | Some (p, r) =>
        let rr := reply_result p r packet in
        (signal_opt t (if negb (rr =? 0) && (result =? 0) then rr else result) s, [Ev_reply p packet])
    | None => (s, [])
    end
  else (signal_opt t result s,
        if default false (attention (rx_bytes s) packet) then [Ev_attention (connection_generation s) packet] else []).

(** The effect of a frame once all its bytes are in, the count of received
    bytes apart: a read's reply fills the reader's buffer and wakes it; a
    frame longer than the receive buffer is dropped and its request fails; a
    reply nobody waits for is dropped; every other frame is dispatched. *)
Definition effect (size : Z) (s : session) (h pl : list Z) : session * list event :=
  match target s h with
  | Some (p, r) =>
      if is_read r then
        (signal_opt (Some (p, r)) (hdr_error_code h) (if zlen pl =? 0 then s else fill p r pl s), [])
      else if zlen pl >? size - sizeof_dsi_header then (signal_opt (Some (p, r)) (- EIO) s, [])
      else dispatch s (h ++ pl) (Some (p, r))
  | None =>
      if (hdr_flags h =? DSI_REQUEST) && server_request h && (zlen pl <=? size - sizeof_dsi_header)
      then dispatch s (h ++ pl) None else (s, [])
  end.

Definition serve (size : Z) (s : session) (f : list Z * list Z) : session * list event :=
  effect size (count_rx (sizeof_dsi_header + zlen (snd f)) s) (fst f) (snd f).

End Spec.

(** ** The receiver's place in the stream *)

Record rx_wf (size generation : Z) (r : rx_state) : Prop := {
  wf_buffer : zlen (incoming_buffer r) = bufsize r;
  wf_size : bufsize r = size;
  wf_room : sizeof_dsi_header < size;
  wf_generation : rx_generation r = generation }.

(** The bytes [g] of a frame are in the incoming buffer. *)
Definition at_gather (size gen : Z) (r : rx_state) (g : list Z) : Prop :=
  rx_wf size gen r /\ discard_remaining r = 0 /\ stream_read r = 0 /\ data_read r = zlen g
  /\ take (Z.to_nat (zlen g)) (incoming_buffer r) = g /\ zlen g <= size.

(** [n] bytes of the payload that follows the header [h] are in a read's buffer. *)
Definition at_stream (size gen : Z) (r : rx_state) (h : list Z) (n : Z) : Prop :=
  rx_wf size gen r /\ discard_remaining r = 0 /\ stream_read r = n /\ 0 < n
  /\ data_read r = sizeof_dsi_header /\ take (Z.to_nat sizeof_dsi_header) (incoming_buffer r) = h.

(** [n] bytes of a frame are still to be dropped. *)
Definition at_drop (size gen : Z) (r : rx_state) (n : Z) : Prop :=
  rx_wf size gen r /\ discard_remaining r = n /\ stream_read r = 0 /\ data_read r = 0.

(** Between two frames. *)
Definition idle (size gen : Z) (r : rx_state) : Prop := at_gather size gen r [].

Lemma at_drop_0 size gen r : at_drop size gen r 0 -> idle size gen r.
Proof.
  intros (Hwf & Hd & Hs & Hr). split; [done|]. unfold zlen. simpl.
  split; [done|]. split; [done|]. split; [done|]. split; [done|]. destruct Hwf. unfold sizeof_dsi_header in *. lia.
Qed.

(** A well-formed frame: header and payload. *)
Record frame_ok (h pl : list Z) : Prop := {
  fr_header : zlen h = sizeof_dsi_header;
  fr_length : hdr_length h = zlen pl;
  fr_flags : hdr_flags h = DSI_REQUEST \/ hdr_flags h = DSI_REPLY;
  fr_command : afpc_dsi_command_is_defined (hdr_command h) = true }.

(** A frame's payload fits the receive buffer, or is within the quantum. *)
Definition frame_fits (size : Z) (s : session) (pl : list Z) : Prop :=
  zlen pl <= size - sizeof_dsi_header \/ zlen pl <= quantum s.

Lemma hdr_eq b h :
  take (Z.to_nat sizeof_dsi_header) b = h -> zlen h = sizeof_dsi_header ->
  hdr_flags b = hdr_flags h /\ hdr_command b = hdr_command h /\ hdr_requestid b = hdr_requestid h
  /\ hdr_error_code b = hdr_error_code h /\ hdr_length b = hdr_length h.
Proof.
  intros <- _. unfold hdr_flags, hdr_command, hdr_requestid, hdr_error_code, hdr_length, sizeof_dsi_header.
  assert (E : take (Z.to_nat 16) (take (Z.to_nat 16) b) = take (Z.to_nat 16) b) by (by rewrite take_take).
  rewrite (byte_at_prefix 16 _ _ 0 E), (byte_at_prefix 16 _ _ 1 E) by lia.
  by rewrite (be_at_prefix 16 _ _ 2 2 E), (be_at_prefix 16 _ _ 4 4 E), (be_at_prefix 16 _ _ 8 4 E) by lia.
Qed.

Lemma hdr_app h pl :
  zlen h = sizeof_dsi_header ->
  hdr_flags (h ++ pl) = hdr_flags h /\ hdr_command (h ++ pl) = hdr_command h
  /\ hdr_requestid (h ++ pl) = hdr_requestid h
  /\ hdr_error_code (h ++ pl) = hdr_error_code h /\ hdr_length (h ++ pl) = hdr_length h.
Proof.
  intros Hh. apply hdr_eq; [|done]. apply take_app_zlen. unfold zlen in *. lia.
Qed.

(** A buffer that holds the start [g] of a frame holds its header. *)
Lemma take_prefix b (g h pl : list Z) n :
  take (Z.to_nat (zlen g)) b = g -> g = take n (h ++ pl) -> zlen h <= zlen g ->
  take (Z.to_nat (zlen h)) b = h.
Proof.
  intros Hb Hg Hn. assert (Hh : take (Z.to_nat (zlen h)) g = h).
  { rewrite Hg, take_take. rewrite Hg, zlen_take in Hn. unfold zlen in *.
    rewrite Nat.min_l by lia. apply take_app_zlen. lia. }
  rewrite <- Hh at 2. rewrite <- Hb. rewrite take_take. f_equal. unfold zlen in *. lia.
Qed.

(** ** Finding the request *)

Lemma target_erase s h :
  target (erase s) h = (fun '(p, r) => (p, set_receiving false r)) <$> target s h.
Proof.
  unfold target. case_if; [|done]. simpl. rewrite find_erase.
  destruct (find_waiting _ _ _) as [p|]; [|done]. rewrite lookup_fmap.
  destruct (heap (requests s) !! p); simpl; [|done]. by case_if.
Qed.

(** What classify answers: the request the frame is for, held, and whether the
    frame is dropped. *)
Lemma classify_spec sv h :
  take (Z.to_nat sizeof_dsi_header) (incoming_buffer (rx sv)) = h -> zlen h = sizeof_dsi_header ->
  hdr_flags h = DSI_REQUEST \/ hdr_flags h = DSI_REPLY ->
  exists sv' f, classify sv = (sv', f, fst <$> target (erase (ses sv)) h,
      match target (erase (ses sv)) h with Some _ => false | None => negb ((hdr_flags h =? DSI_REQUEST) && server_request h) end)
    /\ (rx sv' = rx sv \/ rx sv' = count_runt (rx sv))
    /\ erase (ses sv') = erase (ses sv)
    /\ (forall p r, target (erase (ses sv)) h = Some (p, r) ->
          exists r', heap (requests (ses sv')) !! p = Some r' /\ set_receiving false r' = r).
Proof.
  intros Hb Hh Hf. destruct (hdr_eq _ _ Hb Hh) as (Hfl & Hc & Hid & _ & _).
  unfold classify. rewrite target_erase. unfold target. rewrite Hfl, Hid, Hc.
  fold (server_request h). destruct Hf as [Hf|Hf]; rewrite Hf.
  - destruct (server_request h); eexists _, _; (split; [reflexivity|]);
      (split; [auto|]); done.
  - change (DSI_REPLY =? DSI_REPLY) with true. cbv iota. unfold afpc_dsi_find_request.
    destruct (find_waiting _ _ _) as [p|] eqn:Ef; [|eexists _, _; (split; [reflexivity|]); (split; [auto|]); done].
    rewrite update_lookup, decide_True by done.
    assert (Hin : is_Some (heap (requests (ses sv)) !! p)).
    { apply find_waiting_some in Ef as [_ Ha]. unfold awaits in Ha. by destruct (heap _ !! p). }
    destruct Hin as [r Hr]. rewrite Hr. simpl.
    assert (He : erase (set_requests (update (set_receiving true) p (requests (ses sv))) (ses sv)) = erase (ses sv)).
    { unfold erase, set_requests. simpl. by rewrite erase_hold. }
    destruct (request_generation r =? connection_generation (ses sv)) eqn:Eg; simpl;
      eexists _, _; (split; [reflexivity|]); simpl; (split; [auto|]); (split; [exact He|]).
    + intros p0 r0 [= <- <-]. rewrite lookup_alter_eq, Hr. simpl. eauto.
    + done.
Qed.

(** ** Serving a whole frame *)

Lemma options_loop_prefix fuel b c n off q cache :
  take (Z.to_nat n) b = take (Z.to_nat n) c -> 0 <= off -> bytes_ok b ->
  options_loop fuel b n off q cache = options_loop fuel c n off q cache.
Proof.
  intros E. revert off q cache. induction fuel as [|fuel IH]; intros off q cache Hoff Hb; [done|].
  cbn [options_loop]. destruct (off + 2 <=? n) eqn:E1; [|done]. bool_to_prop.
  rewrite <- !(byte_at_prefix n b c) by (done || lia).
  destruct (off + 2 + byte_at b (off + 1) >? n) eqn:E2; [done|]. bool_to_prop.
  pose proof (byte_at_ok b (off + 1) Hb) as Hl. unfold byte_ok in Hl.
  destruct (byte_at b (off + 1) =? 4) eqn:E3; bool_to_prop; rewrite ?andb_true_r, ?andb_false_r.
  - rewrite (be_at_prefix n b c) by (done || lia). repeat case_if; apply IH; (done || lia).
  - apply IH; [lia|done].
Qed.

Lemma opensession_prefix b c n s :
  take (Z.to_nat n) b = c -> bytes_ok b ->
  afpc_dsi_opensession_reply b n s = afpc_dsi_opensession_reply c n s.
Proof.
  intros <- Hb. unfold afpc_dsi_opensession_reply.
  rewrite (options_loop_prefix _ b (take (Z.to_nat n) b) n); [done| |unfold sizeof_dsi_header; lia|done].
  by rewrite take_take, Nat.min_id.
Qed.

(** The whole frame [h ++ pl] is in the incoming buffer. *)
Definition gathered (size gen : Z) (r : rx_state) (h pl : list Z) : Prop :=
  at_gather size gen r (h ++ pl) /\ bytes_ok (incoming_buffer r).

Lemma release_found_spec o :
  ret (release_found o) = ret o /\ rx (state (release_found o)) = rx (state o)
  /\ erase (ses (state (release_found o))) = erase (ses (state o))
  /\ events (release_found o) = events o.
Proof.
  unfold release_found. destruct (found o) as [p|]; [|done]. simpl. split; [done|]. split; [done|].
  split; [|done]. unfold erase, set_requests. simpl. unfold afpc_dsi_release_request. by rewrite erase_hold.
Qed.

Lemma erase_signal_opt t c s : erase (signal_opt t c s) = signal_opt t c (erase s).
Proof.
  destruct t as [[p r]|]; [|done]. unfold erase, signal_opt, set_requests. simpl.
  by rewrite erase_update by apply erase_signal.
Qed.

Lemma out_label_spec sv f t c evs :
  let o := out_label sv f (fst <$> t) c evs in
  ret o = 0 /\ rx (state o) = rx sv /\ erase (ses (state o)) = signal_opt t c (erase (ses sv))
  /\ events o = evs.
Proof.
  simpl. split; [done|]. rewrite <- erase_signal_opt. by destruct t as [[p r]|].
Qed.

Lemma after_processing_spec size gen sv h pl f t c evs :
  frame_ok h pl -> gathered size gen (rx sv) h pl ->
  let o := after_processing sv f (fst <$> t) c evs in
  ret o = 0 /\ idle size gen (rx (state o)) /\ bytes_ok (incoming_buffer (rx (state o)))
  /\ erase (ses (state o)) = signal_opt t c (erase (ses sv)) /\ events o = evs.
Proof.
  intros [Hh Hlen Hfl Hcmd] [(Hwf & Hd & Hs & Hr & Hb & Hsz) Hok].
  assert (Hb16 : take (Z.to_nat sizeof_dsi_header) (incoming_buffer (rx sv)) = h).
  { rewrite <- Hh. apply (take_prefix _ (h ++ pl) h pl (length (h ++ pl))); [done|by rewrite firstn_all|].
    rewrite zlen_app. pose proof (zlen_nonneg pl). lia. }
  destruct (hdr_eq _ _ Hb16 Hh) as (_ & _ & _ & _ & Hl).
  unfold after_processing. rewrite Hl, Hlen, Hr, zlen_app, Hh, Z.add_comm, Z.eqb_refl.
  pose proof (out_label_spec (Server (progress 0 (discard_remaining (rx sv)) (stream_read (rx sv)) (rx sv)) (ses sv))
                f t c evs) as (H1 & H2 & H3 & H4).
  split; [done|]. rewrite H2. split; [|by split].
  apply at_drop_0. destruct Hwf. by repeat split.
Qed.

Section Refinement.

Context (handler : Z -> list Z -> Z) (afp_reply : Z -> Z -> list Z -> Z) (attention : Z -> list Z -> option bool).

(** There is memory for the copies of attention packets. *)
Hypothesis attention_memory : forall n packet, attention n packet <> None.

Abbreviation process := (process_packet handler afp_reply attention).
Abbreviation dispatch := (dispatch handler afp_reply attention).

Lemma process_spec size gen sv h pl f t :
  frame_ok h pl -> gathered size gen (rx sv) h pl ->
  (forall p r, t = Some (p, r) -> is_read r = false
     /\ exists r', heap (requests (ses sv)) !! p = Some r' /\ set_receiving false r' = r) ->
  (t = None -> server_request h = true) ->
  exists o, process sv f (fst <$> t) (match t with Some _ => hdr_error_code h | None => 0 end) = Done o
    /\ ret o = 0 /\ idle size gen (rx (state o)) /\ bytes_ok (incoming_buffer (rx (state o)))
    /\ (erase (ses (state o)), events o) = dispatch (erase (ses sv)) (h ++ pl) t.
Proof.
  intros Hfr Hg Ht Hnone. pose proof Hfr as [Hh Hlen Hfl Hcmd].
  pose proof Hg as [(Hwf & Hd & Hs & Hr & Hb & Hsz) Hok].
  assert (Hb16 : take (Z.to_nat sizeof_dsi_header) (incoming_buffer (rx sv)) = h).
  { rewrite <- Hh. apply (take_prefix _ (h ++ pl) h pl (length (h ++ pl))); [done|by rewrite firstn_all|].
    rewrite zlen_app. pose proof (zlen_nonneg pl). lia. }
  destruct (hdr_eq _ _ Hb16 Hh) as (_ & Hc & _ & _ & _).
  destruct (hdr_app h pl Hh) as (_ & Hc' & _ & He' & _).
  unfold process_packet, DsiFraming.dispatch. rewrite Hc, Hc', He', Hr, Hb.
  assert (Hap : forall sv' f t c evs, rx sv' = rx sv ->
    let o := after_processing sv' f (fst <$> t) c evs in
    ret o = 0 /\ idle size gen (rx (state o)) /\ bytes_ok (incoming_buffer (rx (state o)))
    /\ (erase (ses (state o)), events o) = (signal_opt t c (erase (ses sv')), evs)).
  { intros sv' f0 t0 c0 evs Hrx. rewrite <- Hrx in Hg.
    destruct (after_processing_spec size gen sv' h pl f0 t0 c0 evs Hfr Hg) as (H1 & H2 & H3 & H4 & H5).
    split; [done|]. split; [done|]. split; [done|]. by rewrite H4, H5. }
  destruct (hdr_command h =? DSI_DSICloseSession) eqn:E1.
  { eexists. split; [reflexivity|]. rewrite <- erase_disconnect. by apply Hap. }
  destruct (hdr_command h =? DSI_DSIGetStatus) eqn:E2.
  { eexists. split; [reflexivity|]. by apply Hap. }
  destruct (hdr_command h =? DSI_DSIOpenSession) eqn:E3.
  { eexists. split; [reflexivity|]. rewrite (opensession_prefix _ (h ++ pl)), <- erase_open by done.
    by apply Hap. }
  destruct (hdr_command h =? DSI_DSITickle) eqn:E4.
  { eexists. split; [reflexivity|]. by apply Hap. }
  destruct ((hdr_command h =? DSI_DSIWrite) || (hdr_command h =? DSI_DSICommand))%bool eqn:E5.
  { destruct t as [[p r]|].
    - destruct (Ht p r eq_refl) as (Hnr & r' & Hp & Hr').
      change (fst <$> Some (p, r)) with (Some p). cbn [mbind option_bind]. rewrite Hp. cbn [fmap option_fmap option_map].
      assert (reply_handler r' = reply_handler r /\ subcommand r' = subcommand r /\ is_read r' = false)
        as (Hrh & Hsub & Hnr') by (rewrite <- Hr' in *; done).
      unfold reply_result. rewrite <- Hrh, <- Hsub.
      destruct (reply_handler r') eqn:Eh;
        [eexists; split; [reflexivity|]; by apply (Hap sv f (Some (p, r)))|].
      unfold afpc_dsi_command_reply. rewrite Hr, Hb, zlen_app, Hh, Hnr'.
      replace (sizeof_dsi_header + zlen pl <? sizeof_dsi_header) with false
        by (pose proof (zlen_nonneg pl); lia).
      destruct (subcommand r' =? 0) eqn:Es; (eexists; split; [reflexivity|]; by apply (Hap sv f (Some (p, r)))).
    - specialize (Hnone eq_refl). unfold server_request in Hnone. exfalso.
      rewrite E1, E4 in Hnone. simpl in Hnone. apply Z.eqb_eq in Hnone. rewrite Hnone in E5. done. }
  assert ((hdr_command h =? DSI_DSIAttention) = true) as E6.
  { unfold afpc_dsi_command_is_defined in Hcmd. apply orb_false_elim in E5 as [E5 E5'].
    by rewrite E1, E2, E3, E4, E5, E5' in Hcmd. }
  rewrite E6. change (rx_bytes (erase (ses sv))) with (rx_bytes (ses sv)). pose proof (attention_memory (rx_bytes (ses sv)) (h ++ pl)) as Hm.
  destruct (attention (rx_bytes (ses sv)) (h ++ pl)) as [started|]; [|done]. eexists. split; [reflexivity|]. by apply Hap.
Qed.

(** ** One call of the receiver *)

Abbreviation recv := (afpc_dsi_recv handler afp_reply attention).
Abbreviation effect := (effect handler afp_reply attention).

(** A computation that takes the bytes [used] off the stream, leaves the
    receiver where [P] says and the session in the state [s'], and answers 0. *)
Definition ends (c : io outcome) (k : Z) (rest used : list Z) (P : rx_state -> Prop)
    (s' : session) (evs : list event) : Prop :=
  exists o rest', run_io c k rest = (o, rest')
  /\ ret o = 0 /\ rest = used ++ rest' /\ P (rx (state o))
  /\ bytes_ok (incoming_buffer (rx (state o))) /\ erase (ses (state o)) = s' /\ events o = evs.

Definition call_to (sv : server) := ends (recv sv).

(** A live connection, and a piece of its stream that has arrived. *)
Record live (size gen : Z) (sv : server) (k : Z) (rest : list Z) : Prop := {
  lv_fd : 0 <= fd (ses sv);
  lv_gen : connection_generation (ses sv) = gen;
  lv_wf : rx_wf size gen (rx sv);
  lv_bytes : bytes_ok (incoming_buffer (rx sv));
  lv_piece : 0 < k;
  lv_rest : bytes_ok rest }.

Lemma recv_frame_call size gen sv k rest used P s' evs :
  live size gen sv k rest ->
  ends (afpc_dsi_recv_frame handler afp_reply attention sv) k rest used P s' evs ->
  call_to sv k rest used P s' evs.
Proof.
  intros [Hfd Hgen [_ _ _ Hrg] _ _ _] (o & rest' & Hrun & Hret & Hrest & HP & Hb & Hs & He).
  unfold call_to, ends, afpc_dsi_recv. replace (fd (ses sv) <? 0) with false by lia.
  rewrite Hrg, Hgen, Z.eqb_refl. replace (Server (rx sv) (ses sv)) with sv by by destruct sv.
  rewrite run_io_map, Hrun. exists (release_found o), rest'.
  destruct (release_found_spec o) as (H1 & H2 & H3 & H4).
  rewrite H1, H2, H3, H4. done.
Qed.

(** The bytes a read of at most [n] takes. *)
Definition piece (k n : Z) (rest : list Z) : list Z := take (Z.to_nat (Z.min k n)) rest.

Lemma piece_len k n rest : zlen (piece k n rest) <= Z.max 0 (Z.min k n).
Proof. unfold piece. rewrite zlen_take. lia. Qed.

Lemma piece_pos k n rest : 0 < k -> 0 < n -> rest <> [] -> 0 < zlen (piece k n rest).
Proof.
  intros. unfold piece. rewrite zlen_take. destruct rest; [done|].
  rewrite zlen_cons. pose proof (zlen_nonneg rest). lia.
Qed.

Lemma piece_rest k n rest : rest = piece k n rest ++ drop (length (piece k n rest)) rest.
Proof.
  unfold piece. rewrite length_take. symmetry.
  destruct (decide (Z.to_nat (Z.min k n) <= length rest)%nat).
  - rewrite Nat.min_l by lia. apply take_drop.
  - rewrite Nat.min_r, drop_all, app_nil_r by lia. apply take_ge. lia.
Qed.

Lemma piece_ok k n rest : bytes_ok rest -> bytes_ok (piece k n rest).
Proof. apply bytes_ok_take. Qed.

Lemma run_read {A} n (c : read_result -> io A) k rest :
  0 < n ->
  run_io (afpc_dsi_read n c) k rest
  = run_io (c (ReadBytes (piece k n rest))) k (drop (length (piece k n rest)) rest).
Proof. intros. unfold afpc_dsi_read. by replace (n =? 0) with false by lia. Qed.

Lemma erase_count n s : erase (count_rx n s) = count_rx n (erase s).
Proof. done. Qed.

Lemma drop_call size gen sv k rest n :
  live size gen sv k rest -> at_drop size gen (rx sv) n -> 0 < n ->
  let bs := piece k (Z.min n size) rest in
  call_to sv k rest bs (fun r => at_drop size gen r (n - zlen bs)) (count_rx (zlen bs) (erase (ses sv))) [].
Proof.
  intros Hlv (Hwf & Hd & Hs & Hr) Hn bs. apply (recv_frame_call size gen); [done|]. unfold ends.
  destruct Hlv as [_ _ _ Hb _ Hrest]. destruct Hwf as [W1 W2 W3 W4].
  unfold afpc_dsi_recv_frame. rewrite Hd. replace (n >? 0) with true by lia. unfold drop_piece.
  rewrite Hd, W2. unfold sizeof_dsi_header in *. rewrite run_read by lia. fold bs. simpl.
  eexists _, _. split; [reflexivity|]. split; [done|]. split; [apply piece_rest|].
  assert (Hl : zlen bs <= Z.min n size).
  { unfold bs. pose proof (piece_len k (Z.min n size) rest). lia. }
  split; [|split; [|done]]; simpl.
  - split; [|done]. split; simpl; [|done..]. rewrite zlen_store; lia.
  - apply store_bytes_ok; [done|by apply piece_ok].
Qed.

Lemma header_call size gen sv k rest g :
  live size gen sv k rest -> at_gather size gen (rx sv) g -> zlen g < sizeof_dsi_header ->
  let bs := piece k (sizeof_dsi_header - zlen g) rest in
  (zlen (g ++ bs) < sizeof_dsi_header \/ hdr_length (g ++ bs) <> 0) ->
  call_to sv k rest bs (fun r => at_gather size gen r (g ++ bs)) (count_rx (zlen bs) (erase (ses sv))) [].
Proof.
  intros Hlv (Hwf & Hd & Hs & Hr & Ht & Hsz) Hn bs Hmore. apply (recv_frame_call size gen); [done|]. unfold ends.
  destruct Hlv as [_ _ _ Hb _ Hrest]. pose proof Hwf as [W1 W2 W3 W4].
  assert (Hl : zlen bs <= sizeof_dsi_header - zlen g).
  { unfold bs. pose proof (piece_len k (sizeof_dsi_header - zlen g) rest). lia. }
  unfold afpc_dsi_recv_frame. rewrite Hd, Hr. change (0 >? 0) with false. cbv iota.
  replace (zlen g <? sizeof_dsi_header) with true by lia.
  rewrite run_read by lia. fold bs. cbn [data_read received incoming_buffer].
  assert (Htk : take (Z.to_nat (zlen (g ++ bs))) (store (incoming_buffer (rx sv)) (zlen g) bs) = g ++ bs).
  { rewrite zlen_app, take_store by (pose proof (zlen_nonneg g); lia). by rewrite Ht. }
  assert (Hcond : ((zlen g + zlen bs =? sizeof_dsi_header)
      && (hdr_length (store (incoming_buffer (rx sv)) (zlen g) bs) =? 0))%bool = false).
  { rewrite zlen_app in Hmore, Htk. destruct (Z.eqb_spec (zlen g + zlen bs) sizeof_dsi_header) as [E|E]; [|done].
    simpl. apply Z.eqb_neq. rewrite E in Htk.
    destruct (hdr_eq _ _ Htk) as (_ & _ & _ & _ & ->); [by rewrite zlen_app|]. lia. }
  rewrite Hcond. simpl. eexists _, _. split; [reflexivity|]. split; [done|]. split; [apply piece_rest|].
  split; [|split; [|done]]; simpl.
  - pose proof (zlen_nonneg g). split; [split; simpl; [|done..]; rewrite zlen_store; lia|].
    rewrite zlen_app in *. simpl. repeat split; try done. lia.
  - apply store_bytes_ok; [done|by apply piece_ok].
Qed.

(** *** The header is whole *)

Definition same_rx (r' r : rx_state) : Prop := r' = r \/ r' = count_runt r.

Lemma gather_same size gen r r' g : same_rx r' r -> at_gather size gen r g -> at_gather size gen r' g.
Proof. intros [->| ->] (Hwf & H); [by split|]. split; [|done]. by destruct Hwf. Qed.

Lemma stream_same size gen r r' h n : same_rx r' r -> at_stream size gen r h n -> at_stream size gen r' h n.
Proof. intros [->| ->] (Hwf & H); [by split|]. split; [|done]. by destruct Hwf. Qed.

Lemma gotenough_spec sv h pl :
  take (Z.to_nat sizeof_dsi_header) (incoming_buffer (rx sv)) = h -> frame_ok h pl ->
  let t := target (erase (ses sv)) h in
  exists sv' f,
    same_rx (rx sv') (rx sv) /\ erase (ses sv') = erase (ses sv)
    /\ match t with
       | Some (p, r) =>
           exists r', heap (requests (ses sv')) !! p = Some r' /\ set_receiving false r' = r
           /\ gotenough handler afp_reply attention sv
              = if is_read r then stream_piece handler afp_reply attention sv' f p r' (hdr_error_code h)
                else payload_piece handler afp_reply attention sv' f (Some p) false (hdr_error_code h)
       | None =>
           gotenough handler afp_reply attention sv
           = payload_piece handler afp_reply attention sv' f None
               (negb ((hdr_flags h =? DSI_REQUEST) && server_request h)) 0
       end.
Proof.
  intros Hb [Hh Hlen Hfl Hcmd] t.
  destruct (hdr_eq _ _ Hb Hh) as (Ef & Ec & _ & Ee & _).
  destruct (classify_spec sv h Hb Hh Hfl) as (sv' & f & Hcl & Hrx & Her & Hreq).
  exists sv', f. split; [done|]. split; [done|]. fold t in Hcl, Hreq.
  unfold gotenough. rewrite Ef, Ec, Ee, Hcmd, Hcl.
  replace ((hdr_flags h =? DSI_REQUEST) || (hdr_flags h =? DSI_REPLY))%bool with true
    by (symmetry; apply orb_true_iff; rewrite !Z.eqb_eq; done).
  destruct t as [[p r]|]; cbn [fmap option_fmap option_map fst mbind option_bind negb orb]; [|done].
  destruct (Hreq p r eq_refl) as (r' & Hp & Hr'). exists r'. split; [done|]. split; [done|].
  rewrite Hp. cbn. rewrite <- Hr'. done.
Qed.

(** *** Frames gathered in the incoming buffer *)

(** A request that does not stream its reply. *)
Definition not_streamed (t : option (Z * dsi_request)) : Prop :=
  forall p r, t = Some (p, r) -> is_read r = false.

(** What the receiver does with a frame it has whole. *)
Definition gathered_effect (s : session) (h pl : list Z) : session * list event :=
  match target s h with
  | Some t => dispatch s (h ++ pl) (Some t)
  | None => if (hdr_flags h =? DSI_REQUEST) && server_request h then dispatch s (h ++ pl) None else (s, [])
  end.

Lemma effect_gathered size s h pl :
  not_streamed (target s h) -> zlen pl <= size - sizeof_dsi_header ->
  effect size s h pl = gathered_effect s h pl.
Proof.
  intros Hn Hl. unfold DsiFraming.effect, gathered_effect.
  destruct (target s h) as [[p r]|] eqn:E.
  - rewrite (Hn p r eq_refl). by replace (zlen pl >? size - sizeof_dsi_header) with false by lia.
  - replace (zlen pl <=? size - sizeof_dsi_header) with true by lia. by rewrite andb_true_r.
Qed.

Lemma target_count n s h : target (count_rx n s) h = target s h.
Proof. done. Qed.

Lemma serve_spec size gen sv h pl f t runt :
  frame_ok h pl -> gathered size gen (rx sv) h pl ->
  t = target (erase (ses sv)) h -> not_streamed t ->
  (forall p r, t = Some (p, r) ->
     exists r', heap (requests (ses sv)) !! p = Some r' /\ set_receiving false r' = r) ->
  runt = match t with Some _ => false | None => negb ((hdr_flags h =? DSI_REQUEST) && server_request h) end ->
  exists o, (let result := match t with Some _ => hdr_error_code h | None => 0 end in
             if runt then Done (after_processing sv f (fst <$> t) result [])
             else process sv f (fst <$> t) result) = Done o
    /\ ret o = 0 /\ idle size gen (rx (state o)) /\ bytes_ok (incoming_buffer (rx (state o)))
    /\ (erase (ses (state o)), events o) = gathered_effect (erase (ses sv)) h pl.
Proof.
  intros Hfr Hg Ht Hns Hreq Hrunt. unfold gathered_effect. rewrite <- Ht. destruct runt.
  - destruct t as [[p r]|]; [done|]. cbv zeta iota.
    destruct (after_processing_spec size gen sv h pl f None 0 [] Hfr Hg) as (H1 & H2 & H3 & H4 & H5).
    eexists. split; [reflexivity|]. split; [done|]. split; [done|]. split; [done|].
    rewrite H4, H5. symmetry in Hrunt. apply negb_true_iff in Hrunt. by rewrite Hrunt.
  - destruct (process_spec size gen sv h pl f t Hfr Hg) as (o & Ho & H1 & H2 & H3 & H4).
    + intros p r E. split; [by apply (Hns p r)|by apply Hreq].
    + intros ->. symmetry in Hrunt. apply negb_false_iff in Hrunt. by bool_to_prop.
    + cbv zeta iota. exists o. split; [done|]. split; [done|]. split; [done|]. split; [done|].
      rewrite H4. destruct t; [done|]. symmetry in Hrunt. apply negb_false_iff in Hrunt. by rewrite Hrunt.
Qed.

Lemma gotenough_payload sv h pl :
  take (Z.to_nat sizeof_dsi_header) (incoming_buffer (rx sv)) = h -> frame_ok h pl ->
  let t := target (erase (ses sv)) h in
  not_streamed t ->
  exists sv' f runt,
    same_rx (rx sv') (rx sv) /\ erase (ses sv') = erase (ses sv)
    /\ runt = match t with Some _ => false | None => negb ((hdr_flags h =? DSI_REQUEST) && server_request h) end
    /\ (forall p r, t = Some (p, r) ->
         exists r', heap (requests (ses sv')) !! p = Some r' /\ set_receiving false r' = r)
    /\ gotenough handler afp_reply attention sv
       = payload_piece handler afp_reply attention sv' f (fst <$> t) runt
           (match t with Some _ => hdr_error_code h | None => 0 end).
Proof.
  intros Hb Hfr t Hns. destruct (gotenough_spec sv h pl Hb Hfr) as (sv' & f & Hrx & He & Hm).
  fold t in Hm. destruct t as [[p r]|] eqn:Et.
  - destruct Hm as (r' & Hp & Hr' & Hg). rewrite (Hns p r eq_refl) in Hg.
    exists sv', f, false. split; [done|]. split; [done|]. split; [done|]. split; [|done].
    intros ? ? [= <- <-]. eauto.
  - by exists sv', f, (negb ((hdr_flags h =? DSI_REQUEST) && server_request h)).
Qed.

Lemma erase_requests s s' : erase s = erase s' -> erase_q (requests s) = erase_q (requests s').
Proof. intros H. by apply (f_equal requests) in H. Qed.

Lemma streamed_or_not t : (exists p r, t = Some (p, r) /\ is_read r = true) \/ not_streamed t.
Proof.
  destruct t as [[p r]|]; [|by right]. destruct (is_read r) eqn:E; [left; eauto|].
  right. by intros ? ? [= <- <-].
Qed.

(** A header that announces no payload is a whole frame. *)
Lemma gotenough_whole size gen sv h :
  gathered size gen (rx sv) h [] -> frame_ok h [] ->
  exists o, gotenough handler afp_reply attention sv = Done o
    /\ ret o = 0 /\ idle size gen (rx (state o)) /\ bytes_ok (incoming_buffer (rx (state o)))
    /\ (erase (ses (state o)), events o) = effect size (erase (ses sv)) h [].
Proof.
  intros Hg Hfr. pose proof Hg as [(Hwf & Hd & Hs & Hr & Ht & Hsz) Hok].
  pose proof Hfr as [Hh Hlen _ _]. pose proof Hwf as [_ _ W3 _].
  rewrite app_nil_r, Hh in Hr, Ht.
  destruct (hdr_eq _ _ Ht Hh) as (_ & _ & _ & _ & Hlb).
  destruct (streamed_or_not (target (erase (ses sv)) h)) as [(p & r & Hp & Hread)|Hns].
  - destruct (gotenough_spec sv h [] Ht Hfr) as (sv' & f & Hrx & He & Hm). rewrite Hp in Hm.
    destruct Hm as (r' & Hp' & Hr' & ->). rewrite Hread. unfold stream_piece.
    assert (data_read (rx sv') = sizeof_dsi_header /\ hdr_length (incoming_buffer (rx sv')) = 0) as [-> ->]
      by (destruct Hrx as [->| ->]; simpl; by rewrite Hlb, Hlen, zlen_nil).
    destruct (out_label_spec (Server (progress 0 (discard_remaining (rx sv')) (stream_read (rx sv')) (rx sv')) (ses sv'))
                f (Some (p, r)) (hdr_error_code h) []) as (H1 & H2 & H3 & H4).
    cbn [fmap option_fmap option_map fst] in *. eexists. split; [reflexivity|]. split; [done|]. rewrite H2.
    split; [|split; [destruct Hrx as [->| ->]; done|]].
    + apply at_drop_0. destruct Hrx as [->| ->]; destruct Hwf; by repeat split.
    + rewrite H3, H4. unfold DsiFraming.effect. by rewrite Hp, Hread, <- He.
  - destruct (gotenough_payload sv h [] Ht Hfr Hns) as (sv' & f & runt & Hrx & He & Hrunt & Hreq & ->).
    unfold payload_piece.
    assert (data_read (rx sv') = sizeof_dsi_header /\ hdr_length (incoming_buffer (rx sv')) = 0) as [-> ->]
      by (destruct Hrx as [->| ->]; simpl; by rewrite Hlb, Hlen, zlen_nil).
    rewrite effect_gathered, <- He by (rewrite ?zlen_nil; done || lia).
    apply serve_spec; rewrite ?He; try done. split; [|destruct Hrx as [->| ->]; done].
    eapply gather_same; [done|apply Hg].
Qed.

Lemma header_call_whole size gen sv k rest g :
  live size gen sv k rest -> at_gather size gen (rx sv) g -> zlen g < sizeof_dsi_header ->
  let bs := piece k (sizeof_dsi_header - zlen g) rest in
  frame_ok (g ++ bs) [] ->
  let e := effect size (count_rx (zlen bs) (erase (ses sv))) (g ++ bs) [] in
  call_to sv k rest bs (idle size gen) (fst e) (snd e).
Proof.
  intros Hlv Hga Hn bs Hfr e. apply (recv_frame_call size gen); [done|]. unfold ends.
  destruct Hlv as [_ _ _ Hb _ Hrest]. pose proof Hga as (Hwf & Hd & Hs & Hr & Ht & Hsz).
  pose proof Hwf as [W1 W2 W3 W4]. pose proof Hfr as [Hh Hlen _ _].
  assert (Hl : zlen g + zlen bs = sizeof_dsi_header) by (by rewrite zlen_app in Hh).
  pose proof (zlen_nonneg g) as Hg0. set (b' := store (incoming_buffer (rx sv)) (zlen g) bs).
  assert (Htk : take (Z.to_nat sizeof_dsi_header) b' = g ++ bs).
  { unfold b'. rewrite <- Hl, take_store by lia. by rewrite Ht. }
  unfold afpc_dsi_recv_frame. rewrite Hd, Hr. change (0 >? 0) with false. cbv iota.
  replace (zlen g <? sizeof_dsi_header) with true by lia.
  rewrite run_read by lia. fold bs. cbn [data_read received incoming_buffer]. fold b'.
  destruct (hdr_eq _ _ Htk Hh) as (_ & _ & _ & _ & Hlb).
  rewrite Hlb, Hlen, Hl, zlen_nil, Z.eqb_refl. cbn [Z.eqb andb].
  set (sv1 := Server (received (zlen g) bs sizeof_dsi_header (rx sv)) (count_rx (zlen bs) (ses sv))).
  destruct (gotenough_whole size gen sv1 (g ++ bs)) as (o & Ho & H1 & H2 & H3 & H4); [|done|].
  { split; [|apply store_bytes_ok; [done|by apply piece_ok]]. rewrite app_nil_r.
    split; [split; simpl; [rewrite zlen_store; lia|done..]|]. rewrite Hh. repeat split; try done. lia. }
  rewrite Ho. simpl. eexists _, _. split; [reflexivity|]. split; [done|]. split; [apply piece_rest|].
  split; [done|]. split; [done|]. unfold e. change (count_rx (zlen bs) (erase (ses sv))) with (erase (ses sv1)).
  by rewrite <- H4.
Qed.

(** Where a piece of the stream falls in the frame. *)
Lemma piece_prefix (fr more : list Z) n k m :
  0 <= n <= zlen fr -> 0 < k -> 0 <= m <= zlen fr - n ->
  let bs := piece k m (drop (Z.to_nat n) fr ++ more) in
  bs = take (Z.to_nat (zlen bs)) (drop (Z.to_nat n) fr) /\ zlen bs = Z.min k m
  /\ take (Z.to_nat n) fr ++ bs = take (Z.to_nat (n + zlen bs)) fr
  /\ drop (length bs) (drop (Z.to_nat n) fr ++ more) = drop (Z.to_nat (n + zlen bs)) fr ++ more.
Proof.
  intros Hn Hk Hm bs. assert (Hb : bs = take (Z.to_nat (Z.min k m)) (drop (Z.to_nat n) fr)).
  { unfold bs, piece. rewrite take_app_le; [done|]. rewrite length_drop. unfold zlen in *. lia. }
  assert (Hz : zlen bs = Z.min k m) by (rewrite Hb, zlen_take, zlen_drop; lia).
  rewrite Hz. split; [done|]. split; [done|]. split.
  - rewrite Hb. rewrite Z2Nat.inj_add by lia. by rewrite take_take_drop.
  - rewrite drop_app_le by (unfold zlen in *; rewrite length_drop; lia).
    rewrite drop_drop. do 2 f_equal. unfold zlen in *. lia.
Qed.

(** A receiver with a whole header goes to the label gotenough. *)
Lemma body_call size gen sv k rest used P s' evs :
  live size gen sv k rest -> discard_remaining (rx sv) = 0 -> sizeof_dsi_header <= data_read (rx sv) ->
  ends (gotenough handler afp_reply attention sv) k rest used P s' evs -> call_to sv k rest used P s' evs.
Proof.
  intros Hlv Hd Hr Hx. apply (recv_frame_call size gen); [done|]. unfold afpc_dsi_recv_frame.
  rewrite Hd. change (0 >? 0) with false. cbv iota.
  by replace (data_read (rx sv) <? sizeof_dsi_header) with false by lia.
Qed.

Lemma done_ends o rest s' evs P k :
  ret o = 0 -> P (rx (state o)) -> bytes_ok (incoming_buffer (rx (state o))) ->
  (erase (ses (state o)), events o) = (s', evs) -> ends (Done o) k rest [] P s' evs.
Proof. intros. simplify_eq. exists o, rest. by repeat split. Qed.

Lemma read_ends n c k rest P s' evs :
  0 < n -> ends (c (ReadBytes (piece k n rest))) k (drop (length (piece k n rest)) rest) [] P s' evs ->
  ends (afpc_dsi_read n c) k rest (piece k n rest) P s' evs.
Proof.
  intros Hn (o & rest' & Hrun & H1 & H2 & H3). exists o, rest'. rewrite run_read by done.
  split; [done|]. split; [done|]. split; [|done]. rewrite (piece_rest k n rest) at 1. by rewrite H2.
Qed.

(** The next piece of a frame that is gathered. *)
Lemma payload_step size gen sv f t runt k h pl g more :
  let fr := h ++ pl in
  let rest := drop (Z.to_nat (zlen g)) fr ++ more in
  at_gather size gen (rx sv) g -> bytes_ok (incoming_buffer (rx sv)) -> bytes_ok rest -> 0 < k ->
  frame_ok h pl -> g = take (Z.to_nat (zlen g)) fr -> sizeof_dsi_header <= zlen g < zlen fr ->
  t = target (erase (ses sv)) h -> not_streamed t -> zlen pl <= size - sizeof_dsi_header ->
  (forall p r, t = Some (p, r) ->
     exists r', heap (requests (ses sv)) !! p = Some r' /\ set_receiving false r' = r) ->
  runt = match t with Some _ => false | None => negb ((hdr_flags h =? DSI_REQUEST) && server_request h) end ->
  let bs := piece k (zlen fr - zlen g) rest in
  let s' := count_rx (zlen bs) (erase (ses sv)) in
  let c := payload_piece handler afp_reply attention sv f (fst <$> t) runt
             (match t with Some _ => hdr_error_code h | None => 0 end) in
  if zlen g + zlen bs =? zlen fr
  then ends c k rest bs (idle size gen) (fst (effect size s' h pl)) (snd (effect size s' h pl))
  else ends c k rest bs (fun r => at_gather size gen r (g ++ bs)) s' [].
Proof.
  intros fr rest Hga Hb Hrest Hk Hfr Hg Hlen Ht Hns Hfit Hreq Hrunt bs s' c.
  pose proof Hga as (Hwf & Hd & Hs & Hr & Htk & Hsz). pose proof Hfr as [Hh Hl _ _].
  pose proof Hwf as [W1 W2 W3 W4]. pose proof (zlen_nonneg g). pose proof (zlen_nonneg pl).
  assert (Hfrl : zlen fr = sizeof_dsi_header + zlen pl) by (unfold fr; rewrite zlen_app; lia).
  assert (H16 : take (Z.to_nat sizeof_dsi_header) (incoming_buffer (rx sv)) = h).
  { rewrite <- Hh. eapply take_prefix; [done|exact Hg|lia]. }
  destruct (piece_prefix fr more (zlen g) k (zlen fr - zlen g)) as (_ & Hbz & Hgb & _); [lia..|].
  fold rest bs in Hbz, Hgb. rewrite <- Hg in Hgb.
  destruct (hdr_eq _ _ H16 Hh) as (_ & _ & _ & _ & Hlb).
  unfold c, payload_piece. rewrite Hlb, Hl, Hr, Hs, W2.
  replace ((zlen g =? sizeof_dsi_header) && (zlen pl =? 0))%bool with false by lia.
  change (0 >? 0) with false. cbv iota.
  replace (zlen pl >? size - sizeof_dsi_header) with false by lia.
  replace (zlen g - sizeof_dsi_header >? zlen pl) with false by lia.
  replace (zlen pl - (zlen g - sizeof_dsi_header) =? 0) with false by lia.
  replace (Z.min (zlen pl - (zlen g - sizeof_dsi_header)) (size - zlen g)) with (zlen fr - zlen g) by lia.
  set (sv1 := Server (received (zlen g) bs (zlen g + zlen bs) (rx sv)) (count_rx (zlen bs) (ses sv))).
  assert (Hga1 : at_gather size gen (rx sv1) (g ++ bs)).
  { split; [split; simpl; [rewrite zlen_store; lia|done..]|]. rewrite zlen_app. simpl.
    repeat split; try done; [rewrite take_store by lia; by rewrite Htk|lia]. }
  assert (Hb1 : bytes_ok (incoming_buffer (rx sv1))) by (apply store_bytes_ok; [done|by apply piece_ok]).
  assert (Hl1 : hdr_length (incoming_buffer (rx sv1)) = zlen pl).
  { destruct Hga1 as (_ & _ & _ & _ & Htk1 & _). rewrite <- Hl.
    refine (proj2 (proj2 (proj2 (proj2 (hdr_eq _ _ _ Hh))))). rewrite <- Hh.
    eapply take_prefix; [exact Htk1|exact Hgb|rewrite zlen_app; pose proof (zlen_nonneg bs); lia]. }
  case_if; bool_to_prop.
  - apply read_ends; [lia|]. cbv beta iota zeta. fold bs sv1.
    change (incoming_buffer (received (zlen g) bs (zlen g + zlen bs) (rx sv))) with (incoming_buffer (rx sv1)).
    rewrite Hl1. cbn [data_read received].
    replace (zlen g + zlen bs <? zlen pl + sizeof_dsi_header) with false by lia.
    unfold s'. rewrite <- erase_count. change (count_rx (zlen bs) (ses sv)) with (ses sv1).
    rewrite effect_gathered; [|rewrite Ht in Hns; exact Hns|done].
    destruct (serve_spec size gen sv1 h pl f t runt) as (o & Ho & H1 & H2 & H3 & H4); try done.
    { split; [|done]. fold fr. rewrite Hgb in Hga1. rewrite E in Hga1.
      rewrite firstn_all2 in Hga1 by (unfold zlen; lia). done. }
    cbv zeta in Ho. rewrite Ho. apply done_ends; try done. rewrite H4. by destruct (gathered_effect _ _ _).
  - apply read_ends; [lia|]. cbv beta iota zeta. fold bs sv1.
    change (incoming_buffer (received (zlen g) bs (zlen g + zlen bs) (rx sv))) with (incoming_buffer (rx sv1)).
    rewrite Hl1. cbn [data_read received].
    replace (zlen g + zlen bs <? zlen pl + sizeof_dsi_header) with true by lia.
    by apply done_ends.
Qed.

Lemma same_header r' r h :
  same_rx r' r -> take (Z.to_nat sizeof_dsi_header) (incoming_buffer r) = h ->
  incoming_buffer r' = incoming_buffer r /\ data_read r' = data_read r /\ stream_read r' = stream_read r
  /\ discard_remaining r' = discard_remaining r /\ bufsize r' = bufsize r.
Proof. by intros [->| ->]. Qed.

Lemma gather_call size gen sv k h pl g more :
  let fr := h ++ pl in
  let rest := drop (Z.to_nat (zlen g)) fr ++ more in
  live size gen sv k rest -> at_gather size gen (rx sv) g -> frame_ok h pl ->
  g = take (Z.to_nat (zlen g)) fr -> sizeof_dsi_header <= zlen g < zlen fr ->
  not_streamed (target (erase (ses sv)) h) -> zlen pl <= size - sizeof_dsi_header ->
  let bs := piece k (zlen fr - zlen g) rest in
  let s' := count_rx (zlen bs) (erase (ses sv)) in
  if zlen g + zlen bs =? zlen fr
  then call_to sv k rest bs (idle size gen) (fst (effect size s' h pl)) (snd (effect size s' h pl))
  else call_to sv k rest bs (fun r => at_gather size gen r (g ++ bs)) s' [].
Proof.
  intros fr rest Hlv Hga Hfr Hg Hlen Hns Hfit bs s'. pose proof Hlv as [_ _ _ Lb Lk Lrest].
  pose proof Hga as (_ & Hd & _ & Hr & Htk & _). pose proof Hfr as [Hh _ _ _].
  assert (H16 : take (Z.to_nat sizeof_dsi_header) (incoming_buffer (rx sv)) = h).
  { rewrite <- Hh. eapply take_prefix; [done|exact Hg|lia]. }
  destruct (gotenough_payload sv h pl H16 Hfr Hns) as (sv' & f & runt & Hrx & He & Hrunt & Hreq & Hgo).
  destruct (same_header _ _ _ Hrx H16) as (Eb & _).
  pose proof (payload_step size gen sv' f (target (erase (ses sv)) h) runt k h pl g more) as Hstep.
  cbv zeta in Hstep. rewrite Eb, He in Hstep. fold fr rest bs s' in Hstep.
  specialize (Hstep (gather_same _ _ _ _ _ Hrx Hga) Lb Lrest Lk Hfr Hg Hlen eq_refl Hns Hfit Hreq Hrunt).
  rewrite <- Hgo in Hstep. case_if; (eapply body_call; [done|done|lia|exact Hstep]).
Qed.

(** A frame longer than the buffer, within the quantum: its request fails at
    once, and its payload is dropped. *)
Lemma oversize_call size gen sv k rest h pl :
  live size gen sv k rest -> at_gather size gen (rx sv) h -> frame_ok h pl ->
  not_streamed (target (erase (ses sv)) h) ->
  size - sizeof_dsi_header < zlen pl <= quantum (ses sv) ->
  call_to sv k rest [] (fun r => at_drop size gen r (zlen pl))
    (signal_opt (target (erase (ses sv)) h) (- EIO) (erase (ses sv))) [].
Proof.
  intros Hlv Hga Hfr Hns Hbig. pose proof Hlv as [_ _ _ Lb Lk Lrest].
  pose proof Hga as (Hwf & Hd & Hs & Hr & Htk & _). pose proof Hfr as [Hh Hl _ _]. rewrite Hh in Hr, Htk.
  pose proof Hwf as [W1 W2 W3 W4].
  eapply body_call; [done|done|lia|].
  destruct (gotenough_payload sv h pl Htk Hfr Hns) as (sv' & f & runt & Hrx & He & _ & _ & ->).
  destruct (same_header _ _ _ Hrx Htk) as (Eb & Er & Es & Ed & Ez).
  destruct (hdr_eq _ _ Htk Hh) as (_ & _ & _ & _ & Hlb).
  assert (Hq : quantum (ses sv') = quantum (ses sv)) by (by apply (f_equal quantum) in He).
  unfold payload_piece. rewrite Eb, Hlb, Hl, Er, Hr, Es, Hs, Ez, W2, Hq, Z.eqb_refl.
  replace (zlen pl =? 0) with false by lia. cbn [andb]. change (0 >? 0) with false. cbv iota.
  replace (zlen pl >? size - sizeof_dsi_header) with true by lia.
  replace (zlen pl >? quantum (ses sv)) with false by lia.
  set (t := target (erase (ses sv)) h).
  match goal with |- ends (Done (out_label ?s0 _ _ _ _)) _ _ _ _ _ _ =>
    destruct (out_label_spec s0 f t (- EIO) []) as (H1 & H2 & H3 & H4) end.
  apply done_ends; rewrite ?H2, ?H3, ?H4; cbn [rx ses progress incoming_buffer]; try done.
  - split; [by destruct Hrx as [->| ->]; destruct Hwf|]. simpl. repeat split; lia.
  - by rewrite Eb.
  - by rewrite He.
Qed.

(** The request of a read left the queue while its reply streamed: the rest of
    the payload is dropped. *)
Lemma gone_call size gen sv k rest h pl n :
  live size gen sv k rest -> at_stream size gen (rx sv) h n -> frame_ok h pl -> n < zlen pl ->
  not_streamed (target (erase (ses sv)) h) ->
  let t := target (erase (ses sv)) h in
  call_to sv k rest [] (fun r => at_drop size gen r (zlen pl - n))
    (signal_opt t (match t with Some _ => hdr_error_code h | None => 0 end) (erase (ses sv))) [].
Proof.
  intros Hlv (Hwf & Hd & Hs & Hn0 & Hr & Htk) Hfr Hn Hns t. pose proof Hlv as [_ _ _ Lb Lk Lrest].
  pose proof Hfr as [Hh Hl _ _]. eapply body_call; [done|done|lia|].
  destruct (gotenough_payload sv h pl Htk Hfr Hns) as (sv' & f & runt & Hrx & He & _ & _ & ->).
  destruct (same_header _ _ _ Hrx Htk) as (Eb & Er & Es & Ed & Ez).
  destruct (hdr_eq _ _ Htk Hh) as (_ & _ & _ & _ & Hlb).
  unfold payload_piece. rewrite Eb, Hlb, Hl, Er, Hr, Es, Hs, Z.eqb_refl.
  replace (zlen pl =? 0) with false by lia. cbn [andb]. replace (n >? 0) with true by lia. fold t.
  match goal with |- ends (Done (out_label ?s0 _ _ ?c _)) _ _ _ _ _ _ =>
    destruct (out_label_spec s0 f t c []) as (H1 & H2 & H3 & H4) end.
  apply done_ends; rewrite ?H2, ?H3, ?H4; cbn [rx ses progress incoming_buffer]; try done.
  - split; [by destruct Hrx as [->| ->]; destruct Hwf|]. simpl. repeat split; lia.
  - by rewrite Eb.
  - by rewrite He.
Qed.

(** *** Replies that stream into a read's buffer *)

(** The receiver has the header [h] and has streamed [n] bytes, 0 included. *)
Definition streaming (size gen : Z) (r : rx_state) (h : list Z) (n : Z) : Prop :=
  rx_wf size gen r /\ discard_remaining r = 0 /\ stream_read r = n
  /\ data_read r = sizeof_dsi_header /\ take (Z.to_nat sizeof_dsi_header) (incoming_buffer r) = h.

(** The buffer of the read has room for the whole reply, and [n] bytes so far. *)
Definition room (r : dsi_request) (b : afp_rx_buffer) (n len : Z) : Prop :=
  read_buffer r = Some b /\ rx_size b = n /\ len <= rx_maxsize b < 2 ^ 32
  /\ zlen (rx_data b) = rx_maxsize b.

Definition stream_into (p : Z) (b : afp_rx_buffer) (bs : list Z) (s : session) : session :=
  set_requests (update (set_read_buffer
    (RxBuffer (rx_size b + zlen bs) (rx_maxsize b) (store (rx_data b) (rx_size b) bs))) p (requests s)) s.

Lemma erase_stream p b bs s : erase (stream_into p b bs s) = stream_into p b bs (erase s).
Proof.
  unfold erase, stream_into, set_requests. simpl. by rewrite erase_update by apply erase_buffer.
Qed.

Lemma stream_call size gen sv k h pl n p r b more :
  let rest := drop (Z.to_nat n) pl ++ more in
  live size gen sv k rest -> streaming size gen (rx sv) h n -> frame_ok h pl -> 0 <= n < zlen pl ->
  target (erase (ses sv)) h = Some (p, r) -> is_read r = true -> room r b n (zlen pl) ->
  let bs := piece k (zlen pl - n) rest in
  let s' := count_rx (zlen bs) (stream_into p b bs (erase (ses sv))) in
  if n + zlen bs =? zlen pl
  then call_to sv k rest bs (idle size gen) (signal_opt (Some (p, r)) (hdr_error_code h) s') []
  else call_to sv k rest bs (fun r => at_stream size gen r h (n + zlen bs)) s' [].
Proof.
  intros rest Hlv (Hwf & Hd & Hs & Hr & Htk) Hfr Hn Ht Hread (Hb & Hsz & Hmax & _) bs s'.
  pose proof Hlv as [_ _ _ Lb Lk Lrest]. pose proof Hfr as [Hh Hl _ _].
  destruct (piece_prefix pl more n k (zlen pl - n)) as (_ & Hbz & _); [lia..|]. fold rest bs in Hbz.
  destruct (gotenough_spec sv h pl Htk Hfr) as (sv' & f & Hrx & He & Hm). rewrite Ht in Hm.
  destruct Hm as (r' & Hp & Hr' & Hgo). rewrite Hread in Hgo.
  destruct (same_header _ _ _ Hrx Htk) as (Eb & Er & Es & Ed & Ez).
  destruct (hdr_eq _ _ Htk Hh) as (_ & _ & _ & _ & Hlb).
  assert (Hb' : read_buffer r' = Some b) by (rewrite <- Hb, <- Hr'; done).
  unfold stream_piece in Hgo. rewrite Eb, Hlb, Hl, Er, Hr, Hb', Hsz, Ed, Hd, Es, Hs, Z.eqb_refl in Hgo.
  replace (zlen pl =? 0) with false in Hgo by lia. cbn [andb] in Hgo.
  replace (rx_maxsize b =? 0) with false in Hgo by lia.
  replace ((zlen pl <? n) || (zlen pl >? rx_maxsize b))%bool with false in Hgo by lia.
  replace (Z.min (rx_maxsize b - n) (zlen pl - n)) with (zlen pl - n) in Hgo by lia.
  set (sv1 := stream_into p b bs (ses sv')).
  assert (Hs1 : erase (count_rx (zlen bs) sv1) = s').
  { rewrite erase_count. unfold sv1, s'. by rewrite erase_stream, He. }
  case_if; bool_to_prop; (eapply body_call; [done|done|lia|]); rewrite Hgo; (apply read_ends; [lia|]);
    cbv beta iota zeta; fold bs; cbn [rx_size]; rewrite (u32_small (n + zlen bs)) by lia.
  - replace (zlen pl =? n + zlen bs) with true by lia. rewrite Z.sub_diag. cbn [Z.eqb].
    match goal with |- ends (Done (out_label ?s0 _ _ ?c _)) _ _ _ _ _ _ =>
      destruct (out_label_spec s0 f (Some (p, r)) c []) as (H1 & H2 & H3 & H4) end.
    cbn [fmap option_fmap option_map fst] in *.
    apply done_ends; rewrite ?H2, ?H3, ?H4; cbn [rx ses progress incoming_buffer]; try done.
    + apply at_drop_0. split; [by destruct Hrx as [->| ->]; destruct Hwf|]. by repeat split.
    + by rewrite Eb.
    + rewrite <- Hs1. unfold sv1, stream_into. by rewrite Hsz.
  - replace (zlen pl =? n + zlen bs) with false by lia.
    apply done_ends; cbn [rx ses progress incoming_buffer state events ret]; try done.
    + split; [by destruct Hrx as [->| ->]; destruct Hwf|]. simpl. rewrite Eb. repeat split; try done. lia.
    + by rewrite Eb.
    + rewrite <- Hs1. unfold sv1, stream_into. by rewrite Hsz.
Qed.

(** ** Keeping the place in the stream *)

Lemma read_buffer_set b r : read_buffer (set_read_buffer b r) = Some b.
Proof. unfold read_buffer, set_read_buffer. by destruct (stream_buffer r). Qed.

Lemma is_read_set b r : is_read (set_read_buffer b r) = is_read r.
Proof. unfold is_read, set_read_buffer. by destruct (stream_buffer r). Qed.

Lemma find_waiting_update f p q id :
  (forall r, ignore_replies (f r) = ignore_replies r /\ done_waiting (f r) = done_waiting r
             /\ requestid (f r) = requestid r) ->
  forall ps, find_waiting (heap (update f p q)) id ps = find_waiting (heap q) id ps.
Proof.
  intros Hf ps. induction ps as [|x ps IH]; cbn [find_waiting]; [done|]. rewrite IH.
  replace (awaits (heap (update f p q)) id x) with (awaits (heap q) id x); [done|].
  unfold awaits. rewrite update_lookup. case_decide; [subst|done].
  destruct (heap q !! p) as [r|]; [|done]. simpl. destruct (Hf r) as (-> & -> & ->). done.
Qed.

Lemma target_stream p b bs s h r :
  target s h = Some (p, r) ->
  target (stream_into p b bs s) h
  = Some (p, set_read_buffer (RxBuffer (rx_size b + zlen bs) (rx_maxsize b) (store (rx_data b) (rx_size b) bs)) r).
Proof.
  unfold target. case_if; [|done]. cbn [stream_into requests set_requests command_requests update connection_generation].
  change (alter ?f p (heap (requests s))) with (heap (update f p (requests s))).
  rewrite find_waiting_update by (intros r0; unfold set_read_buffer; by destruct (stream_buffer r0)).
  destruct (find_waiting _ _ _) as [p0|]; [|done].
  destruct (heap (requests s) !! p0) as [r0|] eqn:E0; [|done]. case_if; [|done]. intros [= <- <-].
  rewrite update_lookup, decide_True, E0 by done. cbn [fmap option_fmap option_map].
  replace (request_generation (set_read_buffer _ r0)) with (request_generation r0)
    by (unfold set_read_buffer; by destruct (stream_buffer r0)).
  rewrite E1. done.
Qed.

(** If the frame answers a read, the read's buffer has room for it, and [n]
    bytes of it. *)
Definition reads_ok (s : session) (h pl : list Z) (n : Z) : Prop :=
  forall p r, target s h = Some (p, r) -> is_read r = true -> exists b, room r b n (zlen pl).

(** The receiver has taken [got] bytes of the frame off the stream. *)
Record in_frame (size gen : Z) (sv : server) (h pl : list Z) (got : Z) : Prop := {
  if_fd : 0 <= fd (ses sv);
  if_gen : connection_generation (ses sv) = gen;
  if_bytes : bytes_ok (incoming_buffer (rx sv));
  if_got : 0 <= got < zlen (h ++ pl);
  if_fits : frame_fits size (ses sv) pl;
  if_place :
    (at_gather size gen (rx sv) (take (Z.to_nat got) (h ++ pl)) /\ reads_ok (erase (ses sv)) h pl 0
     /\ (got <= sizeof_dsi_header
         \/ zlen pl <= size - sizeof_dsi_header /\ not_streamed (target (erase (ses sv)) h)))
    \/ (at_stream size gen (rx sv) h (got - sizeof_dsi_header)
        /\ reads_ok (erase (ses sv)) h pl (got - sizeof_dsi_header))
    \/ at_drop size gen (rx sv) (zlen (h ++ pl) - got) }.

Lemma in_frame_wf size gen sv h pl got : in_frame size gen sv h pl got -> rx_wf size gen (rx sv).
Proof. by intros [_ _ _ _ _ [[[H _] _]|[[[H _] _]|[H _]]]]. Qed.

Lemma in_frame_live size gen sv h pl got k more :
  in_frame size gen sv h pl got -> 0 < k -> bytes_ok (h ++ pl ++ more) ->
  live size gen sv k (drop (Z.to_nat got) (h ++ pl) ++ more).
Proof.
  intros Hin Hk Hb. pose proof (in_frame_wf _ _ _ _ _ _ Hin). destruct Hin. split; try done.
  rewrite app_assoc in Hb. apply bytes_ok_app in Hb as [H1 H2]. apply bytes_ok_app.
  split; [by apply bytes_ok_drop|done].
Qed.

(** What one call leads to, from inside a frame. *)
Definition call_result (size gen : Z) (sv : server) (k : Z) (h pl more : list Z) (got : Z) : Prop :=
  let fr := h ++ pl in
  exists o got', run_io (recv sv) k (drop (Z.to_nat got) fr ++ more) = (o, drop (Z.to_nat got') fr ++ more)
    /\ ret o = 0 /\ got <= got' <= zlen fr
    /\ (got' = got -> at_drop size gen (rx (state o)) (zlen fr - got) /\ discard_remaining (rx sv) = 0)
    /\ (got' < zlen fr -> in_frame size gen (state o) h pl got')
    /\ (got' = zlen fr -> idle size gen (rx (state o))).

Lemma session_fields s s' :
  erase s = s' -> fd s = fd s' /\ connection_generation s = connection_generation s' /\ quantum s = quantum s'.
Proof. by intros <-. Qed.

(** A call that ends inside the frame. *)
Lemma call_inside size gen sv k h pl more got m used P s' evs :
  let fr := h ++ pl in let rest := drop (Z.to_nat got) fr ++ more in
  in_frame size gen sv h pl got -> 0 < k -> call_to sv k rest used P s' evs ->
  used = piece k m rest -> 0 <= m <= zlen fr - got -> got + zlen used < zlen fr ->
  fd s' = fd (ses sv) -> connection_generation s' = gen -> quantum s' = quantum (ses sv) ->
  (zlen used = 0 -> forall r, P r -> at_drop size gen r (zlen fr - got) /\ discard_remaining (rx sv) = 0) ->
  (forall r, P r ->
     (at_gather size gen r (take (Z.to_nat (got + zlen used)) fr) /\ reads_ok s' h pl 0
      /\ (got + zlen used <= sizeof_dsi_header
          \/ zlen pl <= size - sizeof_dsi_header /\ not_streamed (target s' h)))
     \/ (at_stream size gen r h (got + zlen used - sizeof_dsi_header)
         /\ reads_ok s' h pl (got + zlen used - sizeof_dsi_header))
     \/ at_drop size gen r (zlen fr - (got + zlen used))) ->
  call_result size gen sv k h pl more got.
Proof.
  intros fr rest [Hfd Hgen Hb Hgot Hfit Hpl] Hk (o & rest' & Hrun & Hret & Hrest & HP & Hbo & He & _)
    Hu Hm Hlt F1 F2 F3 Hz Hplace.
  destruct (session_fields _ _ He) as (G1 & G2 & G3).
  destruct (piece_prefix fr more got k m) as (_ & _ & _ & Hdrop); [lia..|]. fold rest in Hdrop. rewrite <- Hu in Hdrop.
  assert (rest' = drop (Z.to_nat (got + zlen used)) fr ++ more) as ->.
  { rewrite <- Hdrop, Hrest at 1. by rewrite drop_app_length. }
  pose proof (zlen_nonneg used). unfold call_result. fold fr rest. exists o, (got + zlen used).
  split; [done|]. split; [done|]. split; [lia|]. split; [intros; apply Hz; [lia|done]|].
  split; [|lia]. intros _. split; [by rewrite G1, F1|by rewrite G2|done|fold fr; lia| |].
  - unfold frame_fits in *. by rewrite G3, F3.
  - rewrite He. by apply Hplace.
Qed.

(** A call that ends with the frame. *)
Lemma call_outside size gen sv k h pl more got m used s' evs :
  let fr := h ++ pl in let rest := drop (Z.to_nat got) fr ++ more in
  0 <= got < zlen fr -> 0 < k -> call_to sv k rest used (idle size gen) s' evs ->
  used = piece k m rest -> 0 <= m <= zlen fr - got -> got + zlen used = zlen fr ->
  call_result size gen sv k h pl more got.
Proof.
  intros fr rest Hgot Hk (o & rest' & Hrun & Hret & Hrest & HP & Hbo & He & _) Hu Hm Heq.
  destruct (piece_prefix fr more got k m) as (_ & _ & _ & Hdrop); [lia..|]. fold rest in Hdrop. rewrite <- Hu in Hdrop.
  assert (rest' = drop (Z.to_nat (got + zlen used)) fr ++ more) as ->.
  { rewrite <- Hdrop, Hrest at 1. by rewrite drop_app_length. }
  unfold call_result. fold fr rest. pose proof (zlen_nonneg used).
  exists o, (got + zlen used). split; [done|]. split; [done|]. split; [lia|].
  split; [intros; exfalso; lia|]. split; [lia|done].
Qed.

Lemma call_mono sv k rest used (P Q : rx_state -> Prop) s' evs :
  (forall r, P r -> Q r) -> call_to sv k rest used P s' evs -> call_to sv k rest used Q s' evs.
Proof. intros HPQ (o & rest' & H1 & H2 & H3 & H4 & H5). exists o, rest'. auto 10. Qed.

Lemma zlen_take_frame (fr : list Z) got : 0 <= got <= zlen fr -> zlen (take (Z.to_nat got) fr) = got.
Proof. intros. rewrite zlen_take. lia. Qed.

Lemma drop_in_frame size gen sv k h pl more got :
  in_frame size gen sv h pl got -> 0 < k -> bytes_ok (h ++ pl ++ more) ->
  at_drop size gen (rx sv) (zlen (h ++ pl) - got) -> call_result size gen sv k h pl more got.
Proof.
  intros Hin Hk Hb Hat. pose proof (in_frame_live _ _ _ _ _ _ k more Hin Hk Hb) as Hlv.
  pose proof Hin as [_ Hgen _ Hgot _ _]. pose proof (in_frame_wf _ _ _ _ _ _ Hin) as [_ _ W3 _].
  pose proof (drop_call size gen sv k _ _ Hlv Hat) as Hc. cbv zeta in Hc. specialize (Hc ltac:(lia)).
  unfold sizeof_dsi_header in W3.
  destruct (piece_prefix (h ++ pl) more got k (Z.min (zlen (h ++ pl) - got) size)) as (_ & Hz & _); [lia..|].
  set (rest := drop (Z.to_nat got) (h ++ pl) ++ more) in *.
  set (bs := piece k (Z.min (zlen (h ++ pl) - got) size) rest) in *.
  destruct (Z.eq_dec (got + zlen bs) (zlen (h ++ pl))) as [E|E].
  - eapply (call_outside _ _ _ _ _ _ _ _ (Z.min (zlen (h ++ pl) - got) size) bs);
      [done|done| |reflexivity|lia|exact E].
    eapply call_mono; [|exact Hc]. intros r Hr. apply at_drop_0. replace 0 with (zlen (h ++ pl) - got - zlen bs); [done|lia].
  - eapply call_inside; [done|done|exact Hc|reflexivity|lia|fold rest bs; lia|done..| |].
    + fold rest bs. lia.
    + intros r Hr. right. right. fold rest bs. by replace (zlen (h ++ pl) - (got + zlen bs)) with (zlen (h ++ pl) - got - zlen bs) by lia.
Qed.

Lemma header_in_frame size gen sv k h pl more got :
  in_frame size gen sv h pl got -> frame_ok h pl -> 0 < k -> bytes_ok (h ++ pl ++ more) ->
  at_gather size gen (rx sv) (take (Z.to_nat got) (h ++ pl)) -> reads_ok (erase (ses sv)) h pl 0 ->
  got < sizeof_dsi_header -> call_result size gen sv k h pl more got.
Proof.
  intros Hin Hfr Hk Hb Hat Hrd Hlt. pose proof (in_frame_live _ _ _ _ _ _ k more Hin Hk Hb) as Hlv.
  pose proof Hin as [_ Hgen _ Hgot _ _]. pose proof Hfr as [Hh Hl _ _]. pose proof (zlen_nonneg pl).
  assert (Hfl : zlen (h ++ pl) = sizeof_dsi_header + zlen pl) by (rewrite zlen_app; lia).
  set (fr := h ++ pl) in *. set (rest := drop (Z.to_nat got) fr ++ more) in *.
  set (g := take (Z.to_nat got) fr) in *.
  assert (Hg : zlen g = got) by (apply zlen_take_frame; lia).
  destruct (piece_prefix fr more got k (sizeof_dsi_header - got)) as (_ & Hz & Hgb & _); [lia..|].
  fold g rest in Hz, Hgb. set (bs := piece k (sizeof_dsi_header - got) rest) in *.
  assert (Hwhole : got + zlen bs = sizeof_dsi_header -> g ++ bs = h).
  { intros E. rewrite Hgb, E, <- Hh. unfold fr. apply take_app_zlen. unfold zlen. lia. }
  destruct (Z.eq_dec (got + zlen bs) (zlen fr)) as [E|E].
  - assert (pl = []) as Hpl by (apply zlen_0_inv; lia). specialize (Hwhole ltac:(lia)).
    pose proof (header_call_whole size gen sv k rest g Hlv Hat) as Hc. rewrite Hg in Hc. cbv zeta in Hc.
    fold bs in Hc. rewrite Hwhole in Hc. rewrite Hpl in Hfr. specialize (Hc Hlt Hfr).
    eapply (call_outside _ _ _ _ _ _ _ _ (sizeof_dsi_header - got) bs);
      [done|done|exact Hc|reflexivity|fold fr; lia|done].
  - pose proof (header_call size gen sv k rest g Hlv Hat) as Hc. rewrite Hg in Hc. cbv zeta in Hc. fold bs in Hc.
    assert (zlen (g ++ bs) < sizeof_dsi_header \/ hdr_length (g ++ bs) <> 0) as Hmore.
    { rewrite zlen_app, Hg. destruct (Z.eq_dec (got + zlen bs) sizeof_dsi_header) as [E16|]; [|left; lia].
      right. rewrite Hwhole, Hl by done. lia. }
    specialize (Hc Hlt Hmore).
    eapply (call_inside _ _ _ _ _ _ _ _ (sizeof_dsi_header - got) bs);
      [done|done|exact Hc|reflexivity|fold fr; lia|fold fr; lia|done..| |].
    + fold fr rest bs. lia.
    + fold fr rest bs. intros r Hr. left. rewrite <- Hgb. split; [done|]. split; [done|]. left. lia.
Qed.

Lemma gather_in_frame size gen sv k h pl more got :
  in_frame size gen sv h pl got -> frame_ok h pl -> 0 < k -> bytes_ok (h ++ pl ++ more) ->
  at_gather size gen (rx sv) (take (Z.to_nat got) (h ++ pl)) ->
  sizeof_dsi_header <= got -> not_streamed (target (erase (ses sv)) h) ->
  (got = sizeof_dsi_header \/ zlen pl <= size - sizeof_dsi_header) ->
  call_result size gen sv k h pl more got.
Proof.
  intros Hin Hfr Hk Hb Hat Hge Hns Hor. pose proof (in_frame_live _ _ _ _ _ _ k more Hin Hk Hb) as Hlv.
  pose proof Hin as [_ Hgen _ Hgot Hfit _]. pose proof Hfr as [Hh Hl _ _]. pose proof (zlen_nonneg pl).
  assert (Hfl : zlen (h ++ pl) = sizeof_dsi_header + zlen pl) by (rewrite zlen_app; lia).
  set (fr := h ++ pl) in *. set (rest := drop (Z.to_nat got) fr ++ more) in *.
  set (g := take (Z.to_nat got) fr) in *.
  assert (0 <= got) as Hg0 by lia.
  assert (Hg : zlen g = got) by (apply zlen_take_frame; lia).
  destruct (decide (zlen pl <= size - sizeof_dsi_header)) as [Hs|Hbig].
  - pose proof (gather_call size gen sv k h pl g more) as Hc. fold fr in Hc. rewrite Hg in Hc. cbv zeta in Hc.
    fold rest in Hc. specialize (Hc Hlv Hat Hfr eq_refl ltac:(lia) Hns Hs).
    destruct (piece_prefix fr more got k (zlen fr - got)) as (_ & Hz & Hgb & _); [lia..|].
    fold g rest in Hz, Hgb. set (bs := piece k (zlen fr - got) rest) in *. case_if; bool_to_prop.
    + eapply (call_outside _ _ _ _ _ _ _ _ (zlen fr - got) bs); [done|done|exact Hc|reflexivity|fold fr; lia|done].
    + eapply (call_inside _ _ _ _ _ _ _ _ (zlen fr - got) bs);
        [done|done|exact Hc|reflexivity|fold fr; lia|fold fr; lia|done..| |]; fold fr; [lia|]. intros r Hr. left. rewrite <- Hgb. split; [done|].
      split; [|right; done]. intros p r0 Ht Hr0. exfalso. rewrite (Hns p r0 Ht) in Hr0. done.
  - assert (got = sizeof_dsi_header) as E by lia.
    assert (g = h) as Hgh by (unfold g, fr; rewrite E, <- Hh; apply take_app_zlen; unfold zlen; lia).
    rewrite Hgh in Hat. destruct Hfit as [?|Hq]; [lia|].
    pose proof (oversize_call size gen sv k rest h pl Hlv Hat Hfr Hns ltac:(lia)) as Hc.
    assert (piece k 0 rest = []) as Hp0 by (unfold piece; by replace (Z.to_nat (Z.min k 0)) with 0%nat by lia).
    pose proof Hat as (_ & Hd0 & _).
    eapply (call_inside _ _ _ _ _ _ _ _ 0 []); [done|done|exact Hc|symmetry; exact Hp0|fold fr; lia|fold fr; rewrite zlen_nil; lia| | | | |];
      try (by destruct (target (erase (ses sv)) h) as [[? ?]|]); rewrite zlen_nil.
    + intros _ r Hr. split; [|done]. fold fr. by replace (zlen fr - got) with (zlen pl) by lia.
    + intros r Hr. right. right. fold fr. by replace (zlen fr - (got + 0)) with (zlen pl) by lia.
Qed.

Lemma stream_in_frame size gen sv k h pl more got p r :
  in_frame size gen sv h pl got -> frame_ok h pl -> 0 < k -> bytes_ok (h ++ pl ++ more) ->
  streaming size gen (rx sv) h (got - sizeof_dsi_header) -> sizeof_dsi_header <= got ->
  reads_ok (erase (ses sv)) h pl (got - sizeof_dsi_header) ->
  target (erase (ses sv)) h = Some (p, r) -> is_read r = true ->
  call_result size gen sv k h pl more got.
Proof.
  intros Hin Hfr Hk Hb Hat Hge Hrd Ht Hread. pose proof (in_frame_live _ _ _ _ _ _ k more Hin Hk Hb) as Hlv.
  pose proof Hin as [_ Hgen _ Hgot _ _]. pose proof Hfr as [Hh Hl _ _].
  assert (Hfl : zlen (h ++ pl) = sizeof_dsi_header + zlen pl) by (rewrite zlen_app; lia).
  destruct (Hrd p r Ht Hread) as (b & Hroom). set (n := got - sizeof_dsi_header) in *.
  assert (Hrest : drop (Z.to_nat got) (h ++ pl) ++ more = drop (Z.to_nat n) pl ++ more).
  { rewrite drop_app_ge by (unfold zlen in *; lia). do 2 f_equal. unfold zlen, sizeof_dsi_header in *. lia. }
  rewrite Hrest in Hlv.
  pose proof (stream_call size gen sv k h pl n p r b more Hlv Hat Hfr ltac:(lia) Ht Hread Hroom) as Hc.
  cbv zeta in Hc. rewrite <- Hrest in Hc.
  destruct (piece_prefix (h ++ pl) more got k (zlen pl - n)) as (_ & Hz & _); [unfold sizeof_dsi_header in *; lia..|].
  set (rest := drop (Z.to_nat got) (h ++ pl) ++ more) in *. set (bs := piece k (zlen pl - n) rest) in *.
  case_if; bool_to_prop.
  - eapply (call_outside _ _ _ _ _ _ _ _ (zlen pl - n) bs); [done|done|exact Hc|reflexivity|lia|lia].
  - eapply (call_inside _ _ _ _ _ _ _ _ (zlen pl - n) bs); [done|done|exact Hc|reflexivity|lia|lia|done..|lia|].
    intros r0 Hr0. right. left. replace (got + zlen bs - sizeof_dsi_header) with (n + zlen bs) by lia.
    split; [done|]. intros p1 r1. rewrite target_count, (target_stream p b bs _ h r Ht).
    intros [= <- <-] _. destruct Hroom as (_ & H2 & H3 & H4). eexists. split; [apply read_buffer_set|].
    simpl. split; [lia|]. split; [done|]. unfold sizeof_dsi_header in *. rewrite zlen_store; lia.
Qed.

Lemma signal_fields t c s :
  fd (signal_opt t c s) = fd s /\ connection_generation (signal_opt t c s) = connection_generation s
  /\ quantum (signal_opt t c s) = quantum s.
Proof. by destruct t as [[p r]|]. Qed.

Lemma gone_in_frame size gen sv k h pl more got :
  in_frame size gen sv h pl got -> frame_ok h pl -> 0 < k -> bytes_ok (h ++ pl ++ more) ->
  at_stream size gen (rx sv) h (got - sizeof_dsi_header) ->
  not_streamed (target (erase (ses sv)) h) -> call_result size gen sv k h pl more got.
Proof.
  intros Hin Hfr Hk Hb Hat Hns. pose proof (in_frame_live _ _ _ _ _ _ k more Hin Hk Hb) as Hlv.
  pose proof Hin as [_ Hgen _ Hgot _ _]. pose proof Hfr as [Hh Hl _ _].
  assert (Hfl : zlen (h ++ pl) = sizeof_dsi_header + zlen pl) by (rewrite zlen_app; lia).
  pose proof Hat as (_ & Hd & _ & Hpos & _).
  pose proof (gone_call size gen sv k _ h pl _ Hlv Hat Hfr ltac:(lia) Hns) as Hc. cbv zeta in Hc.
  set (rest := drop (Z.to_nat got) (h ++ pl) ++ more) in *.
  assert (piece k 0 rest = []) as Hp0 by (unfold piece; by replace (Z.to_nat (Z.min k 0)) with 0%nat by lia).
  replace (zlen pl - (got - sizeof_dsi_header)) with (zlen (h ++ pl) - got) in Hc by lia.
  eapply (call_inside _ _ _ _ _ _ _ _ 0 []); [done|done|exact Hc|symmetry; exact Hp0|lia|rewrite zlen_nil; lia|
    rewrite (proj1 (signal_fields _ _ _)); done|rewrite (proj1 (proj2 (signal_fields _ _ _))); done|
    rewrite (proj2 (proj2 (signal_fields _ _ _))); done| |]; rewrite zlen_nil.
  - intros _ r Hr. by split.
  - intros r Hr. right. right. by rewrite Z.add_0_r.
Qed.

(** From inside a frame, every call answers 0 and stays inside it or ends it. *)
Lemma recv_in_frame size gen sv k h pl more got :
  in_frame size gen sv h pl got -> frame_ok h pl -> 0 < k -> bytes_ok (h ++ pl ++ more) ->
  call_result size gen sv k h pl more got.
Proof.
  intros Hin Hfr Hk Hb. pose proof Hin as [_ Hgen _ Hgot _ [(Hat & Hrd & Hcase)|[(Hat & Hrd)|Hat]]].
  - destruct (Z.lt_ge_cases got sizeof_dsi_header) as [Hlt|Hge]; [by apply header_in_frame|].
    destruct (streamed_or_not (target (erase (ses sv)) h)) as [(p & r & Ht & Hread)|Hns].
    + assert (got = sizeof_dsi_header) as E.
      { destruct Hcase as [?|[_ Hns]]; [lia|]. by rewrite (Hns p r Ht) in Hread. }
      eapply stream_in_frame; [done..| |done| |done|done]; replace (got - sizeof_dsi_header) with 0 by lia; [|done].
      destruct Hat as (Hwf & Hd & Hs & Hr & Htk & _). pose proof Hfr as [Hh _ _ _].
      assert (take (Z.to_nat got) (h ++ pl) = h) as Hg
        by (rewrite E, <- Hh; apply take_app_zlen; unfold zlen; lia).
      rewrite Hg in Hr, Htk. rewrite Hh in Hr, Htk. repeat (split; [done|]). done.
    + apply gather_in_frame; try done. destruct Hcase as [?|[? _]]; [left; lia|by right].
  - destruct (streamed_or_not (target (erase (ses sv)) h)) as [(p & r & Ht & Hread)|Hns].
    + destruct Hat as (H1 & H2 & H3 & H4 & H5). eapply stream_in_frame; [done..| |lia|done|done|done].
      destruct H5. repeat (split; [done|]). done.
    + by apply gone_in_frame.
  - by apply drop_in_frame.
Qed.

(** What the other threads may do while a frame is on its way: anything to the
    queue, except adding a read under the identifier of the frame in progress
    (afpc_dsi_setup_header does not reuse an identifier that soon). *)
Record env_ok (s s' : session) (h : list Z) : Prop := {
  env_fd : fd s' = fd s;
  env_gen : connection_generation s' = connection_generation s;
  env_quantum : quantum s' = quantum s;
  env_reads : forall p r, target (erase s') h = Some (p, r) -> is_read r = true ->
    exists r0, target (erase s) h = Some (p, r0) /\ is_read r0 = true /\ read_buffer r = read_buffer r0 }.

Lemma env_in_frame size gen sv s' h pl got :
  in_frame size gen sv h pl got -> env_ok (ses sv) s' h -> in_frame size gen (Server (rx sv) s') h pl got.
Proof.
  intros [H1 H2 H3 H4 H5 H6] [E1 E2 E3 E4].
  assert (Hrd : forall n, reads_ok (erase (ses sv)) h pl n -> reads_ok (erase s') h pl n).
  { intros n Hr p r Ht Hread. destruct (E4 p r Ht Hread) as (r0 & Ht0 & Hread0 & Hb).
    destruct (Hr p r0 Ht0 Hread0) as (b & Hroom). exists b. unfold room in *. by rewrite Hb. }
  assert (Hns : not_streamed (target (erase (ses sv)) h) -> not_streamed (target (erase s') h)).
  { intros Hn p r Ht. destruct (is_read r) eqn:E; [|done].
    destruct (E4 p r Ht E) as (r0 & Ht0 & Hread0 & _). by rewrite (Hn p r0 Ht0) in Hread0. }
  split; simpl; try congruence; [unfold frame_fits in *; by rewrite E3|].
  destruct H6 as [(Ha & Hb & [Hc|[Hc Hd]])|[(Ha & Hb)|Ha]]; auto 10.
Qed.

End Refinement.
