(* ===== verification/DsiRefine.v ===== *)
(** What the DSI receiver promises: it keeps its place in the stream whatever
    the other threads do to the queue while a frame is on its way, and a stream
    of frames has the effects of its frames, in order, however it is cut into
    pieces. *)
From stdpp Require Import gmap.
From S2P Require Import Prelude AfpProtocol DsiQueue Dsi DsiFraming.

Section Frames.

Context (handler : Z -> list Z -> Z) (afp_reply : Z -> Z -> list Z -> Z) (attention : Z -> list Z -> option bool).

(** There is memory for the copies of attention packets. *)
Hypothesis attention_memory : forall n packet, attention n packet <> None.

Abbreviation recv := (afpc_dsi_recv handler afp_reply attention).

(** ** One frame, with the other threads at work

    A run of the receiver through one frame: calls that take pieces of the
    stream off, and changes of the session by other threads between them. The
    list holds the calls' answers; [got] counts the bytes taken. *)
Inductive frame_run (h pl more : list Z) : server -> Z -> list Z -> server -> Z -> Prop :=
| run_end sv got : frame_run h pl more sv got [] sv got
| run_other sv got s' rets sv2 got2 :
    env_ok (ses sv) s' h ->
    frame_run h pl more (Server (rx sv) s') got rets sv2 got2 ->
    frame_run h pl more sv got rets sv2 got2
| run_recv sv got k o rest' rets sv2 got2 :
    got < zlen (h ++ pl) -> 0 < k ->
    run_io (recv sv) k (drop (Z.to_nat got) (h ++ pl) ++ more) = (o, rest') ->
    frame_run h pl more (state o) (zlen (h ++ pl ++ more) - zlen rest') rets sv2 got2 ->
    frame_run h pl more sv got (ret o :: rets) sv2 got2.

(** Where the receiver is: inside the frame, or at its end. *)
Definition placed (size gen : Z) (sv : server) (h pl : list Z) (got : Z) : Prop :=
  got <= zlen (h ++ pl) /\ (got < zlen (h ++ pl) -> in_frame size gen sv h pl got)
  /\ (got = zlen (h ++ pl) -> idle size gen (rx sv)).

(** A call without progress is possible only outside the dropping of a frame. *)
Definition credit (r : rx_state) : Z := if discard_remaining r =? 0 then 1 else 0.

Lemma frame_run_placed size gen h pl more sv got rets sv2 got2 :
  frame_ok h pl -> bytes_ok (h ++ pl ++ more) ->
  frame_run h pl more sv got rets sv2 got2 -> placed size gen sv h pl got ->
  placed size gen sv2 h pl got2 /\ Forall (fun c => c = 0) rets /\ got <= got2
  /\ zlen rets <= 2 * (got2 - got) + credit (rx sv).
Proof.
  intros Hfr Hb Hrun. induction Hrun as [sv got|sv got s' rets sv2 got2 Henv _ IH|
    sv got k o rest' rets sv2 got2 Hlt Hk Hio _ IH]; intros Hpl.
  - split; [done|]. split; [constructor|]. split; [lia|]. rewrite zlen_nil. unfold credit. case_if; lia.
  - apply IH. destruct Hpl as (H1 & H2 & H3). split; [done|]. split; [|done].
    intros Hlt. eapply env_in_frame; eauto.
  - destruct Hpl as (_ & Hin & _). specialize (Hin Hlt).
    destruct (recv_in_frame handler afp_reply attention attention_memory size gen sv k h pl more got Hin Hfr Hk Hb)
      as (o' & got' & Hio' & Hret & Hgot & Hstay & Hins & Hend).
    rewrite Hio in Hio'. injection Hio' as <- ->.
    replace (zlen (h ++ pl ++ more) - zlen (drop (Z.to_nat got') (h ++ pl) ++ more)) with got' in IH
      by (destruct Hin as [_ _ _ G _ _]; rewrite !zlen_app, zlen_drop; rewrite zlen_app in *; lia).
    destruct IH as (IH1 & IH2 & IH3 & IH4); [split; [lia|]; split; assumption|].
    split; [done|]. split; [by constructor|]. split; [lia|]. rewrite zlen_cons. unfold credit in *.
    destruct (Z.eq_dec got' got) as [E|E]; [|repeat case_if; lia].
    destruct (Hstay E) as [(_ & Hd & _) ->]. rewrite Hd in IH4. destruct Hin as [_ _ _ Hg _ _].
    replace (zlen (h ++ pl) - got =? 0) with false in IH4 by lia. simpl. lia.
Qed.

(** C2: the receiver keeps its place in the stream. From the start of a
    well-formed frame whose payload fits the receive buffer or the quantum,
    and whose read, if it answers one, has room for it, whatever the pieces
    the frame arrives in, and whatever the other threads do between them
    (requests sent, timed out, failed or flushed, also the one being
    answered), every call answers 0; no byte past the frame is read; at most
    one call in two takes no byte; and once the frame's bytes are all taken
    the receiver is at the start of the next frame. Only the memory for the
    copy of an attention packet is taken for granted. *)
Theorem receiver_keeps_framing size gen sv h pl more rets sv' got :
  frame_ok h pl -> bytes_ok (h ++ pl ++ more) ->
  idle size gen (rx sv) -> bytes_ok (incoming_buffer (rx sv)) ->
  0 <= fd (ses sv) -> connection_generation (ses sv) = gen ->
  frame_fits size (ses sv) pl -> reads_ok (erase (ses sv)) h pl 0 ->
  frame_run h pl more sv 0 rets sv' got ->
  Forall (fun c => c = 0) rets
  /\ got <= zlen (h ++ pl) /\ zlen rets <= 2 * got + 1
  /\ (got < zlen (h ++ pl) -> in_frame size gen sv' h pl got)
  /\ (got = zlen (h ++ pl) -> idle size gen (rx sv')).
Proof.
  intros Hfr Hb Hidle Hbuf Hfd Hgen Hfit Hrd Hrun.
  destruct (frame_run_placed size gen h pl more sv 0 rets sv' got Hfr Hb Hrun) as ((H1 & H2 & H3) & H4 & H5 & H6).
  - pose proof Hfr as [Hh _ _ _]. pose proof (zlen_nonneg pl).
    split; [apply zlen_nonneg|]. split; [|done]. intros Hlt. split; try done.
    left. split; [done|]. split; [done|]. left. unfold sizeof_dsi_header. lia.
  - split; [done|]. split; [done|]. split; [|done]. unfold credit in H6. case_if; lia.
Qed.

(** ** A frame, with the queue at rest *)

Lemma count_rx_add a b s : count_rx a (count_rx b s) = count_rx (b + a) s.
Proof. unfold count_rx. simpl. by rewrite u64_add_l, Z.add_assoc. Qed.

Lemma signal_count t c n s : signal_opt t c (count_rx n s) = count_rx n (signal_opt t c s).
Proof. by destruct t as [[p r]|]. Qed.

Definition advanced (b : afp_rx_buffer) (bs : list Z) : afp_rx_buffer :=
  RxBuffer (rx_size b + zlen bs) (rx_maxsize b) (store (rx_data b) (rx_size b) bs).

Lemma stream_into_twice p b bs cs s :
  0 <= rx_size b -> rx_size b + zlen bs <= zlen (rx_data b) ->
  stream_into p (advanced b bs) cs (stream_into p b bs s) = stream_into p b (bs ++ cs) s.
Proof.
  intros H0 Hl. unfold stream_into, set_requests, advanced. simpl. f_equal. unfold update. simpl. f_equal.
  rewrite alter_alter_eq. apply alter_ext. intros r _. unfold compose, set_read_buffer.
  destruct (stream_buffer r); simpl; by rewrite store_store, zlen_app, Z.add_assoc.
Qed.

Lemma fill_stream p r b bs s : room r b 0 (zlen bs) -> fill p r bs s = stream_into p b bs s.
Proof.
  intros (Hb & Hs & _). unfold fill, stream_into, filled. by rewrite Hb, Hs.
Qed.

Lemma room_mono r b n len len' : room r b n len -> len' <= len -> room r b n len'.
Proof. intros (H1 & H2 & H3 & H4) Hl. repeat split; try done; lia. Qed.

Abbreviation effect := (effect handler afp_reply attention).
Abbreviation serve := (serve handler afp_reply attention).

Lemma effect_oversize size s h pl :
  not_streamed (target s h) -> size - sizeof_dsi_header < zlen pl ->
  effect size s h pl = (signal_opt (target s h) (- EIO) s, []).
Proof.
  intros Hns Hbig. unfold DsiFraming.effect. destruct (target s h) as [[p r]|] eqn:E.
  - rewrite (Hns p r eq_refl). by replace (zlen pl >? size - sizeof_dsi_header) with true by lia.
  - replace (zlen pl <=? size - sizeof_dsi_header) with false by lia. by rewrite andb_false_r.
Qed.

Lemma effect_read size s h pl p r b :
  target s h = Some (p, r) -> is_read r = true -> room r b 0 (zlen pl) -> 0 < zlen pl ->
  effect size s h pl = (signal_opt (Some (p, r)) (hdr_error_code h) (stream_into p b pl s), []).
Proof.
  intros Ht Hr Hroom Hpos. unfold DsiFraming.effect. rewrite Ht, Hr.
  replace (zlen pl =? 0) with false by lia. by rewrite (fill_stream p r b).
Qed.

(** The place in the frame and the session there, from the session [e0] the
    frame began in. *)
Inductive mid (size gen : Z) (e0 : session) (h pl : list Z) (sv : server) (got : Z) : Prop :=
| mid_gather :
    at_gather size gen (rx sv) (take (Z.to_nat got) (h ++ pl)) -> erase (ses sv) = count_rx got e0 ->
    (got <= sizeof_dsi_header \/ zlen pl <= size - sizeof_dsi_header /\ not_streamed (target e0 h)) ->
    mid size gen e0 h pl sv got
| mid_stream p r b :
    at_stream size gen (rx sv) h (got - sizeof_dsi_header) ->
    target e0 h = Some (p, r) -> is_read r = true -> room r b 0 (zlen pl) ->
    erase (ses sv) = count_rx got (stream_into p b (take (Z.to_nat (got - sizeof_dsi_header)) pl) e0) ->
    mid size gen e0 h pl sv got
| mid_drop :
    at_drop size gen (rx sv) (zlen (h ++ pl) - got) -> not_streamed (target e0 h) ->
    size - sizeof_dsi_header < zlen pl ->
    erase (ses sv) = count_rx got (signal_opt (target e0 h) (- EIO) e0) ->
    mid size gen e0 h pl sv got.

(** What the frame needs of the session it begins in. *)
Record begins (size gen : Z) (e0 : session) (h pl : list Z) : Prop := {
  bg_frame : frame_ok h pl;
  bg_fd : 0 <= fd e0;
  bg_gen : connection_generation e0 = gen;
  bg_fits : frame_fits size e0 pl;
  bg_reads : reads_ok e0 h pl 0 }.

(** A call from the middle of the frame goes on in it or ends it with the
    frame's effect. *)
Definition goes_on (size gen : Z) (e0 : session) (h pl more : list Z) (sv : server) (got k : Z) : Prop :=
  exists o got', run_io (recv sv) k (drop (Z.to_nat got) (h ++ pl) ++ more)
                 = (o, drop (Z.to_nat got') (h ++ pl) ++ more)
  /\ ret o = 0 /\ bytes_ok (incoming_buffer (rx (state o))) /\ got <= got'
  /\ ((got' < zlen (h ++ pl) /\ mid size gen e0 h pl (state o) got' /\ events o = []
       /\ (got' = got -> discard_remaining (rx sv) = 0 /\ discard_remaining (rx (state o)) <> 0))
      \/ (got' = zlen (h ++ pl) /\ idle size gen (rx (state o))
          /\ (erase (ses (state o)), events o) = serve size e0 (h, pl))).

Lemma goes_on_inside size gen e0 h pl more sv got k m used P s' :
  let fr := h ++ pl in let rest := drop (Z.to_nat got) fr ++ more in
  call_to handler afp_reply attention sv k rest used P s' [] -> used = piece k m rest -> 0 < k ->
  0 <= got -> 0 <= m <= zlen fr - got -> got + zlen used < zlen fr ->
  (forall r s, P r -> erase s = s' -> mid size gen e0 h pl (Server r s) (got + zlen used)) ->
  (zlen used = 0 -> discard_remaining (rx sv) = 0 /\ forall r, P r -> discard_remaining r <> 0) ->
  goes_on size gen e0 h pl more sv got k.
Proof.
  intros fr rest (o & rest' & Hrun & Hret & Hrest & HP & Hb & He & Hev) Hu Hk Hg Hm Hlt Hmid Hz.
  destruct (piece_prefix fr more got k m) as (_ & _ & _ & Hdrop); [lia..|]. fold rest in Hdrop. rewrite <- Hu in Hdrop.
  assert (rest' = drop (Z.to_nat (got + zlen used)) fr ++ more) as ->.
  { rewrite <- Hdrop, Hrest at 1. by rewrite drop_app_length. }
  pose proof (zlen_nonneg used). unfold goes_on. fold fr rest. exists o, (got + zlen used).
  split; [done|]. split; [done|]. split; [done|]. split; [lia|]. left. split; [done|].
  split; [specialize (Hmid (rx (state o)) (ses (state o)) HP He); by destruct (state o)|].
  split; [done|]. intros E. destruct (Hz ltac:(lia)) as [H1 H2]. auto.
Qed.

Lemma goes_on_outside size gen e0 h pl more sv got k m used s' evs :
  let fr := h ++ pl in let rest := drop (Z.to_nat got) fr ++ more in
  call_to handler afp_reply attention sv k rest used (idle size gen) s' evs -> used = piece k m rest -> 0 < k ->
  0 <= got -> 0 <= m <= zlen fr - got -> got + zlen used = zlen fr ->
  (s', evs) = serve size e0 (h, pl) -> goes_on size gen e0 h pl more sv got k.
Proof.
  intros fr rest (o & rest' & Hrun & Hret & Hrest & HP & Hb & He & Hev) Hu Hk Hg Hm Heq Hs.
  destruct (piece_prefix fr more got k m) as (_ & _ & _ & Hdrop); [lia..|]. fold rest in Hdrop. rewrite <- Hu in Hdrop.
  assert (rest' = drop (Z.to_nat (got + zlen used)) fr ++ more) as ->.
  { rewrite <- Hdrop, Hrest at 1. by rewrite drop_app_length. }
  pose proof (zlen_nonneg used). unfold goes_on. fold fr rest. exists o, (got + zlen used).
  split; [done|]. split; [done|]. split; [done|]. split; [lia|]. right. split; [done|]. split; [done|].
  by rewrite He, Hev.
Qed.

Lemma mid_live size gen e0 h pl sv got k more :
  begins size gen e0 h pl -> mid size gen e0 h pl sv got -> 0 < k ->
  bytes_ok (incoming_buffer (rx sv)) -> bytes_ok (h ++ pl ++ more) ->
  live size gen sv k (drop (Z.to_nat got) (h ++ pl) ++ more) /\ quantum (ses sv) = quantum e0.
Proof.
  intros [_ Hfd Hgen _ _] Hm Hk Hb Hok.
  assert (Hf : fd (ses sv) = fd e0 /\ connection_generation (ses sv) = connection_generation e0
               /\ quantum (ses sv) = quantum e0).
  { destruct Hm as [_ He _|p r b _ _ _ _ He|_ _ _ He];
      destruct (session_fields _ _ He) as (-> & -> & ->); [done|done|].
    change (fd (count_rx ?n ?s)) with (fd s). change (quantum (count_rx ?n ?s)) with (quantum s).
    change (connection_generation (count_rx ?n ?s)) with (connection_generation s). apply signal_fields. }
  destruct Hf as (F1 & F2 & F3). split; [|done]. split; try done; [by rewrite F1|by rewrite F2| |].
  - destruct Hm as [H _ _|? ? ? H _ _ _ _|H _ _ _]; apply H.
  - rewrite app_assoc in Hok. apply bytes_ok_app in Hok as [H1 H2]. apply bytes_ok_app.
    split; [by apply bytes_ok_drop|done].
Qed.

Section MidStep.

Context (size gen : Z) (e0 : session) (h pl more : list Z) (sv : server) (got k : Z).
Context (Hbg : begins size gen e0 h pl) (Hk : 0 < k) (Hgot : 0 <= got < zlen (h ++ pl)).
Context (Hlv : live size gen sv k (drop (Z.to_nat got) (h ++ pl) ++ more)).

Let fr := h ++ pl.
Let rest := drop (Z.to_nat got) fr ++ more.

Lemma frame_len : zlen fr = sizeof_dsi_header + zlen pl.
Proof. unfold fr. rewrite zlen_app. destruct Hbg as [[-> _ _ _] _ _ _ _]. done. Qed.

Lemma size_room : sizeof_dsi_header < size.
Proof. destruct Hlv as [_ _ [_ _ H _] _ _ _]. done. Qed.

Lemma serve_total s : got + s = zlen fr -> 
  effect size (count_rx s (count_rx got e0)) h pl = serve size e0 (h, pl).
Proof. intros E. rewrite count_rx_add, E, frame_len. done. Qed.

Lemma mid_drop_goes :
  at_drop size gen (rx sv) (zlen fr - got) -> not_streamed (target e0 h) -> size - sizeof_dsi_header < zlen pl ->
  erase (ses sv) = count_rx got (signal_opt (target e0 h) (- EIO) e0) -> goes_on size gen e0 h pl more sv got k.
Proof.
  intros Hat Hns Hbig He. fold fr in Hgot. pose proof size_room as Hsz. unfold sizeof_dsi_header in Hsz.
  pose proof (drop_call handler afp_reply attention size gen sv k rest _ Hlv Hat ltac:(lia)) as Hc. cbv zeta in Hc.
  destruct (piece_prefix fr more got k (Z.min (zlen fr - got) size)) as (_ & Hz & _); [lia..|]. fold rest in Hz.
  set (bs := piece k (Z.min (zlen fr - got) size) rest) in *. rewrite He, count_rx_add in Hc.
  destruct (Z.eq_dec (got + zlen bs) (zlen fr)) as [E|E].
  - eapply (goes_on_outside _ _ _ _ _ _ _ _ _ (Z.min (zlen fr - got) size) bs);
      [|reflexivity|done|lia|fold fr; lia|done|].
    + eapply call_mono; [|exact Hc]. intros r Hr. apply at_drop_0. by replace 0 with (zlen fr - got - zlen bs) by lia.
    + unfold DsiFraming.serve. rewrite effect_oversize by done. cbn [fst snd]. by rewrite E, frame_len, signal_count.
  - eapply (goes_on_inside _ _ _ _ _ _ _ _ _ (Z.min (zlen fr - got) size) bs);
      [exact Hc|reflexivity|done|lia|fold fr; lia|fold fr; lia| |lia].
    intros r s Hr Hs. apply mid_drop; try done. fold fr. simpl.
    by replace (zlen fr - (got + zlen bs)) with (zlen fr - got - zlen bs) by lia.
Qed.

Lemma mid_header_goes :
  at_gather size gen (rx sv) (take (Z.to_nat got) fr) -> got < sizeof_dsi_header ->
  erase (ses sv) = count_rx got e0 -> goes_on size gen e0 h pl more sv got k.
Proof.
  intros Hat Hlt He. fold fr in Hgot. pose proof frame_len as Hfl. pose proof (zlen_nonneg pl).
  destruct Hbg as [Hfr _ _ _ _]. pose proof Hfr as [Hh Hl _ _]. set (g := take (Z.to_nat got) fr) in *.
  assert (Hg : zlen g = got) by (apply zlen_take_frame; lia).
  destruct (piece_prefix fr more got k (sizeof_dsi_header - got)) as (_ & Hz & Hgb & _); [lia..|].
  fold g rest in Hz, Hgb. set (bs := piece k (sizeof_dsi_header - got) rest) in *.
  assert (Hwhole : got + zlen bs = sizeof_dsi_header -> g ++ bs = h).
  { intros E. rewrite Hgb, E, <- Hh. unfold fr. apply take_app_zlen. unfold zlen. lia. }
  destruct (Z.eq_dec (got + zlen bs) (zlen fr)) as [E|E].
  - assert (pl = []) as Hpl by (apply zlen_0_inv; lia). specialize (Hwhole ltac:(lia)).
    pose proof (header_call_whole handler afp_reply attention attention_memory size gen sv k rest g Hlv Hat) as Hc. rewrite Hg in Hc. cbv zeta in Hc.
    fold bs in Hc. rewrite Hwhole, He in Hc. rewrite Hpl in Hfr. specialize (Hc Hlt Hfr). rewrite <- Hpl in Hc.
    eapply (goes_on_outside _ _ _ _ _ _ _ _ _ (sizeof_dsi_header - got) bs);
      [exact Hc|reflexivity|done|lia|fold fr; lia|done|].
    rewrite serve_total by done. by destruct (serve size e0 (h, pl)).
  - pose proof (header_call handler afp_reply attention size gen sv k rest g Hlv Hat) as Hc. rewrite Hg in Hc. cbv zeta in Hc.
    fold bs in Hc. rewrite He, count_rx_add in Hc.
    assert (zlen (g ++ bs) < sizeof_dsi_header \/ hdr_length (g ++ bs) <> 0) as Hmore.
    { rewrite zlen_app, Hg. destruct (Z.eq_dec (got + zlen bs) sizeof_dsi_header) as [E16|]; [|left; lia].
      right. rewrite Hwhole, Hl by done. lia. }
    specialize (Hc Hlt Hmore).
    eapply (goes_on_inside _ _ _ _ _ _ _ _ _ (sizeof_dsi_header - got) bs);
      [exact Hc|reflexivity|done|lia|fold fr; lia|fold fr; lia| |lia].
    intros r s Hr Hs. apply mid_gather; [|done|left; lia]. fold fr. by rewrite <- Hgb.
Qed.

Lemma mid_gather_goes :
  at_gather size gen (rx sv) (take (Z.to_nat got) fr) -> sizeof_dsi_header <= got ->
  not_streamed (target e0 h) -> (got = sizeof_dsi_header \/ zlen pl <= size - sizeof_dsi_header) ->
  quantum (ses sv) = quantum e0 ->
  erase (ses sv) = count_rx got e0 -> goes_on size gen e0 h pl more sv got k.
Proof.
  intros Hat Hge Hns Hor Hq He. fold fr in Hgot. pose proof frame_len as Hfl. pose proof (zlen_nonneg pl).
  destruct Hbg as [Hfr _ _ Hfit _]. pose proof Hfr as [Hh Hl _ _]. set (g := take (Z.to_nat got) fr) in *.
  assert (Hg : zlen g = got) by (apply zlen_take_frame; lia).
  assert (Hns' : not_streamed (target (erase (ses sv)) h)) by (by rewrite He).
  destruct (decide (zlen pl <= size - sizeof_dsi_header)) as [Hs|Hbig].
  - pose proof (gather_call handler afp_reply attention attention_memory size gen sv k h pl g more) as Hc. fold fr in Hc. rewrite Hg in Hc.
    cbv zeta in Hc. fold rest in Hc. specialize (Hc Hlv Hat Hfr eq_refl ltac:(lia) Hns' Hs).
    destruct (piece_prefix fr more got k (zlen fr - got)) as (_ & Hz & Hgb & _); [lia..|].
    fold g rest in Hz, Hgb. set (bs := piece k (zlen fr - got) rest) in *. rewrite He in Hc. case_if; bool_to_prop.
    + eapply (goes_on_outside _ _ _ _ _ _ _ _ _ (zlen fr - got) bs);
        [exact Hc|reflexivity|done|lia|fold fr; lia|done|].
      rewrite serve_total by done. by destruct (serve size e0 (h, pl)).
    + rewrite count_rx_add in Hc. eapply (goes_on_inside _ _ _ _ _ _ _ _ _ (zlen fr - got) bs);
        [exact Hc|reflexivity|done|lia|fold fr; lia|fold fr; lia| |lia].
      intros r s Hr Hs'. apply mid_gather; [|done|right; done]. fold fr. by rewrite <- Hgb.
  - assert (got = sizeof_dsi_header) as E by lia.
    assert (g = h) as Hgh by (unfold g, fr; rewrite E, <- Hh; apply take_app_zlen; unfold zlen; lia).
    rewrite Hgh in Hat. destruct Hfit as [?|Hfit]; [lia|].
    pose proof (oversize_call handler afp_reply attention size gen sv k rest h pl Hlv Hat Hfr Hns' ltac:(lia)) as Hc.
    rewrite He, signal_count in Hc. pose proof Hat as (_ & Hd0 & _).
    assert (piece k 0 rest = []) as Hp0 by (unfold piece; by replace (Z.to_nat (Z.min k 0)) with 0%nat by lia).
    eapply (goes_on_inside _ _ _ _ _ _ _ _ _ 0 []);
      [exact Hc|symmetry; exact Hp0|done|lia|fold fr; lia|fold fr; rewrite zlen_nil; lia| |].
    + intros r s Hr Hs. rewrite zlen_nil, Z.add_0_r. apply mid_drop; [|done|lia|done]. fold fr. simpl.
      by replace (zlen fr - got) with (zlen pl) by lia.
    + intros _. split; [done|]. intros r (_ & Hd & _). lia.
Qed.

(** [n] bytes have streamed, 0 included. *)
Lemma mid_stream_goes p r b :
  let n := got - sizeof_dsi_header in
  streaming size gen (rx sv) h n -> sizeof_dsi_header <= got ->
  target e0 h = Some (p, r) -> is_read r = true -> room r b 0 (zlen pl) ->
  (n = 0 /\ erase (ses sv) = count_rx got e0
   \/ erase (ses sv) = count_rx got (stream_into p b (take (Z.to_nat n) pl) e0)) ->
  goes_on size gen e0 h pl more sv got k.
Proof.
  intros n Hat Hge Ht Hread Hroom He. fold fr in Hgot. pose proof frame_len as Hfl.
  destruct Hbg as [Hfr _ _ _ _]. pose proof Hfr as [Hh Hl _ _].
  assert (H16 : sizeof_dsi_header = 16) by done. assert (Hn0 : n = got - sizeof_dsi_header) by done.
  assert (Hrest : rest = drop (Z.to_nat n) pl ++ more).
  { unfold rest, fr. rewrite drop_app_ge by (unfold zlen, sizeof_dsi_header in *; lia). do 2 f_equal.
    unfold n, zlen, sizeof_dsi_header in *. lia. }
  set (w := take (Z.to_nat n) pl) in *.
  assert (Hw : zlen w = n) by (apply zlen_take_frame; lia).
  pose proof Hroom as (Hb0 & Hs0 & Hmax & Hdata).
  (* the request and its buffer, as they are now *)
  assert (exists r' b', target (erase (ses sv)) h = Some (p, r') /\ is_read r' = true /\ room r' b' n (zlen pl)
    /\ forall bs, stream_into p b' bs (erase (ses sv)) = count_rx got (stream_into p b (w ++ bs) e0))
    as (r' & b' & Ht' & Hread' & Hroom' & Hstream).
  { destruct He as [[Hn He]|He].
    - exists r, b. rewrite He. split; [done|]. split; [done|]. rewrite Hn. split; [done|].
      assert (w = []) as -> by (unfold w; by rewrite Hn). done.
    - exists (set_read_buffer (advanced b w) r), (advanced b w). rewrite He.
      split; [by rewrite target_count, (target_stream p b w e0 h r Ht)|]. split; [by rewrite is_read_set|].
      split.
      + split; [apply read_buffer_set|]. simpl. split; [lia|]. split; [done|]. rewrite zlen_store; lia.
      + intros bs. rewrite <- (stream_into_twice p b w bs e0) by lia. done. }
  assert (Hlv' : live size gen sv k rest) by exact Hlv. rewrite Hrest in Hlv'.
  pose proof (stream_call handler afp_reply attention size gen sv k h pl n p r' b' more Hlv' Hat Hfr ltac:(lia) Ht' Hread' Hroom') as Hc.
  cbv zeta in Hc. rewrite <- Hrest in Hc.
  destruct (piece_prefix pl more n k (zlen pl - n)) as (_ & Hz & Hwb & _); [lia..|].
  rewrite <- Hrest in Hz, Hwb. set (bs := piece k (zlen pl - n) rest) in *. fold w in Hwb.
  rewrite Hstream, count_rx_add in Hc. case_if; bool_to_prop.
  - eapply (goes_on_outside _ _ _ _ _ _ _ _ _ (zlen pl - n) bs);
      [exact Hc|reflexivity|done|unfold sizeof_dsi_header in *; lia|fold fr; lia|fold fr; lia|].
    unfold DsiFraming.serve. cbn [fst snd].
    rewrite (effect_read size (count_rx (sizeof_dsi_header + zlen pl) e0) h pl p r b) by (done || lia).
    rewrite Hwb, E, firstn_all2 by (unfold zlen; lia). replace (got + zlen bs) with (sizeof_dsi_header + zlen pl) by lia.
    done.
  - eapply (goes_on_inside _ _ _ _ _ _ _ _ _ (zlen pl - n) bs);
      [exact Hc|reflexivity|done|lia|fold fr; lia|fold fr; lia| |lia].
    intros r0 s Hr Hs. rewrite Hwb in Hs. apply (mid_stream _ _ _ _ _ _ _ p r b); try done; simpl.
    + by replace (got + zlen bs - sizeof_dsi_header) with (n + zlen bs) by lia.
    + by replace (got + zlen bs - sizeof_dsi_header) with (n + zlen bs) by lia.
Qed.

Lemma mid_goes :
  mid size gen e0 h pl sv got -> quantum (ses sv) = quantum e0 -> goes_on size gen e0 h pl more sv got k.
Proof.
  intros Hm Hq. pose proof Hbg as [Hfr _ _ _ Hrd]. pose proof Hfr as [Hh _ _ _].
  destruct Hm as [Hat He Hcase|p r b Hat Ht Hread Hroom He|Hat Hns Hbig He].
  - destruct (Z.lt_ge_cases got sizeof_dsi_header) as [Hlt|Hge]; [by apply mid_header_goes|].
    destruct (streamed_or_not (target e0 h)) as [(p & r & Ht & Hread)|Hns].
    + assert (got = sizeof_dsi_header) as E.
      { destruct Hcase as [?|[_ Hns]]; [lia|]. by rewrite (Hns p r Ht) in Hread. }
      destruct (Hrd p r Ht Hread) as (b & Hroom).
      apply (mid_stream_goes p r b); try done; [|left; split; [lia|done]].
      destruct Hat as (Hwf & Hd & Hs & Hr & Htk & _).
      assert (take (Z.to_nat got) (h ++ pl) = h) as Hg
        by (rewrite E, <- Hh; apply take_app_zlen; unfold zlen; lia).
      rewrite Hg in Hr, Htk. rewrite Hh in Hr, Htk. repeat (split; [done|]).
      split; [lia|]. done.
    + apply mid_gather_goes; try done. destruct Hcase as [?|[? _]]; [left; lia|by right].
  - destruct Hat as (H1 & H2 & H3 & H4 & H5 & H6).
    apply (mid_stream_goes p r b); [by repeat (split; [assumption|])|lia|done..|by right].
  - by apply mid_drop_goes.
Qed.

End MidStep.

(** ** A stream of frames *)

(** The loop over a stream: a call for each piece, of at most so many bytes,
    while the stream has bytes. *)
Fixpoint pump (ks : list Z) (sv : server) (rest : list Z) : server * list Z * list event * list Z :=
  match ks with
  | [] => (sv, rest, [], [])
  | k :: ks' =>
      match rest with
      | [] => (sv, rest, [], [])
      | _ =>
          let '(o, rest') := run_io (recv sv) k rest in
          let '(sv2, rest2, evs, rets) := pump ks' (state o) rest' in
          (sv2, rest2, events o ++ evs, ret o :: rets)
      end
  end.

Definition all_pos (ks : list Z) : Prop := Forall (fun k => 0 < k) ks.

Lemma pump_cons k ks sv rest o rest' :
  rest <> [] -> run_io (recv sv) k rest = (o, rest') ->
  pump (k :: ks) sv rest =
    (let '(sv2, rest2, evs, rets) := pump ks (state o) rest' in
     (sv2, rest2, events o ++ evs, ret o :: rets)).
Proof. intros Hne Hrun. simpl. rewrite Hrun. by destruct rest. Qed.

(** The loop through one frame. *)
Lemma pump_frame size gen e0 h pl more :
  begins size gen e0 h pl -> bytes_ok (h ++ pl ++ more) ->
  forall ks sv got, all_pos ks -> 0 <= got < zlen (h ++ pl) -> mid size gen e0 h pl sv got ->
  bytes_ok (incoming_buffer (rx sv)) ->
  2 * (zlen (h ++ pl) - got) + credit (rx sv) <= zlen ks ->
  exists sv' ks' rets,
    pump ks sv (drop (Z.to_nat got) (h ++ pl) ++ more) =
      (let '(sv2, rest2, evs2, rets2) := pump ks' sv' more in
       (sv2, rest2, snd (serve size e0 (h, pl)) ++ evs2, rets ++ rets2))
    /\ idle size gen (rx sv') /\ bytes_ok (incoming_buffer (rx sv'))
    /\ erase (ses sv') = fst (serve size e0 (h, pl)) /\ Forall (fun c => c = 0) rets /\ all_pos ks'
    /\ zlen ks <= zlen ks' + 2 * (zlen (h ++ pl) - got) + credit (rx sv).
Proof.
  intros Hbg Hok ks. induction ks as [|k ks IH]; intros sv got Hks Hgot Hm Hb Hlen.
  { rewrite zlen_nil in Hlen. unfold credit in Hlen. case_if; lia. }
  inversion_clear Hks as [|? ? Hk Hks']. rewrite zlen_cons in *.
  destruct (mid_live size gen e0 h pl sv got k more Hbg Hm Hk Hb Hok) as [Hlv Hq].
  destruct (mid_goes size gen e0 h pl more sv got k Hbg Hk Hgot Hlv Hm Hq)
    as (o & got' & Hrun & Hret & Hbo & Hge & Hcase).
  assert (Hne : drop (Z.to_nat got) (h ++ pl) ++ more <> []).
  { intros E. apply (f_equal zlen) in E. rewrite zlen_app, zlen_drop in E. change (zlen (@nil Z)) with 0 in E. pose proof (zlen_nonneg more). lia. }
  rewrite (pump_cons k ks sv _ o _ Hne Hrun).
  destruct Hcase as [(Hlt & Hm' & Hev & Hz)|(-> & Hidle & Hs)].
  - destruct (IH (state o) got') as (sv' & ks' & rets & Hp & H1 & H2 & H3 & H4 & H5 & H6); try done; [lia| |].
    { destruct (Z.eq_dec got' got) as [->|]; unfold credit in *; [|repeat case_if; lia].
      destruct (Hz eq_refl) as [Hd Hd']. rewrite Hd in Hlen. apply Z.eqb_neq in Hd'. rewrite Hd'. simpl in Hlen. lia. }
    exists sv', ks', (ret o :: rets). rewrite Hp, Hev.
    split; [by destruct (pump ks' sv' more) as [[[? ?] ?] ?]|]. split; [done|]. split; [done|]. split; [done|].
    split; [by constructor|]. split; [done|].
    destruct (Z.eq_dec got' got) as [->|]; unfold credit in *; [|repeat case_if; lia].
    destruct (Hz eq_refl) as [Hd Hd']. rewrite Hd. apply Z.eqb_neq in Hd'. rewrite Hd' in H6. simpl. lia.
  - exists (state o), ks, [ret o]. rewrite <- Hs. cbn [fst snd].
    rewrite drop_ge by (unfold zlen; lia). split; [done|]. split; [done|]. split; [done|]. split; [done|].
    split; [by constructor|]. split; [done|]. unfold credit. case_if; lia.
Qed.

(** The frames' effects, in order. *)
Fixpoint serve_all (size : Z) (s : session) (frames : list (list Z * list Z)) : session * list event :=
  match frames with
  | [] => (s, [])
  | f :: fs => let (s1, evs1) := serve size s f in
               let (s2, evs2) := serve_all size s1 fs in (s2, evs1 ++ evs2)
  end.

(** The frames are well-formed, each fits the session it finds, and the
    connection is not closed before the last of them. *)
Fixpoint stream_ok (size : Z) (s : session) (frames : list (list Z * list Z)) : Prop :=
  match frames with
  | [] => True
  | f :: fs => frame_ok (fst f) (snd f) /\ 0 <= fd s /\ frame_fits size s (snd f)
               /\ reads_ok s (fst f) (snd f) 0 /\ stream_ok size (fst (serve size s f)) fs
  end.

Definition wire (frames : list (list Z * list Z)) : list Z :=
  concat (map (fun f => fst f ++ snd f) frames).

Lemma effect_fields size s h pl :
  connection_generation (fst (effect size s h pl)) = connection_generation s
  /\ rx_bytes (fst (effect size s h pl)) = rx_bytes s.
Proof.
  assert (Hsig : forall t c s0, connection_generation (signal_opt t c s0) = connection_generation s0
    /\ rx_bytes (signal_opt t c s0) = rx_bytes s0) by (by intros [[? ?]|]).
  assert (Hopen : forall b n s0, connection_generation (afpc_dsi_opensession_reply b n s0) = connection_generation s0
    /\ rx_bytes (afpc_dsi_opensession_reply b n s0) = rx_bytes s0).
  { intros b n s0. unfold afpc_dsi_opensession_reply. by destruct (options_loop _ _ _ _ _ _). }
  assert (Hdis : forall t p, connection_generation (fst (dispatch handler afp_reply attention s p t)) = connection_generation s
    /\ rx_bytes (fst (dispatch handler afp_reply attention s p t)) = rx_bytes s).
  { intros [[p0 r0]|] p; unfold dispatch; cbv zeta; repeat case_if; cbn [fst]; try apply Hopen; try done; apply Hsig. }
  unfold DsiFraming.effect. destruct (target s h) as [[p r]|]; repeat case_if; cbn [fst]; try apply Hdis; try done.
  unfold fill. by destruct (read_buffer r).
Qed.

Lemma serve_fields size s f :
  connection_generation (fst (serve size s f)) = connection_generation s
  /\ 0 <= rx_bytes (fst (serve size s f)) < 2 ^ 64.
Proof.
  unfold DsiFraming.serve. destruct (effect_fields size (count_rx (sizeof_dsi_header + zlen (snd f)) s) (fst f) (snd f)) as [-> ->].
  split; [done|]. simpl. unfold u64. apply Z.mod_pos_bound. lia.
Qed.

Lemma count_rx_0 s : 0 <= rx_bytes s < 2 ^ 64 -> count_rx 0 s = s.
Proof. intros H. destruct s. unfold count_rx. simpl in *. rewrite Z.add_0_r, u64_small by lia. done. Qed.

(** The loop, from between two frames. *)
Lemma pump_stream size gen frames : forall ks sv s more,
  idle size gen (rx sv) -> bytes_ok (incoming_buffer (rx sv)) -> erase (ses sv) = s ->
  connection_generation s = gen -> 0 <= rx_bytes s < 2 ^ 64 ->
  stream_ok size s frames -> bytes_ok (wire frames ++ more) -> all_pos ks ->
  3 * zlen (wire frames) <= zlen ks ->
  exists sv' ks' rets,
    pump ks sv (wire frames ++ more) =
      (let '(sv2, rest2, evs2, rets2) := pump ks' sv' more in
       (sv2, rest2, snd (serve_all size s frames) ++ evs2, rets ++ rets2))
    /\ idle size gen (rx sv') /\ erase (ses sv') = fst (serve_all size s frames)
    /\ Forall (fun c => c = 0) rets.
Proof.
  induction frames as [|[h pl] fs IH]; intros ks sv s more Hidle Hb He Hgen Hrx Hok Hbytes Hks Hlen.
  { exists sv, ks, []. change (wire [] ++ more) with more. cbn [serve_all fst snd].
    split; [by destruct (pump ks sv more) as [[[? ?] ?] ?]|]. by split. }
  destruct Hok as (Hfr & Hfd & Hfit & Hrd & Hok). cbn [fst snd] in *.
  change (wire ((h, pl) :: fs)) with ((h ++ pl) ++ wire fs) in *. rewrite <- !app_assoc in Hbytes.
  pose proof Hfr as [Hh _ _ _]. pose proof (zlen_nonneg pl).
  assert (Hfl : zlen (h ++ pl) = 16 + zlen pl) by (rewrite zlen_app, Hh; done).
  rewrite zlen_app in Hlen. pose proof (zlen_nonneg (wire fs)).
  assert (Hcr : credit (rx sv) <= 1) by (unfold credit; case_if; lia).
  destruct (pump_frame size gen s h pl (wire fs ++ more)) with (ks := ks) (sv := sv) (got := 0)
    as (sv1 & ks1 & rets1 & Hp & H1 & H2 & H3 & H4 & H5 & H6); try done; [lia| |lia|].
  { apply mid_gather; [done|by rewrite count_rx_0|left; unfold sizeof_dsi_header; lia]. }
  destruct (serve_fields size s (h, pl)) as [G1 G2].
  destruct (IH ks1 sv1 _ more H1 H2 H3) as (sv2 & ks2 & rets2 & Hp2 & K1 & K2 & K3);
    [by rewrite G1|done|done| |done|lia|].
  { apply bytes_ok_app in Hbytes as [_ Hbytes]. by apply bytes_ok_app in Hbytes as [_ ?]. }
  exists sv2, ks2, (rets1 ++ rets2). change (drop (Z.to_nat 0) (h ++ pl)) with (h ++ pl) in Hp.
  rewrite <- app_assoc, Hp, Hp2. cbn [serve_all].
  destruct (serve size s (h, pl)) as [s1 evs1]. cbn [fst snd] in *.
  destruct (serve_all size s1 fs) as [s2 evs2]. cbn [fst snd] in *.
  destruct (pump ks2 sv2 more) as [[[? ?] ?] ?]. rewrite <- !app_assoc. split; [done|].
  split; [done|]. split; [done|]. by apply Forall_app.
Qed.

(** C1: the receiver implements its specification. A stream of well-formed
    frames, cut into pieces in any way, leaves the session as its frames do
    one after the other: every read gets exactly its reply's bytes and its
    result, every other reply reaches its request's parser whole and wakes its
    sender with the result, frames nobody waits for have no effect, the events
    come in the order of the frames, every call answers 0 and no byte is left
    over. The bound is on the calls it may take. The memory for the copy of an
    attention packet is taken for granted, the thread that serves it is not. *)
Theorem frames_served size sv frames ks :
  idle size (connection_generation (ses sv)) (rx sv) -> bytes_ok (incoming_buffer (rx sv)) ->
  0 <= rx_bytes (ses sv) < 2 ^ 64 ->
  stream_ok size (erase (ses sv)) frames -> bytes_ok (wire frames) ->
  all_pos ks -> 3 * zlen (wire frames) <= zlen ks ->
  exists sv' rets,
    pump ks sv (wire frames) = (sv', [], snd (serve_all size (erase (ses sv)) frames), rets)
    /\ erase (ses sv') = fst (serve_all size (erase (ses sv)) frames)
    /\ idle size (connection_generation (ses sv)) (rx sv') /\ Forall (fun c => c = 0) rets.
Proof.
  intros Hidle Hb Hrx Hok Hbytes Hks Hlen.
  destruct (pump_stream size (connection_generation (ses sv)) frames ks sv (erase (ses sv)) [])
    as (sv' & ks' & rets & Hp & H1 & H2 & H3); try done; [by rewrite app_nil_r|].
  exists sv', rets. rewrite app_nil_r in Hp. rewrite Hp.
  destruct ks'; simpl; rewrite !app_nil_r; done.
Qed.

End Frames.

(** A session with a read under way, its reply in two pieces, and a flush
    between them. *)
Definition sample_read : dsi_request :=
  new_request 9 afpRead None 5 3 false (Some (RxBuffer 0 8 (zero_bytes 8))).

Definition sample_session : session :=
  Session 4 3 SERVER_STATE_CONNECTED false [] 1024 0 false 0
    (Queue {[ 1 := sample_read ]} [1] 1).

Definition sample_server : server :=
  Server (RxState (zero_bytes 32) 0 32 0 0 3 0) sample_session.

Definition sample_header : list Z := [1; 2; 0; 9; 0; 0; 0; 0; 0; 0; 0; 3; 0; 0; 0; 0].

Definition no_reply : Z -> list Z -> Z := fun _ _ => 0.
Definition no_afp_reply : Z -> Z -> list Z -> Z := fun _ _ _ => 0.
Definition any_attention : Z -> list Z -> option bool := fun _ _ => Some true.

Lemma any_memory n packet : any_attention n packet <> None.
Proof. done. Qed.

Lemma sample_frame_ok : frame_ok sample_header [7; 8; 9].
Proof. split; try done. by right. Qed.

Lemma sample_idle : idle 32 3 (rx sample_server).
Proof. repeat split; vm_compute; done. Qed.

Lemma sample_room : reads_ok (erase (ses sample_server)) sample_header [7; 8; 9] 0.
Proof.
  intros p r Ht _. vm_compute in Ht. injection Ht as <- <-. eexists. split; [reflexivity|]. done.
Qed.

Definition sample_step (k : Z) (sv : server) (rest : list Z) : outcome * list Z :=
  run_io (afpc_dsi_recv no_reply no_afp_reply any_attention sv) k rest.

(** The header, two bytes of the payload; then the queue is flushed. *)
Definition sample_1 : outcome := fst (sample_step 16 sample_server (sample_header ++ [7; 8; 9])).
Definition sample_2 : outcome := fst (sample_step 2 (state sample_1) [7; 8; 9]).
Definition sample_flushed : server :=
  Server (rx (state sample_2))
    (set_requests (afpc_dsi_flush_request_queue (requests (ses (state sample_2)))) (ses (state sample_2))).
Definition sample_3 : outcome := fst (sample_step 9 sample_flushed [9]).
Definition sample_4 : outcome := fst (sample_step 9 (state sample_3) [9]).

Lemma sample_run :
  frame_run no_reply no_afp_reply any_attention sample_header [7; 8; 9] [] sample_server 0
    [ret sample_1; ret sample_2; ret sample_3; ret sample_4] (state sample_4) 19.
Proof.
  refine (run_recv _ _ _ _ _ _ sample_server 0 16 sample_1 [7; 8; 9] _ _ _ _ _ _ _); [done|done|vm_compute; reflexivity|].
  refine (run_recv _ _ _ _ _ _ (state sample_1) _ 2 sample_2 [9] _ _ _ _ _ _ _); [done|done|vm_compute; reflexivity|].
  refine (run_other _ _ _ _ _ _ (state sample_2) _ (ses sample_flushed) _ _ _ _ _).
  { by split. }
  refine (run_recv _ _ _ _ _ _ sample_flushed _ 9 sample_3 [9] _ _ _ _ _ _ _); [done|done|vm_compute; reflexivity|].
  refine (run_recv _ _ _ _ _ _ (state sample_3) _ 9 sample_4 [] _ _ _ _ _ _ _); [done|done|vm_compute; reflexivity|].
  apply run_end.
Qed.

Theorem receiver_keeps_framing_witness : idle 32 3 (rx (state sample_4)).
Proof.
  destruct (receiver_keeps_framing no_reply no_afp_reply any_attention any_memory 32 3 sample_server sample_header [7; 8; 9] []
    [ret sample_1; ret sample_2; ret sample_3; ret sample_4] (state sample_4) 19) as (_ & _ & _ & _ & H).
  - apply sample_frame_ok.
  - apply (bool_decide_unpack _). vm_compute. done.
  - apply sample_idle.
  - apply (bool_decide_unpack _). vm_compute. done.
  - done.
  - done.
  - left. done.
  - apply sample_room.
  - apply sample_run.
  - by apply H.
Defined.

(** A read's reply and a tickle, one byte at a time. *)
Definition sample_frames : list (list Z * list Z) :=
  [(sample_header, [7; 8; 9]); ([0; 5; 0; 1; 0; 0; 0; 0; 0; 0; 0; 0; 0; 0; 0; 0], [])].

Lemma sample_stream_ok : stream_ok no_reply no_afp_reply any_attention 32 (erase (ses sample_server)) sample_frames.
Proof.
  split; [apply sample_frame_ok|]. split; [done|]. split; [by left|]. split; [apply sample_room|].
  split; [split; try done; by left|]. split; [done|]. split; [by left|]. by split.
Qed.

Theorem frames_served_witness :
  exists sv' rets,
    pump no_reply no_afp_reply any_attention (replicate 150 1) sample_server (wire sample_frames) = (sv', [], [Ev_tickle], rets)
    /\ read_buffer (default sample_read (heap (requests (erase (ses sv'))) !! 1))
       = Some (RxBuffer 3 8 [7; 8; 9; 0; 0; 0; 0; 0]).
Proof.
  destruct (frames_served no_reply no_afp_reply any_attention any_memory 32 sample_server sample_frames (replicate 150 1))
    as (sv' & rets & Hp & He & _ & _).
  - apply sample_idle.
  - apply (bool_decide_unpack _). vm_compute. done.
  - done.
  - apply sample_stream_ok.
  - apply (bool_decide_unpack _). vm_compute. done.
  - apply (bool_decide_unpack _). vm_compute. done.
  - vm_compute. done.
  - exists sv', rets. split; [exact Hp|]. rewrite He. vm_compute. reflexivity.
Defined.
