(* ===== verification/Local.v ===== *)
(** The local system under the metadata code of src/daemon: the calls it makes
    as commands, programs over any system that answers them, and a plain disk
    that does as POSIX says. *)
From stdpp Require Import gmap.
From S2P Require Import Prelude AfpProtocol.

(** ** Commands *)

(** open's flags, with the mode of a file it creates. *)
Inductive open_how := Rdonly | Rdwr_creat (mode : Z) | Wronly_creat_trunc (mode : Z).

(** A remote file's metadata through the daemon, by the afp_sl functions. An answer is the
    int of the call, with what it stored. *)
Inductive remote : Type -> Type :=
| Removefinderinfo : remote Z
| Removeresourcefork : remote Z
| Getfinderinfo : remote (Z * list Z)
| Setfinderinfo (value : list Z) : remote Z
| Getresourcefork (size offset : Z) : remote (Z * list Z)
| Setresourcefork (value : list Z) (offset : Z) : remote Z
| Listxattr (size : Z) : remote (Z * list Z)
| Getxattr (name : list Z) (size : Z) : remote (Z * list Z)
| Setxattr (name value : list Z) : remote Z
| Removexattr (name : list Z) : remote Z.

(** A system call answers a value or an errno. *)
Inductive sys : Type -> Type :=
| Stat (path : list Z) : sys (res Z)
| Lstat (path : list Z) : sys (res Z)
| Fstat_size (fd : Z) : sys (res Z)
| Mkdir (path : list Z) (mode : Z) : sys (res unit)
| Open (path : list Z) (how : open_how) : sys (res Z)
| Close (fd : Z) : sys unit
| Pread (fd size offset : Z) : sys (res (list Z))
| Pwrite (fd : Z) (data : list Z) (offset : Z) : sys (res Z)
| Read (fd size : Z) : sys (res (list Z))
| Write (fd : Z) (data : list Z) : sys (res Z)
| Ftruncate (fd size : Z) : sys (res unit)
| Unlink (path : list Z) : sys (res unit)
| Sys_listxattr (path : list Z) (size : Z) : sys (res (Z * list Z))
| Sys_getxattr (path name : list Z) (size : Z) : sys (res (Z * list Z))
| Sys_setxattr (path name value : list Z) : sys (res unit)
| Sys_removexattr (path name : list Z) : sys (res unit)
| Alloc (size : Z) : sys bool
| Remote {A} (volume : Z) (path : list Z) (r : remote A) : sys A.

Class Os (S : Type) := answer : forall A, sys A -> S -> A * S.
Arguments answer {S _ A} _ _.

(** ** Programs *)

Definition L (S A : Type) : Type := S -> A * S.
Definition lret {S A} (a : A) : L S A := fun s => (a, s).
Definition lbind {S A B} (m : L S A) (k : A -> L S B) : L S B := fun s => let (a, s) := m s in k a s.
Definition syscall {S A} `{Os S} (c : sys A) : L S A := answer c.

Declare Scope local_scope.
Notation "'let*' x ':=' m 'in' k" := (lbind m (fun x => k))
  (at level 10, x pattern, m at level 100, k at level 200) : local_scope.
Notation "m ';;*' k" := (lbind m (fun _ => k)) (at level 60, right associativity) : local_scope.

(** A step that may fail: its error is the answer. *)
Definition ltry {S A B} (m : L S (res A)) (k : A -> L S (res B)) : L S (res B) :=
  lbind m (fun r => match r with Ok a => k a | Err e => lret (Err e) end).
Notation "'try*' x ':=' m 'in' k" := (ltry m (fun x => k))
  (at level 10, x pattern, m at level 100, k at level 200) : local_scope.

Definition fails {S A} (e : Z) : L S (res A) := lret (Err e).
Definition yields {S A} (a : A) : L S (res A) := lret (Ok a).

(** ** A disk *)

(** Paths are compared byte by byte; there are no links. *)
Inductive node := Folder (mode : Z) | File (mode : Z) (data : list Z).

Record disk := Disk {
  nodes : gmap (list Z) node; handles : gmap Z (list Z * Z); next_handle : Z;
  xattrs : option (gmap (list Z) (list (list Z * list Z))) }.

Definition NAME_MAX : Z := 255.

Definition node_mode (n : node) : Z := match n with Folder m => Z.lor 0x4000 m | File m _ => Z.lor 0x8000 m end.

Definition set_nodes (n : gmap (list Z) node) (d : disk) : disk := Disk n (handles d) (next_handle d) (xattrs d).
Definition set_handles (h : gmap Z (list Z * Z)) (d : disk) : disk := Disk (nodes d) h (next_handle d) (xattrs d).
Definition set_xattrs (x : gmap (list Z) (list (list Z * list Z))) (d : disk) : disk :=
  Disk (nodes d) (handles d) (next_handle d) (Some x).

(** The folder that holds a path, and the name it has there. *)
Definition holder (path : list Z) : list Z :=
  match strrchr path ch_slash with
  | None => str "."
  | Some i => if i =? 0 then str "/" else take (Z.to_nat i) path
  end.
Definition base_name (path : list Z) : list Z :=
  match strrchr path ch_slash with None => path | Some i => drop (Z.to_nat (i + 1)) path end.

Definition new_handle (path : list Z) (d : disk) : Z * disk :=
  (next_handle d, Disk (nodes d) (<[next_handle d := (path, 0)]> (handles d)) (next_handle d + 1) (xattrs d)).

Definition may_create (path : list Z) (d : disk) : res unit :=
  if zlen (base_name path) >? NAME_MAX then Err ENAMETOOLONG
  else match nodes d !! holder path with
       | Some (Folder _) => Ok tt
       | Some (File _ _) => Err ENOTDIR
       | None => Err ENOENT
       end.

Definition disk_open (path : list Z) (how : open_how) (d : disk) : res Z * disk :=
  match how, nodes d !! path with
  | Rdonly, Some _ => let (fd, d) := new_handle path d in (Ok fd, d)
  | Rdonly, None => (Err (if zlen (base_name path) >? NAME_MAX then ENAMETOOLONG else ENOENT), d)
  | _, Some (Folder _) => (Err EISDIR, d)
  | Rdwr_creat _, Some (File _ _) => let (fd, d) := new_handle path d in (Ok fd, d)
  | Wronly_creat_trunc _, Some (File m _) =>
      let (fd, d) := new_handle path (set_nodes (<[path := File m []]> (nodes d)) d) in (Ok fd, d)
  | Rdwr_creat mode, None | Wronly_creat_trunc mode, None =>
      match may_create path d with
      | Err e => (Err e, d)
      | Ok _ => let (fd, d) := new_handle path (set_nodes (<[path := File mode []]> (nodes d)) d) in (Ok fd, d)
      end
  end.

(** The file behind a handle and its position. *)
Definition file_at (fd : Z) (d : disk) : option (list Z * Z * list Z * Z) :=
  match handles d !! fd with
  | None => None
  | Some (path, pos) => match nodes d !! path with Some (File m data) => Some (path, m, data, pos) | _ => None end
  end.

(** A write past the end fills the gap with zeros. *)
Definition write_at (data : list Z) (off : Z) (bs : list Z) : list Z :=
  store (data ++ zero_bytes (off - zlen data)) off bs.

Definition resize (data : list Z) (n : Z) : list Z := take (Z.to_nat n) data ++ zero_bytes (n - zlen data).

Definition put_data (path : list Z) (m : Z) (data : list Z) (d : disk) : disk := set_nodes (<[path := File m data]> (nodes d)) d.

(** The attributes of a path, or why it has none. *)
Definition attrs_of (path : list Z) (d : disk) : res (list (list Z * list Z)) :=
  match nodes d !! path, xattrs d with
  | None, _ => Err ENOENT
  | _, None => Err EOPNOTSUPP
  | _, Some x => Ok (default [] (x !! path))
  end.
Definition put_attrs (path : list Z) (l : list (list Z * list Z)) (d : disk) : disk :=
  match xattrs d with Some x => set_xattrs (<[path := l]> x) d | None => d end.
Definition attr_lookup (name : list Z) (l : list (list Z * list Z)) : option (list Z) :=
  snd <$> find (fun a => list_eqb (fst a) name) l.
Definition attr_put (name value : list Z) (l : list (list Z * list Z)) : list (list Z * list Z) :=
  match attr_lookup name l with
  | Some _ => map (fun a => if list_eqb (fst a) name then (name, value) else a) l
  | None => l ++ [(name, value)]
  end.

(** An answer of [n] bytes for a buffer of [size]: only the count for none. *)
Definition sized (size : Z) (bs : list Z) : res (Z * list Z) :=
  if size =? 0 then Ok (zlen bs, []) else if zlen bs >? size then Err ERANGE else Ok (zlen bs, bs).

#[export] Instance disk_os {R} (remote_answer : forall A, Z -> list Z -> remote A -> R -> A * R) : Os (disk * R) :=
  fun A c s =>
  let (d, r) := s in
  match c in sys A return A * (disk * R) with
  | Stat path | Lstat path => (match nodes d !! path with Some n => Ok (node_mode n) | None => Err ENOENT end, s)
  | Fstat_size fd =>
      (match file_at fd d with Some (_, _, data, _) => Ok (zlen data) | None => Err EBADF end, s)
  | Mkdir path mode =>
      match nodes d !! path with
      | Some _ => (Err EEXIST, s)
      | None => match may_create path d with
                | Err e => (Err e, s)
                | Ok _ => (Ok tt, (set_nodes (<[path := Folder mode]> (nodes d)) d, r))
                end
      end
  | Open path how => let (a, d) := disk_open path how d in (a, (d, r))
  | Close fd => (tt, (set_handles (delete fd (handles d)) d, r))
  | Pread fd size offset =>
      (match file_at fd d with Some (_, _, data, _) => Ok (sub offset size data) | None => Err EBADF end, s)
  | Pwrite fd data offset =>
      match file_at fd d with
      | Some (path, m, old, _) => (Ok (zlen data), (put_data path m (write_at old offset data) d, r))
      | None => (Err EBADF, s)
      end
  | Read fd size =>
      match file_at fd d with
      | Some (path, _, data, pos) =>
          let bs := sub pos size data in
          (Ok bs, (set_handles (<[fd := (path, pos + zlen bs)]> (handles d)) d, r))
      | None => (Err EBADF, s)
      end
  | Write fd data =>
      match file_at fd d with
      | Some (path, m, old, pos) =>
          (Ok (zlen data),
           (set_handles (<[fd := (path, pos + zlen data)]> (handles d)) (put_data path m (write_at old pos data) d), r))
      | None => (Err EBADF, s)
      end
  | Ftruncate fd size =>
      match file_at fd d with
      | Some (path, m, old, _) => (Ok tt, (put_data path m (resize old size) d, r))
      | None => (Err EBADF, s)
      end
  | Unlink path =>
      match nodes d !! path with
      | Some (File _ _) => (Ok tt, (set_nodes (delete path (nodes d)) d, r))
      | Some (Folder _) => (Err EISDIR, s)
      | None => (Err ENOENT, s)
      end
  | Sys_listxattr path size =>
      (match attrs_of path d with
       | Ok l => sized size (flat_map (fun a => fst a ++ [0]) l)
       | Err e => Err e
       end, s)
  | Sys_getxattr path name size =>
      (match attrs_of path d with
       | Ok l => match attr_lookup name l with Some v => sized size v | None => Err ENOATTR end
       | Err e => Err e
       end, s)
  | Sys_setxattr path name value =>
      match attrs_of path d with
      | Ok l => (Ok tt, (put_attrs path (attr_put name value l) d, r))
      | Err e => (Err e, s)
      end
  | Sys_removexattr path name =>
      match attrs_of path d with
      | Ok l => match attr_lookup name l with
                | Some _ => (Ok tt, (put_attrs path (filter (fun a => list_eqb (fst a) name = false) l) d, r))
                | None => (Err ENOATTR, s)
                end
      | Err e => (Err e, s)
      end
  | Alloc _ => (true, s)
  | Remote volume path c => let (a, r) := remote_answer _ volume path c r in (a, (d, r))
  end.
