(* ===== verification/Sidecar.v ===== *)
(** The stores of a local file's metadata (src/daemon/metadata.c): extended
    attributes of the system, AppleDouble files, and the attribute files of
    Netatalk.

    A function answers [Ok] with what it stores through its pointers, or [Err]
    with its negative answer. [apple] is the build for macOS; the other is
    Linux with sys/xattr.h. *)
From S2P Require Import Prelude AfpProtocol Identify Xattr Local.
Open Scope local_scope.

Definition COPY_SOURCE : list Z := str "com.apple.finder.copy.source".
Definition COPY_CHECKPOINT : list Z := str "com.apple.finder.copy.checkpoint#".
Definition RESUMABLE_COPY : list Z := str "com.apple.metadata:kMDItemResumableCopy".

Definition SYS_NAME_MAX : Z := zlen AFP_XATTR_USER_PREFIX + AFP_XATTR_NAME_MAX.
Definition SYS_NAME_SIZE : Z := SYS_NAME_MAX + 1.
Definition PATH_MAX : Z := 4096.
Definition SSIZE_MAX : Z := INT64_MAX.

Definition AD_MAGIC : Z := 0x00051607.
Definition AD_VERSION : Z := 0x00020000.
Definition AD_HEADER_SIZE : Z := 26.
Definition AD_ENTRY_SIZE : Z := 12.
Definition AD_FINDER_ID : Z := 9.
Definition AD_RESOURCE_ID : Z := 2.
Definition AD_MACOS_DATA_OFFSET : Z := 82.
Definition AD_NETATALK_DATA_OFFSET : Z := 741.
Definition EA_MAGIC : Z := 0x61644541.
Definition EA_VERSION : Z := 1.
Definition EA_HEADER_SIZE : Z := 8.

Definition AFP_METADATA_AUTO : Z := 0.
Definition AFP_METADATA_NETATALK : Z := 1.
Definition AFP_METADATA_XATTR : Z := 2.
Definition AFP_METADATA_MACOS : Z := 3.
Definition AFP_METADATA_NONE : Z := 4.

Definition AFP_METADATA_WARNING_NONE : Z := 0.
Definition AFP_METADATA_WARNING_UNSUPPORTED : Z := 1.
Definition AFP_METADATA_WARNING_VALUE_TOO_LARGE : Z := 2.
Definition AFP_METADATA_WARNING_LIST_TOO_LARGE : Z := 4.
Definition AFP_SL_METADATA_CHUNK : Z := 4096.
Definition AFP_SL_XATTR_LIST_MAX : Z := 224 * 1024.

Record ad_entry := Entry { e_id : Z; e_offset : Z; e_length : Z; e_header_offset : Z }.
Definition no_entry : ad_entry := Entry 0 0 0 0.
Record ad_info := Info { finder : ad_entry; resource : ad_entry }.
Record ea_item := Item { i_name : list Z; i_size : Z }.

(** ** Modes and names *)

Definition metadata_absent (error : Z) : bool := error =? ENOATTR.
Definition metadata_unsupported (error : Z) : bool := (error =? EOPNOTSUPP) || (error =? ENOSYS).

Definition afp_metadata_mode_parse (name : option (list Z)) : res Z :=
  match name with
  | None => Err (- EINVAL)
  | Some name =>
      if list_eqb name (str "auto") then Ok AFP_METADATA_AUTO
      else if list_eqb name (str "netatalk") then Ok AFP_METADATA_NETATALK
      else if list_eqb name (str "xattr") then Ok AFP_METADATA_XATTR
      else if list_eqb name (str "macos") then Ok AFP_METADATA_MACOS
      else if list_eqb name (str "none") then Ok AFP_METADATA_NONE
      else Err (- EINVAL)
  end.

Definition metadata_mode_valid (mode : Z) : bool := (mode >=? AFP_METADATA_AUTO) && (mode <=? AFP_METADATA_NONE).

Definition afp_metadata_mode_name (mode : Z) : list Z :=
  if mode =? AFP_METADATA_AUTO then str "auto"
  else if mode =? AFP_METADATA_NETATALK then str "netatalk"
  else if mode =? AFP_METADATA_XATTR then str "xattr"
  else if mode =? AFP_METADATA_MACOS then str "macos"
  else if mode =? AFP_METADATA_NONE then str "none"
  else str "unknown".

Definition metadata_name_filtered (name : option (list Z)) : bool :=
  match name with
  | None => true
  | Some name =>
      let name := afp_xattr_strip_user_prefix name in
      starts name NETATALK_XATTR_META || list_eqb name COPY_SOURCE || list_eqb name RESUMABLE_COPY
      || starts name COPY_CHECKPOINT
  end.

Definition metadata_name_valid (name : option (list Z)) : bool :=
  match name with
  | None => false
  | Some name =>
      let length := strnlen name (AFP_XATTR_NAME_MAX + 1) in
      (length >? 0) && (length <=? AFP_XATTR_NAME_MAX)
      && negb (existsb (Z.eqb ch_slash) (take (Z.to_nat length) name))
  end.

(** snprintf into [size] bytes. *)
Definition snprintf (size : Z) (text : list Z) : list Z := take (Z.to_nat (size - 1)) text.

Definition sys_name (apple : bool) (name : list Z) : list Z :=
  if apple then name
  else if starts name AFP_XATTR_USER_PREFIX then name
  else snprintf SYS_NAME_SIZE (AFP_XATTR_USER_PREFIX ++ name).

(** The name is added to the list of names, unless it is there. *)
Fixpoint name_in (fuel : nat) (rest name : list Z) : res bool :=
  match fuel, rest with
  | _, [] => Ok false
  | O, _ => Err (- EIO)
  | S fuel, _ =>
      let current_len := strnlen rest (zlen rest) in
      if current_len =? zlen rest then Err (- EIO)
      else if list_eqb (until_nul rest) name then Ok true
      else name_in fuel (drop (Z.to_nat (current_len + 1)) rest) name
  end.

Section Programs.
Context {S : Type} `{Os S} (apple : bool).

(** A call whose errno is the answer. *)
Definition sysret {A} (c : sys (res A)) : L S (res A) :=
  let* r := syscall c in lret match r with Ok a => Ok a | Err e => Err (- e) end.

(** malloc, calloc, realloc or strdup. *)
Definition alloc (n : Z) : L S (res unit) := let* b := syscall (Alloc n) in if b then yields tt else fails (- ENOMEM).

Definition local_path_check (path : option (list Z)) : L S (res (list Z)) :=
  match path with
  | None => fails (- EINVAL)
  | Some p => try* _ := sysret (Stat p) in yields p
  end.

(** ** Extended attributes of the system *)

(** The count of the call and its bytes; a size of 0 asks for the count. *)
Definition sys_get (path name : list Z) (size : Z) : L S (res (Z * list Z)) :=
  sysret (Sys_getxattr path (sys_name apple name) size).
Definition sys_set (path name value : list Z) : L S (res unit) := sysret (Sys_setxattr path (sys_name apple name) value).
Definition sys_remove (path name : list Z) : L S (res unit) := sysret (Sys_removexattr path (sys_name apple name)).

Definition sys_xattrs_supported (path : list Z) : L S (res bool) :=
  let* r := syscall (Sys_listxattr path 0) in
  match r with
  | Ok _ => yields true
  | Err e => if metadata_unsupported e then yields false else fails (- e)
  end.

Definition resolve_generic_mode (path : list Z) (mode : Z) : L S (res Z) :=
  if negb (mode =? AFP_METADATA_AUTO) then yields mode
  else
    try* supported := sys_xattrs_supported path in
    yields (if supported then AFP_METADATA_XATTR else AFP_METADATA_NETATALK).

Definition apple_metadata_uses_sys (mode : Z) : bool :=
  apple && ((mode =? AFP_METADATA_AUTO) || (mode =? AFP_METADATA_XATTR)).

Definition append_name (l name : list Z) : L S (res (list Z)) :=
  let name_len := strnlen name SYS_NAME_SIZE in
  if name_len =? SYS_NAME_SIZE then fails (- ENAMETOOLONG)
  else
    match name_in (length l) l name with
    | Err e => fails e
    | Ok true => yields l
    | Ok false =>
        try* _ := alloc (zlen l + name_len + 1) in
        yields (l ++ name ++ [0])
    end.

(** The names of the system's answer that are not filtered. *)
Fixpoint sys_list_loop (fuel : nat) (raw l : list Z) : L S (res (list Z)) :=
  match fuel, raw with
  | _, [] => yields l
  | O, _ => fails (- EIO)
  | Datatypes.S fuel, _ =>
      let length := strnlen raw (zlen raw) in
      if length =? zlen raw then fails (- EIO)
      else
        let rest := drop (Z.to_nat (length + 1)) raw in
        if metadata_name_filtered (Some (until_nul raw)) then sys_list_loop fuel rest l
        else try* l := append_name l (until_nul raw) in sys_list_loop fuel rest l
  end.

Definition sys_list (path : list Z) : L S (res (list Z)) :=
  try* needed := sysret (Sys_listxattr path 0) in
  if fst needed =? 0 then yields []
  else
    try* _ := alloc (fst needed) in
    try* raw := sysret (Sys_listxattr path (fst needed)) in
    sys_list_loop (length (snd raw)) (snd raw) [].

(** ** AppleDouble files *)

Definition is_folder (r : res Z) : bool := match r with Ok mode => Z.land mode 0xF000 =? 0x4000 | Err _ => false end.

Definition printed (size : Z) (text : list Z) : L S (res (list Z)) :=
  if zlen text >=? size then fails (- ENAMETOOLONG) else yields text.

Definition sidecar_path (path : list Z) (netatalk : bool) : L S (res (list Z)) :=
  let dirlen := match strrchr path ch_slash with Some slash => slash + 1 | None => 0 end in
  let dir := take (Z.to_nat dirlen) path in
  let base := drop (Z.to_nat dirlen) path in
  let* st := syscall (Lstat path) in
  printed PATH_MAX
    (if negb netatalk then dir ++ str "._" ++ base
     else if is_folder st then path ++ str "/.AppleDouble/.Parent"
     else dir ++ str ".AppleDouble/" ++ base).

Definition ensure_sidecar_dir (sidecar : list Z) : L S (res unit) :=
  match strrchr sidecar ch_slash with
  | None => yields tt
  | Some i =>
      let parent := take (Z.to_nat i) sidecar in
      let slash := strrchr parent ch_slash in
      let base := match slash with Some j => drop (Z.to_nat (j + 1)) parent | None => parent end in
      if negb (list_eqb base (str ".AppleDouble")) then yields tt
      else
        let containing := match slash with
                          | None => str "."
                          | Some j => if j =? 0 then str "/" else take (Z.to_nat j) parent
                          end in
        try* st_mode := sysret (Stat containing) in
        let* r := syscall (Mkdir parent (Z.land st_mode 0x1ff)) in
        match r with
        | Ok _ => yields tt
        | Err e => if e =? EEXIST then yields tt else fails (- e)
        end
  end.

Definition sidecar_file_mode (path : list Z) : L S (res Z) :=
  try* st_mode := sysret (Stat path) in yields (Z.land st_mode 0x1b6).

Definition parse_entry (entry : list Z) (header_offset : Z) : ad_entry :=
  Entry (be_at entry 0 4) (be_at entry 4 4) (be_at entry 8 4) header_offset.

(** The entry is kept if it is one of the two; either may come once. *)
Definition keep_entry (parsed : ad_entry) (info : ad_info) : res ad_info :=
  let? info := if e_id parsed =? AD_FINDER_ID
               then if negb (e_offset (finder info) =? 0) then Err (- EINVAL) else Ok (Info parsed (resource info))
               else Ok info in
  if e_id parsed =? AD_RESOURCE_ID
  then if negb (e_offset (resource info) =? 0) then Err (- EINVAL) else Ok (Info (finder info) parsed)
  else Ok info.

(** The entries from the [i]-th on; [n] are left. *)
Fixpoint read_entries (fd st_size : Z) (n : nat) (i : Z) (info : ad_info) : L S (res ad_info) :=
  match n with
  | O => yields info
  | Datatypes.S n =>
      let header_offset := AD_HEADER_SIZE + i * AD_ENTRY_SIZE in
      let* r := syscall (Pread fd AD_ENTRY_SIZE header_offset) in
      match r with
      | Err _ => fails (- EIO)
      | Ok entry =>
          if negb (zlen entry =? AD_ENTRY_SIZE) then fails (- EIO)
          else
            let parsed := parse_entry entry header_offset in
            if e_offset parsed + e_length parsed >? st_size then fails (- EINVAL)
            else
              match keep_entry parsed info with
              | Err e => fails e
              | Ok info => read_entries fd st_size n (i + 1) info
              end
      end
  end.

Definition read_ad_info (fd : Z) : L S (res ad_info) :=
  let* r := syscall (Pread fd AD_HEADER_SIZE 0) in
  match r with
  | Err _ => fails (- EIO)
  | Ok header =>
      if negb (zlen header =? AD_HEADER_SIZE) then fails (- EIO)
      else if negb (be_at header 0 4 =? AD_MAGIC) then fails (- EINVAL)
      else if negb (be_at header 4 4 =? AD_VERSION) then fails (- EINVAL)
      else
        let count := be_at header 24 2 in
        if (count =? 0) || (count >? 32) then fails (- EINVAL)
        else
          let* st := syscall (Fstat_size fd) in
          match st with
          | Err _ => fails (- EINVAL)
          | Ok st_size => read_entries fd st_size (Z.to_nat count) 0 (Info no_entry no_entry)
          end
  end.

Definition put_u32 (header : list Z) (p value : Z) : list Z := store header p (be_put 4 value).
Definition put_u16 (header : list Z) (p value : Z) : list Z := store header p (be_put 2 value).

Definition ad_ids : list Z := [2; 3; 4; 8; 9; 11; 13; 14; 15; 0x80444556; 0x80494e4f; 0x8053594e; 0x8053567e].
Definition ad_offsets : list Z := [741; 182; 437; 637; 653; 705; 693; 689; 685; 713; 721; 729; 737].
Definition ad_lengths : list Z := [0; 0; 200; 16; 32; 8; 0; 4; 4; 8; 8; 8; 4].

Definition put_entry (header : list Z) (pos id offset length : Z) : list Z :=
  put_u32 (put_u32 (put_u32 header pos id) (pos + 4) offset) (pos + 8) length.

Fixpoint put_entries (header : list Z) (pos : Z) (es : list (Z * Z * Z)) : list Z :=
  match es with
  | [] => header
  | (id, offset, length) :: es => put_entries (put_entry header pos id offset length) (pos + AD_ENTRY_SIZE) es
  end.

(** The header of a new file. *)
Definition ad_header (netatalk : bool) : list Z :=
  let data_offset := if netatalk then AD_NETATALK_DATA_OFFSET else AD_MACOS_DATA_OFFSET in
  let count := if netatalk then 13 else 2 in
  let header := put_u32 (put_u32 (zero_bytes data_offset) 0 AD_MAGIC) 4 AD_VERSION in
  let header := if netatalk then store header 8 (str "Netatalk        ") else header in
  let header := put_u16 header 24 count in
  if netatalk then put_entries header AD_HEADER_SIZE (zip (zip ad_ids ad_offsets) ad_lengths)
  else
    let pos := AD_HEADER_SIZE + AD_ENTRY_SIZE in
    put_u32 (put_u32 (put_entry header AD_HEADER_SIZE AD_FINDER_ID 50 32) pos AD_RESOURCE_ID) (pos + 4)
      AD_MACOS_DATA_OFFSET.

(** A write that is not whole is an error. *)
Definition pwrite_all (fd : Z) (data : list Z) (offset : Z) : L S (res unit) :=
  let* r := syscall (Pwrite fd data offset) in
  match r with
  | Ok n => if n =? zlen data then yields tt else fails (- EIO)
  | Err _ => fails (- EIO)
  end.

Definition initialize_ad (fd : Z) (netatalk : bool) : L S (res unit) :=
  let data_offset := if netatalk then AD_NETATALK_DATA_OFFSET else AD_MACOS_DATA_OFFSET in
  try* _ := alloc data_offset in
  try* _ := sysret (Ftruncate fd data_offset) in
  pwrite_all fd (ad_header netatalk) 0.

Definition sidecar_open_error {A} (path : list Z) (error : Z) : L S (res A) :=
  if negb (error =? ENOENT) then fails (- error)
  else let* st := syscall (Stat path) in match st with Ok _ => fails (- ENOATTR) | Err e => fails (- e) end.

(** The end of a use of a handle. *)
Definition closing {A} (fd : Z) (a : A) : L S A := let* _ := syscall (Close fd) in lret a.

Definition ad_info_or_new (fd : Z) (netatalk write : bool) : L S (res ad_info) :=
  let* r := read_ad_info fd in
  match r with
  | Ok info => yields info
  | Err e => if write then try* _ := initialize_ad fd netatalk in read_ad_info fd else fails e
  end.

Definition open_ad (path : list Z) (netatalk write : bool) : L S (res (Z * ad_info)) :=
  try* sidecar := sidecar_path path netatalk in
  try* mode := if write then try* _ := ensure_sidecar_dir sidecar in sidecar_file_mode path else yields 0 in
  let* r := syscall (Open sidecar (if write then Rdwr_creat mode else Rdonly)) in
  match r with
  | Err e => if write then fails (- e) else sidecar_open_error path e
  | Ok fd =>
      let* r := ad_info_or_new fd netatalk write in
      match r with
      | Ok info => yields (fd, info)
      | Err e => closing fd (Err e)
      end
  end.

Definition ad_finder_get (path : list Z) (netatalk : bool) : L S (res (list Z)) :=
  try* (fd, info) := open_ad path netatalk false in
  let* r :=
    if (e_offset (finder info) =? 0) || (e_length (finder info) <? 32) then fails (- ENOATTR)
    else
      let* r := syscall (Pread fd 32 (e_offset (finder info))) in
      match r with
      | Ok value =>
          if negb (zlen value =? 32) then fails (- EIO)
          else if list_eqb value (zero_bytes 32) then fails (- ENOATTR) else yields value
      | Err _ => fails (- EIO)
      end in
  closing fd r.

Definition ad_finder_set (path : list Z) (netatalk : bool) (value : list Z) : L S (res unit) :=
  try* (fd, info) := open_ad path netatalk true in
  let* r := if e_offset (finder info) =? 0 then fails (- EIO) else pwrite_all fd value (e_offset (finder info)) in
  closing fd r.

Definition ad_resource_size (path : list Z) (netatalk : bool) : L S (res Z) :=
  try* (fd, info) := open_ad path netatalk false in
  closing fd (if negb (e_length (resource info) =? 0) then Ok (e_length (resource info)) else Err (- ENOATTR)).

Definition ad_resource_read (path : list Z) (netatalk : bool) (size offset : Z) : L S (res (list Z)) :=
  try* (fd, info) := open_ad path netatalk false in
  let* r :=
    if (offset <? 0) || (offset >=? e_length (resource info)) then yields []
    else
      let available := e_length (resource info) - offset in
      sysret (Pread fd (if size >? available then available else size) (e_offset (resource info) + offset)) in
  closing fd r.

Definition ad_resource_write (path : list Z) (netatalk : bool) (buf : list Z) (offset : Z) : L S (res unit) :=
  let size := zlen buf in
  try* (fd, info) := open_ad path netatalk true in
  if (offset <? 0) || (e_offset (resource info) =? 0) || (offset >? UINT32_MAX) || (size >? UINT32_MAX - offset)
  then closing fd (Err (- EFBIG))
  else
    let* r :=
      try* _ := if offset =? 0 then sysret (Ftruncate fd (e_offset (resource info))) else yields tt in
      try* _ := if size >? 0 then pwrite_all fd buf (e_offset (resource info) + offset) else yields tt in
      let end_ := offset + size in
      let end_ := if negb (offset =? 0) && (end_ <? e_length (resource info)) then e_length (resource info) else end_ in
      pwrite_all fd (be_put 4 end_) (e_header_offset (resource info) + 8) in
    closing fd r.

(** ** The attribute files of Netatalk *)

(** The header's path, and a value's. *)
Definition ea_paths (path : list Z) (name : option (list Z)) : L S (res (list Z * list Z)) :=
  try* adpath := sidecar_path path true in
  try* header := printed PATH_MAX (adpath ++ str "::EA") in
  match name with
  | None => yields (header, [])
  | Some name => try* value := printed PATH_MAX (adpath ++ str "::EA::" ++ name) in yields (header, value)
  end.

(** The terminator of a name, byte by byte from [pos]: the last byte read, how
    many came before it, and the position after it. *)
Fixpoint scan_name (fd st_size : Z) (fuel : nat) (c name_len pos : Z) : L S (res (Z * Z * Z)) :=
  match fuel with
  | O => yields (c, name_len, pos)
  | Datatypes.S fuel =>
      if (pos <? st_size) && (name_len <? 255) then
        let* r := syscall (Pread fd 1 pos) in
        match r with
        | Ok [c] => if c =? 0 then yields (c, name_len, pos + 1) else scan_name fd st_size fuel c (name_len + 1) (pos + 1)
        | _ => fails (- EIO)
        end
      else yields (c, name_len, pos)
  end.

Definition has_name (items : list ea_item) (name : list Z) : bool := existsb (fun i => list_eqb (i_name i) name) items.

(** The items from [pos] on, after those read. *)
Fixpoint load_loop (fd st_size : Z) (n : nat) (pos : Z) (items : list ea_item) : L S (res (list ea_item)) :=
  match n with
  | O => yields items
  | Datatypes.S n =>
      let* r := syscall (Pread fd 4 pos) in
      match r with
      | Err _ => fails (- EIO)
      | Ok length =>
          if negb (zlen length =? 4) then fails (- EIO)
          else
            let size := be_at length 0 4 in
            try* (c, name_len, pos) := scan_name fd st_size 256 1 0 (pos + 4) in
            if negb (c =? 0) then fails (- EINVAL)
            else
              try* _ := alloc (name_len + 1) in
              let* r := syscall (Pread fd name_len (pos - name_len - 1)) in
              match r with
              | Err _ => fails (- EIO)
              | Ok name =>
                  if negb (zlen name =? name_len) then fails (- EIO)
                  else if has_name items (until_nul name) then fails (- EINVAL)
                  else load_loop fd st_size n pos (items ++ [Item (until_nul name) size])
              end
      end
  end.

Definition load_items (fd : Z) : L S (res (list ea_item)) :=
  let* st := syscall (Fstat_size fd) in
  match st with
  | Err _ => fails (- EIO)
  | Ok st_size =>
      if st_size <? EA_HEADER_SIZE then fails (- EIO)
      else
        let* r := syscall (Read fd EA_HEADER_SIZE) in
        match r with
        | Err _ => fails (- EIO)
        | Ok fixed =>
            if negb (zlen fixed =? EA_HEADER_SIZE) then fails (- EIO)
            else
              let n := be_at fixed 6 2 in
              if negb (be_at fixed 0 4 =? EA_MAGIC) || negb (be_at fixed 4 2 =? EA_VERSION) || (n >? 1024)
              then fails (- EINVAL)
              else
                let* calloc := syscall (Alloc (n * 16)) in
                if negb (n =? 0) && negb calloc then fails (- ENOMEM)
                else load_loop fd st_size (Z.to_nat n) EA_HEADER_SIZE []
        end
  end.

Definition load_ea_items (path : list Z) : L S (res (list ea_item)) :=
  try* (header, _) := ea_paths path None in
  let* r := syscall (Open header Rdonly) in
  match r with
  | Err e => sidecar_open_error path e
  | Ok fd => let* r := load_items fd in closing fd r
  end.

(** The bytes of the header for its items. *)
Definition ea_bytes (items : list ea_item) : list Z :=
  be_put 4 EA_MAGIC ++ be_put 2 EA_VERSION ++ be_put 2 (u16 (zlen items))
  ++ flat_map (fun i => be_put 4 (i_size i) ++ i_name i ++ [0]) items.

(** A file made anew with its bytes; [skip] leaves out a write of nothing. *)
Definition write_new (path : list Z) (mode : Z) (data : list Z) (skip : bool) : L S (res unit) :=
  let* r := syscall (Open path (Wronly_creat_trunc mode)) in
  match r with
  | Err e => fails (- e)
  | Ok fd =>
      let* r :=
        if skip then yields tt
        else
          let* r := syscall (Write fd data) in
          match r with
          | Ok n => if n =? zlen data then yields tt else fails (- EIO)
          | Err _ => fails (- EIO)
          end in
      closing fd r
  end.

Definition unlink_if_there (path : list Z) : L S (res unit) :=
  let* r := syscall (Unlink path) in
  match r with
  | Ok _ => yields tt
  | Err e => if e =? ENOENT then yields tt else fails (- e)
  end.

Definition save_ea_items (path : list Z) (items : list ea_item) : L S (res unit) :=
  try* (header, _) := ea_paths path None in
  if zlen items =? 0 then unlink_if_there header
  else
    try* adpath := sidecar_path path true in
    try* _ := ensure_sidecar_dir adpath in
    try* mode := sidecar_file_mode path in
    if existsb (fun i => strnlen (i_name i) (AFP_XATTR_NAME_MAX + 1) >? AFP_XATTR_NAME_MAX) items then fails (- EINVAL)
    else
      try* _ := alloc (zlen (ea_bytes items)) in
      write_new header mode (ea_bytes items) false.

Fixpoint append_names (items : list ea_item) (l : list Z) : L S (res (list Z)) :=
  match items with
  | [] => yields l
  | i :: items =>
      if metadata_name_filtered (Some (i_name i)) then append_names items l
      else try* l := append_name l (i_name i) in append_names items l
  end.

Definition netatalk_list (path : list Z) : L S (res (list Z)) :=
  let* r := load_ea_items path in
  match r with
  | Err e => if metadata_absent (- e) then yields [] else fails e
  | Ok items => append_names items []
  end.

(** A value's bytes: a file that is shorter is an error. *)
Definition read_value (fd size : Z) : L S (res (list Z)) :=
  try* _ := alloc (if size =? 0 then 1 else size) in
  let* r := syscall (Read fd size) in
  match r with
  | Ok value => if zlen value =? size then yields value else fails (- EIO)
  | Err _ => fails (- EIO)
  end.

Definition netatalk_get (path name : list Z) : L S (res (list Z)) :=
  try* items := load_ea_items path in
  match find (fun i => list_eqb (i_name i) name) items with
  | None => fails (- ENOATTR)
  | Some i =>
      let* r := ea_paths path (Some name) in
      match r with
      | Err _ => fails (- ENOATTR)
      | Ok (_, file) =>
          let* r := syscall (Open file Rdonly) in
          match r with
          | Err _ => fails (- ENOATTR)
          | Ok fd => let* r := read_value fd (i_size i) in closing fd r
          end
      end
  end.

Fixpoint set_item (items : list ea_item) (name : list Z) (size : Z) : list ea_item :=
  match items with
  | [] => [Item name size]
  | i :: r => if list_eqb (i_name i) name then Item (i_name i) size :: r else i :: set_item r name size
  end.

Definition netatalk_set (path name value : list Z) : L S (res unit) :=
  let size := zlen value in
  if size >? UINT32_MAX then fails (- E2BIG)
  else
    let* r := load_ea_items path in
    match match r with Err e => if metadata_absent (- e) then Ok [] else Err e | Ok items => Ok items end with
    | Err e => fails e
    | Ok items =>
        try* _ := if has_name items name then yields tt
                  else try* _ := alloc ((zlen items + 1) * 16) in alloc (zlen name + 1) in
        try* (_, file) := ea_paths path (Some name) in
        try* _ := ensure_sidecar_dir file in
        try* mode := sidecar_file_mode path in
        try* _ := write_new file mode value (size =? 0) in
        save_ea_items path (set_item items name (u32 size))
    end.

Fixpoint remove_item (items : list ea_item) (name : list Z) : list ea_item :=
  match items with
  | [] => []
  | i :: r => if list_eqb (i_name i) name then r else i :: remove_item r name
  end.

Definition netatalk_remove (path name : list Z) : L S (res unit) :=
  try* items := load_ea_items path in
  if negb (has_name items name) then fails (- ENOATTR)
  else
    try* (_, file) := ea_paths path (Some name) in
    try* _ := unlink_if_there file in
    save_ea_items path (remove_item items name).

End Programs.
