(* ===== verification/Metadata.v ===== *)
(** The metadata of local files as src/daemon/metadata.c offers it, and its
    transfers between local and remote files. *)
From stdpp Require Import gmap.
From S2P Require Import Prelude AfpProtocol Identify Xattr Local Sidecar.
Open Scope local_scope.

Section Programs.
Context {S : Type} `{Os S} (apple : bool).

(** ** What the library offers *)

Definition local_metadata_list (path : option (list Z)) (mode : Z) : L S (res (list Z)) :=
  try* path := local_path_check path in
  try* resolved := resolve_generic_mode path mode in
  if resolved =? AFP_METADATA_XATTR then sys_list path
  else if resolved =? AFP_METADATA_NETATALK then netatalk_list path
  else if (resolved =? AFP_METADATA_MACOS) || (resolved =? AFP_METADATA_NONE) then yields []
  else fails (- EINVAL).

(** The answer of a mode that keeps no attributes. *)
Definition no_attributes {A} (resolved : Z) : L S (res A) :=
  fails (if (resolved =? AFP_METADATA_MACOS) || (resolved =? AFP_METADATA_NONE) then - EOPNOTSUPP else - EINVAL).

Definition sys_value (path name : list Z) : L S (res (list Z)) :=
  try* (needed, _) := sys_get apple path name 0 in
  try* _ := alloc (if needed =? 0 then 1 else needed) in
  if needed =? 0 then yields []
  else
    try* (got, value) := sys_get apple path name needed in
    if negb (got =? needed) then fails (- EIO) else yields value.

Definition local_metadata_get (path : option (list Z)) (mode : Z) (name : option (list Z)) : L S (res (list Z)) :=
  try* path := local_path_check path in
  if negb (metadata_name_valid name) then fails (- EINVAL)
  else if metadata_name_filtered name then fails (- EOPNOTSUPP)
  else
    try* resolved := resolve_generic_mode path mode in
    if resolved =? AFP_METADATA_XATTR then sys_value path (default [] name)
    else if resolved =? AFP_METADATA_NETATALK then netatalk_get path (default [] name)
    else no_attributes resolved.

(** [value] is the buffer, if there is one, and [size] how much of it is
    meant. *)
Definition local_metadata_set (path : option (list Z)) (mode : Z) (name value : option (list Z)) (size : Z)
    : L S (res unit) :=
  try* path := local_path_check path in
  if negb (metadata_name_valid name) || (negb (bool_decide (is_Some value)) && (size >? 0)) then fails (- EINVAL)
  else if metadata_name_filtered name then fails (- EOPNOTSUPP)
  else
    let value := sub 0 size (default [] value) in
    try* resolved := resolve_generic_mode path mode in
    if resolved =? AFP_METADATA_XATTR then sys_set apple path (default [] name) value
    else if resolved =? AFP_METADATA_NETATALK then netatalk_set path (default [] name) value
    else no_attributes resolved.

(** A removal of what is not there is none. *)
Definition sys_remove_if_there (path name : list Z) : L S (res unit) :=
  let* r := sys_remove apple path name in
  match r with
  | Ok _ => yields tt
  | Err e => if metadata_absent (- e) then yields tt else fails e
  end.

Definition local_metadata_remove (path : option (list Z)) (mode : Z) (name : option (list Z)) : L S (res unit) :=
  try* path := local_path_check path in
  if negb (metadata_name_valid name) then fails (- EINVAL)
  else
    try* resolved := resolve_generic_mode path mode in
    if resolved =? AFP_METADATA_XATTR then sys_remove_if_there path (default [] name)
    else if resolved =? AFP_METADATA_NETATALK then netatalk_remove path (default [] name)
    else no_attributes resolved.

(** Finder information and resource forks: Netatalk's file or the one of
    macOS, by the mode. *)
Definition by_mode {A} (mode : Z) (netatalk macos : L S (res A)) : L S (res A) :=
  if mode =? AFP_METADATA_NETATALK then netatalk
  else if (mode =? AFP_METADATA_AUTO) || (mode =? AFP_METADATA_XATTR) || (mode =? AFP_METADATA_MACOS) then macos
  else fails (if mode =? AFP_METADATA_NONE then - EOPNOTSUPP else - EINVAL).

Definition local_finderinfo_get (path : option (list Z)) (mode : Z) : L S (res (list Z)) :=
  try* path := local_path_check path in
  if apple_metadata_uses_sys apple mode then
    try* (ret, value) := sys_get apple path AFP_XATTR_FINDERINFO 32 in
    if ret =? 32 then yields value else fails (- EIO)
  else by_mode mode (ad_finder_get path true) (ad_finder_get path false).

Definition local_finderinfo_set (path : option (list Z)) (mode : Z) (value : list Z) : L S (res unit) :=
  try* path := local_path_check path in
  if apple_metadata_uses_sys apple mode then sys_set apple path AFP_XATTR_FINDERINFO value
  else by_mode mode (ad_finder_set path true value) (ad_finder_set path false value).

Definition local_finderinfo_remove (path : option (list Z)) (mode : Z) : L S (res unit) :=
  try* path := local_path_check path in
  if mode =? AFP_METADATA_NETATALK then ad_finder_set path true (zero_bytes 32)
  else if apple_metadata_uses_sys apple mode then sys_remove_if_there path AFP_XATTR_FINDERINFO
  else by_mode mode (ad_finder_set path true (zero_bytes 32)) (ad_finder_set path false (zero_bytes 32)).

Definition local_resourcefork_size (path : option (list Z)) (mode : Z) : L S (res Z) :=
  try* path := local_path_check path in
  if apple_metadata_uses_sys apple mode then try* (ret, _) := sys_get apple path AFP_XATTR_RESOURCEFORK 0 in yields ret
  else by_mode mode (ad_resource_size path true) (ad_resource_size path false).

Definition sys_resource_read (path : list Z) (size offset : Z) : L S (res (list Z)) :=
  try* total := local_resourcefork_size (Some path) AFP_METADATA_XATTR in
  if total >? SIZE_MAX then fails (- EOVERFLOW)
  else
    try* _ := alloc (if total =? 0 then 1 else total) in
    try* (got, all) := sys_get apple path AFP_XATTR_RESOURCEFORK total in
    if got >? total then fails (- EIO)
    else if offset >=? got then yields []
    else
      let available := got - offset in
      yields (sub offset (if size >? available then available else size) all).

(** [buf] tells whether there is a buffer for the [size] bytes. *)
Definition local_resourcefork_read (path : option (list Z)) (mode : Z) (buf : bool) (size offset : Z)
    : L S (res (list Z)) :=
  if (offset <? 0) || (negb buf && (size >? 0)) then fails (- EINVAL)
  else if size >? SSIZE_MAX then fails (- EOVERFLOW)
  else
    try* path := local_path_check path in
    if apple_metadata_uses_sys apple mode then sys_resource_read path size offset
    else by_mode mode (ad_resource_read path true size offset) (ad_resource_read path false size offset).

Definition sys_resource_write (path buf : list Z) (offset : Z) : L S (res unit) :=
  let size := zlen buf in
  let* old := if offset =? 0 then yields 0 else local_resourcefork_size (Some path) AFP_METADATA_XATTR in
  let old_size := match old with Ok n => n | Err e => e end in
  if old_size >? SIZE_MAX then fails (- EOVERFLOW) else
  let total := if (old_size >? 0) && (old_size >? offset + size) then old_size else offset + size in
  try* _ := alloc (if total =? 0 then 1 else total) in
  try* all := if (offset >? 0) && (old_size >? 0) then
                try* (got, bytes) := sys_get apple path AFP_XATTR_RESOURCEFORK old_size in
                if negb (got =? old_size) then fails (- EIO) else yields (store (zero_bytes total) 0 bytes)
              else yields (zero_bytes total) in
  sys_set apple path AFP_XATTR_RESOURCEFORK (store all offset buf).

Definition local_resourcefork_write (path : option (list Z)) (mode : Z) (buf : option (list Z)) (size offset : Z)
    : L S (res unit) :=
  if (offset <? 0) || (negb (bool_decide (is_Some buf)) && (size >? 0)) then fails (- EINVAL)
  else if (offset >? SSIZE_MAX) || (size >? SSIZE_MAX - offset) then fails (- EFBIG)
  else
    let buf := sub 0 size (default [] buf) in
    try* path := local_path_check path in
    if apple_metadata_uses_sys apple mode then sys_resource_write path buf offset
    else by_mode mode (ad_resource_write path true buf offset) (ad_resource_write path false buf offset).

Definition local_resourcefork_remove (path : option (list Z)) (mode : Z) : L S (res unit) :=
  try* path := local_path_check path in
  if mode =? AFP_METADATA_NETATALK then ad_resource_write path true [] 0
  else if apple_metadata_uses_sys apple mode then sys_remove_if_there path AFP_XATTR_RESOURCEFORK
  else by_mode mode (ad_resource_write path true [] 0) (ad_resource_write path false [] 0).

(** ** Transfers *)

Definition transfer_error_absent (ret : Z) : bool := ret =? - ENOATTR.
Definition transfer_error_unsupported (ret : Z) : bool := (ret =? - EOPNOTSUPP) || (ret =? - ENOSYS).

Definition transfer_name_special (name : list Z) : bool :=
  let stripped := afp_xattr_strip_user_prefix name in
  list_eqb stripped AFP_XATTR_FINDERINFO || list_eqb stripped AFP_XATTR_RESOURCEFORK.

(** The next name of a list and the list after it. *)
Definition transfer_list_next (rest : list Z) : res (option (list Z * list Z)) :=
  if zlen rest =? 0 then Ok None
  else
    let length := strnlen rest (zlen rest) in
    if length =? zlen rest then Err (- EIO) else Ok (Some (until_nul rest, drop (Z.to_nat (length + 1)) rest)).

(** A call of the daemon as an answer: negative is an error. *)
Definition remote_unit (volume : Z) (path : list Z) (c : remote Z) : L S (res unit) :=
  let* r := syscall (Remote volume path c) in if r <? 0 then fails r else yields tt.

Definition transfer_remote_list (volume : Z) (path : list Z) : L S (res (list Z)) :=
  let* (ret, _) := syscall (Remote volume path (Listxattr 0)) in
  if ret <? 0 then fails ret
  else if ret =? 0 then yields []
  else if ret >? AFP_SL_XATTR_LIST_MAX then fails (- E2BIG)
  else
    try* _ := alloc ret in
    let* (got, list) := syscall (Remote volume path (Listxattr ret)) in
    if got <? 0 then fails got else if got >? ret then fails (- EIO) else yields (resize list got).

Definition transfer_remote_get (volume : Z) (path name : list Z) : L S (res (list Z)) :=
  let* (ret, _) := syscall (Remote volume path (Getxattr name 0)) in
  if ret <? 0 then fails ret
  else if ret >? AFP_SL_METADATA_CHUNK then fails (- E2BIG)
  else
    try* _ := alloc (if ret =? 0 then 1 else ret) in
    if ret =? 0 then yields []
    else
      let* (got, value) := syscall (Remote volume path (Getxattr name ret)) in
      if got <? 0 then fails got else if got >? ret then fails (- EIO) else yields (resize value got).

(** The transfers carry the warnings along: an answer and the warnings so
    far. *)
Definition T (A : Type) : Type := Z -> L S (res A * Z).

Definition tret {A} (r : res A) : T A := fun warnings => lret (r, warnings).
Definition lift {A} (m : L S A) : Z -> L S (A * Z) := fun warnings => let* a := m in lret (a, warnings).
Definition ttry {A B} (m : T A) (k : A -> T B) : T B :=
  fun warnings => let* (r, warnings) := m warnings in
                  match r with Ok a => k a warnings | Err e => lret (Err e, warnings) end.
Definition transfer_warning (warning : Z) : T unit := fun warnings => lret (Ok tt, Z.lor warnings warning).

(** The answer [ret] of an operation: absent is no error, unsupported a
    warning. *)
Definition transfer_metadata_result (ret : res unit) : T unit :=
  match ret with
  | Ok _ => tret (Ok tt)
  | Err e =>
      if transfer_error_absent e then tret (Ok tt)
      else if transfer_error_unsupported e then transfer_warning AFP_METADATA_WARNING_UNSUPPORTED
      else tret (Err e)
  end.

Definition tolerated (m : L S (res unit)) : T unit :=
  fun warnings => let* r := m in transfer_metadata_result r warnings.

Definition unit_of {A} (r : res A) : res unit := match r with Ok _ => Ok tt | Err e => Err e end.

(** The loop over a list of names: names kept elsewhere and filtered ones are
    left out. *)
Fixpoint for_names (fuel : nat) (rest : list Z) (body : list Z -> T unit) : T unit :=
  match transfer_list_next rest with
  | Err e => tret (Err e)
  | Ok None => tret (Ok tt)
  | Ok (Some (name, rest)) =>
      match fuel with
      | O => tret (Err (- EIO))
      | Datatypes.S fuel =>
          if transfer_name_special name || metadata_name_filtered (Some name) then for_names fuel rest body
          else ttry (body name) (fun _ => for_names fuel rest body)
      end
  end.

(** The names of a list: a list that cannot be had is tolerated like any
    answer. *)
Definition for_list (list_ : L S (res (list Z))) (body : list Z -> T unit) : T unit :=
  fun warnings =>
    let* r := list_ in
    match r with
    | Err e => transfer_metadata_result (Err e) warnings
    | Ok l => for_names (length l) l body warnings
    end.

(** A remote list may be too large to be had. *)
Definition for_remote_list (volume : Z) (path : list Z) (body : list Z -> T unit) : T unit :=
  fun warnings =>
    let* r := transfer_remote_list volume path in
    match r with
    | Err e => if e =? - E2BIG then let* (_, warnings) := transfer_warning AFP_METADATA_WARNING_LIST_TOO_LARGE warnings in
                                    lret (Ok tt, warnings)
               else transfer_metadata_result (Err e) warnings
    | Ok l => for_names (length l) l body warnings
    end.

Definition afp_metadata_clear_local (path : option (list Z)) (mode : Z) : L S (res unit * Z) :=
  (match path with
   | None => tret (Err (- EINVAL))
   | Some _ =>
       if negb (metadata_mode_valid mode) then tret (Err (- EINVAL))
       else if mode =? AFP_METADATA_NONE then tret (Ok tt)
       else
         ttry (tolerated (local_finderinfo_remove path mode)) (fun _ =>
         ttry (tolerated (local_resourcefork_remove path mode)) (fun _ =>
         for_list (local_metadata_list path mode) (fun name =>
           tolerated (local_metadata_remove path mode (Some name)))))
   end) AFP_METADATA_WARNING_NONE.

Definition remote_clear (volume : Z) (path : list Z) : T unit :=
  ttry (tolerated (remote_unit volume path Removefinderinfo)) (fun _ =>
  ttry (tolerated (remote_unit volume path Removeresourcefork)) (fun _ =>
  for_remote_list volume path (fun name => tolerated (remote_unit volume path (Removexattr name))))).

(** [volume] is 0 where the code has no volume. *)
Definition afp_sl_metadata_clear (volume : Z) (path : option (list Z)) : L S (res unit * Z) :=
  match path with
  | Some path => if volume =? 0 then lret (Err (- EINVAL), AFP_METADATA_WARNING_NONE)
                 else remote_clear volume path AFP_METADATA_WARNING_NONE
  | None => lret (Err (- EINVAL), AFP_METADATA_WARNING_NONE)
  end.

(** The pieces of a resource fork from [offset] to [total]: [get] reads a
    piece, [put] writes it. *)
Fixpoint copy_fork (fuel : nat) (get : Z -> Z -> L S (res (list Z))) (put : list Z -> Z -> L S (res unit))
    (total offset : Z) : T unit :=
  if negb (offset <? total) then tret (Ok tt)
  else
    match fuel with
    | O => tret (Err (- EIO))
    | Datatypes.S fuel =>
        let chunk := if total - offset >? AFP_SL_METADATA_CHUNK then AFP_SL_METADATA_CHUNK else total - offset in
        fun warnings =>
          let* r := get chunk offset in
          match r with
          | Err e => tret (Err e) warnings
          | Ok bytes =>
              if (zlen bytes =? 0) || (zlen bytes >? chunk) then tret (Err (- EIO)) warnings
              else
                let* w := put bytes offset in
                match w with
                | Ok _ => copy_fork fuel get put total (offset + zlen bytes) warnings
                | Err e => if transfer_error_unsupported e
                           then transfer_warning AFP_METADATA_WARNING_UNSUPPORTED warnings
                           else tret (Err e) warnings
                end
          end
    end.

(** The whole of a resource fork whose size is [size]. *)
Definition copy_resource (size : L S (res Z)) (get : Z -> Z -> L S (res (list Z))) (put : list Z -> Z -> L S (res unit))
    : T unit :=
  fun warnings =>
    let* r := size in
    match r with
    | Ok total => copy_fork (Z.to_nat total) get put total 0 warnings
    | Err e => transfer_metadata_result (Err e) warnings
    end.

(** One attribute: a value too large is left with a warning. *)
Definition copy_attr (get : L S (res (option (list Z)))) (put : list Z -> L S (res unit)) : T unit :=
  fun warnings =>
    let* r := get in
    match r with
    | Err e => transfer_metadata_result (Err e) warnings
    | Ok None => transfer_warning AFP_METADATA_WARNING_VALUE_TOO_LARGE warnings
    | Ok (Some value) => let* r := put value in transfer_metadata_result r warnings
    end.

(** Finder information that is not there or not supported is no error before
    the destination is cleared, and after it an answer like any other. *)
Definition copy_finder (got : res (list Z)) (clear : T unit) (put : list Z -> L S (res unit)) : T unit :=
  match got with
  | Err e =>
      if negb (transfer_error_absent e) && negb (transfer_error_unsupported e) then tret (Err e)
      else ttry clear (fun _ => transfer_metadata_result (Err e))
  | Ok value => ttry clear (fun _ => tolerated (put value))
  end.

(** A value to copy, or that it is too large. *)
Definition local_value (path : list Z) (mode : Z) (name : list Z) : L S (res (option (list Z))) :=
  try* value := local_metadata_get (Some path) mode (Some name) in
  yields (if zlen value >? AFP_SL_METADATA_CHUNK then None else Some value).
Definition remote_value (volume : Z) (path name : list Z) : L S (res (option (list Z))) :=
  let* r := transfer_remote_get volume path name in
  match r with
  | Ok value => yields (Some value)
  | Err e => if e =? - E2BIG then yields None else fails e
  end.

Definition transfer_local_xattrs_to_remote (local_path : list Z) (mode volume : Z) (remote_path : list Z) : T unit :=
  for_list (local_metadata_list (Some local_path) mode) (fun name =>
    copy_attr (local_value local_path mode name) (fun value => remote_unit volume remote_path (Setxattr name value))).

Definition transfer_remote_xattrs_to_local (volume : Z) (remote_path local_path : list Z) (mode : Z) : T unit :=
  for_remote_list volume remote_path (fun name =>
    copy_attr (remote_value volume remote_path name)
      (fun value => local_metadata_set (Some local_path) mode (Some name) (Some value) (zlen value))).

Definition transfer_remote_xattrs_to_remote (source_volume : Z) (source_path : list Z) (destination_volume : Z)
    (destination_path : list Z) : T unit :=
  for_remote_list source_volume source_path (fun name =>
    copy_attr (remote_value source_volume source_path name)
      (fun value => remote_unit destination_volume destination_path (Setxattr name value))).

(** The Finder information of a remote file, whole. *)
Definition remote_finder (volume : Z) (path : list Z) : L S (res (list Z)) :=
  let* (ret, value) := syscall (Remote volume path Getfinderinfo) in
  if ret <? 0 then fails ret else if negb (ret =? 32) then fails (- EIO) else yields value.

(** The bytes of a remote resource fork; a size of 0 asks for its length. *)
Definition remote_fork_size (volume : Z) (path : list Z) : L S (res Z) :=
  let* (ret, _) := syscall (Remote volume path (Getresourcefork 0 0)) in
  if ret <? 0 then fails ret else yields ret.
Definition remote_fork (volume : Z) (path : list Z) (size offset : Z) : L S (res (list Z)) :=
  let* (ret, bytes) := syscall (Remote volume path (Getresourcefork size offset)) in
  if ret <? 0 then fails ret else yields (resize bytes ret).

Definition afp_sl_metadata_copy_local_to_remote (local_path : option (list Z)) (mode volume : Z)
    (destination_path : option (list Z)) : L S (res unit * Z) :=
  (match local_path, destination_path with
   | Some path, Some dest =>
       if (volume =? 0) || negb (metadata_mode_valid mode) then tret (Err (- EINVAL))
       else if mode =? AFP_METADATA_NONE then tret (Ok tt)
       else
         fun warnings =>
           let* got := local_finderinfo_get local_path mode in
           ttry (copy_finder got (remote_clear volume dest) (fun value => remote_unit volume dest (Setfinderinfo value)))
             (fun _ =>
           ttry (copy_resource (local_resourcefork_size local_path mode)
                   (fun size offset => local_resourcefork_read local_path mode true size offset)
                   (fun bytes offset => remote_unit volume dest (Setresourcefork bytes offset))) (fun _ =>
           transfer_local_xattrs_to_remote path mode volume dest)) warnings
   | _, _ => tret (Err (- EINVAL))
   end) AFP_METADATA_WARNING_NONE.

Definition afp_sl_metadata_copy_remote_to_local (volume : Z) (source_path local_path : option (list Z)) (mode : Z)
    : L S (res unit * Z) :=
  (match source_path, local_path with
   | Some source, Some path =>
       if (volume =? 0) || negb (metadata_mode_valid mode) then tret (Err (- EINVAL))
       else if mode =? AFP_METADATA_NONE then tret (Ok tt)
       else
         fun warnings =>
           let* got := remote_finder volume source in
           ttry (copy_finder got (fun _ => afp_metadata_clear_local local_path mode)
                   (fun value => local_finderinfo_set local_path mode value)) (fun _ =>
           ttry (copy_resource (remote_fork_size volume source) (remote_fork volume source)
                   (fun bytes offset => local_resourcefork_write local_path mode (Some bytes) (zlen bytes) offset)) (fun _ =>
           transfer_remote_xattrs_to_local volume source path mode)) warnings
   | _, _ => tret (Err (- EINVAL))
   end) AFP_METADATA_WARNING_NONE.

Definition afp_sl_metadata_copy_remote_to_remote (source_volume : Z) (source_path : option (list Z))
    (destination_volume : Z) (destination_path : option (list Z)) : L S (res unit * Z) :=
  (match source_path, destination_path with
   | Some source, Some dest =>
       if (source_volume =? 0) || (destination_volume =? 0) then tret (Err (- EINVAL))
       else
         fun warnings =>
           let* got := remote_finder source_volume source in
           ttry (copy_finder got (remote_clear destination_volume dest)
                   (fun value => remote_unit destination_volume dest (Setfinderinfo value))) (fun _ =>
           ttry (copy_resource (remote_fork_size source_volume source) (remote_fork source_volume source)
                   (fun bytes offset => remote_unit destination_volume dest (Setresourcefork bytes offset))) (fun _ =>
           transfer_remote_xattrs_to_remote source_volume source destination_volume dest)) warnings
   | _, _ => tret (Err (- EINVAL))
   end) AFP_METADATA_WARNING_NONE.

End Programs.

(** A folder of the local disk, for examples. *)
Definition home : disk := Disk {[ str "/h" := Folder 0x1ed; str "/h/f" := File 0x1a4 [] ]} ∅ 3 None.

(** A remote file that answers nothing. *)
Definition nothing_remote (A : Type) (_ : Z) (_ : list Z) (c : remote A) (r : unit) : A * unit :=
  (match c in remote A return A with
   | Removefinderinfo | Removeresourcefork | Setfinderinfo _ | Setresourcefork _ _ | Setxattr _ _ | Removexattr _ => - EIO
   | Getfinderinfo | Getresourcefork _ _ | Listxattr _ | Getxattr _ _ => (- EIO, [])
   end, r).

#[local] Instance home_os : Os (disk * unit) := disk_os nothing_remote.

Example attribute_written :
  let '(r, s) := local_metadata_set false (Some (str "/h/f")) AFP_METADATA_AUTO (Some (str "a")) (Some (str "xyz")) 3 (home, tt) in
  r = Ok tt /\ fst (local_metadata_get false (Some (str "/h/f")) AFP_METADATA_AUTO (Some (str "a")) s) = Ok (str "xyz")
  /\ fst (local_metadata_list (Some (str "/h/f")) AFP_METADATA_AUTO s) = Ok (str "a" ++ [0]).
Proof. vm_compute. done. Qed.

Example fork_written :
  let '(r, s) := local_resourcefork_write false (Some (str "/h/f")) AFP_METADATA_MACOS (Some (str "xyz")) 3 0 (home, tt) in
  r = Ok tt /\ fst (local_resourcefork_read false (Some (str "/h/f")) AFP_METADATA_MACOS true 10 1 s) = Ok (str "yz")
  /\ fst (local_finderinfo_get false (Some (str "/h/f")) AFP_METADATA_MACOS s) = Err (- ENOATTR).
Proof. vm_compute. done. Qed.
