(* ===== verification/MetadataHandles.v ===== *)
(** Every operation on metadata closes the files it opens, whatever the system
    answers. *)
From S2P Require Import Prelude AfpProtocol Identify Xattr Local Sidecar Metadata.
Open Scope local_scope.

(** ** The open handles of a system *)

Fixpoint remove_first (fd : Z) (l : list Z) : list Z :=
  match l with
  | [] => []
  | x :: r => if x =? fd then r else x :: remove_first fd r
  end.

(** The handles open after a call, from those open before it. *)
Definition track {A} (c : sys A) : A -> list Z -> list Z :=
  match c in sys A return A -> list Z -> list Z with
  | Open _ _ => fun r l => match r with Ok fd => fd :: l | Err _ => l end
  | Close fd => fun _ l => remove_first fd l
  | _ => fun _ l => l
  end.

Definition Watched (S : Type) : Type := S * list Z.

#[export] Instance watched_os {S} `{Os S} : Os (Watched S) :=
  fun A c s => let (a, s') := answer c (fst s) in (a, (s', track c a (snd s))).

(** ** Rules *)

Section Rules.
Context {S : Type} `{Os S}.

(** [level m]: as many handles are open after [m] as before, and the same. *)
Definition level {A} (m : L (Watched S) A) : Prop := forall s, snd (snd (m s)) = snd s.

(** [closes fd m]: [m] closes [fd], the last one opened, and no other. *)
Definition closes {A} (fd : Z) (m : L (Watched S) A) : Prop := forall s l, snd s = fd :: l -> snd (snd (m s)) = l.

(** [opens m]: an answer of [m] has a handle, the only one it leaves open. *)
Definition opens {A} (m : L (Watched S) (res (Z * A))) : Prop :=
  forall s, snd (snd (m s)) = match fst (m s) with Ok (fd, _) => fd :: snd s | Err _ => snd s end.

Definition plain {A} (c : sys A) : bool :=
  match c with Open _ _ | Close _ => false | _ => true end.

Lemma level_ret {A} (a : A) : level (lret a).
Proof. by intros s. Qed.

Lemma level_bind {A B} (m : L (Watched S) A) (k : A -> L (Watched S) B) :
  level m -> (forall a, level (k a)) -> level (lbind m k).
Proof.
  intros Hm Hk s. unfold lbind. specialize (Hm s). destruct (m s) as [a s'] eqn:E. rewrite Hk. exact Hm.
Qed.

Lemma level_try {A B} (m : L (Watched S) (res A)) (k : A -> L (Watched S) (res B)) :
  level m -> (forall a, level (k a)) -> level (ltry m k).
Proof. intros Hm Hk. apply level_bind; [done|]. intros [a|e]; [apply Hk|apply level_ret]. Qed.

Lemma level_plain {A} (c : sys A) : plain c = true -> level (syscall c).
Proof.
  intros Hc s. unfold syscall, answer, watched_os. destruct (answer c (fst s)) as [a s']. simpl. by destruct c.
Qed.

Lemma level_open {A} path how (k : res Z -> L (Watched S) A) :
  (forall e, level (k (Err e))) -> (forall fd, closes fd (k (Ok fd))) -> level (lbind (syscall (Open path how)) k).
Proof.
  intros He Hk s. unfold lbind, syscall, answer, watched_os. destruct (answer (Open path how) (fst s)) as [[fd|e] s'].
  - by apply Hk.
  - by rewrite He.
Qed.

Lemma level_opening {A B} (m : L (Watched S) (res (Z * A))) (k : Z * A -> L (Watched S) (res B)) :
  opens m -> (forall fd a, closes fd (k (fd, a))) -> level (ltry m k).
Proof.
  intros Hm Hk s. unfold ltry, lbind. specialize (Hm s). destruct (m s) as [[[fd a]|e] s']; simpl in *.
  - by apply Hk.
  - done.
Qed.

Lemma closes_bind {A B} fd (m : L (Watched S) A) (k : A -> L (Watched S) B) :
  level m -> (forall a, closes fd (k a)) -> closes fd (lbind m k).
Proof.
  intros Hm Hk s l Hl. unfold lbind. specialize (Hm s). destruct (m s) as [a s'] eqn:E. apply Hk. simpl in *. congruence.
Qed.

Lemma closes_closing {A} fd (a : A) : closes fd (closing fd a).
Proof.
  intros s l Hl. unfold closing, lbind, syscall, answer, watched_os. destruct (answer (Close fd) (fst s)) as [u s'].
  simpl. rewrite Hl. simpl. by rewrite Z.eqb_refl.
Qed.

End Rules.

Create HintDb level.
#[export] Hint Resolve level_ret closes_closing : level.

(** Proves that a program leaves the handles as they were, from its parts. *)
Ltac level_step :=
  match goal with
  | |- forall _, _ => intro
  | |- level (let (_, _) := ?x in _) => destruct x
  | |- level (match ?x with _ => _ end) => destruct x
  | |- closes _ (match ?x with _ => _ end) => destruct x
  | |- level (lbind (syscall (Open _ _)) _) => apply level_open
  | |- level (lbind _ _) => apply level_bind
  | |- level (ltry _ _) => apply level_try
  | |- level (syscall _) => apply level_plain; reflexivity
  | |- closes _ (lbind _ _) => apply closes_bind
  | |- level _ => solve [eauto with level]
  | |- closes _ _ => solve [eauto with level]
  end.
Ltac leveled := repeat level_step.

Section Programs.
Context {S : Type} `{Os S} (apple : bool).

Lemma level_yields {A} (a : A) : level (S := S) (yields a).
Proof. apply level_ret. Qed.

Lemma level_fails {A} e : level (S := S) (A := res A) (fails e).
Proof. apply level_ret. Qed.
#[local] Hint Resolve level_yields level_fails : level.

Lemma level_sysret {A} (c : sys (res A)) : plain c = true -> level (S := S) (sysret c).
Proof. intros Hc. unfold sysret. apply level_bind; [by apply level_plain|]. leveled. Qed.

Lemma level_alloc n : level (S := S) (alloc n).
Proof. unfold alloc. leveled. Qed.
#[local] Hint Resolve level_alloc : level.
#[local] Hint Extern 1 (level (sysret _)) => (apply level_sysret; reflexivity) : level.

Lemma level_path_check path : level (S := S) (local_path_check path).
Proof. unfold local_path_check. leveled. Qed.

Lemma level_resolve path mode : level (S := S) (resolve_generic_mode path mode).
Proof. unfold resolve_generic_mode, sys_xattrs_supported. leveled. Qed.

Lemma level_append_name l name : level (S := S) (append_name l name).
Proof. unfold append_name. cbv zeta. leveled. Qed.
#[local] Hint Resolve level_path_check level_resolve level_append_name : level.

Lemma level_sys_list_loop fuel raw l : level (S := S) (sys_list_loop fuel raw l).
Proof. revert raw l. induction fuel as [|fuel IH]; intros [|b raw] l; simpl; leveled. Qed.
#[local] Hint Resolve level_sys_list_loop : level.

Lemma level_sys_list path : level (S := S) (sys_list path).
Proof. unfold sys_list. leveled. Qed.

Lemma level_sidecar_path path netatalk : level (S := S) (sidecar_path path netatalk).
Proof. unfold sidecar_path, printed. cbv zeta. leveled. Qed.

Lemma level_ensure sidecar : level (S := S) (ensure_sidecar_dir sidecar).
Proof. unfold ensure_sidecar_dir. cbv zeta. leveled. Qed.

Lemma level_file_mode path : level (S := S) (sidecar_file_mode path).
Proof. unfold sidecar_file_mode. leveled. Qed.

Lemma level_read_entries fd size n i info : level (S := S) (read_entries fd size n i info).
Proof. revert i info. induction n as [|n IH]; intros i info; simpl; leveled. Qed.
#[local] Hint Resolve level_sys_list level_sidecar_path level_ensure level_file_mode level_read_entries : level.

Lemma level_read_ad_info fd : level (S := S) (read_ad_info fd).
Proof. unfold read_ad_info. cbv zeta. leveled. Qed.

Lemma level_pwrite_all fd data off : level (S := S) (pwrite_all fd data off).
Proof. unfold pwrite_all. leveled. Qed.
#[local] Hint Resolve level_read_ad_info level_pwrite_all : level.

Lemma level_info_or_new fd netatalk write : level (S := S) (ad_info_or_new fd netatalk write).
Proof. unfold ad_info_or_new, initialize_ad. leveled. Qed.

Lemma level_open_error {A} path e : level (S := S) (A := res A) (sidecar_open_error path e).
Proof. unfold sidecar_open_error. leveled. Qed.
#[local] Hint Resolve level_info_or_new level_open_error : level.

(** [holds fd m]: with [fd] the last handle opened, [m] answers it or closes
    it. *)
Definition holds {A} (fd : Z) (m : L (Watched S) (res (Z * A))) : Prop :=
  forall s l, snd s = fd :: l -> snd (snd (m s)) = match fst (m s) with Ok (fd, _) => fd :: l | Err _ => l end.

Lemma opens_try {A B} (m : L (Watched S) (res A)) (k : A -> L (Watched S) (res (Z * B))) :
  level m -> (forall a, opens (k a)) -> opens (ltry m k).
Proof.
  intros Hm Hk s. unfold ltry, lbind. specialize (Hm s). destruct (m s) as [[a|e] s']; simpl in *; [|done].
  rewrite Hk, Hm. done.
Qed.

Lemma opens_open {A} path how (k : res Z -> L (Watched S) (res (Z * A))) :
  (forall e, opens (k (Err e))) -> (forall fd, holds fd (k (Ok fd))) -> opens (lbind (syscall (Open path how)) k).
Proof.
  intros He Hk s. unfold lbind, syscall, answer, watched_os. destruct (answer (Open path how) (fst s)) as [[fd|e] s'].
  - by apply Hk.
  - apply (He e (s', snd s)).
Qed.

Lemma opens_fails {A} e : opens (S := S) (A := A) (fails e).
Proof. by intros s. Qed.

Lemma opens_open_error {A} path e : opens (S := S) (A := A) (sidecar_open_error path e).
Proof.
  intros s. rewrite level_open_error. unfold sidecar_open_error. destruct (negb (e =? ENOENT)); [done|].
  unfold lbind. by destruct (syscall (Stat path) s) as [[m|e'] s'].
Qed.

Lemma holds_bind {A B} fd (m : L (Watched S) A) (k : A -> L (Watched S) (res (Z * B))) :
  level m -> (forall a, holds fd (k a)) -> holds fd (lbind m k).
Proof.
  intros Hm Hk s l Hl. unfold lbind. specialize (Hm s). destruct (m s) as [a s'] eqn:E. apply Hk. simpl in *. congruence.
Qed.

Lemma holds_closing {A} fd e : holds (A := A) fd (closing fd (Err e)).
Proof.
  intros s l Hl. rewrite (closes_closing fd _ s l Hl). unfold closing, lbind. by destruct (syscall _ _).
Qed.

Lemma opens_ad path netatalk write : opens (S := S) (open_ad path netatalk write).
Proof.
  unfold open_ad. apply opens_try; [leveled|]. intros sidecar. apply opens_try; [leveled|]. intros mode.
  apply opens_open.
  - intros e. destruct write; [apply opens_fails|apply opens_open_error].
  - intros fd. apply holds_bind; [leveled|]. intros [info|e]; [|apply holds_closing]. by intros s l Hl.
Qed.

(** A use of an AppleDouble file. *)
Lemma level_use {B} path netatalk write (k : Z * ad_info -> L (Watched S) (res B)) :
  (forall fd info, closes fd (k (fd, info))) -> level (ltry (open_ad path netatalk write) k).
Proof. apply level_opening, opens_ad. Qed.
#[local] Hint Extern 2 (level (ltry (open_ad _ _ _) _)) => (apply level_use; intros; leveled) : level.

Lemma level_finder_get path netatalk : level (S := S) (ad_finder_get path netatalk).
Proof. unfold ad_finder_get. apply level_use. intros fd info. leveled. Qed.

Lemma level_finder_set path netatalk value : level (S := S) (ad_finder_set path netatalk value).
Proof. unfold ad_finder_set. apply level_use. intros fd info. leveled. Qed.

Lemma level_resource_size path netatalk : level (S := S) (ad_resource_size path netatalk).
Proof. unfold ad_resource_size. apply level_use. intros fd info. leveled. Qed.

Lemma level_resource_read path netatalk size offset : level (S := S) (ad_resource_read path netatalk size offset).
Proof. unfold ad_resource_read. apply level_use. intros fd info. cbv zeta. leveled. Qed.

Lemma level_resource_write path netatalk buf offset : level (S := S) (ad_resource_write path netatalk buf offset).
Proof. unfold ad_resource_write. cbv zeta. apply level_use. intros fd info. leveled. Qed.
#[local] Hint Resolve level_finder_get level_finder_set level_resource_size level_resource_read level_resource_write : level.

Lemma level_ea_paths path name : level (S := S) (ea_paths path name).
Proof. unfold ea_paths, printed. leveled. Qed.

Lemma level_scan_name fd size fuel c n pos : level (S := S) (scan_name fd size fuel c n pos).
Proof. revert c n pos. induction fuel as [|fuel IH]; intros c n pos; simpl; leveled. Qed.
#[local] Hint Resolve level_ea_paths level_scan_name : level.

Lemma level_load_loop fd size n pos items : level (S := S) (load_loop fd size n pos items).
Proof. revert pos items. induction n as [|n IH]; intros pos items; cbn [load_loop]; cbv zeta; leveled. Qed.
#[local] Hint Resolve level_load_loop : level.

Lemma level_load_items fd : level (S := S) (load_items fd).
Proof. unfold load_items. cbv zeta. leveled. Qed.
#[local] Hint Resolve level_load_items : level.

Lemma level_load path : level (S := S) (load_ea_items path).
Proof. unfold load_ea_items. leveled. Qed.

Lemma level_write_new path mode data skip : level (S := S) (write_new path mode data skip).
Proof. unfold write_new. leveled. Qed.

Lemma level_unlink path : level (S := S) (unlink_if_there path).
Proof. unfold unlink_if_there. leveled. Qed.
#[local] Hint Resolve level_load level_write_new level_unlink : level.

Lemma level_save path items : level (S := S) (save_ea_items path items).
Proof. unfold save_ea_items. leveled. Qed.

Lemma level_append_names items l : level (S := S) (append_names items l).
Proof. revert l. induction items as [|i items IH]; intros l; simpl; leveled. Qed.
#[local] Hint Resolve level_save level_append_names : level.

Lemma level_netatalk_list path : level (S := S) (netatalk_list path).
Proof. unfold netatalk_list. leveled. Qed.

Lemma level_netatalk_get path name : level (S := S) (netatalk_get path name).
Proof. unfold netatalk_get, read_value. leveled. Qed.

Lemma level_netatalk_set path name value : level (S := S) (netatalk_set path name value).
Proof. unfold netatalk_set. cbv zeta. leveled. Qed.

Lemma level_netatalk_remove path name : level (S := S) (netatalk_remove path name).
Proof. unfold netatalk_remove. leveled. Qed.
#[local] Hint Resolve level_netatalk_list level_netatalk_get level_netatalk_set level_netatalk_remove : level.

(** ** What the library offers *)

Lemma level_sys_get path name size : level (S := S) (sys_get apple path name size).
Proof. unfold sys_get. leveled. Qed.

Lemma level_sys_set path name value : level (S := S) (sys_set apple path name value).
Proof. unfold sys_set. leveled. Qed.

Lemma level_sys_remove path name : level (S := S) (sys_remove_if_there apple path name).
Proof. unfold sys_remove_if_there, sys_remove. leveled. Qed.
#[local] Hint Resolve level_sys_get level_sys_set level_sys_remove : level.

Lemma level_by_mode {A} mode (m n : L (Watched S) (res A)) : level m -> level n -> level (by_mode mode m n).
Proof. intros Hm Hn. unfold by_mode. leveled. Qed.
#[local] Hint Resolve level_by_mode : level.

Lemma level_metadata_list path mode : level (S := S) (local_metadata_list path mode).
Proof. unfold local_metadata_list. leveled. Qed.

Lemma level_metadata_get path mode name : level (S := S) (local_metadata_get apple path mode name).
Proof. unfold local_metadata_get, sys_value, no_attributes. leveled. Qed.

Lemma level_metadata_set path mode name value size : level (S := S) (local_metadata_set apple path mode name value size).
Proof. unfold local_metadata_set, no_attributes. cbv zeta. leveled. Qed.

Lemma level_metadata_remove path mode name : level (S := S) (local_metadata_remove apple path mode name).
Proof. unfold local_metadata_remove, no_attributes. leveled. Qed.

Lemma level_finderinfo_get path mode : level (S := S) (local_finderinfo_get apple path mode).
Proof. unfold local_finderinfo_get. leveled. Qed.

Lemma level_finderinfo_set path mode value : level (S := S) (local_finderinfo_set apple path mode value).
Proof. unfold local_finderinfo_set. leveled. Qed.

Lemma level_finderinfo_remove path mode : level (S := S) (local_finderinfo_remove apple path mode).
Proof. unfold local_finderinfo_remove. leveled. Qed.

Lemma level_resourcefork_size path mode : level (S := S) (local_resourcefork_size apple path mode).
Proof. unfold local_resourcefork_size. leveled. Qed.
#[local] Hint Resolve level_resourcefork_size : level.

Lemma level_resourcefork_read path mode buf size offset :
  level (S := S) (local_resourcefork_read apple path mode buf size offset).
Proof. unfold local_resourcefork_read, sys_resource_read. cbv zeta. leveled. Qed.

Lemma level_resourcefork_write path mode buf size offset :
  level (S := S) (local_resourcefork_write apple path mode buf size offset).
Proof. unfold local_resourcefork_write, sys_resource_write. cbv zeta. leveled. Qed.

Lemma level_resourcefork_remove path mode : level (S := S) (local_resourcefork_remove apple path mode).
Proof. unfold local_resourcefork_remove. leveled. Qed.

#[local] Hint Resolve level_metadata_list level_metadata_get level_metadata_set level_metadata_remove : level.
#[local] Hint Resolve level_finderinfo_get level_finderinfo_set level_finderinfo_remove : level.
#[local] Hint Resolve level_resourcefork_read level_resourcefork_write level_resourcefork_remove : level.

(** ** Transfers *)

(** A transfer at every state of its warnings. *)
Definition levels {A} (m : T (S := Watched S) A) : Prop := forall w, level (m w).

Lemma levels_ret {A} (r : res A) : levels (tret r).
Proof. intros w. apply level_ret. Qed.

Lemma levels_try {A B} (m : T (S := Watched S) A) (k : A -> T B) :
  levels m -> (forall a, levels (k a)) -> levels (ttry m k).
Proof. intros Hm Hk w. unfold ttry. apply level_bind; [apply Hm|]. intros [[a|e] w']; [apply Hk|apply level_ret]. Qed.

Lemma levels_result r : levels (transfer_metadata_result (S := Watched S) r).
Proof.
  intros w. unfold transfer_metadata_result. destruct r as [u|e]; [apply level_ret|].
  destruct (transfer_error_absent e); [apply level_ret|]. destruct (transfer_error_unsupported e); apply level_ret.
Qed.

Lemma levels_tolerated m : level m -> levels (tolerated (S := Watched S) m).
Proof. intros Hm w. apply level_bind; [done|]. intros r. apply levels_result. Qed.

Lemma levels_for_names fuel rest body :
  (forall name, levels (body name)) -> levels (for_names (S := Watched S) fuel rest body).
Proof.
  intros Hb. revert rest. induction fuel as [|fuel IH]; intros rest; simpl;
    destruct (transfer_list_next rest) as [[[name r]|]|e]; try apply levels_ret.
  destruct (_ || _); [done|]. by apply levels_try.
Qed.

Lemma levels_for_list l body :
  level l -> (forall name, levels (body name)) -> levels (for_list (S := Watched S) l body).
Proof.
  intros Hl Hb w. apply level_bind; [done|]. intros [x|e]; [by apply levels_for_names|apply levels_result].
Qed.

Lemma levels_for_remote volume path body :
  (forall name, levels (body name)) -> levels (for_remote_list (S := Watched S) volume path body).
Proof.
  intros Hb w. apply level_bind; [unfold transfer_remote_list; leveled|]. intros [x|e]; [by apply levels_for_names|].
  case_if; [|apply levels_result]. unfold transfer_warning. leveled.
Qed.

Lemma levels_copy_fork fuel get put total offset :
  (forall n o, level (get n o)) -> (forall b o, level (put b o)) ->
  levels (copy_fork (S := Watched S) fuel get put total offset).
Proof.
  intros Hg Hp. revert offset. induction fuel as [|fuel IH]; intros offset; simpl; case_if; try apply levels_ret.
  intros w. apply level_bind; [apply Hg|]. intros [bytes|e]; [|apply levels_ret]. case_if; [apply levels_ret|].
  apply level_bind; [apply Hp|]. intros [u|e]; [apply IH|]. case_if; [|apply levels_ret]. apply level_ret.
Qed.

Lemma levels_copy_resource size get put :
  level size -> (forall n o, level (get n o)) -> (forall b o, level (put b o)) ->
  levels (copy_resource (S := Watched S) size get put).
Proof.
  intros Hs Hg Hp w. apply level_bind; [done|]. intros [n|e]; [by apply levels_copy_fork|apply levels_result].
Qed.

Lemma levels_copy_attr get put :
  level get -> (forall v, level (put v)) -> levels (copy_attr (S := Watched S) get put).
Proof.
  intros Hg Hp w. apply level_bind; [done|]. intros [[v|]|e]; [|apply level_ret|apply levels_result].
  apply level_bind; [done|]. intros r. apply levels_result.
Qed.

Lemma levels_copy_finder got clear put :
  levels clear -> (forall v, level (put v)) -> levels (copy_finder (S := Watched S) got clear put).
Proof.
  intros Hc Hp. unfold copy_finder. destruct got as [v|e].
  - apply levels_try; [done|]. intros _. by apply levels_tolerated.
  - case_if; [apply levels_ret|]. apply levels_try; [done|]. intros _. apply levels_result.
Qed.

Lemma level_remote_unit volume path c : level (S := S) (remote_unit volume path c).
Proof. unfold remote_unit. leveled. Qed.

Lemma levels_remote_clear volume path : levels (remote_clear volume path).
Proof.
  unfold remote_clear. apply levels_try; [apply levels_tolerated, level_remote_unit|]. intros _.
  apply levels_try; [apply levels_tolerated, level_remote_unit|]. intros _.
  apply levels_for_remote. intros name. apply levels_tolerated, level_remote_unit.
Qed.

Lemma level_clear_local path mode : level (S := S) (afp_metadata_clear_local apple path mode).
Proof.
  unfold afp_metadata_clear_local. destruct path as [p|]; [|apply levels_ret]. case_if; [apply levels_ret|].
  case_if; [apply levels_ret|]. apply levels_try; [apply levels_tolerated; leveled|]. intros _.
  apply levels_try; [apply levels_tolerated; leveled|]. intros _.
  apply levels_for_list; [leveled|]. intros name. apply levels_tolerated. leveled.
Qed.

Lemma level_remote_value volume path name : level (S := S) (remote_value volume path name).
Proof. unfold remote_value, transfer_remote_get. leveled. Qed.

Lemma level_remote_finder volume path : level (S := S) (remote_finder volume path).
Proof. unfold remote_finder. leveled. Qed.

Lemma level_remote_fork volume path size offset : level (S := S) (remote_fork volume path size offset).
Proof. unfold remote_fork. leveled. Qed.

Lemma level_remote_fork_size volume path : level (S := S) (remote_fork_size volume path).
Proof. unfold remote_fork_size. leveled. Qed.
#[local] Hint Resolve level_remote_unit level_remote_value level_remote_finder level_remote_fork level_remote_fork_size : level.

Lemma level_local_to_remote path mode volume dest :
  level (S := S) (afp_sl_metadata_copy_local_to_remote apple path mode volume dest).
Proof.
  unfold afp_sl_metadata_copy_local_to_remote. destruct path as [p|], dest as [q|]; try apply levels_ret.
  case_if; [apply levels_ret|]. case_if; [apply levels_ret|]. apply level_bind; [leveled|]. intros got.
  apply levels_try; [apply levels_copy_finder; [apply levels_remote_clear|leveled]|]. intros _.
  apply levels_try; [apply levels_copy_resource; leveled|]. intros _.
  apply levels_for_list; [leveled|]. intros name. apply levels_copy_attr; [|leveled]. unfold local_value. leveled.
Qed.

Lemma level_remote_to_local volume source path mode :
  level (S := S) (afp_sl_metadata_copy_remote_to_local apple volume source path mode).
Proof.
  unfold afp_sl_metadata_copy_remote_to_local. destruct source as [p|], path as [q|]; try apply levels_ret.
  case_if; [apply levels_ret|]. case_if; [apply levels_ret|]. apply level_bind; [leveled|]. intros got.
  apply levels_try; [apply levels_copy_finder; [intros w; apply level_clear_local|leveled]|]. intros _.
  apply levels_try; [apply levels_copy_resource; leveled|]. intros _.
  apply levels_for_remote. intros name. apply levels_copy_attr; leveled.
Qed.

Lemma level_remote_to_remote v1 p1 v2 p2 : level (S := S) (afp_sl_metadata_copy_remote_to_remote v1 p1 v2 p2).
Proof.
  unfold afp_sl_metadata_copy_remote_to_remote. destruct p1 as [p|], p2 as [q|]; try apply levels_ret.
  case_if; [apply levels_ret|]. apply level_bind; [leveled|]. intros got.
  apply levels_try; [apply levels_copy_finder; [apply levels_remote_clear|leveled]|]. intros _.
  apply levels_try; [apply levels_copy_resource; leveled|]. intros _.
  apply levels_for_remote. intros name. apply levels_copy_attr; leveled.
Qed.

Lemma level_sl_clear volume path : level (S := S) (afp_sl_metadata_clear volume path).
Proof. unfold afp_sl_metadata_clear. destruct path; [|leveled]. case_if; [leveled|]. apply levels_remote_clear. Qed.

End Programs.

(** ** Any operations *)

Inductive metadata_op :=
| Op_list (path : option (list Z)) (mode : Z)
| Op_get (path : option (list Z)) (mode : Z) (name : option (list Z))
| Op_set (path : option (list Z)) (mode : Z) (name value : option (list Z)) (size : Z)
| Op_remove (path : option (list Z)) (mode : Z) (name : option (list Z))
| Op_finder_get (path : option (list Z)) (mode : Z)
| Op_finder_set (path : option (list Z)) (mode : Z) (value : list Z)
| Op_finder_remove (path : option (list Z)) (mode : Z)
| Op_fork_size (path : option (list Z)) (mode : Z)
| Op_fork_read (path : option (list Z)) (mode : Z) (buf : bool) (size offset : Z)
| Op_fork_write (path : option (list Z)) (mode : Z) (buf : option (list Z)) (size offset : Z)
| Op_fork_remove (path : option (list Z)) (mode : Z)
| Op_clear_local (path : option (list Z)) (mode : Z)
| Op_clear_remote (volume : Z) (path : option (list Z))
| Op_to_remote (path : option (list Z)) (mode volume : Z) (destination : option (list Z))
| Op_to_local (volume : Z) (source path : option (list Z)) (mode : Z)
| Op_between (source_volume : Z) (source : option (list Z)) (volume : Z) (destination : option (list Z)).

Definition run_op {S} `{Os S} (apple : bool) (o : metadata_op) : L S unit :=
  match o with
  | Op_list p m => local_metadata_list p m ;;* lret tt
  | Op_get p m n => local_metadata_get apple p m n ;;* lret tt
  | Op_set p m n v k => local_metadata_set apple p m n v k ;;* lret tt
  | Op_remove p m n => local_metadata_remove apple p m n ;;* lret tt
  | Op_finder_get p m => local_finderinfo_get apple p m ;;* lret tt
  | Op_finder_set p m v => local_finderinfo_set apple p m v ;;* lret tt
  | Op_finder_remove p m => local_finderinfo_remove apple p m ;;* lret tt
  | Op_fork_size p m => local_resourcefork_size apple p m ;;* lret tt
  | Op_fork_read p m b k o => local_resourcefork_read apple p m b k o ;;* lret tt
  | Op_fork_write p m b k o => local_resourcefork_write apple p m b k o ;;* lret tt
  | Op_fork_remove p m => local_resourcefork_remove apple p m ;;* lret tt
  | Op_clear_local p m => afp_metadata_clear_local apple p m ;;* lret tt
  | Op_clear_remote v p => afp_sl_metadata_clear v p ;;* lret tt
  | Op_to_remote p m v d => afp_sl_metadata_copy_local_to_remote apple p m v d ;;* lret tt
  | Op_to_local v s p m => afp_sl_metadata_copy_remote_to_local apple v s p m ;;* lret tt
  | Op_between v s v2 d => afp_sl_metadata_copy_remote_to_remote v s v2 d ;;* lret tt
  end.

Fixpoint run_ops {S} `{Os S} (apple : bool) (os : list metadata_op) : L S unit :=
  match os with
  | [] => lret tt
  | o :: os => run_op apple o ;;* run_ops apple os
  end.

Lemma level_op {S} `{Os S} apple o : level (S := S) (run_op apple o).
Proof.
  destruct o; simpl; apply level_bind; try (intros; apply level_ret);
    eauto using level_metadata_list, level_metadata_get, level_metadata_set, level_metadata_remove, level_finderinfo_get,
      level_finderinfo_set, level_finderinfo_remove, level_resourcefork_size, level_resourcefork_read,
      level_resourcefork_write, level_resourcefork_remove, level_clear_local, level_sl_clear, level_local_to_remote,
      level_remote_to_local, level_remote_to_remote.
Qed.

Lemma level_ops {S} `{Os S} apple os : level (S := S) (run_ops apple os).
Proof. induction os as [|o os IH]; [apply level_ret|]. apply level_bind; [apply level_op|done]. Qed.

(** Whatever the system and the daemon answer, after any operations on
    metadata exactly the files are open that were open before them: every
    handle is closed, on every path through the code. *)
Theorem metadata_closes_files {S} `{Os S} apple os (s : S) open :
  snd (snd (run_ops apple os ((s, open) : Watched S))) = open.
Proof. exact (level_ops apple os (s, open)). Qed.
