(* ===== verification/MetadataPlaces.v ===== *)
(** Where the metadata of a local file is kept: every change a copy of metadata
    to a local file makes on the disk is of the file itself, of its AppleDouble
    files, or of the folder .AppleDouble they are in. *)
From stdpp Require Import base list.
From S2P Require Import Prelude AfpProtocol Identify Xattr Local Sidecar Metadata.
Open Scope local_scope.

(** ** The paths a program changes *)

Definition touched {A} (c : sys A) : list (list Z) :=
  match c with
  | Mkdir path _ | Unlink path | Sys_setxattr path _ _ | Sys_removexattr path _ => [path]
  | Open path how => match how with Rdonly => [] | _ => [path] end
  | _ => []
  end.

Definition Traced (S : Type) : Type := S * list (list Z).

#[export] Instance traced_os {S} `{Os S} : Os (Traced S) :=
  fun A c s => let (a, s') := answer c (fst s) in (a, (s', snd s ++ touched c)).

(** The paths a run changes. *)
Definition touched_by {S A} (m : L (Traced S) A) (s : S) : list (list Z) := snd (snd (m (s, []))).

(** ** The files of a path's metadata *)

Definition folder_part (path : list Z) : list Z :=
  match strrchr path ch_slash with Some slash => take (Z.to_nat (slash + 1)) path | None => [] end.

(** The AppleDouble file of macOS, and those of Netatalk for a folder and for
    another file. *)
Definition sidecar_names (path : list Z) : list (list Z) :=
  [folder_part path ++ str "._" ++ base_name path; path ++ str "/.AppleDouble/.Parent";
   folder_part path ++ str ".AppleDouble/" ++ base_name path].

(** An AppleDouble file, or one of Netatalk's attribute files beside it. *)
Definition metadata_file (path f : list Z) : Prop :=
  exists sidecar suffix, sidecar ∈ sidecar_names path /\ Forall (fun b => b <> ch_slash) suffix /\ f = sidecar ++ suffix.

Inductive metadata_place (path : list Z) : list Z -> Prop :=
| place_self : metadata_place path path
| place_file f : metadata_file path f -> metadata_place path f
| place_folder f i : metadata_file path f -> strrchr f ch_slash = Some i ->
    base_name (take (Z.to_nat i) f) = str ".AppleDouble" -> metadata_place path (take (Z.to_nat i) f).

(** ** Rules *)

Section Rules.
Context {S : Type} `{Os S} (P : list Z -> Prop).

(** [m] changes paths of [P] only, and its answer has [Q]. *)
Definition finds {A} (Q : A -> Prop) (m : L (Traced S) A) : Prop :=
  forall s, exists l, snd (snd (m s)) = snd s ++ l /\ Forall P l /\ Q (fst (m s)).

Definition within {A} (m : L (Traced S) A) : Prop := finds (fun _ => True) m.

Lemma finds_ret {A} (Q : A -> Prop) (a : A) : Q a -> finds Q (lret a).
Proof. intros Ha s. exists []. by rewrite app_nil_r. Qed.

Lemma finds_bind {A B} (Q : A -> Prop) (R : B -> Prop) m k :
  finds Q m -> (forall a, Q a -> finds R (k a)) -> finds R (lbind m k).
Proof.
  intros Hm Hk s. destruct (Hm s) as (l & Hl & HP & HQ). unfold lbind. destruct (m s) as [a s']. cbn [fst snd] in *.
  destruct (Hk a HQ s') as (l' & Hl' & HP' & HR). exists (l ++ l'). rewrite Hl', Hl, app_assoc. split_and!; [done| |done]. by apply Forall_app.
Qed.

(** A step that may fail, whose value has [Q]. *)
Lemma finds_try {A B} (Q : A -> Prop) (R : res B -> Prop) (m : L (Traced S) (res A)) k :
  finds (fun r => forall a, r = Ok a -> Q a) m -> (forall a, Q a -> finds R (k a)) -> (forall e, R (Err e)) -> finds R (ltry m k).
Proof. intros Hm Hk He. eapply finds_bind; [exact Hm|]. intros [a|e] Ha; [by apply Hk, Ha|by apply finds_ret]. Qed.

Lemma finds_within {A} (Q : A -> Prop) m : finds Q m -> within m.
Proof. intros Hm s. destruct (Hm s) as (l & ? & ? & _). by exists l. Qed.

Lemma within_ret {A} (a : A) : within (lret a).
Proof. by apply finds_ret. Qed.

Lemma within_bind {A B} (m : L (Traced S) A) (k : A -> L (Traced S) B) : within m -> (forall a, within (k a)) -> within (lbind m k).
Proof. intros Hm Hk. eapply finds_bind; [exact Hm|]. intros a _. apply Hk. Qed.

Lemma within_try {A B} (m : L (Traced S) (res A)) (k : A -> L (Traced S) (res B)) : within m -> (forall a, within (k a)) -> within (ltry m k).
Proof. intros Hm Hk. apply within_bind; [done|]. intros [a|e]; [apply Hk|apply within_ret]. Qed.

Lemma within_syscall {A} (c : sys A) : Forall P (touched c) -> within (syscall c).
Proof. intros Hc s. unfold syscall, answer, traced_os. destruct (answer c (fst s)) as [a s']. by exists (touched c). Qed.

End Rules.

Create HintDb places.
#[export] Hint Resolve within_ret place_self place_file : places.

(** Proves that a program keeps to the paths, from its parts. *)
Ltac within_step :=
  match goal with
  | |- forall _, _ => intro
  | |- within _ (let (_, _) := ?x in _) => destruct x
  | |- within _ (match ?x with _ => _ end) => destruct x
  | |- within _ (lbind _ _) => apply within_bind
  | |- within _ (ltry _ _) => apply within_try
  | |- within _ (syscall _) => apply within_syscall; cbn [touched]; repeat constructor; solve [eauto with places]
  | |- within _ _ => solve [eauto with places]
  end.
Ltac placed := repeat within_step.

Section Programs.
Context {S : Type} `{Os S} (apple : bool) (path : list Z).
Let P := metadata_place path.
Abbreviation within := (within (S := S) P).

Lemma within_yields {A} (a : A) : within (yields a).
Proof. apply within_ret. Qed.

Lemma within_fails {A} e : within (fails e : L (Traced S) (res A)).
Proof. apply within_ret. Qed.
#[local] Hint Resolve within_yields within_fails : places.

Lemma within_sysret {A} (c : sys (res A)) : Forall P (touched c) -> within (sysret c).
Proof. intros Hc. unfold sysret. apply within_bind; [by apply within_syscall|]. placed. Qed.
#[local] Hint Extern 1 (MetadataPlaces.within _ (sysret _)) => (apply within_sysret; cbn [touched]; repeat constructor; solve [eauto with places]) : places.

Lemma within_alloc n : within (alloc n).
Proof. unfold alloc. placed. Qed.
#[local] Hint Resolve within_alloc : places.

Lemma within_resolve q mode : within (resolve_generic_mode q mode).
Proof. unfold resolve_generic_mode, sys_xattrs_supported. placed. Qed.

Lemma within_append_name l name : within (append_name l name).
Proof. unfold append_name. cbv zeta. placed. Qed.
#[local] Hint Resolve within_resolve within_append_name : places.

Lemma within_sys_list_loop fuel raw l : within (sys_list_loop fuel raw l).
Proof. revert raw l. induction fuel as [|fuel IH]; intros [|b raw] l; simpl; placed. Qed.
#[local] Hint Resolve within_sys_list_loop : places.

Lemma within_sys_list q : within (sys_list q).
Proof. unfold sys_list. placed. Qed.

Lemma within_file_mode q : within (sidecar_file_mode q).
Proof. unfold sidecar_file_mode. placed. Qed.

Lemma within_read_entries fd size n i info : within (read_entries fd size n i info).
Proof. revert i info. induction n as [|n IH]; intros i info; simpl; placed. Qed.
#[local] Hint Resolve within_sys_list within_file_mode within_read_entries : places.

Lemma within_read_ad_info fd : within (read_ad_info fd).
Proof. unfold read_ad_info. cbv zeta. placed. Qed.

Lemma within_pwrite_all fd data off : within (pwrite_all fd data off).
Proof. unfold pwrite_all. placed. Qed.
#[local] Hint Resolve within_read_ad_info within_pwrite_all : places.

Lemma within_info_or_new fd netatalk write : within (ad_info_or_new fd netatalk write).
Proof. unfold ad_info_or_new, initialize_ad. placed. Qed.

Lemma within_open_error {A} q e : within (sidecar_open_error q e : L (Traced S) (res A)).
Proof. unfold sidecar_open_error. placed. Qed.
#[local] Hint Resolve within_info_or_new within_open_error : places.

Lemma within_closing {A} fd (a : A) : within (closing fd a).
Proof. unfold closing. placed. Qed.
#[local] Hint Resolve within_closing : places.

(** *** Names *)

Lemma finds_printed size text : finds (S := S) P (fun r => forall a, r = Ok a -> a = text) (printed size text).
Proof. unfold printed. destruct (_ >=? _); apply finds_ret; [done|by intros a [= <-]]. Qed.

Lemma finds_sidecar netatalk :
  finds (S := S) P (fun r => forall sc, r = Ok sc -> sc ∈ sidecar_names path) (sidecar_path path netatalk).
Proof.
  unfold sidecar_path. cbv zeta. eapply finds_bind; [by apply within_syscall|]. intros st _.
  assert (Hn : forall x, x ∈ sidecar_names path -> finds (S := S) P (fun r => forall sc, r = Ok sc -> sc ∈ sidecar_names path) (printed PATH_MAX x)).
  { intros x Hx s. destruct (finds_printed PATH_MAX x s) as (l & Hl & HP & HQ). exists l. split_and!; [done|done|]. intros sc Hsc. by rewrite (HQ sc Hsc). }
  apply Hn. unfold sidecar_names, folder_part, base_name. destruct (strrchr path ch_slash) as [i|]; destruct netatalk; cbn [negb]; try destruct (is_folder st); set_solver.
Qed.

Lemma sidecar_file sc : sc ∈ sidecar_names path -> metadata_file path sc.
Proof. intros Hs. exists sc, []. by rewrite app_nil_r. Qed.

Lemma within_ensure f : metadata_file path f -> within (ensure_sidecar_dir f).
Proof.
  intros Hf. unfold ensure_sidecar_dir. destruct (strrchr f ch_slash) as [i|] eqn:Ei; [|placed]. cbv zeta.
  change (match strrchr ?p ch_slash with Some j => drop (Z.to_nat (j + 1)) ?p | None => ?p end) with (base_name p).
  destruct (negb _) eqn:Eb; [placed|]. apply negb_false_iff, list_eqb_eq in Eb.
  assert (Hp : P (take (Z.to_nat i) f)) by (by eapply place_folder). placed.
Qed.

(** A path of the metadata's, before a program that uses it. *)
Lemma within_sidecar {B} netatalk (k : list Z -> L (Traced S) (res B)) :
  (forall sc, sc ∈ sidecar_names path -> within (k sc)) -> within (ltry (sidecar_path path netatalk) k).
Proof. intros Hk. eapply finds_try; [apply finds_sidecar|exact Hk|done]. Qed.

Lemma within_open_ad netatalk write : within (open_ad path netatalk write).
Proof.
  unfold open_ad. apply within_sidecar. intros sc Hsc. apply sidecar_file in Hsc.
  pose proof (within_ensure sc Hsc). pose proof (place_file path sc Hsc). destruct write; placed.
Qed.
#[local] Hint Resolve within_open_ad : places.

Lemma within_finder_get netatalk : within (ad_finder_get path netatalk).
Proof. unfold ad_finder_get. placed. Qed.

Lemma within_finder_set netatalk value : within (ad_finder_set path netatalk value).
Proof. unfold ad_finder_set. placed. Qed.

Lemma within_resource_size netatalk : within (ad_resource_size path netatalk).
Proof. unfold ad_resource_size. placed. Qed.

Lemma within_resource_write netatalk buf offset : within (ad_resource_write path netatalk buf offset).
Proof. unfold ad_resource_write. cbv zeta. placed. Qed.
#[local] Hint Resolve within_finder_get within_finder_set within_resource_size within_resource_write : places.

(** *** Attribute files *)

Lemma finds_ea_paths name : (forall n, name = Some n -> Forall (fun b => b <> ch_slash) n) ->
  finds (S := S) P (fun r => forall a, r = Ok a -> metadata_file path (fst a) /\ (name <> None -> metadata_file path (snd a))) (ea_paths path name).
Proof.
  intros Hn. unfold ea_paths. eapply finds_try; [apply finds_sidecar| |done]. intros ad Had. cbv beta in Had.
  assert (Hea : Forall (fun b => b <> ch_slash) (str "::EA")) by (apply (bool_decide_unpack _); vm_compute; exact I).
  eapply finds_try; [apply finds_printed| |done]. intros header ->.
  assert (Hh : metadata_file path (ad ++ str "::EA")) by (by exists ad, (str "::EA")).
  destruct name as [n|]; [|by apply finds_ret; intros a [= <-]].
  eapply finds_try; [apply finds_printed| |done]. intros value ->. apply finds_ret. intros a [= <-]. split; [done|]. intros _.
  exists ad, (str "::EA::" ++ n). split_and!; [done| |done]. apply Forall_app. split; [apply (bool_decide_unpack _); vm_compute; exact I|by apply Hn].
Qed.

Lemma within_ea_paths {B} name (k : list Z * list Z -> L (Traced S) (res B)) :
  (forall n, name = Some n -> Forall (fun b => b <> ch_slash) n) ->
  (forall header file, metadata_file path header -> (name <> None -> metadata_file path file) -> within (k (header, file))) ->
  within (ltry (ea_paths path name) k).
Proof. intros Hn Hk. eapply finds_try; [by apply finds_ea_paths| |done]. intros [header file] [H1 H2]. by apply Hk. Qed.

Lemma within_scan_name fd size fuel c n pos : within (scan_name fd size fuel c n pos).
Proof. revert c n pos. induction fuel as [|fuel IH]; intros c n pos; simpl; placed. Qed.
#[local] Hint Resolve within_scan_name : places.

Lemma within_load_loop fd size n pos items : within (load_loop fd size n pos items).
Proof. revert pos items. induction n as [|n IH]; intros pos items; cbn [load_loop]; cbv zeta; placed. Qed.
#[local] Hint Resolve within_load_loop : places.

Lemma within_load_items fd : within (load_items fd).
Proof. unfold load_items. cbv zeta. placed. Qed.
#[local] Hint Resolve within_load_items : places.

Lemma within_load : within (load_ea_items path).
Proof. unfold load_ea_items. apply within_ea_paths; [done|]. intros header file Hh _. placed. Qed.

Lemma within_write_new f mode data skip : metadata_file path f -> within (write_new f mode data skip).
Proof. intros Hf. pose proof (place_file path f Hf). unfold write_new. placed. Qed.

Lemma within_unlink f : metadata_file path f -> within (unlink_if_there f).
Proof. intros Hf. pose proof (place_file path f Hf). unfold unlink_if_there. placed. Qed.
#[local] Hint Resolve within_load within_write_new within_unlink within_ensure : places.

Lemma within_save items : within (save_ea_items path items).
Proof.
  unfold save_ea_items. apply within_ea_paths; [done|]. intros header file Hh _. destruct (_ =? 0); [placed|].
  apply within_sidecar. intros sc Hsc. apply sidecar_file in Hsc. placed.
Qed.

Lemma within_append_names items l : within (append_names items l).
Proof. revert l. induction items as [|i items IH]; intros l; simpl; placed. Qed.
#[local] Hint Resolve within_save within_append_names : places.

Lemma within_netatalk_list : within (netatalk_list path).
Proof. unfold netatalk_list. placed. Qed.

Lemma within_netatalk_set name value : Forall (fun b => b <> ch_slash) name -> within (netatalk_set path name value).
Proof.
  intros Hn. unfold netatalk_set. cbv zeta. destruct (_ >? _); [placed|]. apply within_bind; [placed|]. intros r.
  destruct (match r with Ok items => Ok items | Err e => _ end) as [items|e]; [|placed]. apply within_try; [placed|]. intros _.
  apply within_ea_paths; [by intros n [= <-]|]. intros header file _ Hf. specialize (Hf ltac:(done)). placed.
Qed.

Lemma within_netatalk_remove name : Forall (fun b => b <> ch_slash) name -> within (netatalk_remove path name).
Proof.
  intros Hn. unfold netatalk_remove. apply within_try; [placed|]. intros items. destruct (negb _); [placed|].
  apply within_ea_paths; [by intros n [= <-]|]. intros header file _ Hf. specialize (Hf ltac:(done)). placed.
Qed.
#[local] Hint Resolve within_netatalk_list within_netatalk_set within_netatalk_remove : places.

(** *** What the library offers *)

(** The path as it was given. *)
Lemma within_checked {B} (k : list Z -> L (Traced S) (res B)) : within (k path) -> within (ltry (local_path_check (Some path)) k).
Proof.
  intros Hk. eapply (finds_try P (fun q => q = path)); [|by intros q ->|done]. unfold local_path_check.
  eapply finds_bind; [by apply (within_sysret (Stat path))|]. intros [m|e] _; apply finds_ret; [by intros q [= <-]|done].
Qed.

(** A valid name is one component. *)
Lemma valid_name_slash name : no_nul name -> metadata_name_valid (Some name) = true -> Forall (fun b => b <> ch_slash) name.
Proof.
  intros Hn Hv. unfold metadata_name_valid in Hv. apply andb_prop in Hv as [[H1 H2]%andb_prop H3]. apply Z.leb_le in H2.
  rewrite strnlen_id in * by (done || by vm_compute). rewrite Z.min_r in H3 by lia. rewrite take_ge in H3 by (unfold zlen; lia).
  apply negb_true_iff in H3. apply Forall_forall. intros b Hb ->. apply not_true_iff_false in H3. apply H3, existsb_exists.
  exists ch_slash. split; [by apply list_elem_of_In|apply Z.eqb_refl].
Qed.

Lemma within_sys_get name size : within (sys_get apple path name size).
Proof. unfold sys_get. placed. Qed.

Lemma within_sys_set name value : within (sys_set apple path name value).
Proof. unfold sys_set. placed. Qed.

Lemma within_sys_remove name : within (sys_remove_if_there apple path name).
Proof. unfold sys_remove_if_there, sys_remove. placed. Qed.
#[local] Hint Resolve within_sys_get within_sys_set within_sys_remove : places.

Lemma within_metadata_list mode : within (local_metadata_list (Some path) mode).
Proof. unfold local_metadata_list. apply within_checked. placed. Qed.

Lemma within_metadata_set mode name value size : no_nul name -> within (local_metadata_set apple (Some path) mode (Some name) value size).
Proof.
  intros Hn. unfold local_metadata_set, no_attributes. apply within_checked. cbv zeta. cbn [default from_option id].
  destruct (negb (metadata_name_valid (Some name)) || _) eqn:Ev; [placed|]. apply orb_false_elim in Ev as [Ev _]. apply negb_false_iff in Ev.
  pose proof (valid_name_slash name Hn Ev). placed.
Qed.

Lemma within_metadata_remove mode name : no_nul name -> within (local_metadata_remove apple (Some path) mode (Some name)).
Proof.
  intros Hn. unfold local_metadata_remove, no_attributes. apply within_checked. cbn [default from_option id].
  destruct (negb (metadata_name_valid (Some name))) eqn:Ev; [placed|]. apply negb_false_iff in Ev.
  pose proof (valid_name_slash name Hn Ev). placed.
Qed.

Lemma within_by_mode {A} mode (m n : L (Traced S) (res A)) : within m -> within n -> within (by_mode mode m n).
Proof. intros Hm Hn. unfold by_mode. placed. Qed.
#[local] Hint Resolve within_by_mode within_metadata_list within_metadata_set within_metadata_remove : places.

Lemma within_finderinfo_set mode value : within (local_finderinfo_set apple (Some path) mode value).
Proof. unfold local_finderinfo_set. apply within_checked. placed. Qed.

Lemma within_finderinfo_remove mode : within (local_finderinfo_remove apple (Some path) mode).
Proof. unfold local_finderinfo_remove. apply within_checked. placed. Qed.

Lemma within_resourcefork_size mode : within (local_resourcefork_size apple (Some path) mode).
Proof. unfold local_resourcefork_size. apply within_checked. placed. Qed.
#[local] Hint Resolve within_resourcefork_size : places.

Lemma within_resourcefork_write mode buf size offset : within (local_resourcefork_write apple (Some path) mode buf size offset).
Proof.
  unfold local_resourcefork_write. cbv zeta. destruct (_ || _); [placed|]. destruct (_ || _); [placed|]. apply within_checked.
  unfold sys_resource_write. cbv zeta. placed.
Qed.

Lemma within_resourcefork_remove mode : within (local_resourcefork_remove apple (Some path) mode).
Proof. unfold local_resourcefork_remove. apply within_checked. placed. Qed.
#[local] Hint Resolve within_finderinfo_set within_finderinfo_remove within_resourcefork_write within_resourcefork_remove : places.

(** *** Transfers *)

(** A transfer at every state of its warnings. *)
Definition transfers_within {A} (m : T (S := Traced S) A) : Prop := forall w, within (m w).

Lemma transfers_ret {A} (r : res A) : transfers_within (tret r).
Proof. intros w. apply within_ret. Qed.

Lemma transfers_try {A B} (m : T (S := Traced S) A) (k : A -> T B) :
  transfers_within m -> (forall a, transfers_within (k a)) -> transfers_within (ttry m k).
Proof. intros Hm Hk w. unfold ttry. apply within_bind; [apply Hm|]. intros [[a|e] w']; [apply Hk|apply within_ret]. Qed.

Lemma transfers_result r : transfers_within (transfer_metadata_result (S := Traced S) r).
Proof. intros w. unfold transfer_metadata_result, transfer_warning, tret. destruct r; repeat case_if; apply within_ret. Qed.

Lemma transfers_tolerated m : within m -> transfers_within (tolerated (S := Traced S) m).
Proof. intros Hm w. apply within_bind; [done|]. intros r. apply transfers_result. Qed.

Lemma transfers_for_names fuel rest body :
  (forall name, no_nul name -> transfers_within (body name)) -> transfers_within (for_names (S := Traced S) fuel rest body).
Proof.
  intros Hb. revert rest. induction fuel as [|fuel IH]; intros rest; simpl;
    destruct (transfer_list_next rest) as [[[name r]|]|e] eqn:En; try apply transfers_ret.
  destruct (_ || _); [done|]. apply transfers_try; [apply Hb|done]. unfold transfer_list_next in En. repeat case_if; try done.
  injection En as <- _. apply until_nul_no_nul.
Qed.

Lemma transfers_for_list l body :
  within l -> (forall name, no_nul name -> transfers_within (body name)) -> transfers_within (for_list (S := Traced S) l body).
Proof. intros Hl Hb w. apply within_bind; [done|]. intros [x|e]; [by apply transfers_for_names|apply transfers_result]. Qed.

Lemma transfers_for_remote volume q body :
  (forall name, no_nul name -> transfers_within (body name)) -> transfers_within (for_remote_list (S := Traced S) volume q body).
Proof.
  intros Hb w. apply within_bind; [unfold transfer_remote_list; placed|]. intros [x|e]; [by apply transfers_for_names|].
  case_if; [|apply transfers_result]. unfold transfer_warning. placed.
Qed.

Lemma transfers_copy_fork fuel get put total offset :
  (forall n o, within (get n o)) -> (forall b o, within (put b o)) -> transfers_within (copy_fork (S := Traced S) fuel get put total offset).
Proof.
  intros Hg Hp. revert offset. induction fuel as [|fuel IH]; intros offset; simpl; case_if; try apply transfers_ret.
  intros w. apply within_bind; [apply Hg|]. intros [bytes|e]; [|apply transfers_ret]. case_if; [apply transfers_ret|].
  apply within_bind; [apply Hp|]. intros [u|e]; [apply IH|]. case_if; [|apply transfers_ret]. apply within_ret.
Qed.

Lemma transfers_copy_resource size get put :
  within size -> (forall n o, within (get n o)) -> (forall b o, within (put b o)) -> transfers_within (copy_resource (S := Traced S) size get put).
Proof. intros Hs Hg Hp w. apply within_bind; [done|]. intros [n|e]; [by apply transfers_copy_fork|apply transfers_result]. Qed.

Lemma transfers_copy_attr get put : within get -> (forall v, within (put v)) -> transfers_within (copy_attr (S := Traced S) get put).
Proof.
  intros Hg Hp w. apply within_bind; [done|]. intros [[v|]|e]; [|apply within_ret|apply transfers_result].
  apply within_bind; [done|]. intros r. apply transfers_result.
Qed.

Lemma transfers_copy_finder got clear put :
  transfers_within clear -> (forall v, within (put v)) -> transfers_within (copy_finder (S := Traced S) got clear put).
Proof.
  intros Hc Hp. unfold copy_finder. destruct got as [v|e].
  - apply transfers_try; [done|]. intros _. by apply transfers_tolerated.
  - case_if; [apply transfers_ret|]. apply transfers_try; [done|]. intros _. apply transfers_result.
Qed.

Lemma within_clear_local mode : within (afp_metadata_clear_local apple (Some path) mode).
Proof.
  unfold afp_metadata_clear_local. case_if; [apply transfers_ret|]. case_if; [apply transfers_ret|].
  apply transfers_try; [apply transfers_tolerated; placed|]. intros _. apply transfers_try; [apply transfers_tolerated; placed|]. intros _.
  apply transfers_for_list; [placed|]. intros name Hn. apply transfers_tolerated. placed.
Qed.

Lemma within_copy_to_local volume source mode :
  within (afp_sl_metadata_copy_remote_to_local apple volume source (Some path) mode).
Proof.
  unfold afp_sl_metadata_copy_remote_to_local. destruct source as [p|]; [|apply transfers_ret].
  case_if; [apply transfers_ret|]. case_if; [apply transfers_ret|]. apply within_bind; [unfold remote_finder; placed|]. intros got.
  apply transfers_try; [apply transfers_copy_finder; [intros w; apply within_clear_local|placed]|]. intros _.
  apply transfers_try; [apply transfers_copy_resource; unfold remote_fork_size, remote_fork; placed|]. intros _.
  apply transfers_for_remote. intros name Hn. apply transfers_copy_attr; [unfold remote_value, transfer_remote_get; placed|placed].
Qed.

End Programs.

(** ** The folder the places are in *)

(** A path as a folder of others, with its slash. *)
Definition as_folder (p : list Z) : list Z := if list_eqb (base_name p) [] then p else p ++ [ch_slash].

(** [f] is [root], or lies in it. *)
Definition lies_below (root f : list Z) : Prop := as_folder root `prefix_of` as_folder f.

Lemma strrchr_parts s c i : strrchr s c = Some i ->
  exists pre suf, s = pre ++ c :: suf /\ zlen pre = i /\ Forall (fun b => b <> c) suf.
Proof.
  revert i. induction s as [|b s IH]; intros i; cbn [strrchr]; [done|]. destruct (strrchr s c) as [j|] eqn:Ej.
  - intros [= <-]. destruct (IH j eq_refl) as (pre & suf & -> & <- & Hs). exists (b :: pre), suf. rewrite zlen_cons. split_and!; [done|lia|done].
  - destruct (Z.eqb_spec b c) as [->|Hb]; [|done]. intros [= <-]. exists [], s. split_and!; [done|done|].
    clear IH. induction s as [|x s IH]; [done|]. cbn [strrchr] in Ej. destruct (strrchr s c); [done|].
    destruct (Z.eqb_spec x c); [done|]. constructor; auto.
Qed.

Lemma base_name_last pre suf : Forall (fun b => b <> ch_slash) suf -> base_name (pre ++ ch_slash :: suf) = suf.
Proof.
  intros Hs. unfold base_name. rewrite strrchr_app by done. change (ch_slash :: suf) with ([ch_slash] ++ suf). rewrite app_assoc.
  apply drop_app_zlen. rewrite length_app. unfold zlen. cbn. lia.
Qed.

Lemma folder_part_last pre suf : Forall (fun b => b <> ch_slash) suf -> folder_part (pre ++ ch_slash :: suf) = pre ++ [ch_slash].
Proof.
  intros Hs. unfold folder_part. rewrite strrchr_app by done. change (ch_slash :: suf) with ([ch_slash] ++ suf). rewrite app_assoc.
  apply take_app_zlen. rewrite length_app. unfold zlen. cbn. lia.
Qed.

(** The folder of a path ends with its slash. *)
Lemma folder_part_end p : folder_part p = [] \/ exists pre, folder_part p = pre ++ [ch_slash].
Proof.
  destruct (strrchr p ch_slash) as [i|] eqn:Ei; [|left; unfold folder_part; by rewrite Ei].
  apply strrchr_parts in Ei as (pre & suf & -> & _ & Hs). right. exists pre. by apply folder_part_last.
Qed.

Lemma folder_base p : folder_part p ++ base_name p = p.
Proof.
  destruct (strrchr p ch_slash) as [i|] eqn:Ei; [|unfold folder_part, base_name; by rewrite Ei].
  apply strrchr_parts in Ei as (pre & suf & -> & _ & Hs). rewrite folder_part_last, base_name_last by done. by rewrite <- app_assoc.
Qed.

Lemma prefix_as_folder (p q : list Z) : p `prefix_of` q -> p `prefix_of` as_folder q.
Proof. intros Hp. unfold as_folder. destruct (list_eqb _ _); [done|]. by apply prefix_app_r. Qed.

Lemma folder_prefix p : folder_part p `prefix_of` p.
Proof. exists (base_name p). symmetry. apply folder_base. Qed.

Lemma sidecar_in_folder p sc : sc ∈ sidecar_names p -> folder_part p `prefix_of` sc.
Proof.
  unfold sidecar_names. rewrite !elem_of_cons. intros [->|[->|[->|Hn]]]; [by apply prefix_app_r|apply prefix_app_r, folder_prefix|by apply prefix_app_r|].
  by apply elem_of_nil in Hn.
Qed.

(** Everything of a path's metadata is in the path's folder. *)
Lemma place_in_folder p f : metadata_place p f -> folder_part p `prefix_of` as_folder f.
Proof.
  assert (Hfile : forall f, metadata_file p f -> folder_part p `prefix_of` f).
  { intros g (sc & suffix & Hsc & _ & ->). by apply prefix_app_r, sidecar_in_folder. }
  intros [|g Hg|g i Hg Hi Hb]; [apply prefix_as_folder, folder_prefix|by apply prefix_as_folder, Hfile|].
  apply Hfile in Hg. unfold as_folder. rewrite Hb. apply strrchr_parts in Hi as (pre & suf & -> & <- & Hs). cbv beta iota.
  change (list_eqb (str ".AppleDouble") []) with false. cbv iota. rewrite take_app_zlen by (unfold zlen; lia).
  destruct (folder_part_end p) as [->|[pre0 E0]]; [apply prefix_nil|]. rewrite E0 in *.
  destruct (prefix_weak_total (pre0 ++ [ch_slash]) (pre ++ [ch_slash]) (pre ++ ch_slash :: suf)) as [|[k Ek]];
    [done|by exists suf; rewrite <- app_assoc|done|]. destruct k as [|b k _] using rev_ind; [by rewrite app_nil_r in Ek; exists []; rewrite Ek, app_nil_r|].
  exfalso. rewrite app_assoc in Ek. apply app_inj_tail in Ek as [Ek <-]. destruct Hg as [r Hg].
  rewrite Ek, <- !app_assoc in Hg. apply app_inv_head in Hg. cbn [app] in Hg. injection Hg as ->.
  apply Forall_app in Hs as [_ Hs]. by inversion Hs.
Qed.

(** What a copy of metadata to a local file changes on the disk. *)
Lemma copy_to_local_touches {S} `{Os S} apple volume source path mode (s : S) :
  Forall (metadata_place path) (touched_by (afp_sl_metadata_copy_remote_to_local apple volume source (Some path) mode) s).
Proof. destruct (within_copy_to_local apple path volume source mode (s, [])) as (l & Hl & HP & _). unfold touched_by. by rewrite Hl. Qed.
