(* ===== verification/SidecarProofs.v ===== *)
(** AppleDouble files on a disk: what is set is read back, and Finder
    information and the resource fork do not touch each other. *)
From stdpp Require Import gmap.
From S2P Require Import Prelude AfpProtocol Identify Xattr Local Sidecar.
Open Scope local_scope.

(** ** Bytes of a file *)

Lemma sub_store_same {A} (l : list A) off bs : 0 <= off <= zlen l -> sub off (zlen bs) (store l off bs) = bs.
Proof.
  intros Hl. unfold sub, store, zlen in *. rewrite drop_app_zlen by (rewrite length_take; lia).
  apply take_app_zlen. lia.
Qed.

Lemma sub_store_before {A} (l : list A) off bs o n :
  0 <= o -> 0 <= n -> o + n <= off -> off <= zlen l -> sub o n (store l off bs) = sub o n l.
Proof.
  intros Ho Hn Hb Hl. unfold store. rewrite sub_app_l by (try rewrite zlen_take; lia).
  by apply sub_take_all.
Qed.

Lemma sub_store_after {A} (l : list A) off bs o n :
  0 <= off -> off + zlen bs <= o -> off + zlen bs <= zlen l -> sub o n (store l off bs) = sub o n l.
Proof.
  intros Hoff Ho Hl. unfold store. pose proof (zlen_nonneg bs). rewrite sub_app_r by (rewrite zlen_take; lia).
  rewrite zlen_take, Z2Nat.id, Z.min_l by lia. rewrite sub_app_r by lia. unfold sub, zlen in *. rewrite drop_drop. do 2 f_equal. lia.
Qed.

(** A store inside the bytes is a write at the offset. *)
Lemma write_at_inside data off bs : off <= zlen data -> write_at data off bs = store data off bs.
Proof. intros H. unfold write_at, zero_bytes. replace (Z.to_nat (off - zlen data)) with O by lia. by rewrite app_nil_r. Qed.

Lemma write_at_end data bs : write_at data (zlen data) bs = data ++ bs.
Proof.
  rewrite write_at_inside by lia. unfold store, zlen. rewrite Nat2Z.id, firstn_all, drop_ge by lia. by rewrite app_nil_r.
Qed.

Lemma resize_shorter data n : 0 <= n <= zlen data -> resize data n = take (Z.to_nat n) data.
Proof. intros H. unfold resize, zero_bytes. replace (Z.to_nat (n - zlen data)) with O by lia. apply app_nil_r. Qed.

(** A write behind a prefix is a write of what is behind it. *)
Lemma write_at_behind pre data off bs : 0 <= off -> write_at (pre ++ data) (zlen pre + off) bs = pre ++ write_at data off bs.
Proof.
  intros H. unfold write_at. rewrite zlen_app. replace (zlen pre + off - (zlen pre + zlen data)) with (off - zlen data) by lia.
  rewrite <- app_assoc. set (k := data ++ zero_bytes _). unfold store, zlen.
  replace (Z.to_nat (Z.of_nat (length pre) + off)) with (length pre + Z.to_nat off)%nat by lia.
  rewrite firstn_app_2, <- app_assoc. do 3 f_equal.
  rewrite <- Nat.add_assoc, drop_app_ge by lia. f_equal. lia.
Qed.

Lemma zlen_write_at data off bs : 0 <= off -> zlen (write_at data off bs) = Z.max (zlen data) (off + zlen bs).
Proof.
  intros H. unfold write_at, store, zero_bytes. pose proof (zlen_nonneg data). pose proof (zlen_nonneg bs).
  rewrite !zlen_app, zlen_take, zlen_drop, zlen_app, zlen_replicate. unfold zlen in *. lia.
Qed.

(** ** The table of entries *)

Definition fits (size : Z) (e : ad_entry) : Prop := e_offset e + e_length e <= size.

Fixpoint keep_only (es : list ad_entry) (info : ad_info) : res ad_info :=
  match es with
  | [] => Ok info
  | e :: es => match keep_entry e info with Err x => Err x | Ok info => keep_only es info end
  end.

Definition with_length (n : Z) (e : ad_entry) : ad_entry := Entry (e_id e) (e_offset e) n (e_header_offset e).

(** After the resource fork's entry no other is taken for it. *)
Lemma keep_only_after es f e out :
  e_offset e <> 0 -> keep_only es (Info f e) = Ok out ->
  resource out = e /\ forall n, keep_only es (Info f (with_length n e)) = Ok (Info (finder out) (with_length n e)).
Proof.
  intros He. revert f. induction es as [|x es IH]; intros f; simpl; [intros [= <-]; done|].
  unfold keep_entry. cbn [finder resource e_offset with_length].
  destruct (e_id x =? AD_FINDER_ID); [destruct (negb (e_offset f =? 0)); [done|]|];
    cbn [finder resource e_offset with_length];
    (destruct (e_id x =? AD_RESOURCE_ID); [rewrite (proj2 (Z.eqb_neq _ _) He); done|apply IH]).
Qed.

Lemma keep_only_app es es' info :
  keep_only (es ++ es') info = match keep_only es info with Ok i => keep_only es' i | Err x => Err x end.
Proof. revert info. induction es as [|e es IH]; intros info; simpl; [done|]. by destruct (keep_entry e info). Qed.

(** The length of the resource fork's entry is the only thing that changes
    with it. *)
Lemma keep_only_length pre e post out n :
  e_id e = AD_RESOURCE_ID -> e_offset e <> 0 -> keep_only (pre ++ e :: post) (Info no_entry no_entry) = Ok out ->
  resource out = e
  /\ keep_only (pre ++ with_length n e :: post) (Info no_entry no_entry) = Ok (Info (finder out) (with_length n e)).
Proof.
  intros Hid Hoff. rewrite !keep_only_app. destruct (keep_only pre _) as [i|]; [|done]. simpl.
  unfold keep_entry. cbn [e_id with_length]. rewrite Hid. simpl.
  destruct (negb (e_offset (resource i) =? 0)); [done|]. intros H. by destruct (keep_only_after post (finder i) e out Hoff H).
Qed.

Definition entry_at (data : list Z) (i : nat) : ad_entry :=
  parse_entry (sub (AD_HEADER_SIZE + Z.of_nat i * AD_ENTRY_SIZE) AD_ENTRY_SIZE data) (AD_HEADER_SIZE + Z.of_nat i * AD_ENTRY_SIZE).
Definition entry_table (data : list Z) (n : nat) : list ad_entry := map (entry_at data) (seq 0 n).

Definition ad_count (data : list Z) : Z := be_at data 24 2.
Definition table_end (data : list Z) : Z := AD_HEADER_SIZE + ad_count data * AD_ENTRY_SIZE.

(** A file whose resource fork is last, behind its table and everything
    else. *)
Record ad_wf (data : list Z) (info : ad_info) (k : nat) : Prop := {
  wf_bytes : bytes_ok data;
  wf_magic : be_at data 0 4 = AD_MAGIC /\ be_at data 4 4 = AD_VERSION;
  wf_count : 0 < ad_count data <= 32;
  wf_info : keep_only (entry_table data (Z.to_nat (ad_count data))) (Info no_entry no_entry) = Ok info;
  wf_resource : Z.of_nat k < ad_count data /\ entry_at data k = resource info /\ e_id (resource info) = AD_RESOURCE_ID;
  wf_others : forall j, Z.of_nat j < ad_count data -> j <> k -> fits (e_offset (resource info)) (entry_at data j);
  wf_finder : table_end data <= e_offset (finder info) /\ 32 <= e_length (finder info)
    /\ e_offset (finder info) + 32 <= e_offset (resource info);
  wf_end : zlen data = e_offset (resource info) + e_length (resource info) }.

Lemma sub_sub {A} (l : list A) a n b m : 0 <= a -> 0 <= b -> 0 <= n -> a + n <= m -> sub a n (sub b m l) = sub (b + a) n l.
Proof.
  intros. unfold sub. rewrite skipn_firstn_comm, firstn_firstn, drop_drop. f_equal; [lia|]. f_equal. lia.
Qed.

Lemma entry_at_eq data i :
  let h := AD_HEADER_SIZE + Z.of_nat i * AD_ENTRY_SIZE in
  entry_at data i = Entry (be_at data h 4) (be_at data (h + 4) 4) (be_at data (h + 8) 4) h.
Proof.
  unfold entry_at, parse_entry, be_at, AD_HEADER_SIZE, AD_ENTRY_SIZE. cbv zeta. rewrite !sub_sub by lia. by rewrite Z.add_0_r.
Qed.

Lemma table_split data c k : (k < c)%nat ->
  entry_table data c = map (entry_at data) (seq 0 k) ++ entry_at data k :: map (entry_at data) (seq (Datatypes.S k) (c - k - 1)).
Proof.
  intros H. unfold entry_table. replace (seq 0 c) with (seq 0 k ++ k :: seq (Datatypes.S k) (c - k - 1)); [by rewrite map_app|].
  change (k :: seq (Datatypes.S k) (c - k - 1)) with (seq k (Datatypes.S (c - k - 1))).
  replace c with (k + Datatypes.S (c - k - 1))%nat at 2 by lia. rewrite seq_app. done.
Qed.

(** The file with its resource fork's length [n] and all else of its table as
    it was. *)
Lemma wf_change data data' info k n :
  let h := AD_HEADER_SIZE + Z.of_nat k * AD_ENTRY_SIZE in
  ad_wf data info k -> bytes_ok data' -> 0 <= n < 256 ^ 4 ->
  (forall o len, 0 <= o -> 0 <= len -> o + len <= table_end data -> o + len <= h + 8 \/ h + 12 <= o ->
    sub o len data' = sub o len data) ->
  sub (h + 8) 4 data' = be_put 4 n -> zlen data' = e_offset (resource info) + n ->
  ad_wf data' (Info (finder info) (with_length n (resource info))) k.
Proof.
  intros h [W1 [W2 W3] W4 W5 (W6 & W7 & W8) W9 (W10 & W11 & W12) W13] B' Hn Hsub Hlen Hsize.
  assert (Hh : AD_HEADER_SIZE <= h /\ h + AD_ENTRY_SIZE <= table_end data)
    by (unfold h, table_end, AD_HEADER_SIZE, AD_ENTRY_SIZE; lia).
  unfold AD_HEADER_SIZE, AD_ENTRY_SIZE in Hh.
  assert (Hcount : ad_count data' = ad_count data) by (unfold ad_count, be_at; rewrite Hsub; [done|lia..]).
  assert (Hother : forall j, Z.of_nat j < ad_count data -> j <> k -> entry_at data' j = entry_at data j).
  { intros j Hj Hk. rewrite !entry_at_eq. unfold be_at. unfold table_end, AD_HEADER_SIZE, AD_ENTRY_SIZE, h in *.
    rewrite !Hsub by (unfold AD_HEADER_SIZE, AD_ENTRY_SIZE; lia). done. }
  assert (Hk : entry_at data' k = with_length n (entry_at data k)).
  { rewrite !entry_at_eq. unfold be_at. fold h. rewrite Hlen, be_get_put_small by lia. unfold with_length.
    cbn [e_id e_offset e_header_offset]. rewrite !Hsub by lia. done. }
  assert (Hpos : e_offset (resource info) <> 0) by (unfold table_end, AD_HEADER_SIZE, AD_ENTRY_SIZE in W10; lia).
  constructor; cbn [finder resource e_offset e_length e_id with_length]; rewrite ?Hcount; try done.
  - unfold be_at. rewrite !Hsub by lia. done.
  - rewrite (table_split data' _ k) by lia. rewrite Hk. rewrite (table_split data _ k) in W5 by lia.
    rewrite W7 in *. destruct (keep_only_length _ _ _ info n W8 Hpos W5) as [_ <-].
    f_equal. f_equal; [|f_equal]; apply map_ext_in; intros j Hj%in_seq; apply Hother; lia.
  - split; [done|]. split; [by rewrite Hk, W7|done].
  - intros j Hj Hjk. rewrite Hother by done. by apply W9.
  - unfold table_end. rewrite Hcount. done.
Qed.

Section OnDisk.
Context {R : Type} (remote_answer : forall A, Z -> list Z -> remote A -> R -> A * R).
#[local] Instance on_disk : Os (disk * R) := disk_os remote_answer.

(** ** Files behind a handle *)

Lemma do_pread fd d r p m data pos n off :
  file_at fd d = Some (p, m, data, pos) -> syscall (Pread fd n off) (d, r) = (Ok (sub off n data), (d, r)).
Proof. intros H. unfold syscall, answer, on_disk, disk_os. by rewrite H. Qed.

Lemma do_fstat fd d r p m data pos :
  file_at fd d = Some (p, m, data, pos) -> syscall (Fstat_size fd) (d, r) = (Ok (zlen data), (d, r)).
Proof. intros H. unfold syscall, answer, on_disk, disk_os. by rewrite H. Qed.

Lemma do_pwrite fd d r p m data pos bs off :
  file_at fd d = Some (p, m, data, pos) ->
  pwrite_all fd bs off (d, r) = (Ok tt, (put_data p m (write_at data off bs) d, r)).
Proof.
  intros H. unfold pwrite_all, lbind, syscall, answer, on_disk, disk_os. rewrite H. by rewrite Z.eqb_refl.
Qed.

Lemma do_ftruncate fd d r p m data pos n :
  file_at fd d = Some (p, m, data, pos) -> sysret (Ftruncate fd n) (d, r) = (Ok tt, (put_data p m (resize data n) d, r)).
Proof. intros H. unfold sysret, lbind, syscall, answer, on_disk, disk_os. by rewrite H. Qed.

Lemma do_close {A} fd d r (a : A) : closing fd a (d, r) = (a, (set_handles (delete fd (handles d)) d, r)).
Proof. done. Qed.

Lemma file_at_put fd d p m data data' pos :
  file_at fd d = Some (p, m, data, pos) -> file_at fd (put_data p m data' d) = Some (p, m, data', pos).
Proof.
  unfold file_at, put_data. cbn [handles nodes set_nodes]. destruct (handles d !! fd) as [[q x]|]; [|done].
  destruct (nodes d !! q) as [[]|]; intros [= -> -> -> ->]; by rewrite lookup_insert_eq.
Qed.

Lemma new_handle_file p d fd d1 m data :
  new_handle p d = (fd, d1) -> nodes d !! p = Some (File m data) ->
  file_at fd d1 = Some (p, m, data, 0) /\ nodes d1 = nodes d /\ xattrs d1 = xattrs d.
Proof. intros [= <- <-] H. unfold file_at. simpl. by rewrite lookup_insert_eq, H. Qed.

(** ** The table of a file *)

Lemma read_entries_disk fd d r p m data pos n i info :
  file_at fd d = Some (p, m, data, pos) -> AD_HEADER_SIZE + Z.of_nat (i + n) * AD_ENTRY_SIZE <= zlen data ->
  Forall (fits (zlen data)) (map (entry_at data) (seq i n)) ->
  read_entries fd (zlen data) n (Z.of_nat i) info (d, r) = (keep_only (map (entry_at data) (seq i n)) info, (d, r)).
Proof.
  intros Hf. revert i info. induction n as [|n IH]; intros i info Hl Hfit; [done|].
  cbn [read_entries seq map keep_only]. unfold lbind at 1. rewrite (do_pread _ _ _ _ _ _ _ _ _ Hf).
  rewrite zlen_sub by (unfold AD_HEADER_SIZE, AD_ENTRY_SIZE in *; lia). rewrite Z.eqb_refl. simpl negb. cbv iota.
  fold (entry_at data i). cbn [seq map] in Hfit. apply Forall_cons in Hfit as [Hi Hfit]. unfold fits in Hi.
  replace (_ >? zlen data) with false by lia. destruct (keep_entry (entry_at data i) info) as [info'|e]; [|done].
  replace (Z.of_nat i + 1) with (Z.of_nat (Datatypes.S i)) by lia. apply IH; [|done].
  replace (Datatypes.S i + n)%nat with (i + Datatypes.S n)%nat by lia. done.
Qed.

Lemma entry_ranges data i : bytes_ok data -> 0 <= e_offset (entry_at data i) < 256 ^ 4 /\ 0 <= e_length (entry_at data i) < 256 ^ 4.
Proof. intros H. rewrite entry_at_eq. cbn [e_offset e_length]. split; by apply be_at_range. Qed.

Lemma wf_fits data info k : ad_wf data info k ->
  Forall (fits (zlen data)) (entry_table data (Z.to_nat (ad_count data))).
Proof.
  intros [W1 _ W4 _ (W6 & W7 & _) W9 _ W13]. apply Forall_forall. intros e He.
  apply list_elem_of_In, in_map_iff in He as (j & <- & Hj%in_seq). unfold fits.
  destruct (entry_ranges data k W1) as [_ Hk]. rewrite W7 in Hk.
  destruct (decide (j = k)) as [->|Hjk]; [rewrite W7; lia|].
  specialize (W9 j ltac:(lia) Hjk). unfold fits in W9. lia.
Qed.

Lemma read_info_wf fd d r p m data pos info k :
  file_at fd d = Some (p, m, data, pos) -> ad_wf data info k -> read_ad_info fd (d, r) = (Ok info, (d, r)).
Proof.
  intros Hf W. pose proof (wf_fits _ _ _ W) as Hfit. pose proof W as [W1 [W2 W3] W4 W5 (W6 & W7 & W8) W9 (W10 & W11 & W12) W13].
  destruct (entry_ranges data k W1) as [_ Hk]. rewrite W7 in Hk.
  assert (Hlen : table_end data <= zlen data) by lia. unfold table_end, AD_HEADER_SIZE, AD_ENTRY_SIZE in Hlen.
  unfold read_ad_info. unfold lbind at 1. rewrite (do_pread _ _ _ _ _ _ _ _ _ Hf).
  rewrite zlen_sub by (unfold AD_HEADER_SIZE; lia). rewrite Z.eqb_refl. simpl negb. cbv iota.
  assert (Hin : forall o n, 0 <= o -> 0 <= n -> o + n <= AD_HEADER_SIZE -> be_at (sub 0 AD_HEADER_SIZE data) o n = be_at data o n)
    by (intros o n Ho Hn1 Hn2; unfold be_at; by rewrite sub_sub by (unfold AD_HEADER_SIZE in *; lia)).
  rewrite !Hin by (unfold AD_HEADER_SIZE; lia). rewrite W2, W3, !Z.eqb_refl. cbn [negb]. fold (ad_count data).
  replace (_ || _)%bool with false by lia. unfold lbind. rewrite (do_fstat _ _ _ _ _ _ _ Hf).
  rewrite (read_entries_disk fd d r p m data pos (Z.to_nat (ad_count data)) 0); [|done| |done].
  - unfold entry_table in W5. by rewrite W5.
  - simpl Nat.add. unfold AD_HEADER_SIZE, AD_ENTRY_SIZE. rewrite Z2Nat.id by lia. lia.
Qed.

(** ** Where the file is *)

Definition sidecar_name (d : disk) (path : list Z) (netatalk : bool) : list Z :=
  let dirlen := match strrchr path ch_slash with Some slash => slash + 1 | None => 0 end in
  let dir := take (Z.to_nat dirlen) path in
  let base := drop (Z.to_nat dirlen) path in
  if negb netatalk then dir ++ str "._" ++ base
  else if match nodes d !! path with Some (Folder _) => true | _ => false end then path ++ str "/.AppleDouble/.Parent"
  else dir ++ str ".AppleDouble/" ++ base.

(** A path with room beside it: the folders are there that the code does not
    make. *)
Record room (d : disk) (sp : list Z) : Prop := {
  room_name : zlen (base_name sp) <= NAME_MAX;
  room_node : forall m, nodes d !! sp <> Some (Folder m);
  room_holder : (exists m, nodes d !! holder sp = Some (Folder m))
    \/ nodes d !! holder sp = None /\ base_name (holder sp) = str ".AppleDouble";
  room_above : base_name (holder sp) = str ".AppleDouble" -> exists m, nodes d !! holder (holder sp) = Some (Folder m) }.

(** A file whose modes keep their type in the bits above its permissions. *)
Definition plain_mode (n : node) : Prop := match n with Folder m | File m _ => Z.land m 0xF000 = 0 end.

Record place (d : disk) (path : list Z) (netatalk : bool) : Prop := {
  place_file : exists n, nodes d !! path = Some n /\ plain_mode n;
  place_fits : zlen (sidecar_name d path netatalk) < PATH_MAX;
  place_room : room d (sidecar_name d path netatalk) }.

Lemma is_folder_mode n : plain_mode n -> is_folder (Ok (node_mode n)) = match n with Folder _ => true | _ => false end.
Proof.
  intros Hn. unfold is_folder, node_mode. destruct n as [m|m data]; simpl in Hn;
    rewrite Z.land_lor_distr_l, Hn; done.
Qed.

Lemma sidecar_path_disk d r path netatalk :
  place d path netatalk -> sidecar_path path netatalk (d, r) = (Ok (sidecar_name d path netatalk), (d, r)).
Proof.
  intros [[n [Hn Hm]] Hl _]. unfold sidecar_path. unfold lbind. unfold syscall, answer, on_disk, disk_os. rewrite Hn.
  cbv beta iota. rewrite is_folder_mode by done. unfold sidecar_name in *. rewrite Hn in *.
  unfold printed. replace (_ >=? PATH_MAX) with false by (destruct n; simpl in *; lia). by destruct n.
Qed.

(** The disk with the folder of a file made, if it was not there. *)
Definition made (d d' : disk) (sp : list Z) : Prop :=
  (nodes d' = nodes d \/ nodes d !! holder sp = None /\ exists m, nodes d' = <[holder sp := Folder m]> (nodes d))
  /\ (exists m, nodes d' !! holder sp = Some (Folder m)) /\ xattrs d' = xattrs d.

Lemma made_same d sp m : nodes d !! holder sp = Some (Folder m) -> made d d sp.
Proof. intros H. split; [by left|]. split; [by exists m|done]. Qed.

Lemma ensure_parent sp i j :
  strrchr sp ch_slash = Some i -> 0 < i -> j = take (Z.to_nat i) sp -> j = holder sp.
Proof. intros H Hi ->. unfold holder. rewrite H. by replace (i =? 0) with false by lia. Qed.

Lemma ensure_disk d r sp : room d sp -> exists d', ensure_sidecar_dir sp (d, r) = (Ok tt, (d', r)) /\ made d d' sp.
Proof.
  intros [_ _ Hh Ha]. unfold ensure_sidecar_dir.
  assert (Hstay : base_name (holder sp) <> str ".AppleDouble" -> made d d sp).
  { intros Hne. destruct Hh as [[m Hm]|[_ E]]; [by apply (made_same d sp m)|done]. }
  destruct (strrchr sp ch_slash) as [i|] eqn:Ei.
  2: { exists d. split; [done|]. apply Hstay. unfold holder. rewrite Ei. done. }
  destruct (Z.eq_dec i 0) as [->|Hi].
  { exists d. split; [done|]. apply Hstay. unfold holder. rewrite Ei. done. }
  assert (Hi' : 0 < i) by (pose proof (strrchr_nonneg _ _ _ Ei); lia).
  replace (take (Z.to_nat i) sp) with (holder sp) by (symmetry; by eapply ensure_parent). cbv zeta.
  fold (base_name (holder sp)). destruct (list_eqb (base_name (holder sp)) (str ".AppleDouble")) eqn:Eb.
  2: { exists d. split; [done|]. apply Hstay. intros E. by rewrite E, list_eqb_refl in Eb. }
  cbn [negb]. apply list_eqb_eq in Eb. destruct (Ha Eb) as [m Hm]. fold (holder (holder sp)).
  unfold ltry, sysret, lbind, syscall, answer, on_disk, disk_os. rewrite Hm. unfold lret. cbv beta iota.
  destruct Hh as [[m' Hm']|[Hnone _]].
  - rewrite Hm'. exists d. split; [done|]. by apply (made_same d sp m').
  - rewrite Hnone. unfold may_create. rewrite Eb. change (zlen (str ".AppleDouble") >? NAME_MAX) with false.
    rewrite Hm. eexists. split; [reflexivity|]. split; [right; split; [done|]; by eexists|].
    split; [|done]. simpl. rewrite lookup_insert_eq. by eexists.
Qed.

(** ** What a change of the file leaves *)

Lemma zlen_sidecar d path netatalk : zlen path + 2 <= zlen (sidecar_name d path netatalk).
Proof.
  unfold sidecar_name. cbv zeta. set (n := Z.to_nat _).
  assert (H : zlen (take n path) + zlen (drop n path) = zlen path) by (rewrite <- zlen_app; by rewrite take_drop).
  destruct netatalk; cbn [negb]; [case_if|]; rewrite ?zlen_app.
  - change (zlen (str "/.AppleDouble/.Parent")) with 21. lia.
  - change (zlen (str ".AppleDouble/")) with 13. lia.
  - change (zlen (str "._")) with 2. lia.
Qed.

Lemma strrchr_lt s c i : strrchr s c = Some i -> i < zlen s.
Proof. intros Hi. apply strrchr_range in Hi. lia. Qed.

Lemma holder_neq sp : 2 <= zlen sp -> holder sp <> sp.
Proof.
  intros H E. assert (Hl : zlen (holder sp) < zlen sp); [|rewrite E in Hl; lia]. unfold holder.
  destruct (strrchr sp ch_slash) as [i|] eqn:Ei; [|change (zlen (str ".")) with 1; lia].
  pose proof (strrchr_lt _ _ _ Ei). case_if; [change (zlen (str "/")) with 1; lia|]. rewrite zlen_take. lia.
Qed.

(** [sp] is the file [data] now, and nothing else changed but that its folder
    may have been made. *)
Record changed (d d' : disk) (sp data : list Z) : Prop := {
  ch_file : exists m, nodes d' !! sp = Some (File m data);
  ch_kept : forall q n, q <> sp -> nodes d !! q = Some n -> nodes d' !! q = Some n;
  ch_new : forall q n, q <> sp -> nodes d' !! q = Some n -> nodes d !! q = Some n \/ q = holder sp;
  ch_holder : exists m, nodes d' !! holder sp = Some (Folder m);
  ch_xattrs : xattrs d' = xattrs d }.

(** A disk with the nodes of another. *)
Lemma changed_nodes d d1 d2 sp data :
  changed d d1 sp data -> nodes d2 = nodes d1 -> xattrs d2 = xattrs d1 -> changed d d2 sp data.
Proof. intros [H1 H2 H3 H4 H5] E1 E2. constructor; rewrite ?E1, ?E2; done. Qed.

Lemma changed_put d d1 sp data data' m :
  changed d d1 sp data -> holder sp <> sp -> changed d (put_data sp m data' d1) sp data'.
Proof.
  intros [H1 H2 H3 H4 H5] Hne. constructor; cbn [put_data set_nodes nodes xattrs]; try done.
  - exists m. by rewrite lookup_insert_eq.
  - intros q n Hq Hn. rewrite lookup_insert_ne by done. by apply H2.
  - intros q n Hq. rewrite lookup_insert_ne by done. by apply H3.
  - rewrite lookup_insert_ne by done. done.
Qed.

Lemma made_changed d d1 sp m data :
  made d d1 sp -> holder sp <> sp -> changed d (set_nodes (<[sp := File m data]> (nodes d1)) d1) sp data.
Proof.
  intros (H1 & H2 & H3) Hne. constructor; cbn [set_nodes nodes xattrs]; try done.
  - exists m. by rewrite lookup_insert_eq.
  - intros q n Hq Hn. rewrite lookup_insert_ne by done. destruct H1 as [->|(H1 & m' & ->)]; [done|].
    rewrite lookup_insert_ne; [done|]. intros <-. by rewrite H1 in Hn.
  - intros q n Hq. rewrite lookup_insert_ne by done. destruct H1 as [->|(H1 & m' & ->)]; [by left|].
    destruct (decide (q = holder sp)) as [->|Hq']; [by right|]. rewrite lookup_insert_ne by done. by left.
  - rewrite lookup_insert_ne by done. done.
Qed.

Lemma made_file d d1 sp m data :
  made d d1 sp -> nodes d !! sp = Some (File m data) -> nodes d1 !! sp = Some (File m data).
Proof.
  intros ([->|(H1 & m' & ->)] & _) H; [done|]. rewrite lookup_insert_ne; [done|]. intros E. by rewrite E, H in H1.
Qed.

Lemma place_changed d d' path netatalk data :
  place d path netatalk -> changed d d' (sidecar_name d path netatalk) data ->
  sidecar_name d' path netatalk = sidecar_name d path netatalk /\ place d' path netatalk.
Proof.
  intros [(n & Hn & Hm) Hf [R1 R2 R3 R4]] C. pose proof (zlen_sidecar d path netatalk) as Hz.
  assert (Hp : nodes d' !! path = Some n) by (eapply ch_kept; [done| |done]; intros E; rewrite <- E in Hz; lia).
  assert (E : sidecar_name d' path netatalk = sidecar_name d path netatalk) by (unfold sidecar_name; by rewrite Hn, Hp).
  split; [done|]. destruct C as [[mf C1] C2 C3 C4 C5]. constructor; [by exists n|by rewrite E|]. rewrite E. constructor.
  - done.
  - intros m. by rewrite C1.
  - by left.
  - intros Ha. destruct (R4 Ha) as [m Hh]. exists m. apply C2; [|done]. intros E'. rewrite E' in Hh. by apply R2 in Hh.
Qed.

(** ** New files *)

Definition new_info (netatalk : bool) : ad_info :=
  if netatalk then Info (Entry 9 653 32 74) (Entry 2 741 0 26) else Info (Entry 9 50 32 26) (Entry 2 82 0 38).
Definition new_index (netatalk : bool) : nat := if netatalk then 0 else 1.

Lemma new_wf netatalk : ad_wf (ad_header netatalk) (new_info netatalk) (new_index netatalk).
Proof.
  constructor.
  - apply (bool_decide_unpack _). destruct netatalk; vm_compute; exact I.
  - destruct netatalk; vm_compute; done.
  - destruct netatalk; vm_compute; done.
  - destruct netatalk; vm_compute; done.
  - destruct netatalk; vm_compute; done.
  - intros j Hj Hk. unfold fits. destruct netatalk; change (ad_count _) with 13 in Hj || change (ad_count _) with 2 in Hj.
    + do 13 (destruct j as [|j]; [first [done|vm_compute; done]|]). lia.
    + do 2 (destruct j as [|j]; [first [done|vm_compute; done]|]). lia.
  - destruct netatalk; vm_compute; done.
  - destruct netatalk; vm_compute; done.
Qed.

Lemma initialize_disk fd d r p m pos netatalk :
  file_at fd d = Some (p, m, [], pos) ->
  exists d', initialize_ad fd netatalk (d, r) = (Ok tt, (d', r)) /\ file_at fd d' = Some (p, m, ad_header netatalk, pos)
    /\ nodes d' = <[p := File m (ad_header netatalk)]> (nodes d) /\ xattrs d' = xattrs d.
Proof.
  intros Hf. unfold initialize_ad. unfold ltry at 1, lbind at 1. change (alloc _ (d, r)) with (@Ok unit tt, (d, r)). cbv iota.
  unfold ltry, lbind. rewrite (do_ftruncate _ _ _ _ _ _ _ _ Hf). eapply file_at_put in Hf.
  rewrite (do_pwrite _ _ _ _ _ _ _ _ _ Hf). replace (write_at _ 0 _) with (ad_header netatalk) by (destruct netatalk; vm_compute; done).
  eexists. split; [reflexivity|]. split; [by eapply file_at_put|]. split; [|done].
  cbn [put_data set_nodes nodes]. apply insert_insert_eq.
Qed.

(** ** Opening *)

(** The file's contents, those of a new file if there is none. *)
Definition contents (d : disk) (sp : list Z) (netatalk : bool) (data : list Z) (info : ad_info) (k : nat) : Prop :=
  ad_wf data info k
  /\ match nodes d !! sp with
     | Some (File _ x) => data = x
     | None => data = ad_header netatalk
     | Some (Folder _) => False
     end.

Lemma read_info_empty fd d r p m pos :
  file_at fd d = Some (p, m, [], pos) -> read_ad_info fd (d, r) = (Err (- EIO), (d, r)).
Proof. intros Hf. unfold read_ad_info, lbind. by rewrite (do_pread _ _ _ _ _ _ _ _ _ Hf). Qed.

Lemma open_write d r path netatalk data info k :
  place d path netatalk -> contents d (sidecar_name d path netatalk) netatalk data info k ->
  exists d1 m fd, open_ad path netatalk true (d, r) = (Ok (fd, info), (d1, r))
    /\ file_at fd d1 = Some (sidecar_name d path netatalk, m, data, 0) /\ changed d d1 (sidecar_name d path netatalk) data.
Proof.
  intros P [W C]. pose proof P as [(n & Hn & Hm) Hfit Hroom]. pose proof (zlen_sidecar d path netatalk) as Hz.
  set (sp := sidecar_name d path netatalk) in *. pose proof (holder_neq sp ltac:(pose proof (zlen_nonneg path); lia)) as Hne.
  destruct (ensure_disk d r sp Hroom) as (d0 & He & Hmade).
  assert (Hst : nodes d0 !! path = Some n).
  { destruct Hmade as ([->|(H1 & m' & ->)] & _); [done|]. rewrite lookup_insert_ne; [done|]. intros E. by rewrite E, Hn in H1. }
  unfold open_ad. unfold ltry at 1, lbind at 1. rewrite sidecar_path_disk by done. fold sp. cbv iota.
  unfold ltry at 1, lbind at 1. unfold ltry at 1, lbind at 1. rewrite He. cbv iota.
  unfold sidecar_file_mode, ltry at 1, lbind at 1. unfold sysret at 1, lbind at 1.
  unfold syscall at 1, answer at 1, on_disk at 1, disk_os at 1. rewrite Hst. unfold lret at 1. cbv iota.
  unfold yields at 1, lret at 1. cbv iota. unfold lbind at 1. unfold syscall at 1, answer at 1, on_disk at 1, disk_os at 1.
  unfold disk_open. destruct (nodes d !! sp) as [[mf|mf x]|] eqn:Esp; [done| |]; simpl in C; subst data.
  - pose proof (made_file d d0 sp mf x Hmade Esp) as H0. rewrite H0. destruct (new_handle sp d0) as [fd d1] eqn:Eh.
    destruct (new_handle_file _ _ _ _ _ _ Eh H0) as (Hf & E1 & E2). cbv beta iota. unfold lbind. unfold ad_info_or_new, lbind.
    rewrite (read_info_wf _ _ r _ _ _ _ info k Hf W). eexists _, mf, _. split; [reflexivity|]. split; [done|].
    eapply changed_nodes; [apply (made_changed d d0 sp mf x Hmade Hne)| |done].
    cbn [set_nodes nodes]. by rewrite insert_id.
  - replace (nodes d0 !! sp) with (@None node).
    2: { destruct Hmade as ([->|(_ & m' & ->)] & _); [done|]. by rewrite lookup_insert_ne. }
    unfold may_create. destruct Hroom as [R1 _ _ _]. replace (_ >? NAME_MAX) with false by lia.
    pose proof Hmade as (_ & (mh & Hmh) & _). rewrite Hmh. cbv iota.
    destruct (new_handle sp _) as [fd d1] eqn:Eh.
    eapply new_handle_file in Eh as (Hf & E1 & E2); [|cbn [set_nodes nodes]; by rewrite lookup_insert_eq].
    cbv beta iota. unfold lbind. unfold ad_info_or_new, lbind. rewrite (read_info_empty _ _ r _ _ _ Hf). cbv iota.
    unfold ltry, lbind. destruct (initialize_disk fd d1 r sp _ 0 netatalk Hf) as (d2 & -> & Hf2 & E3 & E4). cbv iota.
    rewrite (read_info_wf _ _ r _ _ _ _ info k Hf2 W). eexists _, _, _. split; [reflexivity|]. split; [done|].
    eapply changed_nodes; [apply (made_changed d d0 sp (Z.land (node_mode n) 0x1b6) (ad_header netatalk) Hmade Hne)| |by rewrite E4, E2].
    rewrite E3, E1. cbn [set_nodes nodes]. apply insert_insert_eq.
Qed.

Lemma open_read d r path netatalk m data info k :
  place d path netatalk -> nodes d !! sidecar_name d path netatalk = Some (File m data) -> ad_wf data info k ->
  exists d1 fd, open_ad path netatalk false (d, r) = (Ok (fd, info), (d1, r))
    /\ file_at fd d1 = Some (sidecar_name d path netatalk, m, data, 0) /\ nodes d1 = nodes d /\ xattrs d1 = xattrs d.
Proof.
  intros P Hf W. unfold open_ad. unfold ltry at 1, lbind at 1. rewrite sidecar_path_disk by done. cbv iota.
  unfold ltry at 1, lbind at 1. unfold yields at 1, lret at 1. cbv iota. unfold lbind at 1.
  unfold syscall at 1, answer at 1, on_disk at 1, disk_os at 1, disk_open. rewrite Hf.
  destruct (new_handle _ d) as [fd d1] eqn:Eh. destruct (new_handle_file _ _ _ _ _ _ Eh Hf) as (Hf1 & E1 & E2).
  cbv beta iota. unfold lbind, ad_info_or_new, lbind. rewrite (read_info_wf _ _ r _ _ _ _ info k Hf1 W).
  by exists d1, fd.
Qed.

Lemma open_none d r path netatalk :
  place d path netatalk -> nodes d !! sidecar_name d path netatalk = None ->
  open_ad path netatalk false (d, r) = (Err (- ENOATTR), (d, r)).
Proof.
  intros P Hf. pose proof P as [(n & Hn & Hm) _ [R1 _ _ _]]. unfold open_ad. unfold ltry at 1, lbind at 1.
  rewrite sidecar_path_disk by done. cbv iota. unfold ltry at 1, lbind at 1. unfold yields at 1, lret at 1. cbv iota.
  unfold lbind at 1. unfold syscall at 1, answer at 1, on_disk at 1, disk_os at 1, disk_open. rewrite Hf.
  replace (_ >? NAME_MAX) with false by lia. cbv beta iota. unfold sidecar_open_error. change (negb (ENOENT =? ENOENT)) with false.
  cbv iota. unfold lbind, syscall, answer, on_disk, disk_os. by rewrite Hn.
Qed.

(** ** Finder information and resource fork of a path *)

Definition finder_of (data : list Z) (info : ad_info) : list Z := sub (e_offset (finder info)) 32 data.
Definition fork_of (data : list Z) (info : ad_info) : list Z := sub (e_offset (resource info)) (e_length (resource info)) data.

Definition ad_holds (d : disk) (path : list Z) (netatalk : bool) (f rs : list Z) : Prop :=
  exists data info k, contents d (sidecar_name d path netatalk) netatalk data info k
    /\ f = finder_of data info /\ rs = fork_of data info.

(** The offsets of a file, in order. *)
Lemma wf_offsets data info k : ad_wf data info k ->
  let h := AD_HEADER_SIZE + Z.of_nat k * AD_ENTRY_SIZE in
  0 <= h /\ h + 12 <= table_end data /\ table_end data <= e_offset (finder info) /\ 0 < e_offset (finder info)
  /\ e_offset (finder info) + 32 <= e_offset (resource info) /\ 0 <= e_length (resource info) < 256 ^ 4
  /\ e_offset (resource info) < 256 ^ 4 /\ e_header_offset (resource info) = h
  /\ sub (h + 8) 4 data = be_put 4 (e_length (resource info)) /\ zlen data = e_offset (resource info) + e_length (resource info).
Proof.
  intros [W1 _ W4 _ (W6 & W7 & _) _ (W10 & W11 & W12) W13] h. destruct (entry_ranges data k W1) as [H1 H2].
  pose proof (entry_at_eq data k) as E. cbv zeta in E. fold h in E. rewrite W7 in *.
  assert (T : h + 12 <= table_end data) by (unfold h, table_end, AD_HEADER_SIZE, AD_ENTRY_SIZE; lia).
  assert (0 <= h) by (unfold h, AD_HEADER_SIZE, AD_ENTRY_SIZE; lia).
  assert (Hs : sub (h + 8) 4 data = be_put 4 (e_length (resource info))).
  { rewrite E. cbn [e_length]. unfold be_at. rewrite <- (be_put_get (sub (h + 8) 4 data)) at 1 by (by apply bytes_ok_sub).
    f_equal. pose proof (zlen_sub (h + 8) 4 data ltac:(lia) ltac:(lia) ltac:(lia)). unfold zlen in *. lia. }
  repeat split; try done; try lia. by rewrite E.
Qed.

Lemma same_info info : Info (finder info) (with_length (e_length (resource info)) (resource info)) = info.
Proof. by destruct info as [f []]. Qed.

(** The file after Finder information is stored. *)
Lemma finder_stored data info k v :
  ad_wf data info k -> bytes_ok v -> zlen v = 32 ->
  let data' := store data (e_offset (finder info)) v in
  ad_wf data' info k /\ finder_of data' info = v /\ fork_of data' info = fork_of data info.
Proof.
  intros W Hv Hl data'. pose proof (wf_offsets _ _ _ W) as (O1 & O2 & O3 & O4 & O5 & O6 & O7 & O8 & O9 & O10).
  pose proof W as [W1 _ _ _ _ _ _ _]. set (h := AD_HEADER_SIZE + Z.of_nat k * AD_ENTRY_SIZE) in *.
  assert (Hbefore : forall o n, 0 <= o -> 0 <= n -> o + n <= table_end data -> sub o n data' = sub o n data)
    by (intros; apply sub_store_before; lia).
  split; [|split].
  - rewrite <- (same_info info). apply (wf_change data); try done.
    + by apply store_bytes_ok.
    + intros. by apply Hbefore.
    + fold h. rewrite Hbefore by lia. done.
    + unfold data'. rewrite zlen_store by lia. done.
  - unfold finder_of, data'. rewrite <- Hl. apply sub_store_same. lia.
  - unfold fork_of, data'. apply sub_store_after; lia.
Qed.

(** The file after its resource fork is replaced. *)
Lemma fork_stored data info k body :
  ad_wf data info k -> bytes_ok body -> zlen body < 256 ^ 4 ->
  let data' := store (take (Z.to_nat (e_offset (resource info))) data ++ body) (e_header_offset (resource info) + 8)
                 (be_put 4 (zlen body)) in
  let info' := Info (finder info) (with_length (zlen body) (resource info)) in
  ad_wf data' info' k /\ finder_of data' info' = finder_of data info /\ fork_of data' info' = body.
Proof.
  intros W Hb Hl data' info'. pose proof (wf_offsets _ _ _ W) as (O1 & O2 & O3 & O4 & O5 & O6 & O7 & O8 & O9 & O10).
  pose proof W as [W1 _ _ _ _ _ _ _]. set (h := AD_HEADER_SIZE + Z.of_nat k * AD_ENTRY_SIZE) in *.
  subst data'. rewrite O8. set (data' := store _ _ _).
  set (pre := take _ data) in *. assert (Hpre : zlen pre = e_offset (resource info)) by (unfold pre; rewrite zlen_take; lia).
  pose proof (zlen_nonneg body) as Hbn.
  assert (Hout : forall o n, 0 <= o -> 0 <= n -> o + n <= e_offset (resource info) -> o + n <= h + 8 \/ h + 12 <= o ->
    sub o n data' = sub o n data).
  { intros o n Ho Hn1 Hn2 Hn3. transitivity (sub o n (pre ++ body)).
    - unfold data'. destruct Hn3; [apply sub_store_before; try rewrite zlen_app; lia|].
      apply sub_store_after; rewrite ?zlen_app, ?zlen_be_put; lia.
    - rewrite sub_app_l by lia. apply sub_take_all; lia. }
  split; [|split].
  - apply (wf_change data); try done.
    + apply store_bytes_ok; [|apply be_put_ok]. apply bytes_ok_app. split; [by apply bytes_ok_take|done].
    + intros. apply Hout; lia.
    + fold h. unfold data'. replace 4 with (zlen (be_put 4 (zlen body))) by (by rewrite zlen_be_put).
      apply sub_store_same. rewrite zlen_app. lia.
    + unfold data'. rewrite zlen_store by (rewrite ?zlen_app, ?zlen_be_put; lia). rewrite zlen_app. lia.
  - unfold finder_of. cbn [info' finder]. apply Hout; lia.
  - unfold fork_of. cbn [info' resource with_length e_offset e_length]. unfold data'.
    rewrite sub_store_after by (rewrite ?zlen_app, ?zlen_be_put; lia). rewrite sub_app_r by lia.
    rewrite Hpre, Z.sub_diag. by apply sub_all.
Qed.

Lemma contents_new d sp netatalk data info k :
  contents d sp netatalk data info k -> nodes d !! sp = None -> data = ad_header netatalk /\ info = new_info netatalk.
Proof.
  intros [W C] Hn. rewrite Hn in C. subst data. split; [done|].
  destruct W as [_ _ _ W5 _ _ _ _]. destruct (new_wf netatalk) as [_ _ _ W5' _ _ _ _]. congruence.
Qed.

(** A reading use of the file: the answer, and the disk's files stay. *)
Lemma ad_reads {A} d r path netatalk f rs (k : Z * ad_info -> L (disk * R) (res A)) (Q : res A -> Prop) :
  place d path netatalk -> ad_holds d path netatalk f rs ->
  (f = zero_bytes 32 -> rs = [] -> Q (Err (- ENOATTR))) ->
  (forall d1 fd p m data info i, file_at fd d1 = Some (p, m, data, 0) -> ad_wf data info i ->
    f = finder_of data info -> rs = fork_of data info ->
    exists a, k (fd, info) (d1, r) = (a, (set_handles (delete fd (handles d1)) d1, r)) /\ Q a) ->
  exists a d', ltry (open_ad path netatalk false) k (d, r) = (a, (d', r)) /\ nodes d' = nodes d /\ Q a.
Proof.
  intros P (data & info & i & C & Ef & Er) Hnone Hk. unfold ltry, lbind.
  destruct (nodes d !! sidecar_name d path netatalk) as [[m|m x]|] eqn:E.
  - destruct C as [_ C]. by rewrite E in C.
  - destruct C as [W C]. rewrite E in C. subst x.
    destruct (open_read d r path netatalk m data info i P E W) as (d1 & fd & -> & Hf & E1 & _).
    destruct (Hk d1 fd _ m data info i Hf W Ef Er) as (a & -> & HQ). by exists a, (set_handles (delete fd (handles d1)) d1).
  - rewrite open_none by done. destruct (contents_new _ _ _ _ _ _ C E) as [-> ->]. eexists _, d. split; [reflexivity|].
    split; [done|]. apply Hnone; subst; by destruct netatalk; vm_compute.
Qed.

Lemma finder_get_disk d r path netatalk f rs :
  place d path netatalk -> ad_holds d path netatalk f rs ->
  exists a d', ad_finder_get path netatalk (d, r) = (a, (d', r)) /\ nodes d' = nodes d
    /\ a = if list_eqb f (zero_bytes 32) then Err (- ENOATTR) else Ok f.
Proof.
  intros P Hh. apply (ad_reads d r path netatalk f rs); [done|done|by intros -> ->|].
  intros d1 fd p m data info i Hf W Ef Er. pose proof (wf_offsets _ _ _ W) as (O1 & O2 & O3 & O4 & O5 & O6 & O7 & O8 & O9 & O10).
  pose proof W as [_ _ _ _ _ _ (_ & W11 & _) _]. replace (_ || _)%bool with false by lia.
  unfold lbind at 1. unfold lbind at 1. rewrite (do_pread _ _ _ _ _ _ _ _ _ Hf). fold (finder_of data info). rewrite <- Ef.
  replace (zlen f) with 32 by (rewrite Ef; unfold finder_of; rewrite zlen_sub; lia). simpl negb. cbv iota.
  eexists. split; [rewrite <- do_close|reflexivity]. by destruct (list_eqb f (zero_bytes 32)).
Qed.

Lemma fork_size_disk d r path netatalk f rs :
  place d path netatalk -> ad_holds d path netatalk f rs ->
  exists a d', ad_resource_size path netatalk (d, r) = (a, (d', r)) /\ nodes d' = nodes d
    /\ a = if zlen rs =? 0 then Err (- ENOATTR) else Ok (zlen rs).
Proof.
  intros P Hh. apply (ad_reads d r path netatalk f rs); [done|done|by intros -> ->|].
  intros d1 fd p m data info i Hf W Ef Er. pose proof (wf_offsets _ _ _ W) as (O1 & O2 & O3 & O4 & O5 & O6 & O7 & O8 & O9 & O10).
  replace (zlen rs) with (e_length (resource info)) by (rewrite Er; unfold fork_of; rewrite zlen_sub; lia).
  eexists. split; [apply do_close|]. by destruct (e_length (resource info) =? 0).
Qed.

Lemma fork_read_disk d r path netatalk f rs size offset :
  place d path netatalk -> ad_holds d path netatalk f rs -> rs <> [] -> 0 <= size -> 0 <= offset ->
  exists a d', ad_resource_read path netatalk size offset (d, r) = (a, (d', r)) /\ nodes d' = nodes d
    /\ a = Ok (sub offset size rs).
Proof.
  intros P Hh Hne Hs Ho. apply (ad_reads d r path netatalk f rs); [done|done|done|].
  intros d1 fd p m data info i Hf W Ef Er. pose proof (wf_offsets _ _ _ W) as (O1 & O2 & O3 & O4 & O5 & O6 & O7 & O8 & O9 & O10).
  assert (El : zlen rs = e_length (resource info)) by (rewrite Er; unfold fork_of; rewrite zlen_sub; lia).
  destruct (offset >=? e_length (resource info)) eqn:E; bool_to_prop.
  - replace (_ || _)%bool with true by lia. eexists. split; [apply do_close|]. f_equal. unfold sub.
    rewrite drop_ge by (unfold zlen in El; lia). by rewrite take_nil.
  - replace (_ || _)%bool with false by lia. unfold lbind at 1. unfold sysret, lbind at 1.
    rewrite (do_pread _ _ _ _ _ _ _ _ _ Hf). eexists. split; [apply do_close|]. cbv beta iota. f_equal.
    rewrite Er. unfold fork_of. destruct (size >? e_length (resource info) - offset) eqn:Es; bool_to_prop.
    + unfold sub at 2 3. unfold sub. rewrite skipn_firstn_comm, firstn_firstn, drop_drop. f_equal; [lia|]. f_equal. lia.
    + by rewrite sub_sub by lia.
Qed.

(** A changed file at its place. *)
Lemma holds_changed d d' path netatalk data info k f rs :
  place d path netatalk -> changed d d' (sidecar_name d path netatalk) data -> ad_wf data info k ->
  f = finder_of data info -> rs = fork_of data info ->
  place d' path netatalk /\ ad_holds d' path netatalk f rs /\ sidecar_name d' path netatalk = sidecar_name d path netatalk.
Proof.
  intros P C W -> ->. destruct (place_changed _ _ _ _ _ P C) as [E P']. split; [done|]. split; [|done].
  exists data, info, k. split; [|done]. split; [done|]. rewrite E. destruct (ch_file _ _ _ _ C) as [m ->]. done.
Qed.

(** What a writing use leaves: the answer is 0, the path's metadata are [f] and
    [rs], other files are as they were. *)
Definition wrote (d : disk) (r : R) (path : list Z) (netatalk : bool) (f rs : list Z) (m : L (disk * R) (res unit)) : Prop :=
  exists d', m (d, r) = (Ok tt, (d', r)) /\ place d' path netatalk /\ ad_holds d' path netatalk f rs
    /\ xattrs d' = xattrs d
    /\ forall q n, q <> sidecar_name d path netatalk -> nodes d !! q = Some n -> nodes d' !! q = Some n.

(** A writing use, from what it does to the open file. *)
Lemma ad_writes d r path netatalk f rs f' rs' (k : Z * ad_info -> L (disk * R) (res unit)) :
  place d path netatalk -> ad_holds d path netatalk f rs ->
  (forall d1 fd p m data info i, file_at fd d1 = Some (p, m, data, 0) -> ad_wf data info i ->
    f = finder_of data info -> rs = fork_of data info ->
    exists data' info' d2, k (fd, info) (d1, r) = (Ok tt, (d2, r)) /\ nodes d2 = <[p := File m data']> (nodes d1)
      /\ xattrs d2 = xattrs d1 /\ ad_wf data' info' i /\ f' = finder_of data' info' /\ rs' = fork_of data' info') ->
  wrote d r path netatalk f' rs' (ltry (open_ad path netatalk true) k).
Proof.
  intros P (data & info & i & C & Ef & Er) Hk. unfold wrote, ltry, lbind.
  destruct (open_write d r path netatalk data info i P C) as (d1 & m & fd & -> & Hf & Hc).
  destruct (Hk d1 fd _ m data info i Hf (proj1 C) Ef Er) as (data' & info' & d2 & -> & E1 & E2 & W & Ef' & Er').
  assert (Hne : holder (sidecar_name d path netatalk) <> sidecar_name d path netatalk)
    by (apply holder_neq; pose proof (zlen_sidecar d path netatalk); pose proof (zlen_nonneg path); lia).
  assert (Hc2 : changed d d2 (sidecar_name d path netatalk) data')
    by (eapply changed_nodes; [by apply (changed_put d d1 _ data data' m)|exact E1|exact E2]).
  destruct (holds_changed _ _ _ _ _ _ _ _ _ P Hc2 W Ef' Er') as (P' & H' & _).
  exists d2. split; [done|]. split; [done|]. split; [done|]. split; [apply (ch_xattrs _ _ _ _ Hc2)|apply (ch_kept _ _ _ _ Hc2)].
Qed.

Lemma finder_set_disk d r path netatalk f rs v :
  place d path netatalk -> ad_holds d path netatalk f rs -> bytes_ok v -> zlen v = 32 ->
  wrote d r path netatalk v rs (ad_finder_set path netatalk v).
Proof.
  intros P Hh Hv Hl. apply (ad_writes d r path netatalk f rs); [done|done|].
  intros d1 fd p m data info i Hf W Ef Er. pose proof (wf_offsets _ _ _ W) as (O1 & O2 & O3 & O4 & O5 & O6 & O7 & O8 & O9 & O10).
  replace (e_offset (finder info) =? 0) with false by lia. unfold lbind. rewrite (do_pwrite _ _ _ _ _ _ _ _ _ Hf).
  rewrite write_at_inside by lia. destruct (finder_stored data info i v W Hv Hl) as (W' & F1 & F2).
  eexists _, info, _. split; [apply do_close|]. split; [reflexivity|]. split; [done|]. split; [exact W'|].
  by rewrite F1, F2.
Qed.

(** The fork with its bytes at [offset] written, and from the start replaced. *)
Definition fork_written (rs buf : list Z) (offset : Z) : list Z := if offset =? 0 then buf else write_at rs offset buf.

Lemma write_nothing rs offset : 0 <= offset <= zlen rs -> write_at rs offset [] = rs.
Proof.
  intros H. rewrite write_at_inside by lia. unfold store. rewrite app_nil_l. change (length []) with O. rewrite Nat.add_0_r.
  apply take_drop.
Qed.

(** The bytes before the length is written. *)
Lemma fork_bytes data info k rs buf offset :
  ad_wf data info k -> rs = fork_of data info -> 0 <= offset -> offset = 0 \/ 0 < zlen buf \/ offset <= zlen rs ->
  let o := e_offset (resource info) in
  let cut := if offset =? 0 then resize data o else data in
  (if zlen buf >? 0 then write_at cut (o + offset) buf else cut) = take (Z.to_nat o) data ++ fork_written rs buf offset.
Proof.
  intros W Er Ho Hcase o cut. pose proof (wf_offsets _ _ _ W) as (O1 & O2 & O3 & O4 & O5 & O6 & O7 & O8 & O9 & O10).
  fold o in O5, O7, O10. set (pre := take (Z.to_nat o) data) in *. assert (Hpre : zlen pre = o) by (unfold pre; rewrite zlen_take; lia).
  assert (Hd : data = pre ++ rs).
  { rewrite Er. unfold fork_of, pre, sub. fold o. rewrite (take_ge (drop _ _)) by (unfold zlen in *; rewrite length_drop; lia).
    by rewrite take_drop. }
  unfold fork_written, cut. pose proof (zlen_nonneg buf). destruct (Z.eqb_spec offset 0) as [->|Hne].
  - rewrite resize_shorter by lia. fold pre. destruct (zlen buf >? 0) eqn:E; bool_to_prop.
    + rewrite Z.add_0_r, <- Hpre. apply write_at_end.
    + rewrite (zlen_0_inv buf) by lia. by rewrite app_nil_r.
  - destruct (zlen buf >? 0) eqn:E; bool_to_prop; rewrite Hd at 1.
    + rewrite <- Hpre. by apply write_at_behind.
    + rewrite (zlen_0_inv buf) by lia. f_equal. symmetry. apply write_nothing. lia.
Qed.

Lemma fork_written_ok rs buf offset :
  bytes_ok rs -> bytes_ok buf -> 0 <= offset ->
  bytes_ok (fork_written rs buf offset)
  /\ zlen (fork_written rs buf offset)
     = if negb (offset =? 0) && (offset + zlen buf <? zlen rs) then zlen rs else offset + zlen buf.
Proof.
  intros Hr Hb Ho. unfold fork_written. destruct (Z.eqb_spec offset 0) as [->|Hne]; [done|]. split.
  - unfold write_at. apply store_bytes_ok; [|done]. apply bytes_ok_app. split; [done|]. unfold zero_bytes.
    apply Forall_replicate. unfold byte_ok. lia.
  - rewrite zlen_write_at by done. simpl negb. simpl andb. case_if; bool_to_prop; lia.
Qed.

(** [d'] is [d] with the file behind [fd] holding [data']. *)
Definition rewritten (fd : Z) (d d' : disk) (p : list Z) (m : Z) (data' : list Z) : Prop :=
  file_at fd d' = Some (p, m, data', 0) /\ nodes d' = <[p := File m data']> (nodes d) /\ xattrs d' = xattrs d.

Lemma rewritten_refl fd d p m data : file_at fd d = Some (p, m, data, 0) -> rewritten fd d d p m data.
Proof.
  intros H. split; [done|]. split; [|done]. unfold file_at in H. destruct (handles d !! fd) as [[q x]|]; [|done].
  destruct (nodes d !! q) as [[]|] eqn:E; simplify_eq. by rewrite insert_id.
Qed.

Lemma rewritten_put fd d d1 p m data1 data' :
  rewritten fd d d1 p m data1 -> rewritten fd d (put_data p m data' d1) p m data'.
Proof.
  intros (H1 & H2 & H3). split; [by eapply file_at_put|]. split; [|done].
  cbn [put_data set_nodes nodes]. rewrite H2. apply insert_insert_eq.
Qed.

(** The steps of a write before the length's. *)
Lemma fork_put fd d r p m data o buf offset (k : unit -> L (disk * R) (res unit)) :
  file_at fd d = Some (p, m, data, 0) ->
  let cut := if offset =? 0 then resize data o else data in
  let put := if zlen buf >? 0 then write_at cut (o + offset) buf else cut in
  exists d', rewritten fd d d' p m put
    /\ ltry (if offset =? 0 then sysret (Ftruncate fd o) else yields tt) (fun _ =>
        ltry (if zlen buf >? 0 then pwrite_all fd buf (o + offset) else yields tt) k) (d, r) = k tt (d', r).
Proof.
  intros Hf cut put.
  assert (exists d1, rewritten fd d d1 p m cut
    /\ (if offset =? 0 then sysret (Ftruncate fd o) else yields tt) (d, r) = (Ok tt, (d1, r))) as (d1 & H1 & E1).
  { unfold cut. destruct (offset =? 0); [|exists d; split; [by apply rewritten_refl|done]].
    rewrite (do_ftruncate _ _ _ _ _ _ _ _ Hf). eexists. split; [|reflexivity]. eapply rewritten_put, rewritten_refl, Hf. }
  unfold ltry at 1, lbind at 1. rewrite E1. unfold put. destruct (zlen buf >? 0).
  - unfold ltry, lbind. rewrite (do_pwrite _ _ _ _ _ _ _ _ _ (proj1 H1)). eexists. split; [|reflexivity].
    by eapply rewritten_put.
  - exists d1. done.
Qed.

Lemma fork_write_disk d r path netatalk f rs buf offset :
  place d path netatalk -> ad_holds d path netatalk f rs -> bytes_ok buf -> 0 <= offset ->
  offset + zlen buf <= UINT32_MAX -> offset = 0 \/ 0 < zlen buf \/ offset <= zlen rs ->
  wrote d r path netatalk f (fork_written rs buf offset) (ad_resource_write path netatalk buf offset).
Proof.
  intros P Hh Hb Ho Hu Hcase. unfold ad_resource_write. cbv zeta. pose proof (zlen_nonneg buf) as Hbn.
  apply (ad_writes d r path netatalk f rs); [done|done|].
  intros d1 fd p m data info i Hf W Ef Er. pose proof (wf_offsets _ _ _ W) as (O1 & O2 & O3 & O4 & O5 & O6 & O7 & O8 & O9 & O10).
  assert (El : zlen rs = e_length (resource info)) by (rewrite Er; unfold fork_of; rewrite zlen_sub; lia).
  unfold UINT32_MAX in *. replace (_ || _ || _ || _)%bool with false by lia.
  assert (Hr : bytes_ok rs) by (rewrite Er; apply bytes_ok_sub, W).
  destruct (fork_written_ok rs buf offset Hr Hb Ho) as [B1 B2]. set (body := fork_written rs buf offset) in *.
  rewrite El in B2. assert (B3 : zlen body < 256 ^ 4) by (rewrite B2; case_if; lia).
  pose proof (fork_bytes data info i rs buf offset W Er Ho Hcase) as Hbytes. cbv zeta in Hbytes. fold body in Hbytes.
  destruct (fork_stored data info i body W B1 B3) as (W' & F1 & F2).
  unfold lbind. edestruct (fork_put fd d1 r p m data (e_offset (resource info)) buf offset) as (d2 & H2 & ->); [done|].
  rewrite Hbytes in H2. rewrite <- B2. rewrite (do_pwrite _ _ _ _ _ _ _ _ _ (proj1 H2)).
  rewrite write_at_inside by (pose proof (zlen_nonneg body); rewrite zlen_app, zlen_take; lia).
  eexists _, _, _. split; [apply do_close|]. split; [|split; [|split; [exact W'|by rewrite F1, F2]]].
  - apply (rewritten_put _ _ _ _ _ _ _ H2).
  - apply H2.
Qed.

End OnDisk.
