(* ===== verification/MetadataProofs.v ===== *)
(** The metadata of a local file: the AppleDouble file behind it is a store of
    Finder information and of a resource fork. *)
From stdpp Require Import gmap.
From S2P Require Import Prelude AfpProtocol Identify Xattr Local Sidecar Metadata SidecarProofs.
Open Scope local_scope.

(** The kind of AppleDouble file of a mode. *)
Definition mode_file (mode : Z) : option bool :=
  if mode =? AFP_METADATA_NETATALK then Some true
  else if (mode =? AFP_METADATA_AUTO) || (mode =? AFP_METADATA_XATTR) || (mode =? AFP_METADATA_MACOS) then Some false
  else None.

Section OnDisk.
Context {R : Type} (remote_answer : forall A, Z -> list Z -> remote A -> R -> A * R).
#[local] Instance here : Os (disk * R) := on_disk remote_answer.

Lemma path_check_disk d r path n : nodes d !! path = Some n -> local_path_check (Some path) (d, r) = (Ok path, (d, r)).
Proof.
  intros H. unfold local_path_check, ltry, lbind, sysret, lbind, syscall, answer, here, on_disk, disk_os. by rewrite H.
Qed.

Lemma by_mode_file {A} mode netatalk (m n : L (disk * R) (res A)) :
  mode_file mode = Some netatalk -> by_mode mode m n = if netatalk then m else n.
Proof. unfold mode_file, by_mode. destruct (mode =? AFP_METADATA_NETATALK); [by intros [= <-]|]. by case_if; intros [= <-]. Qed.

Lemma checked {A} d r path netatalk (k : list Z -> L (disk * R) (res A)) :
  place d path netatalk -> ltry (local_path_check (Some path)) k (d, r) = k path (d, r).
Proof. intros [(n & Hn & _) _ _]. unfold ltry, lbind. by rewrite (path_check_disk d r path n). Qed.

Lemma wrote_eq d r path netatalk f rs (m n : L (disk * R) (res unit)) :
  m (d, r) = n (d, r) -> wrote d r path netatalk f rs n -> wrote d r path netatalk f rs m.
Proof. unfold wrote. by intros ->. Qed.

(** C24: On a disk, the AppleDouble file of a mode holds the Finder information
    [f] and the resource fork [rs] of a path, empty before there is one. The
    readings answer them, absent when empty; each write answers 0 and changes
    the one it means, leaving the other, every other file and the extended
    attributes as they were. The file may have other entries, but the Finder
    information stands before the resource fork and the fork ends the file
    (ad_wf); a write of no bytes past the fork's end is left out, after which
    the file cannot be read (empty_write_past_end). *)
Theorem appledouble_store d (r : R) path mode netatalk f rs :
  mode_file mode = Some netatalk -> place d path netatalk -> ad_holds d path netatalk f rs ->
  fst (local_finderinfo_get false (Some path) mode (d, r)) = (if list_eqb f (zero_bytes 32) then Err (- ENOATTR) else Ok f)
  /\ fst (local_resourcefork_size false (Some path) mode (d, r)) = (if zlen rs =? 0 then Err (- ENOATTR) else Ok (zlen rs))
  /\ (forall size offset, rs <> [] -> 0 <= size <= SSIZE_MAX -> 0 <= offset ->
      fst (local_resourcefork_read false (Some path) mode true size offset (d, r)) = Ok (sub offset size rs))
  /\ (forall v, bytes_ok v -> zlen v = 32 ->
      wrote d r path netatalk v rs (local_finderinfo_set false (Some path) mode v))
  /\ (forall buf offset, bytes_ok buf -> 0 <= offset -> offset + zlen buf <= UINT32_MAX ->
      offset = 0 \/ 0 < zlen buf \/ offset <= zlen rs ->
      wrote d r path netatalk f (fork_written rs buf offset)
        (local_resourcefork_write false (Some path) mode (Some buf) (zlen buf) offset))
  /\ wrote d r path netatalk (zero_bytes 32) rs (local_finderinfo_remove false (Some path) mode)
  /\ wrote d r path netatalk f [] (local_resourcefork_remove false (Some path) mode).
Proof.
  intros Hm P Hh. pose proof (zlen_nonneg rs) as Hrs. repeat match goal with |- _ /\ _ => split end.
  - unfold local_finderinfo_get. rewrite (checked d r path netatalk) by done. cbn [apple_metadata_uses_sys andb].
    rewrite (by_mode_file mode netatalk) by done. unfold here.
    destruct (finder_get_disk remote_answer d r path netatalk f rs P Hh) as (a & d' & E & _ & ->). destruct netatalk; by rewrite E.
  - unfold local_resourcefork_size. rewrite (checked d r path netatalk) by done. cbn [apple_metadata_uses_sys andb].
    rewrite (by_mode_file mode netatalk) by done. unfold here.
    destruct (fork_size_disk remote_answer d r path netatalk f rs P Hh) as (a & d' & E & _ & ->). destruct netatalk; by rewrite E.
  - intros size offset Hne Hs Ho. unfold local_resourcefork_read. replace (_ || _)%bool with false by (cbn [negb andb]; lia).
    replace (size >? SSIZE_MAX) with false by lia. rewrite (checked d r path netatalk) by done. cbn [apple_metadata_uses_sys andb].
    rewrite (by_mode_file mode netatalk) by done. unfold here.
    destruct (fork_read_disk remote_answer d r path netatalk f rs size offset P Hh Hne) as (a & d' & E & _ & ->); [lia|lia|].
    destruct netatalk; by rewrite E.
  - intros v Hv Hl. eapply wrote_eq; [|by apply (finder_set_disk remote_answer d r path netatalk f rs v)].
    unfold local_finderinfo_set. rewrite (checked d r path netatalk) by done. cbn [apple_metadata_uses_sys andb].
    rewrite (by_mode_file mode netatalk) by done. by destruct netatalk.
  - intros buf offset Hb Ho Hu Hc. eapply wrote_eq; [|by apply (fork_write_disk remote_answer d r path netatalk f rs buf offset)].
    unfold local_resourcefork_write. rewrite bool_decide_true by done. unfold UINT32_MAX, SSIZE_MAX, INT64_MAX in *.
    pose proof (zlen_nonneg buf). replace (_ || _)%bool with false by (cbn [negb andb]; lia). replace (_ || _)%bool with false by lia.
    cbv zeta. rewrite (checked d r path netatalk) by done. cbn [apple_metadata_uses_sys andb].
    rewrite (by_mode_file mode netatalk) by done. rewrite sub_all by done. change (default [] (Some buf)) with buf. unfold here. by destruct netatalk.
  - eapply wrote_eq; [|by apply (finder_set_disk remote_answer d r path netatalk f rs (zero_bytes 32)); [| |apply (bool_decide_unpack _); vm_compute|]].
    unfold local_finderinfo_remove. rewrite (checked d r path netatalk) by done. cbn [apple_metadata_uses_sys andb].
    rewrite (by_mode_file mode netatalk) by done. unfold mode_file in Hm. unfold here. by case_if; destruct netatalk.
  - eapply wrote_eq; [|apply (fork_write_disk remote_answer d r path netatalk f rs [] 0); try done; [constructor|by left]].
    unfold local_resourcefork_remove. rewrite (checked d r path netatalk) by done. cbn [apple_metadata_uses_sys andb].
    rewrite (by_mode_file mode netatalk) by done. unfold mode_file in Hm. unfold here. by case_if; destruct netatalk.
Qed.

End OnDisk.

#[local] Instance home_disk : Os (disk * unit) := on_disk nothing_remote.

Lemma home_place netatalk : place home (str "/h/f") netatalk.
Proof.
  constructor.
  - eexists. split; [vm_compute; reflexivity|]. vm_compute. reflexivity.
  - destruct netatalk; vm_compute; reflexivity.
  - constructor.
    + destruct netatalk; vm_compute; discriminate.
    + intros m. destruct netatalk; vm_compute; discriminate.
    + destruct netatalk; [right; split; vm_compute; reflexivity|left; eexists; vm_compute; reflexivity].
    + destruct netatalk; [|vm_compute; discriminate]. intros _. eexists. vm_compute. reflexivity.
Qed.

Lemma home_holds netatalk : ad_holds home (str "/h/f") netatalk (zero_bytes 32) [].
Proof.
  exists (ad_header netatalk), (new_info netatalk), (new_index netatalk). split; [|destruct netatalk; vm_compute; done].
  split; [apply new_wf|]. destruct netatalk; vm_compute; done.
Qed.

Lemma appledouble_store_witness :
  wrote home tt (str "/h/f") true (zero_bytes 32) (str "xyz")
    (local_resourcefork_write false (Some (str "/h/f")) AFP_METADATA_NETATALK (Some (str "xyz")) 3 0).
Proof.
  apply (appledouble_store nothing_remote home tt (str "/h/f") AFP_METADATA_NETATALK true (zero_bytes 32) []).
  - reflexivity.
  - apply home_place.
  - apply home_holds.
  - apply (bool_decide_unpack _). vm_compute. exact I.
  - vm_compute. discriminate.
  - vm_compute. discriminate.
  - left. reflexivity.
Defined.

(** A write of nothing past the end of a resource fork sets a length the file
    does not have: every reading of the metadata is refused after it. *)
Example empty_write_past_end :
  let '(r1, s) := local_resourcefork_write false (Some (str "/h/f")) AFP_METADATA_MACOS (Some (str "xyz")) 3 0 (home, tt) in
  let '(r2, s) := local_resourcefork_write false (Some (str "/h/f")) AFP_METADATA_MACOS (Some []) 0 10 s in
  r1 = Ok tt /\ r2 = Ok tt
  /\ fst (local_resourcefork_read false (Some (str "/h/f")) AFP_METADATA_MACOS true 3 0 s) = Err (- EINVAL)
  /\ fst (local_finderinfo_get false (Some (str "/h/f")) AFP_METADATA_MACOS s) = Err (- EINVAL).
Proof. vm_compute. done. Qed.
