(* ===== verification/AttrProofs.v ===== *)
(** The attribute files of Netatalk on a disk: a path's attributes are a finite
    map, which the operations read and change as such. *)
From stdpp Require Import gmap.
From S2P Require Import Prelude AfpProtocol Identify Xattr Local Sidecar Metadata SidecarProofs MetadataProofs.
Open Scope local_scope.

(** ** The header's bytes *)

Definition item_bytes (i : ea_item) : list Z := be_put 4 (i_size i) ++ i_name i ++ [0].

(** A name that the header can hold. *)
Definition item_name (name : list Z) : Prop := no_nul name /\ bytes_ok name /\ 0 < zlen name < 255.
Definition item_ok (i : ea_item) : Prop := item_name (i_name i) /\ 0 <= i_size i <= UINT32_MAX.

#[export] Instance item_name_dec name : Decision (item_name name).
Proof. unfold item_name. apply _. Defined.

Lemma drop_sub {A} (l r : list A) pos n : 0 <= pos -> drop (Z.to_nat pos) l = r -> sub pos n l = take (Z.to_nat n) r.
Proof. intros _ <-. done. Qed.

Lemma take_one {A} (x : A) l : take (Z.to_nat 1) (x :: l) = [x].
Proof. done. Qed.

Lemma drop_more {A} (l a r : list A) pos :
  0 <= pos -> drop (Z.to_nat pos) l = a ++ r -> drop (Z.to_nat (pos + zlen a)) l = r.
Proof.
  intros Hp E. rewrite Z2Nat.inj_add by (auto with afp). rewrite <- drop_drop, E. apply drop_app_zlen. unfold zlen. lia.
Qed.

Lemma drop_end {A} (l a : list A) pos : 0 <= pos -> drop (Z.to_nat pos) l = a -> a <> [] -> pos + zlen a = zlen l.
Proof.
  intros Hp <- Hne. rewrite zlen_drop. destruct (Z.le_gt_cases (zlen l) pos) as [H|H]; [|lia].
  destruct Hne. apply drop_ge. unfold zlen in H. lia.
Qed.

Section OnDisk.
Context {R : Type} (remote_answer : forall A, Z -> list Z -> remote A -> R -> A * R).
#[local] Instance here : Os (disk * R) := on_disk remote_answer.

Lemma do_read fd d r p m data pos n :
  file_at fd d = Some (p, m, data, pos) ->
  exists d', syscall (Read fd n) (d, r) = (Ok (sub pos n data), (d', r))
    /\ file_at fd d' = Some (p, m, data, pos + zlen (sub pos n data)) /\ nodes d' = nodes d /\ xattrs d' = xattrs d.
Proof.
  intros H. unfold syscall, answer, here, on_disk, disk_os. rewrite H. eexists. split; [reflexivity|]. split; [|done].
  unfold file_at in *. cbn [set_handles handles nodes]. rewrite lookup_insert_eq.
  destruct (handles d !! fd) as [[q x]|]; [|done]. destruct (nodes d !! q) as [[]|] eqn:E; simplify_eq. by rewrite E.
Qed.

Lemma scan_name_disk fd d r p m data pos0 fuel c n pos name rest :
  file_at fd d = Some (p, m, data, pos0) -> 0 <= pos -> drop (Z.to_nat pos) data = name ++ 0 :: rest -> no_nul name ->
  0 <= n -> n + zlen name < 255 -> (length name < fuel)%nat ->
  scan_name fd (zlen data) fuel c n pos (d, r) = (Ok (0, n + zlen name, pos + zlen name + 1), (d, r)).
Proof.
  intros Hf. revert c n pos name. induction fuel as [|fuel IH]; intros c n pos name Hp Hd Hn H0 Hl Hfu; [lia|].
  cbn [scan_name]. pose proof (zlen_nonneg name). pose proof (zlen_nonneg rest).
  assert (Hs : pos + zlen (name ++ 0 :: rest) = zlen data) by (apply drop_end; [done|done|by destruct name]).
  rewrite zlen_app, zlen_cons in Hs. replace (_ && _)%bool with true by lia.
  unfold lbind. unfold here. rewrite (do_pread _ _ _ _ _ _ _ _ _ _ Hf). rewrite (drop_sub data _ pos 1 Hp Hd).
  destruct name as [|b name]; cbn [app]; rewrite take_one.
  - change (0 =? 0) with true. cbv iota. change (zlen []) with 0. unfold yields, lret. do 3 f_equal; [f_equal; lia|lia].
  - inversion_clear Hn as [|? ? Hb Hn']. rewrite (proj2 (Z.eqb_neq _ _) Hb). rewrite zlen_cons in *. fold here.
    rewrite (IH b (n + 1) (pos + 1) name); [|lia| |done|lia|lia|simpl in Hfu; lia].
    + do 3 f_equal; [f_equal; lia|lia].
    + apply (drop_more data [b] (name ++ 0 :: rest) pos Hp Hd).
Qed.

Lemma load_loop_disk fd d r p m data pos0 items acc pos :
  file_at fd d = Some (p, m, data, pos0) -> 0 <= pos -> drop (Z.to_nat pos) data = flat_map item_bytes items ->
  Forall item_ok items -> NoDup (map i_name (acc ++ items)) ->
  load_loop fd (zlen data) (length items) pos acc (d, r) = (Ok (acc ++ items), (d, r)).
Proof.
  intros Hf. revert acc pos. induction items as [|[name size] items IH]; intros acc pos Hp Hd Hok Hnd.
  { simpl. by rewrite app_nil_r. }
  apply Forall_cons in Hok as [[(N1 & N2 & N3) N4] Hok]. simpl in N1, N2, N3, N4.
  cbn [length load_loop]. cbn [flat_map] in Hd. set (more := flat_map item_bytes items) in *.
  assert (Hd4 : drop (Z.to_nat pos) data = be_put 4 size ++ name ++ 0 :: more)
    by (rewrite Hd; unfold item_bytes; by rewrite <- !app_assoc).
  unfold lbind at 1. unfold here at 1. rewrite (do_pread _ _ _ _ _ _ _ _ _ _ Hf).
  rewrite (drop_sub data _ pos 4 Hp Hd4). rewrite take_app_zlen by (by rewrite be_put_length).
  rewrite zlen_be_put. change (negb (Z.of_nat 4 =? 4)) with false. cbv iota.
  pose proof (drop_more _ _ _ _ Hp Hd4) as Hdn. rewrite zlen_be_put in Hdn. change (Z.of_nat 4) with 4 in Hdn.
  unfold ltry at 1, lbind at 1. rewrite (scan_name_disk fd d r p m data pos0 256 1 0 (pos + 4) name more) by (done || lia || (unfold zlen in N3; lia)).
  cbv beta iota. change (negb (0 =? 0)) with false. cbv iota. unfold ltry at 1, lbind at 1.
  change (alloc _ (d, r)) with (@Ok unit tt, (d, r)). cbv iota. unfold lbind at 1. unfold here at 1.
  rewrite (do_pread _ _ _ _ _ _ _ _ _ _ Hf). rewrite Z.add_0_l. replace (pos + 4 + zlen name + 1 - zlen name - 1) with (pos + 4) by lia.
  rewrite (drop_sub data _ (pos + 4) _ ltac:(lia) Hdn). rewrite take_app_zlen by (unfold zlen; lia).
  rewrite Z.eqb_refl. change (negb true) with false. cbv iota. rewrite until_nul_id by done.
  replace (has_name acc name) with false.
  2: { symmetry. rewrite map_app in Hnd. apply NoDup_app in Hnd as (_ & Hnd & _). unfold has_name.
       apply not_true_iff_false. intros (i & Hi & E%list_eqb_eq)%existsb_exists.
       apply (Hnd name); [|left]. rewrite <- E. apply list_elem_of_In, in_map, Hi. }
  unfold be_at. rewrite sub_all by (by rewrite zlen_be_put). rewrite be_get_put_small by (unfold UINT32_MAX in N4; lia).
  fold here. rewrite IH; try done; try lia.
  - by rewrite <- app_assoc.
  - replace (pos + 4 + zlen name + 1) with (pos + 4 + zlen (name ++ [0])) by (rewrite zlen_app; change (zlen [0]) with 1; lia).
    apply drop_more; [lia|]. rewrite Hdn. by rewrite <- app_assoc.
  - by rewrite <- app_assoc.
Qed.

Lemma ea_bytes_eq items :
  ea_bytes items = (be_put 4 EA_MAGIC ++ be_put 2 EA_VERSION ++ be_put 2 (u16 (zlen items))) ++ flat_map item_bytes items.
Proof. unfold ea_bytes. by rewrite <- !app_assoc. Qed.

(** The fixed part of a header. *)
Lemma ea_fixed items :
  let fixed := sub 0 EA_HEADER_SIZE (ea_bytes items) in
  zlen fixed = 8 /\ EA_HEADER_SIZE <= zlen (ea_bytes items) /\ be_at fixed 0 4 = EA_MAGIC /\ be_at fixed 4 2 = EA_VERSION
  /\ be_at fixed 6 2 = u16 (zlen items) /\ drop (Z.to_nat EA_HEADER_SIZE) (ea_bytes items) = flat_map item_bytes items.
Proof.
  rewrite ea_bytes_eq. set (h := _ ++ _ ++ _). assert (Hh : zlen h = EA_HEADER_SIZE) by (unfold h; by rewrite !zlen_app, !zlen_be_put).
  set (more := flat_map item_bytes items). cbv zeta. pose proof (zlen_nonneg more).
  rewrite sub_app_l by (rewrite ?Hh; unfold EA_HEADER_SIZE; lia). rewrite (sub_all EA_HEADER_SIZE h) by done.
  split; [done|]. split; [rewrite zlen_app; lia|]. pose proof (u16_range (zlen items)).
  split; [|split; [|split]].
  - unfold h, be_at. rewrite sub_app_l by (rewrite ?zlen_be_put; lia). rewrite sub_all by (by rewrite zlen_be_put). done.
  - unfold h, be_at. rewrite sub_app_r by (rewrite zlen_be_put; lia). rewrite zlen_be_put. simpl Z.sub.
    rewrite sub_app_l by (rewrite ?zlen_be_put; lia). rewrite sub_all by (by rewrite zlen_be_put). done.
  - unfold h, be_at. rewrite sub_app_r by (rewrite zlen_be_put; lia). rewrite zlen_be_put. simpl Z.sub.
    rewrite sub_app_r by (rewrite zlen_be_put; lia). rewrite zlen_be_put. simpl Z.sub.
    rewrite sub_all by (by rewrite zlen_be_put). apply be_get_put_small. lia.
  - apply drop_app_zlen. unfold zlen, EA_HEADER_SIZE in *. lia.
Qed.

(** What is read of a header, whole or with too many items. *)
Lemma load_items_disk fd d r p m items :
  file_at fd d = Some (p, m, ea_bytes items, 0) -> Forall item_ok items -> NoDup (map i_name items) ->
  zlen items <= 65535 ->
  exists d', load_items fd (d, r) = (if zlen items >? 1024 then Err (- EINVAL) else Ok items, (d', r))
    /\ nodes d' = nodes d /\ xattrs d' = xattrs d.
Proof.
  intros Hf Hok Hnd Hmax. destruct (ea_fixed items) as (F1 & F2 & F3 & F4 & F5 & F6). pose proof (zlen_nonneg items).
  rewrite u16_small in F5 by lia. unfold load_items. unfold lbind at 1. unfold here at 1.
  rewrite (do_fstat _ _ _ _ _ _ _ _ Hf). replace (_ <? EA_HEADER_SIZE) with false by lia.
  unfold lbind at 1. fold here. destruct (do_read fd d r p m (ea_bytes items) 0 EA_HEADER_SIZE Hf) as (d1 & -> & Hf1 & E1 & E2).
  cbv beta iota. rewrite F1, F3, F4, F5. change (negb (8 =? EA_HEADER_SIZE)) with false.
  change (negb (EA_MAGIC =? EA_MAGIC) || negb (EA_VERSION =? EA_VERSION)) with false. simpl orb. cbv iota zeta.
  destruct (zlen items >? 1024) eqn:En; [by exists d1|]. change (false || false) with false. cbv iota. unfold lbind at 1.
  change (syscall (Alloc _) (d1, r)) with (true, (d1, r)). cbv beta iota. change (negb true) with false. rewrite andb_false_r.
  exists d1. split; [|done]. replace (Z.to_nat (zlen items)) with (length items) by (unfold zlen; lia).
  by rewrite (load_loop_disk fd d1 r p m (ea_bytes items) _ items [] EA_HEADER_SIZE Hf1).
Qed.

(** ** Where the files are *)

Definition ea_header (d : disk) (path : list Z) : list Z := sidecar_name d path true ++ str "::EA".
Definition ea_value (d : disk) (path name : list Z) : list Z := sidecar_name d path true ++ str "::EA::" ++ name.

Definition no_slash (name : list Z) : Prop := Forall (fun b => b <> ch_slash) name.

Lemma sidecar_slash d path : exists pre suf, sidecar_name d path true = pre ++ ch_slash :: suf /\ no_slash suf.
Proof.
  unfold sidecar_name. cbn [negb]. set (dirlen := match strrchr path ch_slash with Some s => s + 1 | None => 0 end).
  case_if.
  - exists (path ++ str "/.AppleDouble"), (str ".Parent"). split; [by rewrite <- app_assoc|].
    unfold no_slash. apply (bool_decide_unpack _). vm_compute. exact I.
  - exists (take (Z.to_nat dirlen) path ++ str ".AppleDouble"), (drop (Z.to_nat dirlen) path).
    split; [by rewrite <- app_assoc|]. unfold dirlen. clear.
    induction path as [|b path IH]; [constructor|]. simpl. destruct (strrchr path ch_slash) as [i|] eqn:E.
    + pose proof (strrchr_nonneg _ _ _ E). replace (Z.to_nat (i + 1 + 1)) with (Datatypes.S (Z.to_nat (i + 1))) by lia. exact IH.
    + simpl in IH. destruct (Z.eqb_spec b ch_slash); [exact IH|]. by constructor.
Qed.

Lemma strrchr_split pre suf : no_slash suf -> strrchr (pre ++ ch_slash :: suf) ch_slash = Some (zlen pre).
Proof. apply strrchr_app. Qed.

(** A suffix without a slash stays in the folder. *)
Lemma holder_suffix d path suf : no_slash suf ->
  holder (sidecar_name d path true ++ suf) = holder (sidecar_name d path true).
Proof.
  intros Hs. destruct (sidecar_slash d path) as (pre & tl & -> & Ht). unfold holder. rewrite <- app_assoc. simpl app.
  rewrite !strrchr_split by (done || by apply Forall_app). case_if; [done|].
  rewrite !take_app_zlen by (unfold zlen; lia). done.
Qed.

(** The condition for a file beside a path's AppleDouble file. *)
Record beside (d : disk) (p : list Z) : Prop := {
  beside_fits : zlen p < PATH_MAX;
  beside_name : zlen (base_name p) <= NAME_MAX;
  beside_node : forall m, nodes d !! p <> Some (Folder m) }.

Lemma beside_room d path suf :
  room d (sidecar_name d path true) -> no_slash suf -> beside d (sidecar_name d path true ++ suf) ->
  room d (sidecar_name d path true ++ suf).
Proof.
  intros [_ _ R3 R4] Hs [_ B2 B3]. constructor; rewrite ?holder_suffix by done; done.
Qed.

(** ** Steps *)

(** Places for a path's attributes: its header's and each of its values'. *)
Record ea_place (d : disk) (path : list Z) : Prop := {
  ea_sidecar : place d path true;
  ea_beside : beside d (ea_header d path) }.

Definition value_place (d : disk) (path name : list Z) : Prop := no_slash name /\ beside d (ea_value d path name).

Lemma no_slash_app a b : no_slash a -> no_slash b -> no_slash (a ++ b).
Proof. intros Ha Hb. by apply Forall_app. Qed.

Lemma header_suffix : no_slash (str "::EA").
Proof. unfold no_slash. apply (bool_decide_unpack _). vm_compute. exact I. Qed.

Lemma value_suffix name : no_slash name -> no_slash (str "::EA::" ++ name).
Proof. intros H. apply no_slash_app; [|done]. unfold no_slash. apply (bool_decide_unpack _). vm_compute. exact I. Qed.

Lemma ea_paths_none d r path : ea_place d path -> ea_paths path None (d, r) = (Ok (ea_header d path, []), (d, r)).
Proof.
  intros [P [B _ _]]. unfold ea_paths. unfold ltry at 1, lbind at 1. unfold here at 1. rewrite sidecar_path_disk by done.
  cbv iota. unfold printed. fold (ea_header d path). by replace (_ >=? PATH_MAX) with false by lia.
Qed.

Lemma ea_paths_some d r path name :
  ea_place d path -> value_place d path name ->
  ea_paths path (Some name) (d, r) = (Ok (ea_header d path, ea_value d path name), (d, r)).
Proof.
  intros [P [B _ _]] [_ [B' _ _]]. unfold ea_paths. unfold ltry at 1, lbind at 1. unfold here at 1.
  rewrite sidecar_path_disk by done. cbv iota. unfold printed. fold (ea_header d path). fold (ea_value d path name).
  replace (zlen (ea_header d path) >=? PATH_MAX) with false by lia.
  by replace (zlen (ea_value d path name) >=? PATH_MAX) with false by lia.
Qed.

Lemma load_none d r path :
  ea_place d path -> nodes d !! ea_header d path = None -> load_ea_items path (d, r) = (Err (- ENOATTR), (d, r)).
Proof.
  intros Pe Hn. pose proof Pe as [[(n & Hp & _) _ _] [_ B _]]. unfold load_ea_items. unfold ltry at 1, lbind at 1.
  rewrite ea_paths_none by done. cbv beta iota. unfold lbind at 1. unfold syscall at 1, answer at 1, here at 1, on_disk at 1, disk_os at 1, disk_open.
  rewrite Hn. replace (_ >? NAME_MAX) with false by lia. cbv beta iota. unfold sidecar_open_error.
  change (negb (ENOENT =? ENOENT)) with false. cbv iota. unfold lbind, syscall, answer, here, on_disk, disk_os. by rewrite Hp.
Qed.

Lemma load_some d r path m items :
  ea_place d path -> nodes d !! ea_header d path = Some (File m (ea_bytes items)) ->
  Forall item_ok items -> NoDup (map i_name items) -> zlen items <= 65535 ->
  exists d', load_ea_items path (d, r) = (if zlen items >? 1024 then Err (- EINVAL) else Ok items, (d', r))
    /\ nodes d' = nodes d /\ xattrs d' = xattrs d.
Proof.
  intros Pe Hf Hok Hnd Hmax. unfold load_ea_items. unfold ltry at 1, lbind at 1. rewrite ea_paths_none by done. cbv beta iota.
  unfold lbind at 1. unfold syscall at 1, answer at 1, here at 1, on_disk at 1, disk_os at 1, disk_open. rewrite Hf.
  destruct (new_handle _ d) as [fd d1] eqn:Eh. destruct (new_handle_file _ _ _ _ _ _ Eh Hf) as (Hf1 & E1 & E2). cbv beta iota.
  unfold lbind at 1. destruct (load_items_disk fd d1 r _ m items Hf1 Hok Hnd Hmax) as (d2 & -> & E3 & E4).
  eexists. split; [reflexivity|]. split; [by rewrite <- E1, <- E3|by rewrite <- E2, <- E4].
Qed.

Lemma write_new_disk d r p mode data skip mh :
  beside d p -> nodes d !! holder p = Some (Folder mh) -> (skip = true -> data = []) ->
  exists d' m, write_new p mode data skip (d, r) = (Ok tt, (d', r)) /\ nodes d' = <[p := File m data]> (nodes d)
    /\ xattrs d' = xattrs d.
Proof.
  intros [_ B1 B2] Hh Hskip. unfold write_new. unfold lbind at 1.
  assert (exists fd d1 m, disk_open p (Wronly_creat_trunc mode) d = (Ok fd, d1) /\ file_at fd d1 = Some (p, m, [], 0)
    /\ nodes d1 = <[p := File m []]> (nodes d) /\ xattrs d1 = xattrs d) as (fd & d1 & m & Ho & Hf & E1 & E2).
  { unfold disk_open. destruct (nodes d !! p) as [[mf|mf x]|] eqn:E; [by destruct (B2 mf)| |].
    - destruct (new_handle p _) as [fd d1] eqn:Eh. eapply new_handle_file in Eh as (Hf & E1 & E2); [|cbn; by rewrite lookup_insert_eq].
      by exists fd, d1, mf.
    - unfold may_create. replace (_ >? NAME_MAX) with false by lia. rewrite Hh.
      destruct (new_handle p _) as [fd d1] eqn:Eh. eapply new_handle_file in Eh as (Hf & E1 & E2); [|cbn; by rewrite lookup_insert_eq].
      by exists fd, d1, mode. }
  unfold syscall at 1, answer at 1, here at 1, on_disk at 1, disk_os at 1. rewrite Ho. cbv beta iota. unfold lbind at 1.
  destruct skip.
  - rewrite (Hskip eq_refl). eexists _, m. split; [reflexivity|]. split; [exact E1|exact E2].
  - unfold lbind, syscall, answer, here, on_disk, disk_os. rewrite Hf. rewrite Z.eqb_refl. eexists _, m. split; [reflexivity|].
    cbn [set_handles put_data set_nodes nodes xattrs]. rewrite E1, insert_insert_eq. split; [|exact E2]. f_equal. f_equal.
    apply (write_at_end [] data).
Qed.

(** ** Attributes of a path *)

Definition items_of (attrs : list (list Z * list Z)) : list ea_item := map (fun a => Item (fst a) (zlen (snd a))) attrs.

(** An attribute that can be kept. *)
Definition attr_ok (d : disk) (path : list Z) (a : list Z * list Z) : Prop :=
  item_name (fst a) /\ zlen (snd a) <= UINT32_MAX /\ value_place d path (fst a).

Record ea_holds (d : disk) (path : list Z) (attrs : list (list Z * list Z)) : Prop := {
  eh_place : ea_place d path;
  eh_nodup : NoDup (map fst attrs);
  eh_attrs : Forall (attr_ok d path) attrs;
  eh_count : zlen attrs <= 65535;
  eh_header : if zlen attrs =? 0 then nodes d !! ea_header d path = None
              else exists m, nodes d !! ea_header d path = Some (File m (ea_bytes (items_of attrs)));
  eh_values : Forall (fun a => exists m, nodes d !! ea_value d path (fst a) = Some (File m (snd a))) attrs }.

Lemma items_names attrs : map i_name (items_of attrs) = map fst attrs.
Proof. unfold items_of. rewrite map_map. done. Qed.

Lemma items_ok d path attrs : Forall (attr_ok d path) attrs -> Forall item_ok (items_of attrs).
Proof.
  intros H. apply Forall_map. eapply Forall_impl; [exact H|]. intros [n v] (H1 & H2 & _). pose proof (zlen_nonneg v).
  split; [done|]. simpl in *. lia.
Qed.

(** Only the nodes of a disk matter. *)
Lemma sidecar_nodes d d' path : nodes d' = nodes d -> sidecar_name d' path true = sidecar_name d path true.
Proof. intros E. unfold sidecar_name. by rewrite E. Qed.

Lemma ea_place_nodes d d' path : nodes d' = nodes d -> ea_place d path -> ea_place d' path.
Proof.
  intros E [[P1 P2 [R1 R2 R3 R4]] [B1 B2 B3]]. unfold ea_header in *.
  constructor; [constructor; [by rewrite E|by rewrite (sidecar_nodes d)|]|]; rewrite ?(sidecar_nodes d d') by done.
  - constructor; rewrite ?E; done.
  - unfold ea_header. rewrite (sidecar_nodes d d') by done. constructor; rewrite ?E; done.
Qed.

Lemma value_place_nodes d d' path name : nodes d' = nodes d -> value_place d path name -> value_place d' path name.
Proof.
  intros E [H [B1 B2 B3]]. split; [done|]. unfold ea_value in *. rewrite (sidecar_nodes d d') by done.
  constructor; rewrite ?E; done.
Qed.

Lemma holds_nodes d d' path attrs : nodes d' = nodes d -> ea_holds d path attrs -> ea_holds d' path attrs.
Proof.
  intros E [P Hnd Ha Hc Hh Hv]. unfold ea_header, ea_value in *.
  constructor; try done; unfold ea_header, ea_value; rewrite ?(sidecar_nodes d d'), ?E by done; try done.
  - by eapply ea_place_nodes.
  - eapply Forall_impl; [exact Ha|]. intros a (H1 & H2 & H3). split; [done|]. split; [done|]. by eapply value_place_nodes.
Qed.

Lemma load_holds d r path attrs :
  ea_holds d path attrs ->
  exists d', load_ea_items path (d, r)
    = (if zlen attrs =? 0 then Err (- ENOATTR) else if zlen attrs >? 1024 then Err (- EINVAL) else Ok (items_of attrs), (d', r))
    /\ nodes d' = nodes d /\ xattrs d' = xattrs d.
Proof.
  intros [P Hnd Ha Hc Hh Hv]. destruct (zlen attrs =? 0) eqn:E.
  - exists d. split; [by apply load_none|done].
  - destruct Hh as [m Hm]. destruct (load_some d r path m (items_of attrs) P Hm) as (d' & -> & H).
    + by eapply items_ok.
    + by rewrite items_names.
    + unfold items_of. by rewrite zlen_map.
    + exists d'. split; [|done]. unfold items_of. by rewrite zlen_map.
Qed.

(** ** Reading *)

Lemma find_items name attrs :
  find (fun i => list_eqb (i_name i) name) (items_of attrs) = (fun v => Item name (zlen v)) <$> attr_lookup name attrs.
Proof.
  unfold attr_lookup. induction attrs as [|[n v] attrs IH]; simpl; [done|].
  destruct (list_eqb n name) eqn:E; [|exact IH]. apply list_eqb_eq in E. by subst.
Qed.

Lemma attr_lookup_in name attrs v : attr_lookup name attrs = Some v -> In (name, v) attrs.
Proof.
  unfold attr_lookup. induction attrs as [|[n w] attrs IH]; simpl; [done|].
  destruct (list_eqb n name) eqn:E; [|auto]. apply list_eqb_eq in E. intros [= ->]. subst. by left.
Qed.

Lemma read_value_disk fd d r p m v :
  file_at fd d = Some (p, m, v, 0) -> exists d', read_value fd (zlen v) (d, r) = (Ok v, (d', r)) /\ nodes d' = nodes d.
Proof.
  intros Hf. unfold read_value. unfold ltry at 1, lbind at 1. change (alloc _ (d, r)) with (@Ok unit tt, (d, r)). cbv iota.
  unfold lbind. destruct (do_read fd d r p m v 0 (zlen v) Hf) as (d' & -> & _ & E & _). rewrite sub_all by done.
  rewrite Z.eqb_refl. by exists d'.
Qed.

Lemma get_disk d r path attrs name :
  ea_holds d path attrs -> zlen attrs <= 1024 ->
  exists d', netatalk_get path name (d, r)
    = (match attr_lookup name attrs with Some v => Ok v | None => Err (- ENOATTR) end, (d', r)) /\ nodes d' = nodes d.
Proof.
  intros Hh Hc. pose proof Hh as [P Hnd Ha _ _ Hv]. destruct (load_holds d r path attrs Hh) as (d1 & E & E1 & E2).
  unfold netatalk_get. unfold ltry at 1, lbind at 1. rewrite E. destruct (zlen attrs =? 0) eqn:E0; bool_to_prop.
  { rewrite (zlen_0_inv attrs E0). by exists d1. }
  replace (zlen attrs >? 1024) with false by lia. cbv iota. rewrite find_items.
  destruct (attr_lookup name attrs) as [v|] eqn:El; [|by exists d1].
  change ((fun v => Item name (zlen v)) <$> Some v) with (Some (Item name (zlen v))). cbv iota.
  pose proof (attr_lookup_in _ _ _ El) as Hin. rewrite Forall_forall in Ha, Hv.
  apply list_elem_of_In in Hin. destruct (Ha _ Hin) as (_ & _ & Hvp). destruct (Hv _ Hin) as [m Hm]. simpl in Hvp, Hm.
  unfold lbind at 1. rewrite ea_paths_some by (by eapply ea_place_nodes || by eapply value_place_nodes). cbv beta iota.
  unfold lbind at 1. unfold syscall at 1, answer at 1, here at 1, on_disk at 1, disk_os at 1, disk_open.
  unfold ea_value at 1 2 3. rewrite (sidecar_nodes d d1) by done. fold (ea_value d path name). rewrite E1, Hm.
  destruct (new_handle _ d1) as [fd d2] eqn:Eh. eapply new_handle_file in Eh as (Hf & E3 & E4); [|by rewrite E1].
  cbv beta iota. cbn [i_size]. unfold lbind at 1. destruct (read_value_disk fd d2 r _ m v Hf) as (d3 & -> & E5).
  eexists. split; [reflexivity|]. by rewrite <- E1, <- E3, <- E5.
Qed.

(** ** Writing *)

(** The files of an attribute are [path]'s, and the rest of the disk stayed but
    for their folder, which may have been made. *)
Record moved (d d' : disk) (path name : list Z) : Prop := {
  mv_kept : forall q n, q <> ea_header d path -> q <> ea_value d path name -> nodes d !! q = Some n -> nodes d' !! q = Some n;
  mv_new : forall q n, q <> ea_header d path -> q <> ea_value d path name -> nodes d' !! q = Some n ->
    nodes d !! q = Some n \/ q = holder (sidecar_name d path true);
  mv_holder : nodes d' !! holder (sidecar_name d path true) = nodes d !! holder (sidecar_name d path true)
    \/ exists m, nodes d' !! holder (sidecar_name d path true) = Some (Folder m);
  mv_header : forall m, nodes d' !! ea_header d path <> Some (Folder m);
  mv_value : forall m, nodes d' !! ea_value d path name <> Some (Folder m);
  mv_xattrs : xattrs d' = xattrs d }.

Definition others_kept (d d' : disk) (path name : list Z) : Prop :=
  forall q n, q <> ea_header d path -> q <> ea_value d path name -> nodes d !! q = Some n -> nodes d' !! q = Some n.

Lemma sidecar_long d path : 2 <= zlen (sidecar_name d path true) /\ zlen path < zlen (sidecar_name d path true).
Proof. pose proof (zlen_sidecar d path true). pose proof (zlen_nonneg path). lia. Qed.

Lemma header_longer d path : zlen (ea_header d path) = zlen (sidecar_name d path true) + 4.
Proof. unfold ea_header. rewrite zlen_app. done. Qed.

Lemma value_longer d path name : zlen (ea_value d path name) = zlen (sidecar_name d path true) + 6 + zlen name.
Proof. unfold ea_value. rewrite !zlen_app. change (zlen (str "::EA::")) with 6. lia. Qed.

Lemma shorter_not_file d path name q :
  zlen q <= zlen (sidecar_name d path true) -> q <> ea_header d path /\ q <> ea_value d path name.
Proof.
  intros H. pose proof (header_longer d path). pose proof (value_longer d path name). pose proof (zlen_nonneg name).
  split; intros ->; lia.
Qed.

Lemma header_not_value d path name : ea_header d path <> ea_value d path name.
Proof. intros E. pose proof (header_longer d path). pose proof (value_longer d path name). rewrite E in *. pose proof (zlen_nonneg name). lia. Qed.

Lemma value_inj d path n1 n2 : ea_value d path n1 = ea_value d path n2 -> n1 = n2.
Proof. unfold ea_value. intros E. by repeat apply app_inv_head in E. Qed.

Lemma holder_shorter d path : zlen (holder (sidecar_name d path true)) <= zlen (sidecar_name d path true).
Proof.
  destruct (sidecar_long d path) as [H _]. set (sp := sidecar_name d path true) in *. unfold holder.
  destruct (strrchr sp ch_slash) as [i|]; [|change (zlen (str ".")) with 1; lia].
  case_if; [change (zlen (str "/")) with 1; lia|]. rewrite zlen_take. lia.
Qed.

(** The place stays one. *)
Lemma moved_place d d' path name :
  ea_place d path -> value_place d path name -> moved d d' path name ->
  sidecar_name d' path true = sidecar_name d path true /\ ea_place d' path
  /\ forall n, value_place d path n -> value_place d' path n.
Proof.
  intros [[(n & Hn & Hm) Hf [R1 R2 R3 R4]] [B1 B2 B3]] [Hns [V1 V2 V3]] [M1 M2 M3 M4 M5 M6].
  destruct (sidecar_long d path) as [L1 L2]. pose proof (holder_shorter d path) as L3.
  set (sp := sidecar_name d path true) in *. pose proof (holder_neq sp L1) as Hne.
  assert (Hshort : forall q, zlen q <= zlen sp -> q <> ea_header d path /\ q <> ea_value d path name) by (intros; by apply shorter_not_file).
  assert (Hp : nodes d' !! path = Some n) by (apply M1; [apply Hshort; lia..|done]).
  assert (E : sidecar_name d' path true = sp) by (unfold sp, sidecar_name; by rewrite Hn, Hp).
  assert (Hold : forall q, q <> ea_header d path -> q <> ea_value d path name -> q <> holder sp ->
    (forall m, nodes d !! q <> Some (Folder m)) -> forall m, nodes d' !! q <> Some (Folder m)).
  { intros q Q1 Q2 Q3 Q4 m Hq. destruct (M2 q _ Q1 Q2 Hq) as [Hq'|Hq']; [by apply Q4 in Hq'|done]. }
  split; [done|]. split; [constructor|].
  - constructor; [by exists n|by rewrite E|]. rewrite E. constructor; [done| | |].
    + apply Hold; [apply Hshort; lia..|congruence|done].
    + destruct M3 as [M3|[m M3]]; [by rewrite M3|left; by exists m].
    + intros Ha. destruct (R4 Ha) as [m Hh]. exists m. apply M1; [| |done]; intros Eq; rewrite Eq in Hh; [by apply B3 in Hh|by apply V3 in Hh].
  - unfold ea_header in *. rewrite E. constructor; [done|done|]. apply M4.
  - intros n' [Hs' [B1' B2' B3']]. split; [done|]. unfold ea_value in *. rewrite E. constructor; [done|done|].
    destruct (decide (n' = name)) as [->|Hn']; [apply M5|]. apply Hold; [| | |done].
    + intros Eq. symmetry in Eq. by apply (header_not_value d path n') in Eq.
    + intros Eq. by apply (value_inj d path) in Eq.
    + intros Eq%(f_equal zlen). pose proof (value_longer d path n') as Hl. unfold ea_value in Hl. fold sp in Hl.
      pose proof (zlen_nonneg n'). lia.
Qed.

(** One file became [x], in a folder [h] that may have been made for it. *)
Record touched (d d' : disk) (h p : list Z) (x : option (list Z)) : Prop := {
  t_at : match x with Some data => exists m, nodes d' !! p = Some (File m data) | None => nodes d' !! p = None end;
  t_kept : forall q n, q <> p -> nodes d !! q = Some n -> nodes d' !! q = Some n;
  t_new : forall q n, q <> p -> nodes d' !! q = Some n -> nodes d !! q = Some n \/ q = h;
  t_holder : nodes d' !! h = nodes d !! h \/ exists m, nodes d' !! h = Some (Folder m);
  t_xattrs : xattrs d' = xattrs d }.

Lemma made_touched d d0 d1 sp p m data :
  made d d0 sp -> holder sp <> p -> nodes d1 = <[p := File m data]> (nodes d0) -> xattrs d1 = xattrs d0 ->
  touched d d1 (holder sp) p (Some data).
Proof.
  intros (H1 & [mh H2] & H3) Hne E1 E2. constructor; rewrite ?E1, ?E2, ?H3; try done.
  - exists m. by rewrite lookup_insert_eq.
  - intros q n Hq Hn. rewrite lookup_insert_ne by done. destruct H1 as [->|(H1 & m' & ->)]; [done|].
    rewrite lookup_insert_ne; [done|]. intros <-. by rewrite H1 in Hn.
  - intros q n Hq. rewrite lookup_insert_ne by done. destruct H1 as [->|(H1 & m' & ->)]; [by left|].
    destruct (decide (q = holder sp)) as [->|Hq']; [by right|]. rewrite lookup_insert_ne by done. by left.
  - right. exists mh. by rewrite lookup_insert_ne.
Qed.

Lemma file_mode_disk d r path n : nodes d !! path = Some n ->
  sidecar_file_mode path (d, r) = (Ok (Z.land (node_mode n) 0x1b6), (d, r)).
Proof. intros H. unfold sidecar_file_mode, ltry, sysret, lbind, syscall, answer, here, on_disk, disk_os. by rewrite H. Qed.

Lemma made_kept d d0 sp q n : made d d0 sp -> nodes d !! q = Some n -> nodes d0 !! q = Some n.
Proof.
  intros ([->|(H1 & m & ->)] & _) H; [done|]. rewrite lookup_insert_ne; [done|]. intros <-. by rewrite H1 in H.
Qed.

(** A file written beside the AppleDouble file, its folder made first. *)
Lemma write_beside d r path sp suf data skip :
  ea_place d path -> sp = sidecar_name d path true \/ sp = sidecar_name d path true ++ suf ->
  no_slash suf -> beside d (sidecar_name d path true ++ suf) ->
  suf <> [] -> (skip = true -> data = []) ->
  exists d0 mode d', ensure_sidecar_dir sp (d, r) = (Ok tt, (d0, r)) /\ sidecar_file_mode path (d0, r) = (Ok mode, (d0, r))
    /\ write_new (sidecar_name d path true ++ suf) mode data skip (d0, r) = (Ok tt, (d', r))
    /\ touched d d' (holder (sidecar_name d path true)) (sidecar_name d path true ++ suf) (Some data).
Proof.
  intros [[(n & Hn & _) _ Hroom] _] Hsp Hs Hb Hne Hskip. pose proof (beside_room d path suf Hroom Hs Hb) as Hroom'.
  set (a := sidecar_name d path true) in *. destruct (sidecar_long d path) as [L1 _]. fold a in L1.
  assert (Hh : holder (a ++ suf) = holder a) by (by apply holder_suffix).
  assert (Hr : room d sp /\ holder sp = holder a) by (by destruct Hsp as [->| ->]). destruct Hr as [Hr Ehs].
  destruct (ensure_disk remote_answer d r sp Hr) as (d0 & He & Hmade).
  assert (Hda : holder a <> a ++ suf).
  { intros E. pose proof (holder_shorter d path) as Hl. fold a in Hl. rewrite E, zlen_app in Hl.
    assert (zlen suf <> 0) by (intros H; by apply zlen_0_inv in H). pose proof (zlen_nonneg suf). lia. }
  assert (Hb0 : beside d0 (a ++ suf)).
  { destruct Hb as [B1 B2 B3]. constructor; [done|done|]. intros m Hf. destruct Hmade as ([E|(H1 & m' & E)] & _); [rewrite E in Hf; by apply B3 in Hf|].
    rewrite E, lookup_insert_ne in Hf by congruence. by apply B3 in Hf. }
  destruct (proj1 (proj2 Hmade)) as [mh Hmh]. rewrite Ehs, <- Hh in Hmh.
  destruct (write_new_disk d0 r (a ++ suf) (Z.land (node_mode n) 0x1b6) data skip mh Hb0 Hmh Hskip) as (d1 & m & Hw & E1 & E2).
  exists d0, (Z.land (node_mode n) 0x1b6), d1. split; [done|].
  split; [by rewrite (file_mode_disk d0 r path n) by (by eapply made_kept)|]. split; [done|]. rewrite <- Ehs. apply (made_touched d d0 d1 sp (a ++ suf) m data Hmade); [by rewrite Ehs|done|done].
Qed.

Lemma save_some d r path items :
  ea_place d path -> items <> [] -> Forall item_ok items ->
  exists d', save_ea_items path items (d, r) = (Ok tt, (d', r))
    /\ touched d d' (holder (sidecar_name d path true)) (ea_header d path) (Some (ea_bytes items)).
Proof.
  intros P Hne Hok. unfold save_ea_items. unfold ltry at 1, lbind at 1. rewrite ea_paths_none by done. cbv beta iota.
  replace (zlen items =? 0) with false by (destruct items; [done|rewrite zlen_cons; pose proof (zlen_nonneg items); lia]).
  unfold ltry at 1, lbind at 1. unfold here at 1. rewrite sidecar_path_disk by apply P. fold here. cbv iota.
  pose proof (write_beside d r path (sidecar_name d path true) (str "::EA") (ea_bytes items) false P) as Hw.
  destruct Hw as (d0 & mode & d' & E1 & E2 & E3 & T); [by left|apply header_suffix|apply P|done|done|].
  unfold ltry at 1, lbind at 1. rewrite E1. cbv iota. unfold ltry at 1, lbind at 1. rewrite E2. cbv iota.
  replace (existsb _ items) with false.
  2: { symmetry. apply not_true_iff_false. intros (i & Hi & Hl)%existsb_exists. rewrite Forall_forall in Hok.
       apply list_elem_of_In in Hi. destruct (Hok i Hi) as [(N1 & _ & N3) _]. unfold AFP_XATTR_NAME_MAX in Hl.
       rewrite strnlen_id in Hl by (done || lia). lia. }
  unfold ltry at 1, lbind at 1. change (alloc _ (d0, r)) with (@Ok unit tt, (d0, r)). cbv iota.
  unfold ea_header. exists d'. split; [done|exact T].
Qed.

Lemma unlink_disk d r p : (forall m, nodes d !! p <> Some (Folder m)) ->
  exists d', unlink_if_there p (d, r) = (Ok tt, (d', r)) /\ nodes d' = delete p (nodes d) /\ xattrs d' = xattrs d.
Proof.
  intros H. unfold unlink_if_there, lbind, syscall, answer, here, on_disk, disk_os. destruct (nodes d !! p) as [[m|m x]|] eqn:E.
  - by destruct (H m).
  - eexists. done.
  - exists d. by rewrite delete_id.
Qed.

Lemma delete_touched d d' h p : nodes d' = delete p (nodes d) -> xattrs d' = xattrs d -> h <> p -> touched d d' h p None.
Proof.
  intros E1 E2 Hne. constructor; rewrite ?E1; try done.
  - by rewrite lookup_delete_eq.
  - intros q n Hq Hn. by rewrite lookup_delete_ne.
  - intros q n Hq. rewrite lookup_delete_ne by done. by left.
  - left. by rewrite lookup_delete_ne.
Qed.

Lemma holder_not_header d path : holder (sidecar_name d path true) <> ea_header d path.
Proof.
  intros E. pose proof (holder_shorter d path). pose proof (header_longer d path). rewrite E in *. lia.
Qed.

Lemma holder_not_value d path name : holder (sidecar_name d path true) <> ea_value d path name.
Proof.
  intros E. pose proof (holder_shorter d path). pose proof (value_longer d path name). pose proof (zlen_nonneg name). rewrite E in *. lia.
Qed.

Lemma save_none d r path :
  ea_place d path ->
  exists d', save_ea_items path [] (d, r) = (Ok tt, (d', r))
    /\ touched d d' (holder (sidecar_name d path true)) (ea_header d path) None.
Proof.
  intros P. unfold save_ea_items. unfold ltry at 1, lbind at 1. rewrite ea_paths_none by done. cbv beta iota.
  change (zlen (@nil ea_item) =? 0) with true. cbv iota. destruct (unlink_disk d r (ea_header d path)) as (d' & -> & E1 & E2); [apply P|].
  exists d'. split; [done|]. apply delete_touched; [done|done|apply holder_not_header].
Qed.

(** A value's file and then the header. *)
Lemma touched_moved d d1 d2 path name x y :
  touched d d1 (holder (sidecar_name d path true)) (ea_value d path name) x ->
  touched d1 d2 (holder (sidecar_name d path true)) (ea_header d path) y ->
  moved d d2 path name
  /\ match x with Some data => exists m, nodes d2 !! ea_value d path name = Some (File m data) | None => True end
  /\ match y with Some data => exists m, nodes d2 !! ea_header d path = Some (File m data) | None => nodes d2 !! ea_header d path = None end.
Proof.
  intros [A1 A2 A3 A4 A5] [B1 B2 B3 B4 B5]. pose proof (header_not_value d path name) as Hhv.
  pose proof (holder_not_header d path). pose proof (holder_not_value d path name). set (h := holder (sidecar_name d path true)) in *.
  assert (Hv : match x with Some data => exists m, nodes d2 !! ea_value d path name = Some (File m data) | None => nodes d2 !! ea_value d path name = None end).
  { destruct x as [data|]; [destruct A1 as [m A1]; exists m; by apply B2|].
    destruct (nodes d2 !! ea_value d path name) as [n|] eqn:E; [|done]. apply B3 in E as [E|E]; [by rewrite A1 in E|done|done]. }
  split; [constructor|by split; [destruct x|]].
  - intros q n Q1 Q2 Hq. by apply B2, A2.
  - intros q n Q1 Q2 Hq. destruct (B3 q n Q1 Hq) as [Hq'| ->]; [by apply A3 in Hq'|by right].
  - fold h. destruct B4 as [B4|B4]; [|by right]. destruct A4 as [A4|[m A4]]; [left; by rewrite B4|right; exists m; by rewrite B4].
  - intros m. destruct y as [data|]; [destruct B1 as [m' ->]|rewrite B1]; done.
  - intros m. destruct x as [data|]; [destruct Hv as [m' ->]|rewrite Hv]; done.
  - congruence.
Qed.

(** ** The list of attributes *)

Definition attr_del (name : list Z) (l : list (list Z * list Z)) : list (list Z * list Z) :=
  filter (fun a => list_eqb (fst a) name = false) l.

Lemma has_items name attrs : has_name (items_of attrs) name = match attr_lookup name attrs with Some _ => true | None => false end.
Proof.
  unfold has_name, attr_lookup. induction attrs as [|[n v] attrs IH]; simpl; [done|]. destruct (list_eqb n name); [done|exact IH].
Qed.

Lemma lookup_none name attrs : attr_lookup name attrs = None <-> ~ In name (map fst attrs).
Proof.
  unfold attr_lookup. induction attrs as [|[n v] attrs IH]; simpl; [tauto|].
  destruct (list_eqb n name) eqn:E; simpl.
  - apply list_eqb_eq in E. subst. split; [done|]. intros H. exfalso. apply H. by left.
  - rewrite IH. assert (n <> name) by (intros ->; by rewrite list_eqb_refl in E). tauto.
Qed.

Lemma map_absent name (v : list Z) attrs :
  ~ In name (map fst attrs) -> map (fun a => if list_eqb (fst a) name then (name, v) else a) attrs = attrs.
Proof.
  induction attrs as [|[n w] attrs IH]; simpl; [done|]. intros H. rewrite IH by tauto.
  destruct (list_eqb n name) eqn:E; [|done]. apply list_eqb_eq in E. tauto.
Qed.

(** The header's items are set and removed as the attributes are. *)
Lemma set_item_attrs name v attrs :
  NoDup (map fst attrs) -> set_item (items_of attrs) name (zlen v) = items_of (attr_put name v attrs).
Proof.
  unfold attr_put. destruct (attr_lookup name attrs) as [w|] eqn:El.
  - intros Hnd. induction attrs as [|[n x] attrs IH]; [done|]. simpl in Hnd. apply NoDup_cons in Hnd as [Hn Hnd].
    rewrite list_elem_of_In in Hn. unfold attr_lookup in El. simpl in *. destruct (list_eqb n name) eqn:E.
    + apply list_eqb_eq in E. subst n. rewrite map_absent by done. done.
    + simpl. f_equal. by apply IH.
  - intros _. apply lookup_none in El. induction attrs as [|[n x] attrs IH]; [done|]. simpl in *.
    destruct (list_eqb n name) eqn:E; [apply list_eqb_eq in E; tauto|]. simpl. f_equal. apply IH. tauto.
Qed.

Lemma attr_del_absent name attrs : ~ In name (map fst attrs) -> attr_del name attrs = attrs.
Proof.
  unfold attr_del. induction attrs as [|[n x] attrs IH]; [done|]. simpl. intros H.
  assert (list_eqb n name = false) by (apply not_true_iff_false; intros E%list_eqb_eq; tauto).
  rewrite filter_cons_True by done. f_equal. apply IH. tauto.
Qed.

Lemma remove_item_attrs name attrs :
  NoDup (map fst attrs) -> remove_item (items_of attrs) name = items_of (attr_del name attrs).
Proof.
  induction attrs as [|[n x] attrs IH]; [done|]. simpl. intros [Hn Hnd]%NoDup_cons. rewrite list_elem_of_In in Hn.
  unfold attr_del. destruct (list_eqb n name) eqn:E.
  - rewrite filter_cons_False by (simpl; by rewrite E). apply list_eqb_eq in E. subst n.
    fold (attr_del name attrs). by rewrite attr_del_absent.
  - rewrite filter_cons_True by done. simpl. f_equal. by apply IH.
Qed.

Lemma attr_put_in name v attrs a :
  In a (attr_put name v attrs) -> a = (name, v) \/ In a attrs /\ fst a <> name.
Proof.
  unfold attr_put. destruct (attr_lookup name attrs) eqn:El.
  - intros (b & <- & Hb)%in_map_iff. destruct (list_eqb (fst b) name) eqn:E; [by left|]. right. split; [done|].
    intros Hn. by rewrite Hn, list_eqb_refl in E.
  - intros [Ha|[<-|[]]]%in_app_iff; [|by left]. right. split; [done|]. intros <-. apply lookup_none in El.
    apply El. by apply in_map.
Qed.

Lemma attr_put_names name v attrs :
  map fst (attr_put name v attrs) = match attr_lookup name attrs with Some _ => map fst attrs | None => map fst attrs ++ [name] end.
Proof.
  unfold attr_put. destruct (attr_lookup name attrs); [|by rewrite map_app].
  rewrite map_map. apply map_ext. intros [n x]. simpl. destruct (list_eqb n name) eqn:E; [|done]. by apply list_eqb_eq in E.
Qed.

Lemma attr_put_nodup name v attrs : NoDup (map fst attrs) -> NoDup (map fst (attr_put name v attrs)).
Proof.
  intros H. rewrite attr_put_names. destruct (attr_lookup name attrs) eqn:E; [done|]. apply lookup_none in E.
  apply NoDup_app. split; [done|]. split; [|apply NoDup_singleton]. intros x Hx Hx'. apply list_elem_of_singleton in Hx'. subst.
  apply list_elem_of_In in Hx. done.
Qed.

Lemma attr_del_in name attrs a : In a (attr_del name attrs) -> In a attrs /\ fst a <> name.
Proof.
  intros [H1 H2]%list_elem_of_In%list_elem_of_filter. split; [by apply list_elem_of_In|]. intros E. rewrite E, list_eqb_refl in H1. done.
Qed.

Lemma attr_del_nodup name attrs : NoDup (map fst attrs) -> NoDup (map fst (attr_del name attrs)).
Proof.
  unfold attr_del. induction attrs as [|[n x] attrs IH]; [done|]. simpl. intros [Hn Hnd]%NoDup_cons.
  rewrite filter_cons. case_decide; [|by apply IH]. simpl. apply NoDup_cons. split; [|by apply IH].
  rewrite list_elem_of_In in *. intros (b & Eb & [_ Hb]%list_elem_of_In%list_elem_of_filter)%in_map_iff. apply Hn.
  apply in_map_iff. exists b. split; [done|]. by apply list_elem_of_In.
Qed.

(** What the path holds after its files moved. *)
Lemma holds_moved d d' path name attrs attrs' :
  ea_holds d path attrs -> value_place d path name -> moved d d' path name ->
  NoDup (map fst attrs') -> zlen attrs' <= 65535 ->
  (if zlen attrs' =? 0 then nodes d' !! ea_header d path = None
   else exists m, nodes d' !! ea_header d path = Some (File m (ea_bytes (items_of attrs')))) ->
  (forall a, In a attrs' -> (In a attrs /\ fst a <> name)
    \/ (fst a = name /\ item_name name /\ zlen (snd a) <= UINT32_MAX /\ exists m, nodes d' !! ea_value d path name = Some (File m (snd a)))) ->
  ea_holds d' path attrs'.
Proof.
  intros [P _ Ha _ _ Hv] Hvp Hm Hnd Hc Hh Hin. destruct (moved_place d d' path name P Hvp Hm) as (E & P' & Hvp').
  rewrite Forall_forall in Ha, Hv. constructor; try done.
  - apply Forall_forall. intros a Hi%list_elem_of_In%Hin. destruct Hi as [[Hi Hn]|(Hn & H1 & H2 & _)].
    + apply list_elem_of_In in Hi. destruct (Ha a Hi) as (H1 & H2 & H3). split; [done|]. split; [done|]. by apply Hvp'.
    + unfold attr_ok. rewrite Hn. split; [done|]. split; [done|]. by apply Hvp'.
  - unfold ea_header in *. by rewrite E.
  - apply Forall_forall. intros a Hi%list_elem_of_In%Hin. unfold ea_value in *. rewrite E.
    destruct Hi as [[Hi Hn]|(Hn & _ & _ & Hx)]; [|by rewrite Hn].
    apply list_elem_of_In in Hi. destruct (Hv a Hi) as [m Hf]. exists m. apply (mv_kept _ _ _ _ Hm); [| |done].
    + intros Eq. symmetry in Eq. by apply (header_not_value d path (fst a)) in Eq.
    + intros Eq. by apply (value_inj d path) in Eq.
Qed.

Lemma attr_put_count name v attrs :
  zlen (attr_put name v attrs) = match attr_lookup name attrs with Some _ => zlen attrs | None => zlen attrs + 1 end.
Proof. unfold attr_put. destruct (attr_lookup name attrs); [apply zlen_map|]. by rewrite zlen_app. Qed.

Lemma attr_put_nonempty name v attrs : attr_put name v attrs <> [].
Proof.
  unfold attr_put. destruct (attr_lookup name attrs) eqn:E; [|by destruct attrs]. by destruct attrs.
Qed.

Lemma nonempty_count {A} (l : list A) : l <> [] -> (zlen l =? 0) = false.
Proof. destruct l; [done|]. rewrite zlen_cons. pose proof (zlen_nonneg l). lia. Qed.

(** The place moves with the first of the two files. *)
Lemma touched_place d d1 path name x :
  ea_place d path -> value_place d path name ->
  touched d d1 (holder (sidecar_name d path true)) (ea_value d path name) x ->
  sidecar_name d1 path true = sidecar_name d path true /\ ea_place d1 path.
Proof.
  intros P V T. assert (M : moved d d1 path name).
  { destruct T as [A1 A2 A3 A4 A5]. constructor; try done.
    - intros q n _ Q2 Hq. by apply A2.
    - intros q n _ Q2 Hq. by apply A3.
    - intros m Hq. apply A3 in Hq as [Hq|Hq]; [|symmetry in Hq; by apply holder_not_header in Hq|apply header_not_value].
      destruct P as [_ [_ _ B3]]. by apply B3 in Hq.
    - intros m. destruct x as [data|]; [destruct A1 as [m' ->]|rewrite A1]; done. }
  destruct (moved_place d d1 path name P V M) as (E & P1 & _). done.
Qed.

(** The header saved after the value's file. *)
Lemma save_holds d d1 r path name x attrs attrs' :
  ea_holds d path attrs -> value_place d path name ->
  touched d d1 (holder (sidecar_name d path true)) (ea_value d path name) x ->
  NoDup (map fst attrs') -> zlen attrs' <= 65535 ->
  (forall a, In a attrs' -> (In a attrs /\ fst a <> name)
    \/ (fst a = name /\ item_name name /\ zlen (snd a) <= UINT32_MAX /\ x = Some (snd a))) ->
  exists d2, save_ea_items path (items_of attrs') (d1, r) = (Ok tt, (d2, r)) /\ ea_holds d2 path attrs'
    /\ moved d d2 path name.
Proof.
  intros Hh V T Hnd Hc Hin. pose proof Hh as [P _ Ha _ _ _]. destruct (touched_place d d1 path name _ P V T) as [Es P1].
  assert (Hok : Forall (attr_ok d path) attrs').
  { apply Forall_forall. intros a Hi%list_elem_of_In%Hin. rewrite Forall_forall in Ha. destruct Hi as [[Hi _]|(Hn & H1 & H2 & _)].
    - by apply Ha, list_elem_of_In.
    - split; [by rewrite Hn|]. split; [done|by rewrite Hn]. }
  assert (exists d2, save_ea_items path (items_of attrs') (d1, r) = (Ok tt, (d2, r))
    /\ touched d1 d2 (holder (sidecar_name d1 path true)) (ea_header d1 path)
         (if zlen attrs' =? 0 then None else Some (ea_bytes (items_of attrs')))) as (d2 & E & T2).
  { destruct attrs' as [|a attrs']; [by apply save_none|]. rewrite nonempty_count by done. apply save_some; [done|done|].
    by eapply items_ok. }
  unfold ea_header in T2. rewrite Es in T2. fold (ea_header d path) in T2.
  destruct (touched_moved d d1 d2 path name _ _ T T2) as (M & Hx & Hy). exists d2. split; [done|]. split; [|done].
  apply (holds_moved d d2 path name attrs); try done.
  - by destruct (zlen attrs' =? 0).
  - intros a [Hi|(H1 & H2 & H3 & ->)]%Hin; [by left|by right].
Qed.

Lemma touched_nodes d d1 d2 h p x : nodes d1 = nodes d -> xattrs d1 = xattrs d -> touched d1 d2 h p x -> touched d d2 h p x.
Proof. intros E1 E2 [A1 A2 A3 A4 A5]. rewrite E1, E2 in *. by constructor. Qed.

Lemma set_disk d r path attrs name v :
  ea_holds d path attrs -> zlen attrs <= 1024 -> item_name name -> value_place d path name -> zlen v <= UINT32_MAX ->
  exists d', netatalk_set path name v (d, r) = (Ok tt, (d', r)) /\ ea_holds d' path (attr_put name v attrs)
    /\ moved d d' path name.
Proof.
  intros Hh Hc Hname Hvp Hv. pose proof Hh as [P Hnd Ha _ _ _]. destruct (load_holds d r path attrs Hh) as (d1 & E & E1 & E2).
  unfold netatalk_set. replace (_ >? UINT32_MAX) with false by lia. unfold lbind at 1. rewrite E.
  replace (match (if zlen attrs =? 0 then _ else _) with Ok i => Ok i | Err e => _ end) with (@Ok (list ea_item) (items_of attrs)).
  2: { destruct (zlen attrs =? 0) eqn:E0; bool_to_prop; [by rewrite (zlen_0_inv attrs)|]. by replace (zlen attrs >? 1024) with false by lia. }
  cbv iota. unfold ltry at 1, lbind at 1.
  match goal with |- context [(if has_name ?i ?n then ?a else ?b) (d1, r)] =>
    replace ((if has_name i n then a else b) (d1, r)) with (@Ok unit tt, (d1, r)) by (by destruct (has_name i n)) end.
  cbv iota. pose proof (ea_place_nodes d d1 path E1 P) as P1. pose proof (value_place_nodes d d1 path name E1 Hvp) as V1.
  unfold ltry at 1, lbind at 1. rewrite ea_paths_some by done. cbv beta iota.
  destruct V1 as [Hns B1]. unfold ea_value in B1.
  destruct (write_beside d1 r path (ea_value d1 path name) (str "::EA::" ++ name) v (zlen v =? 0)) as (d2 & mode & d3 & W1 & W2 & W3 & T).
  { done. } { by right. } { by apply value_suffix. } { done. } { done. } { intros H%Z.eqb_eq. by apply zlen_0_inv. }
  unfold ltry at 1, lbind at 1. rewrite W1. cbv iota. unfold ltry at 1, lbind at 1. rewrite W2. cbv iota.
  unfold ltry at 1, lbind at 1. fold (ea_value d1 path name) in W3, T. rewrite W3. cbv iota.
  rewrite u32_small by (unfold UINT32_MAX in Hv; pose proof (zlen_nonneg v); lia). rewrite set_item_attrs by done.
  apply (touched_nodes d) in T; [|done|done]. unfold ea_value in T. rewrite (sidecar_nodes d d1 path E1) in T.
  apply (save_holds d d3 r path name (Some v) attrs); try done.
  - by apply attr_put_nodup.
  - rewrite attr_put_count. destruct (attr_lookup name attrs); lia.
  - intros a Hi%attr_put_in. destruct Hi as [->|Hi]; [right|by left]. done.
Qed.

Lemma attr_del_count name attrs : zlen (attr_del name attrs) <= zlen attrs.
Proof. unfold attr_del, zlen. pose proof (length_filter (fun a => list_eqb (fst a) name = false) attrs). lia. Qed.

Lemma remove_disk d r path attrs name :
  ea_holds d path attrs -> zlen attrs <= 1024 ->
  exists d', netatalk_remove path name (d, r)
    = (match attr_lookup name attrs with Some _ => Ok tt | None => Err (- ENOATTR) end, (d', r))
    /\ ea_holds d' path (attr_del name attrs) /\ others_kept d d' path name.
Proof.
  intros Hh Hc. pose proof Hh as [P Hnd Ha H1 H2 H3]. destruct (load_holds d r path attrs Hh) as (d1 & E & E1 & E2).
  assert (Hno : attr_lookup name attrs = None -> ea_holds d1 path (attr_del name attrs) /\ others_kept d d1 path name).
  { intros Hl. apply lookup_none in Hl. rewrite attr_del_absent by done. split; [by apply (holds_nodes d)|].
    intros q n _ _. by rewrite E1. }
  unfold netatalk_remove. unfold ltry at 1, lbind at 1. rewrite E. destruct (zlen attrs =? 0) eqn:E0; bool_to_prop.
  { assert (Hl : attr_lookup name attrs = None) by (by rewrite (zlen_0_inv attrs E0)). rewrite Hl. exists d1. split; [done|by apply Hno]. }
  replace (zlen attrs >? 1024) with false by lia. cbv iota. rewrite has_items.
  destruct (attr_lookup name attrs) as [v|] eqn:El; cbn [negb]; [|exists d1; split; [done|by apply Hno]].
  pose proof (attr_lookup_in _ _ _ El) as Hi%list_elem_of_In. rewrite Forall_forall in Ha. destruct (Ha _ Hi) as (Hname & _ & Hvp).
  simpl in Hname, Hvp. pose proof (ea_place_nodes d d1 path E1 P) as P1. pose proof (value_place_nodes d d1 path name E1 Hvp) as V1.
  unfold ltry at 1, lbind at 1. rewrite ea_paths_some by done. cbv beta iota. unfold ltry at 1, lbind at 1.
  destruct (unlink_disk d1 r (ea_value d1 path name)) as (d2 & -> & E3 & E4); [apply V1|]. cbv iota. rewrite remove_item_attrs by done.
  pose proof (delete_touched d1 d2 _ _ E3 E4 (holder_not_value d1 path name)) as T. apply (touched_nodes d) in T; [|done|done].
  unfold ea_value in T. rewrite (sidecar_nodes d d1 path E1) in T.
  destruct (save_holds d d2 r path name None attrs (attr_del name attrs)) as (d3 & -> & Hd & Hm); try done.
  - by apply attr_del_nodup.
  - pose proof (attr_del_count name attrs). lia.
  - intros a Hin. left. by apply attr_del_in in Hin.
  - exists d3. split; [done|]. split; [done|]. exact (mv_kept _ _ _ _ Hm).
Qed.

(** ** Listing *)

(** Names one after the other, each ended by a zero byte. *)
Definition joined (names : list (list Z)) : list Z := flat_map (fun n => n ++ [0]) names.

Lemma joined_app a b : joined (a ++ b) = joined a ++ joined b.
Proof. apply flat_map_app. Qed.

Lemma strnlen_app_nul l k n : no_nul l -> zlen l < n -> strnlen (l ++ 0 :: k) n = zlen l.
Proof.
  intros Hl Hn. unfold strnlen. rewrite take_app_ge by (unfold zlen in Hn; lia).
  destruct (Z.to_nat n - length l)%nat eqn:E; [unfold zlen in Hn; lia|]. simpl. by rewrite until_nul_app_nul.
Qed.

Lemma name_in_joined fuel names name :
  Forall no_nul names -> (length names <= fuel)%nat -> name_in fuel (joined names) name = Ok (existsb (fun n => list_eqb n name) names).
Proof.
  revert names. induction fuel as [|fuel IH]; intros [|n names] Hn Hf; [done|simpl in Hf; lia|done|].
  apply Forall_cons in Hn as [Hn Hns].
  assert (E : joined (n :: names) = n ++ 0 :: joined names) by (unfold joined; simpl; by rewrite <- app_assoc).
  rewrite E. cbn [name_in existsb]. destruct (n ++ 0 :: joined names) as [|b l] eqn:El at 1; [by destruct n|]. clear b l El.
  rewrite strnlen_app_nul, until_nul_app_nul by (done || rewrite zlen_app, zlen_cons; pose proof (zlen_nonneg (joined names)); lia).
  replace (zlen n =? _) with false by (rewrite zlen_app, zlen_cons; pose proof (zlen_nonneg (joined names)); lia).
  destruct (list_eqb n name); [done|]. cbn [orb]. rewrite <- (IH names) by (done || simpl in Hf; lia). f_equal.
  replace (n ++ 0 :: joined names) with ((n ++ [0]) ++ joined names) by (by rewrite <- app_assoc).
  apply drop_app_zlen. rewrite length_app. unfold zlen. simpl. lia.
Qed.

Definition shown (attrs : list (list Z * list Z)) : list (list Z) :=
  filter (fun n => metadata_name_filtered (Some n) = false) (map fst attrs).

Lemma joined_long names : (length names <= length (joined names))%nat.
Proof. induction names as [|n names IH]; [done|]. unfold joined in *. simpl. rewrite !length_app. simpl. lia. Qed.

Lemma append_names_disk (s : disk * R) attrs names :
  Forall (fun a => item_name (fst a)) attrs -> Forall no_nul names -> NoDup (names ++ map fst attrs) ->
  append_names (items_of attrs) (joined names) s = (Ok (joined (names ++ shown attrs)), s).
Proof.
  revert names. induction attrs as [|[n v] attrs IH]; intros names Ha Hn Hnd; [simpl; by rewrite app_nil_r|].
  apply Forall_cons in Ha as [(N1 & _ & N3) Ha]. cbn [fst] in N1, N3. unfold shown. cbn [items_of map append_names i_name fst].
  fold (items_of attrs). rewrite filter_cons. destruct (metadata_name_filtered (Some n)) eqn:Ef.
  - rewrite decide_False by done. apply IH; [done|done|]. simpl in Hnd. apply NoDup_app in Hnd as (H1 & H2 & H3). apply NoDup_cons in H3 as [_ H3].
    apply NoDup_app. split; [done|]. split; [|done]. intros x Hx Hx'. apply (H2 x Hx). by right.
  - rewrite decide_True by done. unfold ltry, lbind at 1. unfold append_name. rewrite strnlen_id by (done || unfold SYS_NAME_SIZE; lia).
    change SYS_NAME_SIZE with 261. replace (Z.min 261 (zlen n)) with (zlen n) by lia. replace (zlen n =? 261) with false by lia.
    rewrite name_in_joined by (done || apply joined_long). replace (existsb _ names) with false.
    2: { symmetry. apply not_true_iff_false. intros (m & Hm & ->%list_eqb_eq)%existsb_exists.
         apply NoDup_app in Hnd as (_ & Hd & _). apply (Hd n); [by apply list_elem_of_In|left]. }
    unfold ltry, lbind. destruct s as [d r]. change (alloc (zlen (joined names) + zlen n + 1) (d, r)) with (@Ok unit tt, (d, r)).
    cbv iota. unfold yields, lret. cbv iota.
    replace (joined names ++ n ++ [0]) with (joined (names ++ [n])) by (rewrite joined_app; unfold joined at 2; simpl; by rewrite app_nil_r).
    rewrite IH; [by rewrite <- app_assoc|done| |by rewrite <- app_assoc].
    apply Forall_app. split; [done|]. by constructor.
Qed.

End OnDisk.
