(* ===== verification/Attributes.v ===== *)
(** The attributes of a local file in Netatalk's mode, as the library offers
    them: a list of names and values, and what happens past its limit. *)
From stdpp Require Import gmap.
From S2P Require Import Prelude AfpProtocol Identify Xattr Local Sidecar Metadata SidecarProofs MetadataProofs AttrProofs.
Open Scope local_scope.

(** A name a client may use. *)
Definition usable (name : list Z) : Prop :=
  item_name name /\ no_slash name /\ metadata_name_filtered (Some name) = false.

Lemma usable_valid name : usable name -> metadata_name_valid (Some name) = true.
Proof.
  intros [(N1 & _ & N3) [Hs _]]. unfold metadata_name_valid. rewrite strnlen_id by (done || unfold AFP_XATTR_NAME_MAX; lia).
  unfold AFP_XATTR_NAME_MAX. replace (Z.min (255 + 1) (zlen name)) with (zlen name) by lia.
  rewrite take_ge by (unfold zlen; lia). replace (existsb _ name) with false; [lia|]. symmetry. apply not_true_iff_false.
  intros (b & Hb & E%Z.eqb_eq)%existsb_exists. unfold no_slash in Hs. rewrite Forall_forall in Hs.
  apply (Hs b); [by apply list_elem_of_In|done].
Qed.

Section OnDisk.
Context {R : Type} (remote_answer : forall A, Z -> list Z -> remote A -> R -> A * R).
#[local] Hint Extern 0 (Os (disk * R)) => exact (AttrProofs.here remote_answer) : typeclass_instances.

Definition NETATALK := AFP_METADATA_NETATALK.

(** Each operation after its checks. *)
Lemma list_step d (r : R) path : ea_place d path -> local_metadata_list (Some path) NETATALK (d, r) = netatalk_list path (d, r).
Proof. intros [P _]. unfold local_metadata_list. by rewrite (checked remote_answer d r path true). Qed.

Lemma get_step apple d (r : R) path name : ea_place d path -> usable name ->
  local_metadata_get apple (Some path) NETATALK (Some name) (d, r) = netatalk_get path name (d, r).
Proof.
  intros [P _] Hn. unfold local_metadata_get. rewrite (checked remote_answer d r path true) by done.
  rewrite usable_valid by done. cbn [negb]. by destruct Hn as (_ & _ & ->).
Qed.

Lemma set_step apple d (r : R) path name v : ea_place d path -> usable name ->
  local_metadata_set apple (Some path) NETATALK (Some name) (Some v) (zlen v) (d, r) = netatalk_set path name v (d, r).
Proof.
  intros [P _] Hn. unfold local_metadata_set. rewrite (checked remote_answer d r path true) by done.
  rewrite usable_valid by done. cbn [negb orb]. rewrite bool_decide_true by done. cbn [negb andb]. destruct Hn as (_ & _ & ->).
  change (default [] (Some v)) with v. by rewrite sub_all.
Qed.

Lemma remove_step apple d (r : R) path name : ea_place d path -> usable name ->
  local_metadata_remove apple (Some path) NETATALK (Some name) (d, r) = netatalk_remove path name (d, r).
Proof.
  intros [P _] Hn. unfold local_metadata_remove. rewrite (checked remote_answer d r path true) by done.
  by rewrite usable_valid.
Qed.

Lemma list_disk d (r : R) path attrs :
  ea_holds d path attrs ->
  fst (netatalk_list path (d, r)) = if zlen attrs >? 1024 then Err (- EINVAL) else Ok (joined (shown attrs)).
Proof.
  intros Hh. pose proof Hh as [P Hnd Ha _ _ _]. destruct (load_holds remote_answer d r path attrs Hh) as (d1 & E & _).
  unfold netatalk_list, lbind. rewrite E. destruct (zlen attrs =? 0) eqn:E0; bool_to_prop; [by rewrite (zlen_0_inv attrs)|].
  case_if; [done|]. pose proof (append_names_disk remote_answer (d1, r) attrs []) as Hl.
  change (joined []) with (@nil Z) in Hl. rewrite Hl; [done| |done|done].
  eapply Forall_impl; [exact Ha|]. by intros a [H _].
Qed.

(** C25: In Netatalk's mode the files beside a path are a list of at most 1024
    attributes: a reading answers the value a name has, the listing the names
    that are not the program's own, a write answers 0 and puts the value in its
    place or at the end, a removal takes the attribute away, and the writes
    leave every file of other paths as it was. *)
Theorem netatalk_attributes apple d (r : R) path attrs :
  ea_holds d path attrs -> zlen attrs <= 1024 ->
  fst (local_metadata_list (Some path) NETATALK (d, r)) = Ok (joined (shown attrs))
  /\ (forall name, usable name ->
      fst (local_metadata_get apple (Some path) NETATALK (Some name) (d, r))
      = match attr_lookup name attrs with Some v => Ok v | None => Err (- ENOATTR) end)
  /\ (forall name v, usable name -> value_place d path name -> zlen v <= UINT32_MAX ->
      exists d', local_metadata_set apple (Some path) NETATALK (Some name) (Some v) (zlen v) (d, r) = (Ok tt, (d', r))
        /\ ea_holds d' path (attr_put name v attrs) /\ moved d d' path name)
  /\ (forall name, usable name ->
      exists d', local_metadata_remove apple (Some path) NETATALK (Some name) (d, r)
        = (match attr_lookup name attrs with Some _ => Ok tt | None => Err (- ENOATTR) end, (d', r))
        /\ ea_holds d' path (attr_del name attrs) /\ others_kept d d' path name).
Proof.
  intros Hh Hc. pose proof (eh_place _ _ _ Hh) as P. split; [|split; [|split]].
  - rewrite list_step, (list_disk d r path attrs) by done. by replace (_ >? 1024) with false by lia.
  - intros name Hn. rewrite get_step by done.
    by destruct (get_disk remote_answer d r path attrs name Hh Hc) as (d' & -> & _).
  - intros name v Hn Hv Hl. rewrite set_step by done. apply set_disk; try done. apply Hn.
  - intros name Hn. rewrite remove_step by done. by apply remove_disk.
Qed.

(** A file with 1024 attributes takes one more, with an answer of 0; from
    then on its attributes can be neither listed nor read, set nor removed:
    each answers that the file is invalid. *)
Theorem attribute_limit apple d (r : R) path attrs name v :
  ea_holds d path attrs -> zlen attrs = 1024 -> usable name -> attr_lookup name attrs = None ->
  value_place d path name -> zlen v <= UINT32_MAX ->
  exists d', local_metadata_set apple (Some path) NETATALK (Some name) (Some v) (zlen v) (d, r) = (Ok tt, (d', r))
    /\ fst (local_metadata_list (Some path) NETATALK (d', r)) = Err (- EINVAL)
    /\ forall other w, usable other ->
       fst (local_metadata_get apple (Some path) NETATALK (Some other) (d', r)) = Err (- EINVAL)
       /\ fst (local_metadata_remove apple (Some path) NETATALK (Some other) (d', r)) = Err (- EINVAL)
       /\ (zlen w <= UINT32_MAX ->
           fst (local_metadata_set apple (Some path) NETATALK (Some other) (Some w) (zlen w) (d', r)) = Err (- EINVAL)).
Proof.
  intros Hh Hc Hn Hl Hv Hs. rewrite set_step by (done || apply Hh).
  destruct (set_disk remote_answer d r path attrs name v Hh) as (d' & E & Hh' & _); [lia|apply Hn|done|done|].
  exists d'. split; [done|]. set (attrs' := attr_put name v attrs) in *.
  assert (Hc' : zlen attrs' = 1025) by (unfold attrs'; rewrite attr_put_count, Hl; lia).
  pose proof (eh_place _ _ _ Hh') as P. destruct (load_holds remote_answer d' r path attrs' Hh') as (d1 & El & _).
  rewrite Hc' in El. change (1025 =? 0) with false in El. change (1025 >? 1024) with true in El. cbv iota in El.
  split; [rewrite list_step, (list_disk d' r path attrs') by done; by rewrite Hc'|].
  intros other w Ho. rewrite get_step, remove_step, set_step by done. split; [|split].
  - unfold netatalk_get, ltry, lbind. by rewrite El.
  - unfold netatalk_remove, ltry, lbind. by rewrite El.
  - intros Hw. unfold netatalk_set, lbind. replace (_ >? UINT32_MAX) with false by lia. by rewrite El.
Qed.

End OnDisk.

(** ** A disk with many attributes *)

#[export] Instance beside_dec d p : Decision (beside d p).
Proof.
  assert (E : beside d p <-> zlen p < PATH_MAX /\ zlen (base_name p) <= NAME_MAX
                /\ match nodes d !! p with Some (Folder _) => false | _ => true end = true).
  { split.
    - intros [H1 H2 H3]. split; [done|]. split; [done|]. destruct (nodes d !! p) as [[m|m x]|] eqn:E; [by destruct (H3 m)|done|done].
    - intros (H1 & H2 & H3). constructor; [done|done|]. intros m E. by rewrite E in H3. }
  refine (cast_if (decide (zlen p < PATH_MAX /\ zlen (base_name p) <= NAME_MAX
                /\ match nodes d !! p with Some (Folder _) => false | _ => true end = true))).
  - by apply E.
  - intros Hb. by apply E in Hb.
Defined.

#[export] Instance value_place_dec d path name : Decision (value_place d path name).
Proof. unfold value_place, no_slash. apply _. Defined.

Lemma fill {R} (remote_answer : forall A, Z -> list Z -> remote A -> R -> A * R) d (r : R) path names attrs :
  ea_holds d path attrs -> NoDup (map fst attrs ++ names) -> zlen attrs + zlen names <= 1024 ->
  Forall (fun n => item_name n /\ value_place d path n) names ->
  exists d', ea_holds d' path (attrs ++ map (fun n => (n, [])) names)
    /\ forall n, value_place d path n -> value_place d' path n.
Proof.
  revert d attrs. induction names as [|n names IH]; intros d attrs Hh Hnd Hc Hn; [exists d; simpl; by rewrite app_nil_r|].
  apply Forall_cons in Hn as [[Hi Hv] Hn]. rewrite zlen_cons in Hc. pose proof (zlen_nonneg names).
  destruct (set_disk remote_answer d r path attrs n [] Hh) as (d1 & _ & Hh1 & M); [lia|done|done|vm_compute; discriminate|].
  destruct (moved_place d d1 path n (eh_place _ _ _ Hh) Hv M) as (_ & _ & Hk).
  assert (Hl : attr_lookup n attrs = None).
  { apply lookup_none. intros Hin. apply NoDup_app in Hnd as (_ & Hd & _). apply (Hd n); [by apply list_elem_of_In|left]. }
  unfold attr_put in Hh1. rewrite Hl in Hh1.
  destruct (IH d1 (attrs ++ [(n, [])]) Hh1) as (d2 & Hh2 & Hk2).
  - rewrite map_app, <- app_assoc. exact Hnd.
  - rewrite zlen_app. change (zlen [(n, @nil Z)]) with 1. lia.
  - eapply Forall_impl; [exact Hn|]. intros x [H1 H2]. split; [done|by apply Hk].
  - exists d2. split; [by rewrite <- app_assoc in Hh2|]. intros x Hx. by apply Hk2, Hk.
Qed.

Lemma home_attrs : ea_holds home (str "/h/f") [].
Proof.
  constructor; try done; [|constructor]. constructor; [apply home_place|]. apply (bool_decide_unpack _). vm_compute. exact I.
Qed.

(** Names of two letters. *)
Definition pair_name (i : Z) : list Z := [97 + i / 32; 97 + i mod 32].

Lemma pair_name_inj i j : pair_name i = pair_name j -> i = j.
Proof. intros [= H1 H2]. pose proof (Z.div_mod i 32). pose proof (Z.div_mod j 32). lia. Qed.

Definition two_letters : list (list Z) := map pair_name (seqZ 0 1024).

Lemma many_attributes :
  exists d, ea_holds d (str "/h/f") (map (fun n => (n, [])) two_letters) /\ value_place d (str "/h/f") (str "last").
Proof.
  destruct (fill nothing_remote home tt (str "/h/f") two_letters [] home_attrs) as (d & Hh & Hk).
  - apply NoDup_fmap; [exact pair_name_inj|apply NoDup_seqZ].
  - vm_compute. discriminate.
  - apply (bool_decide_unpack _). vm_compute. exact I.
  - exists d. split; [exact Hh|]. apply Hk. apply (bool_decide_unpack _). vm_compute. exact I.
Qed.

Lemma usable_last : usable (str "last").
Proof. split; [|split]; [apply (bool_decide_unpack _); vm_compute; exact I..|reflexivity]. Qed.

Lemma netatalk_attributes_witness :
  fst (local_metadata_list (H := AttrProofs.here nothing_remote) (Some (str "/h/f")) NETATALK (home, tt)) = Ok []
  /\ exists d', local_metadata_set (H := AttrProofs.here nothing_remote) false (Some (str "/h/f")) NETATALK (Some (str "last"))
       (Some (str "xyz")) 3 (home, tt) = (Ok tt, (d', tt)) /\ ea_holds d' (str "/h/f") [(str "last", str "xyz")].
Proof.
  destruct (netatalk_attributes nothing_remote false home tt (str "/h/f") [] home_attrs) as (H1 & _ & H2 & _).
  - vm_compute. discriminate.
  - split; [exact H1|]. destruct (H2 (str "last") (str "xyz") usable_last) as (d' & E & Hh & _).
    + apply (bool_decide_unpack _). vm_compute. exact I.
    + vm_compute. discriminate.
    + exists d'. split; [exact E|exact Hh].
Defined.

Lemma attribute_limit_witness :
  exists d d', local_metadata_set (H := AttrProofs.here nothing_remote) false (Some (str "/h/f")) NETATALK (Some (str "last"))
       (Some []) 0 (d, tt) = (Ok tt, (d', tt))
    /\ fst (local_metadata_list (H := AttrProofs.here nothing_remote) (Some (str "/h/f")) NETATALK (d', tt)) = Err (- EINVAL).
Proof.
  destruct many_attributes as (d & Hh & Hv). exists d.
  destruct (attribute_limit nothing_remote false d tt (str "/h/f") _ (str "last") [] Hh) as (d' & E & H1 & _).
  - vm_compute. reflexivity.
  - apply usable_last.
  - vm_compute. reflexivity.
  - exact Hv.
  - vm_compute. discriminate.
  - exists d'. split; [exact E|exact H1].
Defined.
