(* ===== verification/Ipc.v ===== *)
(** The protocol between the library of the stateless client and its daemon:
    the structures of src/daemon/stateless_ipc.h as bytes, the daemon's framing
    of src/daemon/daemon_client.c and src/daemon/commands.c (process_command),
    its log of src/daemon/daemon.c, and the library's reading of answers
    (src/daemon/stateless.c).

    Structures are laid out as on a 64-bit little-endian machine: members at
    their offsets, padding as zeros. *)
From stdpp Require Import gmap.
From S2P Require Import Prelude AfpProtocol.

(** ** Errno values *)

Definition ENODEV : Z := 19.
Definition EPROTO : Z := 71.
Definition ECONNRESET : Z := 104.
Definition ENOTCONN : Z := 107.
Definition ECONNREFUSED : Z := 111.
Definition EHOSTUNREACH : Z := 113.
Definition ESTALE : Z := 116.

(** ** Little-endian members *)

Definition le_put (n : nat) (v : Z) : list Z := rev (be_put n v).
Definition le_at (l : list Z) (off n : Z) : Z := be_get (rev (sub off n l)).

(** A char member read as a number. *)
Definition i8 (z : Z) : Z := (z + 128) mod 256 - 128.

(** ** Constants *)

Definition AFP_MAX_UTF8_PATH_STORAGE : Z := UINT16_MAX + 1.
Definition AFPSL_IPC_MAX_REQUEST : Z := 2 * AFP_MAX_UTF8_PATH_STORAGE + 4096.
Definition AFPSL_IPC_MAX_RESPONSE : Z := UINT16_MAX + 1024.
Definition AFPSL_IPC_PROTOCOL_MAGIC : Z := 0x41465053.
Definition AFPSL_IPC_PROTOCOL_MAJOR : Z := 3.
Definition AFPSL_IPC_PROTOCOL_MINOR : Z := 0.
Definition AFPSL_IPC_LOG_MAGIC : Z := 0x4146504c.
Definition AFPSL_IPC_LOG_BUFFER_SIZE : Z := 4096.

Definition AFPSL_IPC_COMMAND_READDIR : Z := 19.
Definition AFPSL_IPC_COMMAND_STAT : Z := 21.
Definition AFPSL_IPC_COMMAND_OPEN : Z := 22.
Definition AFPSL_IPC_COMMAND_READ : Z := 23.
Definition AFPSL_IPC_COMMAND_CLOSE : Z := 24.
Definition AFPSL_IPC_COMMAND_GET_MOUNTPOINT : Z := 26.
Definition AFPSL_IPC_COMMAND_WRITE : Z := 27.
Definition AFPSL_IPC_COMMAND_CREAT : Z := 28.
Definition AFPSL_IPC_COMMAND_CHMOD : Z := 29.
Definition AFPSL_IPC_COMMAND_RENAME : Z := 30.
Definition AFPSL_IPC_COMMAND_UNLINK : Z := 31.
Definition AFPSL_IPC_COMMAND_TRUNCATE : Z := 32.
Definition AFPSL_IPC_COMMAND_MKDIR : Z := 33.
Definition AFPSL_IPC_COMMAND_RMDIR : Z := 34.
Definition AFPSL_IPC_COMMAND_STATFS : Z := 35.
Definition AFPSL_IPC_COMMAND_UTIME : Z := 36.
Definition AFPSL_IPC_COMMAND_GETXATTR : Z := 39.
Definition AFPSL_IPC_COMMAND_SETXATTR : Z := 40.
Definition AFPSL_IPC_COMMAND_LISTXATTR : Z := 41.
Definition AFPSL_IPC_COMMAND_REMOVEXATTR : Z := 42.
Definition AFPSL_IPC_COMMAND_GETFINDERINFO : Z := 43.
Definition AFPSL_IPC_COMMAND_SETFINDERINFO : Z := 44.
Definition AFPSL_IPC_COMMAND_REMOVEFINDERINFO : Z := 45.
Definition AFPSL_IPC_COMMAND_GETRESOURCEFORK : Z := 46.
Definition AFPSL_IPC_COMMAND_SETRESOURCEFORK : Z := 47.
Definition AFPSL_IPC_COMMAND_REMOVERESOURCEFORK : Z := 48.
Definition AFPSL_IPC_COMMAND_TRUNCATERESOURCEFORK : Z := 49.
Definition AFPSL_IPC_COMMAND_HELLO : Z := 50.
Definition AFPSL_IPC_COMMAND_DESKTOP_GET_COMMENT : Z := 51.
Definition AFPSL_IPC_COMMAND_DESKTOP_SET_COMMENT : Z := 55.

Definition AFPSL_IPC_RESULT_OK : Z := 0.
Definition AFPSL_IPC_RESULT_ERROR : Z := 1.
Definition AFPSL_IPC_RESULT_ENOENT : Z := 4.
Definition AFPSL_IPC_RESULT_NOTCONNECTED : Z := 5.
Definition AFPSL_IPC_RESULT_NOTATTACHED : Z := 6.
Definition AFPSL_IPC_RESULT_ALREADY_CONNECTED : Z := 7.
Definition AFPSL_IPC_RESULT_ALREADY_ATTACHED : Z := 8.
Definition AFPSL_IPC_RESULT_NOAUTHENT : Z := 9.
Definition AFPSL_IPC_RESULT_NOVOLUME : Z := 14.
Definition AFPSL_IPC_RESULT_ALREADY_MOUNTED : Z := 15.
Definition AFPSL_IPC_RESULT_VOLPASS_NEEDED : Z := 16.
Definition AFPSL_IPC_RESULT_MOUNTPOINT_NOEXIST : Z := 17.
Definition AFPSL_IPC_RESULT_NOSERVER : Z := 18.
Definition AFPSL_IPC_RESULT_MOUNTPOINT_PERM : Z := 19.
Definition AFPSL_IPC_RESULT_TIMEDOUT : Z := 20.
Definition AFPSL_IPC_RESULT_DAEMON_ERROR : Z := 21.
Definition AFPSL_IPC_RESULT_NOTSUPPORTED : Z := 22.
Definition AFPSL_IPC_RESULT_ACCESS : Z := 23.
Definition AFPSL_IPC_RESULT_EXIST : Z := 24.
Definition AFPSL_IPC_RESULT_ENOTEMPTY : Z := 25.

(** ** Headers *)

Definition REQUEST_HEADER : Z := 12.
Definition RESPONSE_HEADER : Z := 8.

Definition afpsl_ipc_request_header (command len close : Z) : list Z :=
  [u8 command; 0; 0; 0] ++ le_put 4 len ++ le_put 4 close.
Definition afpsl_ipc_response_header (result len : Z) : list Z := [u8 result; 0; 0; 0] ++ le_put 4 len.

Definition req_command (packet : list Z) : Z := le_at packet 0 1.
Definition req_len (packet : list Z) : Z := le_at packet 4 4.
Definition req_close (packet : list Z) : Z := le_at packet 8 4.
Definition resp_result (answer : list Z) : Z := i8 (le_at answer 0 1).
Definition resp_len (answer : list Z) : Z := le_at answer 4 4.

(** ** Pieces of a stream *)

(** One read of at most [want] of the bytes [avail], as the schedule says: a
    positive entry bounds the piece, another interrupts the read, and past its
    end reads are as long as they can be. *)
Inductive got : Set := Piece (p : list Z) | Interrupted | Ended.

Definition read_piece (want : Z) (avail sched : list Z) : got * list Z * list Z :=
  match avail with
  | [] => (Ended, [], sched)
  | _ =>
      let n := Z.min want (zlen avail) in
      match sched with
      | [] => (Piece (take (Z.to_nat n) avail), drop (Z.to_nat n) avail, [])
      | k :: sched =>
          if k <=? 0 then (Interrupted, avail, sched)
          else let n := Z.min k n in (Piece (take (Z.to_nat n) avail), drop (Z.to_nat n) avail, sched)
      end
  end.

(** ** The daemon's side *)

(** struct daemon_client: its socket, the bytes that arrived on it, is apart. *)
Record client := Client {
  incoming_header : list Z;
  complete_packet : option (list Z);
  ipc_ready : bool;
  outgoing_string : list Z }.

Definition set_header (h : list Z) (c : client) : client := Client h (complete_packet c) (ipc_ready c) (outgoing_string c).
Definition set_packet (p : list Z) (c : client) : client := Client (incoming_header c) (Some p) (ipc_ready c) (outgoing_string c).
Definition reset_client_request (c : client) : client := Client [] None (ipc_ready c) (outgoing_string c).
Definition set_ready (b : bool) (c : client) : client := Client (incoming_header c) (complete_packet c) b (outgoing_string c).
Definition set_log (l : list Z) (c : client) : client := Client (incoming_header c) (complete_packet c) (ipc_ready c) l.

(** What a reading step answers: the return value, the client, what is left on
    the socket and of its schedule. *)
Definition reading : Type := Z * client * list Z * list Z.

(** The body of a packet whose header is there. *)
Definition read_body (c : client) (packet avail sched : list Z) : reading :=
  let len := req_len packet in
  if zlen packet <? len then
    match read_piece (len - zlen packet) avail sched with
    | (Ended, avail, sched) => (-1, c, avail, sched)
    | (Interrupted, avail, sched) => (2, c, avail, sched)
    | (Piece p, avail, sched) =>
        let packet := packet ++ p in
        (if zlen packet <? len then 2 else 0, set_packet packet c, avail, sched)
    end
  else (0, c, avail, sched).

(** One call for a readable socket: 2 for more to come, -1 for a connection to
    close, 0 once the packet is whole and its thread runs. *)
Definition process_command (heap : Z -> bool) (c : client) (avail sched : list Z) : reading :=
  match complete_packet c with
  | Some packet => read_body c packet avail sched
  | None =>
      match read_piece (REQUEST_HEADER - zlen (incoming_header c)) avail sched with
      | (Ended, avail, sched) => (-1, c, avail, sched)
      | (Interrupted, avail, sched) => (2, c, avail, sched)
      | (Piece p, avail, sched) =>
          let h := incoming_header c ++ p in
          let c := set_header h c in
          if zlen h <? REQUEST_HEADER then (2, c, avail, sched)
          else if (req_len h <? REQUEST_HEADER) || (req_len h >? AFPSL_IPC_MAX_REQUEST) then (-1, c, avail, sched)
          else if negb (heap (req_len h)) then (-1, c, avail, sched)
          else read_body (set_packet h c) h avail sched
      end
  end.

(** The calls for one packet: the packet, or [None] for a closed connection. *)
Fixpoint read_request (fuel : nat) (heap : Z -> bool) (c : client) (avail sched : list Z)
    : option (list Z) * client * list Z * list Z :=
  match fuel with
  | O => (None, c, avail, sched)
  | S fuel =>
      match process_command heap c avail sched with
      | (r, c, avail, sched) =>
          if r =? 0 then (complete_packet c, c, avail, sched)
          else if r =? 2 then read_request fuel heap c avail sched
          else (None, c, avail, sched)
      end
  end.

(** A message for the client's log. *)
Definition afpsl_ipc_log_record (level message_len : Z) : list Z := le_put 4 level ++ le_put 4 message_len.
Definition LOG_RECORD : Z := 8.

Definition daemon_log_for_client (log : list Z) (level : Z) (message : list Z) : list Z :=
  let log := if zlen log >=? AFPSL_IPC_LOG_BUFFER_SIZE then [] else log in
  let available := AFPSL_IPC_LOG_BUFFER_SIZE - zlen log in
  let message_len := Z.min (strlen message) UINT32_MAX in
  if available >? LOG_RECORD then
    let message_len := if message_len >? available - LOG_RECORD then available - LOG_RECORD else message_len in
    log ++ afpsl_ipc_log_record level message_len ++ take (Z.to_nat message_len) message
  else log.

Definition afpsl_ipc_log_footer (log_len : Z) : list Z := le_put 4 AFPSL_IPC_LOG_MAGIC ++ le_put 4 log_len.
Definition LOG_FOOTER : Z := 8.

(** The bytes written for an answer [data]; the loop around write is the
    socket's. *)
Definition send_command (heap : Z -> bool) (c : client) (data : list Z) : option (list Z) :=
  let len := zlen data in
  let log := outgoing_string c in
  if len <? RESPONSE_HEADER then None
  else if (zlen log >? AFPSL_IPC_LOG_BUFFER_SIZE) || (len >? UINT32_MAX - zlen log - LOG_FOOTER) then None
  else
    let response_len := len + zlen log + LOG_FOOTER in
    if negb (heap response_len) then None
    else Some (store (data ++ log ++ afpsl_ipc_log_footer (zlen log)) 4 (le_put 4 response_len)).

(** ** The library's side *)

(** How much of an answer is before its log. *)
Definition afp_sl_response_content_length (response : list Z) : option Z :=
  let len := zlen response in
  if len <? LOG_FOOTER then None
  else
    let magic := le_at response (len - LOG_FOOTER) 4 in
    let log_len := le_at response (len - LOG_FOOTER + 4) 4 in
    if negb (magic =? AFPSL_IPC_LOG_MAGIC) || (log_len >? AFPSL_IPC_LOG_BUFFER_SIZE) || (log_len >? len - LOG_FOOTER)
    then None
    else Some (len - LOG_FOOTER - log_len).

(** The records of a log, and whether it is one. *)
Fixpoint dispatch_records (fuel : nat) (rest : list Z) : list (Z * list Z) * bool :=
  match fuel, rest with
  | _, [] => ([], true)
  | O, _ => ([], false)
  | S fuel, _ =>
      if zlen rest <? LOG_RECORD then ([], false)
      else
        let level := i32 (le_at rest 0 4) in
        let message_len := le_at rest 4 4 in
        let rest := drop (Z.to_nat LOG_RECORD) rest in
        if (message_len >? AFPSL_IPC_LOG_BUFFER_SIZE) || (message_len >? zlen rest) then ([], false)
        else
          let (records, ok) := dispatch_records fuel (drop (Z.to_nat message_len) rest) in
          ((level, until_nul (take (Z.to_nat message_len) rest)) :: records, ok)
  end.

Definition afp_sl_dispatch_response_logs (response : list Z) : list (Z * list Z) * bool :=
  match afp_sl_response_content_length response with
  | None => ([], false)
  | Some content_len =>
      let log := sub content_len (zlen response - LOG_FOOTER - content_len) response in
      dispatch_records (length log) log
  end.
