(* ===== verification/Daemon.v ===== *)
(** The handlers of afpsld, the stateless daemon (src/daemon/commands.c): the
    table of open files, the checks of a request's lengths, the operation of
    the library each one calls, and the answer.

    A request is the memory [mem] behind the client's complete packet, of which
    [size] bytes are the packet: a handler that looks past them sees whatever is
    there. *)
From stdpp Require Import gmap.
From S2P Require Import Prelude AfpProtocol Identify Uams Local Sidecar Dates ReplyBlock Listing World DidCache ForkList LowLevel Resource Midlevel Xattr Ipc.
Local Open Scope afp_scope.

Definition MAX_OPEN_FILES : Z := 1024.
Definition AFP_SL_DESKTOP_COMMENT_MAX : Z := 255.
Definition AFP_SL_DESKTOP_COMMENT_AFP2_MAX : Z := 199.
Definition AFP_SL_DESKTOP_COMMENT_MISSING : Z := ENOATTR.

(** The structures of the system in an answer, as their bytes. *)
Class Platform := {
  stat_bytes : stat -> list Z;
  stat_of : list Z -> stat;
  statvfs_bytes : statvfs -> list Z;
  statvfs_of : list Z -> statvfs }.

(** ** The daemon's state *)

(** An attached volume, and whether its server is connected. *)
Record attached := Attached { a_config : config; a_volume : volume; a_connected : bool }.

Record daemon (E : Type) := Daemon {
  file_handle_table : gmap Z (Z * Z);      (* handle to record and volume *)
  volumes : gmap Z attached;               (* by their pointers *)
  denv : E;
  payload : list Z;                        (* what else arrived on the client's socket *)
  payload_sched : list Z }.
Arguments Daemon {E}.
Arguments file_handle_table {E}.
Arguments volumes {E}.
Arguments denv {E}.
Arguments payload {E}.
Arguments payload_sched {E}.

(** What a handler did with the client: an answer sent, then the connection
    closed or kept; a refusal, which closes it; an answer it could not build;
    an access outside its allocations; or a listing with more pages than the
    bound of the model. *)
Inductive outcome : Set :=
| Answer (content : list Z) (close : bool)
| Refuse (code : Z)
| Drop
| Undefined
| Unfinished.

Definition D (E A : Type) : Type := daemon E -> A * daemon E.
Definition dret {E A} (a : A) : D E A := fun d => (a, d).
Definition dbind {E A B} (m : D E A) (k : A -> D E B) : D E B := fun d => let (a, d') := m d in k a d'.

Notation "'let+' x ':=' m 'in' k" := (dbind m (fun x => k))
  (at level 10, x pattern, m at level 100, k at level 200) : afp_scope.
Notation "m ';;+' k" := (dbind m (fun _ => k)) (at level 60, right associativity) : afp_scope.

Definition set_table {E} (t : gmap Z (Z * Z)) (d : daemon E) : daemon E := Daemon t (volumes d) (denv d) (payload d) (payload_sched d).
Definition set_payload {E} (p s : list Z) (d : daemon E) : daemon E := Daemon (file_handle_table d) (volumes d) (denv d) p s.
Definition set_world {E} (id : Z) (a : attached) (w : volume * E) (d : daemon E) : daemon E :=
  Daemon (file_handle_table d) (<[id := Attached (a_config a) (fst w) (a_connected a)]> (volumes d)) (snd w) (payload d) (payload_sched d).

Section Handlers.
Context {E : Type} `{Env E} `{Platform}.

(** What is in memory that nothing has set. *)
Context (stale : list Z).

Definition stale_bytes (n : Z) : list Z := take (Z.to_nat n) (stale ++ zero_bytes n).

(** An operation on the volume [id], which is [a]. *)
Definition on_volume {A} (id : Z) (a : attached) (m : config -> M E A) : D E A := fun d =>
  let a := default a (volumes d !! id) in
  let (x, w) := m (a_config a) (a_volume a, denv d) in (x, set_world id a w d).

Definition dalloc (n : Z) : D E bool := fun d =>
  let (b, e) := handle (Malloc n) (denv d) in
  (b, Daemon (file_handle_table d) (volumes d) e (payload d) (payload_sched d)).

(** ** Handles *)

Fixpoint free_slot (fuel : nat) (i : Z) (t : gmap Z (Z * Z)) : Z :=
  match fuel with
  | O => 0
  | S fuel => match t !! i with None => i | Some _ => free_slot fuel (i + 1) t end
  end.

(** The handle, or 0 when every slot is taken. *)
Definition register_file_handle (fp volume : Z) : D E Z := fun d =>
  let i := free_slot (Z.to_nat (MAX_OPEN_FILES - 1)) 1 (file_handle_table d) in
  (i, if i =? 0 then d else set_table (<[i := (fp, volume)]> (file_handle_table d)) d).

Definition is_pseudo_file (f : afp_file_info) : bool :=
  negb (fi_resource f =? AFP_META_NONE) && negb (fi_resource f =? AFP_META_RESOURCE).

Definition fork_is_listed (v : volume) (fp : Z) : bool := existsb (Z.eqb fp) (open_forks v).

Definition get_file_handle (id vol : Z) (take_it : bool) : D E (option Z) := fun d =>
  if (id <=? 0) || (id >=? MAX_OPEN_FILES) then (None, d)
  else
    let fp := match file_handle_table d !! id with
              | None => None
              | Some (fp, volume) =>
                  let v := a_volume <$> volumes d !! vol in
                  if negb (volume =? vol)
                     || (negb (is_pseudo_file (default null_fork (v ≫= fun v => forks v !! fp)))
                         && negb (default false ((fun v => fork_is_listed v fp) <$> v)))
                  then None else Some fp
              end in
    match fp with
    | Some p => (Some p, if take_it then set_table (delete id (file_handle_table d)) d else d)
    | None => (None, d)
    end.

(** The pseudo-files among a volume's handles are the table's to free. *)
Definition release_volume_handles (id : Z) : D E unit := fun d =>
  let mine := filter (fun s => snd (snd s) = id) (map_to_list (file_handle_table d)) in
  let v := a_volume <$> volumes d !! id in
  let freed := filter (fun p => is_pseudo_file (default null_fork (v ≫= fun v => forks v !! p)) = true) (map (fun s => fst (snd s)) mine) in
  let table := filter (fun s => snd (snd s) <> id) (file_handle_table d) in
  (tt, set_table table
         match volumes d !! id with
         | None => d
         | Some a => set_world id a (set_forks (foldr delete (forks (a_volume a)) freed) (a_volume a), denv d) d
         end).

(** ** Requests with a path *)

Definition close_asked (mem : list Z) : bool := negb (req_close mem =? 0).
Definition volumeid (mem : list Z) : Z := le_at mem 16 8.

(** The path of a request whose structure has [sizeof] bytes and its path at
    [off], the path's length before it. *)
Definition request_path (size : Z) (mem : list Z) (sizeof off : Z) : option (list Z) :=
  if size <? sizeof then None
  else
    let path_len := le_at mem (off - 4) 4 in
    let request_len := sizeof + path_len + 1 in
    if (path_len >=? AFP_MAX_UTF8_PATH_STORAGE) || negb (request_len =? size) || negb (req_len mem =? request_len)
       || negb (byte_at mem (off + path_len) =? 0)
    then None else Some (until_nul (drop (Z.to_nat off) mem)).

(** The volume a request names, if its server is connected. *)
Definition with_volume (mem : list Z) (fail : Z -> D E outcome) (missing : Z) (k : Z -> attached -> D E outcome) : D E outcome := fun d =>
  match volumes d !! volumeid mem with
  | None => fail missing d
  | Some a => if negb (a_connected a) then fail AFPSL_IPC_RESULT_NOTCONNECTED d else k (volumeid mem) a d
  end.

(** The result for an errno: the ones listed, and an error for the others. *)
Definition result_of (table : list (Z * Z)) (ret : Z) : Z :=
  if ret <? 0 then
    match find (fun p => fst p =? ret) table with Some p => snd p | None => AFPSL_IPC_RESULT_ERROR end
  else AFPSL_IPC_RESULT_OK.

(** An answer that is its header and [body]. *)
Definition answer (mem : list Z) (result : Z) (body : list Z) : outcome :=
  Answer (afpsl_ipc_response_header result (RESPONSE_HEADER + zlen body) ++ body) (close_asked mem).

(** Most of the handlers: the operation [m] on the path, its errno to a result,
    an answer of a header. *)
Definition process_path (size : Z) (mem : list Z) (sizeof off : Z) (table : list (Z * Z))
    (m : config -> list Z -> M E Z) : D E outcome :=
  let done r := dret (answer mem r []) in
  match request_path size mem sizeof off with
  | None => done AFPSL_IPC_RESULT_ERROR
  | Some path =>
      with_volume mem done AFPSL_IPC_RESULT_NOTATTACHED (fun id a =>
      let+ r := on_volume id a (fun cf => m cf path) in done (result_of table r))
  end.

Definition process_creat (size : Z) (mem : list Z) : D E outcome :=
  process_path size mem 32 32 [(- EEXIST, AFPSL_IPC_RESULT_EXIST); (- EACCES, AFPSL_IPC_RESULT_ACCESS)]
    (fun cf path =>
     let mode := le_at mem 24 4 in
     let! c := ml_creat cf path in
     let (r, created) := c : Z * bool in
     (if (r =? 0) && created then ml_set_created_mode cf path mode else ret tt) ;;! ret r).

Definition process_chmod (size : Z) (mem : list Z) : D E outcome :=
  process_path size mem 32 32
    [(- ENOENT, AFPSL_IPC_RESULT_ENOENT); (- EACCES, AFPSL_IPC_RESULT_ACCESS); (- EPERM, AFPSL_IPC_RESULT_ACCESS);
     (- ENOSYS, AFPSL_IPC_RESULT_NOTSUPPORTED); (- EOPNOTSUPP, AFPSL_IPC_RESULT_NOTSUPPORTED)]
    (fun cf path => ml_chmod cf path (le_at mem 24 4)).

Definition process_unlink (size : Z) (mem : list Z) : D E outcome :=
  process_path size mem 32 28
    [(- ENOENT, AFPSL_IPC_RESULT_ENOENT); (- EACCES, AFPSL_IPC_RESULT_ACCESS); (- EPERM, AFPSL_IPC_RESULT_ACCESS)]
    (fun cf path => ml_unlink cf path).

(** The offset goes to an off_t. *)
Definition process_truncate (size : Z) (mem : list Z) : D E outcome :=
  process_path size mem 40 36 [(- ENOENT, AFPSL_IPC_RESULT_ENOENT); (- EACCES, AFPSL_IPC_RESULT_ACCESS)]
    (fun cf path => ml_truncate cf path (i64 (le_at mem 24 8))).

Definition process_utime (size : Z) (mem : list Z) : D E outcome :=
  process_path size mem 48 44 [(- ENOENT, AFPSL_IPC_RESULT_ENOENT); (- EACCES, AFPSL_IPC_RESULT_ACCESS)]
    (fun cf path => ml_utime cf path (i64 (le_at mem 32 8))).

Definition process_mkdir (size : Z) (mem : list Z) : D E outcome :=
  process_path size mem 32 32
    [(- EEXIST, AFPSL_IPC_RESULT_EXIST); (- EACCES, AFPSL_IPC_RESULT_ACCESS); (- ENOENT, AFPSL_IPC_RESULT_ENOENT)]
    (fun cf path => ml_mkdir cf path (le_at mem 24 4)).

Definition process_rmdir (size : Z) (mem : list Z) : D E outcome :=
  process_path size mem 32 28
    [(- ENOENT, AFPSL_IPC_RESULT_ENOENT); (- EACCES, AFPSL_IPC_RESULT_ACCESS); (- ENOTEMPTY, AFPSL_IPC_RESULT_ENOTEMPTY)]
    (fun cf path => ml_rmdir cf path).

Definition process_rename (size : Z) (mem : list Z) : D E outcome :=
  let done r := dret (answer mem r []) in
  if size <? 32 then done AFPSL_IPC_RESULT_ERROR
  else
    let from_len := le_at mem 24 4 in
    let to_len := le_at mem 28 4 in
    let request_len := 32 + from_len + 1 + to_len + 1 in
    if (from_len >=? AFP_MAX_UTF8_PATH_STORAGE) || (to_len >=? AFP_MAX_UTF8_PATH_STORAGE)
       || negb (request_len =? size) || negb (req_len mem =? request_len)
       || negb (byte_at mem (32 + from_len) =? 0) || negb (byte_at mem (32 + u32 (from_len + 1 + to_len)) =? 0)
    then done AFPSL_IPC_RESULT_ERROR
    else
      with_volume mem done AFPSL_IPC_RESULT_NOTATTACHED (fun id a =>
      let+ r := on_volume id a (fun cf => ml_rename cf (until_nul (drop (Z.to_nat 32) mem))
                                     (until_nul (drop (Z.to_nat (32 + from_len + 1)) mem))) in
      done (result_of [] r)).

(** The attributes go out as the structure is, set or not. *)
Definition process_stat (size : Z) (mem : list Z) : D E outcome :=
  let fail r := dret (answer mem r (stale_bytes (zlen (stat_bytes zero_stat)))) in
  match request_path size mem 32 28 with
  | None => fail AFPSL_IPC_RESULT_ERROR
  | Some path =>
      with_volume mem fail AFPSL_IPC_RESULT_NOTATTACHED (fun id a =>
      let+ (r, s) := on_volume id a (fun cf => ml_getattr cf path) in
      if r <? 0 then fail (result_of [(- ENOENT, AFPSL_IPC_RESULT_ENOENT); (- EACCES, AFPSL_IPC_RESULT_ACCESS)] r)
      else dret (answer mem AFPSL_IPC_RESULT_OK (stat_bytes s)))
  end.

Definition zero_statvfs : statvfs := Statvfs 0 0 0 0 0 0.

Definition process_statfs (size : Z) (mem : list Z) : D E outcome :=
  let fail r := dret (answer mem r (statvfs_bytes zero_statvfs)) in
  match request_path size mem 32 28 with
  | None => fail AFPSL_IPC_RESULT_ERROR
  | Some path =>
      with_volume mem fail AFPSL_IPC_RESULT_NOTATTACHED (fun id a =>
      let+ (r, s) := on_volume id a (fun cf => ml_statfs cf) in
      if r <? 0 then fail (result_of [(- ENOENT, AFPSL_IPC_RESULT_ENOENT); (- EACCES, AFPSL_IPC_RESULT_ACCESS)] r)
      else dret (answer mem AFPSL_IPC_RESULT_OK (statvfs_bytes s)))
  end.

(** ** Open files *)

Definition process_open (size : Z) (mem : list Z) : D E outcome :=
  let fail r := dret (answer mem r (stale_bytes 4)) in
  match request_path size mem 32 32 with
  | None => fail AFPSL_IPC_RESULT_ERROR
  | Some path =>
      with_volume mem fail AFPSL_IPC_RESULT_NOTATTACHED (fun id a =>
      let+ (r, fp) := on_volume id a (fun cf => ml_open cf path (i32 (le_at mem 24 4))) in
      match fp with
      | Some fp =>
          let+ handle := register_file_handle fp id in
          if handle =? 0 then
            on_volume id a (fun cf => ml_close cf (Some fp) ;;! free_fork fp) ;;+
            fail AFPSL_IPC_RESULT_ERROR
          else dret (answer mem AFPSL_IPC_RESULT_OK (le_put 4 handle))
      | None =>
          fail (result_of [(- ENOENT, AFPSL_IPC_RESULT_ENOENT); (- EACCES, AFPSL_IPC_RESULT_ACCESS);
                           (- EEXIST, AFPSL_IPC_RESULT_EXIST); (- ETIMEDOUT, AFPSL_IPC_RESULT_TIMEDOUT)] r)
      end)
  end.

Definition READ_RESPONSE : Z := 16.

Definition read_answer_body (received : Z) (eof : bool) (data : list Z) : list Z :=
  le_put 4 received ++ le_put 4 (Z.b2z eof) ++ data.

(** The answer's buffer is for the length asked for, in 32 bits. *)
Definition process_read (size : Z) (mem : list Z) : D E outcome :=
  let small r :=
    let+ ok := dalloc READ_RESPONSE in
    dret (if negb ok then Refuse AFPSL_IPC_RESULT_ERROR else answer mem r (read_answer_body 0 false [])) in
  if size <? 48 then small AFPSL_IPC_RESULT_ERROR
  else
    with_volume mem small AFPSL_IPC_RESULT_NOTATTACHED (fun id a =>
    let length := le_at mem 40 4 in
    let len := u32 (READ_RESPONSE + length) in
    let+ ok := dalloc len in
    if negb ok then dret (Refuse AFPSL_IPC_RESULT_ERROR)
    else
      let+ fp := get_file_handle (i32 (le_at mem 24 4)) id false in
      match fp with
      | None => dret (if len <? READ_RESPONSE then Undefined else answer mem AFPSL_IPC_RESULT_ERROR (read_answer_body 0 false []))
      | Some fp =>
          let+ r := on_volume id a (fun cf => ml_read cf length (i64 (le_at mem 32 8)) fp) in
          let '(r, data, eof) := r : read_result in
          dret (if len <? READ_RESPONSE + zlen data then Undefined
                else if r >? 0 then answer mem AFPSL_IPC_RESULT_OK (read_answer_body r eof data)
                else answer mem (if r <? 0 then AFPSL_IPC_RESULT_ERROR else AFPSL_IPC_RESULT_OK) (read_answer_body 0 eof []))
      end).

(** The data follow the request on the socket; a length that is negative as an
    int is not read at all. *)
Fixpoint read_payload (fuel : nat) (remaining : Z) (acc avail sched : list Z) : option (list Z) * list Z * list Z :=
  if remaining <=? 0 then (Some acc, avail, sched)
  else
    match fuel with
    | O => (None, avail, sched)
    | S fuel =>
        match read_piece remaining avail sched with
        | (Piece p, avail, sched) => read_payload fuel (remaining - zlen p) (acc ++ p) avail sched
        | (_, avail, sched) => (None, avail, sched)
        end
    end.

Definition take_payload (n : Z) : D E (option (list Z)) := fun d =>
  match read_payload (Z.to_nat n) (i32 n) [] (payload d) (payload_sched d) with
  | (r, avail, sched) => (r, set_payload avail sched d)
  end.

Definition process_write (size : Z) (mem : list Z) : D E outcome :=
  let done r written := dret (answer mem r (le_put 4 written)) in
  let fail r := done r 0 in
  if size <? 48 then fail AFPSL_IPC_RESULT_ERROR
  else
    with_volume mem fail AFPSL_IPC_RESULT_NOTATTACHED (fun id a =>
    let count := le_at mem 40 4 in
    let+ ok := dalloc count in
    if negb ok then fail AFPSL_IPC_RESULT_ERROR
    else
      let+ data := take_payload count in
      match data with
      | None => fail AFPSL_IPC_RESULT_ERROR
      | Some data =>
          let+ fp := get_file_handle (i32 (le_at mem 24 4)) id false in
          match fp with
          | None => fail AFPSL_IPC_RESULT_ERROR
          | Some fp =>
              if negb (zlen data =? count) then dret Undefined
              else
                let+ r := on_volume id a (fun cf => ml_write cf data (i64 (le_at mem 32 8)) fp) in
                done (if r <? 0 then AFPSL_IPC_RESULT_ERROR else AFPSL_IPC_RESULT_OK) (if r >? 0 then r else 0)
          end
      end).

(** The result is the close's errno, in a char. *)
Definition process_close (size : Z) (mem : list Z) : D E outcome :=
  let done r := dret (answer mem r []) in
  if size <? 32 then done AFPSL_IPC_RESULT_ERROR
  else
    with_volume mem done AFPSL_IPC_RESULT_NOTATTACHED (fun id a =>
    let+ fp := get_file_handle (i32 (le_at mem 24 4)) id true in
    match fp with
    | None => done AFPSL_IPC_RESULT_ERROR
    | Some fp => let+ r := on_volume id a (fun cf => let! r := ml_close cf (Some fp) in free_fork fp ;;! ret r) in done r
    end).

(** ** Listings *)

Definition READDIR_RESPONSE : Z := 16.

Fixpoint name_leb (a b : list Z) : bool :=
  match a, b with
  | [], _ => true
  | _ :: _, [] => false
  | x :: a, y :: b => if lower x <? lower y then true else if lower y <? lower x then false else name_leb a b
  end.

(** The sort by name; equal names stay in order. *)
Fixpoint name_insert (x : list Z * afp_dirent) (l : list (list Z * afp_dirent)) : list (list Z * afp_dirent) :=
  match l with
  | [] => [x]
  | y :: r => if name_leb (fst x) (fst y) then x :: l else y :: name_insert x r
  end.
Definition name_sort (l : list (list Z * afp_dirent)) : list (list Z * afp_dirent) := foldr name_insert [] l.

Definition afpc_unix_privileges (uid gid permissions ua_permissions : Z) : list Z :=
  le_put 4 uid ++ le_put 4 gid ++ le_put 4 permissions ++ le_put 4 ua_permissions.

Definition readdir_entry (name : list Z) (e : afp_dirent) (st : stat) : list Z :=
  le_put 4 (zlen name) ++ name ++ le_put 8 (tv_sec (st_ctim st)) ++ le_put 8 (tv_sec (st_mtim st))
  ++ afpc_unix_privileges (st_uid st) (st_gid st) (st_mode st) (up_ua_permissions e) ++ le_put 8 (st_size st).

(** The entries that fit [room] bytes: their bytes, how many, and the result. *)
Fixpoint readdir_pack (v : identity) (l : list (list Z * afp_dirent)) (room : Z) : list Z * Z * Z :=
  match l with
  | [] => ([], 0, AFPSL_IPC_RESULT_OK)
  | (name, e) :: r =>
      if 4 + zlen name + 8 * 2 + 16 + 8 >? room then ([], 0, AFPSL_IPC_RESULT_OK)
      else
        let (bad, st) := afp_dirent_to_stat v e in
        if bad <? 0 then ([], 0, AFPSL_IPC_RESULT_ERROR)
        else
          let b := readdir_entry name e st in
          let '(bytes, n, result) := readdir_pack v r (room - zlen b) in (b ++ bytes, n + 1, result)
  end.

Definition readdir_body (numfiles : Z) (eod : bool) (data : list Z) : list Z :=
  le_put 4 numfiles ++ [Z.b2z eod; 0; 0; 0] ++ data.

Definition process_readdir (pages : nat) (size : Z) (mem : list Z) : D E outcome :=
  let fail r :=
    let+ ok := dalloc READDIR_RESPONSE in
    dret (if negb ok then Refuse AFPSL_IPC_RESULT_ERROR else answer mem r (readdir_body 0 false [])) in
  let start := i32 (le_at mem 24 4) in
  let count := i32 (le_at mem 28 4) in
  if (size >=? 40) && (start <? 0) then fail AFPSL_IPC_RESULT_ERROR
  else
    match request_path size mem 40 36 with
    | None => fail AFPSL_IPC_RESULT_ERROR
    | Some path =>
        with_volume mem fail AFPSL_IPC_RESULT_ENOENT (fun id a =>
        let+ r := on_volume id a (fun cf => ml_readdir cf pages path empty_listing) in
        match r with
        | None => dret Unfinished
        | Some (ret, l) =>
            if negb (ret =? 0) then fail AFPSL_IPC_RESULT_ERROR
            else
              let numfiles := zlen (entries l) in
              let+ ok := if numfiles >? 0 then dalloc (numfiles * 16) else dret true in
              if negb ok then fail AFPSL_IPC_RESULT_ERROR
              else if start >? numfiles then fail AFPSL_IPC_RESULT_ERROR
              else
                let sorted := name_sort (map (fun e => (afp_dirent_name l e, e)) (entries l)) in
                let+ ok := dalloc AFPSL_IPC_MAX_RESPONSE in
                if negb ok then fail AFPSL_IPC_RESULT_ERROR
                else
                  let wanted := drop (Z.to_nat start) sorted in
                  let wanted := if count <? 0 then wanted else take (Z.to_nat count) wanted in
                  let '(data, i, result) := readdir_pack (vol_identity (a_config a)) wanted (AFPSL_IPC_MAX_RESPONSE - READDIR_RESPONSE) in
                  dret (answer mem result (readdir_body i (start + i >=? numfiles) data))
        end)
    end.

(** ** Metadata *)

Definition METADATA_BASE : Z := 48.

Definition send_metadata_response (error : Z) (data : list Z) (reported_size : Z) : D E outcome :=
  let+ ok := dalloc (16 + zlen data) in
  dret (if negb ok then Drop
        else Answer (afpsl_ipc_response_header AFPSL_IPC_RESULT_OK (16 + zlen data)
                     ++ le_put 4 error ++ le_put 4 reported_size ++ data) false).

(** What the library answers to a command: the count or the errno, and the
    bytes it put into a buffer. *)
Definition run_metadata (cf : config) (command : Z) (path name value : list Z) (size offset flags : Z) : M E (Z * list Z) :=
  let unit m := let! r := m in ret (r : Z, []) in
  if command =? AFPSL_IPC_COMMAND_GETXATTR then ml_getxattr cf path name size
  else if command =? AFPSL_IPC_COMMAND_LISTXATTR then ml_listxattr cf path size
  else if command =? AFPSL_IPC_COMMAND_GETFINDERINFO then ml_getfinderinfo cf path size
  else if command =? AFPSL_IPC_COMMAND_GETRESOURCEFORK then
    if offset >? INT64_MAX then ret (- EOVERFLOW, []) else ml_getresourcefork cf path size offset
  else if command =? AFPSL_IPC_COMMAND_SETXATTR then unit (ml_setxattr cf path name value flags)
  else if command =? AFPSL_IPC_COMMAND_SETFINDERINFO then unit (ml_setfinderinfo cf path value)
  else if command =? AFPSL_IPC_COMMAND_SETRESOURCEFORK then
    if offset >? INT64_MAX then ret (- EOVERFLOW, []) else unit (ml_setresourcefork cf path value offset)
  else if command =? AFPSL_IPC_COMMAND_TRUNCATERESOURCEFORK then unit (ml_truncateresourcefork cf path offset)
  else if command =? AFPSL_IPC_COMMAND_REMOVEXATTR then unit (ml_removexattr cf path name)
  else if command =? AFPSL_IPC_COMMAND_REMOVEFINDERINFO then unit (ml_removefinderinfo cf path)
  else if command =? AFPSL_IPC_COMMAND_REMOVERESOURCEFORK then unit (ml_removeresourcefork cf path)
  else ret (- EINVAL, []).

Definition metadata_sends_data (command : Z) : bool :=
  (command =? AFPSL_IPC_COMMAND_SETXATTR) || (command =? AFPSL_IPC_COMMAND_SETFINDERINFO)
  || (command =? AFPSL_IPC_COMMAND_SETRESOURCEFORK).

Definition metadata_limit (command : Z) : Z :=
  if command =? AFPSL_IPC_COMMAND_LISTXATTR then AFP_SL_XATTR_LIST_MAX else AFP_SL_METADATA_CHUNK.

(** The errno that refuses a request before its volume is looked for, or 0. *)
Definition metadata_refused (size : Z) (mem : list Z) : Z :=
  let command := req_command mem in
  let offset := le_at mem 24 8 in
  let count := le_at mem 32 4 in
  let flags := i32 (le_at mem 36 4) in
  let path_len := le_at mem 40 4 in
  let name_len := le_at mem 44 4 in
  let expected_len := METADATA_BASE + path_len + 1 + name_len + 1 + (if metadata_sends_data command then count else 0) in
  let name := METADATA_BASE + path_len + 1 in
  if size <? METADATA_BASE then - EINVAL
  else if (path_len >=? AFP_MAX_UTF8_PATH_STORAGE) || (name_len >=? 256) then - EINVAL
  else if (count >? metadata_limit command) || negb (req_len mem =? expected_len) || negb (size =? req_len mem) then - EINVAL
  else if negb (byte_at mem (METADATA_BASE + path_len) =? 0) || negb (byte_at mem (name + name_len) =? 0) then - EINVAL
  else if ((command =? AFPSL_IPC_COMMAND_GETXATTR) || (command =? AFPSL_IPC_COMMAND_SETXATTR)
           || (command =? AFPSL_IPC_COMMAND_REMOVEXATTR)) && (byte_at mem name =? 0) then - EINVAL
  else if (command =? AFPSL_IPC_COMMAND_SETFINDERINFO) && negb (count =? 32) then - EINVAL
  else if (command =? AFPSL_IPC_COMMAND_SETXATTR)
          && (negb (Z.land flags (Z.lnot (Z.lor kXAttrCreate kXAttrReplace)) =? 0)
              || (has flags kXAttrCreate && has flags kXAttrReplace)) then - EINVAL
  else if (command =? AFPSL_IPC_COMMAND_SETRESOURCEFORK) && ((offset >? INT_MAX) || (count >? INT_MAX - offset)) then - EFBIG
  else if (command =? AFPSL_IPC_COMMAND_TRUNCATERESOURCEFORK) && (offset >? INT_MAX) then - EFBIG
  else 0.

Definition process_metadata (size : Z) (mem : list Z) : D E outcome :=
  let e := metadata_refused size mem in
  if negb (e =? 0) then send_metadata_response e [] 0
  else
    let command := req_command mem in
    let count := le_at mem 32 4 in
    let path_len := le_at mem 40 4 in
    let name_len := le_at mem 44 4 in
    let name_off := METADATA_BASE + path_len + 1 in
    let path := until_nul (drop (Z.to_nat METADATA_BASE) mem) in
    let name := until_nul (drop (Z.to_nat name_off) mem) in
    let value := sub (name_off + name_len + 1) count mem in
    fun d =>
    match volumes d !! volumeid mem with
    | None => send_metadata_response (- ESTALE) [] 0 d
    | Some a =>
        if negb (a_connected a) then send_metadata_response (- ENOTCONN) [] 0 d
        else
          (let+ ok := if (command =? AFPSL_IPC_COMMAND_LISTXATTR) && (count >? 0) then dalloc count else dret true in
           let+ (r, bytes) := if negb ok then dret (- ENOMEM, [])
                              else on_volume (volumeid mem) a (fun cf => run_metadata cf command path name value count (le_at mem 24 8) (i32 (le_at mem 36 4))) in
           if r >? 0 then
             if (count >? 0) && (r >? count) then send_metadata_response (- ERANGE) [] r
             else send_metadata_response 0 (if count >? 0 then sub 0 r bytes else []) r
           else send_metadata_response r [] 0) d
    end.

(** ** Comments *)

(** The errno of an AFP result: results of the transport, which are errno
    values already, stay. *)
Definition desktop_error (r : Z) (comment : bool) : Z :=
  if (r <? 0) && negb (r =? -1) && (r >? kFPNoMoreSessions) then r
  else if r =? kFPNoErr then 0
  else if r =? kFPAccessDenied then - EACCES
  else if r =? kFPItemNotFound then if comment then - AFP_SL_DESKTOP_COMMENT_MISSING else - ENOENT
  else if (r =? kFPObjectNotFound) || (r =? kFPDirNotFound) then - ENOENT
  else if r =? kFPCallNotSupported then - EOPNOTSUPP
  else if r =? kFPParamErr then - EINVAL
  else - EPROTO.

Definition desktop_ensure_open (connected : bool) : M E Z :=
  if negb connected then ret (- ENOTCONN)
  else
    let! dt := get dtrefnum in
    if negb (dt =? 0) then ret 0
    else
      let! r := call OpenDT in
      let (rc, refnum) := r : Z * Z in
      (if rc =? kFPNoErr then modify (fun v => set_dt refnum (no_desktop v) v) else ret tt) ;;!
      ret (desktop_error rc false).

(** The object a comment is about, once the database is open. *)
Definition desktop_target (cf : config) (connected : bool) (path : list Z) : M E (res (list Z * Z)) :=
  let! r := desktop_ensure_open connected in
  if negb (r =? 0) then ret (Err r)
  else
    let! a := ml_getattr cf path in
    let (r, _) := a : Z * stat in
    if negb (r =? 0) then ret (Err r)
    else
      let! g := get_dirid cf path in
      let '(r, basename, did) := g : Z * option (list Z) * option Z in
      ret (if r <? 0 then Err (- EIO) else Ok (default [] basename, default 0 did)).

Definition send_desktop_data_response (error : Z) (data : list Z) : D E outcome :=
  let big := 16 + zlen data >? AFPSL_IPC_MAX_RESPONSE in
  let error := if big then - E2BIG else error in
  let data := if big then [] else data in
  let+ ok := dalloc (16 + zlen data) in
  dret (if negb ok then Drop
        else Answer (afpsl_ipc_response_header AFPSL_IPC_RESULT_OK (16 + zlen data)
                     ++ le_put 4 error ++ le_put 4 (zlen data) ++ data) false).

Definition process_desktop_path (size : Z) (mem : list Z) : D E outcome :=
  match request_path size mem 32 28 with
  | None => send_desktop_data_response (- EINVAL) []
  | Some path => fun d =>
      match volumes d !! volumeid mem with
      | None => send_desktop_data_response (- ESTALE) [] d
      | Some a =>
          (let+ (r, comment) := on_volume (volumeid mem) a (fun cf =>
             let! t := desktop_target cf (a_connected a) path in
             match t with
             | Err r => ret (r, [])
             | Ok (basename, did) =>
                 let! c := call (GetComment did basename) in
                 let (rc, comment) := c : Z * list Z in
                 let r := desktop_error rc true in
                 ret (r, if r =? 0 then take (Z.to_nat AFP_SL_DESKTOP_COMMENT_MAX) comment else [])
             end) in
           send_desktop_data_response r comment) d
      end
  end.

Definition set_comment_body (error written : Z) (truncated : bool) : list Z :=
  le_put 4 error ++ le_put 4 written ++ [Z.b2z truncated; 0; 0; 0].

Definition process_desktop_set_comment (size : Z) (mem : list Z) : D E outcome :=
  let done r written truncated :=
    Answer (afpsl_ipc_response_header AFPSL_IPC_RESULT_OK 20
            ++ if r =? 0 then set_comment_body 0 written truncated else set_comment_body r 0 false) false in
  let path_len := le_at mem 24 4 in
  let text_len := le_at mem 28 4 in
  let expected := 32 + path_len + 1 + text_len in
  if (size <? 32) || (path_len >=? AFP_MAX_UTF8_PATH_STORAGE) || (text_len >? AFP_SL_DESKTOP_COMMENT_MAX)
  then dret (done (- EINVAL) 0 false)
  else if negb (req_len mem =? expected) || negb (size =? expected) || negb (byte_at mem (32 + path_len) =? 0)
  then dret (done (- EINVAL) 0 false)
  else fun d =>
    match volumes d !! volumeid mem with
    | None => (done (- ESTALE) 0 false, d)
    | Some a =>
        let cut := (20 <=? av_number (a_config a)) && (av_number (a_config a) <=? 22)
                   && (text_len >? AFP_SL_DESKTOP_COMMENT_AFP2_MAX) in
        let written := if cut then AFP_SL_DESKTOP_COMMENT_AFP2_MAX else text_len in
        (let+ r := on_volume (volumeid mem) a (fun cf =>
           let! t := desktop_target cf (a_connected a) (until_nul (drop (Z.to_nat 32) mem)) in
           match t with
           | Err r => ret r
           | Ok (basename, did) =>
               let! rc := call (AddComment did basename (sub (32 + path_len + 1) written mem)) in
               ret (desktop_error rc false)
           end) in
         dret (done r written cut)) d
    end.

(** ** The dispatch *)

Definition HELLO_REQUEST : Z := 24.

Definition afpsl_ipc_hello_response (result : Z) : list Z :=
  afpsl_ipc_response_header result 20 ++ le_put 4 AFPSL_IPC_PROTOCOL_MAGIC ++ le_put 2 AFPSL_IPC_PROTOCOL_MAJOR
  ++ le_put 2 AFPSL_IPC_PROTOCOL_MINOR ++ le_put 4 0.

(** The answer, and whether the client may go on. *)
Definition process_hello (size : Z) (mem : list Z) (ready : bool) : outcome * bool :=
  if negb (size =? HELLO_REQUEST) then (Refuse (-1), ready)
  else
    let compatible := (le_at mem 12 4 =? AFPSL_IPC_PROTOCOL_MAGIC) && (le_at mem 16 2 =? AFPSL_IPC_PROTOCOL_MAJOR) in
    (Answer (afpsl_ipc_hello_response (if compatible then AFPSL_IPC_RESULT_OK else AFPSL_IPC_RESULT_ERROR)) (negb compatible),
     compatible).

Definition is_metadata (command : Z) : bool :=
  (AFPSL_IPC_COMMAND_GETXATTR <=? command) && (command <=? AFPSL_IPC_COMMAND_TRUNCATERESOURCEFORK).

(** The handlers of sessions, volumes and icons are [others]. *)
Definition process_command_thread (others : Z -> Z -> list Z -> D E outcome) (pages : nat) (ready : bool)
    (size : Z) (mem : list Z) : D E (outcome * bool) :=
  let command := req_command mem in
  let kept m := let+ o := m in dret (o, ready) in
  if negb ready && negb (command =? AFPSL_IPC_COMMAND_HELLO) then dret (Refuse (-1), ready)
  else if command =? AFPSL_IPC_COMMAND_HELLO then dret (process_hello size mem ready)
  else kept
    (if command =? AFPSL_IPC_COMMAND_READDIR then process_readdir pages size mem
     else if command =? AFPSL_IPC_COMMAND_STAT then process_stat size mem
     else if command =? AFPSL_IPC_COMMAND_OPEN then process_open size mem
     else if command =? AFPSL_IPC_COMMAND_READ then process_read size mem
     else if command =? AFPSL_IPC_COMMAND_WRITE then process_write size mem
     else if command =? AFPSL_IPC_COMMAND_CREAT then process_creat size mem
     else if command =? AFPSL_IPC_COMMAND_CHMOD then process_chmod size mem
     else if command =? AFPSL_IPC_COMMAND_RENAME then process_rename size mem
     else if command =? AFPSL_IPC_COMMAND_UNLINK then process_unlink size mem
     else if command =? AFPSL_IPC_COMMAND_TRUNCATE then process_truncate size mem
     else if command =? AFPSL_IPC_COMMAND_UTIME then process_utime size mem
     else if command =? AFPSL_IPC_COMMAND_MKDIR then process_mkdir size mem
     else if command =? AFPSL_IPC_COMMAND_RMDIR then process_rmdir size mem
     else if command =? AFPSL_IPC_COMMAND_STATFS then process_statfs size mem
     else if command =? AFPSL_IPC_COMMAND_CLOSE then process_close size mem
     else if is_metadata command then process_metadata size mem
     else if command =? AFPSL_IPC_COMMAND_DESKTOP_GET_COMMENT then process_desktop_path size mem
     else if command =? AFPSL_IPC_COMMAND_DESKTOP_SET_COMMENT then process_desktop_set_comment size mem
     else if command =? AFPSL_IPC_COMMAND_GET_MOUNTPOINT then dret (Refuse AFPSL_IPC_RESULT_NOTSUPPORTED)
     else others command size mem).

(** What the client receives, and the client it goes on with, if it does. *)
Definition finish_response (heap : Z -> bool) (c : client) (o : outcome) : list Z * option client :=
  match o with
  | Answer content close =>
      match send_command heap c content with
      | None => ([], None)
      | Some bytes => (bytes, if close then None else Some (reset_client_request c))
      end
  | _ => ([], None)
  end.

End Handlers.
