(* ===== verification/Stateless.v ===== *)
(** The library of the stateless client (src/daemon/stateless.c): each call as
    the request it sends to the daemon and what it makes of the answer.

    The daemon is a [Peer]: something that takes the bytes sent and gives bytes
    to the reads, in pieces. *)
From stdpp Require Import gmap.
From S2P Require Import Prelude AfpProtocol Identify Local Sidecar Path Dates ReplyBlock Listing World DidCache ForkList LowLevel Resource Midlevel Xattr Ipc Daemon.
Local Open Scope afp_scope.

(** A read after select: bytes, an interruption, or anything that ends the
    connection for the library, a timeout included. *)
Inductive arrival : Set := Arrived (p : list Z) | Again | Lost.

Class Peer (P : Type) := {
  peer_connect : P -> bool * P;
  peer_send : list Z -> P -> bool * P;
  peer_recv : Z -> P -> arrival * P }.

(** struct stateless_connection, with the messages of the daemon given to
    stateless_log_message so far. *)
Record conn (P : Type) := Conn { fd_open : bool; shown_logs : list (Z * list Z); peer : P }.
Arguments Conn {P}.
Arguments fd_open {P}.
Arguments shown_logs {P}.
Arguments peer {P}.

Definition K (P A : Type) : Type := conn P -> A * conn P.
Definition kret {P A} (a : A) : K P A := fun c => (a, c).
Definition kbind {P A B} (m : K P A) (k : A -> K P B) : K P B := fun c => let (a, c') := m c in k a c'.
Definition ktry {P A B} (m : K P (res A)) (k : A -> K P (res B)) : K P (res B) :=
  kbind m (fun r => match r with Ok a => k a | Err e => kret (Err e) end).

Notation "'let~' x ':=' m 'in' k" := (kbind m (fun x => k))
  (at level 10, x pattern, m at level 100, k at level 200) : afp_scope.
Notation "'try~' x ':=' m 'in' k" := (ktry m (fun x => k))
  (at level 10, x pattern, m at level 100, k at level 200) : afp_scope.
Notation "m ';;~' k" := (kbind m (fun _ => k)) (at level 60, right associativity) : afp_scope.

Definition server_result_to_errno (result : Z) : Z :=
  if result =? AFPSL_IPC_RESULT_OK then 0
  else if (result =? AFPSL_IPC_RESULT_ENOENT) || (result =? AFPSL_IPC_RESULT_MOUNTPOINT_NOEXIST) then - ENOENT
  else if result =? AFPSL_IPC_RESULT_NOTCONNECTED then - ENOTCONN
  else if result =? AFPSL_IPC_RESULT_NOTATTACHED then - ESTALE
  else if result =? AFPSL_IPC_RESULT_NOVOLUME then - ENODEV
  else if (result =? AFPSL_IPC_RESULT_ALREADY_CONNECTED) || (result =? AFPSL_IPC_RESULT_ALREADY_ATTACHED)
          || (result =? AFPSL_IPC_RESULT_ALREADY_MOUNTED) then 0
  else if (result =? AFPSL_IPC_RESULT_NOAUTHENT) || (result =? AFPSL_IPC_RESULT_VOLPASS_NEEDED)
          || (result =? AFPSL_IPC_RESULT_ACCESS) || (result =? AFPSL_IPC_RESULT_MOUNTPOINT_PERM) then - EACCES
  else if result =? AFPSL_IPC_RESULT_EXIST then - EEXIST
  else if result =? AFPSL_IPC_RESULT_ENOTEMPTY then - ENOTEMPTY
  else if result =? AFPSL_IPC_RESULT_TIMEDOUT then - ETIMEDOUT
  else if result =? AFPSL_IPC_RESULT_DAEMON_ERROR then - ECONNREFUSED
  else if result =? AFPSL_IPC_RESULT_NOSERVER then - EHOSTUNREACH
  else if result =? AFPSL_IPC_RESULT_NOTSUPPORTED then - EOPNOTSUPP
  else - EIO.

Inductive afp_sl_recovery_action : Set := AFP_SL_RECOVERY_NONE | AFP_SL_RECOVERY_REATTACH | AFP_SL_RECOVERY_RECONNECT.

Definition afp_sl_recovery_for_error (result : Z) : afp_sl_recovery_action :=
  if result =? - ESTALE then AFP_SL_RECOVERY_REATTACH
  else if (result =? - ECONNRESET) || (result =? - ECONNREFUSED) || (result =? - ENOTCONN) || (result =? - ETIMEDOUT)
          || (result =? - EHOSTUNREACH) then AFP_SL_RECOVERY_RECONNECT
  else AFP_SL_RECOVERY_NONE.

Definition wire_path_length (path : list Z) : res Z := afpc_path_validate (Some path) AFPC_MAX_UTF8_PATH_BYTES.

(** The buffer of a connection. *)
Definition CONNECTION_DATA : Z := AFPSL_IPC_MAX_RESPONSE + AFPSL_IPC_LOG_BUFFER_SIZE + 200.

(** ** Requests *)

(** A request with a path: its structure has [fields] between the volume and
    the path's length, and [pad] bytes behind its start of the path. *)
Definition path_request (command : Z) (sizeof off volid : Z) (fields path : list Z) : list Z :=
  let path_len := zlen path in
  afpsl_ipc_request_header command (sizeof + path_len + 1) 0 ++ zero_bytes 4 ++ le_put 8 volid ++ fields
  ++ le_put 4 path_len ++ path ++ [0] ++ zero_bytes (sizeof - off).

Definition rename_request (volid : Z) (from to : list Z) : list Z :=
  afpsl_ipc_request_header AFPSL_IPC_COMMAND_RENAME (32 + zlen from + 1 + zlen to + 1) 0 ++ zero_bytes 4 ++ le_put 8 volid
  ++ le_put 4 (zlen from) ++ le_put 4 (zlen to) ++ from ++ [0] ++ to ++ [0].

Definition transfer_request (command volid fileid offset count resource : Z) : list Z :=
  afpsl_ipc_request_header command 48 0 ++ zero_bytes 4 ++ le_put 8 volid ++ le_put 4 fileid ++ zero_bytes 4
  ++ le_put 8 offset ++ le_put 4 count ++ le_put 4 resource.

Definition close_request (volid fileid : Z) : list Z :=
  afpsl_ipc_request_header AFPSL_IPC_COMMAND_CLOSE 32 0 ++ zero_bytes 4 ++ le_put 8 volid ++ le_put 4 fileid ++ zero_bytes 4.

Definition metadata_request (command volid : Z) (path name value : list Z) (size offset flags : Z) : list Z :=
  afpsl_ipc_request_header command (48 + zlen path + 1 + zlen name + 1 + zlen value) 0 ++ zero_bytes 4 ++ le_put 8 volid
  ++ le_put 8 offset ++ le_put 4 size ++ le_put 4 flags ++ le_put 4 (zlen path) ++ le_put 4 (zlen name)
  ++ path ++ [0] ++ name ++ [0] ++ value.

Definition set_comment_request (volid : Z) (path text : list Z) : list Z :=
  afpsl_ipc_request_header AFPSL_IPC_COMMAND_DESKTOP_SET_COMMENT (32 + zlen path + 1 + zlen text) 0 ++ zero_bytes 4
  ++ le_put 8 volid ++ le_put 4 (zlen path) ++ le_put 4 (zlen text) ++ path ++ [0] ++ text.

Definition hello_request : list Z :=
  afpsl_ipc_request_header AFPSL_IPC_COMMAND_HELLO 24 0 ++ le_put 4 AFPSL_IPC_PROTOCOL_MAGIC
  ++ le_put 2 AFPSL_IPC_PROTOCOL_MAJOR ++ le_put 2 AFPSL_IPC_PROTOCOL_MINOR ++ le_put 4 0.

Section Calls.
Context {P : Type} `{Peer P} `{Platform}.

(** How many reads an answer may take; whether an allocation succeeds; the
    volume and the path of a URL, for the calls without a volume. *)
Context (fuel : nat) (heap : Z -> bool) (getvolid : K P (res Z)) (url_path : option (list Z)).

(** ** The connection *)

Definition close_connection : K P unit := fun c => (tt, Conn false (shown_logs c) (peer c)).
Definition stateless_log (l : list (Z * list Z)) : K P unit := fun c => (tt, Conn (fd_open c) (shown_logs c ++ l) (peer c)).
Definition recv (n : Z) : K P arrival := fun c => let (a, p) := peer_recv n (peer c) in (a, Conn (fd_open c) (shown_logs c) p).
Definition write_bytes (data : list Z) : K P bool := fun c => let (b, p) := peer_send data (peer c) in (b, Conn (fd_open c) (shown_logs c) p).

Definition sl_send_command (data : list Z) : K P bool :=
  let~ ok := write_bytes data in
  (if ok : bool then kret tt else close_connection) ;;~ kret ok.

(** One whole answer. *)
Fixpoint afp_sl_read_framed_response (fuel : nat) (capacity : Z) (data : list Z) : K P (option (list Z)) :=
  match fuel with
  | O => kret None
  | S fuel =>
      if zlen data >=? capacity then kret None
      else
        let~ a := recv (capacity - zlen data) in
        match a with
        | Lost => kret None
        | Again => afp_sl_read_framed_response fuel capacity data
        | Arrived p =>
            let data := data ++ p in
            if zlen data <? RESPONSE_HEADER then afp_sl_read_framed_response fuel capacity data
            else
              let expected := resp_len data in
              if (expected <? RESPONSE_HEADER + LOG_FOOTER) || (expected >? capacity) then kret None
              else if zlen data =? expected then kret (Some data)
              else if zlen data >? expected then kret None
              else afp_sl_read_framed_response fuel capacity data
        end
  end.

(** The result of an answer and the answer, or -1. *)
Definition read_answer : K P (Z * list Z) :=
  let~ r := afp_sl_read_framed_response fuel CONNECTION_DATA [] in
  match r with
  | None => close_connection ;;~ kret (-1, [])
  | Some data =>
      let (logs, ok) := afp_sl_dispatch_response_logs data in
      stateless_log logs ;;~
      if negb ok then close_connection ;;~ kret (-1, []) else kret (resp_result data, data)
  end.

(** Exactly [len] bytes. *)
Fixpoint read_bytes_with_timeout (fuel : nat) (len : Z) (acc : list Z) : K P (option (list Z)) :=
  if zlen acc >=? len then kret (Some acc)
  else
    match fuel with
    | O => kret None
    | S fuel =>
        let~ a := recv (len - zlen acc) in
        match a with
        | Lost => kret None
        | Again => read_bytes_with_timeout fuel len acc
        | Arrived p => read_bytes_with_timeout fuel len (acc ++ p)
        end
    end.

(** The rest of an answer of [total_len] bytes after its first [prefix_len], and
    how much of it is before the log. *)
Definition read_response_tail (total_len prefix_len : Z) : K P (option (list Z * Z)) :=
  if total_len <? prefix_len + LOG_FOOTER then kret None
  else if negb (heap (total_len - prefix_len)) then kret None
  else
    let~ t := read_bytes_with_timeout fuel (total_len - prefix_len) [] in
    match t with
    | None => kret None
    | Some tail =>
        match afp_sl_response_content_length tail with
        | None => kret None
        | Some n =>
            let (logs, ok) := afp_sl_dispatch_response_logs tail in
            stateless_log logs ;;~ kret (if ok then Some (tail, n) else None)
        end
    end.

Definition ipc_handshake : K P Z :=
  let~ ok := sl_send_command hello_request in
  if negb ok then kret (- EPROTO)
  else
    let~ (r, data) := read_answer in
    if (r <? 0) || (zlen data <? 20) then kret (- EPROTO)
    else if negb (resp_result data =? AFPSL_IPC_RESULT_OK) || negb (le_at data 8 4 =? AFPSL_IPC_PROTOCOL_MAGIC)
            || negb (le_at data 12 2 =? AFPSL_IPC_PROTOCOL_MAJOR) then kret (- EPROTO)
    else kret 0.

(** The socket is the peer's to connect, starting the daemon if need be. *)
Definition daemon_connect : K P Z := fun c =>
  if fd_open c then (0, c)
  else
    let (ok, p) := peer_connect (peer c) in
    if negb ok then (-1, Conn false (shown_logs c) p)
    else
      (let~ r := ipc_handshake in
       if r <? 0 then close_connection ;;~ kret (-1) else kret 0) (Conn true (shown_logs c) p).

Definition ensure_daemon_connection : K P Z := daemon_connect.

(** The first [reply_len] bytes of the answer. *)
Definition send_to_daemon (request : list Z) (reply_len : Z) : K P (res (list Z)) :=
  let~ r := ensure_daemon_connection in
  if negb (r =? 0) then kret (Err r)
  else
    let~ ok := sl_send_command request in
    if negb ok then kret (Err (- ECONNRESET))
    else
      let~ (r, data) := read_answer in
      if (r <? 0) || (zlen data <? reply_len) then close_connection ;;~ kret (Err (- ECONNRESET))
      else kret (Ok (take (Z.to_nat reply_len) data)).

(** ** Calls with a path *)

(** The volume and the path of a call. *)
Definition call_target (volid : option Z) (path : option (list Z)) : K P (res (Z * list Z)) :=
  try~ (v, p) := match volid with
                 | Some v => kret (Ok (v, path))
                 | None => try~ v := getvolid in kret (Ok (v, url_path))
                 end in
  match p with
  | None => kret (Err (- EINVAL))
  | Some p => match wire_path_length p with
              | Err e => kret (Err e)
              | Ok n => kret (Ok (v, take (Z.to_nat n) p))
              end
  end.

(** The request of such a call and its answer. *)
Definition path_call (volid : option Z) (path : option (list Z)) (command sizeof off : Z) (fields : list Z) (reply_len : Z)
    : K P (res (list Z)) :=
  try~ (v, p) := call_target volid path in
  if negb (heap (sizeof + zlen p + 1)) then kret (Err (- ENOMEM))
  else send_to_daemon (path_request command sizeof off v fields p) reply_len.

(** A call whose answer is only a result. *)
Definition result_call (m : K P (res (list Z))) : K P Z :=
  let~ r := m in
  kret (match r with Err e => e | Ok reply => server_result_to_errno (resp_result reply) end).

Definition afp_sl_creat (volid : option Z) (path : option (list Z)) (mode : Z) : K P Z :=
  result_call (path_call volid path AFPSL_IPC_COMMAND_CREAT 32 32 (le_put 4 mode) 8).
Definition afp_sl_chmod (volid : option Z) (path : option (list Z)) (mode : Z) : K P Z :=
  result_call (path_call volid path AFPSL_IPC_COMMAND_CHMOD 32 32 (le_put 4 mode) 8).
Definition afp_sl_unlink (volid : option Z) (path : option (list Z)) : K P Z :=
  result_call (path_call volid path AFPSL_IPC_COMMAND_UNLINK 32 28 [] 8).
Definition afp_sl_truncate (volid : option Z) (path : option (list Z)) (offset : Z) : K P Z :=
  result_call (path_call volid path AFPSL_IPC_COMMAND_TRUNCATE 40 36 (le_put 8 offset) 8).
Definition afp_sl_utime (volid : option Z) (path : option (list Z)) (actime modtime : Z) : K P Z :=
  result_call (path_call volid path AFPSL_IPC_COMMAND_UTIME 48 44 (le_put 8 actime ++ le_put 8 modtime) 8).
Definition afp_sl_mkdir (volid : option Z) (path : option (list Z)) (mode : Z) : K P Z :=
  result_call (path_call volid path AFPSL_IPC_COMMAND_MKDIR 32 32 (le_put 4 mode) 8).
Definition afp_sl_rmdir (volid : option Z) (path : option (list Z)) : K P Z :=
  result_call (path_call volid path AFPSL_IPC_COMMAND_RMDIR 32 28 [] 8).

(** Both paths are the caller's, with a URL too. *)
Definition afp_sl_rename (volid : option Z) (from to : option (list Z)) : K P Z :=
  result_call
    (try~ v := match volid with Some v => kret (Ok v) | None => getvolid end in
     match from, to with
     | Some from, Some to =>
         match wire_path_length from, wire_path_length to with
         | Ok n, Ok m =>
             if negb (heap (32 + n + 1 + m + 1)) then kret (Err (- ENOMEM))
             else send_to_daemon (rename_request v (take (Z.to_nat n) from) (take (Z.to_nat m) to)) 8
         | Err e, _ => kret (Err e)
         | _, Err e => kret (Err e)
         end
     | _, _ => kret (Err (- EINVAL))
     end).

Definition afp_sl_stat (volid : option Z) (path : option (list Z)) : K P (Z * option stat) :=
  let~ r := path_call volid path AFPSL_IPC_COMMAND_STAT 32 28 [] (8 + zlen (stat_bytes zero_stat)) in
  kret (match r with
        | Err e => (e, None)
        | Ok reply => let e := server_result_to_errno (resp_result reply) in
                      (e, if e =? 0 then Some (stat_of (drop (Z.to_nat 8) reply)) else None)
        end).

Definition afp_sl_statfs (volid : option Z) (path : option (list Z)) : K P (Z * option statvfs) :=
  let~ r := path_call volid path AFPSL_IPC_COMMAND_STATFS 32 28 [] (8 + zlen (statvfs_bytes zero_statvfs)) in
  kret (match r with
        | Err e => (e, None)
        | Ok reply => (server_result_to_errno (resp_result reply),
                       if resp_result reply =? AFPSL_IPC_RESULT_OK then Some (statvfs_of (drop (Z.to_nat 8) reply)) else None)
        end).

Definition afp_sl_open (volid : option Z) (path : option (list Z)) (mode : Z) : K P (Z * option Z) :=
  let~ r := path_call volid path AFPSL_IPC_COMMAND_OPEN 32 32 (le_put 4 mode) 12 in
  kret (match r with
        | Err e => (e, None)
        | Ok reply => let e := server_result_to_errno (resp_result reply) in (e, if e =? 0 then Some (le_at reply 8 4) else None)
        end).

(** ** Open files *)

Definition afp_sl_close (volid fileid : Z) : K P Z := result_call (send_to_daemon (close_request volid fileid) 8).

(** An answer read in two parts: its first [n] bytes, the rest, and how much of
    the rest is before the log. *)
Definition lost {A} (e : Z) : K P (res A) := close_connection ;;~ kret (Err e).

(** The bytes read and the end's mark. *)
Definition afp_sl_read (volid fileid resource start length : Z) : K P (res (list Z * Z)) :=
  let~ r := ensure_daemon_connection in
  if negb (r =? 0) then kret (Err r)
  else
    let~ ok := sl_send_command (transfer_request AFPSL_IPC_COMMAND_READ volid fileid start length resource) in
    if negb ok then kret (Err (- ECONNRESET))
    else
      let~ h := read_bytes_with_timeout fuel 16 [] in
      match h with
      | None => lost (- ECONNRESET)
      | Some response =>
          let~ t := read_response_tail (resp_len response) 16 in
          match t with
          | None => lost (- EPROTO)
          | Some (tail, payload_size) =>
              if negb (resp_result response =? AFPSL_IPC_RESULT_OK)
              then let e := server_result_to_errno (resp_result response) in kret (if e =? 0 then Ok ([], 0) else Err e)
              else if negb (payload_size =? le_at response 8 4) || (payload_size >? length) then kret (Err (- EPROTO))
              else kret (Ok (take (Z.to_nat payload_size) tail, le_at response 12 4))
          end
      end.

Definition afp_sl_write (volid fileid resource offset : Z) (data : list Z) : K P (res Z) :=
  let~ r := ensure_daemon_connection in
  if negb (r =? 0) then kret (Err r)
  else
    let~ ok := sl_send_command (transfer_request AFPSL_IPC_COMMAND_WRITE volid fileid offset (zlen data) resource) in
    if negb ok then kret (Err (- ECONNRESET))
    else
      let~ ok := write_bytes data in
      if negb ok then lost (- ECONNRESET)
      else
        let~ h := read_bytes_with_timeout fuel 12 [] in
        match h with
        | None => lost (- ECONNRESET)
        | Some response =>
            let~ t := read_response_tail (resp_len response) 12 in
            match t with
            | Some (tail, 0) =>
                if negb (resp_result response =? AFPSL_IPC_RESULT_OK)
                then let e := server_result_to_errno (resp_result response) in kret (if e =? 0 then Ok 0 else Err e)
                else kret (Ok (le_at response 8 4))
            | _ => lost (- EPROTO)
            end
        end.

(** ** Metadata *)

(** [value] is the caller's buffer, if there is one; the answer is the count or
    the errno, and what is put into the buffer. *)
Definition metadata_call (command : Z) (volid : option Z) (path name value : option (list Z)) (size offset flags : Z)
    (send_value : bool) : K P (Z * list Z) :=
  let named := (command =? AFPSL_IPC_COMMAND_GETXATTR) || (command =? AFPSL_IPC_COMMAND_SETXATTR)
               || (command =? AFPSL_IPC_COMMAND_REMOVEXATTR) in
  let no_name := match name with None => true | Some n => byte_at (n ++ [0]) 0 =? 0 end in
  match volid, path with
  | Some v, Some path =>
      if (size >? metadata_limit command) || (named && no_name)
         || ((command =? AFPSL_IPC_COMMAND_SETFINDERINFO) && negb (size =? 32))
         || (negb (bool_decide (is_Some value)) && (size >? 0) && send_value)
      then kret (- EINVAL, [])
      else
        match wire_path_length path with
        | Err e => kret (e, [])
        | Ok path_len =>
            let name_len := match name with None => 0 | Some n => strnlen n 256 end in
            if name_len >=? 256 then kret (- ENAMETOOLONG, [])
            else
              let request_len := 48 + path_len + 1 + name_len + 1 + (if send_value then size else 0) in
              let~ r := ensure_daemon_connection in
              if negb (r =? 0) then kret (r, [])
              else if negb (heap request_len) then kret (- ENOMEM, [])
              else
                let~ ok := sl_send_command (metadata_request command v (take (Z.to_nat path_len) path)
                             (take (Z.to_nat name_len) (default [] name))
                             (if send_value then take (Z.to_nat size) (default [] value) else []) size offset flags) in
                if negb ok then kret (- ECONNRESET, [])
                else
                  let~ h := read_bytes_with_timeout fuel 16 [] in
                  match h with
                  | None => close_connection ;;~ kret (- ECONNRESET, [])
                  | Some response =>
                      let total := resp_len response in
                      if (total <? 16 + LOG_FOOTER)
                         || (total >? 16 + metadata_limit command + AFPSL_IPC_LOG_BUFFER_SIZE + LOG_FOOTER)
                      then close_connection ;;~ kret (- EPROTO, [])
                      else
                        let~ t := read_response_tail total 16 in
                        match t with
                        | None => close_connection ;;~ kret (- ECONNRESET, [])
                        | Some (tail, payload_size) =>
                            let error := i32 (le_at response 8 4) in
                            let reported := le_at response 12 4 in
                            if (payload_size >? 0) && negb (reported =? payload_size)
                            then close_connection ;;~ kret (- EPROTO, [])
                            else if (payload_size >? 0) && (negb (bool_decide (is_Some value)) || (payload_size >? size))
                            then kret (- ERANGE, [])
                            else
                              let got := take (Z.to_nat payload_size) tail in
                              kret (if error <? 0 then (error, got) else (i32 reported, got))
                        end
                  end
        end
  | _, _ => kret (- EINVAL, [])
  end.

Definition AFP_SL_XATTR_CREATE : Z := 0x1.
Definition AFP_SL_XATTR_REPLACE : Z := 0x2.

Definition afp_sl_getxattr (volid : option Z) (path name value : option (list Z)) (size : Z) : K P (Z * list Z) :=
  metadata_call AFPSL_IPC_COMMAND_GETXATTR volid path name value size 0 0 false.
Definition afp_sl_setxattr (volid : option Z) (path name value : option (list Z)) (size flags : Z) : K P (Z * list Z) :=
  if negb (Z.land flags (Z.lnot (Z.lor AFP_SL_XATTR_CREATE AFP_SL_XATTR_REPLACE)) =? 0)
     || (has flags AFP_SL_XATTR_CREATE && has flags AFP_SL_XATTR_REPLACE)
  then kret (- EINVAL, [])
  else
    let wire_flags := Z.lor (if has flags AFP_SL_XATTR_CREATE then kXAttrCreate else 0)
                            (if has flags AFP_SL_XATTR_REPLACE then kXAttrReplace else 0) in
    metadata_call AFPSL_IPC_COMMAND_SETXATTR volid path name value size 0 wire_flags true.
Definition afp_sl_listxattr (volid : option Z) (path list_ : option (list Z)) (size : Z) : K P (Z * list Z) :=
  metadata_call AFPSL_IPC_COMMAND_LISTXATTR volid path None list_ size 0 0 false.
Definition afp_sl_removexattr (volid : option Z) (path name : option (list Z)) : K P (Z * list Z) :=
  metadata_call AFPSL_IPC_COMMAND_REMOVEXATTR volid path name None 0 0 0 false.
Definition afp_sl_getfinderinfo (volid : option Z) (path value : option (list Z)) (size : Z) : K P (Z * list Z) :=
  metadata_call AFPSL_IPC_COMMAND_GETFINDERINFO volid path None value size 0 0 false.
Definition afp_sl_setfinderinfo (volid : option Z) (path value : option (list Z)) (size : Z) : K P (Z * list Z) :=
  metadata_call AFPSL_IPC_COMMAND_SETFINDERINFO volid path None value size 0 0 true.
Definition afp_sl_removefinderinfo (volid : option Z) (path : option (list Z)) : K P (Z * list Z) :=
  metadata_call AFPSL_IPC_COMMAND_REMOVEFINDERINFO volid path None None 0 0 0 false.
Definition afp_sl_getresourcefork (volid : option Z) (path value : option (list Z)) (size offset : Z) : K P (Z * list Z) :=
  metadata_call AFPSL_IPC_COMMAND_GETRESOURCEFORK volid path None value size offset 0 false.
Definition afp_sl_setresourcefork (volid : option Z) (path value : option (list Z)) (size offset : Z) : K P (Z * list Z) :=
  if (offset >? INT_MAX) || (size >? INT_MAX - offset) then kret (- EFBIG, [])
  else metadata_call AFPSL_IPC_COMMAND_SETRESOURCEFORK volid path None value size offset 0 true.
Definition afp_sl_truncateresourcefork (volid : option Z) (path : option (list Z)) (size : Z) : K P (Z * list Z) :=
  if size >? INT_MAX then kret (- EFBIG, [])
  else metadata_call AFPSL_IPC_COMMAND_TRUNCATERESOURCEFORK volid path None None 0 size 0 false.
Definition afp_sl_removeresourcefork (volid : option Z) (path : option (list Z)) : K P (Z * list Z) :=
  metadata_call AFPSL_IPC_COMMAND_REMOVERESOURCEFORK volid path None None 0 0 0 false.

End Calls.
