(* ===== verification/Link.v ===== *)
(** The library and the daemon joined by a socket: what one writes the other
    reads, in pieces and with interruptions as a schedule says, and the framing
    of both sides over it. *)
From stdpp Require Import gmap.
From S2P Require Import Prelude AfpProtocol Identify Local Sidecar Path Dates ReplyBlock Listing World DidCache ForkList LowLevel Resource Midlevel Xattr Ipc Daemon Stateless.
Local Open Scope afp_scope.

(** ** Members of structures *)

Lemma to_nat_zlen {A} (l : list A) n : n = zlen l -> Z.to_nat n = length l.
Proof. intros ->. unfold zlen. lia. Qed.

Lemma le_put_length n v : length (le_put n v) = n.
Proof. unfold le_put. by rewrite length_rev, be_put_length. Qed.

Lemma zlen_le_put n v : zlen (le_put n v) = Z.of_nat n.
Proof. unfold zlen. by rewrite le_put_length. Qed.

Lemma le_at_put pre n v post :
  0 <= v < 256 ^ Z.of_nat n -> le_at (pre ++ le_put n v ++ post) (zlen pre) (Z.of_nat n) = v.
Proof.
  intros Hv. unfold le_at, sub. rewrite drop_app_zlen by (unfold zlen; lia).
  rewrite take_app_zlen by (rewrite le_put_length; lia). unfold le_put. rewrite rev_involutive. by apply be_get_put_small.
Qed.

(** A member whose bytes are at [off]: the bytes before it as a list of known
    length. *)
Lemma le_at_put' l off n k pre v post :
  l = pre ++ le_put n v ++ post -> off = zlen pre -> k = Z.of_nat n -> 0 <= v < 256 ^ Z.of_nat n -> le_at l off k = v.
Proof. intros -> -> -> H. by apply le_at_put. Qed.

Lemma le_at_app l k off n : 0 <= off -> 0 <= n -> off + n <= zlen l -> le_at (l ++ k) off n = le_at l off n.
Proof. intros. unfold le_at. by rewrite sub_app_l. Qed.

(** ** Reads in pieces *)

(** A read of some of [avail] takes a part from its front. *)
Lemma read_piece_spec want avail sched :
  avail <> [] -> 0 < want ->
  (exists p rest sched', read_piece want avail sched = (Piece p, rest, sched') /\ avail = p ++ rest /\ p <> [] /\ zlen p <= want
     /\ (sched = [] /\ sched' = [] /\ zlen p = Z.min want (zlen avail) \/ (length sched' < length sched)%nat))
  \/ exists sched', read_piece want avail sched = (Interrupted, avail, sched') /\ (length sched' < length sched)%nat.
Proof.
  intros Ha Hw. unfold read_piece. destruct avail as [|b avail]; [done|]. set (l := b :: avail).
  assert (Hl : 1 <= zlen l) by (unfold l; rewrite zlen_cons; pose proof (zlen_nonneg avail); lia).
  assert (Hcut : forall n, 1 <= n -> take (Z.to_nat n) l <> [])
    by (intros n Hn; unfold l; destruct (Z.to_nat n) eqn:E; [lia|done]).
  destruct sched as [|k sched].
  - left. do 3 eexists. split; [reflexivity|]. rewrite take_drop. split; [done|]. split; [apply Hcut; lia|].
    split; [rewrite zlen_take; lia|]. left. split; [done|]. split; [done|]. rewrite zlen_take. lia.
  - destruct (Z.leb_spec k 0); [right; eexists; split; [reflexivity|]; simpl; lia|]. left. do 3 eexists.
    split; [reflexivity|]. rewrite take_drop. split; [done|]. split; [apply Hcut; lia|].
    split; [rewrite zlen_take; lia|]. right. simpl. lia.
Qed.

(** ** The daemon reads a request *)

(** [n] bytes of the request [r] are read. *)
Definition read_so_far (c : client) (r : list Z) (n : Z) : Prop :=
  (0 <= n < REQUEST_HEADER /\ incoming_header c = take (Z.to_nat n) r /\ complete_packet c = None)
  \/ (REQUEST_HEADER <= n < zlen r /\ complete_packet c = Some (take (Z.to_nat n) r)).

Lemma req_len_prefix r n : REQUEST_HEADER <= n -> n <= zlen r -> req_len (take (Z.to_nat n) r) = req_len r.
Proof.
  intros Hn Hl. unfold req_len. rewrite <- (take_drop (Z.to_nat n) r) at 2. unfold REQUEST_HEADER in Hn.
  rewrite le_at_app; [done|lia|lia|]. rewrite zlen_take. lia.
Qed.

Lemma take_more (r rest p : list Z) n :
  0 <= n -> drop (Z.to_nat n) r = p ++ rest ->
  take (Z.to_nat n) r ++ p = take (Z.to_nat (n + zlen p)) r /\ drop (Z.to_nat (n + zlen p)) r = rest
  /\ (n <= zlen r -> n + zlen p <= zlen r).
Proof.
  intros Hn E. pose proof (zlen_nonneg p). split; [|split].
  - rewrite Z2Nat.inj_add by lia. rewrite <- (take_take_drop r (Z.to_nat n) (Z.to_nat (zlen p))). f_equal.
    rewrite E. rewrite take_app_zlen; [done|]. unfold zlen. lia.
  - rewrite Z2Nat.inj_add by lia. rewrite <- drop_drop, E. apply drop_app_zlen. unfold zlen. lia.
  - intros Hl. assert (Hd : zlen (drop (Z.to_nat n) r) = zlen p + zlen rest) by (by rewrite E, zlen_app).
    rewrite zlen_drop in Hd. pose proof (zlen_nonneg rest). lia.
Qed.

(** A piece no longer than what is missing is of the request. *)
Lemma piece_of (r more : list Z) n p rest :
  0 <= n -> drop (Z.to_nat n) r ++ more = p ++ rest -> zlen p <= zlen r - n ->
  exists rest', drop (Z.to_nat n) r = p ++ rest' /\ rest = rest' ++ more.
Proof.
  intros Hn E Hp. assert (Hl : (length p <= length (drop (Z.to_nat n) r))%nat) by (rewrite length_drop; unfold zlen in Hp; lia).
  exists (drop (length p) (drop (Z.to_nat n) r)). split.
  - rewrite <- (take_drop (length p) (drop (Z.to_nat n) r)) at 1. f_equal.
    rewrite <- (take_app_le _ more) by done. rewrite E. by apply take_app_zlen.
  - rewrite <- drop_app_le by done. rewrite E. symmetry. by apply drop_app_zlen.
Qed.

(** The packet's bytes that one call adds. *)
Lemma read_body_step heap c r more n sched :
  complete_packet c = Some (take (Z.to_nat n) r) -> REQUEST_HEADER <= n < zlen r -> req_len r = zlen r ->
  process_command heap c (drop (Z.to_nat n) r ++ more) sched = read_body c (take (Z.to_nat n) r) (drop (Z.to_nat n) r ++ more) sched
  /\ exists v m c' sched', read_body c (take (Z.to_nat n) r) (drop (Z.to_nat n) r ++ more) sched = (v, c', drop (Z.to_nat m) r ++ more, sched')
       /\ n <= m <= zlen r /\ complete_packet c' = Some (take (Z.to_nat m) r) /\ v = (if m =? zlen r then 0 else 2)
       /\ ipc_ready c' = ipc_ready c /\ outgoing_string c' = outgoing_string c
       /\ (sched = [] /\ m = zlen r \/ (length sched' < length sched)%nat).
Proof.
  intros Hc Hn Hr. unfold REQUEST_HEADER in Hn. split; [unfold process_command; by rewrite Hc|]. unfold read_body.
  rewrite req_len_prefix, Hr by (unfold REQUEST_HEADER; lia). rewrite zlen_take, Z2Nat.id by lia.
  replace (Z.min n (zlen r)) with n by lia. replace (n <? zlen r) with true by lia.
  assert (Hne : drop (Z.to_nat n) r ++ more <> []).
  { intros [E _]%app_eq_nil. assert (Hz : zlen (drop (Z.to_nat n) r) = 0) by (by rewrite E). rewrite zlen_drop in Hz. lia. }
  destruct (read_piece_spec (zlen r - n) _ sched Hne ltac:(lia)) as [(p & rest & s' & -> & E & Hp & Hl & Hs)|(s' & -> & Hs)].
  - destruct (piece_of r more n p rest ltac:(lia) E Hl) as (rest' & E' & ->).
    destruct (take_more r rest' p n ltac:(lia) E') as (T1 & T2 & T3). rewrite T1. rewrite zlen_take.
    pose proof (zlen_nonneg p). rewrite Z2Nat.id by lia. replace (Z.min (n + zlen p) (zlen r)) with (n + zlen p) by lia.
    exists (if n + zlen p =? zlen r then 0 else 2), (n + zlen p), (set_packet (take (Z.to_nat (n + zlen p)) r) c), s'.
    split; [rewrite T2; do 3 f_equal; case_if; bool_to_prop; destruct (n + zlen p =? zlen r) eqn:Ee; bool_to_prop; lia || done|].
    split; [lia|]. split; [done|]. split; [done|]. split; [done|]. split; [done|].
    destruct Hs as [(-> & -> & Hm)|Hs]; [|by right]. left. split; [done|].
    rewrite zlen_app, zlen_drop, Z2Nat.id in Hm by lia. pose proof (zlen_nonneg more). lia.
  - exists 2, n, c, s'. split; [done|]. split; [lia|]. split; [done|]. split; [by replace (n =? zlen r) with false by lia|].
    split; [done|]. split; [done|]. by right.
Qed.

(** The reading went on: all of [r] is in the packet, or a part of it. *)
Definition went_on (c : client) (r : list Z) (more sched : list Z) (x : reading) : Prop :=
  exists v m c' sched', x = (v, c', drop (Z.to_nat m) r ++ more, sched')
    /\ ipc_ready c' = ipc_ready c /\ outgoing_string c' = outgoing_string c
    /\ (v = 0 /\ m = zlen r /\ complete_packet c' = Some r
        \/ v = 2 /\ read_so_far c' r m /\ (length sched' < length sched)%nat).

Lemma read_body_on c r more n sched :
  complete_packet c = Some (take (Z.to_nat n) r) -> REQUEST_HEADER <= n <= zlen r -> req_len r = zlen r ->
  went_on c r more sched (read_body c (take (Z.to_nat n) r) (drop (Z.to_nat n) r ++ more) sched).
Proof.
  intros Hc Hn Hr. unfold REQUEST_HEADER in Hn. destruct (Z.eq_dec n (zlen r)) as [->|Hne].
  - exists 0, (zlen r), c, sched. unfold read_body. rewrite req_len_prefix, Hr by (unfold REQUEST_HEADER; lia).
    rewrite take_ge in * by (unfold zlen; lia). replace (zlen r <? zlen r) with false by lia.
    split; [done|]. split; [done|]. split; [done|]. by left.
  - destruct (read_body_step (fun _ => true) c r more n sched Hc ltac:(unfold REQUEST_HEADER; lia) Hr)
      as (_ & v & m & c' & sched' & E & Hm & Hp & Hv & H1 & H2 & H3).
    exists v, m, c', sched'. split; [exact E|]. split; [done|]. split; [done|].
    destruct (Z.eqb_spec m (zlen r)) as [->|Hne']; [left|right].
    + split; [done|]. split; [done|]. rewrite Hp. by rewrite take_ge by (unfold zlen; lia).
    + split; [done|]. split; [right; split; [unfold REQUEST_HEADER; lia|done]|]. destruct H3 as [[_ H3]|H3]; [done|done].
Qed.

Lemma went_on_shorter c c0 r more sched sched0 x :
  (length sched <= length sched0)%nat -> ipc_ready c = ipc_ready c0 -> outgoing_string c = outgoing_string c0 ->
  went_on c r more sched x -> went_on c0 r more sched0 x.
Proof.
  intros Hs H1 H2 (v & m & c' & sched' & E & E1 & E2 & H). exists v, m, c', sched'. split; [done|].
  split; [congruence|]. split; [congruence|]. destruct H as [H|(Hv & Hr & Hl)]; [by left|right]. split; [done|]. split; [done|lia].
Qed.

Lemma process_command_on heap c r more n sched :
  read_so_far c r n -> REQUEST_HEADER <= zlen r <= AFPSL_IPC_MAX_REQUEST -> req_len r = zlen r -> (forall k, heap k = true) ->
  went_on c r more sched (process_command heap c (drop (Z.to_nat n) r ++ more) sched).
Proof.
  intros [(Hn & Hh & Hp)|[Hn Hp]] Hl Hr Hheap; unfold process_command; rewrite Hp.
  2: { apply read_body_on; [done|lia|done]. }
  rewrite Hh. unfold REQUEST_HEADER in *. rewrite zlen_take, Z2Nat.id by lia. replace (Z.min n (zlen r)) with n by lia.
  assert (Hne : drop (Z.to_nat n) r ++ more <> []).
  { intros [E _]%app_eq_nil. assert (Hz : zlen (drop (Z.to_nat n) r) = 0) by (by rewrite E). rewrite zlen_drop in Hz. lia. }
  destruct (read_piece_spec (12 - n) _ sched Hne ltac:(lia)) as [(p & rest & s' & -> & E & Hpn & Hpl & Hs)|(s' & -> & Hs)].
  - destruct (piece_of r more n p rest ltac:(lia) E ltac:(lia)) as (rest' & E' & ->).
    destruct (take_more r rest' p n ltac:(lia) E') as (T1 & T2 & T3). rewrite T1. pose proof (zlen_nonneg p).
    rewrite zlen_take, Z2Nat.id by lia. replace (Z.min (n + zlen p) (zlen r)) with (n + zlen p) by lia. rewrite <- T2.
    destruct (Z.ltb_spec (n + zlen p) 12) as [Hshort|Hlong].
    + exists 2, (n + zlen p), (set_header (take (Z.to_nat (n + zlen p)) r) c), s'. split; [done|]. split; [done|]. split; [done|].
      right. split; [done|]. split; [left; split; [unfold REQUEST_HEADER; lia|done]|].
      destruct Hs as [(-> & -> & Hm)|Hs]; [|done]. exfalso. rewrite zlen_app, zlen_drop, Z2Nat.id in Hm by lia.
      pose proof (zlen_nonneg more). lia.
    + rewrite req_len_prefix, Hr by (unfold REQUEST_HEADER; lia). replace (_ || _) with false by lia. rewrite Hheap. cbn [negb].
      apply (went_on_shorter (set_packet (take (Z.to_nat (n + zlen p)) r) (set_header (take (Z.to_nat (n + zlen p)) r) c)) c r more s' sched);
        [destruct Hs as [(-> & -> & _)|Hs]; lia|done|done|].
      apply read_body_on; [done|unfold REQUEST_HEADER; lia|done].
  - exists 2, n, c, s'. split; [done|]. split; [done|]. split; [done|]. right. split; [done|]. split; [|done].
    left. unfold REQUEST_HEADER. done.
Qed.

(** A request of the library arrives whole, however it is cut, and what follows
    it stays on the socket. *)
Lemma read_request_ok fuel heap c r more n sched :
  read_so_far c r n -> REQUEST_HEADER <= zlen r <= AFPSL_IPC_MAX_REQUEST -> req_len r = zlen r -> (forall k, heap k = true) ->
  (length sched < fuel)%nat ->
  exists c' sched', read_request fuel heap c (drop (Z.to_nat n) r ++ more) sched = (Some r, c', more, sched')
    /\ ipc_ready c' = ipc_ready c /\ outgoing_string c' = outgoing_string c.
Proof.
  revert c n sched. induction fuel as [|fuel IH]; intros c n sched Hs Hl Hr Hh Hf; [lia|]. cbn [read_request].
  destruct (process_command_on heap c r more n sched Hs Hl Hr Hh) as (v & m & c' & sched' & -> & E1 & E2 & [(-> & -> & Hp)|(-> & Hs' & Hl')]).
  - change (0 =? 0) with true. cbv iota. rewrite Hp, drop_ge by (unfold zlen; lia). by exists c', sched'.
  - change (2 =? 0) with false. change (2 =? 2) with true. cbv iota.
    destruct (IH c' m sched' Hs' Hl Hr Hh ltac:(lia)) as (c2 & s2 & -> & E3 & E4). exists c2, s2. split; [done|]. split; congruence.
Qed.

(** What is left of a schedule is of it. *)
Lemma read_piece_sched (P : Z -> Prop) want avail sched : Forall P sched -> Forall P (snd (read_piece want avail sched)).
Proof.
  intros HP. unfold read_piece. destruct avail; [done|]. destruct sched as [|k sched]; [done|]. apply Forall_cons in HP as [_ HP].
  by case_if.
Qed.

Lemma read_body_sched (P : Z -> Prop) c packet avail sched : Forall P sched -> Forall P (snd (read_body c packet avail sched)).
Proof.
  intros HP. unfold read_body. case_if; [|done]. pose proof (read_piece_sched P (req_len packet - zlen packet) avail sched HP) as HF.
  by destruct (read_piece _ _ _) as [[[p| |] a] s].
Qed.

Lemma process_command_sched (P : Z -> Prop) heap c avail sched : Forall P sched -> Forall P (snd (process_command heap c avail sched)).
Proof.
  intros HP. unfold process_command. destruct (complete_packet c); [by apply read_body_sched|].
  pose proof (read_piece_sched P (REQUEST_HEADER - zlen (incoming_header c)) avail sched HP) as HF.
  destruct (read_piece _ _ _) as [[[p| |] a] s]; try done. repeat case_if; try done. by apply read_body_sched.
Qed.

Lemma read_request_sched (P : Z -> Prop) fuel heap c avail sched : Forall P sched -> Forall P (snd (read_request fuel heap c avail sched)).
Proof.
  revert c avail sched. induction fuel as [|fuel IH]; intros c avail sched HP; [done|]. cbn [read_request].
  pose proof (process_command_sched P heap c avail sched HP) as HF. destruct (process_command _ _ _ _) as [[[r c'] a] s].
  repeat case_if; [done|by apply IH|done].
Qed.

(** ** The log of an answer *)

Definition log_entry (e : Z * list Z) : list Z := afpsl_ipc_log_record (fst e) (zlen (snd e)) ++ snd e.
Definition log_bytes (l : list (Z * list Z)) : list Z := flat_map log_entry l.

(** A level is an int, a message has no zero and fits. *)
Definition entry_ok (e : Z * list Z) : Prop :=
  - 2 ^ 31 <= fst e < 2 ^ 31 /\ no_nul (snd e) /\ zlen (snd e) <= AFPSL_IPC_LOG_BUFFER_SIZE.

Lemma i32_le_put v : - 2 ^ 31 <= v < 2 ^ 31 -> forall pre post, i32 (le_at (pre ++ le_put 4 v ++ post) (zlen pre) 4) = v.
Proof.
  intros Hv pre post. unfold le_at, sub. rewrite drop_app_zlen by (unfold zlen; lia).
  rewrite take_app_zlen by (by rewrite le_put_length). unfold le_put. rewrite rev_involutive, be_get_put.
  change (256 ^ Z.of_nat 4) with (2 ^ 32). unfold i32. rewrite Zplus_mod_idemp_l. rewrite Z.mod_small by lia. lia.
Qed.

Lemma zlen_log_record lv n : zlen (afpsl_ipc_log_record lv n) = LOG_RECORD.
Proof. unfold afpsl_ipc_log_record. by rewrite zlen_app, !zlen_le_put. Qed.

Lemma dispatch_log fuel l : Forall entry_ok l -> (length l <= fuel)%nat -> dispatch_records fuel (log_bytes l) = (l, true).
Proof.
  revert l. induction fuel as [|fuel IH]; intros [|[lv m] l] Hl Hf; [done|simpl in Hf; lia|done|].
  apply Forall_cons in Hl as [(H1 & H2 & H3) Hl]. cbn [fst snd] in H1, H2, H3. pose proof (zlen_nonneg m). pose proof (zlen_nonneg (log_bytes l)).
  assert (E : log_bytes ((lv, m) :: l) = le_put 4 lv ++ le_put 4 (zlen m) ++ m ++ log_bytes l)
    by (unfold log_bytes; cbn [flat_map]; unfold log_entry, afpsl_ipc_log_record; cbn [fst snd]; by rewrite <- !app_assoc).
  rewrite E. cbn [dispatch_records]. destruct (le_put 4 lv ++ _) as [|b rest] eqn:Eb at 1;
    [apply (f_equal zlen) in Eb; rewrite zlen_app, zlen_le_put in Eb; change (zlen []) with 0 in Eb; pose proof (zlen_nonneg (le_put 4 (zlen m) ++ m ++ log_bytes l)); lia|].
  clear b rest Eb. unfold AFPSL_IPC_LOG_BUFFER_SIZE in H3. rewrite !zlen_app, !zlen_le_put. change (Z.of_nat 4) with 4. replace (_ <? LOG_RECORD) with false by (unfold LOG_RECORD; lia).
  pose proof (i32_le_put lv H1 [] (le_put 4 (zlen m) ++ m ++ log_bytes l)) as Elv. change (zlen []) with 0 in Elv. cbn [app] in Elv.
  rewrite Elv. rewrite (le_at_put' _ 4 4 4 (le_put 4 lv) (zlen m) (m ++ log_bytes l)); [|done|by rewrite zlen_le_put|done|lia].
  assert (Ed : drop (Z.to_nat LOG_RECORD) (le_put 4 lv ++ le_put 4 (zlen m) ++ m ++ log_bytes l) = m ++ log_bytes l).
  { rewrite app_assoc. apply drop_app_zlen. rewrite length_app, !le_put_length. done. }
  rewrite Ed. rewrite zlen_app. replace (_ || _) with false by (unfold AFPSL_IPC_LOG_BUFFER_SIZE; lia).
  rewrite drop_app_zlen, take_app_zlen by (unfold zlen; lia). rewrite IH by (done || simpl in Hf; lia). by rewrite until_nul_id.
Qed.

(** ** Answers *)

(** What is before a log and its footer. *)
Lemma answer_content_length x log : zlen log <= AFPSL_IPC_LOG_BUFFER_SIZE ->
  afp_sl_response_content_length (x ++ log ++ afpsl_ipc_log_footer (zlen log)) = Some (zlen x).
Proof.
  intros Hl. unfold AFPSL_IPC_LOG_BUFFER_SIZE in Hl. unfold afp_sl_response_content_length, afpsl_ipc_log_footer. pose proof (zlen_nonneg x). pose proof (zlen_nonneg log).
  rewrite !zlen_app, !zlen_le_put. unfold LOG_FOOTER. change (Z.of_nat 4) with 4.
  replace (_ <? 8) with false by lia.
  rewrite (le_at_put' _ _ 4 4 (x ++ log) AFPSL_IPC_LOG_MAGIC (le_put 4 (zlen log)));
    [|by rewrite <- !app_assoc|rewrite zlen_app; lia|done|unfold AFPSL_IPC_LOG_MAGIC; lia].
  rewrite (le_at_put' _ _ 4 4 (x ++ log ++ le_put 4 AFPSL_IPC_LOG_MAGIC) (zlen log) []);
    [|by rewrite <- !app_assoc, app_nil_r|rewrite !zlen_app, zlen_le_put; lia|done|lia].
  rewrite Z.eqb_refl. replace (_ || _ || _) with false by (unfold AFPSL_IPC_LOG_BUFFER_SIZE; cbn [negb]; lia). f_equal. lia.
Qed.

Lemma log_long l : (length l <= length (log_bytes l))%nat.
Proof.
  induction l as [|e l IH]; [done|]. unfold log_bytes in *. cbn [flat_map]. rewrite length_app. unfold log_entry at 1, afpsl_ipc_log_record.
  rewrite !length_app, !le_put_length. simpl. lia.
Qed.

Lemma dispatch_answer x l : Forall entry_ok l -> zlen (log_bytes l) <= AFPSL_IPC_LOG_BUFFER_SIZE ->
  afp_sl_dispatch_response_logs (x ++ log_bytes l ++ afpsl_ipc_log_footer (zlen (log_bytes l))) = (l, true).
Proof.
  intros Hl Hz. unfold afp_sl_dispatch_response_logs. rewrite answer_content_length by done.
  replace (sub (zlen x) _ _) with (log_bytes l); [apply dispatch_log; [done|apply log_long]|].
  unfold sub. rewrite drop_app_zlen by (unfold zlen; lia). symmetry. apply take_app_zlen.
  unfold afpsl_ipc_log_footer. rewrite !zlen_app, !zlen_le_put. unfold LOG_FOOTER, zlen. lia.
Qed.

(** The bytes of an answer on the socket: its length is the whole's. *)
Definition framed (content : list Z) (total : Z) : list Z := take 4 content ++ le_put 4 total ++ drop 8 content.

Lemma zlen_framed content total : RESPONSE_HEADER <= zlen content -> zlen (framed content total) = zlen content.
Proof.
  unfold RESPONSE_HEADER. intros H. unfold framed. rewrite !zlen_app, zlen_le_put, zlen_take, zlen_drop. lia.
Qed.

Lemma send_command_ok heap c content :
  RESPONSE_HEADER <= zlen content -> zlen content <= UINT32_MAX - AFPSL_IPC_LOG_BUFFER_SIZE - LOG_FOOTER ->
  zlen (outgoing_string c) <= AFPSL_IPC_LOG_BUFFER_SIZE -> (forall k, heap k = true) ->
  let log := outgoing_string c in
  let total := zlen content + zlen log + LOG_FOOTER in
  send_command heap c content = Some (framed content total ++ log ++ afpsl_ipc_log_footer (zlen log)).
Proof.
  intros H1 H2 H3 Hh. unfold RESPONSE_HEADER, AFPSL_IPC_LOG_BUFFER_SIZE, LOG_FOOTER, UINT32_MAX in *. cbv zeta. unfold send_command.
  pose proof (zlen_nonneg (outgoing_string c)). unfold RESPONSE_HEADER, AFPSL_IPC_LOG_BUFFER_SIZE, LOG_FOOTER, UINT32_MAX.
  replace (_ <? 8) with false by lia. replace (_ || _) with false by lia. rewrite Hh. cbn [negb]. f_equal.
  unfold store, framed. rewrite le_put_length. change (Z.to_nat 4) with 4%nat. rewrite take_app_le by (unfold zlen in H1; lia).
  rewrite drop_app_le by (unfold zlen in H1; lia). rewrite <- !app_assoc. done.
Qed.

Lemma framed_len content total post :
  RESPONSE_HEADER <= zlen content -> 0 <= total <= UINT32_MAX -> resp_len (framed content total ++ post) = total.
Proof.
  intros H1 H2. unfold RESPONSE_HEADER, UINT32_MAX in *. unfold resp_len, framed. rewrite <- !app_assoc.
  apply (le_at_put' _ _ 4 _ (take 4 content) total (drop 8 content ++ post)); [done|rewrite zlen_take; lia|done|lia].
Qed.

Lemma framed_result content total post : RESPONSE_HEADER <= zlen content -> resp_result (framed content total ++ post) = resp_result content.
Proof.
  intros H. unfold RESPONSE_HEADER in H. unfold resp_result, framed. f_equal. rewrite <- app_assoc. rewrite le_at_app by (rewrite ?zlen_take; lia).
  rewrite <- (take_drop 4 content) at 2. rewrite le_at_app by (rewrite ?zlen_take; lia). done.
Qed.

(** What the daemon logs is a log. *)
Lemma daemon_log_ok l level message :
  Forall entry_ok l -> - 2 ^ 31 <= level < 2 ^ 31 -> no_nul message -> zlen (log_bytes l) <= AFPSL_IPC_LOG_BUFFER_SIZE ->
  exists l', daemon_log_for_client (log_bytes l) level message = log_bytes l' /\ Forall entry_ok l'
    /\ zlen (log_bytes l') <= AFPSL_IPC_LOG_BUFFER_SIZE.
Proof.
  intros Hl Hlv Hm Hs. unfold AFPSL_IPC_LOG_BUFFER_SIZE in *. unfold daemon_log_for_client. rewrite strlen_id by done.
  assert (exists l0, (if zlen (log_bytes l) >=? AFPSL_IPC_LOG_BUFFER_SIZE then [] else log_bytes l) = log_bytes l0
    /\ Forall entry_ok l0 /\ zlen (log_bytes l0) <= 4096) as (l0 & -> & H0 & Hz).
  { case_if; [exists []; split; [done|]; split; [constructor|]; change (zlen (log_bytes [])) with 0; lia|by exists l]. }
  cbv zeta. unfold AFPSL_IPC_LOG_BUFFER_SIZE. case_if; bool_to_prop; [|by exists l0]. pose proof (zlen_nonneg message). unfold LOG_RECORD in *.
  set (k := if Z.min (zlen message) UINT32_MAX >? 4096 - zlen (log_bytes l0) - 8 then 4096 - zlen (log_bytes l0) - 8 else Z.min (zlen message) UINT32_MAX).
  assert (Hk : 0 <= k <= zlen message /\ k <= 4096 - zlen (log_bytes l0) - 8) by (unfold k, UINT32_MAX; pose proof (zlen_nonneg (log_bytes l0)); case_if; bool_to_prop; lia).
  exists (l0 ++ [(level, take (Z.to_nat k) message)]). unfold log_bytes. rewrite flat_map_app. cbn [flat_map].
  assert (Hz' : zlen (take (Z.to_nat k) message) = k) by (rewrite zlen_take; lia).
  split; [rewrite app_nil_r; unfold log_entry; cbn [fst snd]; by rewrite Hz'|]. split.
  - apply Forall_app. split; [done|]. constructor; [|constructor]. split; [done|]. split; [by apply Forall_take|].
    cbn [snd]. unfold AFPSL_IPC_LOG_BUFFER_SIZE. pose proof (zlen_nonneg (log_bytes l0)). lia.
  - rewrite app_nil_r, zlen_app. fold (log_bytes l0). unfold log_entry. cbn [fst snd].
    rewrite zlen_app, zlen_log_record, Hz'. unfold LOG_RECORD. lia.
Qed.
