(* ===== verification/Rpc.v ===== *)
(** Calls of the library through the daemon: the answer a caller gets is the
    one of the operation the daemon runs. *)
From stdpp Require Import gmap.
From S2P Require Import Prelude AfpProtocol Identify Local Sidecar Path Dates ReplyBlock Listing World DidCache ForkList LowLevel Resource Midlevel Xattr Ipc Daemon Stateless Link.
Local Open Scope afp_scope.

(** ** The two processes *)

(** The daemon, its client if the connection stands, the bytes under way in
    each direction and the schedules of their reads. *)
Record link (E : Type) := MkLink {
  l_daemon : daemon E; l_client : option client; l_inbox : list Z; l_outbox : list Z; l_in : list Z; l_out : list Z }.
Arguments MkLink {E}.
Arguments l_daemon {E}.
Arguments l_client {E}.
Arguments l_inbox {E}.
Arguments l_outbox {E}.
Arguments l_in {E}.
Arguments l_out {E}.

Section Joined.
Context {E : Type} `{Env E} `{Platform}.

(** What is in memory that nothing set, and behind a packet; the handlers that
    are not modelled; the bound on a listing's pages; and what the daemon logs
    of a call. *)
Context (stale beyond : list Z) (others : Z -> Z -> list Z -> D E outcome) (pages : nat) (logged : list (Z * list Z)).

(** The daemon serves the request that arrived. *)
Definition serve (l : link E) : link E :=
  match l_client l with
  | None => l
  | Some c =>
      match read_request (Datatypes.S (length (l_in l))) (fun _ => true) c (l_inbox l) (l_in l) with
      | (Some packet, c, rest, sched) =>
          let '(o, ready, d) := process_command_thread stale others pages (ipc_ready c) (zlen packet) (packet ++ beyond)
                                  (set_payload rest sched (l_daemon l)) in
          let (bytes, next) := finish_response (fun _ => true) (set_ready ready (set_log (log_bytes logged) c)) o in
          MkLink d next (payload d) bytes (payload_sched d) (l_out l)
      | (None, c, rest, sched) => MkLink (l_daemon l) None rest [] sched (l_out l)
      end
  end.

Definition link_send (data : list Z) (l : link E) : bool * link E :=
  match l_client l with
  | None => (false, l)
  | Some c => (true, MkLink (l_daemon l) (Some c) (l_inbox l ++ data) (l_outbox l) (l_in l) (l_out l))
  end.

Definition settle (l : link E) : link E := match l_outbox l with [] => serve l | _ => l end.

Definition link_recv (n : Z) (l : link E) : arrival * link E :=
  let l := settle l in
  match read_piece n (l_outbox l) (l_out l) with
  | (g, rest, sched) =>
      (match g with Piece p => Arrived p | Interrupted => Again | Ended => Lost end,
       MkLink (l_daemon l) (l_client l) (l_inbox l) rest (l_in l) sched)
  end.

Definition link_connect (l : link E) : bool * link E :=
  (true, MkLink (l_daemon l) (Some (Client [] None false [])) [] [] (l_in l) (l_out l)).

#[local] Instance link_peer : Peer (link E) := { peer_connect := link_connect; peer_send := link_send; peer_recv := link_recv }.

(** Nothing is under way. *)
Definition idle (l : link E) : Prop :=
  l_inbox l = [] /\ l_outbox l = []
  /\ exists c, l_client l = Some c /\ incoming_header c = [] /\ complete_packet c = None /\ ipc_ready c = true.

(** ** Reads of an answer *)

Definition set_outbox (b s : list Z) (l : link E) : link E := MkLink (l_daemon l) (l_client l) (l_inbox l) b (l_in l) s.

Lemma recv_piece n (l : link E) open logs :
  l_outbox l <> [] -> 0 < n ->
  exists a rest s', recv n (Conn open logs l) = (a, Conn open logs (set_outbox rest s' l))
    /\ ((a = Again /\ rest = l_outbox l /\ (length s' < length (l_out l))%nat)
        \/ exists p, a = Arrived p /\ l_outbox l = p ++ rest /\ p <> [] /\ zlen p <= n
             /\ (l_out l = [] /\ s' = [] /\ zlen p = Z.min n (zlen (l_outbox l)) \/ (length s' < length (l_out l))%nat)).
Proof.
  intros Ho Hn. unfold recv. cbn [peer shown_logs fd_open peer_recv link_peer]. unfold link_recv.
  assert (Es : settle l = l) by (unfold settle; by destruct (l_outbox l)). rewrite Es.
  destruct (read_piece_spec n (l_outbox l) (l_out l) Ho Hn) as [(p & rest & s' & -> & E1 & E2 & E3 & E4)|(s' & -> & E1)].
  - exists (Arrived p), rest, s'. split; [done|]. right. by exists p.
  - exists Again, (l_outbox l), s'. split; [done|]. by left.
Qed.

(** The bytes still to come of an answer [b], of which [n] are read. *)
Lemma read_framed fuel (l : link E) open logs b n cap :
  l_outbox l = drop (Z.to_nat n) b -> 0 <= n < zlen b -> zlen b <= cap -> resp_len b = zlen b -> RESPONSE_HEADER + LOG_FOOTER <= zlen b ->
  (length (l_out l) < fuel)%nat ->
  exists s', afp_sl_read_framed_response fuel cap (take (Z.to_nat n) b) (Conn open logs l)
    = (Some b, Conn open logs (set_outbox [] s' l)).
Proof.
  revert l n. induction fuel as [|fuel IH]; intros l n Ho Hn Hc Hr Hb Hf; [lia|]. cbn [afp_sl_read_framed_response].
  unfold RESPONSE_HEADER, LOG_FOOTER in *. rewrite zlen_take, Z2Nat.id by lia. replace (Z.min n (zlen b)) with n by lia.
  replace (n >=? cap) with false by lia. unfold kbind.
  assert (Hne : l_outbox l <> []) by (rewrite Ho; intros Ed; assert (Hz : zlen (drop (Z.to_nat n) b) = 0) by (by rewrite Ed); rewrite zlen_drop in Hz; lia).
  destruct (recv_piece (cap - n) l open logs Hne ltac:(lia)) as (a & rest & s' & -> & [(-> & -> & Hs)|(p & -> & E1 & E2 & E3 & Hs)]).
  - destruct (IH (set_outbox (l_outbox l) s' l) n) as (s2 & E2); [done|lia|done|done|unfold RESPONSE_HEADER, LOG_FOOTER; lia|simpl; lia|].
    exists s2. exact E2.
  - rewrite Ho in E1. destruct (take_more b rest p n ltac:(lia) E1) as (T1 & T2 & T3). rewrite T1. pose proof (zlen_nonneg p).
    rewrite zlen_take, Z2Nat.id by lia. replace (Z.min (n + zlen p) (zlen b)) with (n + zlen p) by lia.
    assert (Hp : zlen p <> 0) by (intros Hz; by apply zlen_0_inv in Hz).
    assert (Hgo : n + zlen p < zlen b -> exists s2, afp_sl_read_framed_response fuel cap (take (Z.to_nat (n + zlen p)) b) (Conn open logs (set_outbox rest s' l))
      = (Some b, Conn open logs (set_outbox [] s2 l))).
    { intros Hlt. destruct (IH (set_outbox rest s' l) (n + zlen p)) as (s2 & E2'); [done|lia|done|done|unfold RESPONSE_HEADER, LOG_FOOTER; lia| |by exists s2].
      destruct Hs as [(Hs1 & -> & Hs2)|Hs]; [|simpl; lia]. exfalso. rewrite Ho, zlen_drop, Z2Nat.id in Hs2 by lia. lia. }
    destruct (Z.ltb_spec (n + zlen p) 8) as [H8|H8]; [apply Hgo; lia|].
    assert (Hlen : resp_len (take (Z.to_nat (n + zlen p)) b) = zlen b).
    { rewrite <- Hr. unfold resp_len. rewrite <- (take_drop (Z.to_nat (n + zlen p)) b) at 2. rewrite le_at_app; [done|lia|lia|]. rewrite zlen_take. lia. }
    rewrite Hlen. replace (_ || _) with false by lia. destruct (Z.eqb_spec (n + zlen p) (zlen b)) as [He|He].
    + rewrite He, take_ge by (unfold zlen; lia). exists s'. do 4 f_equal. rewrite <- T2, He. apply drop_ge. unfold zlen. lia.
    + replace (n + zlen p >? zlen b) with false by lia. apply Hgo. lia.
Qed.

(** Exactly the bytes [x] of what is to come. *)
Lemma read_bytes fuel (l : link E) open logs x rest acc :
  l_outbox l = x ++ rest -> x = [] \/ (length (l_out l) < fuel)%nat ->
  exists s', read_bytes_with_timeout fuel (zlen acc + zlen x) acc (Conn open logs l) = (Some (acc ++ x), Conn open logs (set_outbox rest s' l))
    /\ (length s' <= length (l_out l))%nat.
Proof.
  revert l x acc. induction fuel as [|fuel IH]; intros l x acc Ho Hf; cbn [read_bytes_with_timeout]; pose proof (zlen_nonneg x);
    (destruct (Z.eq_dec (zlen x) 0) as [Hz|Hz];
     [apply zlen_0_inv in Hz as ->; rewrite zlen_nil, Z.add_0_r, app_nil_r; replace (_ >=? _) with true by lia;
      exists (l_out l); split; [|done]; cbn [app] in Ho; unfold kret; do 2 f_equal; destruct l; unfold set_outbox; simpl in *; by subst|]);
    (destruct Hf as [->|Hf]; [done|]); [lia|].
  replace (_ >=? _) with false by lia. unfold kbind. replace (zlen acc + zlen x - zlen acc) with (zlen x) by lia.
  assert (Hne : l_outbox l <> []) by (rewrite Ho; intros [-> _]%app_eq_nil; done).
  destruct (recv_piece (zlen x) l open logs Hne ltac:(lia)) as (a & r2 & s' & -> & [(-> & -> & Hs)|(p & -> & E1 & E2 & E3 & Hs)]).
  - destruct (IH (set_outbox (l_outbox l) s' l) x acc) as (s2 & -> & Hl); [done|right; simpl; lia|]. exists s2. split; [done|]. simpl in Hl. lia.
  - rewrite Ho in E1. destruct (piece_of x rest 0 p r2 ltac:(lia) E1 ltac:(lia)) as (x' & Ex & Er). change (drop (Z.to_nat 0) x) with x in Ex. subst x r2.
    assert (Hp : zlen p <> 0) by (intros Hp; by apply zlen_0_inv in Hp). pose proof (zlen_nonneg x'). rewrite zlen_app in *.
    destruct (IH (set_outbox (x' ++ rest) s' l) x' (acc ++ p)) as (s2 & Eb & Hl); [done| |].
    + destruct Hs as [(Hs1 & -> & Hs2)|Hs]; [left|right; simpl; lia]. apply zlen_0_inv.
      rewrite Ho, !zlen_app in Hs2. pose proof (zlen_nonneg rest). lia.
    + exists s2. rewrite zlen_app in Eb. replace (zlen acc + (zlen p + zlen x')) with (zlen acc + zlen p + zlen x') by lia.
      rewrite Eb, <- app_assoc. split; [done|]. simpl in Hl. destruct Hs as [(Hs1 & -> & _)|Hs]; [rewrite Hs1; simpl in *; lia|lia].
Qed.

(** ** One exchange *)

Hypothesis logged_ok : Forall entry_ok logged /\ zlen (log_bytes logged) <= AFPSL_IPC_LOG_BUFFER_SIZE.

(** The bytes of an answer, its log behind it. *)
Definition wire (content : list Z) : list Z :=
  framed content (zlen content + zlen (log_bytes logged) + LOG_FOOTER) ++ log_bytes logged ++ afpsl_ipc_log_footer (zlen (log_bytes logged)).

(** An answer the library has room for. *)
Definition content_ok (content : list Z) : Prop := RESPONSE_HEADER <= zlen content <= UINT32_MAX - AFPSL_IPC_LOG_BUFFER_SIZE - LOG_FOOTER.

Lemma zlen_wire content : content_ok content -> zlen (wire content) = zlen content + zlen (log_bytes logged) + LOG_FOOTER.
Proof.
  intros [Hc _]. unfold wire. rewrite !zlen_app, zlen_framed by done. unfold afpsl_ipc_log_footer. rewrite !zlen_app, !zlen_le_put.
  unfold LOG_FOOTER. lia.
Qed.

Lemma wire_len content : content_ok content -> resp_len (wire content) = zlen (wire content).
Proof.
  intros Hc. rewrite zlen_wire by done. destruct Hc as [H1 H2]. unfold wire. pose proof (zlen_nonneg (log_bytes logged)).
  unfold AFPSL_IPC_LOG_BUFFER_SIZE, LOG_FOOTER, UINT32_MAX, RESPONSE_HEADER in *. destruct logged_ok as [_ Hl]. unfold AFPSL_IPC_LOG_BUFFER_SIZE in Hl.
  rewrite framed_len; [done|done|unfold UINT32_MAX; lia].
Qed.

(** The handler answers [content] and changes the daemon by [f], once the data
    [more] behind the request [r] are on the socket and arrive as [P] says; it
    leaves nothing there. *)
Definition handled_data (P : Z -> Prop) (r more content : list Z) (d : daemon E) (f : daemon E -> daemon E) : Prop :=
  forall s, Forall P s ->
            process_command_thread stale others pages true (zlen r) (r ++ beyond) (set_payload more s d)
            = (Answer content false, true, f (set_payload more s d))
            /\ payload (f (set_payload more s d)) = [].

Definition handled (r content : list Z) (d : daemon E) (f : daemon E -> daemon E) : Prop := handled_data (fun _ => True) r [] content d f.

Definition request_ok (r : list Z) : Prop := REQUEST_HEADER <= zlen r <= AFPSL_IPC_MAX_REQUEST /\ req_len r = zlen r.

Definition sent (r : list Z) (l : link E) : link E :=
  MkLink (l_daemon l) (l_client l) r (l_outbox l) (l_in l) (l_out l).

Lemma serve_data_ok P l r more content f :
  idle l -> request_ok r -> content_ok content -> Forall P (l_in l) -> handled_data P r more content (l_daemon l) f ->
  exists s l', serve (sent (r ++ more) l) = set_outbox (wire content) (l_out l) l' /\ l_out l' = l_out l
    /\ idle l' /\ l_daemon l' = f (set_payload more s (l_daemon l)) /\ Forall P s.
Proof.
  intros (Hin & Hout & c & Hc & Hh & Hp & Hr) [Hl Hrl] Hcont HP Hf. unfold serve. cbn [l_client sent l_inbox l_in l_daemon l_out]. rewrite Hc.
  destruct (read_request_ok (Datatypes.S (length (l_in l))) (fun _ => true) c r more 0 (l_in l)) as (c' & s' & E1 & E2 & E3); try done; [|lia|].
  { left. split; [unfold REQUEST_HEADER; lia|]. split; [by rewrite Hh|done]. }
  change (drop (Z.to_nat 0) r ++ more) with (r ++ more) in E1.
  assert (HP' : Forall P s') by (pose proof (read_request_sched P (Datatypes.S (length (l_in l))) (fun _ => true) c (r ++ more) (l_in l) HP) as HF; by rewrite E1 in HF).
  rewrite E1, E2, Hr.
  destruct (Hf s' HP') as [-> Hpay]. unfold finish_response. destruct logged_ok as [_ Hlog].
  rewrite send_command_ok; [|apply Hcont|apply Hcont|done|done]. cbn [outgoing_string set_ready set_log].
  exists s', (MkLink (f (set_payload more s' (l_daemon l))) (Some (reset_client_request (set_ready true (set_log (log_bytes logged) c')))) []
    [] (payload_sched (f (set_payload more s' (l_daemon l)))) (l_out l)).
  split; [unfold set_outbox, wire; cbn [l_daemon l_client l_inbox l_in]; by rewrite Hpay|]. split; [done|]. split; [|done].
  split; [done|]. split; [done|]. by eexists.
Qed.

Lemma serve_ok l r content f :
  idle l -> request_ok r -> content_ok content -> handled r content (l_daemon l) f ->
  exists s l', serve (sent r l) = set_outbox (wire content) (l_out l) l' /\ l_out l' = l_out l
    /\ idle l' /\ l_daemon l' = f (set_payload [] s (l_daemon l)).
Proof.
  intros Hi Hr Hc Hf. destruct (serve_data_ok (fun _ => True) l r [] content f Hi Hr Hc) as (s & l' & E1 & E2 & E3 & E4 & _); [by apply Forall_true|done|].
  rewrite app_nil_r in E1. by exists s, l'.
Qed.

Lemma wire_nonempty content : content_ok content -> wire content <> [].
Proof.
  intros Hc Hw. pose proof (zlen_wire content Hc) as Hz. rewrite Hw in Hz. change (zlen []) with 0 in Hz. destruct Hc as [H1 _].
  unfold RESPONSE_HEADER, LOG_FOOTER in *. pose proof (zlen_nonneg (log_bytes logged)). lia.
Qed.

(** A read with nothing there makes the daemon serve. *)
Lemma recv_served n (l l' : link E) open logs :
  l_outbox l = [] -> serve l = l' -> l_outbox l' <> [] -> recv n (Conn open logs l) = recv n (Conn open logs l').
Proof.
  intros Ho Hs Hne. unfold recv. cbn [peer shown_logs fd_open peer_recv link_peer]. unfold link_recv.
  assert (E1 : settle l = l') by (unfold settle; by rewrite Ho).
  assert (E2 : settle l' = l') by (unfold settle; by destruct (l_outbox l')). by rewrite E1, E2.
Qed.

Lemma framed_served fuel cap (l l' : link E) open logs :
  l_outbox l = [] -> serve l = l' -> l_outbox l' <> [] -> 0 < cap -> (0 < fuel)%nat ->
  afp_sl_read_framed_response fuel cap [] (Conn open logs l) = afp_sl_read_framed_response fuel cap [] (Conn open logs l').
Proof.
  intros Ho Hs Hne Hc Hf. destruct fuel; [lia|]. cbn [afp_sl_read_framed_response]. change (zlen []) with 0.
  replace (0 >=? cap) with false by lia. unfold kbind. by rewrite (recv_served _ l l').
Qed.

Lemma bytes_served fuel n (l l' : link E) open logs :
  l_outbox l = [] -> serve l = l' -> l_outbox l' <> [] -> 0 < n -> (0 < fuel)%nat ->
  read_bytes_with_timeout fuel n [] (Conn open logs l) = read_bytes_with_timeout fuel n [] (Conn open logs l').
Proof.
  intros Ho Hs Hne Hc Hf. destruct fuel; [lia|]. cbn [read_bytes_with_timeout]. change (zlen []) with 0.
  replace (0 >=? n) with false by lia. unfold kbind. by rewrite (recv_served _ l l').
Qed.

Context (fuel : nat).

(** A whole exchange of the library: the first bytes of the answer, and nothing
    under way after it; a result that is negative as a char ends the
    connection. *)
Lemma send_to_daemon_any l r content f logs reply_len :
  idle l -> request_ok r -> handled r content (l_daemon l) f -> content_ok content ->
  zlen content <= AFPSL_IPC_MAX_RESPONSE -> 0 <= reply_len <= zlen content ->
  (length (l_out l) < fuel)%nat ->
  exists s l', send_to_daemon fuel r reply_len (Conn true logs l)
      = (if resp_result content <? 0 then (Err (- ECONNRESET), Conn false (logs ++ logged) l')
         else (Ok (take (Z.to_nat reply_len) (wire content)), Conn true (logs ++ logged) l'))
    /\ idle l' /\ l_daemon l' = f (set_payload [] s (l_daemon l)).
Proof.
  intros Hi Hr Hf Hc Hm Hl Hfuel. destruct (serve_ok l r content f Hi Hr Hc Hf) as (s & l' & Es & Eo & Hi' & Hd).
  exists s. pose proof Hi as (Hin & Hout & c & Hcl & _). unfold send_to_daemon, kbind. unfold ensure_daemon_connection, daemon_connect. cbn [fd_open].
  change (negb (0 =? 0)) with false. cbv iota. unfold sl_send_command, write_bytes, kbind. cbn [peer peer_send link_peer fd_open shown_logs].
  unfold link_send. rewrite Hcl, Hin. cbn [app]. rewrite <- Hcl. fold (sent r l). unfold kret. cbv iota. change (negb true) with false. cbv iota.
  unfold read_answer, kbind. pose proof (zlen_wire content Hc) as Hz. destruct logged_ok as [Hlog1 Hlog2].
  pose proof (zlen_nonneg (log_bytes logged)). unfold AFPSL_IPC_LOG_BUFFER_SIZE, AFPSL_IPC_MAX_RESPONSE, UINT16_MAX in *. pose proof Hc as [Hc1 _]. unfold RESPONSE_HEADER, LOG_FOOTER in *.
  rewrite (framed_served fuel CONNECTION_DATA (sent r l) (set_outbox (wire content) (l_out l) l') true logs); [|done|done|by apply wire_nonempty|done|lia].
  destruct (read_framed fuel (set_outbox (wire content) (l_out l) l') true logs (wire content) 0 CONNECTION_DATA) as (s2 & E2);
    [done|lia|unfold CONNECTION_DATA, AFPSL_IPC_MAX_RESPONSE, AFPSL_IPC_LOG_BUFFER_SIZE, UINT16_MAX; lia|by apply wire_len|unfold RESPONSE_HEADER, LOG_FOOTER; lia|done|].
  change (take (Z.to_nat 0) (wire content)) with (@nil Z) in E2. rewrite E2. cbv iota.
  assert (Ed : afp_sl_dispatch_response_logs (wire content) = (logged, true)) by (by apply dispatch_answer). rewrite Ed. cbn [negb]. unfold stateless_log. cbv iota beta.
  assert (Eres : resp_result (wire content) = resp_result content) by (by apply framed_result).
  rewrite Eres. unfold kret. cbv iota beta. cbn [fd_open shown_logs peer].
  replace (zlen (wire content) <? reply_len) with false by lia. rewrite orb_false_r. exists (set_outbox [] s2 l').
  split; [by destruct (_ <? 0)|]. cbn [peer]. split; [|exact Hd].
  destruct Hi' as (I1 & I2 & I3). split; [exact I1|]. split; [done|exact I3].
Qed.

Lemma send_to_daemon_ok l r content f logs reply_len :
  idle l -> request_ok r -> handled r content (l_daemon l) f -> content_ok content ->
  zlen content <= AFPSL_IPC_MAX_RESPONSE -> 0 <= reply_len <= zlen content -> 0 <= resp_result content ->
  (length (l_out l) < fuel)%nat ->
  exists s l', send_to_daemon fuel r reply_len (Conn true logs l) = (Ok (take (Z.to_nat reply_len) (wire content)), Conn true (logs ++ logged) l')
    /\ idle l' /\ l_daemon l' = f (set_payload [] s (l_daemon l)).
Proof.
  intros Hi Hr Hf Hc Hm Hl Hres Hfuel. destruct (send_to_daemon_any l r content f logs reply_len) as (s & l' & Es & H'); try done.
  exists s, l'. by replace (resp_result content <? 0) with false in Es by lia.
Qed.

End Joined.
