(* ===== verification/RpcProofs.v ===== *)
(** What the daemon makes of the library's requests, and the calls' answers. *)
From stdpp Require Import gmap.
From S2P Require Import Prelude AfpProtocol Identify Local Sidecar Path Dates ReplyBlock Listing World DidCache ForkList LowLevel Resource Midlevel Xattr Ipc Daemon Stateless Link Rpc.
Local Open Scope afp_scope.

(** ** Members of a request *)

(** The bytes of a list of parts, and a part of it behind others. *)
Ltac member pre v post :=
  apply (le_at_put' _ _ _ _ pre v post); [unfold afpsl_ipc_request_header; rewrite <- ?app_assoc; reflexivity| |reflexivity|].

Lemma header_command c n k post : 0 <= c < 128 -> req_command (afpsl_ipc_request_header c n k ++ post) = c.
Proof.
  intros Hc. unfold req_command, le_at, afpsl_ipc_request_header, sub. simpl. rewrite u8_small by lia. unfold be_get. simpl. lia.
Qed.

Lemma header_len c n k post : 0 <= n <= UINT32_MAX -> req_len (afpsl_ipc_request_header c n k ++ post) = n.
Proof.
  intros Hn. unfold UINT32_MAX in Hn. unfold req_len, afpsl_ipc_request_header.
  apply (le_at_put' _ 4 4 4 [u8 c; 0; 0; 0] n (le_put 4 k ++ post)); [by rewrite <- !app_assoc|done|done|lia].
Qed.

Lemma header_close c n k post : 0 <= k <= UINT32_MAX -> req_close (afpsl_ipc_request_header c n k ++ post) = k.
Proof.
  intros Hn. unfold UINT32_MAX in Hn. unfold req_close, afpsl_ipc_request_header.
  apply (le_at_put' _ 8 4 4 ([u8 c; 0; 0; 0] ++ le_put 4 n) k post); [by rewrite <- !app_assoc|by rewrite zlen_app, zlen_le_put|done|lia].
Qed.

Lemma zlen_header c n k : zlen (afpsl_ipc_request_header c n k) = 12.
Proof. unfold afpsl_ipc_request_header. rewrite !zlen_app, !zlen_le_put. done. Qed.

Lemma header_volume c n k vol post : 0 <= vol < 2 ^ 64 ->
  volumeid (afpsl_ipc_request_header c n k ++ zero_bytes 4 ++ le_put 8 vol ++ post) = vol.
Proof.
  intros Hv. unfold volumeid. apply (le_at_put' _ 16 8 8 (afpsl_ipc_request_header c n k ++ zero_bytes 4) vol post);
    [by rewrite <- !app_assoc|by rewrite zlen_app, zlen_header|done|done].
Qed.

Lemma response_result r n post : 0 <= r < 128 -> resp_result (afpsl_ipc_response_header r n ++ post) = r.
Proof.
  intros Hr. unfold resp_result, le_at, afpsl_ipc_response_header, sub. simpl. rewrite u8_small by lia. unfold be_get, i8. simpl.
  rewrite Z.mod_small by lia. lia.
Qed.

Lemma zlen_response r n : zlen (afpsl_ipc_response_header r n) = 8.
Proof. unfold afpsl_ipc_response_header. rewrite !zlen_app, !zlen_le_put. done. Qed.

Lemma result_prefix b n : 1 <= n -> resp_result (take (Z.to_nat n) b) = resp_result b.
Proof.
  intros Hn. unfold resp_result, le_at, sub. do 2 f_equal. change (Z.to_nat 0) with 0%nat. rewrite !drop_0, take_take.
  f_equal. f_equal. lia.
Qed.

(** ** Requests with a path *)

Section PathRequest.
Context (command sizeof off vol : Z) (fields path beyond : list Z).
Hypothesis command_ok : 0 <= command < 128.
Hypothesis layout_ok : zlen fields = off - 28 /\ 28 <= off <= sizeof /\ sizeof <= 64.
Hypothesis vol_ok : 0 <= vol < 2 ^ 64.
Hypothesis path_ok : no_nul path /\ zlen path <= UINT16_MAX.

Let r : list Z := path_request command sizeof off vol fields path.

Lemma zlen_path_request : zlen r = sizeof + zlen path + 1.
Proof.
  unfold r, path_request. pose proof (zlen_nonneg path). rewrite !zlen_app, zlen_header, !zlen_le_put. rewrite (zlen_zero_bytes (sizeof - off)) by lia.
  rewrite (zlen_zero_bytes 4) by lia. change (zlen [0]) with 1. destruct layout_ok as [-> ?]. lia.
Qed.

Lemma path_request_ok : request_ok r.
Proof.
  split; [rewrite zlen_path_request|].
  - unfold REQUEST_HEADER, AFPSL_IPC_MAX_REQUEST, AFP_MAX_UTF8_PATH_STORAGE, UINT16_MAX in *. pose proof (zlen_nonneg path). lia.
  - rewrite zlen_path_request. apply header_len. unfold UINT16_MAX, UINT32_MAX in *. pose proof (zlen_nonneg path). lia.
Qed.

Lemma path_request_command : req_command (r ++ beyond) = command.
Proof. unfold r, path_request. rewrite <- !app_assoc. by apply header_command. Qed.

Lemma path_request_volume : volumeid (r ++ beyond) = vol.
Proof. unfold r, path_request. rewrite <- !app_assoc. by apply header_volume. Qed.

Lemma path_request_close : close_asked (r ++ beyond) = false.
Proof. unfold close_asked, r, path_request. rewrite <- !app_assoc. by rewrite header_close by (unfold UINT32_MAX; lia). Qed.

Lemma path_request_field n k v pre post :
  fields = pre ++ le_put n v ++ post -> k = Z.of_nat n -> 0 <= v < 256 ^ Z.of_nat n -> le_at (r ++ beyond) (24 + zlen pre) k = v.
Proof.
  intros Hf -> Hv. unfold r, path_request. rewrite Hf, <- !app_assoc.
  apply (le_at_put' _ _ n _ (afpsl_ipc_request_header command (sizeof + zlen path + 1) 0 ++ zero_bytes 4 ++ le_put 8 vol ++ pre) v
    (post ++ le_put 4 (zlen path) ++ path ++ [0] ++ zero_bytes (sizeof - off) ++ beyond));
    [by rewrite <- !app_assoc| |done|done].
  rewrite !zlen_app, zlen_header, zlen_le_put. change (zlen (zero_bytes 4)) with 4. lia.
Qed.

Lemma path_request_path : request_path (zlen r) (r ++ beyond) sizeof off = Some path.
Proof.
  pose proof (zlen_nonneg path). destruct layout_ok as (L1 & L2 & L3). destruct path_ok as [P1 P2]. unfold UINT16_MAX in P2.
  unfold request_path. rewrite zlen_path_request. replace (_ <? sizeof) with false by lia.
  set (front := afpsl_ipc_request_header command (sizeof + zlen path + 1) 0 ++ zero_bytes 4 ++ le_put 8 vol ++ fields).
  set (back := zero_bytes (sizeof - off) ++ beyond).
  assert (Er : r ++ beyond = front ++ le_put 4 (zlen path) ++ path ++ [0] ++ back)
    by (unfold r, path_request, front, back; by rewrite <- !app_assoc).
  assert (Hf : zlen front = off - 4).
  { unfold front. rewrite !zlen_app, zlen_header, zlen_le_put, L1. change (zlen (zero_bytes 4)) with 4. lia. }
  assert (Hplen : le_at (r ++ beyond) (off - 4) 4 = zlen path)
    by (apply (le_at_put' _ _ 4 _ front _ (path ++ [0] ++ back)); [done|done|done|lia]).
  rewrite Hplen. cbv zeta.
  assert (Hreq : req_len (r ++ beyond) = sizeof + zlen path + 1).
  { unfold r, path_request. rewrite <- !app_assoc. apply header_len. unfold UINT32_MAX. lia. }
  rewrite Hreq, Z.eqb_refl. unfold AFP_MAX_UTF8_PATH_STORAGE, UINT16_MAX.
  assert (E2 : r ++ beyond = (front ++ le_put 4 (zlen path)) ++ path ++ [0] ++ back) by (by rewrite Er, <- app_assoc).
  assert (Hz : zlen (front ++ le_put 4 (zlen path)) = off) by (rewrite zlen_app, zlen_le_put, Hf; lia).
  assert (Hb : byte_at (r ++ beyond) (off + zlen path) = 0).
  { rewrite E2. rewrite byte_at_app_r by lia. rewrite Hz. replace (off + zlen path - off) with (zlen path) by lia.
    rewrite byte_at_app_r by lia. by rewrite Z.sub_diag. }
  rewrite Hb. change (negb true) with false. change (negb (0 =? 0)) with false. rewrite !orb_false_r.
  replace (_ >=? _) with false by lia. f_equal. rewrite E2.
  rewrite drop_app_zlen by (by apply to_nat_zlen). by apply until_nul_app_nul.
Qed.

End PathRequest.

(** ** Operations on a path *)

Inductive path_op : Set :=
| OpCreat (mode : Z) | OpChmod (mode : Z) | OpUnlink | OpTruncate (offset : Z) | OpUtime (actime modtime : Z)
| OpMkdir (mode : Z) | OpRmdir.

(** The arguments fit the members they go into. *)
Definition op_ok (op : path_op) : Prop :=
  match op with
  | OpCreat mode | OpChmod mode | OpMkdir mode => 0 <= mode < 2 ^ 32
  | OpTruncate offset => 0 <= offset <= INT64_MAX
  | OpUtime actime modtime => 0 <= actime <= INT64_MAX /\ 0 <= modtime <= INT64_MAX
  | OpUnlink | OpRmdir => True
  end.

(** The errno a caller sees for the operation's answer. *)
Definition errno_seen (op : path_op) (r : Z) : Z :=
  if 0 <=? r then 0
  else
    let same := match op with
                | OpCreat _ => [- EEXIST; - EACCES]
                | OpMkdir _ => [- EEXIST; - EACCES; - ENOENT]
                | OpRmdir => [- ENOENT; - EACCES; - ENOTEMPTY]
                | OpChmod _ => [- ENOENT; - EACCES; - EOPNOTSUPP]
                | _ => [- ENOENT; - EACCES]
                end in
    if existsb (Z.eqb r) same then r
    else match op with
         | OpChmod _ => if r =? - EPERM then - EACCES else if r =? - ENOSYS then - EOPNOTSUPP else - EIO
         | OpUnlink => if r =? - EPERM then - EACCES else - EIO
         | _ => - EIO
         end.

Section Ops.
Context {E : Type} `{Env E} `{Platform}.

Definition op_run (cf : config) (op : path_op) (path : list Z) : M E Z :=
  match op with
  | OpCreat mode =>
      let! c := ml_creat cf path in
      let (r, created) := c : Z * bool in
      (if (r =? 0) && created then ml_set_created_mode cf path mode else ret tt) ;;! ret r
  | OpChmod mode => ml_chmod cf path mode
  | OpUnlink => ml_unlink cf path
  | OpTruncate offset => ml_truncate cf path offset
  | OpUtime _ modtime => ml_utime cf path modtime
  | OpMkdir mode => ml_mkdir cf path mode
  | OpRmdir => ml_rmdir cf path
  end.

(** The volume a request is about is attached and connected. *)
Definition serves (d : daemon E) (vol : Z) (a : attached) : Prop := volumes d !! vol = Some a /\ a_connected a = true.

Lemma process_path_ok size mem sizeof off table m (d : daemon E) path a vol :
  request_path size mem sizeof off = Some path -> volumeid mem = vol -> serves d vol a ->
  process_path size mem sizeof off table m d
  = (let (r, w) := m (a_config a) path (a_volume a, denv d) in
     (answer mem (result_of table r) [], set_world vol a w d)).
Proof.
  intros Hp Hv [Ha Hc]. unfold process_path. rewrite Hp. unfold with_volume. rewrite Hv, Ha, Hc. cbn [negb].
  unfold dbind, on_volume. rewrite Ha. simpl default. destruct (m (a_config a) path (a_volume a, denv d)) as [r w]. done.
Qed.

Lemma result_of_range table r : Forall (fun p => 0 <= snd p < 128) table -> 0 <= result_of table r < 128.
Proof.
  intros Ht. unfold result_of. case_if; [|unfold AFPSL_IPC_RESULT_OK; lia].
  destruct (find _ table) as [p|] eqn:Ef; [|unfold AFPSL_IPC_RESULT_ERROR; lia].
  apply find_some in Ef as [Hin _]. rewrite Forall_forall in Ht. apply Ht. by apply list_elem_of_In.
Qed.

End Ops.

(** Tests of constants. *)
Ltac pick :=
  repeat match goal with
  | |- context [?a =? ?b] =>
      let v := eval vm_compute in (a =? b) in
      match v with true => change (a =? b) with true | false => change (a =? b) with false end; cbv iota
  end; cbn [negb andb].

Section Transparent.
Context {E : Type} `{Env E} `{Platform}.
Context (stale beyond : list Z) (others : Z -> Z -> list Z -> D E outcome) (pages : nat) (logged : list (Z * list Z)) (fuel : nat).
Context (getvolid : K (link E) (res Z)) (url_path : option (list Z)).
Hypothesis logged_ok : Forall entry_ok logged /\ zlen (log_bytes logged) <= AFPSL_IPC_LOG_BUFFER_SIZE.

#[local] Hint Extern 0 (Peer (link E)) => exact (link_peer stale beyond others pages logged) : typeclass_instances.

Definition op_call (op : path_op) (vol : Z) (path : list Z) : K (link E) Z :=
  let v := Some vol in
  let p := Some path in
  match op with
  | OpCreat mode => afp_sl_creat fuel (fun _ => true) getvolid url_path v p mode
  | OpChmod mode => afp_sl_chmod fuel (fun _ => true) getvolid url_path v p mode
  | OpUnlink => afp_sl_unlink fuel (fun _ => true) getvolid url_path v p
  | OpTruncate offset => afp_sl_truncate fuel (fun _ => true) getvolid url_path v p offset
  | OpUtime actime modtime => afp_sl_utime fuel (fun _ => true) getvolid url_path v p actime modtime
  | OpMkdir mode => afp_sl_mkdir fuel (fun _ => true) getvolid url_path v p mode
  | OpRmdir => afp_sl_rmdir fuel (fun _ => true) getvolid url_path v p
  end.

(** The request of an operation: its command, its structure's size, where the
    path is, and its own members. *)
Definition op_command (op : path_op) : Z :=
  match op with
  | OpCreat _ => AFPSL_IPC_COMMAND_CREAT | OpChmod _ => AFPSL_IPC_COMMAND_CHMOD | OpUnlink => AFPSL_IPC_COMMAND_UNLINK
  | OpTruncate _ => AFPSL_IPC_COMMAND_TRUNCATE | OpUtime _ _ => AFPSL_IPC_COMMAND_UTIME
  | OpMkdir _ => AFPSL_IPC_COMMAND_MKDIR | OpRmdir => AFPSL_IPC_COMMAND_RMDIR
  end.
Definition op_fields (op : path_op) : list Z :=
  match op with
  | OpCreat mode | OpChmod mode | OpMkdir mode => le_put 4 mode
  | OpUnlink | OpRmdir => []
  | OpTruncate offset => le_put 8 offset
  | OpUtime actime modtime => le_put 8 actime ++ le_put 8 modtime
  end.
Definition op_off (op : path_op) : Z := 28 + zlen (op_fields op).
Definition op_sizeof (op : path_op) : Z :=
  match op with OpTruncate _ => 40 | OpUtime _ _ => 48 | _ => 32 end.
Definition op_table (op : path_op) : list (Z * Z) :=
  match op with
  | OpCreat _ => [(- EEXIST, AFPSL_IPC_RESULT_EXIST); (- EACCES, AFPSL_IPC_RESULT_ACCESS)]
  | OpChmod _ => [(- ENOENT, AFPSL_IPC_RESULT_ENOENT); (- EACCES, AFPSL_IPC_RESULT_ACCESS); (- EPERM, AFPSL_IPC_RESULT_ACCESS);
                  (- ENOSYS, AFPSL_IPC_RESULT_NOTSUPPORTED); (- EOPNOTSUPP, AFPSL_IPC_RESULT_NOTSUPPORTED)]
  | OpUnlink => [(- ENOENT, AFPSL_IPC_RESULT_ENOENT); (- EACCES, AFPSL_IPC_RESULT_ACCESS); (- EPERM, AFPSL_IPC_RESULT_ACCESS)]
  | OpTruncate _ | OpUtime _ _ => [(- ENOENT, AFPSL_IPC_RESULT_ENOENT); (- EACCES, AFPSL_IPC_RESULT_ACCESS)]
  | OpMkdir _ => [(- EEXIST, AFPSL_IPC_RESULT_EXIST); (- EACCES, AFPSL_IPC_RESULT_ACCESS); (- ENOENT, AFPSL_IPC_RESULT_ENOENT)]
  | OpRmdir => [(- ENOENT, AFPSL_IPC_RESULT_ENOENT); (- EACCES, AFPSL_IPC_RESULT_ACCESS); (- ENOTEMPTY, AFPSL_IPC_RESULT_ENOTEMPTY)]
  end.

Lemma op_layout op : zlen (op_fields op) = op_off op - 28 /\ 28 <= op_off op <= op_sizeof op /\ op_sizeof op <= 64.
Proof. unfold op_off. destruct op; cbn [op_fields op_sizeof]; rewrite ?zlen_app, ?zlen_le_put; change (zlen (@nil Z)) with 0; lia. Qed.

Lemma op_command_ok op : 0 <= op_command op < 128.
Proof. destruct op; vm_compute; split; congruence. Qed.

(** The errno of a result is the one seen. *)
Lemma op_errno op r : server_result_to_errno (result_of (op_table op) r) = errno_seen op r.
Proof.
  unfold errno_seen, result_of. destruct (Z.leb_spec 0 r); [by replace (r <? 0) with false by lia|].
  replace (r <? 0) with true by lia.
  destruct (Z.eq_dec r (- ENOENT)) as [->|N1]; [by destruct op|]. destruct (Z.eq_dec r (- EACCES)) as [->|N2]; [by destruct op|].
  destruct (Z.eq_dec r (- EEXIST)) as [->|N3]; [by destruct op|]. destruct (Z.eq_dec r (- ENOTEMPTY)) as [->|N4]; [by destruct op|].
  destruct (Z.eq_dec r (- EOPNOTSUPP)) as [->|N5]; [by destruct op|]. destruct (Z.eq_dec r (- EPERM)) as [->|N6]; [by destruct op|].
  destruct (Z.eq_dec r (- ENOSYS)) as [->|N7]; [by destruct op|].
  destruct op; cbn [op_table find fst snd existsb]; rewrite !(proj2 (Z.eqb_neq _ _)) by congruence; reflexivity.
Qed.

Lemma i64_small z : 0 <= z <= INT64_MAX -> i64 z = z.
Proof. unfold INT64_MAX, i64. intros Hz. rewrite Z.mod_small by lia. lia. Qed.

(** The handler of an operation's command, and the members it reads. *)
Definition op_handler (op : path_op) : Z -> list Z -> D E outcome :=
  match op with
  | OpCreat _ => process_creat | OpChmod _ => process_chmod | OpUnlink => process_unlink | OpTruncate _ => process_truncate
  | OpUtime _ _ => process_utime | OpMkdir _ => process_mkdir | OpRmdir => process_rmdir
  end.
Definition op_members (op : path_op) (mem : list Z) : Prop :=
  match op with
  | OpCreat mode | OpChmod mode | OpMkdir mode => le_at mem 24 4 = mode
  | OpTruncate offset => i64 (le_at mem 24 8) = offset
  | OpUtime _ modtime => i64 (le_at mem 32 8) = modtime
  | OpUnlink | OpRmdir => True
  end.

Lemma op_handler_path op size mem : op_members op mem ->
  op_handler op size mem = process_path size mem (op_sizeof op) (op_off op) (op_table op) (fun cf path => op_run cf op path).
Proof. destruct op; cbn [op_members op_handler op_run]; intros Hm; [ | | |unfold process_truncate|unfold process_utime| | ]; rewrite <- ?Hm; reflexivity. Qed.

Lemma op_request_members op vol path : op_ok op ->
  op_members op (path_request (op_command op) (op_sizeof op) (op_off op) vol (op_fields op) path ++ beyond).
Proof.
  assert (Hf : forall n k off v pre post, op_fields op = pre ++ le_put n v ++ post -> off = 24 + zlen pre -> k = Z.of_nat n -> 0 <= v < 256 ^ Z.of_nat n ->
    le_at (path_request (op_command op) (op_sizeof op) (op_off op) vol (op_fields op) path ++ beyond) off k = v)
    by (intros n k off v pre post ? ->; by apply path_request_field with (post := post)).
  destruct op as [mode|mode| |offset|actime modtime|mode|]; cbn [op_ok op_members]; intros Hok; try done.
  1, 2, 5: by apply (Hf 4%nat 4 24 mode [] []).
  - rewrite (Hf 8%nat 8 24 offset [] []); [by apply i64_small|done|done|done|unfold INT64_MAX in Hok; lia].
  - destruct Hok as [Ha Hm]. rewrite (Hf 8%nat 8 32 modtime (le_put 8 actime) []); [by apply i64_small|done|done|done|unfold INT64_MAX in Hm; lia].
Qed.

Lemma op_dispatch op size mem d : req_command mem = op_command op ->
  process_command_thread stale others pages true size mem d = (let (o, d) := op_handler op size mem d in (o, true, d)).
Proof. intros Hc. unfold process_command_thread. rewrite Hc. by destruct op. Qed.

Lemma op_call_path op vol path :
  op_call op vol path = result_call (path_call fuel (fun _ => true) getvolid url_path (Some vol) (Some path) (op_command op) (op_sizeof op) (op_off op) (op_fields op) 8).
Proof. by destruct op. Qed.

Lemma result_call_ok m (c c' : conn (link E)) reply : m c = (Ok reply, c') -> result_call m c = (server_result_to_errno (resp_result reply), c').
Proof. intros Hm. unfold result_call, kbind. by rewrite Hm. Qed.

(** A path the library takes goes out as it is. *)
Lemma path_call_sends vol path command sizeof off fields reply_len (c : conn (link E)) :
  no_nul path -> zlen path <= UINT16_MAX ->
  path_call fuel (fun _ => true) getvolid url_path (Some vol) (Some path) command sizeof off fields reply_len c
  = send_to_daemon fuel (path_request command sizeof off vol fields path) reply_len c.
Proof.
  intros H1 H2. unfold path_call, call_target, ktry, kbind, kret, wire_path_length. rewrite validate_spec by (done || vm_compute; congruence).
  replace (_ || _) with true by (unfold AFPC_MAX_UTF8_PATH_BYTES; lia). cbv iota beta. cbn [negb]. by rewrite take_ge by (unfold zlen; lia).
Qed.


End Transparent.

(** ** A daemon with one volume *)

(** A server that deletes what it is asked to, and remembers it. *)
#[export] Instance deleting_server : Env (list (Z * list Z)) := fun A c e =>
  match c in cmd B return B * list (Z * list Z) with
  | Delete did name => (0, (did, name) :: e)
  | GetFileDirParms _ _ _ _ => ((0, empty_dirent 0), e)
  | c => (no_answer c, e)
  end.

(** Structures of the system with no members the library looks at. *)
#[export] Instance plain_platform : Platform := {|
  stat_bytes s := le_put 4 (st_mode s) ++ le_put 8 (st_size s); stat_of b := Stat (le_at b 0 4) 0 0 0 0 (le_at b 4 8) 0 0 (Timespec 0 0) (Timespec 0 0);
  statvfs_bytes s := le_put 8 (sv_blocks s); statvfs_of b := Statvfs 0 0 (le_at b 0 8) 0 0 0 |}.

Definition one_volume : attached := Attached sample_config empty_volume true.
Definition one_daemon : daemon (list (Z * list Z)) := Daemon ∅ {[ 7 := one_volume ]} [] [] [].

(** Its client is past the handshake; reads come as a byte, an interruption,
    and the rest. *)
Definition one_link : link (list (Z * list Z)) :=
  MkLink one_daemon (Some (Client [] None true [])) [] [] [1; 0; 5] [1; 0; 3].

Lemma one_link_idle : idle one_link.
Proof. split; [done|]. split; [done|]. by eexists. Qed.

Definition no_others (command size : Z) (mem : list Z) : D (list (Z * list Z)) outcome := dret Drop.

