(* ===== verification/RpcFiles.v ===== *)
(** Open files through the daemon: the handles, and the calls that transfer
    data behind a request or behind an answer. *)
From stdpp Require Import gmap.
From S2P Require Import Prelude AfpProtocol Identify Local Sidecar Path Dates ReplyBlock Listing World DidCache ForkList LowLevel Resource Midlevel Xattr ForkIO Ipc Daemon Stateless Link Rpc RpcProofs.
Local Open Scope afp_scope.

(** ** Requests for an open file *)

Section Transfer.
Context (command vol fileid offset count resource : Z) (beyond : list Z).
Hypothesis command_ok : 0 <= command < 128.
Hypothesis members_ok : 0 <= vol < 2 ^ 64 /\ 0 <= fileid < 2 ^ 31 /\ 0 <= offset <= INT64_MAX /\ 0 <= count < 2 ^ 32.

Let r : list Z := transfer_request command vol fileid offset count resource.

Lemma zlen_transfer : zlen r = 48.
Proof. unfold r, transfer_request. by rewrite !zlen_app, zlen_header, !zlen_le_put. Qed.

Lemma transfer_ok : request_ok r.
Proof.
  split; [by rewrite zlen_transfer|]. rewrite zlen_transfer. by apply header_len.
Qed.

Lemma transfer_command : req_command (r ++ beyond) = command.
Proof. unfold r, transfer_request. rewrite <- !app_assoc. by apply header_command. Qed.

Lemma transfer_volume : volumeid (r ++ beyond) = vol.
Proof. unfold r, transfer_request. rewrite <- !app_assoc. apply header_volume. lia. Qed.

Lemma transfer_close : close_asked (r ++ beyond) = false.
Proof. unfold close_asked, r, transfer_request. rewrite <- !app_assoc. by rewrite header_close by (unfold UINT32_MAX; lia). Qed.

Lemma transfer_members :
  le_at (r ++ beyond) 24 4 = fileid /\ le_at (r ++ beyond) 32 8 = offset /\ le_at (r ++ beyond) 40 4 = count.
Proof.
  destruct members_ok as (? & ? & ? & ?). unfold INT64_MAX in *. unfold r, transfer_request.
  set (h := afpsl_ipc_request_header command 48 0 ++ zero_bytes 4 ++ le_put 8 vol).
  assert (Hh : zlen h = 24) by (unfold h; by rewrite !zlen_app, zlen_header, zlen_le_put).
  split; [|split].
  - apply (le_at_put' _ _ 4 _ h fileid (zero_bytes 4 ++ le_put 8 offset ++ le_put 4 count ++ le_put 4 resource ++ beyond));
      [unfold h; by rewrite <- !app_assoc|done|done|lia].
  - apply (le_at_put' _ _ 8 _ (h ++ le_put 4 fileid ++ zero_bytes 4) offset (le_put 4 count ++ le_put 4 resource ++ beyond));
      [unfold h; by rewrite <- !app_assoc|rewrite !zlen_app, zlen_le_put, Hh; done|done|lia].
  - apply (le_at_put' _ _ 4 _ (h ++ le_put 4 fileid ++ zero_bytes 4 ++ le_put 8 offset) count (le_put 4 resource ++ beyond));
      [unfold h; by rewrite <- !app_assoc|rewrite !zlen_app, !zlen_le_put, Hh; done|done|lia].
Qed.

End Transfer.

Lemma framed_at content total off n : RESPONSE_HEADER <= off -> 0 <= n -> off + n <= zlen content -> le_at (framed content total) off n = le_at content off n.
Proof.
  unfold RESPONSE_HEADER. intros H1 H2 H3. unfold le_at, sub. do 2 f_equal. f_equal. unfold framed.
  rewrite (app_assoc (take 4 content)). rewrite drop_app_ge by (rewrite length_app, le_put_length, length_take; unfold zlen in H3; lia).
  rewrite length_app, le_put_length, length_take. rewrite drop_drop. f_equal. unfold zlen in H3. lia.
Qed.

(** ** Answers read in two parts *)

Section Parts.
Context {E : Type} `{Env E} `{Platform}.
Context (stale beyond : list Z) (others : Z -> Z -> list Z -> D E outcome) (pages : nat) (logged : list (Z * list Z)) (fuel : nat).
Hypothesis logged_ok : Forall entry_ok logged /\ zlen (log_bytes logged) <= AFPSL_IPC_LOG_BUFFER_SIZE.

#[local] Hint Extern 0 (Peer (link E)) => exact (link_peer stale beyond others pages logged) : typeclass_instances.

(** The first [n] bytes of an answer. *)
Definition head_of (n : Z) (content : list Z) : list Z := take (Z.to_nat n) (wire logged content).

Lemma head_result n content : 8 <= n <= zlen content -> resp_result (head_of n content) = resp_result content.
Proof. intros Hn. unfold head_of. rewrite result_prefix by lia. apply framed_result. unfold RESPONSE_HEADER. lia. Qed.

Lemma head_at n content off k : 8 <= n <= zlen content -> 8 <= off -> 0 <= k -> off + k <= n -> le_at (head_of n content) off k = le_at content off k.
Proof.
  intros Hn Ho Hk Hl. set (total := zlen content + zlen (log_bytes logged) + LOG_FOOTER).
  rewrite <- (framed_at content total off k) by (unfold RESPONSE_HEADER; lia). unfold head_of, wire. fold total.
  assert (Hz : zlen (framed content total) = zlen content) by (apply zlen_framed; unfold RESPONSE_HEADER; lia).
  rewrite take_app_le by (rewrite <- (to_nat_zlen (framed content total) (zlen content)) by done; lia).
  rewrite <- (take_drop (Z.to_nat n) (framed content total)) at 2. rewrite le_at_app; [done|lia|done|].
  rewrite zlen_take. lia.
Qed.

(** One exchange of such a call: the data behind the request, the two reads. *)
Lemma parts_ok P l r more content f logs n :
  idle l -> request_ok r -> content_ok content -> Forall P (l_in l) -> handled_data stale beyond others pages P r more content (l_daemon l) f ->
  8 <= n <= zlen content -> (length (l_out l) < fuel)%nat ->
  exists s l' tail c1, Forall P s
    /\ read_bytes_with_timeout fuel n [] (Conn true logs (sent (r ++ more) l)) = (Some (head_of n content), c1)
    /\ read_response_tail fuel (fun _ => true) (resp_len (head_of n content)) n c1 = (Some (tail, zlen content - n), Conn true (logs ++ logged) l')
    /\ take (Z.to_nat (zlen content - n)) tail = drop (Z.to_nat n) content
    /\ idle l' /\ l_daemon l' = f (set_payload more s (l_daemon l)).
Proof.
  intros Hi Hr Hc HP Hf Hn Hfuel.
  destruct (serve_data_ok stale beyond others pages logged logged_ok P l r more content f Hi Hr Hc HP Hf) as (s & l' & Es & Eo & Hi' & Hd & HPs).
  pose proof (zlen_wire logged content Hc) as Hz. pose proof (zlen_nonneg (log_bytes logged)). unfold LOG_FOOTER in Hz.
  set (W := wire logged content) in *. set (rest := drop (Z.to_nat n) W).
  assert (HW : W = head_of n content ++ rest) by (unfold head_of, rest, W; by rewrite take_drop).
  assert (Hh : zlen (head_of n content) = n) by (unfold head_of; fold W; rewrite zlen_take; lia).
  rewrite (bytes_served stale beyond others pages logged fuel n (sent (r ++ more) l) (set_outbox W (l_out l) l') true logs);
    [|by destruct Hi as (_ & ? & _)|done|by apply wire_nonempty|lia|lia].
  destruct (read_bytes stale beyond others pages logged fuel (set_outbox W (l_out l) l') true logs (head_of n content) rest [] HW ltac:(right; done)) as (s1 & E1 & L1).
  rewrite zlen_nil, Hh in E1. cbn [app Z.add] in E1.
  assert (Hlen : resp_len (head_of n content) = zlen W).
  { pose proof (wire_len logged logged_ok content Hc) as HWl. fold W in HWl. rewrite <- HWl. unfold resp_len. rewrite HW at 1. rewrite le_at_app; [done|lia|lia|lia]. }
  set (body := drop (Z.to_nat n) (framed content (zlen content + zlen (log_bytes logged) + LOG_FOOTER))).
  assert (Hfr : zlen (framed content (zlen content + zlen (log_bytes logged) + LOG_FOOTER)) = zlen content) by (apply zlen_framed; unfold RESPONSE_HEADER; lia).
  assert (Hb : rest = body ++ log_bytes logged ++ afpsl_ipc_log_footer (zlen (log_bytes logged))).
  { unfold rest, W, wire, body. rewrite drop_app_le by (rewrite <- (to_nat_zlen _ (zlen content)) by done; lia). done. }
  assert (Hbl : zlen body = zlen content - n) by (unfold body; rewrite zlen_drop, Hfr; lia).
  destruct (read_bytes stale beyond others pages logged fuel (set_outbox rest s1 l') true logs rest [] []) as (s2 & E2 & L2);
    [cbn [l_outbox set_outbox]; by rewrite app_nil_r|right; cbn [l_out set_outbox] in L1 |- *; lia|].
  exists s, (set_outbox [] s2 l'), rest. eexists. split; [done|]. split; [exact E1|]. split; [|split; [|split; [|exact Hd]]].
  - rewrite Hlen. unfold read_response_tail, LOG_FOOTER. replace (_ <? _) with false by lia. cbn [negb].
    assert (Hrl : zlen W - n = zlen rest) by (unfold rest; rewrite zlen_drop; lia). rewrite Hrl. unfold kbind.
    rewrite zlen_nil in E2. cbn [app] in E2. change (0 + zlen rest) with (zlen rest) in E2. unfold set_outbox in E2 |- *. cbn [l_daemon l_client l_inbox l_in] in E2 |- *. rewrite E2. cbv iota.
    destruct logged_ok as [Hl1 Hl2]. 
    assert (Hcl : afp_sl_response_content_length rest = Some (zlen body)) by (rewrite Hb; by apply answer_content_length).
    assert (Hdl : afp_sl_dispatch_response_logs rest = (logged, true)) by (rewrite Hb; by apply dispatch_answer).
    rewrite Hcl, Hdl.
    unfold stateless_log, kret. cbn [fd_open shown_logs peer]. by rewrite Hbl.
  - rewrite Hb, take_app_zlen by (by apply to_nat_zlen). unfold body, framed. rewrite app_assoc.
    rewrite drop_app_ge by (rewrite length_app, le_put_length, length_take; unfold zlen in Hn; lia).
    rewrite length_app, le_put_length, length_take, drop_drop. f_equal. unfold zlen in Hn. lia.
  - destruct Hi' as (I1 & I2 & I3). split; [exact I1|]. split; [done|exact I3].
Qed.

End Parts.

(** ** Handles *)

Section Handles.
Context {E : Type} `{Env E} `{Platform}.

(** The handle [h] is for the record [fp] of the volume: a pseudo-file's, or an
    open fork's. *)
Definition handle_for (d : daemon E) (vol : Z) (a : attached) (h fp : Z) : Prop :=
  0 < h < MAX_OPEN_FILES /\ file_handle_table d !! h = Some (fp, vol)
  /\ is_pseudo_file (default null_fork (forks (a_volume a) !! fp)) || fork_is_listed (a_volume a) fp = true.

Lemma get_file_handle_ok d vol a h fp taken :
  volumes d !! vol = Some a -> handle_for d vol a h fp ->
  get_file_handle h vol taken d = (Some fp, if taken then set_table (delete h (file_handle_table d)) d else d).
Proof.
  intros Ha (H1 & H2 & H3). unfold get_file_handle. replace (_ || _) with false by lia. rewrite H2, Ha. simpl.
  rewrite Z.eqb_refl. simpl. destruct (is_pseudo_file _); [done|]. simpl in H3. by rewrite H3.
Qed.

(** The data behind a request, in uninterrupted pieces. *)
Lemma read_payload_ok fuel acc data s :
  Forall (fun k => 0 < k) s -> (length data <= fuel)%nat ->
  exists s', read_payload fuel (zlen data) acc data s = (Some (acc ++ data), [], s') /\ Forall (fun k => 0 < k) s'.
Proof.
  revert acc data s. induction fuel as [|fuel IH]; intros acc data s Hs Hf; cbn [read_payload].
  - destruct data; [|simpl in Hf; lia]. exists s. by rewrite app_nil_r.
  - destruct (Z.eq_dec (zlen data) 0) as [Hz|Hz]; [apply zlen_0_inv in Hz as ->; exists s; by rewrite app_nil_r|].
    pose proof (zlen_nonneg data). replace (zlen data <=? 0) with false by lia.
    assert (Hne : data <> []) by (by intros ->).
    pose proof (read_piece_sched (fun k => 0 < k) (zlen data) data s Hs) as HF.
    destruct (read_piece_spec (zlen data) data s Hne ltac:(lia)) as [(p & rest & s' & Ep & -> & E2 & E3 & _)|(s' & Ep & _)]; rewrite Ep in HF |- *.
    + assert (Hp : zlen p <> 0) by (intros Hp; by apply zlen_0_inv in Hp). rewrite zlen_app in *.
      replace (zlen p + zlen rest - zlen p) with (zlen rest) by lia.
      destruct (IH (acc ++ p) rest s' HF) as (s2 & -> & H2); [rewrite length_app in Hf; unfold zlen in Hp; lia|].
      exists s2. by rewrite <- app_assoc.
    + exfalso. unfold read_piece in Ep. destruct data; [done|]. destruct s as [|k s]; [done|]. apply Forall_cons in Hs as [Hk _].
      replace (k <=? 0) with false in Ep by lia. done.
Qed.

Lemma take_payload_ok n data s (d : daemon E) :
  zlen data = n -> n < 2 ^ 31 -> Forall (fun k => 0 < k) s ->
  exists s', take_payload n (set_payload data s d) = (Some data, set_payload [] s' d) /\ Forall (fun k => 0 < k) s'.
Proof.
  intros Hn Hl Hs. pose proof (zlen_nonneg data). unfold take_payload. cbn [payload payload_sched set_payload].
  assert (Hi : i32 n = zlen data) by (unfold i32; rewrite Z.mod_small by lia; lia). rewrite Hi.
  destruct (read_payload_ok (Z.to_nat n) [] data s Hs) as (s' & -> & H'); [unfold zlen in Hn; lia|]. by exists s'.
Qed.

End Handles.

(** ** Counts of a read *)

Section Counts.
Context {E : Type} `{Env E}.

Ltac negative := by (intros Hneg; exfalso; revert Hneg; vm_compute; intros Hneg; apply Hneg).

Definition counted (r : read_result) : Prop := let '(n, data, _) := r in 0 <= n -> n = zlen data.

Lemma read_loop_err cf fuel forkid offset size got w e : fst (read_loop cf fuel forkid offset size got w) = Some (Err e) -> 0 < e.
Proof.
  revert got w. induction fuel as [|fuel IH]; intros got w; cbn [read_loop]; [by case_if|]. case_if; [|done]. cbv zeta.
  unfold bind. case_if; unfold call; (destruct (handle _ _) as [[rc data] e'] eqn:Eh; repeat case_if; try done;
    try (intros [= <-]; vm_compute; congruence); apply IH).
Qed.

Lemma read_locked_counted cf forkid offset size w : counted (fst (read_locked cf forkid offset size w)).
Proof.
  unfold read_locked, bind, ret, counted. destruct (ll_handle_locking _ _ _ _ _) as [l w1]. case_if; [negative|].
  pose proof (fun e => read_loop_err cf (Z.to_nat size) forkid offset size [] w1 e) as He.
  destruct (read_loop _ _ _ _ _ _ w1) as [[[[got eof]|e]|] w2].
  - destruct (ll_handle_unlocking _ _ _ _ w2) as [u w3]. case_if; [|done]. destruct (ll_handle_unlocking _ _ _ _ w3). negative.
  - destruct (ll_handle_unlocking _ _ _ _ w2) as [u w3]. simpl. specialize (He e eq_refl). lia.
  - negative.
Qed.

Lemma ll_read_counted cf size offset fp w : counted (fst (ll_read cf size offset fp w)).
Proof.
  unfold ll_read. destruct fp as [p|]; [|negative]. unfold bind, get, ret. repeat (case_if; [negative || done|]).
  destruct (if afp_server_is_apple cf then _ else _) as [u w1]. case_if; [negative|]. case_if; [|apply read_locked_counted].
  case_if; [|apply read_locked_counted]. destruct (afp2_fork_reaches cf p offset w1) as [r w2]. simpl. repeat case_if; simpl; negative || done || lia.
Qed.

Lemma ml_read_counted cf size offset fp w : counted (fst (ml_read cf size offset fp w)).
Proof.
  unfold ml_read, bind, get, ret. case_if; [|apply ll_read_counted]. destruct (appledouble_read cf fp size offset w) as [[[r got] eof] w1].
  case_if; [simpl; lia|]. case_if; [done|]. apply ll_read_counted.
Qed.

End Counts.

(** ** Reads and writes *)

Section FileCalls.
Context {E : Type} `{Env E} `{Platform}.
Context (stale beyond : list Z) (others : Z -> Z -> list Z -> D E outcome) (pages : nat) (logged : list (Z * list Z)) (fuel : nat).
Hypothesis logged_ok : Forall entry_ok logged /\ zlen (log_bytes logged) <= AFPSL_IPC_LOG_BUFFER_SIZE.

#[local] Hint Extern 0 (Peer (link E)) => exact (link_peer stale beyond others pages logged) : typeclass_instances.

(** What a read request is answered with. *)
Definition read_content (r : Z) (data : list Z) (eof : bool) : list Z :=
  let body := if r >? 0 then read_answer_body r eof data else read_answer_body 0 eof [] in
  afpsl_ipc_response_header (if r <? 0 then AFPSL_IPC_RESULT_ERROR else AFPSL_IPC_RESULT_OK) (RESPONSE_HEADER + zlen body) ++ body.

Lemma read_handled l vol a h fp offset length resource e1 r data eof w :
  serves (l_daemon l) vol a -> handle_for (l_daemon l) vol a h fp ->
  0 <= vol < 2 ^ 64 -> 0 <= offset <= INT64_MAX -> 0 <= length < 2 ^ 32 - READ_RESPONSE ->
  handle (Malloc (READ_RESPONSE + length)) (denv (l_daemon l)) = (true, e1) ->
  ml_read (a_config a) length offset fp (a_volume a, e1) = ((r, data, eof), w) -> zlen data <= length ->
  handled stale beyond others pages (transfer_request AFPSL_IPC_COMMAND_READ vol h offset length resource) (read_content r data eof) (l_daemon l)
    (set_world vol a w).
Proof.
  intros [Ha Hc] Hh Hv Ho Hl Hm Hr Hd s _. set (q := transfer_request _ _ _ _ _ _). pose proof Hh as ([Hh1 Hh2] & _). unfold MAX_OPEN_FILES, READ_RESPONSE in *.
  assert (Hq : 0 <= vol < 2 ^ 64 /\ 0 <= h < 2 ^ 31 /\ 0 <= offset <= INT64_MAX /\ 0 <= length < 2 ^ 32) by (repeat split; lia).
  destruct (transfer_members AFPSL_IPC_COMMAND_READ vol h offset length resource beyond Hq) as (M1 & M2 & M3). fold q in M1, M2, M3.
  assert (Hcmd : req_command (q ++ beyond) = AFPSL_IPC_COMMAND_READ) by (by apply transfer_command).
  assert (Hvol : volumeid (q ++ beyond) = vol) by (by apply transfer_volume).
  assert (Hcl : close_asked (q ++ beyond) = false) by (by apply transfer_close).
  assert (Hz : zlen q = 48) by apply zlen_transfer. split; [|done].
  unfold process_command_thread. rewrite Hcmd. cbn [negb andb]. pick. unfold process_read. rewrite Hz. change (48 <? 48) with false. cbv iota.
  unfold with_volume, dbind. cbn [volumes set_payload]. rewrite Hvol, Ha, Hc. cbn [negb]. rewrite M3. unfold READ_RESPONSE.
  assert (Hu : u32 (16 + length) = 16 + length) by (unfold u32; apply Z.mod_small; lia). rewrite Hu. unfold dalloc. cbn [denv file_handle_table volumes payload payload_sched set_payload].
  rewrite Hm. cbn [negb]. rewrite M1. replace (i32 h) with h by (unfold i32; rewrite Z.mod_small by lia; lia).
  erewrite get_file_handle_ok by (exact Ha || exact Hh). rewrite M2, i64_small by done. unfold on_volume. cbn [volumes denv]. rewrite Ha. cbn [default from_option id].
  rewrite Hr. cbv iota. pose proof (zlen_nonneg data). replace (16 + length <? 16 + zlen data) with false by lia. unfold dret, answer, read_content. rewrite Hcl.
  by destruct (r >? 0) eqn:E1; destruct (r <? 0) eqn:E2; try (exfalso; lia).
Qed.

(** A request goes out on an open connection. *)
Lemma sends_ok (l : link E) logs q :
  idle l -> ensure_daemon_connection fuel (Conn true logs l) = (0, Conn true logs l)
  /\ sl_send_command q (Conn true logs l) = (true, Conn true logs (sent q l)).
Proof.
  intros (Hin & Hout & c & Hc & _). split; [done|]. unfold sl_send_command, write_bytes, kbind. cbn [peer peer_send link_peer fd_open shown_logs].
  unfold link_send. rewrite Hc, Hin. cbn [app]. unfold kret, sent. by rewrite Hc.
Qed.

Lemma read_content_ok r data eof length :
  counted (r, data, eof) -> zlen data <= length -> 0 <= length <= UINT32_MAX - AFPSL_IPC_LOG_BUFFER_SIZE - LOG_FOOTER - READ_RESPONSE ->
  let c := read_content r data eof in
  content_ok c /\ zlen c = READ_RESPONSE + (if r >? 0 then zlen data else 0)
  /\ resp_result c = (if r <? 0 then AFPSL_IPC_RESULT_ERROR else AFPSL_IPC_RESULT_OK)
  /\ (0 <= r -> le_at c 8 4 = zlen data /\ le_at c 12 4 = Z.b2z eof /\ drop (Z.to_nat 16) c = data).
Proof.
  intros Hc Hd Hl. pose proof (zlen_nonneg data). unfold UINT32_MAX, AFPSL_IPC_LOG_BUFFER_SIZE, LOG_FOOTER, READ_RESPONSE in *. cbv zeta.
  set (x := if r >? 0 then data else []). set (n := if r >? 0 then r else 0).
  assert (Ec : read_content r data eof = afpsl_ipc_response_header (if r <? 0 then AFPSL_IPC_RESULT_ERROR else AFPSL_IPC_RESULT_OK) (16 + zlen x)
    ++ le_put 4 n ++ le_put 4 (Z.b2z eof) ++ x).
  { unfold read_content, read_answer_body, n, x. destruct (r >? 0); rewrite !zlen_app, !zlen_le_put; unfold RESPONSE_HEADER; do 2 f_equal; lia. }
  assert (Hx : zlen x = if r >? 0 then zlen data else 0) by (unfold x; by destruct (r >? 0)).
  assert (Hz : zlen (read_content r data eof) = 16 + zlen x) by (rewrite Ec, !zlen_app, zlen_response, !zlen_le_put; lia).
  assert (Hxl : 0 <= zlen x <= zlen data) by (rewrite Hx; case_if; lia).
  split; [unfold content_ok, UINT32_MAX, AFPSL_IPC_LOG_BUFFER_SIZE, LOG_FOOTER, RESPONSE_HEADER; rewrite Hz; lia|]. split; [lia|].
  split; [rewrite Ec; apply response_result; case_if; vm_compute; split; congruence|]. intros Hr. specialize (Hc Hr).
  assert (x = data /\ n = zlen data) as [Ex En].
  { unfold x, n. destruct (r >? 0) eqn:Er; [done|]. assert (r = 0) as -> by lia. symmetry in Hc. by apply zlen_0_inv in Hc as ->. }
  rewrite Ec, Ex, En. split; [|split].
  - apply (le_at_put' _ 8 4 4 (afpsl_ipc_response_header (if r <? 0 then AFPSL_IPC_RESULT_ERROR else AFPSL_IPC_RESULT_OK) (16 + zlen data)) (zlen data) (le_put 4 (Z.b2z eof) ++ data)); [done|by rewrite zlen_response|done|lia].
  - apply (le_at_put' _ 12 4 4 (afpsl_ipc_response_header (if r <? 0 then AFPSL_IPC_RESULT_ERROR else AFPSL_IPC_RESULT_OK) (16 + zlen data) ++ le_put 4 (zlen data)) (Z.b2z eof) data);
      [by rewrite <- app_assoc|by rewrite zlen_app, zlen_response, zlen_le_put|done|destruct eof; simpl; lia].
  - rewrite !app_assoc. apply drop_app_zlen. by rewrite !length_app, !le_put_length.
Qed.

(** The bytes a read of the library gets are those the daemon read. For a
    handle of the volume, and however the answer is cut into pieces,
    afp_sl_read returns the bytes of ml_read on the handle's record at that
    offset with its mark of the end, or -EIO for any errno of it, and the
    connection is idle again. *)
Theorem read_call_transparent (l : link E) logs vol a h fp offset length resource e1 r data eof w :
  idle l -> serves (l_daemon l) vol a -> handle_for (l_daemon l) vol a h fp ->
  0 <= vol < 2 ^ 64 -> 0 <= offset <= INT64_MAX -> 0 <= length <= UINT32_MAX - AFPSL_IPC_LOG_BUFFER_SIZE - LOG_FOOTER - READ_RESPONSE ->
  (List.length (l_out l) < fuel)%nat ->
  handle (Malloc (READ_RESPONSE + length)) (denv (l_daemon l)) = (true, e1) ->
  ml_read (a_config a) length offset fp (a_volume a, e1) = ((r, data, eof), w) -> zlen data <= length ->
  exists s l', afp_sl_read fuel (fun _ => true) vol h resource offset length (Conn true logs l)
      = (if r <? 0 then Err (- EIO) else Ok (data, Z.b2z eof), Conn true (logs ++ logged) l')
    /\ idle l' /\ l_daemon l' = set_world vol a w (set_payload [] s (l_daemon l)).
Proof.
  intros Hi Hs Hh Hv Ho Hl Hf Hm Hr Hd. pose proof (ml_read_counted (a_config a) length offset fp (a_volume a, e1)) as Hcount. rewrite Hr in Hcount.
  destruct (read_content_ok r data eof length Hcount Hd Hl) as (C1 & C2 & C3 & C4). unfold UINT32_MAX, AFPSL_IPC_LOG_BUFFER_SIZE, LOG_FOOTER, READ_RESPONSE in *.
  pose proof Hh as ([Hh1 Hh2] & _). unfold MAX_OPEN_FILES in Hh2. pose proof (zlen_nonneg data).
  set (q := transfer_request AFPSL_IPC_COMMAND_READ vol h offset length resource).
  destruct (parts_ok stale beyond others pages logged fuel logged_ok (fun _ => True) l q [] (read_content r data eof) (set_world vol a w) logs 16)
    as (s & l' & tail & c1 & _ & E1 & E2 & E3 & Hi' & Hd'); [done|by apply transfer_ok|done|by apply Forall_true| |rewrite C2; case_if; lia|done|].
  { eapply read_handled; try done; unfold READ_RESPONSE; lia. }
  exists s, l'. split; [|done]. unfold afp_sl_read, kbind. destruct (sends_ok l logs q Hi) as [-> Es]. change (negb (0 =? 0)) with false. cbv iota. fold q.
  cbv beta. rewrite Es.
  cbn [negb]. rewrite app_nil_r in E1. rewrite E1. cbv iota. rewrite E2, head_result, C3 by (rewrite C2; case_if; lia).
  destruct (r <? 0) eqn:Er; [done|]. change (negb (AFPSL_IPC_RESULT_OK =? AFPSL_IPC_RESULT_OK)) with false. cbv iota.
  destruct C4 as (D1 & D2 & D3); [lia|]. rewrite !head_at, D1, D2 by (rewrite ?C2; repeat case_if; lia).
  assert (Hp : zlen (read_content r data eof) - 16 = zlen data).
  { rewrite C2. destruct (r >? 0) eqn:Ep; [lia|]. simpl in Hcount. lia. }
  rewrite Hp in E3 |- *. rewrite Z.eqb_refl. replace (_ || _) with false by (cbn [negb]; lia). unfold kret. by rewrite E3, D3.
Qed.

(** What a write request is answered with. *)
Definition write_content (r : Z) : list Z :=
  afpsl_ipc_response_header (if r <? 0 then AFPSL_IPC_RESULT_ERROR else AFPSL_IPC_RESULT_OK) 12 ++ le_put 4 (if r >? 0 then r else 0).

Lemma write_handled l vol a h fp offset data resource e1 r w :
  serves (l_daemon l) vol a -> handle_for (l_daemon l) vol a h fp ->
  0 <= vol < 2 ^ 64 -> 0 <= offset <= INT64_MAX -> zlen data < 2 ^ 31 ->
  handle (Malloc (zlen data)) (denv (l_daemon l)) = (true, e1) ->
  ml_write (a_config a) data offset fp (a_volume a, e1) = (r, w) ->
  handled_data stale beyond others pages (fun k => 0 < k) (transfer_request AFPSL_IPC_COMMAND_WRITE vol h offset (zlen data) resource) data
    (write_content r) (l_daemon l) (fun d => set_world vol a w (snd (take_payload (zlen data) d))).
Proof.
  intros [Ha Hc] Hh Hv Ho Hl Hm Hr s Hs. set (q := transfer_request _ _ _ _ _ _). pose proof Hh as ([Hh1 Hh2] & _). unfold MAX_OPEN_FILES in *.
  pose proof (zlen_nonneg data).
  assert (Hq : 0 <= vol < 2 ^ 64 /\ 0 <= h < 2 ^ 31 /\ 0 <= offset <= INT64_MAX /\ 0 <= zlen data < 2 ^ 32) by (repeat split; lia).
  destruct (transfer_members AFPSL_IPC_COMMAND_WRITE vol h offset (zlen data) resource beyond Hq) as (M1 & M2 & M3). fold q in M1, M2, M3.
  assert (Hcmd : req_command (q ++ beyond) = AFPSL_IPC_COMMAND_WRITE) by (by apply transfer_command).
  assert (Hvol : volumeid (q ++ beyond) = vol) by (by apply transfer_volume).
  assert (Hcl : close_asked (q ++ beyond) = false) by (by apply transfer_close).
  assert (Hz : zlen q = 48) by apply zlen_transfer.
  destruct (take_payload_ok (zlen data) data s (l_daemon l) eq_refl Hl Hs) as (s1 & Et & _). rewrite Et. split; [|done].
  unfold process_command_thread. rewrite Hcmd. cbn [negb andb]. pick. unfold process_write. rewrite Hz. change (48 <? 48) with false. cbv iota.
  unfold with_volume, dbind. cbn [volumes set_payload]. rewrite Hvol, Ha, Hc. cbn [negb]. rewrite M3. unfold dalloc. cbn [denv file_handle_table volumes payload payload_sched set_payload].
  rewrite Hm. cbn [negb]. unfold take_payload in Et |- *. cbn [payload payload_sched set_payload] in Et |- *.
  destruct (read_payload _ _ _ _ _) as [[x avail] sched]. cbn [file_handle_table volumes denv]. injection Et as -> -> ->.
  cbv iota. rewrite M1. replace (i32 h) with h by (unfold i32; rewrite Z.mod_small by lia; lia).
  erewrite get_file_handle_ok by (exact Ha || exact Hh). rewrite Z.eqb_refl. change (negb true) with false. cbv iota.
  rewrite M2, i64_small by done. unfold on_volume. cbn [volumes denv set_payload]. rewrite Ha. cbn [default from_option id].
  rewrite Hr. unfold dret, answer, write_content. by rewrite Hcl, zlen_le_put.
Qed.

Lemma write_content_ok r : content_ok (write_content r) /\ zlen (write_content r) = 12
  /\ resp_result (write_content r) = (if r <? 0 then AFPSL_IPC_RESULT_ERROR else AFPSL_IPC_RESULT_OK)
  /\ (0 <= r < 2 ^ 32 -> le_at (write_content r) 8 4 = r).
Proof.
  assert (Hz : zlen (write_content r) = 12) by (unfold write_content; by rewrite zlen_app, zlen_response, zlen_le_put).
  split; [unfold content_ok; rewrite Hz; vm_compute; split; congruence|]. split; [done|].
  split; [apply response_result; case_if; vm_compute; split; congruence|]. intros Hr. unfold write_content.
  replace (if r >? 0 then r else 0) with r by (case_if; lia).
  apply (le_at_put' _ 8 4 4 (afpsl_ipc_response_header (if r <? 0 then AFPSL_IPC_RESULT_ERROR else AFPSL_IPC_RESULT_OK) 12) r []);
    [by rewrite app_nil_r|by rewrite zlen_response|done|lia].
Qed.

(** The bytes a write of the library sends are those the daemon writes. For
    a handle of the volume, data of less than 2 GiB behind the request and reads
    that are not interrupted, afp_sl_write returns the count of ml_write of
    exactly these data on the handle's record, or -EIO for any errno of it, no
    byte of them is left on the socket, and the connection is idle again. *)
Theorem write_call_transparent (l : link E) logs vol a h fp offset data resource e1 r w :
  idle l -> serves (l_daemon l) vol a -> handle_for (l_daemon l) vol a h fp ->
  0 <= vol < 2 ^ 64 -> 0 <= offset <= INT64_MAX -> zlen data < 2 ^ 31 -> Forall (fun k => 0 < k) (l_in l) ->
  (List.length (l_out l) < fuel)%nat ->
  handle (Malloc (zlen data)) (denv (l_daemon l)) = (true, e1) ->
  ml_write (a_config a) data offset fp (a_volume a, e1) = (r, w) -> r < 2 ^ 32 ->
  exists s l', afp_sl_write fuel (fun _ => true) vol h resource offset data (Conn true logs l)
      = (if r <? 0 then Err (- EIO) else Ok r, Conn true (logs ++ logged) l')
    /\ idle l' /\ l_daemon l' = set_world vol a w (set_payload [] s (l_daemon l)).
Proof.
  intros Hi Hs Hh Hv Ho Hl HP Hf Hm Hr Hb. destruct (write_content_ok r) as (C1 & C2 & C3 & C4).
  pose proof Hh as ([Hh1 Hh2] & _). unfold MAX_OPEN_FILES in Hh2. pose proof (zlen_nonneg data).
  set (q := transfer_request AFPSL_IPC_COMMAND_WRITE vol h offset (zlen data) resource).
  destruct (parts_ok stale beyond others pages logged fuel logged_ok (fun k => 0 < k) l q data (write_content r)
    (fun d => set_world vol a w (snd (take_payload (zlen data) d))) logs 12)
    as (s & l' & tail & c1 & HPs & E1 & E2 & E3 & Hi' & Hd'); [done|by apply transfer_ok|done|done| |lia|done|].
  { by eapply write_handled. }
  destruct (take_payload_ok (zlen data) data s (l_daemon l) eq_refl Hl HPs) as (s1 & Et & _). rewrite Et in Hd'.
  exists s1, l'. split; [|done]. unfold afp_sl_write, kbind. destruct (sends_ok l logs q Hi) as [-> Es]. change (negb (0 =? 0)) with false. cbv iota. fold q.
  cbv beta. rewrite Es. cbn [negb].
  assert (Ew : write_bytes data (Conn true logs (sent q l)) = (true, Conn true logs (sent (q ++ data) l))).
  { destruct Hi as (_ & _ & c & Hc & _). unfold write_bytes. cbn [peer peer_send link_peer fd_open shown_logs]. unfold link_send, sent. cbn [l_client]. by rewrite Hc. }
  rewrite Ew. cbn [negb]. rewrite E1. cbv iota. rewrite E2, C2. cbv iota. change (12 - 12) with 0. cbv iota. rewrite head_result, C3 by lia.
  destruct (r <? 0) eqn:Er; [done|]. change (negb (AFPSL_IPC_RESULT_OK =? AFPSL_IPC_RESULT_OK)) with false. cbv iota.
  rewrite head_at, C4 by lia. done.
Qed.

(** A close's answer is its errno, in a char. *)
Lemma close_answered (l : link E) logs vol a h fp r w :
  idle l -> serves (l_daemon l) vol a -> handle_for (l_daemon l) vol a h fp -> 0 <= vol < 2 ^ 64 -> (List.length (l_out l) < fuel)%nat ->
  (let! r := ml_close (a_config a) (Some fp) in free_fork fp ;;! ret r) (a_volume a, denv (l_daemon l)) = (r, w) ->
  exists s l', send_to_daemon fuel (close_request vol h) 8 (Conn true logs l)
      = (if i8 r <? 0 then (Err (- ECONNRESET), Conn false (logs ++ logged) l')
         else (Ok (head_of logged 8 (afpsl_ipc_response_header r 8 ++ [])), Conn true (logs ++ logged) l'))
    /\ idle l'
    /\ l_daemon l' = set_world vol a w (set_table (delete h (file_handle_table (l_daemon l))) (set_payload [] s (l_daemon l))).
Proof.
  intros Hi [Ha Hc] Hh Hv Hf Hr. pose proof Hh as ([Hh1 Hh2] & _). unfold MAX_OPEN_FILES in *. set (q := close_request vol h).
  assert (Hz : zlen q = 32) by (unfold q, close_request; by rewrite !zlen_app, zlen_header, !zlen_le_put).
  set (content := afpsl_ipc_response_header r 8 ++ []).
  assert (Hcz : zlen content = 8) by (unfold content; by rewrite app_nil_r, zlen_response).
  assert (Hres : resp_result content = i8 r).
  { unfold content, resp_result, le_at, afpsl_ipc_response_header, sub. simpl. unfold be_get, i8, u8. cbn -[Z.modulo].
    change (0 * 256 + r mod 2 ^ 8) with (r mod 256). by rewrite Zplus_mod_idemp_l. }
  assert (Hq : req_command (q ++ beyond) = AFPSL_IPC_COMMAND_CLOSE /\ volumeid (q ++ beyond) = vol /\ close_asked (q ++ beyond) = false
    /\ le_at (q ++ beyond) 24 4 = h).
  { unfold q, close_request. rewrite <- !app_assoc. split; [by apply header_command|]. split; [by apply header_volume|].
    split; [unfold close_asked; by rewrite header_close by (unfold UINT32_MAX; lia)|].
    apply (le_at_put' _ _ 4 _ (afpsl_ipc_request_header AFPSL_IPC_COMMAND_CLOSE 32 0 ++ zero_bytes 4 ++ le_put 8 vol) h (zero_bytes 4 ++ beyond));
      [by rewrite <- !app_assoc|by rewrite !zlen_app, zlen_header, zlen_le_put|done|lia]. }
  destruct Hq as (Q1 & Q2 & Q3 & Q4).
  destruct (send_to_daemon_any stale beyond others pages logged logged_ok fuel l q content
    (fun d => set_world vol a w (set_table (delete h (file_handle_table (l_daemon l))) d)) logs 8) as (s & l' & E1 & H1 & H2);
    [done| | |unfold content_ok; rewrite Hcz; vm_compute; split; congruence|rewrite Hcz; vm_compute; congruence|lia|done|].
  - split; [rewrite Hz; vm_compute; split; congruence|]. rewrite Hz. by apply header_len.
  - intros s _. split; [|done]. unfold process_command_thread. rewrite Q1. cbn [negb andb]. pick. unfold process_close. rewrite Hz. change (32 <? 32) with false. cbv iota.
    unfold with_volume, dbind. cbn [volumes set_payload]. rewrite Q2, Ha, Hc. cbn [negb]. rewrite Q4.
    replace (i32 h) with h by (unfold i32; rewrite Z.mod_small by lia; lia).
    erewrite get_file_handle_ok by (exact Ha || exact Hh). unfold on_volume. cbn [volumes denv set_table set_payload file_handle_table]. rewrite Ha. cbn [default from_option id].
    rewrite Hr. unfold dret, answer. by rewrite Q3.
  - exists s, l'. rewrite Hres in E1. done.
Qed.

(** A close that fails takes the connection along. The daemon answers a
    close with its errno in the header's char, which the library takes for a
    broken connection: whatever the errno of ml_close, afp_sl_close returns
    -ECONNRESET and drops the connection, though the daemon is still there and
    waits for the next request; only a close that succeeds keeps it. *)
Theorem failed_close_disconnects (l : link E) logs vol a h fp r w :
  idle l -> serves (l_daemon l) vol a -> handle_for (l_daemon l) vol a h fp -> 0 <= vol < 2 ^ 64 -> (List.length (l_out l) < fuel)%nat ->
  (let! r := ml_close (a_config a) (Some fp) in free_fork fp ;;! ret r) (a_volume a, denv (l_daemon l)) = (r, w) -> -128 <= r <= 0 ->
  exists s l', afp_sl_close fuel vol h (Conn true logs l)
      = (if r =? 0 then 0 else - ECONNRESET, Conn (r =? 0) (logs ++ logged) l')
    /\ idle l'
    /\ l_daemon l' = set_world vol a w (set_table (delete h (file_handle_table (l_daemon l))) (set_payload [] s (l_daemon l))).
Proof.
  intros Hi Hs Hh Hv Hf Hr Hb. destruct (close_answered l logs vol a h fp r w Hi Hs Hh Hv Hf Hr) as (s & l' & E1 & H').
  exists s, l'. split; [|done]. unfold afp_sl_close, result_call, kbind. rewrite E1.
  replace (i8 r) with r by (unfold i8; rewrite Z.mod_small by lia; lia).
  destruct (Z.eqb_spec r 0) as [->|Hne]; [|by replace (r <? 0) with true by lia].
  change (0 <? 0) with false. cbv iota. unfold kret.
  by rewrite head_result by (rewrite zlen_app, zlen_response; change (zlen []) with 0; lia).
Qed.

End FileCalls.

(** ** A daemon with an open file *)

Definition open_volume : volume :=
  set_open_forks [3] (set_fork 3 (FileInfo 0 2 0 0 5 false true false false (str "a")) empty_volume).
Definition open_attached : attached := Attached sample_config open_volume true.
Definition open_daemon (content : list Z) : daemon (list Z) := Daemon {[ 1 := (3, 7) ]} {[ 7 := open_attached ]} content [] [].
Definition open_link (content : list Z) : link (list Z) :=
  MkLink (open_daemon content) (Some (Client [] None true [])) [] [] [1; 3; 5] [1; 0; 3].
Definition none_others (command size : Z) (mem : list Z) : D (list Z) outcome := dret Drop.

Lemma open_link_idle content : idle (open_link content).
Proof. split; [done|]. split; [done|]. by eexists. Qed.

Lemma open_serves content : serves (l_daemon (open_link content)) 7 open_attached.
Proof. by split. Qed.

Lemma open_handle content : handle_for (l_daemon (open_link content)) 7 open_attached 1 3.
Proof. split; [done|]. by split. Qed.

Definition open_log : list (Z * list Z) := [(3, str "x")].
Lemma open_log_ok : Forall entry_ok open_log /\ zlen (log_bytes open_log) <= AFPSL_IPC_LOG_BUFFER_SIZE.
Proof. split; [repeat constructor; vm_compute; congruence|vm_compute; congruence]. Qed.

Lemma read_call_transparent_witness :
  exists s l', afp_sl_read (H := link_peer [] [9] none_others 3 open_log) 4 (fun _ => true) 7 1 0 2 6 (Conn true [] (open_link (str "hello world")))
      = (Ok (str "llo wo", 0), Conn true open_log l')
    /\ idle l' /\ l_daemon l' = set_world 7 open_attached (open_volume, str "hello world") (set_payload [] s (open_daemon (str "hello world"))).
Proof.
  apply (read_call_transparent [] [9] none_others 3 open_log 4 open_log_ok (open_link (str "hello world")) [] 7 open_attached 1 3 2 6 0
    (str "hello world") 6 (str "llo wo") false (open_volume, str "hello world") (open_link_idle _) (open_serves _) (open_handle _));
    (vm_compute; repeat constructor; congruence) || reflexivity || lia.
Defined.

Definition written_volume : volume :=
  set_open_forks [3] (set_fork 3 (FileInfo 7 2 0 0 5 false true true false (str "a")) empty_volume).

Lemma write_call_transparent_witness :
  exists s l', afp_sl_write (H := link_peer [] [9] none_others 3 open_log) 4 (fun _ => true) 7 1 0 2 (str "brave") (Conn true [] (open_link (str "hello world")))
      = (Ok 5, Conn true open_log l')
    /\ idle l' /\ l_daemon l' = set_world 7 open_attached (written_volume, str "hebraveorld") (set_payload [] s (open_daemon (str "hello world"))).
Proof.
  apply (write_call_transparent [] [9] none_others 3 open_log 4 open_log_ok (open_link (str "hello world")) [] 7 open_attached 1 3 2 (str "brave") 0
    (str "hello world") 5 (written_volume, str "hebraveorld") (open_link_idle _) (open_serves _) (open_handle _));
    (vm_compute; repeat constructor; congruence) || reflexivity || lia.
Defined.

Lemma failed_close_disconnects_witness :
  exists s l', afp_sl_close (H := link_peer [] [9] none_others 3 open_log) 4 7 1 (Conn true [] (open_link (str "hello world")))
      = (- ECONNRESET, Conn false open_log l')
    /\ idle l'
    /\ l_daemon l' = set_world 7 open_attached (empty_volume, str "hello world") (set_table (delete 1 {[ 1 := (3, 7) ]}) (set_payload [] s (open_daemon (str "hello world")))).
Proof.
  apply (failed_close_disconnects [] [9] none_others 3 open_log 4 open_log_ok (open_link (str "hello world")) [] 7 open_attached 1 3 (- EIO)
    (empty_volume, str "hello world") (open_link_idle _) (open_serves _) (open_handle _));
    (vm_compute; repeat constructor; congruence) || reflexivity || lia.
Defined.
