(* ===== verification/RpcOpen.v ===== *)
(** Opens and attributes through the daemon. *)
From stdpp Require Import gmap.
From S2P Require Import Prelude AfpProtocol Identify Local Sidecar Path Dates ReplyBlock Listing World DidCache ForkList LowLevel Resource Midlevel Xattr ForkIO Ipc Daemon Stateless Link Rpc RpcProofs RpcFiles.
Local Open Scope afp_scope.

(** ** The table of handles *)

Lemma free_slot_spec fuel i t : 0 < i ->
  let s := free_slot fuel i t in
  (s = 0 /\ (forall j, i <= j < i + Z.of_nat fuel -> is_Some (t !! j)))
  \/ (i <= s < i + Z.of_nat fuel /\ t !! s = None /\ (forall j, i <= j < s -> is_Some (t !! j))).
Proof.
  revert i. induction fuel as [|fuel IH]; intros i Hi; cbn [free_slot]; [left; split; [done|]; intros; lia|].
  destruct (t !! i) as [x|] eqn:Et; [|right; split; [lia|]; split; [done|]; intros; lia].
  destruct (IH (i + 1) ltac:(lia)) as [[E1 E2]|(E1 & E2 & E3)]; [left|right].
  - split; [done|]. intros j Hj. destruct (Z.eq_dec j i) as [->|]; [by rewrite Et|apply E2; lia].
  - split; [lia|]. split; [done|]. intros j Hj. destruct (Z.eq_dec j i) as [->|]; [by rewrite Et|apply E3; lia].
Qed.

(** The slot an open gets. *)
Definition next_slot (t : gmap Z (Z * Z)) : Z := free_slot (Z.to_nat (MAX_OPEN_FILES - 1)) 1 t.

Lemma next_slot_free t j : 0 < j < MAX_OPEN_FILES -> t !! j = None -> 0 < next_slot t < MAX_OPEN_FILES /\ t !! next_slot t = None.
Proof.
  unfold MAX_OPEN_FILES. intros Hj Hn. unfold next_slot, MAX_OPEN_FILES. destruct (free_slot_spec (Z.to_nat 1023) 1 t ltac:(lia)) as [[_ Hf]|(H1 & H2 & _)].
  - destruct (Hf j ltac:(lia)) as [x Hx]. congruence.
  - change (1024 - 1) with 1023. split; [lia|done].
Qed.

Section Exchange.
Context {E : Type} `{Env E} `{Platform}.
Context (stale beyond : list Z) (others : Z -> Z -> list Z -> D E outcome) (pages : nat) (logged : list (Z * list Z)) (fuel : nat).
Context (getvolid : K (link E) (res Z)) (url_path : option (list Z)).
Hypothesis logged_ok : Forall entry_ok logged /\ zlen (log_bytes logged) <= AFPSL_IPC_LOG_BUFFER_SIZE.

#[local] Hint Extern 0 (Peer (link E)) => exact (link_peer stale beyond others pages logged) : typeclass_instances.

(** A call on a path with an answer of a result and a body. *)
Lemma path_exchange command sizeof off vol fields path (l : link E) logs result body f :
  0 <= command < 128 -> zlen fields = off - 28 /\ 28 <= off <= sizeof /\ sizeof <= 64 -> 0 <= vol < 2 ^ 64 ->
  no_nul path -> zlen path <= UINT16_MAX -> idle l -> 0 <= result < 128 -> zlen body <= UINT16_MAX -> (length (l_out l) < fuel)%nat ->
  let q := path_request command sizeof off vol fields path in
  let n := 8 + zlen body in
  (forall s, process_command_thread stale others pages true (zlen q) (q ++ beyond) (set_payload [] s (l_daemon l))
             = (answer (q ++ beyond) result body, true, f (set_payload [] s (l_daemon l))) /\ payload (f (set_payload [] s (l_daemon l))) = []) ->
  exists s l' reply, path_call fuel (fun _ => true) getvolid url_path (Some vol) (Some path) command sizeof off fields n (Conn true logs l)
      = (Ok reply, Conn true (logs ++ logged) l')
    /\ resp_result reply = result /\ drop (Z.to_nat 8) reply = body /\ idle l' /\ l_daemon l' = f (set_payload [] s (l_daemon l)).
Proof.
  intros Hc Hlay Hv Hp1 Hp2 Hi Hr Hb Hf q n Hh. pose proof (zlen_nonneg body). unfold UINT16_MAX in Hb.
  set (content := afpsl_ipc_response_header result (RESPONSE_HEADER + zlen body) ++ body).
  assert (Hz : zlen content = 8 + zlen body) by (unfold content; by rewrite zlen_app, zlen_response).
  assert (Hcon : content_ok content) by (unfold content_ok, UINT32_MAX, AFPSL_IPC_LOG_BUFFER_SIZE, LOG_FOOTER, RESPONSE_HEADER; lia).
  assert (Hres : resp_result content = result) by (by apply response_result).
  destruct (send_to_daemon_ok stale beyond others pages logged logged_ok fuel l q content f logs n) as (s & l' & E1 & Hl1 & Hl2);
    [done|by apply path_request_ok| |done|unfold AFPSL_IPC_MAX_RESPONSE, UINT16_MAX; lia|unfold n; lia|lia|done|].
  - intros s _. destruct (Hh s) as [-> Hp]. split; [|done]. unfold answer, q. rewrite path_request_close. done.
  - exists s, l', (head_of logged n content). rewrite path_call_sends by done. split; [exact E1|].
    split; [rewrite head_result by (unfold n; lia); done|]. split; [|done].
    unfold head_of, wire. set (total := _ + LOG_FOOTER).
    assert (Hfr : zlen (framed content total) = n) by (rewrite zlen_framed by apply Hcon; unfold n; lia).
    rewrite take_app_zlen by (by apply to_nat_zlen). unfold framed, content. rewrite app_assoc.
    rewrite drop_app_zlen by (rewrite length_app, le_put_length, length_take, length_app; unfold afpsl_ipc_response_header; rewrite length_app, le_put_length; simpl; lia).
    apply drop_app_zlen. unfold afpsl_ipc_response_header. by rewrite length_app, le_put_length.
Qed.

(** ** Opens *)

(** The errno a caller sees for a failed open. *)
Definition open_errno (r : Z) : Z := if existsb (Z.eqb r) [- ENOENT; - EACCES; - EEXIST; - ETIMEDOUT] then r else - EIO.

Definition open_table : list (Z * Z) :=
  [(- ENOENT, AFPSL_IPC_RESULT_ENOENT); (- EACCES, AFPSL_IPC_RESULT_ACCESS); (- EEXIST, AFPSL_IPC_RESULT_EXIST); (- ETIMEDOUT, AFPSL_IPC_RESULT_TIMEDOUT)].

Lemma open_errno_seen r : r < 0 -> server_result_to_errno (result_of open_table r) = open_errno r.
Proof.
  intros Hr. unfold result_of, open_errno. replace (r <? 0) with true by lia.
  destruct (Z.eq_dec r (- ENOENT)) as [->|N1]; [done|]. destruct (Z.eq_dec r (- EACCES)) as [->|N2]; [done|].
  destruct (Z.eq_dec r (- EEXIST)) as [->|N3]; [done|]. destruct (Z.eq_dec r (- ETIMEDOUT)) as [->|N4]; [done|].
  cbn [open_table find fst snd existsb]. rewrite !(proj2 (Z.eqb_neq _ _)) by congruence. reflexivity.
Qed.

Lemma open_errno_neg r : r < 0 -> (open_errno r =? 0) = false.
Proof. intros Hr. unfold open_errno. case_if; [lia|done]. Qed.

(** The daemon after the open. *)
Definition opened (vol : Z) (a : attached) (fp : option Z) (w : volume * E) (d : daemon E) : daemon E :=
  let d := set_world vol a w d in
  match fp with
  | Some fp => set_table (<[next_slot (file_handle_table d) := (fp, vol)]> (file_handle_table d)) d
  | None => d
  end.

Definition open_result (fp : option Z) (r : Z) : Z := match fp with Some _ => AFPSL_IPC_RESULT_OK | None => result_of open_table r end.
Definition open_body (fp : option Z) (t : gmap Z (Z * Z)) : list Z := match fp with Some _ => le_put 4 (next_slot t) | None => stale_bytes stale 4 end.

Lemma open_handled vol a path mode (d : daemon E) r fp w j :
  serves d vol a -> 0 <= vol < 2 ^ 64 -> no_nul path -> zlen path <= UINT16_MAX -> 0 <= mode < 2 ^ 31 ->
  ml_open (a_config a) path mode (a_volume a, denv d) = ((r, fp), w) -> 0 < j < MAX_OPEN_FILES -> file_handle_table d !! j = None ->
  let q := path_request AFPSL_IPC_COMMAND_OPEN 32 32 vol (le_put 4 mode) path in
  process_command_thread stale others pages true (zlen q) (q ++ beyond) d
  = (answer (q ++ beyond) (open_result fp r) (open_body fp (file_handle_table d)), true, opened vol a fp w d).
Proof.
  intros [Ha Hc] Hv Hp1 Hp2 Hm Hr Hj Hn q.
  assert (Hq1 : req_command (q ++ beyond) = AFPSL_IPC_COMMAND_OPEN) by (by apply path_request_command).
  assert (Hq2 : volumeid (q ++ beyond) = vol) by (by apply path_request_volume).
  assert (Hq3 : request_path (zlen q) (q ++ beyond) 32 32 = Some path) by (apply path_request_path; [rewrite zlen_le_put; lia|done]).
  assert (Hq4 : le_at (q ++ beyond) 24 4 = mode).
  { apply (path_request_field _ _ _ _ (le_put 4 mode) _ _ 4 4 mode [] []); [by rewrite app_nil_r|done|lia]. }
  unfold process_command_thread. rewrite Hq1. cbn [negb andb]. pick. unfold process_open. rewrite Hq3. unfold with_volume, dbind.
  rewrite Hq2, Ha, Hc. cbn [negb]. rewrite Hq4. replace (i32 mode) with mode by (unfold i32; rewrite Z.mod_small by lia; lia).
  unfold on_volume. rewrite Ha. cbn [default from_option id]. rewrite Hr. cbv iota. destruct fp as [fp|]; [|done].
  unfold register_file_handle. cbn [file_handle_table set_world]. fold (next_slot (file_handle_table d)).
  destruct (next_slot_free (file_handle_table d) j Hj Hn) as [Hs _]. replace (next_slot (file_handle_table d) =? 0) with false by lia. done.
Qed.

(** C21: an open of the library is the daemon's open, and gives a handle for
    it. While a slot of the table is free, afp_sl_open returns 0 and a handle
    exactly if ml_open on that path with those flags gave a record; the handle
    was not in use, it stands for that record from then on, and every other
    handle stands for what it did. A failed open returns its errno if it is
    ENOENT, EACCES, EEXIST or ETIMEDOUT and -EIO for any other, and leaves the
    table as it was. *)
Theorem open_call_transparent (l : link E) logs vol a path mode r fp w j :
  idle l -> serves (l_daemon l) vol a -> 0 <= vol < 2 ^ 64 -> no_nul path -> zlen path <= UINT16_MAX -> 0 <= mode < 2 ^ 31 ->
  (length (l_out l) < fuel)%nat -> 0 < j < MAX_OPEN_FILES -> file_handle_table (l_daemon l) !! j = None ->
  ml_open (a_config a) path mode (a_volume a, denv (l_daemon l)) = ((r, fp), w) -> (fp = None -> r < 0) ->
  exists s l' h, afp_sl_open fuel (fun _ => true) getvolid url_path (Some vol) (Some path) mode (Conn true logs l)
      = (match fp with Some _ => (0, Some h) | None => (open_errno r, None) end, Conn true (logs ++ logged) l')
    /\ idle l' /\ l_daemon l' = opened vol a fp w (set_payload [] s (l_daemon l))
    /\ 0 < h < MAX_OPEN_FILES /\ file_handle_table (l_daemon l) !! h = None
    /\ forall i, file_handle_table (l_daemon l') !! i
                 = (if i =? h then (fun p => (p, vol)) <$> fp else file_handle_table (l_daemon l) !! i).
Proof.
  intros Hi Hs Hv Hp1 Hp2 Hm Hf Hj Hn Hr Hneg. set (t := file_handle_table (l_daemon l)) in *.
  destruct (next_slot_free t j Hj Hn) as [Hs1 Hs2]. unfold MAX_OPEN_FILES in *.
  assert (Hb : zlen (open_body fp t) = 4).
  { unfold open_body. destruct fp; [apply zlen_le_put|]. unfold stale_bytes. rewrite zlen_take, zlen_app, zlen_zero_bytes by lia. pose proof (zlen_nonneg stale). lia. }
  assert (Hres : 0 <= open_result fp r < 128) by (unfold open_result; destruct fp; [by vm_compute|apply result_of_range; by repeat constructor]).
  destruct (path_exchange AFPSL_IPC_COMMAND_OPEN 32 32 vol (le_put 4 mode) path l logs (open_result fp r) (open_body fp t) (opened vol a fp w))
    as (s & l' & reply & E1 & E2 & E3 & Hi' & Hd'); [done|rewrite zlen_le_put; lia|done..|rewrite Hb; done|done| |].
  { intros s. split; [|by destruct fp]. eapply open_handled; try done. }
  exists s, l', (next_slot t). split; [|split; [done|]; split; [done|]; split; [done|]; split; [done|]].
  - unfold afp_sl_open, kbind. rewrite Hb in E1. change (8 + 4) with 12 in E1. rewrite E1. unfold kret. do 2 f_equal. rewrite E2.
    unfold open_result in *. destruct fp as [fp|].
    + change (server_result_to_errno AFPSL_IPC_RESULT_OK) with 0. change (0 =? 0) with true. cbv iota. do 2 f_equal.
      replace (le_at reply 8 4) with (le_at (drop (Z.to_nat 8) reply) 0 4) by (unfold le_at, sub; rewrite drop_drop; done).
      rewrite E3. unfold open_body. apply (le_at_put' _ 0 4 4 [] (next_slot t) []); [by rewrite app_nil_r|done|done|lia].
    + rewrite open_errno_seen by auto. by rewrite open_errno_neg by auto.
  - intros i. rewrite Hd'. unfold opened. destruct fp as [fp|]; cbn [file_handle_table set_table set_world set_payload fmap option_fmap option_map].
    + fold t. destruct (Z.eqb_spec i (next_slot t)) as [->|Hne]; [by rewrite lookup_insert_eq|by rewrite lookup_insert_ne by congruence].
    + fold t. by destruct (Z.eqb_spec i (next_slot t)) as [->|Hne].
Qed.

(** ** Attributes *)

(** The system's structures survive the trip as their bytes. *)
Hypothesis stat_trip : forall s, stat_of (stat_bytes s) = s /\ zlen (stat_bytes s) = zlen (stat_bytes zero_stat).
Hypothesis stat_small : zlen (stat_bytes zero_stat) <= UINT16_MAX.

Definition stat_errno (r : Z) : Z := if existsb (Z.eqb r) [- ENOENT; - EACCES] then r else - EIO.
Definition stat_table : list (Z * Z) := [(- ENOENT, AFPSL_IPC_RESULT_ENOENT); (- EACCES, AFPSL_IPC_RESULT_ACCESS)].

Lemma stat_errno_seen r : r < 0 -> server_result_to_errno (result_of stat_table r) = stat_errno r.
Proof.
  intros Hr. unfold result_of, stat_errno. replace (r <? 0) with true by lia.
  destruct (Z.eq_dec r (- ENOENT)) as [->|N1]; [done|]. destruct (Z.eq_dec r (- EACCES)) as [->|N2]; [done|].
  cbn [stat_table find fst snd existsb]. rewrite !(proj2 (Z.eqb_neq _ _)) by congruence. reflexivity.
Qed.

Definition stat_result (r : Z) : Z := if r <? 0 then result_of stat_table r else AFPSL_IPC_RESULT_OK.
Definition stat_body (r : Z) (s : stat) : list Z := if r <? 0 then stale_bytes stale (zlen (stat_bytes zero_stat)) else stat_bytes s.

Lemma stat_handled vol a path (d : daemon E) r st w :
  serves d vol a -> 0 <= vol < 2 ^ 64 -> no_nul path -> zlen path <= UINT16_MAX ->
  ml_getattr (a_config a) path (a_volume a, denv d) = ((r, st), w) ->
  let q := path_request AFPSL_IPC_COMMAND_STAT 32 28 vol [] path in
  process_command_thread stale others pages true (zlen q) (q ++ beyond) d
  = (answer (q ++ beyond) (stat_result r) (stat_body r st), true, set_world vol a w d).
Proof.
  intros [Ha Hc] Hv Hp1 Hp2 Hr q.
  assert (Hq1 : req_command (q ++ beyond) = AFPSL_IPC_COMMAND_STAT) by (by apply path_request_command).
  assert (Hq2 : volumeid (q ++ beyond) = vol) by (by apply path_request_volume).
  assert (Hq3 : request_path (zlen q) (q ++ beyond) 32 28 = Some path) by (apply path_request_path; [change (zlen []) with 0; lia|done]).
  unfold process_command_thread. rewrite Hq1. cbn [negb andb]. pick. unfold process_stat. rewrite Hq3. unfold with_volume, dbind.
  rewrite Hq2, Ha, Hc. cbn [negb]. unfold on_volume. rewrite Ha. cbn [default from_option id]. rewrite Hr. cbv iota.
  unfold stat_result, stat_body. by destruct (r <? 0).
Qed.

(** A stat of the library is the daemon's, its attributes unchanged. *)
Lemma stat_call_transparent (l : link E) logs vol a path r st w :
  idle l -> serves (l_daemon l) vol a -> 0 <= vol < 2 ^ 64 -> no_nul path -> zlen path <= UINT16_MAX -> (length (l_out l) < fuel)%nat ->
  ml_getattr (a_config a) path (a_volume a, denv (l_daemon l)) = ((r, st), w) ->
  exists s l', afp_sl_stat fuel (fun _ => true) getvolid url_path (Some vol) (Some path) (Conn true logs l)
      = (if r <? 0 then (stat_errno r, None) else (0, Some st), Conn true (logs ++ logged) l')
    /\ idle l' /\ l_daemon l' = set_world vol a w (set_payload [] s (l_daemon l)).
Proof.
  intros Hi Hs Hv Hp1 Hp2 Hf Hr. pose proof (zlen_nonneg (stat_bytes zero_stat)) as Hz0.
  assert (Hb : zlen (stat_body r st) = zlen (stat_bytes zero_stat)).
  { unfold stat_body. destruct (r <? 0); [|by apply stat_trip]. unfold stale_bytes.
    rewrite zlen_take, zlen_app, zlen_zero_bytes by lia. pose proof (zlen_nonneg stale). lia. }
  assert (Hres : 0 <= stat_result r < 128) by (unfold stat_result; destruct (r <? 0); [apply result_of_range; by repeat constructor|by vm_compute]).
  destruct (path_exchange AFPSL_IPC_COMMAND_STAT 32 28 vol [] path l logs (stat_result r) (stat_body r st) (set_world vol a w))
    as (s & l' & reply & E1 & E2 & E3 & Hi' & Hd'); [done|change (zlen []) with 0; lia|done..|rewrite Hb; done|done| |].
  { intros s. split; [|done]. by eapply stat_handled. }
  exists s, l'. split; [|done]. unfold afp_sl_stat, kbind. rewrite Hb in E1. rewrite E1. unfold kret. do 2 f_equal. rewrite E2, E3.
  unfold stat_result, stat_body. destruct (Z.ltb_spec r 0).
  - rewrite stat_errno_seen by done. unfold stat_errno. by destruct (existsb _ _); [replace (r =? 0) with false by lia|].
  - change (server_result_to_errno AFPSL_IPC_RESULT_OK) with 0. change (0 =? 0) with true. cbv iota. by rewrite (proj1 (stat_trip st)).
Qed.

End Exchange.

(** ** An open *)

(** A server whose files all open, as fork 5. *)
#[export] Instance opening_server : Env Z := fun A c e =>
  match c in cmd B return B * Z with
  | GetFileDirParms _ _ _ _ => ((0, empty_dirent 0), e)
  | OpenFork _ _ _ _ _ => ((0, OpenReply (Some 5) None None), e + 1)
  | c => (no_answer c, e)
  end.

Definition willing_link : link Z :=
  MkLink (Daemon {[ 1 := (9, 8) ]} {[ 7 := one_volume ]} 0 [] []) (Some (Client [] None true [])) [] [] [1; 0; 5] [1; 0; 3].
Definition willing_others (command size : Z) (mem : list Z) : D Z outcome := dret Drop.
Definition willing_volume : volume :=
  set_open_forks [1] (set_fork 1 (FileInfo 0 2 0 0 5 false false false false (str "a")) empty_volume).

Lemma open_call_transparent_witness :
  exists s l' h, afp_sl_open (H := link_peer [] [9] willing_others 3 open_log) 4 (fun _ => true) (kret (Err 0)) None (Some 7) (Some (str "/a")) 0 (Conn true [] willing_link)
      = ((0, Some h), Conn true open_log l')
    /\ idle l' /\ l_daemon l' = opened 7 one_volume (Some 1) (willing_volume, 1) (set_payload [] s (l_daemon willing_link))
    /\ 0 < h < MAX_OPEN_FILES /\ file_handle_table (l_daemon willing_link) !! h = None
    /\ forall i, file_handle_table (l_daemon l') !! i = (if i =? h then Some (1, 7) else file_handle_table (l_daemon willing_link) !! i).
Proof.
  apply (open_call_transparent [] [9] willing_others 3 open_log 4 (kret (Err 0)) None open_log_ok willing_link [] 7 one_volume (str "/a") 0 0 (Some 1)
    (willing_volume, 1) 2);
    [split; [done|]; split; [done|]; by eexists|by split|lia|by vm_compute; repeat constructor|vm_compute; congruence|lia|simpl; lia|by vm_compute|done|reflexivity|done].
Defined.
