(* ===== verification/DaemonProofs.v ===== *)
(** The daemon's handlers: what they read of a packet, the table of handles,
    and two requests they do not withstand. *)
From stdpp Require Import gmap.
From S2P Require Import Prelude AfpProtocol Identify Local Sidecar Path Dates ReplyBlock Listing World DidCache ForkList LowLevel Resource Midlevel Xattr ForkIO Ipc Daemon Stateless Link Rpc RpcProofs RpcFiles.
Local Open Scope afp_scope.

(** ** Bytes behind a packet *)

(** The memories [m] and [m'] hold the same [n] bytes. *)
Definition agree (n : Z) (m m' : list Z) : Prop := exists p b b', (bytes_ok p /\ n = zlen p) /\ m = p ++ b /\ m' = p ++ b'.

Section Agree.
Context (n : Z) (m m' : list Z).
Hypothesis same : agree n m m'.

Lemma agree_le_at off k : 0 <= off -> 0 <= k -> off + k <= n -> le_at m off k = le_at m' off k.
Proof. destruct same as (p & b & b' & [Hp0 ->] & -> & ->). intros. by rewrite !le_at_app. Qed.

Lemma agree_byte_at i : 0 <= i < n -> byte_at m i = byte_at m' i.
Proof. destruct same as (p & b & b' & [Hp0 ->] & -> & ->). intros. by rewrite !byte_at_app_l. Qed.

Lemma agree_sub off k : 0 <= off -> 0 <= k -> off + k <= n -> sub off k m = sub off k m'.
Proof. destruct same as (p & b & b' & [Hp0 ->] & -> & ->). intros. by rewrite !sub_app_l. Qed.

Lemma agree_range off k : 0 <= off -> 0 <= k -> off + k <= n -> 0 <= le_at m' off k < 256 ^ k.
Proof.
  destruct same as (p & b & b' & [Hp0 ->] & -> & ->). intros. rewrite le_at_app by done. unfold le_at.
  assert (Hb : bytes_ok (rev (sub off k p))) by (apply Forall_rev, bytes_ok_sub, Hp0).
  assert (Hk : zlen (rev (sub off k p)) = k) by (unfold zlen; rewrite length_rev; fold (zlen (sub off k p)); rewrite zlen_sub; lia).
  rewrite <- Hk at 3. by apply be_get_range.
Qed.

(** A string whose end is within them. *)
Lemma agree_until_nul off len : 0 <= off -> 0 <= len -> off + len < n -> byte_at m (off + len) = 0 ->
  until_nul (drop (Z.to_nat off) m) = until_nul (drop (Z.to_nat off) m').
Proof.
  destruct same as (p & b & b' & [Hp0 ->] & -> & ->). intros Ho Hl Hn Hb. rewrite byte_at_app_l in Hb by lia.
  assert (Hp : (Z.to_nat off <= length p)%nat) by (unfold zlen in Hn; lia). rewrite !drop_app_le by done.
  assert (Hin : drop (Z.to_nat off) p !! Z.to_nat len = Some 0).
  { rewrite lookup_drop. unfold byte_at in Hb. replace (off + len <? 0) with false in Hb by lia.
    replace (Z.to_nat off + Z.to_nat len)%nat with (Z.to_nat (off + len)) by lia.
    destruct (p !! Z.to_nat (off + len)) as [z|] eqn:Ez; [simpl in Hb; by subst|].
    apply lookup_ge_None in Ez. unfold zlen in Hn. lia. }
  revert Hin. generalize (drop (Z.to_nat off) p) (Z.to_nat len). clear. intros x k. revert k. induction x as [|c x IH]; intros k Hk; [done|].
  simpl. case_if; [done|]. destruct k; [bool_to_prop; simpl in Hk; injection Hk as ->; lia|]. f_equal. by apply (IH k).
Qed.

Lemma agree_head : 12 <= n -> req_command m = req_command m' /\ close_asked m = close_asked m' /\ req_len m = req_len m'.
Proof. intros Hn. unfold close_asked, req_command, req_len, req_close. by rewrite !agree_le_at by lia. Qed.

Lemma agree_answer r body : 12 <= n -> answer m r body = answer m' r body.
Proof. intros Hn. unfold answer. by destruct (agree_head Hn) as (_ & -> & _). Qed.

Lemma agree_request_path sizeof off : 28 <= off <= sizeof -> request_path n m sizeof off = request_path n m' sizeof off.
Proof.
  intros Ho. unfold request_path. destruct (Z.ltb_spec n sizeof) as [|Hn]; [done|]. cbv zeta.
  destruct agree_head as (_ & _ & ->); [lia|]. rewrite (agree_le_at (off - 4) 4) by lia. set (len := le_at m' (off - 4) 4).
  destruct (len >=? AFP_MAX_UTF8_PATH_STORAGE) eqn:E1; [done|]. destruct (Z.eqb_spec (sizeof + len + 1) n) as [E2|]; [|done].
  assert (Hlen : 0 <= len) by (apply agree_range; lia). rewrite (agree_byte_at (off + len)) by lia.
  case_if; [done|]. f_equal. apply (agree_until_nul off len); [lia|lia|lia|]. rewrite agree_byte_at by lia. bool_to_prop.
  by destruct (Z.eqb_spec (byte_at m' (off + len)) 0).
Qed.

End Agree.

Lemma request_path_size n m sizeof off path : request_path n m sizeof off = Some path -> sizeof <= n.
Proof. unfold request_path. destruct (Z.ltb_spec n sizeof); [done|lia]. Qed.

Section Bounded.
Context {E : Type} `{Env E} `{Platform}.
Context (stale : list Z) (n : Z) (m m' : list Z).
Hypothesis same : agree n m m'.
Hypothesis whole : 12 <= n.

Lemma agree_close : close_asked m = close_asked m'.
Proof. by apply (agree_head n m m' same). Qed.

(** Members of the packet, and what its answers need of it. *)
Ltac agreeing :=
  unfold answer, volumeid, req_len, req_command; rewrite ?agree_close;
  repeat match goal with
  | |- context [le_at m ?o ?k] => rewrite (agree_le_at n m m' same o k) by lia
  end.

(** The path of the request, if it has one: then it is as long as it says. *)
Ltac with_path s o :=
  rewrite (agree_request_path n m m' same s o) by lia;
  let Hp := fresh "Hp" in
  destruct (request_path n m' s o) as [path|] eqn:Hp; [apply request_path_size in Hp|].

Lemma process_path_agree sizeof off table (f f' : config -> list Z -> M E Z) :
  28 <= off <= sizeof -> (sizeof <= n -> f = f') -> process_path n m sizeof off table f = process_path n m' sizeof off table f'.
Proof.
  intros Ho Hf. unfold process_path. with_path sizeof off; [rewrite Hf by done; unfold with_volume|]; by agreeing.
Qed.

Lemma creat_agree : process_creat n m = process_creat n m'.
Proof. apply process_path_agree; [lia|]. intros. by agreeing. Qed.
Lemma chmod_agree : process_chmod n m = process_chmod n m'.
Proof. apply process_path_agree; [lia|]. intros. by agreeing. Qed.
Lemma unlink_agree : process_unlink n m = process_unlink n m'.
Proof. apply process_path_agree; [lia|]. done. Qed.
Lemma truncate_agree : process_truncate n m = process_truncate n m'.
Proof. apply process_path_agree; [lia|]. intros. by agreeing. Qed.
Lemma utime_agree : process_utime n m = process_utime n m'.
Proof. apply process_path_agree; [lia|]. intros. by agreeing. Qed.
Lemma mkdir_agree : process_mkdir n m = process_mkdir n m'.
Proof. apply process_path_agree; [lia|]. intros. by agreeing. Qed.
Lemma rmdir_agree : process_rmdir n m = process_rmdir n m'.
Proof. apply process_path_agree; [lia|]. done. Qed.

Lemma stat_agree : process_stat stale n m = process_stat stale n m'.
Proof. unfold process_stat. with_path 32 28; unfold with_volume; by agreeing. Qed.
Lemma statfs_agree : process_statfs n m = process_statfs n m'.
Proof. unfold process_statfs. with_path 32 28; unfold with_volume; by agreeing. Qed.
Lemma open_agree : process_open stale n m = process_open stale n m'.
Proof. unfold process_open. with_path 32 32; unfold with_volume; by agreeing. Qed.

Lemma readdir_agree pages : process_readdir pages n m = process_readdir pages n m'.
Proof.
  unfold process_readdir. destruct (Z.ltb_spec n 40) as [Hn|Hn].
  - replace (n >=? 40) with false by lia. cbn [andb]. with_path 40 36; [lia|]. by agreeing.
  - agreeing. case_if; [done|]. with_path 40 36; [|done]. unfold with_volume. by agreeing.
Qed.

Lemma read_agree : process_read n m = process_read n m'.
Proof. unfold process_read. destruct (Z.ltb_spec n 48); unfold with_volume; by agreeing. Qed.
Lemma write_agree : process_write n m = process_write n m'.
Proof. unfold process_write. destruct (Z.ltb_spec n 48); unfold with_volume; by agreeing. Qed.
Lemma close_agree : process_close n m = process_close n m'.
Proof. unfold process_close. destruct (Z.ltb_spec n 32); unfold with_volume; by agreeing. Qed.

Lemma desktop_path_agree : process_desktop_path n m = process_desktop_path n m'.
Proof. unfold process_desktop_path. with_path 32 28; by agreeing. Qed.

(** A string at [off] of [len] bytes and its end. *)
Lemma string_agree off len : 0 <= off -> 0 <= len -> off + len < n -> negb (byte_at m' (off + len) =? 0) = false ->
  until_nul (drop (Z.to_nat off) m) = until_nul (drop (Z.to_nat off) m').
Proof.
  intros H1 H2 H3 Hb. apply (agree_until_nul n m m' same off len); [done|done|done|]. rewrite (agree_byte_at n m m' same) by lia.
  by destruct (Z.eqb_spec (byte_at m' (off + len)) 0).
Qed.

Lemma rename_agree : process_rename n m = process_rename n m'.
Proof.
  unfold process_rename. destruct (Z.ltb_spec n 32) as [|Hn]; [by agreeing|]. cbv zeta. agreeing.
  pose proof (agree_range n m m' same 24 4 ltac:(lia) ltac:(lia) ltac:(lia)) as Hf. pose proof (agree_range n m m' same 28 4 ltac:(lia) ltac:(lia) ltac:(lia)) as Ht.
  set (from := le_at m' 24 4) in *. set (to := le_at m' 28 4) in *.
  destruct (from >=? AFP_MAX_UTF8_PATH_STORAGE) eqn:E1; [done|]. destruct (to >=? AFP_MAX_UTF8_PATH_STORAGE) eqn:E2; [done|].
  destruct (Z.eqb_spec (32 + from + 1 + to + 1) n) as [E3|]; [|done]. unfold AFP_MAX_UTF8_PATH_STORAGE, UINT16_MAX in *.
  assert (Hu : u32 (from + 1 + to) = from + 1 + to) by (unfold u32; apply Z.mod_small; lia). rewrite Hu.
  rewrite !(agree_byte_at n m m' same) by lia. cbn [orb negb].
  destruct (_ || negb (byte_at m' (32 + from) =? 0) || _) eqn:Eb; [done|]. apply orb_false_iff in Eb as [[_ B1]%orb_false_iff B2].
  unfold with_volume. rewrite (string_agree 32 from) by (done || lia).
  rewrite (string_agree (32 + from + 1) to); [by agreeing|lia|lia|lia|by replace (32 + from + 1 + to) with (32 + (from + 1 + to)) by lia].
Qed.

Lemma set_comment_agree d : process_desktop_set_comment n m d = process_desktop_set_comment n m' d.
Proof.
  unfold process_desktop_set_comment. cbv zeta. destruct (Z.ltb_spec n 32) as [|Hn]; [done|]. agreeing.
  pose proof (agree_range n m m' same 24 4 ltac:(lia) ltac:(lia) ltac:(lia)) as Hp. pose proof (agree_range n m m' same 28 4 ltac:(lia) ltac:(lia) ltac:(lia)) as Ht.
  set (plen := le_at m' 24 4) in *. set (tlen := le_at m' 28 4) in *. case_if; [done|].
  destruct (Z.eqb_spec n (32 + plen + 1 + tlen)) as [E2|]; [|by rewrite orb_true_r].
  rewrite (agree_byte_at n m m' same) by lia. destruct (_ || negb (byte_at m' (32 + plen) =? 0)) eqn:Eb; [done|].
  apply orb_false_iff in Eb as [_ B1]. rewrite (string_agree 32 plen) by (done || lia).
  destruct (volumes d !! le_at m' 16 8) as [a|]; [|done].
  set (written := if _ && _ && _ then _ else tlen).
  assert (Hw : 0 <= written <= tlen) by (unfold written, AFP_SL_DESKTOP_COMMENT_AFP2_MAX; case_if; lia).
  by rewrite (agree_sub n m m' same) by lia.
Qed.

(** What the checks of a metadata request establish. *)
Lemma refused_agree : metadata_refused n m = metadata_refused n m'.
Proof.
  unfold metadata_refused. cbv zeta. destruct (Z.ltb_spec n METADATA_BASE) as [|Hn]; [done|]. unfold METADATA_BASE in *. agreeing.
  pose proof (agree_range n m m' same 40 4 ltac:(lia) ltac:(lia) ltac:(lia)) as Hp. pose proof (agree_range n m m' same 44 4 ltac:(lia) ltac:(lia) ltac:(lia)) as Hm.
  pose proof (agree_range n m m' same 32 4 ltac:(lia) ltac:(lia) ltac:(lia)) as Hc.
  set (plen := le_at m' 40 4) in *. set (nlen := le_at m' 44 4) in *. set (count := le_at m' 32 4) in *.
  case_if; [done|]. set (total := 48 + plen + 1 + nlen + 1 + _).
  assert (Ht : 48 + plen + 1 + nlen + 1 <= total) by (unfold total; case_if; lia).
  destruct (count >? metadata_limit (le_at m' 0 1)); [done|]. destruct (Z.eqb_spec (le_at m' 4 4) total) as [E1|]; [|done].
  destruct (Z.eqb_spec n (le_at m' 4 4)) as [E2|]; [|done]. cbn [orb negb]. by rewrite !(agree_byte_at n m m' same) by lia.
Qed.

Lemma run_metadata_value cf command path name v v' size offset flags :
  metadata_sends_data command = false -> run_metadata cf command path name v size offset flags = run_metadata cf command path name v' size offset flags.
Proof.
  unfold metadata_sends_data. intros [[E1 E2]%orb_false_iff E3]%orb_false_iff. unfold run_metadata. by rewrite E1, E2, E3.
Qed.

Lemma metadata_agree d : process_metadata n m d = process_metadata n m' d.
Proof.
  unfold process_metadata. rewrite refused_agree. cbv zeta. destruct (Z.eqb_spec (metadata_refused n m') 0) as [E0|]; [|done]. cbn [negb].
  revert E0. unfold metadata_refused. cbv zeta. destruct (Z.ltb_spec n METADATA_BASE) as [|Hn]; [done|]. unfold METADATA_BASE in *. agreeing.
  pose proof (agree_range n m m' same 40 4 ltac:(lia) ltac:(lia) ltac:(lia)) as Hp. pose proof (agree_range n m m' same 44 4 ltac:(lia) ltac:(lia) ltac:(lia)) as Hm.
  pose proof (agree_range n m m' same 32 4 ltac:(lia) ltac:(lia) ltac:(lia)) as Hc.
  set (plen := le_at m' 40 4) in *. set (nlen := le_at m' 44 4) in *. set (count := le_at m' 32 4) in *. set (command := le_at m' 0 1).
  case_if; [done|]. destruct (count >? metadata_limit command); [done|]. set (total := 48 + plen + 1 + nlen + 1 + _).
  destruct (Z.eqb_spec (le_at m' 4 4) total) as [E1|]; [|done]. destruct (Z.eqb_spec n (le_at m' 4 4)) as [E2|]; [|done]. cbn [orb negb].
  assert (Ht : 48 + plen + 1 + nlen + 1 <= total) by (unfold total; case_if; lia).
  destruct (negb (byte_at m' (48 + plen) =? 0) || _) eqn:Eb; [done|]. apply orb_false_iff in Eb as [B1 B2]. intros _.
  rewrite (string_agree 48 plen) by (done || lia). rewrite (string_agree (48 + plen + 1) nlen) by (done || lia).
  unfold total in E1. destruct (metadata_sends_data command) eqn:Es; [by rewrite (agree_sub n m m' same) by lia|].
  destruct (volumes d !! le_at m' 16 8) as [a|]; [|done]. case_if; [done|]. unfold dbind.
  set (room := if _ && _ then dalloc count else dret true). destruct (room d) as [ok d1]. destruct ok; cbn [negb]; cbv iota; [|reflexivity]. unfold on_volume.
  by rewrite (run_metadata_value _ command _ _ _ (sub (48 + plen + 1 + nlen + 1) count m') _ _ _ Es).
Qed.

End Bounded.

(** ** The packet is all a handler reads *)

(** The commands whose handlers are modelled. *)
Definition handled_here (command : Z) : bool :=
  existsb (Z.eqb command)
    [AFPSL_IPC_COMMAND_HELLO; AFPSL_IPC_COMMAND_READDIR; AFPSL_IPC_COMMAND_STAT; AFPSL_IPC_COMMAND_OPEN; AFPSL_IPC_COMMAND_READ;
     AFPSL_IPC_COMMAND_WRITE; AFPSL_IPC_COMMAND_CREAT; AFPSL_IPC_COMMAND_CHMOD; AFPSL_IPC_COMMAND_RENAME; AFPSL_IPC_COMMAND_UNLINK;
     AFPSL_IPC_COMMAND_TRUNCATE; AFPSL_IPC_COMMAND_UTIME; AFPSL_IPC_COMMAND_MKDIR; AFPSL_IPC_COMMAND_RMDIR; AFPSL_IPC_COMMAND_STATFS;
     AFPSL_IPC_COMMAND_CLOSE; AFPSL_IPC_COMMAND_DESKTOP_GET_COMMENT; AFPSL_IPC_COMMAND_DESKTOP_SET_COMMENT; AFPSL_IPC_COMMAND_GET_MOUNTPOINT]
  || is_metadata command.

(** C22: no handler depends on a byte past the packet it was given. For every
    command on paths, open files, listings, metadata and comments, any packet of the sizes the framing lets through and any
    state, the answer and the state after it are the same whatever the memory
    behind the packet holds: every length, path, name and value a handler takes
    from a request has been checked against the packet's size first. *)
Theorem handlers_bounded {E} `{Env E} `{Platform} stale others pages ready packet b b' (d : daemon E) :
  bytes_ok packet -> REQUEST_HEADER <= zlen packet -> handled_here (req_command packet) = true ->
  process_command_thread stale others pages ready (zlen packet) (packet ++ b) d
  = process_command_thread stale others pages ready (zlen packet) (packet ++ b') d.
Proof.
  unfold REQUEST_HEADER. intros Hb Hn Hh. set (n := zlen packet) in *. set (m := packet ++ b). set (m' := packet ++ b').
  assert (same : agree n m m') by (by exists packet, b, b').
  assert (Ec : req_command m = req_command packet) by (unfold req_command, m; by rewrite le_at_app by lia).
  assert (Ec' : req_command m' = req_command packet) by (unfold req_command, m'; by rewrite le_at_app by lia).
  unfold process_command_thread. rewrite Ec, Ec'. set (command := req_command packet) in *. case_if; [done|].
  destruct (Z.eqb_spec command AFPSL_IPC_COMMAND_HELLO) as [_|N0].
  { unfold process_hello. destruct (Z.eqb_spec n HELLO_REQUEST) as [En|]; [|done]. unfold HELLO_REQUEST in En. by rewrite !(agree_le_at n m m' same) by lia. }
  unfold dbind. rewrite (readdir_agree n m m' same Hn), (stat_agree stale n m m' same Hn), (open_agree stale n m m' same Hn), (read_agree n m m' same Hn),
    (write_agree n m m' same Hn), (creat_agree n m m' same Hn), (chmod_agree n m m' same Hn), (rename_agree n m m' same Hn), (unlink_agree n m m' same Hn),
    (truncate_agree n m m' same Hn), (utime_agree n m m' same Hn), (mkdir_agree n m m' same Hn), (rmdir_agree n m m' same Hn), (statfs_agree n m m' same Hn),
    (close_agree n m m' same Hn), (desktop_path_agree n m m' same).
  repeat (case_if; [by rewrite ?(metadata_agree n m m' same), ?(set_comment_agree n m m' same)|]).
  exfalso. revert Hh. unfold handled_here. cbn [existsb]. repeat match goal with E : _ = false |- _ => rewrite E; clear E end.
  by replace (command =? AFPSL_IPC_COMMAND_HELLO) with false by lia.
Qed.

(** ** Requests the handlers do not withstand *)

(** A read of almost 4 GiB overruns its buffer. The size of the answer's
    buffer is the length asked for and 16 bytes for its header, in 32 bits: for
    a length of 2^32 - 16 and more it is less than the header, which is written
    into it, on every volume that is attached and for every handle, used or
    not. *)
Theorem huge_read_overruns {E} `{Env E} `{Platform} size mem (d : daemon E) a :
  48 <= size -> volumes d !! volumeid mem = Some a -> a_connected a = true ->
  2 ^ 32 - READ_RESPONSE <= le_at mem 40 4 < 2 ^ 32 -> fst (handle (Malloc (le_at mem 40 4 + READ_RESPONSE - 2 ^ 32)) (denv d)) = true ->
  fst (process_read size mem d) = Undefined.
Proof.
  unfold READ_RESPONSE. intros Hs Ha Hc Hl Hm. unfold process_read. replace (size <? 48) with false by lia. unfold with_volume. rewrite Ha, Hc. cbn [negb].
  assert (Hu : u32 (READ_RESPONSE + le_at mem 40 4) = le_at mem 40 4 + 16 - 2 ^ 32).
  { unfold u32, READ_RESPONSE. replace (16 + le_at mem 40 4) with (le_at mem 40 4 + 16 - 2 ^ 32 + 1 * 2 ^ 32) by lia. rewrite Z_mod_plus_full. apply Z.mod_small. lia. }
  unfold dbind, dalloc. cbv zeta. rewrite Hu. destruct (handle (Malloc _) (denv d)) as [ok e1]. cbn [fst] in Hm. subst ok. cbn [negb].
  set (d1 := Daemon _ _ _ _ _). destruct (get_file_handle _ _ _ d1) as [[fp|] d2]; unfold READ_RESPONSE.
  - destruct (on_volume _ _ _ d2) as [[[r data] eof] d3]. pose proof (zlen_nonneg data). by replace (_ <? 16 + zlen data) with true by lia.
  - by replace (_ <? 16) with true by lia.
Qed.

Definition huge_read : list Z := transfer_request AFPSL_IPC_COMMAND_READ 7 1 0 (2 ^ 32 - 1) 0.

Lemma huge_read_overruns_witness : fst (process_read 48 huge_read (open_daemon (str "hello world"))) = Undefined.
Proof.
  apply (huge_read_overruns 48 huge_read (open_daemon (str "hello world")) open_attached); [lia|reflexivity|reflexivity| |reflexivity].
  vm_compute. split; congruence.
Defined.

Lemma handlers_bounded_witness :
  let q := path_request AFPSL_IPC_COMMAND_UNLINK 32 28 7 [] (str "/a") in
  process_command_thread [] no_others 3 true (zlen q) (q ++ []) one_daemon
  = process_command_thread [] no_others 3 true (zlen q) (q ++ [1; 2; 3]) one_daemon.
Proof.
  apply (handlers_bounded [] no_others 3 true (path_request AFPSL_IPC_COMMAND_UNLINK 32 28 7 [] (str "/a")) [] [1; 2; 3] one_daemon).
  - apply (bool_decide_unpack _). vm_compute. exact I.
  - vm_compute. congruence.
  - reflexivity.
Defined.

Section RefusedWrite.
Context {E : Type} `{Env E} `{Platform}.
Context (stale beyond : list Z) (others : Z -> Z -> list Z -> D E outcome) (pages : nat) (logged : list (Z * list Z)).
Hypothesis logged_ok : Forall entry_ok logged /\ zlen (log_bytes logged) <= AFPSL_IPC_LOG_BUFFER_SIZE.

(** The data of a write that is refused before they are read are taken for
    requests. For a volume that is not attached the daemon answers the write,
    keeps the connection and leaves the data on the socket: data [r] that are
    themselves a request (of any command, for any volume) are the next packet
    the daemon reads from that client, and it is ready to run it. *)
Theorem refused_write_runs_data (l : link E) vol h offset resource r :
  idle l -> volumes (l_daemon l) !! vol = None -> request_ok r ->
  0 <= vol < 2 ^ 64 -> 0 <= h < 2 ^ 31 -> 0 <= offset <= INT64_MAX ->
  let q := transfer_request AFPSL_IPC_COMMAND_WRITE vol h offset (zlen r) resource in
  exists s c, serve stale beyond others pages logged (sent (q ++ r) l)
      = MkLink (set_payload r s (l_daemon l)) (Some c) r
          (wire logged (afpsl_ipc_response_header AFPSL_IPC_RESULT_NOTATTACHED 12 ++ le_put 4 0)) s (l_out l)
    /\ ipc_ready c = true
    /\ exists c' s', read_request (Datatypes.S (length s)) (fun _ => true) c r s = (Some r, c', [], s') /\ ipc_ready c' = true.
Proof.
  intros (Hin & Hout & c & Hc & Hh & Hp & Hr) Hv Hrok Hvol Hh1 Ho q. pose proof Hrok as [Hrl Hrlen].
  unfold REQUEST_HEADER, AFPSL_IPC_MAX_REQUEST, AFP_MAX_UTF8_PATH_STORAGE, UINT16_MAX in Hrl.
  assert (Hq : 0 <= vol < 2 ^ 64 /\ 0 <= h < 2 ^ 31 /\ 0 <= offset <= INT64_MAX /\ 0 <= zlen r < 2 ^ 32) by (repeat split; lia).
  assert (Hz : zlen q = 48) by apply zlen_transfer. pose proof (transfer_ok AFPSL_IPC_COMMAND_WRITE vol h offset (zlen r) resource) as [Q1 Q2]. fold q in Q1, Q2.
  unfold serve. cbn [l_client sent l_inbox l_in l_daemon l_out]. rewrite Hc.
  destruct (read_request_ok (Datatypes.S (length (l_in l))) (fun _ => true) c q r 0 (l_in l)) as (c1 & s1 & E1 & E2 & E3); try done; [|lia|].
  { left. split; [unfold REQUEST_HEADER; lia|]. split; [by rewrite Hh|done]. }
  change (drop (Z.to_nat 0) q ++ r) with (q ++ r) in E1. rewrite E1, E2, Hr.
  assert (Hcmd : req_command (q ++ beyond) = AFPSL_IPC_COMMAND_WRITE) by (by apply transfer_command).
  assert (Hid : volumeid (q ++ beyond) = vol) by (by apply transfer_volume).
  assert (Hcl : close_asked (q ++ beyond) = false) by (by apply transfer_close).
  unfold process_command_thread. rewrite Hcmd. cbn [negb andb]. pick. unfold process_write. rewrite Hz. change (48 <? 48) with false. cbv iota.
  unfold with_volume, dbind. cbn [volumes set_payload]. rewrite Hid, Hv. unfold dret, answer. rewrite Hcl, zlen_le_put.
  unfold finish_response. rewrite send_command_ok; [|by vm_compute|vm_compute; congruence|apply logged_ok|done]. cbn [outgoing_string set_ready set_log].
  set (c2 := reset_client_request _). exists s1, c2. split; [done|]. split; [done|].
  destruct (read_request_ok (Datatypes.S (length s1)) (fun _ => true) c2 r [] 0 s1) as (c3 & s3 & F1 & F2 & F3); try done; [|lia|].
  { left. split; [unfold REQUEST_HEADER; lia|]. done. }
  change (drop (Z.to_nat 0) r ++ []) with (r ++ []) in F1. rewrite app_nil_r in F1. exists c3, s3. split; [done|]. by rewrite F2.
Qed.

End RefusedWrite.

(** The data delete a file of another volume. *)
Lemma refused_write_runs_data_witness :
  let r := path_request AFPSL_IPC_COMMAND_UNLINK 32 28 7 [] (str "/a") in
  let q := transfer_request AFPSL_IPC_COMMAND_WRITE 8 1 0 (zlen r) 0 in
  exists s c, serve [] [9] no_others 3 [(0, str "x")] (sent (q ++ r) one_link)
      = MkLink (set_payload r s one_daemon) (Some c) r
          (wire [(0, str "x")] (afpsl_ipc_response_header AFPSL_IPC_RESULT_NOTATTACHED 12 ++ le_put 4 0)) s [1; 0; 3]
    /\ ipc_ready c = true
    /\ exists c' s', read_request (Datatypes.S (length s)) (fun _ => true) c r s = (Some r, c', [], s') /\ ipc_ready c' = true.
Proof.
  apply (refused_write_runs_data [] [9] no_others 3 [(0, str "x")] ltac:(split; [repeat constructor; vm_compute; congruence|vm_compute; congruence])
    one_link 8 1 0 0 (path_request AFPSL_IPC_COMMAND_UNLINK 32 28 7 [] (str "/a")) one_link_idle); try lia; [reflexivity| |vm_compute; split; congruence].
  split; [vm_compute; split; congruence|reflexivity].
Defined.
