(* ===== verification/Fuse.v ===== *)
(** The FUSE operations of a mounted volume (src/fuse/fuse_fs.c), as built on
    Linux against libfuse 3 up to 3.17: each callback as the operations of the
    library it runs, with the kernel's file info and the directory streams. *)
From stdpp Require Import gmap.
From S2P Require Import Prelude AfpProtocol Identify Url Dates ReplyBlock Listing World DidCache ForkList LowLevel Resource Midlevel Xattr.
Local Open Scope afp_scope.

Definition XATTR_CREATE : Z := 0x1.
Definition XATTR_REPLACE : Z := 0x2.
Definition FUSE_READDIR_PLUS : Z := 0x1.
Definition FUSE_FILL_DIR_PLUS : Z := 0x2.
Definition UTIME_NOW : Z := 2 ^ 30 - 1.
Definition UTIME_OMIT : Z := 2 ^ 30 - 2.

(** struct fuse_file_info: the flags of the open, and the handle, 0 for none. *)
Record fuse_file_info := FuseInfo { ffi_flags : Z; fh : Z }.

Definition set_fi_created (b : bool) (f : afp_file_info) : afp_file_info :=
  FileInfo (fi_size f) (fi_did f) (fi_cnid f) (fi_resource f) (fi_forkid f) (fi_sync f) (fi_writable f) (fi_dirty f) b (fi_basename f).

Section Fuse.
Context {E : Type} `{Env E} (cf : config).

(** ** Paths *)

Definition null_name : list Z := str "(null)".

(** The path before a component that starts with "(null)", one byte before it
    at least; the answer says whether memory was refused. *)
Definition strip_null_path_component (path : list Z) : M E (res (list Z)) :=
  match split_sub null_name path with
  | Some (before, _) =>
      if zlen before >? 0 then
        let! ok := call (Malloc (zlen before)) in
        ret (if negb ok then Err (- ENOMEM) else Ok (take (Z.to_nat (zlen before - 1)) before))
      else ret (Ok path)
  | None => ret (Ok path)
  end.

Definition fuse_getattr (path : option (list Z)) : M E (Z * stat) :=
  match path with
  | None => ret (- EIO, zero_stat)
  | Some path =>
      let! p := strip_null_path_component path in
      match p with
      | Err r => ret (r, zero_stat)
      | Ok path => ml_getattr cf path
      end
  end.

Definition fuse_readlink (path : list Z) (size : Z) : M E (Z * list Z) := ml_readlink cf path size.
Definition fuse_rmdir (path : list Z) : M E Z := ml_rmdir cf path.
Definition fuse_unlink (path : list Z) : M E Z := ml_unlink cf path.
Definition fuse_mkdir (path : list Z) (mode : Z) : M E Z := ml_mkdir cf path mode.
Definition fuse_symlink (path1 path2 : list Z) : M E Z := ml_symlink cf path1 path2.
Definition fuse_chown (path : list Z) (uid gid : Z) : M E Z := ml_chown cf path uid gid.
Definition fuse_statfs : M E (Z * statvfs) := ml_statfs cf.
Definition fuse_mknod : M E Z := ret (- EPERM).

Definition fuse_rename (path_from path_to : list Z) (flags : Z) : M E Z :=
  if negb (flags =? 0) then ret (- EINVAL) else ml_rename cf path_from path_to.

(** Permission bits a server does not keep are not an error. *)
Definition fuse_chmod (path : list Z) (mode : Z) : M E Z :=
  let! r := ml_chmod cf path mode in ret (if r =? - EFAULT then 0 else r).

(** [tv] is the time of modification, seconds and nanoseconds; the mount sets no
    other. *)
Definition fuse_utimens (path : list Z) (tv : option (Z * Z)) : M E Z :=
  let set modtime :=
    let! r := ml_utime cf path modtime in
    ret (if (r =? - ENOSYS) || (r =? - EPERM) || (r =? - ENOENT) || (r =? - EACCES) then 0 else if r <? 0 then r else 0) in
  match tv with
  | None => let! now := call Gettimeofday in set now
  | Some (sec, nsec) =>
      if nsec =? UTIME_OMIT then ret 0
      else if nsec =? UTIME_NOW then let! now := call Gettimeofday in set now
      else set sec
  end.

(** ** Extended attributes *)

Definition has_prefix (p name : list Z) : bool := list_eqb (take (length p) name) p.

Definition in_kernel_namespace (name : list Z) : bool :=
  has_prefix (str "security.") name || has_prefix (str "system.") name || has_prefix (str "trusted.") name.

Definition fuse_getxattr (path name : list Z) (size : Z) : M E (Z * list Z) :=
  if in_kernel_namespace name then ret (- ENOATTR, []) else ml_getxattr cf path name size.

Definition fuse_setxattr (path name value : list Z) (flags : Z) : M E Z :=
  let ml_flags := Z.lor (if has flags XATTR_CREATE then kXAttrCreate else 0) (if has flags XATTR_REPLACE then kXAttrReplace else 0) in
  if in_kernel_namespace name then ret (- EOPNOTSUPP) else ml_setxattr cf path name value ml_flags.

Definition fuse_listxattr (path : list Z) (size : Z) : M E (Z * list Z) := ml_listxattr cf path size.

Definition fuse_removexattr (path name : list Z) : M E Z :=
  if in_kernel_namespace name then ret (- ENOATTR) else ml_removexattr cf path name.

(** ** Open files *)

(** The answer and the kernel's file info. *)
Definition fuse_open (path : list Z) (fi : fuse_file_info) : M E (Z * fuse_file_info) :=
  let! o := ml_open cf path (ffi_flags fi) in
  let (r, fp) := o : Z * option Z in
  ret (r, if r =? 0 then FuseInfo (ffi_flags fi) (default 0 fp) else fi).

Definition fuse_create (path : list Z) (mode : Z) (fi : fuse_file_info) : M E (Z * fuse_file_info) :=
  let! c := ml_creat cf path in
  let (r, created) := c : Z * bool in
  if negb (r =? 0) && (negb (r =? - EEXIST) || has (ffi_flags fi) O_EXCL) then ret (r, fi)
  else
    let drop_ := Z.lor (Z.lor O_CREAT O_EXCL) (if created then O_TRUNC else 0) in
    let! o := ml_open cf path (Z.land (ffi_flags fi) (Z.lnot drop_)) in
    let (r, fp) := o : Z * option Z in
    if negb (r =? 0) then
      (if created && (r =? - ETIMEDOUT) then ml_set_created_mode cf path mode
       else if created then ml_unlink cf path ;;! ret tt else ret tt) ;;!
      ret (r, fi)
    else
      (if created then ml_set_created_mode cf path mode else ret tt) ;;!
      update_fork (set_fi_created created) (default 0 fp) ;;!
      ret (0, FuseInfo (ffi_flags fi) (default 0 fp)).

Definition fuse_fsync (fi : fuse_file_info) : M E Z :=
  if fh fi =? 0 then ret (- EBADF) else ml_fsync cf (fh fi).

Definition fuse_release (fi : fuse_file_info) : M E (Z * fuse_file_info) :=
  let fp := if fh fi =? 0 then None else Some (fh fi) in
  let! r := ml_close cf fp in
  free_fork (fh fi) ;;!
  ret (r, FuseInfo (ffi_flags fi) 0).

Definition fuse_write (data : list Z) (offset : Z) (fi : fuse_file_info) : M E Z := ml_write cf data offset (fh fi).

(** The reads until [size] bytes, the end or a read without any: the count or
    the errno and the bytes; [None] is the end of the fuel. *)
Fixpoint fuse_read_loop (fuel : nat) (size offset fp : Z) (got : list Z) : M E (option (Z * list Z)) :=
  if zlen got <? size then
    match fuel with
    | O => ret None
    | S fuel =>
        let! a := ml_read cf (size - zlen got) (offset + zlen got) fp in
        let '(r, data, eof) := a : read_result in
        if r <? 0 then ret (Some (r, got))
        else if r =? 0 then ret (Some (i32 (zlen got), got))
        else if eof : bool then ret (Some (i32 (zlen got + r), got ++ data))
        else fuse_read_loop fuel size offset fp (got ++ data)
    end
  else ret (Some (i32 (zlen got), got)).

Definition fuse_read (size offset : Z) (fi : option fuse_file_info) : M E (option (Z * list Z)) :=
  match fi with
  | None => ret (Some (- EBADF, []))
  | Some fi => if fh fi =? 0 then ret (Some (- EBADF, [])) else fuse_read_loop (Z.to_nat size) size offset (fh fi) []
  end.

(** The reply's count is 32 bits wide. *)
Definition COPY_RANGE_MAX : Z := 0xfffff000.

Definition fuse_copy_file_range (fi_in : option fuse_file_info) (offset_in : Z) (fi_out : option fuse_file_info)
    (offset_out size flags : Z) : M E Z :=
  if negb (flags =? 0) then ret (- EINVAL)
  else
    let fp_in := default 0 (fh <$> fi_in) in
    let fp_out := default 0 (fh <$> fi_out) in
    if (fp_in =? 0) || (fp_out =? 0) then ret (- EBADF)
    else
      let size := if size >? COPY_RANGE_MAX then COPY_RANGE_MAX else size in
      ml_copy_range cf fp_in offset_in fp_out offset_out size.

(** A file info without a handle is of a create under way. *)
Definition fuse_truncate (path : list Z) (offset : Z) (fi : option fuse_file_info) : M E Z :=
  match fi with
  | Some fi => if negb (fh fi =? 0) then ml_ftruncate cf (fh fi) offset else ret 0
  | None => ml_truncate cf path offset
  end.

(** ** Directory streams *)

Record dir_stream := Stream { listing_of : afp_listing; listed : bool }.

Definition SIZEOF_DIR_STREAM : Z := 40.

Definition fuse_opendir : M E (res dir_stream) :=
  let! ok := call (Malloc SIZEOF_DIR_STREAM) in
  ret (if negb ok then Err (- ENOMEM) else Ok (Stream empty_listing false)).

Definition contains_null (s : list Z) : bool := match split_sub null_name s with Some _ => true | None => false end.

Definition lookup_differs (dir : option (list Z)) (name : list Z) : bool :=
  match dir with
  | None => true
  | Some dir => appledouble_shadows cf dir name || contains_null dir || contains_null name
  end.

(** Names with the indices of their entries, sorted by strcmp. *)
Fixpoint listed_insert (x : list Z * Z) (l : list (list Z * Z)) : list (list Z * Z) :=
  match l with
  | [] => [x]
  | y :: r => match strcmp (fst x) (fst y) with Gt => y :: listed_insert x r | _ => x :: l end
  end.
Definition listed_sort (l : list (list Z * Z)) : list (list Z * Z) := foldr listed_insert [] l.

Fixpoint flag_repeats (l : list (list Z * Z)) (flags : list bool) : list bool :=
  match l with
  | x :: ((y :: _) as r) =>
      flag_repeats r
        (match strcmp (fst x) (fst y) with
         | Eq => <[Z.to_nat (snd y) := true]> (<[Z.to_nat (snd x) := true]> flags)
         | _ => flags
         end)
  | _ => flags
  end.

Fixpoint number_names (i : Z) (l : list (list Z)) : list (list Z * Z) :=
  match l with [] => [] | n :: r => (n, i) :: number_names (i + 1) r end.

Definition names_of (l : afp_listing) : list (list Z) := map (afp_dirent_name l) (entries l).

Definition repeated_flags (names : list (list Z)) : list bool :=
  flag_repeats (listed_sort (number_names 0 names)) (replicate (length names) false).

(** The flag of each entry, or none without memory. *)
Definition repeated_names (l : afp_listing) : M E (option (list bool)) :=
  let! ok1 := call (Malloc (count l)) in
  let! ok2 := call (Malloc (count l * 16)) in
  ret (if negb ok1 || negb ok2 then None else Some (repeated_flags (names_of l))).

(** libfuse's fill: a name, its attributes, the offset of the next one and the
    flags; it answers whether the page is full, with the name left out. *)
Context {B : Type} (filler : B -> list Z -> stat -> Z -> Z -> bool * B).

Definition mode_only (mode : Z) : stat := Stat mode 0 0 0 0 0 0 0 (Timespec 0 0) (Timespec 0 0).

(** What goes to the fill for the entry at offset [o]. *)
Definition dir_entry (l : afp_listing) (path : option (list Z)) (repeated : option (list bool)) (o : Z) : list Z * stat * Z :=
  let e := if o <? 2 then None else entries l !! Z.to_nat (o - 2) in
  let name := match e with Some e => afp_dirent_name l e | None => if o =? 0 then str "." else str ".." end in
  let other := match e with Some _ => lookup_differs path name | None => false end in
  let full :=
    match repeated, e with
    | Some flags, Some e =>
        if negb other && negb (default false (flags !! Z.to_nat (o - 2))) then
          let (r, st) := afp_dirent_to_stat (vol_identity cf) e in if r =? 0 then Some st else None
        else None
    | _, _ => None
    end in
  match full with
  | Some st => (name, st, FUSE_FILL_DIR_PLUS)
  | None => (name, mode_only (if other then 0 else match e with Some e => Z.land (afp_dirent_mode e) S_IFMT | None => S_IFDIR end), 0)
  end.

Fixpoint fill_page (fuel : nat) (l : afp_listing) (path : option (list Z)) (repeated : option (list bool)) (o : Z) (buf : B) : B :=
  match fuel with
  | O => buf
  | S fuel =>
      if o <? count l + 2 then
        let '(name, st, flags) := dir_entry l path repeated o in
        let (full, buf) := filler buf name st (o + 1) flags in
        if full then buf else fill_page fuel l path repeated (o + 1) buf
      else buf
  end.

(** The listing starts over; its arrays stay. *)
Definition emptied (l : afp_listing) : afp_listing := Listing [] 0 (capacity l) [] 0 (pool_cap l).

Definition readdir_null (l : afp_listing) : M E (option (Z * afp_listing)) := ret (Some (- EINVAL, l)).

(** The answer, the stream and the page; [None] for a listing with more pages
    of the server than [pages]. *)
Definition fuse_readdir (pages : nat) (path : option (list Z)) (s : dir_stream) (buf : B) (offset flags : Z)
    : M E (option (Z * dir_stream * B)) :=
  let page l repeated := fill_page (Z.to_nat (count l + 2 - offset)) l path repeated offset buf in
  if (offset =? 0) || negb (listed s) then
    let l := emptied (listing_of s) in
    let! r := match path with Some p => ml_readdir cf pages p l | None => readdir_null l end in
    match r with
    | None => ret None
    | Some (rc, l) =>
        if negb (rc =? 0) then ret (Some (rc, Stream l false, buf))
        else
          let! repeated := if has flags FUSE_READDIR_PLUS then repeated_names l else ret None in
          ret (Some (0, Stream l true, page l repeated))
    end
  else ret (Some (0, s, page (listing_of s) None)).

End Fuse.
