(* ===== verification/FuseProofs.v ===== *)
(** The FUSE operations: directory streams, repeated names, reads, and
    read-only mounts. *)
From stdpp Require Import gmap sorting.
From S2P Require Import Prelude AfpProtocol Identify Url Dates ReplyBlock Listing World DidCache DidProofs ForkList LowLevel Quiet Resource Midlevel Xattr ReadOnly ForkIO Fuse.
Local Open Scope afp_scope.

(** ** Repeated names *)

Definition name_le (x y : list Z * Z) : Prop := strcmp (fst x) (fst y) <> Gt.

Lemma name_le_refl_eq a b : strcmp a b <> Gt -> strcmp b a <> Gt -> a = b.
Proof. rewrite (strcmp_antisym a b). destruct (strcmp a b) eqn:E; simpl; intros H1 H2; [by apply strcmp_eq|done..]. Qed.

Lemma name_le_trans x y z : name_le x y -> name_le y z -> name_le x z.
Proof.
  unfold name_le. destruct (strcmp (fst x) (fst y)) eqn:E1; [apply strcmp_eq in E1; by rewrite E1| |done]. intros _.
  destruct (strcmp (fst y) (fst z)) eqn:E2; [apply strcmp_eq in E2; rewrite <- E2; by rewrite E1| |done]. intros _.
  by rewrite (strcmp_trans _ _ _ E1 E2).
Qed.

Lemma listed_insert_perm x l : listed_insert x l ≡ₚ x :: l.
Proof. induction l as [|y l IH]; [done|]. cbn [listed_insert]. destruct (strcmp _ _); [done..|]. rewrite IH. constructor. Qed.

Lemma listed_sort_perm l : listed_sort l ≡ₚ l.
Proof. induction l as [|x l IH]; [done|]. unfold listed_sort in *. cbn [foldr]. by rewrite listed_insert_perm, IH. Qed.

Lemma listed_insert_sorted x l : StronglySorted name_le l -> StronglySorted name_le (listed_insert x l).
Proof.
  induction 1 as [|y l Hs IH Hy]; [repeat constructor|]. cbn [listed_insert]. destruct (strcmp (fst x) (fst y)) eqn:E.
  1, 2: assert (Hxy : name_le x y) by (unfold name_le; congruence); constructor; [by constructor|]; constructor; [done|];
        eapply Forall_impl; [exact Hy|]; intros z Hz; by apply (name_le_trans x y z).
  constructor; [done|]. rewrite listed_insert_perm. constructor; [|done]. unfold name_le. by rewrite strcmp_antisym, E.
Qed.

Lemma listed_sort_sorted l : StronglySorted name_le (listed_sort l).
Proof. induction l as [|x l IH]; [constructor|]. by apply listed_insert_sorted. Qed.

(** Another pair of [l] has the name of the index [i]. *)
Definition repeated_in (l : list (list Z * Z)) (i : nat) : Prop :=
  exists x y, x ∈ l /\ y ∈ l /\ Z.to_nat (snd x) = i /\ Z.to_nat (snd y) <> i /\ fst x = fst y.

Lemma flag_repeats_length l flags : length (flag_repeats l flags) = length flags.
Proof.
  revert flags. induction l as [|x l IH]; intros flags; [done|]. cbn [flag_repeats]. destruct l as [|y r]; [done|]. rewrite IH.
  destruct (strcmp _ _); by rewrite ?length_insert.
Qed.

Lemma flag_repeats_spec l flags i :
  StronglySorted name_le l -> NoDup (map (fun x => Z.to_nat (snd x)) l) -> Forall (fun x => (Z.to_nat (snd x) < length flags)%nat) l ->
  flag_repeats l flags !! i = Some true <-> flags !! i = Some true \/ repeated_in l i.
Proof.
  revert flags. induction l as [|x l IH]; intros flags Hs Hn Hr; [split; [by left|intros [?|(a & b & []%elem_of_nil & _)]; done]|].
  cbn [flag_repeats]. destruct l as [|y r].
  { split; [by left|]. intros [?|(a & b & Ha & Hb & H1 & H2 & _)]; [done|]. apply list_elem_of_singleton in Ha, Hb. subst. done. }
  apply StronglySorted_inv in Hs as [Hs Hx]. cbn [map] in Hn. apply NoDup_cons in Hn as [Hxn Hn]. apply Forall_cons in Hr as [Hrx Hr].
  pose proof Hr as Hr'. apply Forall_cons in Hr' as [Hry _]. pose proof Hx as Hx'. apply Forall_cons in Hx' as [Hxy _].
  set (flags' := match strcmp (fst x) (fst y) with Eq => _ | _ => _ end).
  assert (Hlen : length flags' = length flags) by (unfold flags'; destruct (strcmp _ _); by rewrite ?length_insert).
  rewrite IH by (done || by rewrite Hlen).
  assert (Hne : Z.to_nat (snd x) <> Z.to_nat (snd y)) by (intros E; apply Hxn; rewrite E; constructor).
  assert (Hf : flags' !! i = Some true <-> flags !! i = Some true \/ (fst x = fst y /\ (i = Z.to_nat (snd x) \/ i = Z.to_nat (snd y)))).
  { unfold flags'. destruct (strcmp (fst x) (fst y)) eqn:E.
    1: apply strcmp_eq in E; destruct (decide (i = Z.to_nat (snd y))) as [->|N1];
       [rewrite list_lookup_insert_eq by (by rewrite length_insert); split; [right; auto|done]|rewrite list_lookup_insert_ne by done];
       destruct (decide (i = Z.to_nat (snd x))) as [->|N2]; [rewrite list_lookup_insert_eq by done; split; [right; auto|done]|rewrite list_lookup_insert_ne by done];
       naive_solver.
    all: assert (fst x <> fst y) by (intros Hq; apply strcmp_eq in Hq; congruence); naive_solver. }
  rewrite Hf. clear IH Hf flags' Hlen. split.
  - intros [[?|[E [->| ->]]]|(a & b & Ha & Hb & Hi)]; [by left|right; exists x, y|right; exists y, x|right; exists a, b]; rewrite !elem_of_cons in *; naive_solver.
  - intros [?|(a & b & Ha & Hb & H1 & H2 & H3)]; [by auto|]. rewrite elem_of_cons in Ha, Hb.
    assert (Hsame : forall z, z ∈ y :: r -> fst x = fst z -> fst x = fst y).
    { intros z Hz E. apply name_le_refl_eq; [done|]. rewrite E. apply StronglySorted_inv in Hs as [_ Hy].
      rewrite elem_of_cons in Hz. destruct Hz as [->|Hz]; [by rewrite (proj2 (strcmp_eq _ _) eq_refl)|]. rewrite Forall_forall in Hy. by apply Hy. }
    destruct Ha as [->|Ha], Hb as [->|Hb]; [done| | |right; by exists a, b].
    + left. right. split; [by apply (Hsame b)|]. by left.
    + destruct (decide (Z.to_nat (snd y) = i)) as [E|E]; [left; right; split; [|by right]; apply (Hsame a); [done|by symmetry]|].
      right. exists a, y. split; [done|]. split; [constructor|]. split; [done|]. split; [done|]. rewrite H3. by apply (Hsame a).
Qed.

Lemma number_names_lookup i l k : number_names i l !! k = (fun n => (n, i + Z.of_nat k)) <$> l !! k.
Proof.
  revert i k. induction l as [|n l IH]; intros i [|k]; [done..| |]; simpl; [do 2 f_equal; lia|]. rewrite IH. destruct (l !! k); [|done]. simpl. do 2 f_equal. lia.
Qed.

Lemma number_names_snd i l : map snd (number_names i l) = seqZ i (zlen l).
Proof.
  revert i. induction l as [|n l IH]; intros i; [done|]. cbn [number_names map snd]. rewrite zlen_cons, seqZ_cons by (pose proof (zlen_nonneg l); lia).
  rewrite IH. do 2 f_equal; lia.
Qed.

(** The sort and the comparison of neighbours mark an entry exactly if another
    entry has its name. *)
Lemma repeated_flags_exact names i :
  length (repeated_flags names) = length names
  /\ (repeated_flags names !! i = Some true <-> exists j n, i <> j /\ names !! i = Some n /\ names !! j = Some n).
Proof.
  unfold repeated_flags. rewrite flag_repeats_length, length_replicate. split; [done|]. set (l := number_names 0 names).
  assert (Hs : map (fun x : list Z * Z => Z.to_nat (snd x)) l = map Z.to_nat (seqZ 0 (zlen names))) by (unfold l; by rewrite <- number_names_snd, map_map).
  rewrite flag_repeats_spec; [|apply listed_sort_sorted| |].
  - split.
    + intros [Hf|(x & y & Hx & Hy & H1 & H2 & H3)]; [apply lookup_replicate in Hf; naive_solver|].
      rewrite listed_sort_perm in Hx, Hy. apply list_elem_of_lookup in Hx as [a Ha], Hy as [b Hb]. unfold l in Ha, Hb. rewrite number_names_lookup in Ha, Hb.
      destruct (names !! a) as [n|] eqn:Ea; [|done]. destruct (names !! b) as [n'|] eqn:Eb; [|done]. simpl in Ha, Hb.
      injection Ha as <-. injection Hb as <-. simpl in *. subst n'. assert (i = a) as -> by lia. exists b, n. split; [lia|done].
    + intros (j & n & Hij & Hi & Hj). right. exists (n, Z.of_nat i), (n, Z.of_nat j). rewrite listed_sort_perm. simpl.
      split; [|split; [|split; [lia|split; [lia|done]]]]; apply list_elem_of_lookup; [exists i|exists j]; unfold l; rewrite number_names_lookup, ?Hi, ?Hj; done.
  - rewrite (Permutation_map _ (listed_sort_perm l)), Hs. apply NoDup_fmap_2_strong; [|apply NoDup_seqZ].
    intros x y Hx Hy Hxy. rewrite elem_of_seqZ in Hx, Hy. lia.
  - rewrite length_replicate. rewrite listed_sort_perm. apply Forall_forall. intros x Hx.
    assert (Z.to_nat (snd x) ∈ map Z.to_nat (seqZ 0 (zlen names))) as Hin by (rewrite <- Hs; apply list_elem_of_fmap; by exists x).
    apply list_elem_of_fmap in Hin as (z & -> & Hz). rewrite elem_of_seqZ in Hz. unfold zlen in Hz. lia.
Qed.

(** ** Directory streams *)

(** A page of the kernel that takes [cap] names, with the offset each one
    leaves the kernel at. *)
Definition page_fill (cap : Z) (page : list (list Z * Z)) (name : list Z) (st : stat) (next flags : Z) : bool * list (list Z * Z) :=
  if zlen page >=? cap then (true, page) else (false, page ++ [(name, next)]).

(** The name at an offset. *)
Definition dir_name (l : afp_listing) (o : Z) : list Z :=
  if o =? 0 then str "." else if o =? 1 then str ".." else default (str "..") (names_of l !! Z.to_nat (o - 2)).

Section Streams.
Context {E : Type} {HE : Env E} (cf : config).

Lemma dir_entry_name l path repeated o : 0 <= o -> fst (fst (dir_entry cf l path repeated o)) = dir_name l o.
Proof.
  intros Ho. unfold dir_entry, dir_name, names_of. rewrite list_lookup_fmap.
  destruct (Z.ltb_spec o 2) as [H2|H2]; [assert (o = 0 \/ o = 1) as [-> | ->] by lia; by destruct repeated|].
  replace (o =? 0) with false by lia. replace (o =? 1) with false by lia.
  destruct (entries l !! Z.to_nat (o - 2)) as [e|]; cbn [fmap option_fmap option_map default from_option id];
    [|by destruct repeated]. destruct repeated; [|done]. case_if; [|done]. by destruct (afp_dirent_to_stat _ _) as [r st]; case_if.
Qed.

(** The names from [o] on, [n] of them, with the offset behind each. *)
Definition names_from (l : afp_listing) (o n : Z) : list (list Z * Z) := map (fun i => (dir_name l i, i + 1)) (seqZ o n).

Lemma fill_page_spec cap fuel l path repeated o page :
  0 <= o -> Z.of_nat fuel = Z.max 0 (count l + 2 - o) -> zlen page <= cap ->
  fill_page cf (page_fill cap) fuel l path repeated o page
  = page ++ take (Z.to_nat (cap - zlen page)) (names_from l o (Z.of_nat fuel)).
Proof.
  revert o page. induction fuel as [|fuel IH]; intros o page Ho Hf Hc; cbn [fill_page].
  { unfold names_from. simpl. by rewrite take_nil, app_nil_r. }
  replace (o <? count l + 2) with true by lia.
  pose proof (dir_entry_name l path repeated o Ho) as Hn. destruct (dir_entry cf l path repeated o) as [[name st] fl]. cbn [fst] in Hn. subst name.
  unfold page_fill at 1. destruct (Z.geb_spec (zlen page) cap) as [Hge|Hlt].
  { replace (cap - zlen page) with 0 by lia. by rewrite app_nil_r. }
  rewrite IH; [|lia|lia|rewrite zlen_app; change (zlen [_]) with 1; lia]. rewrite zlen_app. change (zlen [_]) with 1. rewrite <- app_assoc. f_equal.
  unfold names_from. rewrite (seqZ_cons o (Z.of_nat (S fuel))) by lia. cbn [map app].
  replace (Z.to_nat (cap - zlen page)) with (S (Z.to_nat (cap - (zlen page + 1)))) by lia. cbn [take]. do 3 f_equal; f_equal; lia.
Qed.

(** The reads of a stream until an empty page: the names, and whether the end
    came within the pages of [caps]. *)
Fixpoint read_stream (pages : nat) (path : option (list Z)) (flags : Z) (caps : list Z) (s : dir_stream) (offset : Z)
    : M E (option (list (list Z) * bool)) :=
  match caps with
  | [] => ret (Some ([], false))
  | cap :: caps =>
      let! r := fuse_readdir cf (page_fill cap) pages path s [] offset flags in
      match r with
      | Some (0, s, page) =>
          match last page with
          | None => ret (Some ([], true))
          | Some (_, next) =>
              let! more := read_stream pages path flags caps s next in
              ret ((fun m => (map fst page ++ fst m, snd m)) <$> (more : option (list (list Z) * bool)))
          end
      | _ => ret None
      end
  end.

Lemma last_names l o n : 0 < n -> last (names_from l o n) = Some (dir_name l (o + n - 1), o + n).
Proof.
  intros Hn. unfold names_from. replace n with (n - 1 + 1) at 1 by lia. rewrite seqZ_app by lia. rewrite map_app, last_app.
  rewrite (seqZ_cons (o + (n - 1)) 1) by lia. change (Z.pred 1) with 0. rewrite seqZ_nil by lia. cbn [map last].
  replace (o + (n - 1)) with (o + n - 1) by lia. do 2 f_equal. lia.
Qed.

Lemma take_names l o n k : 0 <= k -> take (Z.to_nat k) (names_from l o n) = names_from l o (Z.min k n).
Proof.
  intros Hk. unfold names_from. destruct (Z.le_gt_cases n 0) as [Hn|Hn]; [rewrite Z.min_r by lia; rewrite !seqZ_nil by lia; cbn [map]; by rewrite take_nil|].
  destruct (Z.le_gt_cases k n) as [Hkn|Hkn]; [rewrite Z.min_l by lia|rewrite Z.min_r by lia; apply take_ge; rewrite length_map, length_seqZ; lia].
  replace n with (k + (n - k)) by lia. rewrite seqZ_app, map_app by lia. apply take_app_zlen. by rewrite length_map, length_seqZ.
Qed.

(** Once the listing is there, the pages are its names from the offset on. *)
Lemma stream_rest pages path flags caps l o w :
  Forall (fun c => 1 <= c) caps -> 0 < o <= count l + 2 -> count l + 2 - o < zlen caps ->
  read_stream pages path flags caps (Stream l true) o w = (Some (map fst (names_from l o (count l + 2 - o)), true), w).
Proof.
  revert o. induction caps as [|cap caps IH]; intros o Hc Ho Hl; [rewrite zlen_nil in Hl; lia|]. apply Forall_cons in Hc as [Hcap Hc]. rewrite zlen_cons in Hl.
  cbn [read_stream]. unfold bind at 1, fuse_readdir. replace (o =? 0) with false by lia. cbn [orb negb listed listing_of ret]. unfold ret at 1.
  rewrite fill_page_spec by (rewrite ?zlen_nil; lia). rewrite zlen_nil, app_nil_l, Z.sub_0_r, Z2Nat.id by lia. rewrite take_names by lia.
  destruct (Z.eq_dec o (count l + 2)) as [->|Hne]; [rewrite Z.sub_diag, Z.min_r by lia; done|].
  set (k := Z.min cap (count l + 2 - o)). assert (Hk : 1 <= k <= count l + 2 - o) by lia.
  rewrite last_names by lia. unfold bind. rewrite IH by (done || lia). unfold ret. cbn [fmap option_fmap option_map fst snd]. do 3 f_equal.
  rewrite <- map_app. f_equal. unfold names_from. rewrite <- map_app. f_equal. replace (count l + 2 - (o + k)) with (count l + 2 - o - k) by lia.
  rewrite <- seqZ_app by lia. f_equal. lia.
Qed.

Lemma names_all l : count l = zlen (entries l) -> map fst (names_from l 0 (count l + 2)) = [str "."; str ".."] ++ names_of l.
Proof.
  intros Hc. pose proof (zlen_nonneg (entries l)). unfold names_from. rewrite map_map. cbn [fst].
  rewrite (seqZ_cons 0) by lia. rewrite (seqZ_cons (Z.succ 0)) by lia. cbn [map app]. f_equal. f_equal.
  replace (Z.pred (Z.pred (count l + 2))) with (zlen (entries l)) by lia. change (Z.succ (Z.succ 0)) with 2.
  apply list_eq. intros i. change (map (dir_name l)) with (fmap (M := list) (dir_name l)). rewrite list_lookup_fmap.
  destruct (decide (Z.of_nat i < zlen (entries l))) as [Hi|Hi].
  - rewrite lookup_seqZ_lt by lia. cbn [fmap option_fmap option_map]. unfold dir_name. replace (2 + Z.of_nat i =? 0) with false by lia.
    replace (2 + Z.of_nat i =? 1) with false by lia. replace (Z.to_nat (2 + Z.of_nat i - 2)) with i by lia.
    destruct (names_of l !! i) eqn:En; [done|]. apply lookup_ge_None in En. unfold names_of in En. rewrite length_map in En. unfold zlen in Hi. lia.
  - rewrite lookup_seqZ_ge by lia. symmetry. apply lookup_ge_None. unfold names_of. rewrite length_map. unfold zlen in Hi. lia.
Qed.

(** C12: a directory stream delivers its folder and ends. Whatever the number of
    names each page of the kernel takes, one at least, and whether it asks for
    attributes, the reads of a stream that was just opened give ".", ".." and
    every name of the listing taken at the first read, once and in order, and
    then an empty page, after at most three pages more than the listing has
    names. *)
Theorem dir_stream_complete pages path flags caps l (w w1 : volume * E) :
  ml_readdir cf pages path empty_listing w = (Some (0, l), w1) -> count l = zlen (entries l) ->
  Forall (fun c => 1 <= c) caps -> count l + 2 < zlen caps ->
  fst (read_stream pages (Some path) flags caps (Stream empty_listing false) 0 w) = Some ([str "."; str ".."] ++ names_of l, true).
Proof.
  intros Hr Hc Hcaps Hl. pose proof (zlen_nonneg (entries l)). destruct caps as [|cap caps]; [rewrite zlen_nil in Hl; lia|]. apply Forall_cons in Hcaps as [Hcap Hcaps].
  rewrite zlen_cons in Hl. cbn [read_stream]. unfold bind at 1, fuse_readdir. change (0 =? 0) with true. cbn [orb listing_of]. unfold bind at 1.
  change (emptied empty_listing) with empty_listing. rewrite Hr. change (negb (0 =? 0)) with false. cbv iota. unfold bind at 1.
  destruct ((if has flags FUSE_READDIR_PLUS then repeated_names l else ret None) w1) as [repeated w2]. unfold ret at 1.
  rewrite fill_page_spec by (rewrite ?zlen_nil; lia). rewrite zlen_nil, app_nil_l, !Z.sub_0_r, Z2Nat.id by lia. rewrite take_names by lia.
  set (k := Z.min cap (count l + 2)). assert (Hk : 1 <= k <= count l + 2) by lia. rewrite last_names by lia. rewrite Z.add_0_l.
  unfold bind. rewrite stream_rest by (done || lia). unfold ret. cbn [fmap option_fmap option_map fst snd]. do 2 f_equal.
  rewrite <- names_all by done. rewrite <- map_app. f_equal. unfold names_from. rewrite <- map_app. f_equal.
  replace (count l + 2) with (k + (count l + 2 - k)) at 2 by lia. rewrite seqZ_app by lia. by rewrite Z.add_0_l.
Qed.

End Streams.

(** ** Entries with attributes *)

Section Entries.
Context (cf : config).

(** What the kernel may keep of a listing. A read of a folder with attributes
    hands the kernel an entry's attributes, to be answered from without another
    lookup, exactly if they are complete, a lookup of the name would find that
    entry (the name is no AppleDouble view's and holds no "(null)"), and no
    other entry of the listing has the name. *)
Theorem plus_entries_exact l path o :
  let '(name, st, flags) := dir_entry cf l path (Some (repeated_flags (names_of l))) o in
  flags = FUSE_FILL_DIR_PLUS <->
  exists i e, o = 2 + Z.of_nat i /\ entries l !! i = Some e /\ name = afp_dirent_name l e
    /\ afp_dirent_to_stat (vol_identity cf) e = (0, st) /\ lookup_differs cf path name = false
    /\ forall j, names_of l !! j = Some name -> j = i.
Proof.
  unfold dir_entry. destruct (Z.ltb_spec o 2) as [Ho|Ho].
  { split; [done|]. intros (i & e & -> & _). lia. }
  set (i := Z.to_nat (o - 2)). assert (Hi : o = 2 + Z.of_nat i) by lia. clearbody i.
  destruct (entries l !! i) as [e|] eqn:Ei; [|split; [done|]; intros (j & e & -> & Ej & _); assert (j = i) as -> by lia; congruence].
  assert (Hn : names_of l !! i = Some (afp_dirent_name l e)) by (unfold names_of; by rewrite list_lookup_fmap, Ei).
  destruct (repeated_flags_exact (names_of l) i) as [Hlen Hrep].
  destruct (lookup_differs cf path (afp_dirent_name l e)) eqn:Ed; cbn [negb andb].
  { split; [done|]. intros (j & e' & _ & _ & _ & _ & Hd & _). congruence. }
  destruct (default false (repeated_flags (names_of l) !! i)) eqn:Er; cbn [negb].
  { split; [done|]. destruct (repeated_flags (names_of l) !! i) as [b|] eqn:Eb; [|done]. simpl in Er. subst b.
    destruct (proj1 Hrep eq_refl) as (j & n & Hij & H1 & H2). intros (k & e' & -> & _ & _ & _ & _ & Hu). exfalso. apply Hij.
    rewrite Hn in H1. injection H1 as <-. rewrite (Hu j H2), (Hu i Hn). done. }
  destruct (afp_dirent_to_stat (vol_identity cf) e) as [r st] eqn:Es. destruct (Z.eqb_spec r 0) as [->|Hr].
  - split; [|done]. intros _. exists i, e. do 5 (split; [done|]). intros j Hj. destruct (decide (j = i)) as [|Hji]; [done|].
    assert (Hx : repeated_flags (names_of l) !! i = Some true) by (apply Hrep; exists j, (afp_dirent_name l e); auto). by rewrite Hx in Er.
  - split; [done|]. intros (j & e' & Hj & Ej & _ & Hs & _). assert (j = i) as -> by lia. congruence.
Qed.

End Entries.

Definition two_named : afp_listing := Listing [empty_dirent 0; empty_dirent 0; Dirent 0 0 0 0 0 0 0 0 0 0 0 2 0 0 0 0 (zero_bytes 32)] 3 3 ([97] ++ [0] ++ [98] ++ [0]) 4 4.

Lemma plus_entries_exact_witness :
  names_of two_named = [[97]; [97]; [98]]
  /\ map (fun o => snd (dir_entry sample_config two_named (Some (str "/")) (Some (repeated_flags (names_of two_named))) o)) [2; 3; 4] = [0; 0; FUSE_FILL_DIR_PLUS]
  /\ forall j, names_of two_named !! j = Some [98] -> j = 2%nat.
Proof.
  split; [vm_compute; reflexivity|]. split; [vm_compute; reflexivity|].
  pose proof (plus_entries_exact sample_config two_named (Some (str "/")) 4) as Hp.
  destruct (dir_entry _ _ _ _ 4) as [[name st] flags] eqn:Ed. vm_compute in Ed. injection Ed as <- <- <-.
  destruct (proj1 Hp eq_refl) as (i & e & Hi & _ & _ & _ & _ & Hu). assert (i = 2%nat) as -> by lia. exact Hu.
Defined.

Definition one_name (i : Z) (l : afp_listing) : Z * afp_listing :=
  if i >? 1 then (kFPObjectNotFound, l) else (0, Listing [empty_dirent 0] 1 4 ([97] ++ [0]) 2 64).

Lemma dir_stream_complete_witness :
  fst (@read_stream unit (fun A c e =>
         match c in cmd B return B * unit with
         | Enumerate _ _ _ _ _ i _ l => (one_name i l, e)
         | c => (no_answer c, e)
         end) sample_config 4 (Some (str "/")) FUSE_READDIR_PLUS [2; 1; 3; 1] (Stream empty_listing false) 0 (empty_volume, tt))
  = Some ([str "."; str ".."] ++ [str "a"], true).
Proof.
  refine (dir_stream_complete sample_config 4 (str "/") FUSE_READDIR_PLUS [2; 1; 3; 1] (Listing [empty_dirent 0] 1 4 ([97] ++ [0]) 2 64) (empty_volume, tt) _ _ _ _ _).
  - vm_compute. reflexivity.
  - reflexivity.
  - repeat constructor; lia.
  - reflexivity.
Defined.

(** ** Reads *)

Section Reads.
Context {E : Type} {HE : Env E} (cf : config) (p : Z).

(** The fork of the handle and its kind. *)
Definition handle_is (f r : Z) (w : volume * E) : Prop := fi_forkid (fork_at p (fst w)) = f /\ fi_resource (fork_at p (fst w)) = r.

Lemma handle_is_call f r A (c : cmd A) : keeps (handle_is f r) (call c).
Proof. intros w Hw. unfold call. by destruct (handle c (snd w)). Qed.

Lemma handle_is_alter f r b q v e : handle_is f r (v, e) -> handle_is f r (set_forks (alter (set_fi_dirty b) q (forks v)) v, e).
Proof.
  unfold handle_is, fork_at. cbn [fst forks set_forks]. destruct (decide (q = p)) as [->|Hq]; [|by rewrite lookup_alter_ne].
  rewrite lookup_alter_eq. by destruct (forks v !! p).
Qed.

Lemma handle_is_dirty f r b q : keeps (handle_is f r) (update_fork (set_fi_dirty b) q).
Proof. intros [v e] Hw. by apply handle_is_alter. Qed.

Lemma handle_is_redirty f r d : keeps (handle_is f r) (modify (fun v => redirty d (open_forks v) v)).
Proof.
  intros [v e] Hw. unfold modify. cbn [snd fst]. generalize (open_forks v). intros ps. induction ps as [|q ps IH]; cbn [redirty]; [done|].
  case_if; [by apply handle_is_alter|done].
Qed.

#[local] Hint Resolve handle_is_call handle_is_dirty handle_is_redirty : keeps.

Lemma handle_is_flush f r fp : keeps (handle_is f r) (flush_dirty_forks_for_file fp).
Proof.
  assert (Hc : forall ps rs n, keeps (handle_is f r) (collect_dirty fp ps rs n)) by (induction ps; cbn [collect_dirty]; keep).
  assert (Hf : forall rs, keeps (handle_is f r) (flush_records rs)) by (induction rs; cbn [flush_records]; keep).
  unfold flush_dirty_forks_for_file. keep.
Qed.

Lemma handle_is_read_loop f r fuel g off n : forall got, keeps (handle_is f r) (read_loop cf fuel g off n got).
Proof. induction fuel; cbn [read_loop]; keep. Qed.

Lemma handle_is_lock_loop f r fuel g off n : keeps (handle_is f r) (lock_loop cf fuel g off n).
Proof. induction fuel; cbn [lock_loop]; unfold lock_request in *; keep. Qed.

#[local] Hint Resolve handle_is_flush handle_is_read_loop handle_is_lock_loop : keeps.

Lemma handle_is_read f r n off fp : keeps (handle_is f r) (ll_read cf n off fp).
Proof. unfold ll_read, read_locked, ll_handle_locking, ll_handle_unlocking, lock_request, afp2_fork_reaches. keep. Qed.

Context (content : E -> Z -> list Z) {Fs : ForkServer E content} (quantum_ok : 0 <= quantum cf).

Definition read_fits (size offset : Z) : Prop :=
  0 <= size <= INT_MAX /\ 0 <= offset /\ offset + size < 2 ^ 63 /\ (afp2 cf = true -> offset + size <= AFP_MAX_AFP2_FILESIZE).

Lemma sub_self {A} off n (l : list A) : 0 <= n -> sub off (zlen (sub off n l)) l = sub off n l.
Proof.
  intros Hn. unfold sub, zlen. rewrite length_take, Nat2Z.id. destruct (decide (Z.to_nat n <= length (drop (Z.to_nat off) l))%nat) as [Hl|Hl];
    [by rewrite Nat.min_l|]. rewrite Nat.min_r by lia. rewrite !take_ge by lia. done.
Qed.

(** A read of the data fork. *)
Lemma ml_read_content size offset c f w :
  read_fits size offset -> handle_is f 0 w -> holds content c w ->
  let (r, w') := ml_read cf size offset p w in read_right offset size (c f) r /\ handle_is f 0 w' /\ holds content c w'.
Proof.
  intros (H1 & H2 & H3 & H4) Hf Hw. unfold ml_read, bind, get. pose proof Hf as [Ef Er]. rewrite Er. change (negb (0 =? 0)) with false. cbv iota.
  pose proof (ll_read_content cf content size offset p w c quantum_ok ltac:(lia) H2 H3 ltac:(intros Ha; specialize (H4 Ha); lia) Hw) as Hr.
  pose proof (handle_is_read f 0 size offset (Some p) w Hf) as Hk.
  assert (Hsz : (if afp2 cf then Z.min (Z.min size INT_MAX) (AFP_MAX_AFP2_FILESIZE - offset + 1) else Z.min size INT_MAX) = size).
  { destruct (afp2 cf); [specialize (H4 eq_refl)|]; lia. }
  cbv zeta in Hr. rewrite Hsz, Ef in Hr. destruct (ll_read cf size offset (Some p) w) as [r w']. by destruct Hr.
Qed.

Lemma fuse_read_loop_right fuel size offset got c f w :
  read_fits size offset -> handle_is f 0 w -> holds content c w -> got = sub offset (zlen got) (c f) -> zlen got <= size -> size - zlen got <= Z.of_nat fuel ->
  exists r data w', fuse_read_loop cf fuel size offset p got w = (Some (r, data), w')
    /\ (0 <= r -> r = zlen data /\ data = sub offset size (c f)) /\ holds content c w'.
Proof.
  revert got w. induction fuel as [|fuel IH]; intros got w Hfit Hf Hw Hg Hl Hfuel; cbn [fuse_read_loop]; pose proof (zlen_nonneg got); pose proof Hfit as (F1 & F2 & F3 & F4).
  1, 2: destruct (Z.ltb_spec (zlen got) size) as [Hlt|Hge].
  1: lia.
  1, 3: assert (zlen got = size) as Hsz by lia; exists (i32 (zlen got)), got, w; split; [done|]; split; [|done]; intros _; rewrite i32_small by (unfold INT_MAX in *; lia); split; [done|]; by rewrite Hsz in Hg.
  unfold bind at 1. pose proof (ml_read_content (size - zlen got) (offset + zlen got) c f w) as Hr.
  destruct (ml_read cf (size - zlen got) (offset + zlen got) p w) as [[[r data] eof] w1]. destruct Hr as ([Hr He] & Hf1 & Hw1); [|done..|].
  { split; [lia|]. split; [lia|]. split; [lia|]. intros Ha. specialize (F4 Ha). lia. }
  destruct (Z.ltb_spec r 0) as [Hneg|Hnn]; [exists r, got, w1; split; [done|]; split; [lia|done]|].
  destruct (Hr Hnn) as [Hlen Hdata]. clear Hr. pose proof (zlen_nonneg data).
  assert (Hall : got ++ data = sub offset size (c f)).
  { rewrite Hg at 1. rewrite Hdata, sub_sub_app by lia. f_equal. lia. }
  assert (Hz : zlen (got ++ data) <= size) by (rewrite Hall; apply zlen_sub_le; lia). rewrite zlen_app in Hz.
  destruct (Z.eqb_spec r 0) as [->|Hpos]; [|destruct eof].
  - apply eq_sym, zlen_0_inv in Hlen as ->. rewrite app_nil_r in Hall. exists (i32 (zlen got)), got, w1. split; [done|]. split; [|done].
    intros _. by rewrite i32_small by (unfold INT_MAX in *; lia).
  - exists (i32 (zlen got + r)), (got ++ data), w1. split; [done|]. split; [|done]. intros _. rewrite i32_small, zlen_app by (unfold INT_MAX in *; lia).
    split; [lia|done].
  - apply IH; [done..| | |]; rewrite ?zlen_app; [|lia..]. rewrite <- zlen_app, Hall. symmetry. apply sub_self. lia.
Qed.

(** A read through the mount answers the file's bytes. Whatever lengths the
    server answers its reads with, a read of a file open on its data fork ends,
    and unless it fails it answers as many bytes as were asked for or as the
    file has from the offset, those of the file, and their count; nothing on
    the server changes. *)
Theorem fuse_read_exact size offset fi (w : volume * E) :
  fh fi = p -> p <> 0 -> fi_resource (fork_at p (fst w)) = 0 -> read_fits size offset ->
  let bytes := content (snd w) (fi_forkid (fork_at p (fst w))) in
  exists r data w', fuse_read cf size offset (Some fi) w = (Some (r, data), w')
    /\ (0 <= r -> r = zlen data /\ data = sub offset size bytes) /\ forall g, content (snd w') g = content (snd w) g.
Proof.
  intros Hh Hp Hr Hfit bytes. unfold fuse_read. rewrite Hh. rewrite (proj2 (Z.eqb_neq p 0)) by done.
  apply (fuse_read_loop_right (Z.to_nat size) size offset [] (content (snd w)) (fi_forkid (fork_at p (fst w))) w); [done|done|done| | |]; destruct Hfit as (H1 & _); rewrite ?zlen_nil; [done|lia|lia].
Qed.

End Reads.

Lemma fuse_read_exact_witness :
  exists r data w', fuse_read sample_config 7 1 (Some (FuseInfo O_RDONLY 1)) (open_volume, str "abcdefgh") = (Some (r, data), w')
    /\ r = 7 /\ data = str "bcdefgh".
Proof.
  destruct (fuse_read_exact sample_config 1 short_content ltac:(done) 7 1 (FuseInfo O_RDONLY 1) (open_volume, str "abcdefgh")) as (r & data & w' & E1 & E2 & _);
    [reflexivity|done|reflexivity|split; [done|split; [done|split; [done|done]]]|].
  exists r, data, w'. split; [exact E1|]. vm_compute in E1. injection E1 as <- <- <-. split; [reflexivity|]. exact (proj2 (E2 ltac:(done))).
Defined.
