(* ===== verification/Gcrypt.v ===== *)
(** What the authentication methods stand on: the functions of libgcrypt they
    call, as an interface with the documented laws, and the programs of an
    exchange with a server, which may fail, leave their buffers, or not end. *)
From stdpp Require Import base.
From S2P Require Import Prelude AfpProtocol Utils Url Replies Session.
Local Open Scope afp_scope.

(** ** libgcrypt *)

Inductive cipher := DES_ECB | CAST5_CBC.

(** Integers of any size are [Z]. [mpi_print v buf len] is the buffer and the
    length after the print of [v], big-endian, into [buf] with [len] before it;
    [cipher_encrypt] and [cipher_decrypt] take the key and the vector that were
    set last. *)
Class Gcrypt := {
  version_ok : bool;
  mpi_scan : list Z -> Z;
  mpi_print : Z -> list Z -> Z -> list Z * Z;
  mpi_powm : Z -> Z -> Z -> Z;
  mpi_mod : Z -> Z -> Z;
  mpi_mulm : Z -> Z -> Z -> Z;
  mpi_subm : Z -> Z -> Z -> Z;
  mpi_mul : Z -> Z -> Z;
  mpi_add : Z -> Z -> Z;
  md5 : list Z -> list Z;
  md5_dlen : Z;
  sha1 : list Z -> list Z;
  cipher_setkey : cipher -> list Z -> bool;
  cipher_setiv : cipher -> list Z -> bool;
  cipher_encrypt : cipher -> list Z -> list Z -> list Z -> option (list Z);
  cipher_decrypt : cipher -> list Z -> list Z -> list Z -> option (list Z) }.

(** The documented behaviour: integers as such, a print that fits gives the
    value's bytes without those leading zeros it leaves out and none writes past
    its buffer, CAST5 takes a key
    of 16 bytes and a vector of 8, whole blocks are encrypted, and a decryption
    with the key and the vector of an encryption undoes it. *)
Class GcryptLaws (G : Gcrypt) : Prop := {
  scan_law : forall bs, mpi_scan bs = be_get bs;
  print_law : forall v buf len, 0 <= v < 256 ^ zlen buf ->
    let (b, k) := mpi_print v buf len in
    zlen b = zlen buf /\ 0 <= k <= zlen buf /\ v < 256 ^ k /\ take (Z.to_nat k) b = be_put (Z.to_nat k) v;
  print_bounds : forall v buf len, let (b, k) := mpi_print v buf len in zlen b = zlen buf /\ (0 <= len -> 0 <= k);
  powm_law : forall b e m, 0 <= e -> 0 < m -> mpi_powm b e m = b ^ e mod m;
  mod_law : forall a m, 0 < m -> mpi_mod a m = a mod m;
  mulm_law : forall a b m, 0 < m -> mpi_mulm a b m = (a * b) mod m;
  subm_law : forall a b m, 0 < m -> mpi_subm a b m = (a - b) mod m;
  mul_law : forall a b, mpi_mul a b = a * b;
  add_law : forall a b, mpi_add a b = a + b;
  md5_law : forall bs, zlen (md5 bs) = md5_dlen /\ bytes_ok (md5 bs);
  md5_dlen_law : md5_dlen = 16;
  sha1_law : forall bs, zlen (sha1 bs) = 20 /\ bytes_ok (sha1 bs);
  cast5_key_law : forall key, zlen key = 16 -> cipher_setkey CAST5_CBC key = true;
  cast5_iv_law : forall iv, zlen iv = 8 -> cipher_setiv CAST5_CBC iv = true;
  encrypt_length : forall c key iv data e, cipher_encrypt c key iv data = Some e -> zlen e = zlen data;
  encrypt_law : forall c key iv data, bytes_ok data -> zlen data mod 8 = 0 ->
    cipher_setkey c key = true -> cipher_setiv c iv = true ->
    exists e, cipher_encrypt c key iv data = Some e /\ zlen e = zlen data /\ bytes_ok e /\ cipher_decrypt c key iv e = Some data }.

(** ** Exchanges *)

(** [SendRequest] is afpc_dsi_send with a request's bytes after its DSI header:
    its answer and what the reply holds after its own. *)
Inductive acmd : Type -> Type :=
| Calloc (n : Z) : acmd bool
| Randomize (n : Z) : acmd (list Z)
| CreateNonce (n : Z) : acmd (list Z)
| CipherOpen (c : cipher) : acmd bool
| MdOpen : acmd bool
| SendRequest (request : list Z) : acmd (Z * list Z).

Class AuthEnv (E : Type) := answer_auth : forall A, acmd A -> E -> A * E.
Arguments answer_auth {E _ A}.

(** A value, the return from the function, a write outside of a buffer, or the
    end of the fuel of a loop. *)
Inductive ending (A : Type) : Type :=
| Fine (a : A)
| Quit (r : Z)
| Stray
| Endless.
Arguments Fine {A} a.
Arguments Quit {A} r.
Arguments Stray {A}.
Arguments Endless {A}.

Definition Auth (E A : Type) : Type := E -> ending A * E.

Definition aret {E A} (a : A) : Auth E A := fun e => (Fine a, e).
Definition quit {E A} (r : Z) : Auth E A := fun e => (Quit r, e).
Definition stray {E A} : Auth E A := fun e => (Stray, e).
Definition endless {E A} : Auth E A := fun e => (Endless, e).
Definition abind {E A B} (m : Auth E A) (k : A -> Auth E B) : Auth E B := fun e =>
  match m e with
  | (Fine a, e') => k a e'
  | (Quit r, e') => (Quit r, e')
  | (Stray, e') => (Stray, e')
  | (Endless, e') => (Endless, e')
  end.

Notation "'let^' x ':=' m 'in' k" := (abind m (fun x => k))
  (at level 10, x pattern, m at level 100, k at level 200) : afp_scope.
Notation "m ';;^' k" := (abind m (fun _ => k)) (at level 60, right associativity) : afp_scope.

(** The function's return value. *)
Definition returns {E} (m : Auth E Z) : Auth E Z := fun e =>
  match m e with
  | (Quit r, e') => (Fine r, e')
  | x => x
  end.

Section Exchanges.
Context {E : Type} `{AuthEnv E}.

Definition acall {A} (c : acmd A) : Auth E A := fun e => let (a, e') := answer_auth c e in (Fine a, e').

(** An allocation; the functions answer -1 without one. *)
Definition need (n : Z) : Auth E unit := let^ ok := acall (Calloc n) in if ok : bool then aret tt else quit (-1).

Definition check (b : bool) : Auth E unit := if b then aret tt else quit (-1).

Definition checked {A} (o : option A) : Auth E A := match o with Some a => aret a | None => quit (-1) end.

(** Bytes written into a zeroed buffer of [n]. *)
Definition placed (n : Z) (bytes : list Z) : Auth E (list Z) :=
  if zlen bytes <=? n then aret (bytes ++ zero_bytes (n - zlen bytes)) else stray.

(** [n] bytes at an offset of a buffer. *)
Definition read_within (data : list Z) (off n : Z) : Auth E (list Z) :=
  if off + n <=? zlen data then aret (sub off n data) else stray.

(** struct afp_rx_buffer after a request: the answer, the buffer and its size. *)
Definition received : Type := Z * list Z * Z.

Definition exchange (request : list Z) (maxsize : Z) : Auth E received :=
  let^ ok := acall (Calloc (HEADER + zlen request)) in
  if negb ok then aret (-1, zero_bytes maxsize, 0)
  else
    let^ a := acall (SendRequest request) in
    let (rc, reply) := a : Z * list Z in
    aret (match snd (afp_login_reply (zero_bytes HEADER ++ reply) (HEADER + zlen reply) maxsize) with
          | Some d => (rc, d ++ zero_bytes (maxsize - zlen d), zlen d)
          | None => (rc, zero_bytes maxsize, 0)
          end).

(** A request without a buffer for the reply. *)
Definition send_only (request : list Z) : Auth E Z :=
  let^ ok := acall (Calloc (HEADER + zlen request)) in
  if negb ok then aret (-1)
  else let^ a := acall (SendRequest request) in aret (fst (a : Z * list Z)).

End Exchanges.
