(* ===== verification/UamExchanges.v ===== *)
(** The exchanges of the authentication methods (lib/uams_clrtxt.c,
    lib/uams_randnum.c, lib/uams_dhx.c, lib/uams_dhx2.c, lib/uams.c): each login
    and each change of a password as the requests it sends and what it makes of
    the answers. *)
From stdpp Require Import base.
From S2P Require Import Prelude AfpProtocol Utils Uams Url Replies Session Gcrypt.
Local Open Scope afp_scope.

Section Exchanges.
Context {E : Type} `{AuthEnv E} `{Gcrypt}.

(** The version in use, its name and number, and what the stack holds where a
    length and the 16 bytes of a key are not set yet. *)
Context (version : list Z) (afp_version : Z) (uninit : Z) (stack : list Z).

(** At most 8 bytes of a password, filled up with zeros. *)
Definition password8 (passwd : list Z) : list Z :=
  let n := strnlen passwd 8 in take (Z.to_nat n) passwd ++ zero_bytes (8 - n).

Definition pad_if (b : bool) : list Z := if b then [0] else [].

Definition user_len (username : list Z) : Z := strnlen username AFP_MAX_USERNAME_LEN.

(** ** Cleartext *)

(** The block of the name before the passwords: an allocation is aligned, so an
    address is odd exactly at an odd offset. [tail] bytes follow. The buffer's
    length and the bytes written. *)
Definition name_block (username : list Z) (tail : Z) : Z * list Z :=
  let name := copy_to_pascal username in
  let len := 1 + user_len username + 1 + tail in
  if Z.odd (zlen name) then (len - 1, name) else (len, name ++ [0]).

Definition cleartxt_login (username passwd : list Z) : Auth E Z := returns (
  need (1 + user_len username + 1 + 8) ;;^
  let (len, name) := name_block username 8 in
  placed (1 + user_len username + 1 + 8) (name ++ password8 passwd) ;;^
  send_only (afp_login version (str "Cleartxt Passwrd") (take (Z.to_nat len) (name ++ password8 passwd)))).

(** What a change of password starts with: two zeros, or the name for a version
    before 3.0. *)
Definition changed_block (username : list Z) (tail : Z) : Z * Z * list Z :=
  if afp_version >=? 30 then (2 + tail, 2 + tail, [0; 0])
  else let (len, name) := name_block username tail in (1 + user_len username + 1 + tail, len, name).

Definition cleartxt_passwd (username passwd newpasswd : list Z) : Auth E Z := returns (
  let '(allocated, len, name) := changed_block username 16 in
  need allocated ;;^
  let bytes := name ++ password8 passwd ++ password8 newpasswd in
  placed allocated bytes ;;^
  send_only (afp_changepassword (str "Cleartxt Passwrd") (take (Z.to_nat len) bytes))).

(** ** Random number exchange *)

(** An encryption by DES with a key. *)
Definition des_encrypt (key data : list Z) : Auth E (list Z) :=
  let^ ok := acall (CipherOpen DES_ECB) in
  check ok ;;^
  check (cipher_setkey DES_ECB key) ;;^
  checked (cipher_encrypt DES_ECB key [] data).

Definition randnum_passwd (username passwd newpasswd : list Z) : Auth E Z := returns (
  let^ old_buf := placed 8 (password8 passwd) in
  let^ new_buf := placed 8 (password8 newpasswd) in
  let '(allocated, len, name) := changed_block username 16 in
  need allocated ;;^
  placed allocated name ;;^
  let^ old := des_encrypt new_buf old_buf in
  let^ new := des_encrypt old_buf new_buf in
  let bytes := name ++ old ++ new in
  placed allocated bytes ;;^
  send_only (afp_changepassword (str "Randnum Exchange") (take (Z.to_nat len) bytes))).

(** The first request of both exchanges, which answers the identifier and the
    server's number. The length of the reply is not looked at: the assertion
    on it holds whatever it is. *)
Definition randnum_start (uam username : list Z) : Auth E (Z * list Z) :=
  need 10 ;;^
  let ai_len := 1 + user_len username in
  need ai_len ;;^
  let^ ai := placed ai_len (copy_to_pascal username) in
  let^ a := exchange (afp_login version uam ai) 10 in
  let '(ret, data, _) := a : received in
  if negb (ret =? kFPAuthContinue) then quit ret
  else aret (be_at data 0 2, sub 2 8 data).

Definition randnum_login (username passwd : list Z) : Auth E Z := returns (
  let^ r := randnum_start (str "Randnum Exchange") username in
  let (ID, number) := r : Z * list Z in
  let^ ok := acall (CipherOpen DES_ECB) in
  check ok ;;^
  let^ key_buffer := placed 8 (password8 passwd) in
  check (cipher_setkey DES_ECB key_buffer) ;;^
  let^ crypted := checked (cipher_encrypt DES_ECB key_buffer [] number) in
  let^ crypted := placed 8 crypted in
  send_only (afp_logincont ID crypted)).

(** The key one bit to the left, the first bit behind the last. *)
Fixpoint shift_left (carry : Z) (key : list Z) : list Z :=
  match key with
  | [] => []
  | [b] => [u8 (Z.lor (Z.shiftl b 1) carry)]
  | b :: ((c :: _) as r) => u8 (Z.lor (Z.shiftl b 1) (Z.shiftr c 7)) :: shift_left carry r
  end.
Definition rotated (key : list Z) : list Z := shift_left (Z.shiftr (byte_at key 0) 7) key.

Definition randnum2_login (username passwd : list Z) : Auth E Z := returns (
  let^ r := randnum_start (str "2-Way Randnum Exchange") username in
  let (ID, number) := r : Z * list Z in
  let^ ok := acall (CipherOpen DES_ECB) in
  check ok ;;^
  let^ key_buffer := placed 8 (password8 passwd) in
  let key := rotated key_buffer in
  check (cipher_setkey DES_ECB key) ;;^
  need 16 ;;^
  let^ crypted := checked (cipher_encrypt DES_ECB key [] number) in
  let^ mine := acall (CreateNonce 8) in
  let^ ai := placed 16 (crypted ++ mine) in
  need 8 ;;^
  let^ a := exchange (afp_logincont ID ai) 8 in
  let '(ret, data, _) := a : received in
  if negb (ret =? kFPNoErr) then quit ret
  else
    let^ expected := checked (cipher_encrypt DES_ECB key [] mine) in
    let^ expected := placed 8 expected in
    aret (if list_eqb (take 8 expected) (take 8 data) then ret else kFPUserNotAuth)).

(** ** Integers in buffers *)

(** A print, moved to the end of the buffer behind zeros if it is shorter. *)
Definition print_padded (v : Z) (buf : list Z) (len : Z) : list Z * Z :=
  let (b, len) := mpi_print v buf len in
  let n := zlen buf in
  (if len <? n then zero_bytes (n - len) ++ take (Z.to_nat len) b else b, len).

(** ** DHCAST128 *)

Definition dhx_c2siv : list Z := str "LWallace".
Definition dhx_s2civ : list Z := str "CJalbert".
Definition p_binary : list Z :=
  [0xba; 0x28; 0x73; 0xdf; 0xb0; 0x60; 0x57; 0xd4; 0x3f; 0x20; 0x24; 0x74; 0x4c; 0xee; 0xe7; 0x5b].
Definition g_binary : list Z := [0x07].

(** A password in a zeroed field of [n] bytes. *)
Definition field (n : Z) (passwd : list Z) : list Z :=
  let s := strlcpy passwd n in s ++ zero_bytes (n - zlen s).

(** The bytes of a login request before its information. *)
Definition login_prefix (uam : list Z) : Z := 1 + 1 + strnlen version UINT8_MAX + 1 + zlen uam.

(** The session key from the server's part, the nonce the reply holds under it,
    one higher, and the length the print of the key left. *)
Definition dhx_nonce (Ra p : Z) (data : list Z) (len : Z) : Auth E (list Z * Z * Z) :=
  let K := mpi_powm (mpi_scan (sub 2 16 data)) Ra p in
  let (K_binary, len) := print_padded K stack len in
  let^ K_binary := placed 16 K_binary in
  let^ ok := acall (CipherOpen CAST5_CBC) in
  check ok ;;^
  check (cipher_setkey CAST5_CBC K_binary) ;;^
  check (cipher_setiv CAST5_CBC dhx_s2civ) ;;^
  let^ plain := checked (cipher_decrypt CAST5_CBC K_binary dhx_s2civ (sub 18 32 data)) in
  aret (K_binary, mpi_add (mpi_scan (sub 0 16 plain)) 1, len).

Definition dhx_login (username passwd : list Z) : Auth E Z := returns (
  let p := mpi_scan p_binary in
  let g := mpi_scan g_binary in
  let^ Ra_binary := acall (Randomize 32) in
  let Ra := mpi_scan Ra_binary in
  let Ma := mpi_powm g Ra p in
  let prefix := login_prefix (str "DHCAST128") in
  let ai_len := 1 + user_len username in
  let ai_len := ai_len + Z.b2z (Z.odd (prefix + ai_len)) + 16 in
  need ai_len ;;^
  let name := copy_to_pascal username in
  let (Ma_binary, len) := print_padded Ma (zero_bytes 16) uninit in
  let^ ai := placed ai_len (name ++ pad_if (Z.odd (prefix + zlen name)) ++ Ma_binary) in
  need 50 ;;^
  let^ a := exchange (afp_login version (str "DHCAST128") ai) 50 in
  let '(ret, data, _) := a : received in
  if negb (ret =? kFPAuthContinue) then quit ret
  else
    let ID := be_at data 0 2 in
    let^ n := dhx_nonce Ra p data len in
    let '(K_binary, new_nonce, _) := n : list Z * Z * Z in
    need 80 ;;^
    let (nonce_binary, _) := print_padded new_nonce (zero_bytes 16) 32 in
    let^ ai := placed 80 (nonce_binary ++ field 64 passwd) in
    check (cipher_setiv CAST5_CBC dhx_c2siv) ;;^
    let^ crypted := checked (cipher_encrypt CAST5_CBC K_binary dhx_c2siv ai) in
    send_only (afp_logincont ID crypted)).

(** The name before an identifier, padded to an even length; two zeros from
    version 3.0 on. The length it has room for and the bytes. *)
Definition even_name (username : list Z) : Z * list Z :=
  if afp_version >=? 30 then (2, [0; 0])
  else
    let pascal_len := 1 + user_len username in
    let pad := Z.odd pascal_len in
    (pascal_len + Z.b2z pad, copy_to_pascal username ++ pad_if pad).

Definition dhx_passwd (username passwd newpasswd : list Z) : Auth E Z := returns (
  let p := mpi_scan p_binary in
  let g := mpi_scan g_binary in
  let^ Ra_binary := acall (Randomize 32) in
  let Ra := mpi_scan Ra_binary in
  let Ma := mpi_powm g Ra p in
  let (room, name) := even_name username in
  need (room + 2 + 16) ;;^
  let (Ma_binary, len) := print_padded Ma (zero_bytes 16) uninit in
  let^ ai := placed (room + 2 + 16) (name ++ [0; 0] ++ Ma_binary) in
  need 50 ;;^
  let^ a := exchange (afp_changepassword (str "DHCAST128") ai) 50 in
  let '(ret, data, size) := a : received in
  if negb (ret =? kFPAuthContinue) then quit ret
  else if negb (size =? 50) then quit (-1)
  else
    let ID := be_at data 0 2 in
    let^ n := dhx_nonce Ra p data len in
    let '(K_binary, new_nonce, len) := n : list Z * Z * Z in
    need (room + 2 + 144) ;;^
    let (nonce_binary, _) := print_padded new_nonce (zero_bytes 16) len in
    let plain := nonce_binary ++ field 64 newpasswd ++ field 64 passwd in
    let^ ai := placed (room + 2 + 144) (name ++ be_put 2 ID ++ plain) in
    check (cipher_setiv CAST5_CBC dhx_c2siv) ;;^
    let^ crypted := checked (cipher_encrypt CAST5_CBC K_binary dhx_c2siv (drop (Z.to_nat (room + 2)) ai)) in
    send_only (afp_changepassword (str "DHCAST128") (take (Z.to_nat (room + 2)) ai ++ crypted))).

(** ** DHX2 *)

Definition DHX2_REPLY : Z := 2 + 4 + 2 + 256 * 2.

(** The client's secret and the key from the server's parameters: the
    identifier, the length of the large numbers, the client's part, the key's
    hash and the length the last print left. *)
Definition dhx2_key (data : list Z) : Auth E (Z * Z * Z * list Z * Z) :=
  let ID := be_at data 0 2 in
  let g := mpi_scan (sub 2 4 data) in
  let bignum_len := be_at data 6 2 in
  if bignum_len >? 256 then quit (-1)
  else
    let^ p_binary := read_within data 8 bignum_len in
    let p := mpi_scan p_binary in
    let^ Mb_binary := read_within data (8 + bignum_len) bignum_len in
    let Mb := mpi_scan Mb_binary in
    need bignum_len ;;^
    let^ Ra_binary := acall (Randomize bignum_len) in
    let Ra := mpi_scan Ra_binary in
    let Ma := mpi_powm g Ra p in
    let K := mpi_powm Mb Ra p in
    need bignum_len ;;^
    let (K_binary, len) := print_padded K (zero_bytes bignum_len) uninit in
    let^ K_binary := placed bignum_len K_binary in
    need md5_dlen ;;^
    let^ K_hash := placed md5_dlen (md5 K_binary) in
    aret (ID, bignum_len, Ma, K_hash, len).

(** A context for the key and the client's nonce under it. *)
Definition dhx2_nonce (K_hash : list Z) : Auth E (list Z) :=
  let^ nonce := acall (CreateNonce 16) in
  let^ nonce := placed 16 nonce in
  let^ ok := acall (CipherOpen CAST5_CBC) in
  check ok ;;^
  check (cipher_setkey CAST5_CBC K_hash) ;;^
  check (cipher_setiv CAST5_CBC dhx_c2siv) ;;^
  aret nonce.

(** The plain text of the server's answer with both nonces. *)
Definition dhx2_opened (K_hash data : list Z) : Auth E (list Z) :=
  check (cipher_setiv CAST5_CBC dhx_s2civ) ;;^
  checked (cipher_decrypt CAST5_CBC K_hash dhx_s2civ (sub 2 32 data)).

(** The rest of a login once the key is there: the nonces, and the password for
    a server that has shown the key. *)
Definition dhx2_prove (passwd : list Z) (k : Z * Z * Z * list Z * Z) : Auth E Z :=
  let '(ID, bignum_len, Ma, K_hash, len) := k in
  let^ nonce := dhx2_nonce K_hash in
  need (bignum_len + 16) ;;^
  let (Ma_binary, len) := print_padded Ma (zero_bytes bignum_len) len in
  let^ crypted := checked (cipher_encrypt CAST5_CBC K_hash dhx_c2siv nonce) in
  placed (bignum_len + 16) (Ma_binary ++ crypted) ;;^
  need 34 ;;^
  let^ a := exchange (afp_logincont ID (Ma_binary ++ crypted)) 34 in
  let '(ret, data, _) := a : received in
  if negb (ret =? kFPAuthContinue) then quit ret
  else
    let ID := be_at data 0 2 in
    let^ plain := dhx2_opened K_hash data in
    let (nonce_binary, len) := print_padded (mpi_add (mpi_scan nonce) 1) nonce 32 in
    placed 16 nonce_binary ;;^
    if negb (list_eqb nonce_binary (sub 0 16 plain)) then quit (-1)
    else
      let new_nonce := mpi_add (mpi_scan (sub 16 16 plain)) 1 in
      need 272 ;;^
      let (nonce_binary, _) := print_padded new_nonce (zero_bytes 16) len in
      let^ ai := placed 272 (nonce_binary ++ field 256 passwd) in
      check (cipher_setiv CAST5_CBC dhx_c2siv) ;;^
      let^ crypted := checked (cipher_encrypt CAST5_CBC K_hash dhx_c2siv ai) in
      send_only (afp_logincont ID crypted).

Definition dhx2_login (username passwd : list Z) : Auth E Z := returns (
  let ai_len := user_len username + 1 in
  let ai_len := ai_len + Z.b2z (Z.odd (login_prefix (str "DHX2") + ai_len)) in
  need ai_len ;;^
  let^ ai := placed ai_len (copy_to_pascal username) in
  need DHX2_REPLY ;;^
  let^ a := exchange (afp_login version (str "DHX2") ai) DHX2_REPLY in
  let '(ret, data, _) := a : received in
  if negb (ret =? kFPAuthContinue) then quit ret
  else
    let^ k := dhx2_key data in
    dhx2_prove passwd k).

Definition dhx2_passwd (username passwd newpasswd : list Z) : Auth E Z := returns (
  let (room, name) := even_name username in
  need room ;;^
  let^ ai := placed room name in
  need DHX2_REPLY ;;^
  let^ a := exchange (afp_changepassword (str "DHX2") ai) DHX2_REPLY in
  let '(ret, data, _) := a : received in
  if negb (ret =? kFPAuthContinue) then quit ret
  else
    let^ k := dhx2_key data in
    let '(ID, bignum_len, Mb, K_hash, len) := k : Z * Z * Z * list Z * Z in
    let^ nonce := dhx2_nonce K_hash in
    need (room + 2 + bignum_len + 16) ;;^
    let (Mb_binary, len) := print_padded Mb (zero_bytes bignum_len) len in
    let^ crypted := checked (cipher_encrypt CAST5_CBC K_hash dhx_c2siv nonce) in
    let^ ai := placed (room + 2 + bignum_len + 16) (name ++ be_put 2 ID ++ Mb_binary ++ crypted) in
    need 34 ;;^
    let^ a := exchange (afp_changepassword (str "DHX2") ai) 34 in
    let '(ret, data, _) := a : received in
    if negb (ret =? kFPAuthContinue) then quit ret
    else
      let ID := be_at data 0 2 in
      let^ plain := dhx2_opened K_hash data in
      if negb (mpi_add (mpi_scan nonce) 1 =? mpi_scan (sub 0 16 plain)) then quit (-1)
      else
        let new_serverNonce := mpi_add (mpi_scan (sub 16 16 plain)) 1 in
        need (room + 2 + 528) ;;^
        let (nonce_binary, _) := print_padded new_serverNonce (zero_bytes 16) len in
        let payload := nonce_binary ++ field 256 newpasswd ++ field 256 passwd in
        placed (room + 2 + 528) (name ++ be_put 2 ID ++ payload) ;;^
        check (cipher_setiv CAST5_CBC dhx_c2siv) ;;^
        let^ crypted := checked (cipher_encrypt CAST5_CBC K_hash dhx_c2siv payload) in
        let^ ai := placed (room + 2 + 528) (name ++ be_put 2 ID ++ crypted) in
        send_only (afp_changepassword (str "DHX2") ai)).

(** ** The registry's functions (lib/uams.c) *)

Definition noauth_login : Auth E Z := send_only (afp_login version (str "No User Authent") []).

Definition do_server_passwd (m : uam_method) (username passwd newpasswd : list Z) : Auth E Z :=
  match m with
  | Cleartxt => cleartxt_passwd username passwd newpasswd
  | Randnum | Randnum2 => randnum_passwd username passwd newpasswd
  | Dhx => dhx_passwd username passwd newpasswd
  | Dhx2 => dhx2_passwd username passwd newpasswd
  | Noauth | Srp => aret kFPCallNotSupported
  end.

End Exchanges.

(** The SRP login (lib/uams_srp.c) and the choice of a method's functions
    (lib/uams.c). *)

Definition SRP_INIT_MARKER : Z := 0x0001.
Definition SRP_CLIENT_PROOF : Z := 0x0003.
Definition SRP_SHA1_LEN : Z := 20.
Definition SRP_MAX_NBYTES : Z := 256.
Definition SRP_AUTH_FAILURE : Z := -6754.
Definition SRP_REPLY : Z := 2 + 2 + 2 + SRP_MAX_NBYTES + 2 + SRP_MAX_NBYTES + 2 + 64 + 2 + SRP_MAX_NBYTES.

(** From the first byte that is not zero on, the last byte at least. *)
Fixpoint strip_leading_zeros (buf : list Z) : list Z :=
  match buf with
  | b :: ((_ :: _) as r) => if b =? 0 then strip_leading_zeros r else buf
  | _ => buf
  end.

Definition xor_bytes (a b : list Z) : list Z := zip_with Z.lxor a b.

(** A number taken from bytes in 32 bits. *)
Definition g_value (bytes : list Z) : Z := foldl (fun v b => Z.lor (u32 (Z.shiftl v 8)) b) 0 bytes.

(** ** What the server sends *)

Record srp_params := SrpParams { N_raw : list Z; g_raw : list Z; salt : list Z; B_raw : list Z }.

(** A field with its length in two bytes at [d]: the field and where it ends. *)
Definition srp_field (data : list Z) (size max d : Z) : option (list Z * Z) :=
  if d + 2 >? size then None
  else
    let n := be_at data d 2 in
    if (n >? max) || (d + 2 + n >? size) then None else Some (sub (d + 2) n data, d + 2 + n).

(** The salt's length has no limit of its own. *)
Definition parse_srp (data : list Z) (size : Z) : option srp_params :=
  if size <? 8 then None
  else
    match srp_field data size SRP_MAX_NBYTES 4 with
    | None => None
    | Some (N, d) =>
        match srp_field data size SRP_MAX_NBYTES d with
        | None => None
        | Some (g, d) =>
            match srp_field data size UINT16_MAX d with
            | None => None
            | Some (salt, d) =>
                match srp_field data size SRP_MAX_NBYTES d with
                | None => None
                | Some (B, _) => Some (SrpParams N g salt B)
                end
            end
        end
    end.

Section Srp.
Context {E : Type} `{AuthEnv E} `{Gcrypt}.
Context (version : list Z) (afp_version : Z) (uninit : Z) (stack : list Z).

(** Without memory for its handle the hash goes through a null pointer. *)
Definition sha1_multi (parts : list (list Z)) : Auth E (list Z) :=
  let^ ok := acall MdOpen in if ok : bool then aret (sha1 (concat parts)) else stray.

(** The rounds of MGF1 until [out_len] bytes, one for each 20 bytes. *)
Fixpoint mgf1_loop (rounds : nat) (seed : list Z) (counter out_len : Z) : Auth E (list Z) :=
  match rounds with
  | O => aret []
  | S rounds =>
      if out_len <=? 0 then aret []
      else
        let^ ok := acall MdOpen in
        check ok ;;^
        let hash := sha1 (seed ++ be_put 4 counter) in
        let to_copy := Z.min out_len SRP_SHA1_LEN in
        let^ rest := mgf1_loop rounds seed (counter + 1) (out_len - to_copy) in
        aret (take (Z.to_nat to_copy) hash ++ rest)
  end.
Definition mgf1_sha1 (seed : list Z) (out_len : Z) : Auth E (list Z) := mgf1_loop (Z.to_nat out_len) seed 0 out_len.

(** The client's secret and its public part, which is not zero. *)
Fixpoint ephemeral (fuel : nat) (nbytes g N : Z) : Auth E (Z * Z) :=
  match fuel with
  | O => endless
  | S fuel =>
      let^ a_binary := acall (Randomize nbytes) in
      let a := mpi_mod (mpi_scan a_binary) N in
      let A := mpi_powm g a N in
      if A =? 0 then ephemeral fuel nbytes g N else aret (a, A)
  end.

Definition username_bytes (username : list Z) : list Z := take (Z.to_nat (user_len username)) username.

(** x = SHA1(salt | SHA1(username | ":" | password)) *)
Definition srp_x (username passwd salt : list Z) : Auth E Z :=
  let pass := take (Z.to_nat (strnlen passwd AFP_MAX_PASSWORD_LEN)) passwd in
  let^ inner := sha1_multi [username_bytes username; str ":"; pass] in
  let^ x_hash := sha1_multi [salt; inner] in
  aret (mpi_scan x_hash).

(** [B] padded to the size of N: it is copied to the end of a buffer's first
    [nbytes] bytes, before the buffer if it is longer. *)
Definition padded_B (nbytes : Z) (B : list Z) : Auth E (list Z) :=
  if zlen B >? nbytes then stray else aret (zero_bytes (nbytes - zlen B) ++ B).

Definition padded_g (nbytes : Z) (g_val : Z) : Auth E (list Z) :=
  if nbytes <? 1 then stray else aret (zero_bytes (nbytes - 1) ++ [u8 g_val]).

(** M1 = SHA1(H(N)^H(g) | H(username) | salt | strip(A) | strip(B) | K) *)
Definition srp_M1 (username : list Z) (q : srp_params) (A_buf K : list Z) : Auth E (list Z) :=
  let^ H_N := sha1_multi [strip_leading_zeros (N_raw q)] in
  let^ H_g := sha1_multi [[u8 (g_value (g_raw q))]] in
  let^ H_user := sha1_multi [username_bytes username] in
  sha1_multi [xor_bytes H_N H_g; H_user; salt q; strip_leading_zeros A_buf; strip_leading_zeros (B_raw q); K].

(** The client's public part and the key of the session. *)
Definition srp_session (fuel : nat) (username passwd : list Z) (q : srp_params) : Auth E (list Z * list Z) :=
  let nbytes := zlen (N_raw q) in
  let N := mpi_scan (N_raw q) in
  let g := mpi_scan (g_raw q) in
  let B := mpi_scan (B_raw q) in
  check (negb (mpi_mod B N =? 0)) ;;^
  let^ x := srp_x username passwd (salt q) in
  let v := mpi_powm g x N in
  need nbytes ;;^
  let^ e := ephemeral fuel nbytes g N in
  let (a, A) := e : Z * Z in
  let (A_buf, len) := print_padded A (zero_bytes nbytes) uninit in
  let^ B_buf := padded_B nbytes (B_raw q) in
  let^ u_hash := sha1_multi [A_buf; B_buf] in
  let u := mpi_scan u_hash in
  check (negb (u =? 0)) ;;^
  let^ g_padded := padded_g nbytes (g_value (g_raw q)) in
  let^ k_hash := sha1_multi [N_raw q; g_padded] in
  let k := mpi_scan k_hash in
  let diff := mpi_subm B (mpi_mulm k v N) N in
  let S := mpi_powm diff (mpi_add a (mpi_mul u x)) N in
  need nbytes ;;^
  let (S_binary, _) := print_padded S (zero_bytes nbytes) len in
  let^ K := mgf1_sha1 (strip_leading_zeros S_binary) 40 in
  aret (A_buf, K).

Definition srp_proof (A_buf M1 : list Z) : list Z :=
  be_put 2 SRP_CLIENT_PROOF ++ be_put 2 (zlen A_buf) ++ A_buf ++ be_put 2 SRP_SHA1_LEN ++ M1.

(** A proof of the server that does not match is told to the log only. *)
Definition srp_login (fuel : nat) (username passwd : list Z) : Auth E Z := returns (
  check version_ok ;;^
  need SRP_REPLY ;;^
  let^ a := exchange (afp_loginext version (str "SRP") username (be_put 2 SRP_INIT_MARKER)) SRP_REPLY in
  let '(ret, data, size) := a : received in
  if negb (ret =? kFPAuthContinue) then quit (if ret =? SRP_AUTH_FAILURE then kFPUserNotAuth else ret)
  else
    let^ q := checked (parse_srp data size) in
    let^ s := srp_session fuel username passwd q in
    let (A_buf, K) := s : list Z * list Z in
    let^ M1 := srp_M1 username q A_buf K in
    need (2 + 2 + zlen (N_raw q) + 2 + SRP_SHA1_LEN) ;;^
    need (2 + 2 + SRP_SHA1_LEN) ;;^
    let^ a := exchange (afp_logincont 0 (srp_proof A_buf M1)) (2 + 2 + SRP_SHA1_LEN) in
    let '(ret, _, size) := a : received in
    if negb (ret =? 0) then quit (if ret =? SRP_AUTH_FAILURE then kFPUserNotAuth else ret)
    else
      (if size >=? 24 then sha1_multi [strip_leading_zeros A_buf; M1; K] ;;^ aret tt else aret tt) ;;^
      aret 0).

(** ** The choice of the method *)

Definition do_server_login (fuel : nat) (m : uam_method) (username passwd : list Z) : Auth E Z :=
  match m with
  | Noauth => noauth_login version
  | Cleartxt => cleartxt_login version username passwd
  | Randnum => randnum_login version username passwd
  | Randnum2 => randnum2_login version username passwd
  | Dhx => dhx_login version uninit stack username passwd
  | Dhx2 => dhx2_login version uninit username passwd
  | Srp => srp_login fuel username passwd
  end.

Definition login_by (fuel : nat) (uam_base : list afp_uam) (uam : Z) (username passwd : list Z) : Auth E Z :=
  match afp_dologin uam_base uam with
  | None => aret (-1)
  | Some m => do_server_login fuel m username passwd
  end.

Definition passwd_by (uam_base : list afp_uam) (uam : Z) (username oldpasswd newpasswd : list Z) : Auth E Z :=
  match afp_dopasswd uam_base uam with
  | inl r => aret r
  | inr m => do_server_passwd afp_version uninit stack m username oldpasswd newpasswd
  end.

End Srp.
