(* ===== verification/UamProofs.v ===== *)
(** The exchanges of the authentication methods: the key both sides of DHX2
    reach, what has to be shown before the password is sent, and the bounds of
    the buffers. *)
From stdpp Require Import base list.
From Stdlib Require Import Zpow_facts.
From S2P Require Import Prelude AfpProtocol Utils Url Replies Session Uams Gcrypt UamExchanges.
Local Open Scope afp_scope.

(** ** Integers in buffers *)

Lemma be_put_zeros n k v : 0 <= v < 256 ^ Z.of_nat k -> (k <= n)%nat -> be_put n v = replicate (n - k) 0 ++ be_put k v.
Proof.
  intros Hv Hk. induction n as [|n IH]; [by assert (k = 0%nat) as -> by lia|].
  destruct (decide (k = S n)) as [->|Hne]; [by rewrite Nat.sub_diag|].
  rewrite Nat.sub_succ_l by lia. cbn [replicate app]. rewrite <- IH by lia.
  change (be_put (S n) v) with ((Z.shiftr v (8 * Z.of_nat n)) mod 256 :: be_put n v). f_equal.
  rewrite Z.shiftr_div_pow2 by lia. rewrite Z.div_small; [done|]. split; [lia|]. eapply Z.lt_le_trans; [apply Hv|].
  rewrite Z.pow_mul_r by lia. change (2 ^ 8) with 256. apply Z.pow_le_mono_r; lia.
Qed.

Lemma sub_mid {A} (a b c : list A) off len : zlen a = off -> zlen b = len -> sub off len (a ++ b ++ c) = b.
Proof.
  intros Ha Hb. pose proof (zlen_nonneg b). rewrite sub_app_r by lia. rewrite Ha, Z.sub_diag. rewrite sub_app_l by lia. by apply sub_all.
Qed.

Lemma be_get_mid l a k v c off : l = a ++ be_put k v ++ c -> zlen a = off -> 0 <= v < 256 ^ Z.of_nat k -> be_get (sub off (Z.of_nat k) l) = v.
Proof. intros -> Ha Hv. rewrite sub_mid by (done || apply zlen_be_put). by apply be_get_put_small. Qed.

Section Laws.
Context `{G : Gcrypt} {L : GcryptLaws G}.

Lemma print_padded_fits v buf len : 0 <= v < 256 ^ zlen buf -> fst (print_padded v buf len) = be_put (length buf) v.
Proof.
  intros Hv. unfold print_padded. pose proof (print_law v buf len Hv) as Hp. destruct (mpi_print v buf len) as [b k].
  destruct Hp as (H1 & H2 & H3 & H4). cbn [fst].
  rewrite (be_put_zeros (length buf) (Z.to_nat k) v); [|rewrite Z2Nat.id by lia; lia|unfold zlen in H2; lia].
  destruct (Z.ltb_spec k (zlen buf)) as [Hk|Hk].
  - rewrite H4. f_equal. unfold zero_bytes. f_equal. unfold zlen. lia.
  - assert (k = zlen buf) as -> by lia. rewrite <- H4. unfold zlen at 1 2. rewrite Nat2Z.id, Nat.sub_diag. cbn [replicate app].
    symmetry. apply take_ge. unfold zlen in H1. lia.
Qed.

Lemma pow_swap g a b m : 0 <= a -> 0 <= b -> 0 < m -> (g ^ a mod m) ^ b mod m = (g ^ b mod m) ^ a mod m.
Proof.
  intros Ha Hb Hm. rewrite <- !Zpower_mod by done. rewrite <- !Z.pow_mul_r by done. by rewrite (Z.mul_comm a b).
Qed.

End Laws.

(** ** Requests that are answered *)

Section Answered.
Context {E : Type} `{AuthEnv E}.

Lemma abind_fine {A B} (m : Auth E A) (k : A -> Auth E B) e a e' : m e = (Fine a, e') -> abind m k e = k a e'.
Proof. intros Hm. unfold abind. by rewrite Hm. Qed.

Lemma need_granted n e e' : answer_auth (Calloc n) e = (true, e') -> need n e = (Fine tt, e').
Proof. intros Hc. unfold need, abind, acall. by rewrite Hc. Qed.

Lemma returns_fine (m : Auth E Z) e r e' : m e = (Fine r, e') -> returns m e = (Fine r, e').
Proof. intros Hm. unfold returns. by rewrite Hm. Qed.

Lemma exchange_answered request m e e1 rc reply e2 :
  answer_auth (Calloc (HEADER + zlen request)) e = (true, e1) -> answer_auth (SendRequest request) e1 = ((rc, reply), e2) ->
  0 < zlen reply <= m -> m < 2 ^ 31 ->
  exchange request m e = (Fine (rc, reply ++ zero_bytes (m - zlen reply), zlen reply), e2).
Proof.
  intros H1 H2 Hl Hm. unfold exchange, abind, acall. rewrite H1. cbn [negb]. rewrite H2. unfold aret, afp_login_reply. cbn [snd].
  rewrite (u32_small (HEADER + zlen reply - HEADER)) by lia. replace (HEADER + zlen reply - HEADER) with (zlen reply) by lia.
  rewrite (proj2 (Z.gtb_lt _ _)) by lia. rewrite Z.min_l by lia.
  rewrite sub_app_r by (rewrite zlen_zero_bytes; unfold HEADER; lia). rewrite zlen_zero_bytes by (unfold HEADER; lia).
  by rewrite Z.sub_diag, sub_all.
Qed.

Lemma send_only_answered request e e1 a e2 :
  answer_auth (Calloc (HEADER + zlen request)) e = (true, e1) -> answer_auth (SendRequest request) e1 = (a, e2) ->
  send_only request e = (Fine (fst a), e2).
Proof. intros H1 H2. unfold send_only, abind, acall. rewrite H1. cbn [negb]. by rewrite H2. Qed.

Lemma placed_fits n bytes (e : E) : zlen bytes <= n -> placed n bytes e = (Fine (bytes ++ zero_bytes (n - zlen bytes)), e).
Proof. intros Hn. unfold placed. by rewrite (proj2 (Z.leb_le _ _)). Qed.

Lemma placed_exact n bytes (e : E) : zlen bytes = n -> placed n bytes e = (Fine bytes, e).
Proof. intros Hn. rewrite placed_fits by lia. rewrite Hn, Z.sub_diag. by rewrite app_nil_r. Qed.

Lemma read_within_fits data off n (e : E) : off + n <= zlen data -> read_within data off n e = (Fine (sub off n data), e).
Proof. intros Hn. unfold read_within. by rewrite (proj2 (Z.leb_le _ _)). Qed.

End Answered.

(** ** Names and passwords in their fields *)

Lemma pascal_len username : no_nul username -> zlen username <= AFP_MAX_USERNAME_LEN ->
  zlen (copy_to_pascal username) = 1 + zlen username /\ user_len username = zlen username.
Proof.
  unfold AFP_MAX_USERNAME_LEN. intros Hn Hl. pose proof (zlen_nonneg username). unfold user_len, copy_to_pascal, AFP_MAX_USERNAME_LEN, UINT8_MAX.
  rewrite !strnlen_id by (done || lia). rewrite zlen_cons, zlen_take. lia.
Qed.

Lemma zlen_field m passwd : zlen passwd < m -> zlen (field m passwd) = m.
Proof. intros Hl. pose proof (zlen_nonneg passwd). unfold field. rewrite strlcpy_fits by done. rewrite zlen_app, zlen_zero_bytes; lia. Qed.

Lemma field_ok m passwd : bytes_ok passwd -> bytes_ok (field m passwd).
Proof.
  intros Hb. unfold field. apply Forall_app. split; [unfold strlcpy; by apply Forall_take|]. unfold zero_bytes. apply Forall_replicate. unfold byte_ok. lia.
Qed.

(** ** DHX2 against its server *)

Section Dhx2.
Context `{G : Gcrypt} {L : GcryptLaws G}.
Context (p g n Rb id : Z) (server_nonce password : list Z) (Ra nonce : list Z).

(** A server of the protocol with the prime [p] of [n] bytes, the generator
    [g], its secret [Rb] and a nonce of its own, for a user with [password]. It
    keeps the hash of the key from the second message on. *)
Definition dhx2_serve (r : list Z) (s : option (list Z)) : (Z * list Z) * option (list Z) :=
  if byte_at r 0 =? afpLogin then
    ((kFPAuthContinue, be_put 2 id ++ be_put 4 g ++ be_put 2 n ++ be_put (Z.to_nat n) p ++ be_put (Z.to_nat n) (g ^ Rb mod p)), None)
  else
    let body := drop 4 r in
    match s with
    | None =>
        let K_hash := md5 (be_put (Z.to_nat n) (be_get (take (Z.to_nat n) body) ^ Rb mod p)) in
        match cipher_decrypt CAST5_CBC K_hash dhx_c2siv (drop (Z.to_nat n) body) with
        | Some c =>
            match cipher_encrypt CAST5_CBC K_hash dhx_s2civ (be_put 16 (be_get c + 1) ++ server_nonce) with
            | Some e => ((kFPAuthContinue, be_put 2 (id + 1) ++ e), Some K_hash)
            | None => ((kFPParamErr, []), None)
            end
        | None => ((kFPParamErr, []), None)
        end
    | Some K_hash =>
        match cipher_decrypt CAST5_CBC K_hash dhx_c2siv body with
        | Some plain =>
            ((if (be_at r 2 2 =? id + 1) && list_eqb (take 16 plain) (be_put 16 (be_get server_nonce + 1))
                 && list_eqb (until_nul (drop 16 plain)) password
              then kFPNoErr else kFPUserNotAuth, []), s)
        | None => ((kFPParamErr, []), s)
        end
    end.

Definition dhx2_answer A (c : acmd A) (s : option (list Z)) : A * option (list Z) :=
  match c in acmd A return A * option (list Z) with
  | Calloc _ => (true, s)
  | Randomize _ => (Ra, s)
  | CreateNonce _ => (nonce, s)
  | CipherOpen _ => (true, s)
  | MdOpen => (true, s)
  | SendRequest r => dhx2_serve r s
  end.
#[local] Instance dhx2_server : AuthEnv (option (list Z)) := dhx2_answer.

Hypothesis prime_ok : 0 < n <= 256 /\ 1 < p < 256 ^ n /\ 0 <= g < 2 ^ 32 /\ 0 <= Rb /\ 0 <= id < 2 ^ 16 - 1.
Hypothesis random_ok : bytes_ok Ra.
Hypothesis nonce_ok : bytes_ok nonce /\ zlen nonce = 16 /\ be_get nonce + 1 < 256 ^ 16.
Hypothesis server_ok : bytes_ok server_nonce /\ zlen server_nonce = 16 /\ be_get server_nonce + 1 < 256 ^ 16.

Definition Mb_value : Z := g ^ Rb mod p.
Definition Ma_value : Z := g ^ be_get Ra mod p.
Definition shared_key : list Z := md5 (be_put (Z.to_nat n) (Mb_value ^ be_get Ra mod p)).

Lemma shared_key_len : zlen shared_key = 16.
Proof. unfold shared_key. destruct (md5_law (be_put (Z.to_nat n) (Mb_value ^ be_get Ra mod p))) as [-> _]. apply md5_dlen_law. Qed.

(** The reply's bytes as the client reads them. *)
Lemma params_read tail :
  let data := (be_put 2 id ++ be_put 4 g ++ be_put 2 n ++ be_put (Z.to_nat n) p ++ be_put (Z.to_nat n) Mb_value) ++ tail in
  be_at data 0 2 = id /\ be_get (sub 2 4 data) = g /\ be_at data 6 2 = n
  /\ be_get (sub 8 n data) = p /\ be_get (sub (8 + n) n data) = Mb_value.
Proof.
  destruct prime_ok as (Hn & Hp & Hg & HR & Hi). intros data. unfold data, be_at. rewrite <- !app_assoc.
  assert (HM : 0 <= Mb_value < 256 ^ n) by (unfold Mb_value; pose proof (Z.mod_pos_bound (g ^ Rb) p ltac:(lia)); lia).
  pose proof (Z2Nat.id n ltac:(lia)) as En. set (k := Z.to_nat n) in *. rewrite <- En in Hp, HM |- *. split_and!.
  - by apply (be_get_mid _ [] 2 id _ 0 eq_refl); [|lia].
  - by apply (be_get_mid _ (be_put 2 id) 4 g _ 2 eq_refl); [rewrite zlen_be_put|lia].
  - eapply (be_get_mid _ (be_put 2 id ++ be_put 4 g) 2 (Z.of_nat k)); [by rewrite <- !app_assoc|by rewrite zlen_app, !zlen_be_put|lia].
  - eapply (be_get_mid _ (be_put 2 id ++ be_put 4 g ++ be_put 2 (Z.of_nat k)) k p); [by rewrite <- !app_assoc|by rewrite !zlen_app, !zlen_be_put|lia].
  - eapply (be_get_mid _ (be_put 2 id ++ be_put 4 g ++ be_put 2 (Z.of_nat k) ++ be_put k p) k Mb_value);
      [by rewrite <- !app_assoc|rewrite !zlen_app, !zlen_be_put; lia|lia].
Qed.

(** A number below the prime, printed with the prime's length. *)
Lemma padded_mod v len : fst (print_padded (v mod p) (zero_bytes n) len) = be_put (Z.to_nat n) (v mod p).
Proof.
  destruct prime_ok as (Hn & Hp & _). pose proof (Z.mod_pos_bound v p ltac:(lia)). rewrite print_padded_fits.
  - unfold zero_bytes. by rewrite length_replicate.
  - rewrite zlen_zero_bytes; lia.
Qed.

Lemma key_reached uninit tail s :
  let data := (be_put 2 id ++ be_put 4 g ++ be_put 2 n ++ be_put (Z.to_nat n) p ++ be_put (Z.to_nat n) Mb_value) ++ tail in
  zlen data = DHX2_REPLY -> exists len, dhx2_key uninit data s = (Fine (id, n, Ma_value, shared_key, len), s).
Proof.
  destruct prime_ok as (Hn & Hp & Hg & HR & Hi). intros data Hd. destruct (params_read tail) as (E1 & E2 & E3 & E4 & E5). fold data in E1, E2, E3, E4, E5.
  unfold DHX2_REPLY in Hd. unfold dhx2_key. rewrite E1, E3, !scan_law, E2. rewrite Z.gtb_ltb, (proj2 (Z.ltb_ge 256 n)) by lia.
  pose proof (proj1 (be_get_range Ra random_ok)) as HRa.
  erewrite abind_fine by (apply read_within_fits; lia). erewrite abind_fine by (apply read_within_fits; lia). cbv zeta. rewrite !scan_law, E4, E5.
  erewrite abind_fine by (by apply need_granted). erewrite abind_fine by done. rewrite !scan_law, !powm_law by lia.
  erewrite abind_fine by (by apply need_granted).
  pose proof (padded_mod (Mb_value ^ be_get Ra) uninit) as Hk. destruct (print_padded (Mb_value ^ be_get Ra mod p) (zero_bytes n) uninit) as [b len].
  simpl in Hk. subst b. erewrite abind_fine by (apply placed_exact; rewrite zlen_be_put; lia). erewrite abind_fine by (by apply need_granted).
  erewrite abind_fine by (apply placed_exact, md5_law). by exists len.
Qed.

(** The key the server computes from the client's part is the client's. *)
Lemma same_key : md5 (be_put (Z.to_nat n) (Ma_value ^ Rb mod p)) = shared_key.
Proof.
  destruct prime_ok as (Hn & Hp & Hg & HR & Hi). pose proof (proj1 (be_get_range Ra random_ok)). unfold shared_key, Ma_value, Mb_value.
  by rewrite pow_swap by lia.
Qed.

(** The second message is answered with the client's nonce, one higher, and
    the server's, under the key both have. *)
Lemma second_answered c s1 :
  cipher_encrypt CAST5_CBC shared_key dhx_c2siv nonce = Some c -> cipher_decrypt CAST5_CBC shared_key dhx_c2siv c = Some nonce ->
  cipher_encrypt CAST5_CBC shared_key dhx_s2civ (be_put 16 (be_get nonce + 1) ++ server_nonce) = Some s1 ->
  dhx2_serve (afp_logincont id (be_put (Z.to_nat n) Ma_value ++ c)) None = ((kFPAuthContinue, be_put 2 (id + 1) ++ s1), Some shared_key).
Proof.
  intros Hc Hd Hs. destruct prime_ok as (Hn & Hp & _). unfold dhx2_serve. change (byte_at _ 0 =? afpLogin) with false. cbv iota zeta.
  assert (HM : 0 <= Ma_value < 256 ^ Z.of_nat (Z.to_nat n)).
  { rewrite Z2Nat.id by lia. unfold Ma_value. pose proof (Z.mod_pos_bound (g ^ be_get Ra) p ltac:(lia)). lia. }
  change (drop 4 (afp_logincont id (be_put (Z.to_nat n) Ma_value ++ c))) with (be_put (Z.to_nat n) Ma_value ++ c).
  rewrite take_app_length', drop_app_length' by (by rewrite be_put_length). rewrite be_get_put_small by done. rewrite same_key, Hd, Hs. done.
Qed.

(** The last message is accepted exactly if it holds the user's password. *)
Lemma third_answered passwd c :
  let plain := be_put 16 (be_get server_nonce + 1) ++ field 256 passwd in
  no_nul passwd -> zlen passwd < 256 -> cipher_decrypt CAST5_CBC shared_key dhx_c2siv c = Some plain ->
  dhx2_serve (afp_logincont (id + 1) c) (Some shared_key)
  = ((if list_eqb passwd password then kFPNoErr else kFPUserNotAuth, []), Some shared_key).
Proof.
  intros plain Hp1 Hp2 Hd. destruct prime_ok as (Hn & Hp & Hg & HR & Hi). unfold dhx2_serve. change (byte_at _ 0 =? afpLogin) with false. cbv iota zeta.
  change (drop 4 (afp_logincont (id + 1) c)) with c. rewrite Hd. unfold plain.
  rewrite take_app_length', drop_app_length' by (by rewrite be_put_length). rewrite list_eqb_refl.
  assert (be_at (afp_logincont (id + 1) c) 2 2 = id + 1) as ->.
  { unfold be_at. apply (be_get_mid _ [afpLoginCont; 0] 2 (id + 1) c 2 eq_refl); [done|lia]. }
  rewrite Z.eqb_refl. cbn [andb]. replace (until_nul (field 256 passwd)) with passwd; [done|].
  unfold field. rewrite strlcpy_fits by lia. replace (zero_bytes (256 - zlen passwd)) with (0 :: zero_bytes (255 - zlen passwd)); [by rewrite until_nul_app_nul|].
  unfold zero_bytes. by replace (Z.to_nat (256 - zlen passwd)) with (S (Z.to_nat (255 - zlen passwd))) by lia.
Qed.

Lemma padded16 v buf len : zlen buf = 16 -> 0 <= v < 256 ^ 16 -> fst (print_padded v buf len) = be_put 16 v.
Proof. intros Hb Hv. rewrite print_padded_fits by (by rewrite Hb). f_equal. unfold zlen in Hb. lia. Qed.

Lemma encrypted key iv data : zlen key = 16 -> zlen iv = 8 -> bytes_ok data -> zlen data mod 8 = 0 ->
  exists e, cipher_encrypt CAST5_CBC key iv data = Some e /\ zlen e = zlen data /\ cipher_decrypt CAST5_CBC key iv e = Some data.
Proof.
  intros Hk Hi Hb Hl. destruct (encrypt_law CAST5_CBC key iv data Hb Hl) as (e & H1 & H2 & H3 & H4); [by apply cast5_key_law|by apply cast5_iv_law|by exists e].
Qed.

(** The start of a login: the parameters of the server. *)
Definition params_reply : list Z :=
  be_put 2 id ++ be_put 4 g ++ be_put 2 n ++ be_put (Z.to_nat n) p ++ be_put (Z.to_nat n) Mb_value.

Lemma zlen_params : zlen params_reply = 8 + 2 * n.
Proof. destruct prime_ok as (Hn & _). unfold params_reply. rewrite !zlen_app, !zlen_be_put. lia. Qed.

Definition second_reply (s1 : list Z) : list Z := be_put 2 (id + 1) ++ s1.

Lemma second_read s1 : zlen s1 = 32 -> be_at (second_reply s1 ++ []) 0 2 = id + 1 /\ sub 2 32 (second_reply s1 ++ []) = s1.
Proof.
  intros Hl. destruct prime_ok as (Hn & Hp & Hg & HR & Hi). rewrite app_nil_r. unfold second_reply. split.
  - unfold be_at. apply (be_get_mid _ [] 2 (id + 1) s1 0 eq_refl); [done|lia].
  - rewrite <- (app_nil_r s1) at 1. apply sub_mid; [by rewrite zlen_be_put|done].
Qed.

(** With the key on both sides the password decides. *)
Lemma proves passwd len :
  no_nul passwd -> bytes_ok passwd -> zlen passwd < 256 ->
  dhx2_prove passwd (id, n, Ma_value, shared_key, len) None
  = (Fine (if list_eqb passwd password then kFPNoErr else kFPUserNotAuth), Some shared_key).
Proof.
  intros Hp1 Hp2 Hp3. destruct prime_ok as (Hn & _). pose proof shared_key_len as HK.
  destruct nonce_ok as (N1 & N2 & N3), server_ok as (S1 & S2 & S3). pose proof (be_get_range nonce N1). pose proof (be_get_range server_nonce S1).
  destruct (encrypted shared_key dhx_c2siv nonce HK eq_refl N1 ltac:(by rewrite N2)) as (c1 & C1 & C2 & C3).
  destruct (encrypted shared_key dhx_s2civ (be_put 16 (be_get nonce + 1) ++ server_nonce) HK eq_refl) as (s1 & D1 & D2 & D3);
    [by apply Forall_app; split; [apply be_put_ok|]|by rewrite zlen_app, zlen_be_put, S2|]. rewrite zlen_app, zlen_be_put, S2 in D2.
  destruct (encrypted shared_key dhx_c2siv (be_put 16 (be_get server_nonce + 1) ++ field 256 passwd) HK eq_refl) as (c2 & F1 & F2 & F3);
    [apply Forall_app; split; [apply be_put_ok|by apply field_ok]|rewrite zlen_app, zlen_be_put, zlen_field by done; done|].
  unfold dhx2_prove. erewrite abind_fine by (unfold dhx2_nonce; erewrite abind_fine by done; erewrite abind_fine by (by apply placed_exact); erewrite abind_fine by done; unfold check;
    rewrite cast5_key_law, cast5_iv_law by done; done).
  erewrite abind_fine by (by apply need_granted). pose proof (padded_mod (g ^ be_get Ra) len) as HMa. fold Ma_value in HMa.
  destruct (print_padded Ma_value (zero_bytes n) len) as [Ma_binary len2]. cbn [fst] in HMa. subst Ma_binary. rewrite C1.
  erewrite abind_fine by done. erewrite abind_fine by (apply placed_exact; rewrite zlen_app, zlen_be_put; lia). erewrite abind_fine by (by apply need_granted).
  erewrite abind_fine by (eapply (exchange_answered _ _ _ _ kFPAuthContinue (second_reply s1));
    [done|by apply second_answered|unfold second_reply; rewrite zlen_app, zlen_be_put; lia|done]).
  cbv iota beta. change (negb (kFPAuthContinue =? kFPAuthContinue)) with false. cbv iota.
  replace (34 - zlen (second_reply s1)) with 0 by (unfold second_reply; rewrite zlen_app, zlen_be_put; lia). change (zero_bytes 0) with (@nil Z).
  destruct (second_read s1 D2) as [-> R2].
  erewrite abind_fine by (unfold dhx2_opened, check; rewrite cast5_iv_law by done; erewrite abind_fine by done; rewrite R2, D3; done).
  rewrite !scan_law, !add_law. pose proof (padded16 (be_get nonce + 1) nonce 32 N2 ltac:(lia)) as Hn16.
  destruct (print_padded (be_get nonce + 1) nonce 32) as [b16 len3]. cbn [fst] in Hn16. subst b16. erewrite abind_fine by (apply placed_exact; by rewrite zlen_be_put).
  rewrite (sub_app_l 0 16), sub_all, list_eqb_refl by (rewrite ?zlen_be_put; lia). cbn [negb].
  rewrite (sub_app_r 16), zlen_be_put by (by rewrite zlen_be_put). rewrite (sub_all 16) by done.
  erewrite abind_fine by (by apply need_granted).
  pose proof (padded16 (be_get server_nonce + 1) (zero_bytes 16) len3 eq_refl ltac:(lia)) as Hs16.
  destruct (print_padded (be_get server_nonce + 1) (zero_bytes 16) len3) as [b16 len4]. cbn [fst] in Hs16. subst b16.
  erewrite abind_fine by (apply placed_exact; by rewrite zlen_app, zlen_be_put, zlen_field).
  erewrite abind_fine by (unfold check; rewrite cast5_iv_law by done; done). rewrite F1. erewrite abind_fine by done.
  erewrite send_only_answered; [|done|by apply third_answered]. done.
Qed.

(** C34: DHX2 delivers the password to its server and nothing else decides the
    login. Against a server of the protocol, whatever its prime of at most 256
    bytes, its generator and secret and whatever the client's random numbers,
    both sides reach the same key, the nonces check, and the login answers
    success exactly if the password is the user's. Nonces of all ones, which
    have no successor of 16 bytes, are left out. *)
Theorem dhx2_login_agrees version uninit username passwd :
  no_nul username -> zlen username <= AFP_MAX_USERNAME_LEN -> no_nul passwd -> bytes_ok passwd -> zlen passwd < 256 ->
  fst (dhx2_login version uninit username passwd None) = Fine (if list_eqb passwd password then kFPNoErr else kFPUserNotAuth).
Proof.
  intros Hu1 Hu2 Hp1 Hp2 Hp3. destruct (pascal_len username Hu1 Hu2) as [P1 P2]. destruct prime_ok as (Hn & _).
  unfold dhx2_login. cbv zeta. erewrite returns_fine; [done|]. rewrite P2.
  erewrite abind_fine by (by apply need_granted). erewrite abind_fine by (apply placed_fits; rewrite P1; destruct (Z.odd _); simpl; lia).
  erewrite abind_fine by (by apply need_granted).
  erewrite abind_fine by (eapply (exchange_answered _ _ _ _ kFPAuthContinue params_reply); [done|done|rewrite zlen_params; unfold DHX2_REPLY; lia|done]).
  cbv iota beta. change (negb (kFPAuthContinue =? kFPAuthContinue)) with false. cbv iota.
  destruct (key_reached uninit (zero_bytes (DHX2_REPLY - zlen params_reply)) None) as (len & Hkey);
    [fold params_reply; rewrite zlen_app, zlen_zero_bytes; rewrite zlen_params; unfold DHX2_REPLY; lia|]. erewrite abind_fine by exact Hkey.
  by apply proves.
Qed.

End Dhx2.

(** ** A library for the examples *)

Definition plain_gcrypt : Gcrypt := {|
  version_ok := true; mpi_scan := be_get; mpi_print := fun v buf _ => (be_put (length buf) v, zlen buf);
  mpi_powm := fun b e m => b ^ e mod m; mpi_mod := Z.modulo; mpi_mulm := fun a b m => (a * b) mod m; mpi_subm := fun a b m => (a - b) mod m;
  mpi_mul := Z.mul; mpi_add := Z.add; md5 := fun bs => be_put 16 (be_get bs); md5_dlen := 16; sha1 := fun bs => be_put 20 (be_get bs mod 251 + 1);
  cipher_setkey := fun _ _ => true; cipher_setiv := fun _ _ => true;
  cipher_encrypt := fun _ _ _ data => Some (rev data); cipher_decrypt := fun _ _ _ data => Some (rev data) |}.

Lemma plain_laws : GcryptLaws plain_gcrypt.
Proof.
  split; try done; cbn.
  - intros v buf len Hv. rewrite zlen_be_put. split; [done|]. pose proof (zlen_nonneg buf). split; [lia|]. split; [lia|].
    rewrite take_ge by (rewrite be_put_length; unfold zlen; lia). f_equal. unfold zlen. lia.
  - intros v buf len. split; [by rewrite zlen_be_put|]. intros _. apply zlen_nonneg.
  - intros bs. split; [by rewrite zlen_be_put|apply be_put_ok].
  - intros bs. split; [by rewrite zlen_be_put|apply be_put_ok].
  - intros c key iv data e He. injection He as <-. unfold zlen. by rewrite length_rev.
  - intros c key iv data Hb Hl _ _. exists (rev data). split; [done|]. split; [unfold zlen; by rewrite length_rev|].
    split; [by apply Forall_rev|by rewrite rev_involutive].
Qed.

(** Properties of the bytes of a literal, by evaluation. *)
Ltac by_bytes := unfold bytes_ok, no_nul, byte_ok; apply (bool_decide_unpack _); vm_compute; exact I.

Definition some_bytes (n : nat) : list Z := map (fun i => Z.of_nat i mod 256) (seq 1 n).

Lemma dhx2_login_agrees_witness :
  let run passwd := fst (@dhx2_login _ (@dhx2_server plain_gcrypt 23 5 1 6 7 (some_bytes 16) (str "secret") [15] (some_bytes 16)) plain_gcrypt
                           (str "AFP3.4") 0 (str "user") passwd None) in
  run (str "secret") = Fine kFPNoErr /\ run (str "Secret") = Fine kFPUserNotAuth.
Proof.
  split; (refine (@dhx2_login_agrees plain_gcrypt plain_laws 23 5 1 6 7 (some_bytes 16) (str "secret") [15] (some_bytes 16) _ _ _ _ (str "AFP3.4") 0 (str "user") _ _ _ _ _ _);
    [lia|by_bytes|split; [by_bytes|split; [reflexivity|vm_compute; reflexivity]]|split; [by_bytes|split; [reflexivity|vm_compute; reflexivity]]
    |by_bytes|vm_compute; discriminate|by_bytes|by_bytes|vm_compute; reflexivity]).
Defined.
