(* ===== verification/UamSecrets.v ===== *)
(** What leaves the client before a server has shown itself: the traces of the
    exchanges, the proof DHX2 asks for before it sends a password, and the one
    SRP does not. *)
From stdpp Require Import base list.
From S2P Require Import Prelude AfpProtocol Utils Url Replies Session Uams Gcrypt UamExchanges UamProofs.
Local Open Scope afp_scope.

(** ** Traces *)

(** The requests sent so far with their answers. *)
Definition Traced (E : Type) : Type := E * list (list Z * (Z * list Z)).

Definition trace_of {A} (c : acmd A) : A -> list (list Z * (Z * list Z)) :=
  match c in acmd A return A -> _ with
  | SendRequest r => fun a => [(r, a)]
  | _ => fun _ => []
  end.

#[export] Instance traced {E} `{AuthEnv E} : AuthEnv (Traced E) :=
  fun A c e => let (a, e') := answer_auth c (fst e) in (a, (e', snd e ++ trace_of c a)).

(** The length of a reply is a number of 32 bits. *)
Class ReplyLengths (E : Type) `{AuthEnv E} : Prop := reply_length : forall r e, zlen (snd (fst (answer_auth (SendRequest r) e))) < 2 ^ 32.

Section Traces.
Context {E : Type} {HE : AuthEnv E} {HR : ReplyLengths E}.

(** Sends nothing. *)
Definition silent {A} (m : Auth (Traced E) A) : Prop := forall e, snd (snd (m e)) = snd e.

(** Sends after what was sent. *)
Definition extends {A} (m : Auth (Traced E) A) : Prop := forall e, exists l, snd (snd (m e)) = snd e ++ l.

Lemma silent_extends {A} (m : Auth (Traced E) A) : silent m -> extends m.
Proof. intros Hm e. exists []. by rewrite app_nil_r. Qed.

Lemma silent_bind {A B} (m : Auth (Traced E) A) (k : A -> Auth (Traced E) B) : silent m -> (forall a, silent (k a)) -> silent (abind m k).
Proof.
  intros Hm Hk e. unfold abind. specialize (Hm e). destruct (m e) as [[a| | |] e']; [|done..]. rewrite Hk. done.
Qed.

Lemma extends_bind {A B} (m : Auth (Traced E) A) (k : A -> Auth (Traced E) B) : extends m -> (forall a, extends (k a)) -> extends (abind m k).
Proof.
  intros Hm Hk e. unfold abind. specialize (Hm e). destruct (m e) as [[a| | |] e']; [|done..]. destruct Hm as [l Hl].
  destruct (Hk a e') as [l' ->]. simpl in Hl. rewrite Hl, <- app_assoc. by eexists.
Qed.

Lemma silent_ret {A} (a : A) : silent (aret a).
Proof. by intros e. Qed.

Lemma silent_quit {A} r : silent (quit (A := A) r).
Proof. by intros e. Qed.

Lemma silent_stray {A} : silent (stray (A := A)).
Proof. by intros e. Qed.

Lemma silent_answer {A} (c : acmd A) (e : Traced E) a e' :
  answer_auth c e = (a, e') -> (forall a, trace_of c a = []) -> snd e' = snd e.
Proof.
  intros Hc Ht. unfold answer_auth, traced in Hc. destruct (answer_auth c (fst e)) as [x e1]. injection Hc as -> <-. simpl. by rewrite Ht, app_nil_r.
Qed.

Lemma silent_call {A} (c : acmd A) : (forall a, trace_of c a = []) -> silent (acall c).
Proof.
  intros Hc e. unfold acall. destruct (answer_auth c e) as [a e'] eqn:Ea. simpl. by apply (silent_answer c e a e').
Qed.

Lemma silent_need n : silent (need n).
Proof. apply silent_bind; [by apply silent_call|]. intros []; [apply silent_ret|apply silent_quit]. Qed.

Lemma silent_check b : silent (check b).
Proof. destruct b; [apply silent_ret|apply silent_quit]. Qed.

Lemma silent_checked {A} (o : option A) : silent (checked o).
Proof. destruct o; [apply silent_ret|apply silent_quit]. Qed.

Lemma extends_send r : extends (acall (SendRequest r)).
Proof. intros e. unfold acall, answer_auth, traced. destruct (answer_auth (SendRequest r) (fst e)) as [a e']. simpl. by eexists. Qed.

Lemma extends_send_only r : extends (send_only r).
Proof.
  apply extends_bind; [by apply silent_extends, silent_call|]. intros []; cbn [negb]; [|apply silent_extends, silent_ret].
  apply extends_bind; [apply extends_send|]. intros a. apply silent_extends, silent_ret.
Qed.

Lemma take_filled m (l : list Z) : 0 <= m ->
  take (Z.to_nat (Z.min (zlen l) m)) l ++ zero_bytes (m - zlen (take (Z.to_nat (Z.min (zlen l) m)) l)) = take (Z.to_nat m) (l ++ zero_bytes m).
Proof.
  intros Hm. pose proof (zlen_nonneg l). rewrite zlen_take. rewrite take_app. unfold zero_bytes. rewrite take_replicate. f_equal.
  - destruct (Z.le_gt_cases (zlen l) m); [rewrite Z.min_l by lia; rewrite !take_ge by (unfold zlen in *; lia); done|by rewrite Z.min_r by lia].
  - f_equal. unfold zlen. lia.
Qed.

(** What an exchange leaves: nothing sent and an answer of -1, or the request
    with its answer, whose first [m] bytes are in the buffer. *)
Lemma exchange_traced r m e a e' :
  exchange r m e = (Fine a, e') -> 0 <= m ->
  (snd e' = snd e /\ fst (fst a) = -1)
  \/ exists reply, snd e' = snd e ++ [(r, (fst (fst a), reply))] /\ snd (fst a) = take (Z.to_nat m) (reply ++ zero_bytes m).
Proof.
  intros He Hm. unfold exchange, abind, acall, aret in He.
  destruct (answer_auth (Calloc (HEADER + zlen r)) e) as [[] e1] eqn:Ea; apply silent_answer in Ea; [|done| |done]; cbn [negb] in He;
    [|injection He as <- <-; by left].
  right. unfold answer_auth at 1, traced in He. pose proof (reply_length r (fst e1)) as Hr.
  destruct (answer_auth (SendRequest r) (fst e1)) as [[rc reply] e2]. cbn [fst snd] in Hr.
  exists reply. unfold afp_login_reply in He. cbn [snd] in He. pose proof (zlen_nonneg reply).
  injection He as <- <-. split; [cbn [snd fst]; rewrite Ea; by destruct (_ >? 0)|].
  rewrite u32_small by (unfold HEADER; lia). replace (HEADER + zlen reply - HEADER) with (zlen reply) by lia.
  destruct (Z.gtb_spec (zlen reply) 0) as [Hp|Hp]; cbn [fst snd].
  - unfold sub. change (Z.to_nat HEADER) with 16%nat. cbn [drop]. apply take_filled; lia.
  - assert (reply = []) as -> by (destruct reply; [done|]; rewrite zlen_cons in Hp; pose proof (zlen_nonneg reply); lia).
    cbn [app]. unfold zero_bytes. by rewrite take_replicate, Nat.min_id.
Qed.

(** ** Runs that differ in a secret *)

(** Both runs are one, or [Q] holds of what the first one sent. *)
Definition same_or {A} (Q : list (list Z * (Z * list Z)) -> Prop) (m1 m2 : Auth (Traced E) A) (e : Traced E) : Prop :=
  m2 e = m1 e \/ Q (snd (snd (m1 e))).

Lemma same_or_bind {A B} Q (m : Auth (Traced E) A) (k1 k2 : A -> Auth (Traced E) B) e :
  (forall a e', m e = (Fine a, e') -> same_or Q (k1 a) (k2 a) e') -> same_or Q (abind m k1) (abind m k2) e.
Proof.
  intros Hk. unfold same_or, abind. destruct (m e) as [[a| | |] e'] eqn:Em; [by apply Hk|by left..].
Qed.

Lemma same_or_returns Q (m1 m2 : Auth (Traced E) Z) e : same_or Q m1 m2 e -> same_or Q (returns m1) (returns m2) e.
Proof. unfold same_or, returns. intros [->|Hq]; [by left|right]. by destruct (m1 e) as [[] e']. Qed.

Lemma same_or_refl {A} Q (m : Auth (Traced E) A) e : same_or Q m m e.
Proof. by left. Qed.

Lemma silent_fine {A} (m : Auth (Traced E) A) e a e' : silent m -> m e = (Fine a, e') -> snd e' = snd e.
Proof. intros Hm He. specialize (Hm e). by rewrite He in Hm. Qed.

Context `{G : Gcrypt}.

(** The server has answered the client's nonce [c], encrypted under a key, with
    the nonce and one under that key. *)
Definition key_shown (log : list (list Z * (Z * list Z))) : Prop :=
  exists first id Ma c reply rest K nonce plain,
    log = [first; (afp_logincont id (Ma ++ c), (kFPAuthContinue, reply))] ++ rest
    /\ cipher_encrypt CAST5_CBC K dhx_c2siv nonce = Some c
    /\ cipher_decrypt CAST5_CBC K dhx_s2civ (sub 2 32 (reply ++ zero_bytes 34)) = Some plain
    /\ sub 0 16 plain = fst (print_padded (mpi_add (mpi_scan nonce) 1) nonce 32).

Lemma key_shown_more log l : key_shown log -> key_shown (log ++ l).
Proof.
  intros (first & id & Ma & c & reply & rest & K & nonce & plain & -> & Hk). exists first, id, Ma, c, reply, (rest ++ l), K, nonce, plain.
  by rewrite <- app_assoc.
Qed.

(** Once the key is shown it stays so. *)
Lemma shown_extends {A} (m1 m2 : Auth (Traced E) A) e : key_shown (snd e) -> extends m1 -> same_or key_shown m1 m2 e.
Proof. intros Hs Hm. right. destruct (Hm e) as [l ->]. by apply key_shown_more. Qed.

Lemma silent_placed n bytes : silent (placed n bytes).
Proof. unfold placed. destruct (_ <=? n); [apply silent_ret|apply silent_stray]. Qed.

Lemma silent_read_within data off n : silent (read_within data off n).
Proof. unfold read_within. destruct (_ <=? _); [apply silent_ret|apply silent_stray]. Qed.

Lemma checked_fine {A} (o : option A) (e : Traced E) a e' : checked o e = (Fine a, e') -> o = Some a /\ e' = e.
Proof. destruct o; cbn; intros Hc; [|done]. by injection Hc as -> ->. Qed.

Lemma opened_plain K data (e : Traced E) plain e' :
  dhx2_opened K data e = (Fine plain, e') -> cipher_decrypt CAST5_CBC K dhx_s2civ (sub 2 32 data) = Some plain.
Proof.
  unfold dhx2_opened, abind, check. destruct (cipher_setiv CAST5_CBC dhx_s2civ); [|done]. intros Hc. by apply checked_fine in Hc as [-> _].
Qed.

Lemma silent_nonce K : silent (dhx2_nonce K).
Proof.
  repeat (apply silent_bind; [by apply silent_call || apply silent_check || apply silent_placed|intros ?]). apply silent_ret.
Qed.

Lemma silent_opened K data : silent (dhx2_opened K data).
Proof. apply silent_bind; [apply silent_check|]. intros _. apply silent_checked. Qed.

Lemma silent_key uninit data : silent (dhx2_key uninit data).
Proof.
  unfold dhx2_key. cbv zeta. destruct (_ >? 256); [apply silent_quit|].
  do 2 (apply silent_bind; [apply silent_read_within|]; intros ?).
  apply silent_bind; [apply silent_need|]. intros _. apply silent_bind; [by apply silent_call|]. intros Ra.
  apply silent_bind; [apply silent_need|]. intros _. destruct (print_padded _ _ _) as [K len]. apply silent_bind; [apply silent_placed|]. intros ?.
  apply silent_bind; [apply silent_need|]. intros _. apply silent_bind; [apply silent_placed|]. intros ?. apply silent_ret.
Qed.

Lemma prove_guarded passwd passwd' k e first :
  snd e = [first] -> same_or key_shown (dhx2_prove passwd k) (dhx2_prove passwd' k) e.
Proof.
  intros He. destruct k as [[[[ID n] Ma] K] len]. unfold dhx2_prove.
  apply same_or_bind. intros nonce e1 H1. apply silent_fine in H1; [|apply silent_nonce].
  apply same_or_bind. intros [] e2 H2. apply silent_fine in H2; [|apply silent_need].
  destruct (print_padded Ma (zero_bytes n) len) as [Ma_binary len2].
  apply same_or_bind. intros c e3 H3. pose proof H3 as Hc. apply silent_fine in H3; [|apply silent_checked].
  apply same_or_bind. intros ai e3' H3'. apply silent_fine in H3'; [|apply silent_placed].
  apply same_or_bind. intros [] e4 H4. apply silent_fine in H4; [|apply silent_need].
  apply same_or_bind. intros [[ret data] size] e5 H5. apply exchange_traced in H5; [|lia].
  cbv iota beta. destruct (negb (ret =? kFPAuthContinue)) eqn:Er; [apply same_or_refl|]. bool_to_prop. subst ret.
  destruct H5 as [[_ H5]|(reply & H5 & Hd)]; [done|]. cbn [fst snd] in H5, Hd.
  apply same_or_bind. intros plain e6 H6. pose proof H6 as Hp. apply silent_fine in H6; [|apply silent_opened].
  destruct (print_padded (mpi_add (mpi_scan nonce) 1) nonce 32) as [nb len3] eqn:En.
  apply same_or_bind. intros nb' e7 H7. apply silent_fine in H7; [|apply silent_placed].
  destruct (negb (list_eqb nb (sub 0 16 plain))) eqn:Eq; [apply same_or_refl|].
  apply shown_extends.
  - exists first, ID, Ma_binary, c, reply, [], K, nonce, plain. rewrite H7, H6, H5, H4, H3', H3, H2, H1, He. split; [done|].
    split; [apply checked_fine in Hc; exact (proj1 Hc)|]. apply opened_plain in Hp. rewrite Hd, sub_take_all in Hp by lia. split; [done|].
    apply negb_false_iff, list_eqb_eq in Eq. by rewrite En, <- Eq.
  - apply extends_bind; [apply silent_extends, silent_need|]. intros _. destruct (print_padded _ _ len3) as [b2 len4].
    apply extends_bind; [apply silent_extends, silent_placed|]. intros ai2.
    apply extends_bind; [apply silent_extends, silent_check|]. intros _. apply extends_bind; [apply silent_extends, silent_checked|]. intros c2.
    apply extends_send_only.
Qed.

(** C35: DHX2 keeps the password until the server has shown the key. Whatever the
    server, the network and the allocator answer, the run of a login does not
    depend on the password at all, the requests, the result and the rest
    included, unless the server has answered the second message with the
    client's nonce and one under the key that encrypted the nonce. *)
Theorem dhx2_password_guarded version uninit username passwd passwd' e :
  dhx2_login version uninit username passwd' (e, []) = dhx2_login version uninit username passwd (e, [])
  \/ key_shown (snd (snd (dhx2_login version uninit username passwd (e, [])))).
Proof.
  apply same_or_returns. apply same_or_bind. intros [] e1 H1. apply silent_fine in H1; [|apply silent_need].
  apply same_or_bind. intros ai e2 H2. apply silent_fine in H2; [|apply silent_placed].
  apply same_or_bind. intros [] e3 H3. apply silent_fine in H3; [|apply silent_need].
  apply same_or_bind. intros [[ret data] size] e4 H4. apply exchange_traced in H4; [|done].
  cbv iota beta. destruct (negb (ret =? kFPAuthContinue)) eqn:Er; [apply same_or_refl|]. bool_to_prop. subst ret.
  destruct H4 as [[_ H4]|(reply & H4 & _)]; [done|]. cbn [fst snd] in H4.
  apply same_or_bind. intros k e5 H5. apply silent_fine in H5; [|apply silent_key].
  eapply prove_guarded. by rewrite H5, H4, H3, H2, H1.
Qed.

End Traces.

(** A server that goes on whatever it gets, without the key. *)
#[local] Instance impostor : AuthEnv unit := fun A c e =>
  match c in acmd A return A * unit with
  | Calloc _ => (true, e)
  | Randomize n => (some_bytes (Z.to_nat n), e)
  | CreateNonce n => (some_bytes (Z.to_nat n), e)
  | CipherOpen _ => (true, e)
  | MdOpen => (true, e)
  | SendRequest _ => ((kFPAuthContinue, [0; 7]), e)
  end.

#[local] Instance impostor_lengths : ReplyLengths unit.
Proof. by intros r e. Qed.

Lemma dhx2_password_guarded_witness :
  let run passwd := @dhx2_login _ traced plain_gcrypt (str "AFP3.4") 0 (str "user") passwd (tt, []) in
  (run (str "other") = run (str "secret") \/ @key_shown plain_gcrypt (snd (snd (run (str "secret")))))
  /\ fst (run (str "secret")) = Fine (-1) /\ length (snd (snd (run (str "secret")))) = 2%nat.
Proof.
  split; [exact (@dhx2_password_guarded unit impostor impostor_lengths plain_gcrypt (str "AFP3.4") 0 (str "user") (str "secret") (str "other") tt)|].
  split; vm_compute; reflexivity.
Defined.
