(* ===== verification/SrpProofs.v ===== *)
(** The SRP login: the key it shares with its server, the server's proof it does
    not insist on, and the parameters that lead it out of its buffers or keep
    it from ending. *)
From stdpp Require Import base list.
From Stdlib Require Import Zpow_facts.
From S2P Require Import Prelude AfpProtocol Utils Url Replies Session Uams Gcrypt UamExchanges UamProofs UamSecrets.
Local Open Scope afp_scope.

(** ** The server's parameters *)

Definition srp_string (bytes : list Z) : list Z := be_put 2 (zlen bytes) ++ bytes.

(** The reply that announces parameters. *)
Definition srp_announced (q : srp_params) : list Z :=
  [0; 0; 0; 2] ++ srp_string (N_raw q) ++ srp_string (g_raw q) ++ srp_string (salt q) ++ srp_string (B_raw q).

Definition params_fit (q : srp_params) : Prop :=
  zlen (N_raw q) <= SRP_MAX_NBYTES /\ zlen (g_raw q) <= SRP_MAX_NBYTES /\ zlen (B_raw q) <= SRP_MAX_NBYTES
  /\ zlen (srp_announced q) <= SRP_REPLY.

Lemma zlen_srp_string l : zlen (srp_string l) = 2 + zlen l.
Proof. unfold srp_string. by rewrite zlen_app, zlen_be_put. Qed.

Lemma srp_field_read a l c size max d :
  zlen a = d -> zlen l <= max -> zlen l < 2 ^ 16 -> d + 2 + zlen l <= size ->
  srp_field (a ++ srp_string l ++ c) size max d = Some (l, d + 2 + zlen l).
Proof.
  intros Ha Hm H16 Hs. pose proof (zlen_nonneg l). unfold srp_field.
  assert (E1 : be_at (a ++ srp_string l ++ c) d 2 = zlen l).
  { unfold be_at. apply (be_get_mid _ a 2 (zlen l) (l ++ c)); [unfold srp_string; by rewrite <- app_assoc|done|lia]. }
  rewrite E1. replace (d + 2 >? size) with false by lia. replace ((zlen l >? max) || (d + 2 + zlen l >? size)) with false by lia.
  replace (a ++ srp_string l ++ c) with ((a ++ be_put 2 (zlen l)) ++ l ++ c) by (unfold srp_string; by rewrite <- !app_assoc).
  do 2 f_equal. apply sub_mid; [rewrite zlen_app, zlen_be_put; lia|done].
Qed.

Lemma parse_announced q tail : params_fit q -> zlen (salt q) < 2 ^ 16 -> parse_srp (srp_announced q ++ tail) (zlen (srp_announced q)) = Some q.
Proof.
  intros (H1 & H2 & H3 & H4) Hs. unfold SRP_MAX_NBYTES in *. pose proof (zlen_nonneg (N_raw q)). pose proof (zlen_nonneg (g_raw q)).
  pose proof (zlen_nonneg (salt q)). pose proof (zlen_nonneg (B_raw q)).
  assert (Hl : zlen (srp_announced q) = 12 + zlen (N_raw q) + zlen (g_raw q) + zlen (salt q) + zlen (B_raw q))
    by (unfold srp_announced; rewrite !zlen_app, !zlen_srp_string; change (zlen [0; 0; 0; 2]) with 4; lia).
  unfold parse_srp. replace (zlen (srp_announced q) <? 8) with false by lia. unfold SRP_MAX_NBYTES. rewrite Hl. unfold srp_announced.
  set (a0 := [0; 0; 0; 2]). rewrite <- !app_assoc.
  rewrite (srp_field_read a0 (N_raw q)) by (done || lia). set (a1 := a0 ++ srp_string (N_raw q)).
  assert (L1 : zlen a1 = 4 + 2 + zlen (N_raw q)) by (unfold a1; rewrite zlen_app, zlen_srp_string; change (zlen a0) with 4; lia).
  rewrite (app_assoc a0). fold a1. rewrite (srp_field_read a1 (g_raw q)) by (done || lia). set (a2 := a1 ++ srp_string (g_raw q)).
  assert (L2 : zlen a2 = zlen a1 + 2 + zlen (g_raw q)) by (unfold a2; rewrite zlen_app, zlen_srp_string; lia).
  rewrite (app_assoc a1). fold a2. rewrite (srp_field_read a2 (salt q)) by (lia || unfold UINT16_MAX; lia). set (a3 := a2 ++ srp_string (salt q)).
  assert (L3 : zlen a3 = zlen a2 + 2 + zlen (salt q)) by (unfold a3; rewrite zlen_app, zlen_srp_string; lia).
  rewrite (app_assoc a2). fold a3. rewrite (srp_field_read a3 (B_raw q)) by lia. by destruct q.
Qed.

(** ** The key of both sides *)

Section Srp.
Context `{G : Gcrypt} {L : GcryptLaws G}.
Context (N g n b : Z) (salt username enrolled random : list Z).

Let user : list Z := username_bytes username.

(** The verifier the server keeps. *)
Definition srp_secret (passwd : list Z) : Z := be_get (sha1 (salt ++ sha1 (user ++ str ":" ++ passwd))).
Definition verifier : Z := g ^ srp_secret enrolled mod N.

Definition N_bytes : list Z := be_put (Z.to_nat n) N.
Definition multiplier : Z := be_get (sha1 (N_bytes ++ zero_bytes (n - 1) ++ [g])).
Definition B_value : Z := (multiplier * verifier + g ^ b) mod N.
Definition B_bytes : list Z := be_put (Z.to_nat n) B_value.
Definition srp_offer : srp_params := SrpParams N_bytes [g] salt B_bytes.

(** MGF1 to 40 bytes. *)
Definition expanded (seed : list Z) : list Z := sha1 (seed ++ be_put 4 0) ++ sha1 (seed ++ be_put 4 1).

Definition proof_of (A_buf K : list Z) : list Z :=
  sha1 (xor_bytes (sha1 (strip_leading_zeros N_bytes)) (sha1 [g]) ++ sha1 user ++ salt
        ++ strip_leading_zeros A_buf ++ strip_leading_zeros B_bytes ++ K).

(** The key the server computes from the client's part. *)
Definition server_key (A_buf : list Z) : list Z :=
  let u := be_get (sha1 (A_buf ++ B_bytes)) in
  expanded (strip_leading_zeros (be_put (Z.to_nat n) ((be_get A_buf * verifier ^ u) ^ b mod N))).

(** A server of the protocol: it announces its parameters and answers the
    client's proof with its own if the proof is right. *)
Definition srp_serve (r : list Z) : Z * list Z :=
  if byte_at r 0 =? afpLoginExt then (kFPAuthContinue, srp_announced srp_offer)
  else
    let A_buf := sub 8 n r in
    let K := server_key A_buf in
    let M1 := sub (8 + n + 2) 20 r in
    if list_eqb M1 (proof_of A_buf K)
    then (0, be_put 2 4 ++ be_put 2 20 ++ sha1 (strip_leading_zeros A_buf ++ M1 ++ K)) else (SRP_AUTH_FAILURE, []).

#[local] Instance srp_server : AuthEnv unit := fun A c e =>
  match c in acmd A return A * unit with
  | Calloc _ => (true, e)
  | Randomize _ => (random, e)
  | CreateNonce _ => (random, e)
  | CipherOpen _ => (true, e)
  | MdOpen => (true, e)
  | SendRequest r => (srp_serve r, e)
  end.

Definition a_value : Z := be_get random mod N.
Definition A_value : Z := g ^ a_value mod N.
Definition A_bytes : list Z := be_put (Z.to_nat n) A_value.
Definition u_value : Z := be_get (sha1 (A_bytes ++ B_bytes)).

Hypothesis group_ok : 0 < n <= 256 /\ 1 < N < 256 ^ n /\ 0 < g < 256 /\ 0 <= b.
Hypothesis salt_ok : zlen salt <= 64.
Hypothesis drawn_ok : bytes_ok random /\ A_value <> 0 /\ B_value <> 0 /\ u_value <> 0.

(** S is the same on both sides. *)
Lemma same_S : ((B_value - (multiplier * verifier) mod N) mod N) ^ (a_value + u_value * srp_secret enrolled) mod N
               = (A_value * verifier ^ u_value) ^ b mod N.
Proof.
  destruct group_ok as (Hn & HN & Hg & Hb).
  assert (Ha : 0 <= a_value) by (unfold a_value; apply Z.mod_pos_bound; lia).
  assert (Hu : 0 <= u_value) by (unfold u_value; apply be_get_range, sha1_law).
  assert (Hx : 0 <= srp_secret enrolled) by (unfold srp_secret; apply be_get_range, sha1_law).
  assert (E1 : (B_value - (multiplier * verifier) mod N) mod N = g ^ b mod N).
  { unfold B_value. rewrite Zminus_mod_idemp_l, Zminus_mod_idemp_r. f_equal. lia. }
  rewrite E1, <- Zpower_mod by lia. unfold A_value, verifier.
  rewrite (Zpower_mod (_ * _)) by lia. rewrite Z.mul_mod_idemp_l by lia. rewrite <- (Z.mul_mod_idemp_r (g ^ a_value)) by lia.
  rewrite <- (Zpower_mod (g ^ srp_secret enrolled)) by lia. rewrite Z.mul_mod_idemp_r by lia. rewrite <- Zpower_mod by lia.
  f_equal. rewrite <- !Z.pow_mul_r, <- Z.pow_add_r, <- Z.pow_mul_r by nia. f_equal. lia.
Qed.

Lemma hashed parts : sha1_multi parts tt = (Fine (sha1 (concat parts)), tt).
Proof. done. Qed.

Lemma mgf1_expanded seed : mgf1_sha1 seed 40 tt = (Fine (expanded seed), tt).
Proof.
  unfold mgf1_sha1. change (Z.to_nat 40) with (S (S (S 37))). generalize 37%nat as k. intros k. cbn [mgf1_loop]. change (40 <=? 0) with false. cbv iota.
  erewrite abind_fine by done. cbn [check]. erewrite abind_fine by done.
  change (40 - Z.min 40 SRP_SHA1_LEN) with 20. change (20 <=? 0) with false. cbv iota.
  change (20 - Z.min 20 SRP_SHA1_LEN) with 0. change (0 <=? 0) with true. cbv iota.
  erewrite abind_fine; [|erewrite abind_fine by done; cbn [check]; erewrite abind_fine by done; erewrite abind_fine by done; done].
  change (Z.min 40 SRP_SHA1_LEN) with 20. change (Z.min 20 SRP_SHA1_LEN) with 20. change (0 + 1) with 1. unfold expanded, aret. rewrite app_nil_r.
  rewrite !take_ge by (destruct (sha1_law (seed ++ be_put 4 0)) as [H0 _], (sha1_law (seed ++ be_put 4 1)) as [H1 _]; unfold zlen in *; lia).
  done.
Qed.

Hypothesis passwd_ok : no_nul enrolled /\ zlen enrolled <= AFP_MAX_PASSWORD_LEN.

Lemma x_computed : srp_x username enrolled salt tt = (Fine (srp_secret enrolled), tt).
Proof.
  destruct passwd_ok as [P1 P2]. unfold srp_x. cbv zeta. rewrite strnlen_id, Z.min_r by (done || unfold AFP_MAX_PASSWORD_LEN in *; lia).
  erewrite abind_fine by apply hashed. erewrite abind_fine by apply hashed. unfold aret. rewrite scan_law. do 2 f_equal.
  unfold srp_secret. cbn [concat]. rewrite !app_nil_r, take_ge by (unfold zlen; lia). done.
Qed.

Lemma ephemeral_drawn fuel : (0 < fuel)%nat -> ephemeral fuel n g N tt = (Fine (a_value, A_value), tt).
Proof.
  destruct fuel as [|fuel]; [lia|]. intros _. destruct group_ok as (Hn & HN & Hg & Hb), drawn_ok as (D1 & D2 & _). cbn [ephemeral].
  erewrite abind_fine by done. rewrite scan_law, mod_law by lia. fold a_value.
  rewrite powm_law by (lia || unfold a_value; apply Z.mod_pos_bound; lia). fold A_value. by rewrite (proj2 (Z.eqb_neq _ _) D2).
Qed.

(** A number below N, printed with the length of N. *)
Lemma printed v len : fst (print_padded (v mod N) (zero_bytes n) len) = be_put (Z.to_nat n) (v mod N).
Proof.
  destruct group_ok as (Hn & HN & _). pose proof (Z.mod_pos_bound v N ltac:(lia)). rewrite print_padded_fits.
  - unfold zero_bytes. by rewrite length_replicate.
  - rewrite zlen_zero_bytes; lia.
Qed.

Lemma zlen_at_n v : zlen (be_put (Z.to_nat n) v) = n.
Proof. destruct group_ok. rewrite zlen_be_put. lia. Qed.

Lemma read_at_n v : 0 <= v < 256 ^ n -> be_get (be_put (Z.to_nat n) v) = v.
Proof. intros Hv. destruct group_ok. apply be_get_put_small. rewrite Z2Nat.id; lia. Qed.

Lemma g_byte : u8 (g_value [g]) = g.
Proof. destruct group_ok as (_ & _ & Hg & _). unfold g_value. cbn [foldl]. change (u32 (Z.shiftl 0 8)) with 0. rewrite Z.lor_0_l. apply u8_small. lia. Qed.

Lemma session_agrees uninit fuel : (0 < fuel)%nat ->
  srp_session uninit fuel username enrolled srp_offer tt = (Fine (A_bytes, server_key A_bytes), tt).
Proof.
  intros Hf. destruct group_ok as (Hn & HN & Hg & Hb), drawn_ok as (D1 & D2 & D3 & D4).
  pose proof (Z.mod_pos_bound (multiplier * verifier + g ^ b) N ltac:(lia)) as HB. fold B_value in HB.
  pose proof (Z.mod_pos_bound (g ^ a_value) N ltac:(lia)) as HA. fold A_value in HA.
  unfold srp_session. cbn [N_raw g_raw B_raw UamExchanges.salt srp_offer]. assert (EN : zlen N_bytes = n) by apply zlen_at_n.
  assert (ENv : be_get N_bytes = N) by (apply read_at_n; lia). assert (EBv : be_get B_bytes = B_value) by (apply read_at_n; lia).
  assert (EB : zlen B_bytes = n) by apply zlen_at_n. rewrite EN, !scan_law, ENv, EBv. change (be_get [g]) with g. rewrite mod_law, (Z.mod_small B_value) by lia.
  rewrite (proj2 (Z.eqb_neq _ _) D3). cbn [negb check]. erewrite abind_fine by done. erewrite abind_fine by apply x_computed.
  assert (Hx : 0 <= srp_secret enrolled) by (unfold srp_secret; apply be_get_range, sha1_law).
  rewrite powm_law by lia. fold verifier. erewrite abind_fine by (by apply need_granted). erewrite abind_fine by (by apply ephemeral_drawn). cbv beta iota.
  pose proof (printed (g ^ a_value) uninit) as HAp. fold A_value A_bytes in HAp.
  destruct (print_padded A_value (zero_bytes n) uninit) as [A_buf len]. cbn [fst] in HAp. subst A_buf.
  unfold padded_B. rewrite EB. replace (n >? n) with false by lia. rewrite Z.sub_diag. change (zero_bytes 0 ++ B_bytes) with B_bytes.
  erewrite abind_fine by done. erewrite abind_fine by apply hashed. cbn [concat]. rewrite app_nil_r, scan_law. fold u_value.
  rewrite (proj2 (Z.eqb_neq _ _) D4). cbn [negb check]. erewrite abind_fine by done. unfold padded_g. replace (n <? 1) with false by lia.
  rewrite g_byte. erewrite abind_fine by done. erewrite abind_fine by apply hashed. cbn [concat]. rewrite app_nil_r, scan_law. fold multiplier.
  rewrite mulm_law, subm_law, mul_law, add_law by lia.
  assert (Hu : 0 <= u_value) by (unfold u_value; apply be_get_range, sha1_law).
  assert (Ha : 0 <= a_value) by (unfold a_value; apply Z.mod_pos_bound; lia).
  rewrite powm_law by nia. rewrite same_S. erewrite abind_fine by (by apply need_granted).
  pose proof (printed ((A_value * verifier ^ u_value) ^ b) len) as HSp. destruct (print_padded _ (zero_bytes n) len) as [S_buf len2]. cbn [fst] in HSp. subst S_buf.
  erewrite abind_fine by apply mgf1_expanded. unfold aret, server_key. fold u_value. assert (be_get A_bytes = A_value) as -> by (apply read_at_n; lia). done.
Qed.

Lemma M1_computed A_buf K : srp_M1 username srp_offer A_buf K tt = (Fine (proof_of A_buf K), tt).
Proof.
  unfold srp_M1. cbn [N_raw g_raw B_raw UamExchanges.salt srp_offer]. rewrite g_byte. do 3 erewrite abind_fine by apply hashed.
  rewrite hashed. cbn [concat]. rewrite !app_nil_r. done.
Qed.

(** The proof is read where it was put. *)
Lemma proof_read A_buf M1 : zlen A_buf = n -> zlen M1 = 20 ->
  sub 8 n (afp_logincont 0 (srp_proof A_buf M1)) = A_buf /\ sub (8 + n + 2) 20 (afp_logincont 0 (srp_proof A_buf M1)) = M1.
Proof.
  intros HA HM. set (h := [afpLoginCont; 0] ++ be_put 2 0 ++ be_put 2 SRP_CLIENT_PROOF ++ be_put 2 (zlen A_buf)).
  replace (afp_logincont 0 (srp_proof A_buf M1)) with (h ++ A_buf ++ be_put 2 SRP_SHA1_LEN ++ M1) by (unfold h, afp_logincont, srp_proof; by rewrite <- !app_assoc).
  split; [by apply sub_mid|]. replace (h ++ A_buf ++ be_put 2 SRP_SHA1_LEN ++ M1) with ((h ++ A_buf ++ be_put 2 SRP_SHA1_LEN) ++ M1 ++ [])
    by (by rewrite app_nil_r, <- !app_assoc). apply sub_mid; [|done]. rewrite !zlen_app, zlen_be_put, HA. change (zlen h) with 8. lia.
Qed.

(** C36: SRP logs in to its server. Against a server of the protocol that keeps the
    verifier of the password, for a modulus of up to the 256 bytes the client
    takes, a generator of one byte that is not 0, a salt of at most 64 bytes,
    and random numbers for which the public parts of both sides and the
    scrambling parameter are not 0, the parameters are read as they were sent,
    both sides reach the same key, the server accepts the client's proof, and
    the login answers success. *)
Theorem srp_login_agrees version uninit fuel :
  version_ok = true -> (0 < fuel)%nat ->
  srp_login version uninit fuel username enrolled tt = (Fine 0, tt).
Proof.
  intros Hv Hf. destruct group_ok as (Hn & HN & Hg & Hb). unfold srp_login. rewrite Hv. apply returns_fine. cbn [check]. erewrite abind_fine by done.
  assert (Hl : zlen (srp_announced srp_offer) = 12 + n + 1 + zlen salt + n).
  { unfold srp_announced. rewrite !zlen_app, !zlen_srp_string. cbn [N_raw g_raw B_raw UamExchanges.salt srp_offer]. unfold N_bytes, B_bytes. rewrite !zlen_at_n.
    change (zlen [0; 0; 0; 2]) with 4. change (zlen [g]) with 1. lia. }
  pose proof (zlen_nonneg salt). erewrite abind_fine by (by apply need_granted).
  erewrite abind_fine by (eapply (exchange_answered _ _ _ _ kFPAuthContinue (srp_announced srp_offer)); [done|done|rewrite Hl; unfold SRP_REPLY, SRP_MAX_NBYTES; lia|done]).
  cbv beta iota. change (negb (kFPAuthContinue =? kFPAuthContinue)) with false. cbv iota.
  assert (Hfit : params_fit srp_offer).
  { unfold params_fit. rewrite Hl. cbn [N_raw g_raw B_raw UamExchanges.salt srp_offer]. unfold N_bytes, B_bytes, SRP_MAX_NBYTES, SRP_REPLY. rewrite !zlen_at_n.
    change (zlen [g]) with 1. unfold SRP_MAX_NBYTES. lia. }
  rewrite parse_announced by (done || cbn [UamExchanges.salt srp_offer]; lia). erewrite abind_fine by done. erewrite abind_fine by (by apply session_agrees).
  cbv beta iota. erewrite abind_fine by apply M1_computed. do 2 erewrite abind_fine by (by apply need_granted).
  set (M1 := proof_of A_bytes (server_key A_bytes)). assert (HM : zlen M1 = 20) by apply sha1_law.
  destruct (proof_read A_bytes M1 (zlen_at_n A_value) HM) as [R1 R2].
  assert (Hs : srp_serve (afp_logincont 0 (srp_proof A_bytes M1))
    = (0, be_put 2 4 ++ be_put 2 20 ++ sha1 (strip_leading_zeros A_bytes ++ M1 ++ server_key A_bytes))).
  { unfold srp_serve. change (byte_at _ 0 =? afpLoginExt) with false. cbv iota zeta. rewrite R1, R2. fold M1. by rewrite list_eqb_refl. }
  erewrite abind_fine by (eapply exchange_answered; [done|unfold answer_auth, srp_server; rewrite Hs; done|rewrite !zlen_app, !zlen_be_put, (proj1 (sha1_law _)); done|done]).
  cbv beta iota. change (negb (0 =? 0)) with false. cbv iota. erewrite abind_fine; [done|]. case_if; done.
Qed.

End Srp.

Lemma srp_login_agrees_witness :
  fst (@srp_login unit (@srp_server plain_gcrypt 23 5 1 6 (some_bytes 16) (str "user") (str "secret") [15]) plain_gcrypt (str "AFP3.4") 0 1 (str "user") (str "secret") tt)
  = Fine 0.
Proof.
  refine (f_equal fst (@srp_login_agrees plain_gcrypt plain_laws 23 5 1 6 (some_bytes 16) (str "user") (str "secret") [15] _ _ _ _ (str "AFP3.4") 0 1 _ _)).
  - lia.
  - vm_compute. discriminate.
  - split; [by_bytes|]. split; [vm_compute; discriminate|]. split; vm_compute; discriminate.
  - split; [by_bytes|vm_compute; discriminate].
  - reflexivity.
  - lia.
Defined.

(** ** A server that proves nothing *)

(** Handles of hashes are given out. *)
Class HashesOpen (E : Type) `{AuthEnv E} : Prop := hashes_open : forall e : E, fst (answer_auth MdOpen e) = true.

Section Unproved.
Context {E : Type} {HE : AuthEnv E} {HR : ReplyLengths E} {HO : HashesOpen E} `{G : Gcrypt}.

(** If two requests were sent and the second was answered with 0, the run ends
    with 0. *)
Definition zero_is_success (m : Auth (Traced E) Z) (e : Traced E) : Prop :=
  forall first r reply, snd (snd (m e)) = [first; (r, (0, reply))] -> fst (m e) = Fine 0.

Lemma success_silent {A} (m : Auth (Traced E) A) k e :
  silent m -> (length (snd e) < 2)%nat -> (forall a e', snd e' = snd e -> zero_is_success (k a) e') -> zero_is_success (abind m k) e.
Proof.
  intros Hs Hl Hk first r reply. unfold abind. specialize (Hs e). destruct (m e) as [[a|x| |] e']; cbn [fst snd] in *; [by apply (Hk a e')|..];
    intros E1; rewrite Hs in E1; rewrite E1 in Hl; simpl in Hl; lia.
Qed.

Lemma success_quit r e : (length (snd e) < 2)%nat -> zero_is_success (quit r) e.
Proof. intros Hl first q reply E1. cbn in E1. rewrite E1 in Hl. simpl in Hl. lia. Qed.

Lemma silent_sha1 parts : silent (E := E) (sha1_multi parts).
Proof. apply silent_bind; [by apply silent_call|]. intros []; [apply silent_ret|apply silent_stray]. Qed.

Lemma silent_mgf1 rounds seed counter n : silent (E := E) (mgf1_loop rounds seed counter n).
Proof.
  revert counter n. induction rounds as [|rounds IH]; intros counter n; cbn [mgf1_loop]; [apply silent_ret|].
  destruct (n <=? 0); [apply silent_ret|]. apply silent_bind; [by apply silent_call|]. intros ok. apply silent_bind; [apply silent_check|]. intros _.
  apply silent_bind; [apply IH|]. intros rest. apply silent_ret.
Qed.

Lemma silent_ephemeral fuel n g N : silent (E := E) (ephemeral fuel n g N).
Proof.
  induction fuel as [|fuel IH]; cbn [ephemeral]; [by intros e|]. apply silent_bind; [by apply silent_call|]. intros a.
  destruct (_ =? 0); [exact IH|apply silent_ret].
Qed.

Lemma silent_if_stray {A} (b : bool) (a : A) : silent (E := E) (if b then stray else aret a).
Proof. destruct b; [apply silent_stray|apply silent_ret]. Qed.

Lemma silent_session uninit fuel username passwd q : silent (E := E) (srp_session uninit fuel username passwd q).
Proof.
  unfold srp_session, srp_x. apply silent_bind; [apply silent_check|]. intros _.
  apply silent_bind; [repeat (apply silent_bind; [apply silent_sha1|intros ?]); apply silent_ret|]. intros x.
  apply silent_bind; [apply silent_need|]. intros _. apply silent_bind; [apply silent_ephemeral|]. intros [a A].
  destruct (print_padded A _ uninit) as [A_buf len]. apply silent_bind; [apply silent_if_stray|]. intros B_buf.
  apply silent_bind; [apply silent_sha1|]. intros u. apply silent_bind; [apply silent_check|]. intros _.
  apply silent_bind; [apply silent_if_stray|]. intros g. apply silent_bind; [apply silent_sha1|]. intros k.
  apply silent_bind; [apply silent_need|]. intros _. destruct (print_padded _ _ len) as [S_buf len2].
  apply silent_bind; [apply silent_mgf1|]. intros K. apply silent_ret.
Qed.

Lemma silent_M1 username q A K : silent (E := E) (srp_M1 username q A K).
Proof. repeat (apply silent_bind; [apply silent_sha1|intros ?]). apply silent_sha1. Qed.

Lemma sha1_ends parts (e : Traced E) : exists h e', sha1_multi parts e = (Fine h, e') /\ snd e' = snd e.
Proof.
  unfold sha1_multi, abind, acall. destruct (answer_auth MdOpen e) as [ok e'] eqn:Ea. pose proof (silent_answer MdOpen e ok e' Ea (fun _ => eq_refl)).
  unfold answer_auth, traced in Ea. pose proof (hashes_open (fst e)). destruct (answer_auth MdOpen (fst e)) as [b e2]. injection Ea as -> <-. simpl in *. subst ok. by eexists _, _.
Qed.

Lemma exchange_fine r m (e : Traced E) : exists a e', exchange r m e = (Fine a, e').
Proof.
  unfold exchange, abind, acall. destruct (answer_auth (Calloc _) e) as [[] e1]; [|by eexists _, _]. cbn [negb].
  destruct (answer_auth (SendRequest r) e1) as [[rc reply] e2]. by eexists _, _.
Qed.

Lemma success_exchange r m k e :
  (forall a e', exchange r m e = (Fine a, e') -> zero_is_success (k a) e') -> zero_is_success (abind (exchange r m) k) e.
Proof. intros Hk first q reply. unfold abind. destruct (exchange_fine r m e) as (a & e' & Ex). rewrite Ex. by apply Hk. Qed.

(** C37: SRP takes any server at its word. Whatever the reply to the client's proof
    holds, the server's proof of the key included, a login whose second request
    the server answers with 0 succeeds: a server that knows neither the
    password nor its verifier only has to say so. *)
Theorem srp_server_unproved version uninit fuel username passwd e first r reply :
  snd (snd (srp_login version uninit fuel username passwd (e, []))) = [first; (r, (0, reply))] ->
  fst (srp_login version uninit fuel username passwd (e, [])) = Fine 0.
Proof.
  unfold srp_login. set (body := abind (check version_ok) _). intros Hlog. unfold returns in *.
  enough (Hz : zero_is_success body (e, [])).
  { specialize (Hz first r reply). destruct (body (e, [])) as [[x|x| |] e']; cbn [fst snd] in *; by specialize (Hz Hlog). }
  clear Hlog. subst body. apply success_silent; [apply silent_check|simpl; lia|]. intros [] e1 H1.
  apply success_silent; [apply silent_need|rewrite H1; simpl; lia|]. intros [] e2 H2. rewrite H1 in H2. cbn [snd] in H2.
  apply success_exchange. intros [[ret data] size] e3 H3. apply exchange_traced in H3; [|done]. cbn [fst snd] in H3.
  assert (L3 : (length (snd e3) < 2)%nat) by (destruct H3 as [[-> _]|(reply1 & -> & _)]; rewrite H2; simpl; lia).
  cbv beta iota. destruct (negb (ret =? kFPAuthContinue)); [by apply success_quit|].
  apply success_silent; [apply silent_checked|done|]. intros q e4 H4. apply success_silent; [apply silent_session|by rewrite H4|]. intros [A_buf K] e5 H5.
  apply success_silent; [apply silent_M1|by rewrite H5, H4|]. intros M1 e6 H6.
  apply success_silent; [apply silent_need|by rewrite H6, H5, H4|]. intros [] e7 H7.
  apply success_silent; [apply silent_need|by rewrite H7, H6, H5, H4|]. intros [] e8 H8.
  apply success_exchange. intros [[ret2 data2] size2] e9 H9. apply exchange_traced in H9; [|done]. cbn [fst snd] in H9.
  cbv beta iota. destruct (Z.eqb_spec ret2 0) as [->|Hne]; cbn [negb].
  - intros f2 r2 reply2 _. destruct (size2 >=? 24); [|done]. unfold abind.
    destruct (sha1_ends [strip_leading_zeros A_buf; M1; K] e9) as (h & e10 & Hsha & _). unfold Traced in Hsha. by rewrite Hsha.
  - intros f2 r2 reply2 Hlog. exfalso. cbn in Hlog. rewrite H8, H7, H6, H5, H4 in H9.
    destruct H9 as [[H9 _]|(reply1 & H9 & _)]; rewrite H9 in Hlog; [rewrite Hlog in L3; simpl in L3; lia|].
    destruct (snd e3) as [|x [|y l]]; simpl in Hlog, L3; [done|by injection Hlog as _ _ ?|lia].
Qed.

End Unproved.

(** ** Parameters a server may choose *)

Section Chosen.
Context `{G : Gcrypt} (q : srp_params) (random final : list Z).

(** A server that announces [q] and answers every proof with 0 and [final]. *)
Definition announcing_answer A (c : acmd A) (e : unit) : A * unit :=
  match c in acmd A return A * unit with
  | Calloc _ => (true, e)
  | Randomize _ => (random, e)
  | CreateNonce _ => (random, e)
  | CipherOpen _ => (true, e)
  | MdOpen => (true, e)
  | SendRequest r => (if byte_at r 0 =? afpLoginExt then (kFPAuthContinue, srp_announced q) else (0, final), e)
  end.
#[local] Instance announcing : AuthEnv unit := announcing_answer.

Hypothesis announced_ok : params_fit q /\ zlen (salt q) < 2 ^ 16.
Hypothesis library_ok : version_ok = true.
Hypothesis B_ok : mpi_mod (mpi_scan (B_raw q)) (mpi_scan (N_raw q)) <> 0.

(** The login reaches its computations with the parameters announced. *)
Lemma announced_reach version uninit fuel username passwd o :
  fst (srp_session uninit fuel username passwd q tt) = o -> (o = Stray \/ o = Endless) ->
  srp_login version uninit fuel username passwd tt = (match o with Endless => Endless | _ => Stray end, tt).
Proof.
  intros Ho Hcase. destruct announced_ok as [Hfit Hsalt]. unfold srp_login, returns. rewrite library_ok. cbn [check]. erewrite abind_fine by done.
  erewrite abind_fine by (by apply need_granted).
  assert (Hl : 0 < zlen (srp_announced q) <= SRP_REPLY).
  { split; [|apply Hfit]. unfold srp_announced. rewrite zlen_app. change (zlen [0; 0; 0; 2]) with 4. pose proof (zlen_nonneg (srp_string (N_raw q) ++ srp_string (g_raw q) ++ srp_string (salt q) ++ srp_string (B_raw q))). lia. }
  erewrite abind_fine by (eapply (exchange_answered _ _ _ _ kFPAuthContinue (srp_announced q)); [done|done|exact Hl|done]).
  cbv beta iota. change (negb (kFPAuthContinue =? kFPAuthContinue)) with false. cbv iota.
  rewrite parse_announced by done. erewrite abind_fine by done. unfold abind at 1.
  destruct (srp_session uninit fuel username passwd q tt) as [x []]. simpl in Ho. subst x. by destruct Hcase as [-> | ->].
Qed.

Lemma x_ends username passwd : exists x, srp_x username passwd (salt q) tt = (Fine x, tt).
Proof. by eexists. Qed.

(** SRP writes outside of its buffer. A server that announces a public part
    longer than its modulus, both within the limits the client checks, makes
    the login copy it before the start of a buffer on the stack. *)
Theorem srp_long_part_strays version uninit fuel username passwd :
  (0 < fuel)%nat -> zlen (N_raw q) < zlen (B_raw q) ->
  mpi_powm (mpi_scan (g_raw q)) (mpi_mod (mpi_scan random) (mpi_scan (N_raw q))) (mpi_scan (N_raw q)) <> 0 ->
  srp_login version uninit fuel username passwd tt = (Stray, tt).
Proof.
  intros Hf Hlong HA. rewrite (announced_reach version uninit fuel username passwd Stray); [done| |by left].
  unfold srp_session. cbv zeta. rewrite (proj2 (Z.eqb_neq _ _) B_ok). cbn [negb check]. erewrite abind_fine by done.
  destruct (x_ends username passwd) as [x Hx]. erewrite abind_fine by exact Hx. erewrite abind_fine by (by apply need_granted).
  destruct fuel as [|fuel]; [lia|]. erewrite abind_fine by (cbn [ephemeral]; erewrite abind_fine by done; rewrite (proj2 (Z.eqb_neq _ _) HA); done).
  cbv beta iota. destruct (print_padded _ _ uninit) as [A_buf len]. unfold padded_B. by replace (zlen (B_raw q) >? zlen (N_raw q)) with true by lia.
Qed.

(** SRP need not end. A server that announces the generator 0 keeps the login
    drawing secrets for ever, as long as none of them is a multiple of the
    modulus: the public part is 0 every time. *)
Theorem srp_zero_generator_endless {L : GcryptLaws G} version uninit fuel username passwd :
  be_get (g_raw q) = 0 -> 1 < be_get (N_raw q) -> be_get random mod be_get (N_raw q) <> 0 ->
  srp_login version uninit fuel username passwd tt = (Endless, tt).
Proof.
  intros Hg HN HR. rewrite (announced_reach version uninit fuel username passwd Endless); [done| |by right].
  unfold srp_session. cbv zeta. rewrite (proj2 (Z.eqb_neq _ _) B_ok). cbn [negb check]. erewrite abind_fine by done.
  destruct (x_ends username passwd) as [x Hx]. erewrite abind_fine by exact Hx. erewrite abind_fine by (by apply need_granted).
  rewrite !scan_law, Hg. unfold abind at 1.
  assert (He : ephemeral fuel (zlen (N_raw q)) 0 (be_get (N_raw q)) tt = (Endless, tt)); [|by rewrite He].
  induction fuel as [|fuel IH]; [done|]. cbn [ephemeral]. erewrite abind_fine by done. rewrite scan_law, mod_law by lia.
  rewrite powm_law by (lia || apply Z.mod_pos_bound; lia). rewrite Z.pow_0_l by (pose proof (Z.mod_pos_bound (be_get random) (be_get (N_raw q)) ltac:(lia)); lia).
  exact IH.
Qed.

End Chosen.

(** ** Examples *)

Definition small_group (g : Z) (B : list Z) : srp_params := SrpParams [23] [g] (some_bytes 16) B.

Lemma small_fit g B : zlen B <= 256 -> params_fit (small_group g B) /\ zlen (salt (small_group g B)) < 2 ^ 16.
Proof.
  intros HB. split; [|done]. unfold params_fit, srp_announced, SRP_MAX_NBYTES, SRP_REPLY. rewrite !zlen_app, !zlen_srp_string.
  cbn [N_raw g_raw B_raw salt small_group]. change (zlen [23]) with 1. change (zlen [g]) with 1. change (zlen (some_bytes 16)) with 16.
  change (zlen [0; 0; 0; 2]) with 4. unfold SRP_MAX_NBYTES. lia.
Qed.

#[local] Instance announcing_lengths q random final : zlen (srp_announced q) <= SRP_REPLY -> zlen final < 2 ^ 31 -> @ReplyLengths unit (announcing q random final).
Proof.
  intros Hq Hf r e. unfold answer_auth, announcing, announcing_answer. cbn [fst snd]. destruct (byte_at r 0 =? afpLoginExt); cbn [snd]; [|lia].
  unfold SRP_REPLY, SRP_MAX_NBYTES in Hq. lia.
Qed.

#[local] Instance announcing_hashes q random final : @HashesOpen unit (announcing q random final).
Proof. by intros e. Qed.

Lemma srp_server_unproved_witness :
  let server := announcing (small_group 5 [9]) [15] (zero_bytes 24) in
  let run := @srp_login _ (@traced unit server) plain_gcrypt (str "AFP3.4") 0 1 (str "user") (str "secret") (tt, []) in
  fst run = Fine 0 /\ length (snd (snd run)) = 2%nat.
Proof.
  cbv zeta. split; [|vm_compute; reflexivity].
  eapply (@srp_server_unproved unit (announcing (small_group 5 [9]) [15] (zero_bytes 24))
    (announcing_lengths (small_group 5 [9]) [15] (zero_bytes 24) ltac:(vm_compute; discriminate) ltac:(vm_compute; reflexivity)) (announcing_hashes _ _ _) plain_gcrypt).
  vm_compute. reflexivity.
Defined.

Lemma srp_long_part_strays_witness :
  @srp_login _ (announcing (small_group 5 [1; 9]) [15] []) plain_gcrypt (str "AFP3.4") 0 1 (str "user") (str "secret") tt = (Stray, tt).
Proof.
  refine (@srp_long_part_strays plain_gcrypt (small_group 5 [1; 9]) [15] [] (small_fit 5 [1; 9] ltac:(vm_compute; discriminate)) eq_refl _ (str "AFP3.4") 0 1 (str "user") (str "secret") _ _ _).
  - vm_compute. discriminate.
  - lia.
  - reflexivity.
  - vm_compute. discriminate.
Defined.

Lemma srp_zero_generator_endless_witness :
  @srp_login _ (announcing (small_group 0 [9]) [15] []) plain_gcrypt (str "AFP3.4") 0 1000 (str "user") (str "secret") tt = (Endless, tt).
Proof.
  refine (@srp_zero_generator_endless plain_gcrypt (small_group 0 [9]) [15] [] (small_fit 0 [9] ltac:(vm_compute; discriminate)) eq_refl _ plain_laws (str "AFP3.4") 0 1000 (str "user") (str "secret") _ _ _).
  - vm_compute. discriminate.
  - reflexivity.
  - vm_compute. reflexivity.
  - vm_compute. discriminate.
Defined.

