(* ===== verification/UamBounds.v ===== *)
(** The buffers of the authentication methods, and the rotation of a key. *)
From stdpp Require Import base list.
From S2P Require Import Prelude AfpProtocol Utils Url Replies Session Uams Gcrypt UamExchanges UamProofs.
Local Open Scope afp_scope.

(** ** Buffers *)

(** Nonces have the length asked for, and replies are bytes. *)
Class AuthBytes (E : Type) `{AuthEnv E} : Prop := {
  nonce_length : forall n (e : E), 0 <= n -> zlen (fst (answer_auth (CreateNonce n) e)) = n;
  reply_bytes : forall r (e : E), bytes_ok (snd (fst (answer_auth (SendRequest r) e))) }.

Section Bounds.
Context {E : Type} {HE : AuthEnv E}.

(** A run that stays within its buffers. *)
Definition inside {A} (m : Auth E A) : Prop := forall e, fst (m e) <> Stray.

Lemma inside_bind {A B} (m : Auth E A) (k : A -> Auth E B) : inside m -> (forall e a e', m e = (Fine a, e') -> fst (k a e') <> Stray) -> inside (abind m k).
Proof. intros Hm Hk e. unfold abind. specialize (Hm e). destruct (m e) as [[a| | |] e'] eqn:Em; [by apply (Hk e)|done..]. Qed.

Lemma inside_then {A B} (m : Auth E A) (k : A -> Auth E B) : inside m -> (forall a, inside (k a)) -> inside (abind m k).
Proof. intros Hm Hk. apply inside_bind; [done|]. intros e a e' _. apply Hk. Qed.

Lemma inside_call {A} (c : acmd A) : inside (acall c).
Proof. intros e. unfold acall. by destruct (answer_auth c e). Qed.

Lemma inside_ret {A} (a : A) : inside (aret a).
Proof. by intros e. Qed.

Lemma inside_quit {A} r : inside (quit (A := A) r).
Proof. by intros e. Qed.

Lemma inside_need n : inside (need n).
Proof. apply inside_then; [apply inside_call|]. intros []; [apply inside_ret|apply inside_quit]. Qed.

Lemma inside_check b : inside (check b).
Proof. destruct b; [apply inside_ret|apply inside_quit]. Qed.

Lemma inside_checked {A} (o : option A) : inside (checked o).
Proof. destruct o; [apply inside_ret|apply inside_quit]. Qed.

Lemma inside_placed n bytes : zlen bytes <= n -> inside (placed n bytes).
Proof. intros Hn e. by rewrite placed_fits. Qed.

Lemma inside_exact {A} n bytes (k : list Z -> Auth E A) : zlen bytes = n -> inside (k bytes) -> inside (abind (placed n bytes) k).
Proof. intros Hn Hk e. unfold abind. rewrite placed_exact by done. apply Hk. Qed.

Lemma inside_filled {A} n bytes (k : list Z -> Auth E A) :
  zlen bytes <= n -> (forall b, zlen b = n -> inside (k b)) -> inside (abind (placed n bytes) k).
Proof.
  intros Hn Hk e. unfold abind. rewrite placed_fits by done. apply Hk. pose proof (zlen_nonneg bytes). rewrite zlen_app, zlen_zero_bytes by lia. lia.
Qed.

Lemma inside_read_within data off n : off + n <= zlen data -> inside (read_within data off n).
Proof. intros Hn e. by rewrite read_within_fits. Qed.

Lemma inside_checked_bind {A B} (o : option A) (k : A -> Auth E B) : (forall a, o = Some a -> inside (k a)) -> inside (abind (checked o) k).
Proof. intros Hk e. unfold abind. destruct o as [a|]; [by apply (Hk a)|done]. Qed.

Lemma inside_send_only r : inside (send_only r).
Proof. apply inside_then; [apply inside_call|]. intros []; cbn [negb]; [|apply inside_ret]. apply inside_then; [apply inside_call|]. intros a. apply inside_ret. Qed.

Lemma inside_exchange r n : inside (exchange r n).
Proof.
  apply inside_then; [apply inside_call|]. intros []; cbn [negb]; [|apply inside_ret]. apply inside_then; [apply inside_call|]. intros [rc reply].
  apply inside_ret.
Qed.

Lemma inside_returns m : inside m -> inside (returns m).
Proof. intros Hm e. unfold returns. specialize (Hm e). by destruct (m e) as [[] e']. Qed.

End Bounds.

Create HintDb bounds.
#[local] Hint Resolve inside_call inside_ret inside_quit inside_need inside_check inside_checked inside_send_only inside_exchange : bounds.

(** Through the steps of a run. *)
Ltac stay :=
  repeat match goal with
  | |- inside (returns _) => apply inside_returns
  | |- inside (abind _ _) => apply inside_then; [solve [eauto with bounds]|intros ?]
  | |- inside (let (_, _) := ?x in _) => destruct x
  | |- inside (if ?b then _ else _) => destruct b
  | |- inside _ => solve [eauto with bounds]
  end.

Section Methods.
Context {E : Type} {HE : AuthEnv E} {HN : AuthBytes E} `{G : Gcrypt} {L : GcryptLaws G}.
Context (version : list Z) (afp_version uninit : Z) (stack username : list Z).
Hypothesis username_ok : no_nul username /\ zlen username <= AFP_MAX_USERNAME_LEN.
Hypothesis stack_ok : 0 <= uninit /\ zlen stack = 16.

Lemma inside_des key data : inside (E := E) (des_encrypt key data).
Proof. unfold des_encrypt. stay. Qed.

Lemma zlen_password8 p : zlen (password8 p) = 8.
Proof.
  unfold password8. cbv zeta. unfold strnlen. pose proof (until_nul_le (take (Z.to_nat 8) p)). rewrite zlen_take in *. pose proof (zlen_nonneg (until_nul (take (Z.to_nat 8) p))).
  rewrite zlen_app, zlen_take, zlen_zero_bytes; lia.
Qed.

Lemma zlen_print v buf len : 0 <= len -> zlen (fst (print_padded v buf len)) = zlen buf /\ 0 <= snd (print_padded v buf len).
Proof.
  intros Hl. unfold print_padded. pose proof (print_bounds v buf len) as Hp. destruct (mpi_print v buf len) as [b k]. destruct Hp as [H1 H2].
  specialize (H2 Hl). cbn [fst snd]. split; [|done]. destruct (Z.ltb_spec k (zlen buf)); [|done]. rewrite zlen_app, zlen_take, zlen_zero_bytes; lia.
Qed.

Lemma block_fits tail : 0 <= tail -> zlen (snd (name_block username tail)) + tail <= 1 + user_len username + 1 + tail.
Proof.
  intros Ht. destruct username_ok as [U1 U2]. destruct (pascal_len username U1 U2) as [P1 P2]. unfold name_block. rewrite P1, P2.
  destruct (Z.odd _); cbn [snd]; rewrite ?zlen_app, P1; change (zlen [0]) with 1; lia.
Qed.

Lemma inside_cleartxt passwd : inside (E := E) (cleartxt_login version username passwd).
Proof.
  unfold cleartxt_login. apply inside_returns. apply inside_then; [eauto with bounds|]. intros _. pose proof (block_fits 8 ltac:(lia)) as Hb.
  destruct (name_block username 8) as [len name]. cbn [snd] in Hb. apply inside_then; [apply inside_placed; rewrite zlen_app, zlen_password8; lia|]. intros _. stay.
Qed.

Lemma changed_fits tail : 0 <= tail ->
  let '(allocated, _, name) := changed_block afp_version username tail in zlen name + tail <= allocated.
Proof.
  intros Ht. unfold changed_block. destruct (afp_version >=? 30); [change (zlen [0; 0]) with 2; lia|]. pose proof (block_fits tail Ht) as Hb.
  by destruct (name_block username tail).
Qed.

Lemma inside_cleartxt_passwd passwd newpasswd : inside (E := E) (cleartxt_passwd afp_version username passwd newpasswd).
Proof.
  unfold cleartxt_passwd. apply inside_returns. pose proof (changed_fits 16 ltac:(lia)) as Hb. destruct (changed_block afp_version username 16) as [[allocated len] name].
  apply inside_then; [eauto with bounds|]. intros _. apply inside_then; [apply inside_placed; rewrite !zlen_app, !zlen_password8; lia|]. intros _. stay.
Qed.

Lemma des_length key data (e : E) c e' : des_encrypt key data e = (Fine c, e') -> zlen c = zlen data.
Proof.
  unfold des_encrypt, abind, acall, check, checked. destruct (answer_auth (CipherOpen DES_ECB) e) as [[] e1]; [|done]. cbn.
  destruct (cipher_setkey DES_ECB key); [|done]. cbn. destruct (cipher_encrypt DES_ECB key [] data) as [x|] eqn:Ec; [|done]. cbn. intros He. injection He as <- <-.
  by apply encrypt_length in Ec.
Qed.

Lemma inside_randnum_passwd passwd newpasswd : inside (E := E) (randnum_passwd afp_version username passwd newpasswd).
Proof.
  unfold randnum_passwd. apply inside_returns. do 2 (apply inside_exact; [apply zlen_password8|]). pose proof (changed_fits 16 ltac:(lia)) as Hb. destruct (changed_block afp_version username 16) as [[allocated len] name].
  apply inside_then; [eauto with bounds|]. intros _. apply inside_then; [apply inside_placed; lia|]. intros _.
  apply inside_bind; [apply inside_des|]. intros e1 old e2 Ho. apply des_length in Ho. rewrite zlen_password8 in Ho. revert e2.
  apply inside_bind; [apply inside_des|]. intros e2 new e3 Hn. apply des_length in Hn. rewrite zlen_password8 in Hn. revert e3.
  apply inside_then; [apply inside_placed; rewrite !zlen_app; lia|]. intros _. stay.
Qed.

Lemma inside_start uam : inside (E := E) (randnum_start version uam username).
Proof.
  destruct username_ok as [U1 U2]. destruct (pascal_len username U1 U2) as [P1 P2].
  unfold randnum_start. do 2 (apply inside_then; [eauto with bounds|]; intros _). apply inside_then; [apply inside_placed; lia|]. intros ai. stay.
Qed.

(** The number a start answers has at most the 8 bytes of its field. *)
Lemma start_number uam (e : E) ID number e' : randnum_start version uam username e = (Fine (ID, number), e') -> zlen number <= 8.
Proof.
  unfold randnum_start. cbv zeta. unfold abind at 1. destruct (need 10 e) as [[[]| | |] e1]; [|done..]. unfold abind at 1.
  destruct (need _ e1) as [[[]| | |] e2]; [|done..]. unfold abind at 1. destruct (placed _ _ e2) as [[ai| | |] e3]; [|done..]. unfold abind.
  destruct (exchange _ _ e3) as [[[[ret data] size]| | |] e4]; [|done..]. destruct (negb _); [done|]. unfold aret. intros Hx. injection Hx as <- <- <-.
  by apply zlen_sub_le.
Qed.

Lemma nonce_answered n (e : E) x e' : 0 <= n -> acall (CreateNonce n) e = (Fine x, e') -> zlen x = n.
Proof. intros Hn Hx. unfold acall in Hx. pose proof (nonce_length n e Hn) as Hl. destruct (answer_auth _ e). cbn in Hl. by injection Hx as -> ->. Qed.

Lemma inside_randnum passwd : inside (E := E) (randnum_login version username passwd).
Proof.
  unfold randnum_login. apply inside_returns. apply inside_bind; [apply inside_start|]. intros e1 [ID number] e2 Hn. apply start_number in Hn. revert e2.
  do 2 (apply inside_then; [eauto with bounds|]; intros ?). apply inside_exact; [apply zlen_password8|]. apply inside_then; [eauto with bounds|]. intros _.
  apply inside_checked_bind. intros c Hc. apply encrypt_length in Hc. apply inside_filled; [lia|]. intros b _. stay.
Qed.

Lemma inside_randnum2 passwd : inside (E := E) (randnum2_login version username passwd).
Proof.
  unfold randnum2_login. apply inside_returns. apply inside_bind; [apply inside_start|]. intros e1 [ID number] e2 Hn. apply start_number in Hn. revert e2.
  do 2 (apply inside_then; [eauto with bounds|]; intros ?). apply inside_exact; [apply zlen_password8|]. do 2 (apply inside_then; [eauto with bounds|]; intros _).
  apply inside_checked_bind. intros c Hc. apply encrypt_length in Hc. apply inside_bind; [eauto with bounds|]. intros e3 mine e4 Hm. apply nonce_answered in Hm; [|lia]. revert e4.
  apply inside_filled; [rewrite zlen_app; lia|]. intros ai _. apply inside_then; [eauto with bounds|]. intros _. apply inside_then; [eauto with bounds|].
  intros [[ret data] size]. destruct (negb _); [apply inside_quit|]. apply inside_checked_bind. intros x Hx. apply encrypt_length in Hx.
  apply inside_filled; [lia|]. intros b _. stay.
Qed.

Lemma zlen_any_field m p : 1 <= m -> zlen (field m p) = m.
Proof. intros Hm. unfold field, strlcpy. pose proof (zlen_nonneg p). rewrite zlen_app, zlen_zero_bytes; rewrite zlen_take; lia. Qed.

Lemma checked_some {A} (o : option A) (e : E) a e' : checked o e = (Fine a, e') -> o = Some a.
Proof. destruct o; cbn; intros Hc; [|done]. by injection Hc as -> ->. Qed.

Lemma zlen_pad b : zlen (pad_if b) = Z.b2z b.
Proof. by destruct b. Qed.

(** The key fits its 16 bytes, and the print leaves a length. *)
Lemma inside_dhx_nonce Ra p data len : 0 <= len -> inside (E := E) (dhx_nonce stack Ra p data len).
Proof.
  intros Hl. unfold dhx_nonce. cbv zeta. destruct (zlen_print (mpi_powm (mpi_scan (sub 2 16 data)) Ra p) stack len Hl) as [H1 _].
  destruct (print_padded _ stack len) as [b k]. apply inside_filled; [cbn [fst] in H1; lia|]. intros K _. stay.
Qed.

Lemma dhx_nonce_len Ra p data len (e : E) K nn len' e' : 0 <= len -> dhx_nonce stack Ra p data len e = (Fine (K, nn, len'), e') -> 0 <= len'.
Proof.
  intros Hl. unfold dhx_nonce. cbv zeta. destruct (zlen_print (mpi_powm (mpi_scan (sub 2 16 data)) Ra p) stack len Hl) as [_ H2].
  destruct (print_padded _ stack len) as [b k]. cbn [snd] in H2. unfold abind at 1. destruct (placed 16 b e) as [[K0| | |] e0]; [|done..].
  unfold abind, acall, check, checked. destruct (answer_auth (CipherOpen CAST5_CBC) e0) as [[] e1]; [|done]. cbn.
  destruct (cipher_setkey _ _); [|done]. cbn. destruct (cipher_setiv _ _); [|done]. cbn. destruct (cipher_decrypt _ _ _ _); [|done]. cbn. intros He. by injection He as <- <- <- <-.
Qed.

Lemma inside_dhx passwd : inside (E := E) (dhx_login version uninit stack username passwd).
Proof.
  destruct username_ok as [U1 U2], stack_ok as [S1 S2]. destruct (pascal_len username U1 U2) as [P1 P2]. unfold dhx_login. apply inside_returns.
  apply inside_then; [eauto with bounds|]. intros Ra. cbv zeta. apply inside_then; [eauto with bounds|]. intros _.
  destruct (zlen_print (mpi_powm (mpi_scan g_binary) (mpi_scan Ra) (mpi_scan p_binary)) (zero_bytes 16) uninit S1) as [Z1 Z2].
  destruct (print_padded _ (zero_bytes 16) uninit) as [Ma_binary len]. cbn [fst snd] in Z1, Z2. rewrite P1, P2.
  apply inside_then; [apply inside_placed; rewrite !zlen_app, zlen_pad, P1, Z1; change (zlen (zero_bytes 16)) with 16; lia|]. intros ai.
  apply inside_then; [eauto with bounds|]. intros _. apply inside_then; [eauto with bounds|]. intros [[ret data] size]. destruct (negb _); [apply inside_quit|].
  apply inside_then; [by apply inside_dhx_nonce|]. intros [[K nn] len2]. apply inside_then; [eauto with bounds|]. intros _.
  destruct (zlen_print nn (zero_bytes 16) 32 ltac:(lia)) as [Z3 _]. destruct (print_padded nn (zero_bytes 16) 32) as [nb len3]. cbn [fst] in Z3.
  apply inside_filled; [rewrite zlen_app, zlen_any_field, Z3 by lia; done|]. intros ai2 _. stay.
Qed.

Lemma even_fits : 0 <= fst (even_name afp_version username) /\ zlen (snd (even_name afp_version username)) = fst (even_name afp_version username).
Proof.
  destruct username_ok as [U1 U2]. destruct (pascal_len username U1 U2) as [P1 P2]. pose proof (zlen_nonneg username). unfold even_name.
  destruct (afp_version >=? 30); [done|]. cbn [fst snd]. rewrite P2, zlen_app, zlen_pad, P1. destruct (Z.odd _); cbn [Z.b2z]; lia.
Qed.

Lemma inside_dhx_passwd passwd newpasswd : inside (E := E) (dhx_passwd afp_version uninit stack username passwd newpasswd).
Proof.
  destruct stack_ok as [S1 S2]. destruct even_fits as [F1 F2]. unfold dhx_passwd. apply inside_returns. apply inside_then; [eauto with bounds|]. intros Ra. cbv zeta.
  destruct (even_name afp_version username) as [room name]. cbn [fst snd] in F1, F2. apply inside_then; [eauto with bounds|]. intros _.
  destruct (zlen_print (mpi_powm (mpi_scan g_binary) (mpi_scan Ra) (mpi_scan p_binary)) (zero_bytes 16) uninit S1) as [Z1 Z2].
  destruct (print_padded _ (zero_bytes 16) uninit) as [Ma_binary len]. cbn [fst snd] in Z1, Z2. change (zlen (zero_bytes 16)) with 16 in Z1.
  apply inside_then; [apply inside_placed; rewrite !zlen_app, F2, Z1; change (zlen [0; 0]) with 2; lia|]. intros ai.
  apply inside_then; [eauto with bounds|]. intros _. apply inside_then; [eauto with bounds|]. intros [[ret data] size]. destruct (negb _); [apply inside_quit|].
  destruct (negb _); [apply inside_quit|]. apply inside_bind; [by apply inside_dhx_nonce|]. intros e1 [[K nn] len2] e2 Hn. apply dhx_nonce_len in Hn; [|done]. revert e2.
  apply inside_then; [eauto with bounds|]. intros _. destruct (zlen_print nn (zero_bytes 16) len2 Hn) as [Z3 _].
  destruct (print_padded nn (zero_bytes 16) len2) as [nb len3]. cbn [fst] in Z3. change (zlen (zero_bytes 16)) with 16 in Z3.
  apply inside_then; [apply inside_placed; rewrite !zlen_app, zlen_be_put, F2, Z3, !zlen_any_field by lia; lia|]. intros ai2. stay.
Qed.

Lemma bytes_ok_zeros n : bytes_ok (zero_bytes n).
Proof. unfold zero_bytes. apply Forall_replicate. unfold byte_ok. lia. Qed.

(** What an exchange leaves in the buffer are bytes. *)
Lemma exchange_bytes r n (e : E) rc data size e' : exchange r n e = (Fine (rc, data, size), e') -> bytes_ok data.
Proof.
  unfold exchange, abind, acall. destruct (answer_auth (Calloc _) e) as [[] e1]; cbn [negb]; [|intros Hx; injection Hx as <- <- <- <-; apply bytes_ok_zeros].
  pose proof (reply_bytes r e1) as Hb. destruct (answer_auth (SendRequest r) e1) as [[c reply] e2]. cbn [fst snd] in Hb. unfold aret.
  destruct (snd (afp_login_reply _ _ _)) as [d|] eqn:Ed; intros Hx; injection Hx as <- <- <- <-; [|apply bytes_ok_zeros].
  unfold afp_login_reply in Ed. cbn [snd] in Ed. destruct (_ >? 0); [|done]. injection Ed as <-. apply Forall_app. split; [|apply bytes_ok_zeros].
  apply bytes_ok_sub. change (bytes_ok (zero_bytes HEADER ++ reply)). apply Forall_app. split; [apply bytes_ok_zeros|done].
Qed.

(** An exchange leaves a buffer of the length it was given. *)
Lemma exchange_length r n (e : E) rc data size e' : 0 <= n -> exchange r n e = (Fine (rc, data, size), e') -> zlen data = n.
Proof.
  intros Hn. unfold exchange, abind, acall. destruct (answer_auth (Calloc _) e) as [[] e1]; cbn [negb]; [|intros Hx; injection Hx as <- <- <- <-; by apply zlen_zero_bytes].
  destruct (answer_auth (SendRequest r) e1) as [[c reply] e2]. unfold aret.
  destruct (snd (afp_login_reply _ _ _)) as [d|] eqn:Ed; intros Hx; injection Hx as <- <- <- <-; [|by apply zlen_zero_bytes].
  unfold afp_login_reply in Ed. cbn [snd] in Ed. set (k := u32 _) in *. destruct (_ >? 0) eqn:Ek; [|done]. injection Ed as <-. bool_to_prop.
  set (s := sub _ _ _). assert (zlen s <= n) by (unfold s; etransitivity; [apply zlen_sub_le|]; lia). rewrite zlen_app, zlen_zero_bytes; lia.
Qed.

(** The server's numbers lie within the reply, the key and its hash within
    their buffers. *)
Lemma inside_key data : bytes_ok data -> zlen data = DHX2_REPLY -> inside (E := E) (dhx2_key uninit data).
Proof.
  destruct stack_ok as [S1 _]. intros Hb Hd. unfold DHX2_REPLY in Hd. pose proof (be_at_range data 6 2 Hb ltac:(lia)) as Hn. unfold dhx2_key. cbv zeta.
  set (n := be_at data 6 2) in *. destruct (Z.gtb_spec n 256); [apply inside_quit|].
  do 2 (apply inside_then; [apply inside_read_within; lia|]; intros ?). do 3 (apply inside_then; [eauto with bounds|]; intros ?).
  match goal with |- context [print_padded ?v ?b uninit] => destruct (zlen_print v b uninit S1) as [Z1 _]; destruct (print_padded v b uninit) as [K_binary len] end.
  rewrite zlen_zero_bytes in Z1 by lia. apply inside_exact; [done|]. apply inside_then; [eauto with bounds|]. intros _.
  apply inside_exact; [apply md5_law|]. apply inside_ret.
Qed.

Lemma dhx2_key_length data (e : E) ID n Ma K len e' :
  dhx2_key uninit data e = (Fine (ID, n, Ma, K, len), e') -> n = be_at data 6 2 /\ 0 <= len.
Proof.
  destruct stack_ok as [S1 _]. unfold dhx2_key. cbv zeta. destruct (_ >? 256); [done|]. do 2 (unfold abind at 1; unfold read_within at 1; destruct (_ <=? zlen data); [|done]).
  unfold need, abind, acall, aret. destruct (answer_auth (Calloc _) e) as [[] e1]; [|done]. destruct (answer_auth (Randomize _) e1) as [Ra e2].
  destruct (answer_auth (Calloc _) e2) as [[] e3]; [|done].
  match goal with |- context [print_padded ?v ?b uninit] => destruct (zlen_print v b uninit S1) as [_ Hl]; destruct (print_padded v b uninit) as [b1 len1] end.
  cbn [snd] in Hl. destruct (placed _ b1 e3) as [[Kb| | |] e4]; [|done..]. destruct (answer_auth (Calloc _) e4) as [[] e5]; [|done].
  destruct (placed _ _ e5) as [[Kh| | |] e6]; [|done..]. intros Hx. by injection Hx as <- <- <- <- <- <-.
Qed.

Lemma inside_nonce K : inside (E := E) (dhx2_nonce K).
Proof.
  unfold dhx2_nonce. apply inside_bind; [eauto with bounds|]. intros e1 x e2 Hx. apply nonce_answered in Hx; [|lia]. revert e2.
  apply inside_exact; [done|]. stay.
Qed.

Lemma dhx2_nonce_length K (e : E) nonce e' : dhx2_nonce K e = (Fine nonce, e') -> zlen nonce = 16.
Proof.
  unfold dhx2_nonce, abind at 1. destruct (acall (CreateNonce 16) e) as [[x| | |] e1] eqn:Ex; [|done..]. apply nonce_answered in Ex; [|lia].
  unfold abind at 1. rewrite placed_exact by done. unfold abind, acall, check.
  destruct (answer_auth (CipherOpen _) e1) as [[] e2]; [|done]. cbn. destruct (cipher_setkey _ _); [|done]. cbn. destruct (cipher_setiv _ _); [|done]. cbn.
  intros Hx. by injection Hx as <- <-.
Qed.

Lemma inside_opened K data : inside (E := E) (dhx2_opened K data).
Proof. unfold dhx2_opened. stay. Qed.

(** The rest of a login: the client's part and the nonce, then the password. *)
Lemma inside_prove passwd ID n Ma K len : 0 <= n -> 0 <= len -> inside (E := E) (dhx2_prove passwd (ID, n, Ma, K, len)).
Proof.
  intros Hn Hl. unfold dhx2_prove. apply inside_bind; [apply inside_nonce|]. intros e1 nonce e2 H16. apply dhx2_nonce_length in H16. revert e2.
  apply inside_then; [eauto with bounds|]. intros _. destruct (zlen_print Ma (zero_bytes n) len Hl) as [Z1 _].
  destruct (print_padded Ma (zero_bytes n) len) as [Ma_binary l1]. cbn [fst] in Z1. rewrite zlen_zero_bytes in Z1 by lia.
  apply inside_checked_bind. intros c Hc. apply encrypt_length in Hc. apply inside_filled; [rewrite zlen_app; lia|]. intros _ _.
  apply inside_then; [eauto with bounds|]. intros _. apply inside_then; [eauto with bounds|]. intros [[ret data] size]. destruct (negb _); [apply inside_quit|].
  apply inside_then; [apply inside_opened|]. intros plain.
  destruct (zlen_print (mpi_add (mpi_scan nonce) 1) nonce 32 ltac:(lia)) as [Z2 Z2']. destruct (print_padded _ nonce 32) as [nb l2]. cbn [fst snd] in Z2, Z2'.
  apply inside_exact; [lia|]. destruct (negb _); [apply inside_quit|]. apply inside_then; [eauto with bounds|]. intros _.
  destruct (zlen_print (mpi_add (mpi_scan (sub 16 16 plain)) 1) (zero_bytes 16) l2 Z2') as [Z3 _]. destruct (print_padded _ (zero_bytes 16) l2) as [sb l3]. cbn [fst] in Z3.
  apply inside_exact; [by rewrite zlen_app, zlen_any_field, Z3 by lia|]. stay.
Qed.

Lemma inside_dhx2 passwd : inside (E := E) (dhx2_login version uninit username passwd).
Proof.
  destruct username_ok as [U1 U2]. destruct (pascal_len username U1 U2) as [P1 P2]. unfold dhx2_login. apply inside_returns. cbv zeta. rewrite P2.
  apply inside_then; [eauto with bounds|]. intros _. apply inside_then; [apply inside_placed; rewrite P1; destruct (Z.odd _); cbn [Z.b2z]; lia|]. intros ai.
  apply inside_then; [eauto with bounds|]. intros _. apply inside_bind; [eauto with bounds|]. intros e1 [[ret data] size] e2 Hx.
  pose proof Hx as Hd; apply exchange_length in Hd; [|done]. apply exchange_bytes in Hx. revert e2. destruct (negb _); [by intros e2|].
  apply inside_bind; [by apply inside_key|]. intros e2 [[[[ID n] Ma] K] len] e3 Hk. apply dhx2_key_length in Hk as [-> Hl]. revert e3.
  apply inside_prove; [|done]. apply (be_at_range data 6 2 Hx). lia.
Qed.

(** The exchange a change of password starts with, and the key. *)
Lemma inside_dhx2_passwd passwd newpasswd : inside (E := E) (dhx2_passwd afp_version uninit username passwd newpasswd).
Proof.
  destruct even_fits as [F1 F2]. unfold dhx2_passwd. apply inside_returns. destruct (even_name afp_version username) as [room name]. cbn [fst snd] in F1, F2.
  apply inside_then; [eauto with bounds|]. intros _. apply inside_then; [apply inside_placed; lia|]. intros ai. apply inside_then; [eauto with bounds|]. intros _.
  apply inside_bind; [eauto with bounds|]. intros e1 [[ret data] size] e2 Hx. pose proof Hx as Hd; apply exchange_length in Hd; [|done].
  apply exchange_bytes in Hx. revert e2. destruct (negb _); [by intros e2|]. apply inside_bind; [by apply inside_key|]. intros e2 [[[[ID n] Mb] K] len] e3 Hk. apply dhx2_key_length in Hk as [-> Hl]. revert e3.
  pose proof (be_at_range data 6 2 Hx ltac:(lia)) as Hn. set (n := be_at data 6 2) in *.
  apply inside_bind; [apply inside_nonce|]. intros e3 nonce e4 H16. apply dhx2_nonce_length in H16. revert e4.
  apply inside_then; [eauto with bounds|]. intros _. destruct (zlen_print Mb (zero_bytes n) len Hl) as [Z1 Z2].
  destruct (print_padded Mb (zero_bytes n) len) as [b1 l1]. cbn [fst snd] in Z1, Z2. rewrite zlen_zero_bytes in Z1 by lia.
  apply inside_bind; [eauto with bounds|]. intros e4 c e5 Ec. apply checked_some, encrypt_length in Ec. revert e5.
  apply inside_then; [apply inside_placed; rewrite !zlen_app, zlen_be_put; lia|]. intros ai2. apply inside_then; [eauto with bounds|]. intros _.
  apply inside_then; [eauto with bounds|]. intros [[ret2 data2] size2]. destruct (negb _); [apply inside_quit|]. apply inside_then; [apply inside_opened|]. intros plain.
  destruct (negb _); [apply inside_quit|]. apply inside_then; [eauto with bounds|]. intros _.
  destruct (zlen_print (mpi_add (mpi_scan (sub 16 16 plain)) 1) (zero_bytes 16) l1 Z2) as [Z3 _]. destruct (print_padded _ (zero_bytes 16) l1) as [nb l2].
  cbn [fst] in Z3. change (zlen (zero_bytes 16)) with 16 in Z3.
  apply inside_then; [apply inside_placed; rewrite !zlen_app, zlen_be_put, !zlen_any_field, Z3 by lia; lia|]. intros _. apply inside_then; [eauto with bounds|]. intros _.
  apply inside_bind; [eauto with bounds|]. intros e6 c2 e7 Ec2. apply checked_some, encrypt_length in Ec2. revert e7.
  rewrite !zlen_app, !zlen_any_field, Z3 in Ec2 by lia.
  apply inside_then; [apply inside_placed; rewrite !zlen_app, zlen_be_put; lia|]. intros ai3. stay.
Qed.

Lemma inside_passwd m passwd newpasswd : inside (E := E) (do_server_passwd afp_version uninit stack m username passwd newpasswd).
Proof.
  destruct m; cbn [do_server_passwd];
    [apply inside_ret|apply inside_cleartxt_passwd|apply inside_randnum_passwd|apply inside_randnum_passwd|apply inside_dhx_passwd|apply inside_dhx2_passwd|apply inside_ret].
Qed.


End Methods.

(** A server that goes on whatever it gets. *)
#[local] Instance always_on : AuthEnv unit := fun A c e =>
  match c in acmd A return A * unit with
  | Calloc _ => (true, e)
  | Randomize n => (some_bytes (Z.to_nat n), e)
  | CreateNonce n => (some_bytes (Z.to_nat n), e)
  | CipherOpen _ => (true, e)
  | MdOpen => (true, e)
  | SendRequest _ => ((kFPAuthContinue, some_bytes 60), e)
  end.

#[local] Instance always_on_bytes : AuthBytes unit.
Proof.
  split; [|by intros r e; by_bytes]. intros n e Hn. unfold answer_auth, always_on. cbn [fst]. unfold some_bytes, zlen. rewrite length_map, length_seq. lia.
Qed.


(** ** The rotation of a key *)

Lemma shifted_byte b d : 0 <= d <= 1 -> u8 (Z.lor (Z.shiftl b 1) d) = (2 * b + d) mod 256.
Proof.
  intros Hd. unfold u8. rewrite Z.shiftl_mul_pow2 by lia. change (2 ^ 1) with 2. f_equal.
  assert (Hl : Z.land (b * 2) d = 0).
  { assert (d = 0 \/ d = 1) as [-> | ->] by lia; [apply Z.land_0_r|]. change 1 with (Z.ones 1). rewrite Z.land_ones by lia. by apply Z.mod_mul. }
  pose proof (Z.add_lor_land (b * 2) d). lia.
Qed.

Lemma rotated_arith b c v Q d : 0 <= c < 256 -> 0 <= v < Q -> 0 <= d <= 1 ->
  (2 * b + c / 128) mod 256 * (256 * Q) + (2 * (c * Q + v) + d) mod (256 * Q) = (2 * (b * (256 * Q) + (c * Q + v)) + d) mod (256 * (256 * Q)).
Proof.
  intros Hc Hv Hd. pose proof (Z.div_mod c 128 ltac:(lia)) as Ec. pose proof (Z.mod_pos_bound c 128 ltac:(lia)) as Hm. set (h := c / 128) in *. set (m := c mod 128) in *.
  set (x := 2 * b + h). pose proof (Z.div_mod x 256 ltac:(lia)) as Ex. pose proof (Z.mod_pos_bound x 256 ltac:(lia)) as Hx.
  assert (E1 : (2 * (c * Q + v) + d) mod (256 * Q) = 2 * (m * Q + v) + d) by (symmetry; apply (Z.mod_unique _ _ h); nia).
  rewrite E1. apply (Z.mod_unique _ _ (x / 256)); [|unfold x in *; nia]. left. nia.
Qed.

Lemma shift_left_value carry key : 0 <= carry <= 1 -> bytes_ok key -> key <> [] ->
  be_get (shift_left carry key) = (2 * be_get key + carry) mod 256 ^ zlen key /\ zlen (shift_left carry key) = zlen key.
Proof.
  intros Hc Hk _. induction Hk as [|b r Hb Hr IH]; [split; [by rewrite Z.mod_1_r|done]|]. destruct r as [|c r].
  { cbn [shift_left]. rewrite shifted_byte by done. split; [|done]. rewrite !be_get_cons. change (zlen (@nil Z)) with 0. change (be_get []) with 0. change (zlen [b]) with 1. change (256 ^ 1) with 256. change (256 ^ 0) with 1.
    by rewrite !Z.mul_1_r, !Z.add_0_r. }
  destruct IH as [IH1 IH2]. set (k := c :: r) in *. change (shift_left carry (b :: k)) with (u8 (Z.lor (Z.shiftl b 1) (Z.shiftr c 7)) :: shift_left carry k).
  pose proof (be_get_range k Hr) as Hv. assert (Hcb : byte_ok c) by (by apply Forall_cons in Hr as [? _]). unfold byte_ok in *.
  rewrite Z.shiftr_div_pow2 by lia. assert (Hd : 0 <= c / 2 ^ 7 <= 1) by (split; [apply Z.div_pos; lia|apply Z.lt_succ_r, Z.div_lt_upper_bound; lia]).
  rewrite shifted_byte by done. rewrite !be_get_cons, !zlen_cons, IH2, IH1. split; [|done].
  pose proof (zlen_nonneg r) as Hn. set (Q := 256 ^ zlen r). assert (HQ : 0 < Q) by (apply Z.pow_pos_nonneg; lia).
  assert (HP : 256 ^ zlen k = 256 * Q) by (unfold k; rewrite zlen_cons, Z.pow_add_r by lia; unfold Q; lia). rewrite Z.pow_add_r, HP by (unfold k; rewrite ?zlen_cons; lia).
  pose proof (be_get_range r ltac:(by apply Forall_cons in Hr as [_ ?])) as Hv'. fold Q in Hv'. unfold k. rewrite be_get_cons. fold Q. change (256 ^ 1) with 256.
  change (2 ^ 7) with 128 in *. apply rotated_arith; lia.
Qed.

(** The key of the two-way exchange is the password's 64 bits, one to the left
    and around. *)
Lemma rotated_value key : zlen key = 8 -> bytes_ok key -> be_get (rotated key) = (2 * be_get key) mod 2 ^ 64 + be_get key / 2 ^ 63.
Proof.
  intros Hl Hk. destruct key as [|b r]; [done|]. pose proof Hk as Hk'. apply Forall_cons in Hk' as [Hb Hr]. unfold byte_ok in Hb. rewrite zlen_cons in Hl. assert (Hrl : zlen r = 7) by lia.
  pose proof (be_get_range r Hr) as Hv. rewrite Hrl in Hv. change (256 ^ 7) with (2 ^ 56) in Hv.
  unfold rotated. change (byte_at (b :: r) 0) with b.
  assert (Hd : be_get (b :: r) / 2 ^ 63 = b / 2 ^ 7).
  { rewrite be_get_cons, Hrl. change (256 ^ 7) with (2 ^ 56). symmetry. apply (Z.div_unique _ _ _ (be_get (b :: r) - b / 2 ^ 7 * 2 ^ 63)); rewrite be_get_cons, Hrl; change (256 ^ 7) with (2 ^ 56);
      pose proof (Z.div_mod b (2 ^ 7) ltac:(lia)); pose proof (Z.mod_pos_bound b (2 ^ 7) ltac:(lia)); lia. }
  rewrite Z.shiftr_div_pow2 by lia. rewrite Hd. assert (Hc : 0 <= b / 2 ^ 7 <= 1) by (split; [apply Z.div_pos; lia|apply Z.lt_succ_r, Z.div_lt_upper_bound; lia]).
  destruct (shift_left_value (b / 2 ^ 7) (b :: r) Hc Hk ltac:(done)) as [-> _]. rewrite zlen_cons, Hrl. change (256 ^ (7 + 1)) with (2 ^ 64). change (256 ^ (1 + 7)) with (2 ^ 64).
  set (v := be_get (b :: r)). pose proof (Z.div_mod (2 * v) (2 ^ 64) ltac:(lia)). pose proof (Z.mod_pos_bound (2 * v) (2 ^ 64) ltac:(lia)).
  symmetry. apply (Z.mod_unique _ _ (2 * v / 2 ^ 64)); lia.
Qed.
