(* ===== verification/CmdText.v ===== *)
(** The text of the command line client (cmdline/cmdline_afp.c): words and
    quotes of a command line, completions, numbers, Finder codes and the paths
    of a volume. C strings are their bytes before the terminator. *)
From stdpp Require Import base.
From S2P Require Import Prelude AfpProtocol Path Utils Sidecar.
Local Open Scope afp_scope.

Definition ch_quote : Z := 34.
Definition ch_space : Z := 32.

(** isspace() of the C locale. *)
Definition isspace : Z -> bool := is_space.

(** ** Messages *)

Definition cmdline_sanitize_text (text : option (list Z)) (size : Z) : option (list Z) :=
  if size =? 0 then None else Some (match text with None => [] | Some t => sanitize_loop t 0 size end).

(** ** Words of a command line *)

(** The end of escape_paths_alloc(): [writeto] is the second path once the
    first is done. *)
Definition escape_end (two inquote donewith1 : bool) (first writeto : list Z) : option (list Z * list Z) :=
  if inquote || (two && negb donewith1) then None
  else Some (if donewith1 then (first, writeto) else (writeto, [])).

Fixpoint escape_paths_loop (two inquote inescape donewith1 : bool) (first writeto incoming : list Z) : option (list Z * list Z) :=
  match incoming with
  | [] => escape_end two inquote donewith1 first writeto
  | ch :: rest =>
      if ch =? ch_quote then
        if inescape then escape_paths_loop two inquote false donewith1 first (writeto ++ [ch]) rest
        else escape_paths_loop two (negb inquote) inescape donewith1 first writeto rest
      else if (ch =? ch_space) && negb inescape && negb inquote then
        if donewith1 || negb two then escape_end two inquote donewith1 first writeto
        else escape_paths_loop two inquote inescape true writeto [] rest
      else if (ch =? ch_backslash) && negb inescape then escape_paths_loop two inquote true donewith1 first writeto rest
      else escape_paths_loop two inquote false donewith1 first (writeto ++ [ch]) rest
  end.

(** One or two paths of a command's arguments; [None] if they are not there or
    a quote is open. *)
Definition escaped_paths (two : bool) (incoming : list Z) : option (list Z * list Z) :=
  if zlen incoming =? 0 then None else escape_paths_loop two false false false [] [] incoming.

(** A word of parse_command_words_alloc() and what follows it; [None] if a
    quote is open. *)
Fixpoint word_loop (quoted : bool) (word p : list Z) : option (list Z * list Z) :=
  match p with
  | [] => if quoted then None else Some (word, [])
  | ch :: rest =>
      if negb quoted && isspace ch then Some (word, p)
      else if ch =? ch_quote then word_loop (negb quoted) word rest
      else if ch =? ch_backslash then
        match rest with
        | next :: rest' => word_loop quoted (word ++ [next]) rest'
        | [] => word_loop quoted (word ++ [ch]) rest
        end
      else word_loop quoted (word ++ [ch]) rest
  end.

(** Whether a command's arguments start with -r, and the arguments behind it. *)
Definition command_recursive_option (arg : list Z) : bool * list Z :=
  let p := skip_spaces arg in
  if negb (byte_at p 0 =? 45) || negb (byte_at p 1 =? 114)
     || (negb (byte_at p 2 =? 0) && negb (isspace (byte_at p 2)))
  then (false, arg)
  else (true, skip_spaces (drop 2 p)).

(** ** Completions *)

(** The loop of escape_spaces() with [room] bytes before the buffer's end. *)
Fixpoint escape_spaces_loop (src : list Z) (room : Z) : list Z :=
  match src with
  | [] => []
  | c :: r =>
      if c =? ch_space then
        if room <=? 0 then []
        else ch_backslash :: (if room - 1 <=? 0 then [] else c :: escape_spaces_loop r (room - 2))
      else if room <=? 0 then [] else c :: escape_spaces_loop r (room - 1)
  end.

Definition AFPC_MAX_UTF8_PATH_STORAGE : Z := AFPC_MAX_UTF8_PATH_BYTES + 1.

(** [alloc] is whether the copy's allocation succeeds. *)
Definition escape_spaces (alloc : bool) (s : option (list Z)) : option (list Z) :=
  match s with
  | None => None
  | Some str =>
      let len := strnlen str AFPC_MAX_UTF8_PATH_STORAGE in
      if len >=? AFPC_MAX_UTF8_PATH_STORAGE then None
      else
        let spaces := zlen (List.filter (Z.eqb ch_space) (take (Z.to_nat len) str)) in
        if spaces =? 0 then (if alloc then Some str else None)
        else if len >? SIZE_MAX - spaces - 1 then None
        else if alloc then Some (escape_spaces_loop str (len + spaces)) else None
  end.

Fixpoint unescape_loop (src : list Z) : list Z :=
  match src with
  | [] => []
  | c :: r =>
      match r with
      | d :: r' => if (c =? ch_backslash) && (d =? ch_space) then ch_space :: unescape_loop r' else c :: unescape_loop r
      | [] => [c]
      end
  end.

Fixpoint has_escape (s : list Z) : bool :=
  match s with
  | c :: (d :: _) as r => ((c =? ch_backslash) && (d =? ch_space)) || has_escape r
  | _ => false
  end.

Definition unescape_spaces (alloc : bool) (s : option (list Z)) : option (list Z) :=
  match s with
  | None => None
  | Some str =>
      let len := strnlen str AFPC_MAX_UTF8_PATH_STORAGE in
      if len >=? AFPC_MAX_UTF8_PATH_STORAGE then None
      else if negb alloc then None
      else Some (if has_escape (take (Z.to_nat len) str) then unescape_loop str else str)
  end.

(** ** Numbers *)

(** The digits of a number in a base up to 10, and what follows them. *)
Fixpoint digits_in (base acc : Z) (s : list Z) : Z * list Z :=
  match s with
  | b :: r => if (48 <=? b) && (b <? 48 + base) then digits_in base (acc * base + (b - 48)) r else (acc, s)
  | [] => (acc, [])
  end.

(** strtol() and strtoul() before the range of their type: the number and what
    follows it, or 0 and the whole text if it starts with none. *)
Definition strto (base : Z) (s : list Z) : Z * list Z :=
  let t := skip_spaces s in
  let (neg, t) := match t with
                  | b :: r => if b =? 45 then (true, r) else if b =? 43 then (false, r) else (false, t)
                  | [] => (false, [])
                  end in
  let (n, rest) := digits_in base 0 t in
  if zlen rest =? zlen t then (0, s) else ((if neg then - n else n), rest).

(** strtoul() of 64 bits: the value, whether errno is set, and the rest. *)
Definition strtoul (base : Z) (s : list Z) : Z * bool * list Z :=
  let (v, rest) := strto base s in
  if Z.abs v >? SIZE_MAX then (SIZE_MAX, true, rest) else (u64 v, false, rest).

Definition strtol_base (base : Z) (s : list Z) : Z * list Z :=
  let (v, rest) := strto base s in (Z.max INT64_MIN (Z.min INT64_MAX v), rest).

(** The volume a line of the picker chooses, counted from 0. *)
Definition parse_volume_slot (line : list Z) (numvols : Z) : option Z :=
  let start := skip_spaces line in
  if negb (is_digit (byte_at start 0)) then None
  else
    let '(slot, range, end_) := strtoul 10 start in
    let end_ := skip_spaces end_ in
    if range || negb (zlen end_ =? 0) || (slot =? 0) || (slot >? numvols) then None else Some (slot - 1).

Definition parse_decimal_u16 (text : option (list Z)) : option Z :=
  match text with
  | None => None
  | Some t =>
      if (zlen t =? 0) || (byte_at t 0 =? 45) then None
      else
        let '(parsed, range, end_) := strtoul 10 t in
        if range || negb (zlen end_ =? 0) || (parsed >? UINT16_MAX) then None else Some parsed
  end.

(** ** Finder codes *)

Definition finder_digit (ch : Z) : Z :=
  if (48 <=? ch) && (ch <=? 57) then ch - 48
  else if (97 <=? ch) && (ch <=? 102) then ch - 97 + 10
  else if (65 <=? ch) && (ch <=? 70) then ch - 65 + 10
  else 16.

(** The value of hexadecimal digits, 0 if one is none. *)
Fixpoint finder_value (value : Z) (hex : list Z) : Z :=
  match hex with
  | [] => value
  | ch :: r => if finder_digit ch >? 15 then 0 else finder_value (Z.lor (u32 (Z.shiftl value 4)) (finder_digit ch)) r
  end.

Definition four_bytes (text : list Z) : Z :=
  Z.lor (Z.lor (Z.lor (Z.shiftl (byte_at text 0) 24) (Z.shiftl (byte_at text 1) 16)) (Z.shiftl (byte_at text 2) 8)) (byte_at text 3).

Definition parse_finder_code (text : option (list Z)) : option Z :=
  match text with
  | None => None
  | Some t =>
      let hex := if (byte_at t 0 =? 48) && ((byte_at t 1 =? 120) || (byte_at t 1 =? 88)) then drop 2 t else t in
      let value := finder_value 0 hex in
      if (zlen hex =? 8) && (negb (value =? 0) || list_eqb hex (str "00000000")) then Some value
      else if negb (zlen t =? 4) then None
      else Some (four_bytes t)
  end.

Fixpoint format_loop (bytes : list Z) (pos text_size : Z) : list Z :=
  match bytes with
  | [] => []
  | ch :: r =>
      if negb (pos + 1 <? text_size) then []
      else if (0x20 <=? ch) && (ch <=? 0x7e) && negb (ch =? ch_backslash) && negb (ch =? 39)
      then ch :: format_loop r (pos + 1) text_size
      else if pos + 4 <? text_size
      then ch_backslash :: 120 :: hex_digit (Z.shiftr ch 4) :: hex_digit (Z.land ch 0xf) :: format_loop r (pos + 4) text_size
      else []
  end.

Definition format_finder_code (code text_size : Z) : list Z :=
  if text_size =? 0 then []
  else format_loop [u8 (Z.shiftr code 24); u8 (Z.shiftr code 16); u8 (Z.shiftr code 8); u8 code] 0 text_size.

(** ** Lists of attribute names *)

(** The next name of a list, and the position behind it; 0 at the end. *)
Definition metadata_list_next (list_ : list Z) (size pos : Z) : Z * option (list Z * Z) :=
  if pos >=? size then (0, None)
  else
    let length := strnlen (drop (Z.to_nat pos) list_) (size - pos) in
    if length =? size - pos then (- EIO, None)
    else (1, Some (sub pos length list_, pos + length + 1)).

(** ** Paths *)

Definition DEFAULT_DIRECTORY : list Z := str "/".

Definition or_root (path : option (list Z)) : list Z :=
  match path with None => DEFAULT_DIRECTORY | Some p => if zlen p =? 0 then DEFAULT_DIRECTORY else p end.

(** The string a path structure was set to, [None] after a failure. *)
Definition path_result (r : Z * option afpc_path) : option (list Z) :=
  if fst r <? 0 then None else match snd r with Some p => path_data p | None => None end.

Definition duplicate_remote_path (alloc : bool) (path : option (list Z)) : option (list Z) :=
  path_result (afpc_path_set alloc (Some empty_path) (Some (or_root path)) AFPC_MAX_UTF8_PATH_BYTES).

Definition join_remote_path (alloc : bool) (parent name : option (list Z)) : option (list Z) :=
  let parent := or_root parent in
  match name with
  | None => duplicate_remote_path alloc (Some parent)
  | Some n =>
      if zlen n =? 0 then duplicate_remote_path alloc (Some parent)
      else path_result (afpc_path_join alloc (Some empty_path) (Some parent) name AFPC_MAX_UTF8_PATH_BYTES)
  end.

Definition join_local_path (alloc : bool) (parent name : list Z) : option (list Z) :=
  path_result (afpc_path_join alloc (Some empty_path) (Some parent) (Some name) AFPC_PATH_UNBOUNDED).

(** [cwd] is the volume's current directory. *)
Definition get_server_path_alloc (alloc : bool) (cwd : list Z) (filename : option (list Z)) : option (list Z) :=
  match filename with
  | None => None
  | Some f => if byte_at f 0 =? ch_slash then duplicate_remote_path alloc filename
              else join_remote_path alloc (Some cwd) filename
  end.

(** POSIX basename(). *)
Fixpoint strip_trailing (rev_path : list Z) : list Z :=
  match rev_path with b :: r => if b =? ch_slash then strip_trailing r else rev_path | [] => [] end.

Fixpoint until_slash (s : list Z) : list Z :=
  match s with b :: r => if b =? ch_slash then [] else b :: until_slash r | [] => [] end.

Definition basename (path : list Z) : list Z :=
  match path with
  | [] => str "."
  | _ => match strip_trailing (rev path) with
         | [] => str "/"
         | r => rev (until_slash r)
         end
  end.

(** What basename() leaves of its argument: it cuts slashes at the end. *)
Definition basename_rest (path : list Z) : list Z :=
  match strip_trailing (rev path) with [] => path | r => rev r end.

(** The path of the directory above, as remote_path_within() and the cd command
    cut it: [None] where they stop. *)
Definition parent_path (parent : list Z) : option (list Z) :=
  match strrchr parent ch_slash with
  | None => None
  | Some slash =>
      if byte_at parent 1 =? 0 then None
      else if slash =? 0 then Some (take 1 parent)
      else Some (take (Z.to_nat slash) parent)
  end.

Definition metadata_sidecar_entry (mode : Z) (name : list Z) : bool :=
  if mode =? AFP_METADATA_AUTO then list_eqb (take 2 name) (str "._") || list_eqb name (str ".AppleDouble")
  else if mode =? AFP_METADATA_MACOS then list_eqb (take 2 name) (str "._")
  else if mode =? AFP_METADATA_NETATALK then list_eqb name (str ".AppleDouble")
  else false.

(** Proofs on the text of the command line client: which completed names a
    command reads back. *)

(** ** The spelling of a name *)

(** Bytes that mean something in a command line. *)
Definition special (b : Z) : bool := (b =? ch_quote) || (b =? ch_backslash).

(** A completion: spaces behind backslashes. *)
Definition completed (name : list Z) : list Z :=
  flat_map (fun b => if b =? ch_space then [ch_backslash; b] else [b]) name.

Definition spaces (name : list Z) : Z := zlen (List.filter (Z.eqb ch_space) name).

Lemma spaces_cons b name : spaces (b :: name) = Z.b2z (b =? ch_space) + spaces name.
Proof. unfold spaces. cbn [List.filter]. rewrite (Z.eqb_sym b). destruct (ch_space =? b); rewrite ?zlen_cons; cbn [Z.b2z]; lia. Qed.

(** The buffer of escape_spaces() has room for the whole completion. *)
Lemma escape_loop_completed name room : zlen name + spaces name <= room -> escape_spaces_loop name room = completed name.
Proof.
  revert room. induction name as [|b name IH]; intros room Hr; [done|]. rewrite zlen_cons, spaces_cons in Hr.
  pose proof (zlen_nonneg name). assert (0 <= spaces name) by apply zlen_nonneg. cbn [escape_spaces_loop completed flat_map].
  destruct (b =? ch_space); simpl in Hr.
  - replace (room <=? 0) with false by lia. replace (room - 1 <=? 0) with false by lia. rewrite IH by lia. done.
  - replace (room <=? 0) with false by lia. rewrite IH by lia. done.
Qed.

Lemma completed_plain name : spaces name = 0 -> completed name = name.
Proof.
  induction name as [|b name IH]; [done|]. rewrite spaces_cons. assert (0 <= spaces name) by apply zlen_nonneg. intros Hs.
  cbn [completed flat_map]. destruct (b =? ch_space); simpl in Hs; [lia|]. simpl. f_equal. apply IH. lia.
Qed.

Lemma escape_spaces_spec name :
  no_nul name -> zlen name < AFPC_MAX_UTF8_PATH_STORAGE -> escape_spaces true (Some name) = Some (completed name).
Proof.
  intros Hn Hl. unfold escape_spaces. rewrite strnlen_id, Z.min_r by (done || lia).
  replace (zlen name >=? AFPC_MAX_UTF8_PATH_STORAGE) with false by lia. 
  replace (take (Z.to_nat (zlen name)) name) with name by (unfold zlen; rewrite Nat2Z.id, firstn_all; done). fold (spaces name). cbv zeta.
  destruct (spaces name =? 0) eqn:Es; bool_to_prop.
  { rewrite completed_plain; done. }
  assert (spaces name <= zlen name). { unfold spaces, zlen. pose proof (List.filter_length_le (Z.eqb ch_space) name). lia. }
  unfold AFPC_MAX_UTF8_PATH_STORAGE, AFPC_MAX_UTF8_PATH_BYTES, UINT16_MAX, SIZE_MAX in *.
  replace (zlen name >? _) with false by lia. rewrite escape_loop_completed by lia. done.
Qed.

Lemma completed_cons b name : completed (b :: name) = (if b =? ch_space then [ch_backslash; b] else [b]) ++ completed name.
Proof. done. Qed.

(** ** Reading it back *)

Lemma escape_loop_plain two done1 first w name rest :
  forallb (fun b => negb (special b)) name = true ->
  escape_paths_loop two false false done1 first w (completed name ++ rest) = escape_paths_loop two false false done1 first (w ++ name) rest.
Proof.
  revert w. induction name as [|b name IH]; intros w Hs; [by rewrite app_nil_r|]. simpl in Hs. apply andb_prop in Hs as [Hb Hs].
  unfold special in Hb. apply negb_true_iff, orb_false_elim in Hb as [Hq Hk]. rewrite completed_cons.
  destruct (b =? ch_space) eqn:Eb; cbn [app escape_paths_loop].
  - change (ch_backslash =? ch_quote) with false. change (ch_backslash =? ch_space) with false. change (ch_backslash =? ch_backslash) with true.
    cbv iota. cbn [andb negb]. rewrite Hq, Eb, Hk. cbn [andb negb]. rewrite (IH (w ++ [b]) Hs), <- app_assoc. done.
  - rewrite Hq, Eb, Hk. cbn [andb negb]. rewrite (IH (w ++ [b]) Hs), <- app_assoc. done.
Qed.

(** The length a path read from a completion has at most. *)
Definition read_at_most (r : option (list Z * list Z)) (n : nat) : Prop := forall p q, r = Some (p, q) -> (length p <= n)%nat.

Lemma end_at_most inquote w n : (length w <= n)%nat -> read_at_most (escape_end false inquote false [] w) n.
Proof. intros Hn p q. unfold escape_end. destruct inquote; simpl; [done|]. by intros [= <- _]. Qed.

Lemma at_most_le r n m : read_at_most r n -> (n <= m)%nat -> read_at_most r m.
Proof. intros Hr Hn p q E. specialize (Hr p q E). lia. Qed.

(** A backslash written may bring a quoted space with it. *)
Lemma escape_loop_at_most name inquote inescape w :
  read_at_most (escape_paths_loop false inquote inescape false [] w (completed name)) (length w + length name + Nat.b2n inescape).
Proof.
  revert inquote inescape w. induction name as [|b name IH]; intros inquote inescape w; [apply end_at_most; simpl; lia|].
  assert (Hw : forall c, length (w ++ [c]) = S (length w)) by (intros; rewrite length_app; simpl; lia).
  rewrite completed_cons. cbn [length]. destruct (b =? ch_space) eqn:Eb; cbn [app escape_paths_loop].
  - apply Z.eqb_eq in Eb. subst b. change (ch_backslash =? ch_quote) with false. change (ch_backslash =? ch_space) with false.
    change (ch_backslash =? ch_backslash) with true. change (ch_space =? ch_quote) with false. change (ch_space =? ch_space) with true.
    change (ch_space =? ch_backslash) with false. destruct inescape; cbn [andb negb orb]; cbv iota.
    + destruct inquote; cbn [andb negb orb]; cbv iota; [|apply end_at_most; rewrite Hw; simpl; lia].
      eapply at_most_le; [apply IH|]. rewrite !length_app. simpl. lia.
    + eapply at_most_le; [apply IH|]. rewrite Hw. simpl. lia.
  - destruct (b =? ch_quote); [destruct inescape; (eapply at_most_le; [apply IH|rewrite ?Hw; simpl; lia])|]. rewrite Eb. cbn [andb].
    destruct ((b =? ch_backslash) && negb inescape) eqn:Ek.
    + apply andb_prop in Ek as [_ Ek]. apply negb_true_iff in Ek. subst. eapply at_most_le; [apply IH|simpl; lia].
    + eapply at_most_le; [apply IH|rewrite Hw; simpl; lia].
Qed.

(** Outside quotes a backslash of the name is lost. *)
Lemma escaped_at_most name w :
  read_at_most (escape_paths_loop false false true false [] w (completed name)) (length w + length name).
Proof.
  destruct name as [|b name]; [apply end_at_most; lia|].
  assert (Hw : forall c, length (w ++ [c]) = S (length w)) by (intros; rewrite length_app; simpl; lia).
  rewrite completed_cons. cbn [length]. destruct (b =? ch_space) eqn:Eb; cbn [app escape_paths_loop].
  - apply Z.eqb_eq in Eb. subst b. change (ch_backslash =? ch_quote) with false. change (ch_backslash =? ch_space) with false.
    change (ch_backslash =? ch_backslash) with true. cbn [andb negb orb]. cbv iota. apply end_at_most. rewrite Hw. lia.
  - destruct (b =? ch_quote); [|rewrite Eb; cbn [andb negb]; rewrite andb_false_r]; (eapply at_most_le; [apply escape_loop_at_most|rewrite Hw; simpl; lia]).
Qed.

Lemma special_loses name w :
  existsb special name = true ->
  forall p q, escape_paths_loop false false false false [] w (completed name) = Some (p, q) -> (length p < length w + length name)%nat.
Proof.
  revert w. induction name as [|b name IH]; intros w; [done|]. cbn [existsb length]. intros Hs p q.
  rewrite completed_cons. destruct (b =? ch_space) eqn:Eb; cbn [app escape_paths_loop].
  - apply Z.eqb_eq in Eb. subst b. change (special ch_space) with false in Hs. change (ch_backslash =? ch_quote) with false.
    change (ch_backslash =? ch_space) with false. change (ch_backslash =? ch_backslash) with true. change (ch_space =? ch_quote) with false.
    change (ch_space =? ch_space) with true. change (ch_space =? ch_backslash) with false. cbn [andb negb orb]. cbv iota.
    intros Hp. apply IH in Hp; [|done]. rewrite length_app in Hp. simpl in Hp. lia.
  - unfold special in Hs at 1. destruct (b =? ch_quote) eqn:Eq.
    + intros Hp. apply escape_loop_at_most in Hp. simpl in Hp. lia.
    + rewrite Eb. destruct (b =? ch_backslash) eqn:Ek; cbn [andb negb].
      * intros Hp. apply escaped_at_most in Hp. lia.
      * intros Hp. apply IH in Hp; [|done]. rewrite length_app in Hp. simpl in Hp. lia.
Qed.

Lemma not_existsb {A} (f : A -> bool) l : existsb f l = false -> forallb (fun a => negb (f a)) l = true.
Proof. induction l as [|a l IH]; simpl; [done|]. intros Hf. apply orb_false_elim in Hf as [-> Hf]. by rewrite (IH Hf). Qed.

(** What the completion inserts for a name is read back as the name by
    escape_paths, of one path exactly if the name has no quote and no backslash;
    for such names it is also read as the first of two paths. *)
Lemma completed_read name second :
  no_nul name -> name <> [] -> zlen name < AFPC_MAX_UTF8_PATH_STORAGE ->
  no_nul second -> zlen second < AFPC_MAX_UTF8_PATH_STORAGE -> existsb special second = false ->
  exists text text',
    escape_spaces true (Some name) = Some text /\ escape_spaces true (Some second) = Some text'
    /\ (escaped_paths false text = Some (name, []) <-> existsb special name = false)
    /\ (existsb special name = false -> escaped_paths true (text ++ [ch_space] ++ text') = Some (name, second)).
Proof.
  intros Hn Hne Hl Hn' Hl' Hs'. exists (completed name), (completed second). rewrite !escape_spaces_spec by done. split_and!; [done..| |].
  - assert (Hz : (zlen (completed name) =? 0) = false).
    { destruct name as [|b name]; [done|]. rewrite completed_cons, zlen_app. pose proof (zlen_nonneg (completed name)).
      destruct (b =? ch_space); rewrite !zlen_cons, zlen_nil; lia. }
    unfold escaped_paths. rewrite Hz. split.
    + intros Hp. destruct (existsb special name) eqn:Es; [|done]. pose proof (special_loses name [] Es _ _ Hp). simpl in *. lia.
    + intros Hs. apply not_existsb in Hs. rewrite <- (app_nil_r (completed name)), escape_loop_plain by done. done.
  - intros Hs. apply not_existsb in Hs, Hs'. unfold escaped_paths.
    replace (zlen _ =? 0) with false by (rewrite !zlen_app, zlen_cons; pose proof (zlen_nonneg (completed name)); pose proof (zlen_nonneg (completed second)); rewrite zlen_nil; lia).
    rewrite escape_loop_plain by done. cbn [app escape_paths_loop]. change (ch_space =? ch_quote) with false. change (ch_space =? ch_space) with true.
    cbn [andb negb orb]. rewrite <- (app_nil_r (completed second)), escape_loop_plain by done. done.
Qed.
