(* ===== verification/Shell.v ===== *)
(** The command line client as programs (cmdline/cmdline_afp.c): what it asks of
    the stateless library and of the local system, its state, and programs over
    any environment that answers. The text it prints is not part of them. *)
From stdpp Require Import base.
From S2P Require Import Prelude AfpProtocol Path Utils Url Listing Local Sidecar CmdText.
Local Open Scope afp_scope.

(** ** What it asks for *)

(** An entry of a directory as the library lists it. *)
Record afpc_file_info := FileInfo {
  fi_name : list Z; creation_date : Z; modification_date : Z; fi_uid : Z; fi_gid : Z; permissions : Z; fi_size : Z }.

Definition SIZEOF_FILE_INFO : Z := 1064.

Record desktop_icon_info := IconInfo { icon_tag : Z; icon_file_type : Z; icon_type : Z; icon_size : Z }.

(** Calls on a volume. The answer is the int of the call with what it stored.
    [SlAttr] are the calls on metadata that [Local] names. *)
Inductive slcall : Type -> Type :=
| SlStat (path : list Z) : slcall (Z * stat)
| SlReaddir (path : list Z) (start count : Z) : slcall (Z * list afpc_file_info * bool)
| SlOpen (path : list Z) (flags : Z) : slcall (Z * Z)
| SlRead (fileid offset size : Z) : slcall (Z * list Z * bool)
| SlWrite (fileid offset : Z) (data : list Z) : slcall (Z * Z)
| SlClose (fileid : Z) : slcall Z
| SlCreat (path : list Z) (mode : Z) : slcall Z
| SlMkdir (path : list Z) (mode : Z) : slcall Z
| SlUnlink (path : list Z) : slcall Z
| SlRmdir (path : list Z) : slcall Z
| SlChmod (path : list Z) (mode : Z) : slcall Z
| SlUtime (path : list Z) (modtime : Z) : slcall Z
| SlTruncate (path : list Z) (offset : Z) : slcall Z
| SlRename (path_from path_to : list Z) : slcall Z
| SlAttr {A} (path : list Z) (r : remote A) : slcall A
| SlTruncateResourcefork (path : list Z) (offset : Z) : slcall Z
| SlGetComment (path : list Z) (size : Z) : slcall (Z * list Z)
| SlSetComment (path comment : list Z) : slcall Z
| SlGetIconInfo (creator index : Z) : slcall (Z * desktop_icon_info)
| SlGetIcon (creator type icon_type size : Z) : slcall (Z * list Z)
| SlGetAppl (creator index : Z) : slcall Z
| SlStatfs (path : list Z) : slcall Z.

(** A system call answers a value or an errno. A directory is read entry by
    entry to [None]. *)
Inductive ccmd : Type -> Type :=
| Sl {A} (vol : Z) (c : slcall A) : ccmd A
| ToRemote (local : list Z) (mode vol : Z) (path : list Z) : ccmd Z
| ToLocal (vol : Z) (path local : list Z) (mode : Z) : ccmd Z
| BetweenRemote (vol : Z) (source : list Z) (vol' : Z) (target : list Z) : ccmd Z
| LOpen (path : list Z) (flags mode : Z) : ccmd (res Z)
| LFstat (fd : Z) : ccmd (res stat)
| LLstat (path : list Z) : ccmd (res stat)
| LStat (path : list Z) : ccmd (res stat)
| LSetfl (fd : Z) : ccmd unit
| LRead (fd size : Z) : ccmd (res (list Z))
| LWrite (fd : Z) (data : list Z) : ccmd (res Z)
| LClose (fd : Z) : ccmd (res unit)
| LMkdir (path : list Z) (mode : Z) : ccmd (res unit)
| LOpendir (path : list Z) : ccmd (res Z)
| LReaddir (dir : Z) : ccmd (res (option (list Z)))
| LClosedir (dir : Z) : ccmd unit
| LChmod (path : list Z) (mode : Z) : ccmd (res unit)
| LFchmod (fd mode : Z) : ccmd (res unit)
| LUtimens (path : list Z) (mtime : Z) : ccmd (res unit)
| LUnlink (path : list Z) : ccmd unit
| LChdir (path : list Z) : ccmd (res unit)
| SlStatus : ccmd Z
| Malloc : ccmd bool
| Time : ccmd Z
| SlConnect (resume : bool) (url : afpc_url) (uam_mask : Z) : ccmd (Z * Z)
| SlDisconnect (server : Z) : ccmd Z
| SlAttach (server : Z) (url : afpc_url) (volpassword : list Z) : ccmd (Z * Z * bool)
| SlDetach (vol : Z) : ccmd unit
| SlExit : ccmd unit
| SlGetvols (server : Z) (url : afpc_url) (start count : Z) : ccmd (Z * list (list Z))
| SlServerinfo (url : afpc_url) : ccmd (Z * list Z)
| SlUams (name : option (list Z)) : ccmd Z
| SlChangepw (url : afpc_url) (oldpasswd newpasswd : list Z) : ccmd Z
| Getpass : ccmd (option (list Z))
| Readline : ccmd (option (list Z))
| ScreenEntries : ccmd Z
| PromptNextPage : ccmd Z.

Class CmdEnv (E : Type) := answer_cmd : forall A, ccmd A -> E -> A * E.
Arguments answer_cmd {E _ A} _ _.

(** ** State *)

(** The static variables the commands share: [curdir] is a path that may be
    unset, [url] the server's with its volume, [volpassword] beside it. *)
Record shell := Shell {
  vol_id : option Z; server_id : option Z; connected : bool; curdir : afpc_path; url : afpc_url; volpassword : list Z;
  connect_servername : list Z; transfer_metadata_mode : Z; quit_requested : bool; running : bool }.

Definition set_vol_id (v : option Z) (s : shell) : shell :=
  Shell v (server_id s) (connected s) (curdir s) (url s) (volpassword s) (connect_servername s) (transfer_metadata_mode s) (quit_requested s) (running s).
Definition set_server_id (v : option Z) (s : shell) : shell :=
  Shell (vol_id s) v (connected s) (curdir s) (url s) (volpassword s) (connect_servername s) (transfer_metadata_mode s) (quit_requested s) (running s).
Definition set_connected (b : bool) (s : shell) : shell :=
  Shell (vol_id s) (server_id s) b (curdir s) (url s) (volpassword s) (connect_servername s) (transfer_metadata_mode s) (quit_requested s) (running s).
Definition set_curdir (p : afpc_path) (s : shell) : shell :=
  Shell (vol_id s) (server_id s) (connected s) p (url s) (volpassword s) (connect_servername s) (transfer_metadata_mode s) (quit_requested s) (running s).
Definition set_url (u : afpc_url) (s : shell) : shell :=
  Shell (vol_id s) (server_id s) (connected s) (curdir s) u (volpassword s) (connect_servername s) (transfer_metadata_mode s) (quit_requested s) (running s).
Definition set_volpassword (p : list Z) (s : shell) : shell :=
  Shell (vol_id s) (server_id s) (connected s) (curdir s) (url s) p (connect_servername s) (transfer_metadata_mode s) (quit_requested s) (running s).
Definition set_connect_servername (n : list Z) (s : shell) : shell :=
  Shell (vol_id s) (server_id s) (connected s) (curdir s) (url s) (volpassword s) n (transfer_metadata_mode s) (quit_requested s) (running s).
Definition set_quit_requested (b : bool) (s : shell) : shell :=
  Shell (vol_id s) (server_id s) (connected s) (curdir s) (url s) (volpassword s) (connect_servername s) (transfer_metadata_mode s) b (running s).
Definition set_running (b : bool) (s : shell) : shell :=
  Shell (vol_id s) (server_id s) (connected s) (curdir s) (url s) (volpassword s) (connect_servername s) (transfer_metadata_mode s) (quit_requested s) b.

(** A url of zeros. *)
Definition cleared_url : afpc_url := Url [] [] [] [] 0 [] empty_path.

Definition current_directory (s : shell) : list Z := default DEFAULT_DIRECTORY (path_data (curdir s)).

(** ** Programs *)

(** [None] is a run that has not ended within its fuel. *)
Definition Cmd (E A : Type) : Type := shell * E -> option A * (shell * E).

Definition cret {E A} (a : A) : Cmd E A := fun s => (Some a, s).
Definition cbind {E A B} (m : Cmd E A) (k : A -> Cmd E B) : Cmd E B := fun s =>
  match m s with (Some a, s') => k a s' | (None, s') => (None, s') end.
Definition unfinished {E A} : Cmd E A := fun s => (None, s).
Definition get_shell {E} : Cmd E shell := fun s => (Some (fst s), s).
Definition change_shell {E} (f : shell -> shell) : Cmd E unit := fun s => (Some tt, (f (fst s), snd s)).

Notation "'let=' x ':=' m 'in' k" := (cbind m (fun x => k))
  (at level 10, x pattern, m at level 100, k at level 200) : afp_scope.
Notation "m ';;=' k" := (cbind m (fun _ => k)) (at level 60, right associativity) : afp_scope.

Section Programs.
Context {E : Type} `{CmdEnv E}.

Definition ccall {A} (c : ccmd A) : Cmd E A := fun '(s, e) => let (a, e') := answer_cmd c e in (Some a, (s, e')).

(** A call on the volume in use. *)
Definition sl {A} (c : slcall A) : Cmd E A := let= s := get_shell in ccall (Sl (default 0 (vol_id s)) c).

(** The commands that need a volume. *)
Definition when_attached (k : Cmd E Z) : Cmd E Z :=
  let= s := get_shell in match vol_id s with None => cret (-1) | Some _ => k end.

(** The paths a command names; the allocator is asked even where a path is
    refused first. *)
Definition server_path (filename : list Z) : Cmd E (option (list Z)) :=
  let= ok := ccall Malloc in
  let= s := get_shell in
  cret (get_server_path_alloc ok (current_directory s) (Some filename)).

Definition duplicated (path : list Z) : Cmd E (option (list Z)) :=
  let= ok := ccall Malloc in cret (duplicate_remote_path ok (Some path)).

Definition joined_remote (parent name : list Z) : Cmd E (option (list Z)) :=
  let= ok := ccall Malloc in cret (join_remote_path ok (Some parent) (Some name)).

Definition joined_local (parent name : list Z) : Cmd E (option (list Z)) :=
  let= ok := ccall Malloc in cret (join_local_path ok parent name).

Definition escape_paths_alloc (two : bool) (arg : list Z) : Cmd E (option (list Z * list Z)) :=
  if zlen arg =? 0 then cret None
  else
    let= ok := ccall Malloc in
    if negb ok then cret None
    else
      let= ok := if two then ccall Malloc else cret true in
      if negb ok then cret None else cret (escaped_paths two arg).

(** The words of a command line: [Err] is the errno of the failure. *)
Fixpoint words_loop (fuel : nat) (p : list Z) (max_words : Z) (words : list (list Z)) : Cmd E (res (list (list Z))) :=
  match fuel with
  | O => unfinished
  | S fuel =>
      match p with
      | [] => cret (Ok words)
      | _ =>
          match skip_spaces p with
          | [] => cret (Ok words)
          | p =>
              if zlen words =? max_words then cret (Err (- E2BIG))
              else
                let= ok := ccall Malloc in
                if negb ok then cret (Err (- ENOMEM))
                else
                  match word_loop false [] p with
                  | None => cret (Err (- EINVAL))
                  | Some (word, rest) => words_loop fuel rest max_words (words ++ [word])
                  end
          end
      end
  end.

Definition parse_command_words_alloc (input : list Z) (max_words : Z) : Cmd E (res (list (list Z))) :=
  if max_words <=? 0 then cret (Err (- EINVAL))
  else
    let= ok := ccall Malloc in
    if negb ok then cret (Err (- ENOMEM)) else words_loop (S (length input)) input max_words [].

Definition set_current_directory (path : option (list Z)) : Cmd E Z :=
  let= ok := ccall Malloc in
  let= s := get_shell in
  match afpc_path_set ok (Some (curdir s)) (Some (or_root path)) AFPC_MAX_UTF8_PATH_BYTES with
  | (ret, Some p) => change_shell (set_curdir p) ;;= cret ret
  | (ret, None) => cret ret
  end.

End Programs.
