(* ===== verification/ShellFiles.v ===== *)
(** The commands on files and folders (cmdline/cmdline_afp.c): listings,
    uploads, downloads, copies, removal and modes, each over the calls of
    [Shell]. *)
From stdpp Require Import base.
From S2P Require Import Prelude AfpProtocol Path Utils Url Listing LowLevel Resource Local Sidecar CmdText Shell.
Local Open Scope afp_scope.

Definition EAGAIN : Z := 11.
Definition O_NONBLOCK : Z := 0x800.
Definition BUF_SIZE : Z := 102400.
Definition METADATA_OUTPUT_MODE : Z := 384.
Definition mode_bits (mode : Z) : Z := Z.land mode 0x1FF.
Definition all_bits (mode : Z) : Z := Z.land mode 0xFFF.

Section Files.
Context {E : Type} `{CmdEnv E}.

(** ** Listings and attributes *)

Definition listed_all (all : list afpc_file_info) : Cmd E (Z * list afpc_file_info) :=
  if zlen all >? UINT32_MAX then cret (- EOVERFLOW, []) else cret (0, all).

Fixpoint readdir_all_loop (fuel : nat) (path : list Z) (all : list afpc_file_info) (eod : bool) : Cmd E (Z * list afpc_file_info) :=
  if eod then listed_all all
  else match fuel with
  | O => unfinished
  | S fuel =>
      if zlen all >? INT_MAX then cret (- EOVERFLOW, [])
      else
        let= (ret, page, eod) := sl (SlReaddir path (zlen all) 256) in
        if negb (ret =? 0) then cret (ret, [])
        else if zlen page =? 0 then listed_all all
        else if zlen page >? SIZE_MAX / SIZEOF_FILE_INFO - zlen all then cret (- EOVERFLOW, [])
        else
          let= ok := ccall Malloc in
          if negb ok then cret (- ENOMEM, []) else readdir_all_loop fuel path (all ++ page) eod
  end.

Definition remote_readdir_all (fuel : nat) (path : list Z) : Cmd E (Z * list afpc_file_info) :=
  readdir_all_loop fuel path [] false.

Definition remote_xattr_list (path : list Z) : Cmd E (Z * list Z) :=
  let= (ret, _) := sl (SlAttr path (Listxattr 0)) in
  if ret <=? 0 then cret (ret, [])
  else if ret >? AFP_SL_XATTR_LIST_MAX then cret (- E2BIG, [])
  else
    let= ok := ccall Malloc in
    if negb ok then cret (- ENOMEM, [])
    else
      let= (got, names) := sl (SlAttr path (Listxattr ret)) in
      if (got <? 0) || (got >? ret) then cret ((if got <? 0 then got else - EIO), [])
      else cret (0, take (Z.to_nat got) names).

Definition remote_xattr_get (path name : list Z) : Cmd E (Z * list Z) :=
  let= (ret, _) := sl (SlAttr path (Getxattr name 0)) in
  if ret <? 0 then cret (ret, [])
  else if ret >? AFP_SL_METADATA_CHUNK then cret (- E2BIG, [])
  else
    let= ok := ccall Malloc in
    if negb ok then cret (- ENOMEM, [])
    else if ret =? 0 then cret (0, [])
    else
      let= (got, value) := sl (SlAttr path (Getxattr name ret)) in
      if (got <? 0) || (got >? ret) then cret ((if got <? 0 then got else - EIO), [])
      else cret (0, take (Z.to_nat got) value).

(** Errors of a mode or a date that a server may not take. *)
Definition not_carried (ret : Z) : bool :=
  (ret =? - EOPNOTSUPP) || (ret =? - ENOSYS) || (ret =? - EACCES).

Definition apply_remote_posix_metadata (path : list Z) (st : stat) : Cmd E Z :=
  let= ret := sl (SlChmod path (all_bits (st_mode st))) in
  if negb (ret =? 0) && negb (not_carried ret) then cret ret
  else
    let= ret := sl (SlUtime path (tv_sec (st_mtim st))) in
    cret (if (ret =? 0) || not_carried ret then 0 else ret).

Definition copy_local_metadata_to_remote (local_path remote_path : list Z) (st : stat) : Cmd E Z :=
  let= s := get_shell in
  if transfer_metadata_mode s =? AFP_METADATA_NONE then cret 0
  else
    let= ret := ccall (ToRemote local_path (transfer_metadata_mode s) (default 0 (vol_id s)) remote_path) in
    if ret <? 0 then cret ret else apply_remote_posix_metadata remote_path st.

Definition copy_remote_metadata_to_local (remote_path local_path : list Z) (st : stat) : Cmd E Z :=
  let= s := get_shell in
  if transfer_metadata_mode s =? AFP_METADATA_NONE then cret 0
  else
    let= ret := ccall (ToLocal (default 0 (vol_id s)) remote_path local_path (transfer_metadata_mode s)) in
    if ret <? 0 then cret ret
    else
      let= r := ccall (LChmod local_path (all_bits (st_mode st))) in
      match r with
      | Err e => if negb (e =? EPERM) then cret (- e) else
          let= r := ccall (LUtimens local_path (tv_sec (st_mtim st))) in
          cret (match r with Err e => - e | Ok _ => 0 end)
      | Ok _ =>
          let= r := ccall (LUtimens local_path (tv_sec (st_mtim st))) in
          cret (match r with Err e => - e | Ok _ => 0 end)
      end.

Definition copy_remote_metadata (source target : list Z) (st : stat) : Cmd E Z :=
  let= s := get_shell in
  if transfer_metadata_mode s =? AFP_METADATA_NONE then cret 0
  else
    let= ret := ccall (BetweenRemote (default 0 (vol_id s)) source (default 0 (vol_id s)) target) in
    if ret <? 0 then cret ret else apply_remote_posix_metadata target st.

(** ** The entries of a directory *)

Definition dot_entry (name : list Z) : bool := list_eqb name (str ".") || list_eqb name (str "..").

(** A step for each entry but . and .. in turn; -1 if one failed. *)
Fixpoint each_entry (step : afpc_file_info -> Cmd E Z) (ret : Z) (entries : list afpc_file_info) : Cmd E Z :=
  match entries with
  | [] => cret ret
  | p :: entries =>
      if dot_entry (fi_name p) then each_entry step ret entries
      else
        let= r := step p in
        each_entry step (if r <? 0 then -1 else ret) entries
  end.

(** ** Modes and dates *)

Fixpoint chmod_remote_tree (fuel : nat) (server_path : list Z) (mode : Z) : Cmd E Z :=
  match fuel with
  | O => unfinished
  | S fuel =>
      let= (r, entries) := remote_readdir_all fuel server_path in
      if negb (r =? 0) then cret (-1)
      else
        let= ret := each_entry (fun entry =>
          let= child := joined_remote server_path (fi_name entry) in
          match child with
          | None => cret (-1)
          | Some child =>
              if S_ISLNK (permissions entry) then cret (-1)
              else if S_ISDIR (permissions entry) then chmod_remote_tree fuel child mode
              else let= r := sl (SlChmod child mode) in cret (if r =? 0 then 0 else -1)
          end) 0 entries in
        let= r := sl (SlChmod server_path mode) in
        cret (if r =? 0 then ret else -1)
  end.

Definition com_touch (arg : list Z) : Cmd E Z := when_attached (
  let= words := escape_paths_alloc false arg in
  match words with
  | None => cret (-1)
  | Some (filename, _) =>
      let= path := server_path filename in
      match path with
      | None => cret (-1)
      | Some path =>
          let= ret := sl (SlCreat path 420) in
          if ret =? 0 then cret 0
          else if ret =? - EEXIST then
            let= now := ccall Time in
            let= ret := sl (SlUtime path now) in
            cret (if ret =? 0 then 0 else -1)
          else cret (-1)
      end
  end).

Definition com_chmod (fuel : nat) (arg : list Z) : Cmd E Z :=
  let (recursive, arg) := command_recursive_option arg in
  when_attached (
    let= words := escape_paths_alloc true arg in
    match words with
    | None => cret (-1)
    | Some (mode_str, filename) =>
        let (mode, rest) := strtol_base 8 mode_str in
        let mode := u32 mode in
        if negb (zlen rest =? 0) then cret (-1)
        else
          let= path := server_path filename in
          match path with
          | None => cret (-1)
          | Some path =>
              let plain := let= ret := sl (SlChmod path mode) in cret (if ret =? 0 then 0 else -1) in
              if recursive then
                let= (r, st) := sl (SlStat path) in
                if negb (r =? 0) then cret (-1)
                else if S_ISDIR (st_mode st) then
                  let= ret := chmod_remote_tree fuel path mode in cret (if ret =? 0 then 0 else -1)
                else plain
              else plain
          end
    end).

(** ** Uploads *)

Definition open_created_file (path : list Z) (created truncate : bool) : Cmd E (Z * Z) :=
  let= (ret, fileid) := sl (SlOpen path (Z.lor O_RDWR (if truncate && negb created then O_TRUNC else 0))) in
  if negb (ret =? 0) && created && negb (ret =? - ETIMEDOUT)
  then sl (SlUnlink path) ;;= cret (ret, fileid)
  else cret (ret, fileid).

(** Whether the whole local file was written, and the bytes that were. *)
Fixpoint upload_loop (fuel : nat) (localfd fileid offset : Z) : Cmd E (bool * Z) :=
  match fuel with
  | O => unfinished
  | S fuel =>
      let= r := ccall (LRead localfd BUF_SIZE) in
      match r with
      | Err _ => cret (false, offset)
      | Ok [] => cret (true, offset)
      | Ok buf =>
          let= (ret, written) := sl (SlWrite fileid offset buf) in
          if negb (ret =? 0) || negb (written =? zlen buf) then cret (false, offset)
          else upload_loop fuel localfd fileid (offset + written)
      end
  end.

(** The file is open and is a regular one. A result below 0 leaves the count
    of bytes unset. *)
Definition upload_regular (fuel : nat) (localfd : Z) (local_filename server_fullname : list Z) (localstat : stat) : Cmd E (Z * Z) :=
  ccall (LSetfl localfd) ;;=
  let= ret := sl (SlCreat server_fullname (Z.lor (mode_bits (st_mode localstat)) 384)) in
  let created := ret =? 0 in
  if negb (ret =? 0) && negb (ret =? - EEXIST) && negb (ret =? - EACCES) then cret (ret, 0)
  else
    let= (ret, fileid) := open_created_file server_fullname created false in
    if negb (ret =? 0) then cret (ret, 0)
    else
      let= (whole, total_written) := upload_loop fuel localfd fileid 0 in
      if negb whole then
        (if fileid =? 0 then cret 0 else sl (SlClose fileid)) ;;= cret (-1, 0)
      else
        let= ret := sl (SlClose fileid) in
        if negb (ret =? 0) then cret (ret, 0)
        else
          let= ret := if created then cret 0 else sl (SlTruncate server_fullname total_written) in
          if negb (ret =? 0) then cret (ret, 0)
          else
            let= ret := copy_local_metadata_to_remote local_filename server_fullname localstat in
            if ret <? 0 then cret (ret, 0) else cret (0, total_written).

Definition upload_file (fuel : nat) (local_filename server_fullname : list Z) : Cmd E (Z * Z) :=
  let= r := ccall (LOpen local_filename (Z.lor O_RDONLY O_NONBLOCK) 0) in
  let= r := match r with
            | Err e => if e =? EAGAIN then ccall (LOpen local_filename O_RDONLY 0) else cret (Err e)
            | Ok fd => cret (Ok fd)
            end in
  match r with
  | Err _ => cret (-1, 0)
  | Ok localfd =>
      let= st := ccall (LFstat localfd) in
      let= result := match st with
                     | Err _ => cret (-1, 0)
                     | Ok st => if S_ISREG (st_mode st) then upload_regular fuel localfd local_filename server_fullname st
                                else cret (-1, 0)
                     end in
      ccall (LClose localfd) ;;= cret result
  end.

Definition make_remote_directory (path : list Z) (mode : Z) : Cmd E Z :=
  let= ret := sl (SlMkdir path (Z.lor (mode_bits mode) 448)) in
  if ret =? - EEXIST then
    let= (stat_ret, st) := sl (SlStat path) in
    cret (if (stat_ret =? 0) && S_ISDIR (st_mode st) then 0 else -1)
  else cret (if ret =? 0 then 0 else -1).

(** The entries of an open local directory in turn: a step's bytes count if it
    succeeded. *)
Fixpoint local_entries (fuel : nat) (dir : Z) (step : list Z -> Cmd E (Z * Z)) (ret bytes : Z) : Cmd E (Z * Z) :=
  match fuel with
  | O => unfinished
  | S fuel =>
      let= entry := ccall (LReaddir dir) in
      match entry with
      | Err _ => cret (-1, bytes)
      | Ok None => cret (ret, bytes)
      | Ok (Some name) =>
          let= s := get_shell in
          if dot_entry name || metadata_sidecar_entry (transfer_metadata_mode s) name
          then local_entries fuel dir step ret bytes
          else
            let= (r, n) := step name in
            if r <? 0 then local_entries fuel dir step (-1) bytes else local_entries fuel dir step ret (bytes + n)
      end
  end.

Fixpoint upload_directory (fuel : nat) (local_dirname server_parent_path : list Z) : Cmd E (Z * Z) :=
  match fuel with
  | O => unfinished
  | S fuel =>
      let= r := ccall (LLstat local_dirname) in
      match r with
      | Err _ => cret (-1, 0)
      | Ok dir_stat =>
          if S_ISLNK (st_mode dir_stat) then cret (-1, 0)
          else
            let= made := make_remote_directory server_parent_path (st_mode dir_stat) in
            if made <? 0 then cret (-1, 0)
            else
              let= dir := ccall (LOpendir local_dirname) in
              match dir with
              | Err _ => cret (-1, 0)
              | Ok dir =>
                  let= (ret, bytes) := local_entries fuel dir (fun name =>
                    let= local_path := joined_local local_dirname name in
                    let= server_path := joined_remote server_parent_path name in
                    match local_path, server_path with
                    | Some local_path, Some server_path =>
                        let= st := ccall (LLstat local_path) in
                        match st with
                        | Err _ => cret (-1, 0)
                        | Ok st =>
                            if S_ISLNK (st_mode st) then cret (-1, 0)
                            else if S_ISDIR (st_mode st) then upload_directory fuel local_path server_path
                            else if S_ISREG (st_mode st) then upload_file fuel local_path server_path
                            else cret (-1, 0)
                        end
                    | _, _ => cret (-1, 0)
                    end) 0 0 in
                  ccall (LClosedir dir) ;;=
                  let= r := copy_local_metadata_to_remote local_dirname server_parent_path dir_stat in
                  cret ((if r <? 0 then -1 else ret), bytes)
              end
      end
  end.

Definition com_put (fuel : nat) (arg : list Z) : Cmd E Z :=
  let (recursive, arg) := command_recursive_option arg in
  when_attached (
    let= words := escape_paths_alloc false arg in
    match words with
    | None => cret (-1)
    | Some (local_filename, _) =>
        let= r := ccall (LLstat local_filename) in
        match r with
        | Err _ => cret (-1)
        | Ok st =>
            if S_ISLNK (st_mode st) then cret (-1)
            else
              let= path := server_path (basename local_filename) in
              let local_filename := basename_rest local_filename in
              match path with
              | None => cret (-1)
              | Some path =>
                  if S_ISDIR (st_mode st) then
                    if recursive then let= (ret, _) := upload_directory fuel local_filename path in cret ret
                    else cret (-1)
                  else let= (ret, _) := upload_file fuel local_filename path in cret ret
              end
        end
    end).

(** ** Downloads *)

Fixpoint write_all_loop (fuel : nat) (fd : Z) (data : list Z) : Cmd E Z :=
  match data, fuel with
  | [], _ => cret 0
  | _, O => unfinished
  | _, S fuel =>
      let= r := ccall (LWrite fd data) in
      match r with
      | Err e => cret (- e)
      | Ok amount => if amount =? 0 then cret (- EIO) else write_all_loop fuel fd (drop (Z.to_nat amount) data)
      end
  end.

(** Every turn writes a byte or ends. *)
Definition write_all_fd (fd : Z) (data : list Z) : Cmd E Z := write_all_loop (length data) fd data.

(** The bytes received, if all of them were written. *)
Fixpoint retrieve_loop (fuel : nat) (fileid fd total : Z) : Cmd E (option Z) :=
  match fuel with
  | O => unfinished
  | S fuel =>
      let= (ret, buf, eof) := sl (SlRead fileid total BUF_SIZE) in
      if negb (ret =? 0) then cret None
      else if zlen buf =? 0 then cret (Some total)
      else
        let= w := write_all_fd fd buf in
        if w <? 0 then cret None
        else if eof : bool then cret (Some (total + zlen buf))
        else retrieve_loop fuel fileid fd (total + zlen buf)
  end.

(** The result, the attributes as far as they were read, and the bytes of a
    whole download. *)
Definition retrieve_file (fuel : nat) (arg : list Z) (fd : Z) (st : stat) : Cmd E (Z * stat * Z) :=
  let= s := get_shell in
  match vol_id s with
  | None => cret (-1, st, 0)
  | Some _ =>
      let= path := server_path arg in
      match path with
      | None => cret (-1, st, 0)
      | Some path =>
          let= (r, got) := sl (SlStat path) in
          if negb (r =? 0) then cret (-1, st, 0)
          else
            let= (r, fileid) := sl (SlOpen path O_RDONLY) in
            if negb (r =? 0) then cret (-1, got, 0)
            else
              let= total := retrieve_loop fuel fileid fd 0 in
              let result := match total with
                            | None => (-1, got, 0)
                            | Some total => if (st_size got <? 0) || negb (total =? st_size got) then (- EIO, got, 0)
                                            else (0, got, total)
                            end in
              (if fileid =? 0 then cret 0 else sl (SlClose fileid)) ;;= cret result
      end
  end.

(** A step for each entry but . and .. in turn, with the bytes of those that
    succeed. *)
Fixpoint each_counted (step : afpc_file_info -> Cmd E (Z * Z)) (ret bytes : Z) (entries : list afpc_file_info) : Cmd E (Z * Z) :=
  match entries with
  | [] => cret (ret, bytes)
  | p :: entries =>
      if dot_entry (fi_name p) then each_counted step ret bytes entries
      else
        let= (r, n) := step p in
        each_counted step (if r <? 0 then -1 else ret) (bytes + n) entries
  end.

Definition entry_stat (p : afpc_file_info) : stat :=
  Listing.Stat (permissions p) 0 (fi_uid p) (fi_gid p) 0 (fi_size p) 0 0 (Timespec 0 0) (Timespec (modification_date p) 0).

(** A file of a downloaded directory: its bytes count although its metadata
    fail. *)
Definition download_file (fuel : nat) (server_path local_path : list Z) (p : afpc_file_info) : Cmd E (Z * Z) :=
  let= r := ccall (LOpen local_path (Z.lor (Z.lor O_CREAT O_TRUNC) O_RDWR) 420) in
  match r with
  | Err _ => cret (-1, 0)
  | Ok fd =>
      let= (ret, st, amount) := retrieve_file fuel server_path fd (entry_stat p) in
      ccall (LClose fd) ;;=
      let= meta := copy_remote_metadata_to_local server_path local_path st in
      cret ((if (ret <? 0) || (meta <? 0) then -1 else 0), if ret <? 0 then 0 else amount)
  end.

Fixpoint download_directory (fuel : nat) (server_path local_path : list Z) : Cmd E (Z * Z) :=
  match fuel with
  | O => unfinished
  | S fuel =>
      let= (r, dir_stat) := sl (SlStat server_path) in
      if negb (r =? 0) then cret (-1, 0)
      else
        let= made := ccall (LMkdir local_path (mode_bits (st_mode dir_stat))) in
        if match made with Err e => negb (e =? EEXIST) | Ok _ => false end then cret (-1, 0)
        else
          let= (r, files) := remote_readdir_all fuel server_path in
          if negb (r =? 0) then cret (-1, 0)
          else
            let= (ret, bytes) := each_counted (fun p =>
              let= new_server_path := joined_remote server_path (fi_name p) in
              let= new_local_path := joined_local local_path (fi_name p) in
              match new_server_path, new_local_path with
              | Some new_server_path, Some new_local_path =>
                  if S_ISDIR (permissions p) then
                    let= (r, n) := download_directory fuel new_server_path new_local_path in
                    cret (r, if r <? 0 then 0 else n)
                  else if S_ISLNK (permissions p) then cret (-1, 0)
                  else download_file fuel new_server_path new_local_path p
              | _, _ => cret (-1, 0)
              end) 0 0 files in
            let= r := copy_remote_metadata_to_local server_path local_path dir_stat in
            cret ((if r <? 0 then -1 else ret), bytes)
  end.

Definition com_get_file (fuel : nat) (arg : list Z) : Cmd E Z := when_attached (
  let= words := escape_paths_alloc false arg in
  match words with
  | None => cret (-1)
  | Some (filename, _) =>
      let localfilename := basename filename in
      let filename := basename_rest filename in
      let= path := server_path filename in
      match path with
      | None => cret (-1)
      | Some getattr_path =>
          let= (r, st) := sl (SlStat getattr_path) in
          if negb (r =? 0) then cret (-1)
          else
            let= r := ccall (LOpen localfilename (Z.lor (Z.lor O_CREAT O_TRUNC) O_RDWR) (st_mode st)) in
            match r with
            | Err _ => cret (-1)
            | Ok fd =>
                ccall (LFchmod fd (st_mode st)) ;;=
                let= (ret, st, _) := retrieve_file fuel filename fd st in
                ccall (LClose fd) ;;=
                if ret <? 0 then cret (-1)
                else
                  let= meta := copy_remote_metadata_to_local getattr_path localfilename st in
                  cret (if meta <? 0 then -1 else 0)
            end
      end
  end).

Definition com_get (fuel : nat) (arg : list Z) : Cmd E Z :=
  let (recursive, arg) := command_recursive_option arg in
  when_attached (
    let= words := escape_paths_alloc false arg in
    match words with
    | None => cret (-1)
    | Some (filename, _) =>
        let= path := server_path filename in
        match path with
        | None => cret (-1)
        | Some path =>
            let= (r, st) := sl (SlStat path) in
            if negb (r =? 0) then cret (-1)
            else if S_ISDIR (st_mode st) then
              if recursive then let= (ret, _) := download_directory fuel path (basename filename) in cret ret
              else cret (-1)
            else if S_ISLNK (st_mode st) then cret (-1)
            else com_get_file fuel arg
        end
    end).

(** Standard output is descriptor 1. *)
Definition com_view (fuel : nat) (arg : list Z) : Cmd E Z := when_attached (
  let= words := escape_paths_alloc false arg in
  match words with
  | None => cret (-1)
  | Some (filename, _) => retrieve_file fuel filename 1 zero_stat ;;= cret 0
  end).

(** ** Names and folders *)

Definition com_rename (arg : list Z) : Cmd E Z := when_attached (
  let= words := escape_paths_alloc true arg in
  match words with
  | None => cret (-1)
  | Some (oldpath, newpath) =>
      let= server_oldpath := server_path oldpath in
      match server_oldpath with
      | None => cret (-1)
      | Some server_oldpath =>
          let= server_newpath := server_path newpath in
          match server_newpath with
          | None => cret (-1)
          | Some server_newpath =>
              let= ret := sl (SlRename server_oldpath server_newpath) in
              cret (if ret =? 0 then 0 else -1)
          end
      end
  end).

Definition com_mkdir (arg : list Z) : Cmd E Z := when_attached (
  let= words := escape_paths_alloc false arg in
  match words with
  | None => cret (-1)
  | Some (dirname, _) =>
      let= path := server_path dirname in
      match path with
      | None => cret (-1)
      | Some path => let= ret := sl (SlMkdir path 493) in cret (if ret =? 0 then 0 else -1)
      end
  end).

Definition com_rmdir (arg : list Z) : Cmd E Z := when_attached (
  let= words := escape_paths_alloc false arg in
  match words with
  | None => cret (-1)
  | Some (dirname, _) =>
      let= path := server_path dirname in
      match path with
      | None => cret (-1)
      | Some path =>
          let= (ret, st) := sl (SlStat path) in
          if negb (ret =? 0) then cret (-1)
          else if negb (S_ISDIR (st_mode st)) then cret 0
          else let= ret := sl (SlRmdir path) in cret (if ret =? 0 then 0 else -1)
      end
  end).

Fixpoint delete_directory (fuel : nat) (server_path : list Z) : Cmd E Z :=
  match fuel with
  | O => unfinished
  | S fuel =>
      let= (r, files, _) := sl (SlReaddir server_path 0 1000) in
      if negb (r =? 0) then cret (-1)
      else
        let= ret := each_entry (fun p =>
          let= new_server_path := joined_remote server_path (fi_name p) in
          match new_server_path with
          | None => cret (-1)
          | Some new_server_path =>
              if S_ISDIR (permissions p) then delete_directory fuel new_server_path
              else let= r := sl (SlUnlink new_server_path) in cret (if r =? 0 then 0 else -1)
          end) 0 files in
        if ret =? 0 then let= r := sl (SlRmdir server_path) in cret (if r =? 0 then 0 else -1)
        else cret ret
  end.

Definition com_delete (fuel : nat) (arg : list Z) : Cmd E Z :=
  let (recursive, arg) := command_recursive_option arg in
  when_attached (
    let= words := escape_paths_alloc false arg in
    match words with
    | None => cret (-1)
    | Some (filename, _) =>
        let= path := server_path filename in
        match path with
        | None => cret (-1)
        | Some path =>
            let= (r, st) := sl (SlStat path) in
            if negb (r =? 0) then cret (-1)
            else if S_ISDIR (st_mode st) then
              if recursive then let= ret := delete_directory fuel path in cret (if ret =? 0 then 0 else -1)
              else cret (-1)
            else let= ret := sl (SlUnlink path) in cret (if ret =? 0 then 0 else -1)
        end
    end).

End Files.
