(* ===== verification/ShellCopy.v ===== *)
(** The copies within a volume and the commands on metadata and the Desktop
    database (cmdline/cmdline_afp.c). *)
From stdpp Require Import base.
From S2P Require Import Prelude AfpProtocol Path Utils Url Listing LowLevel Resource Local Sidecar CmdText Shell ShellFiles.
Local Open Scope afp_scope.

Section Copies.
Context {E : Type} `{CmdEnv E}.

(** ** Copies *)

(** The bytes copied once the source has ended, [None] after an error. *)
Fixpoint copy_file_loop (fuel : nat) (source_fid target_fid offset : Z) (eof : bool) : Cmd E (option Z) :=
  if eof then cret (Some offset)
  else match fuel with
  | O => unfinished
  | S fuel =>
      let= (ret, buf, eof) := sl (SlRead source_fid offset BUF_SIZE) in
      if negb (ret =? 0) then cret None
      else if zlen buf >? 0 then
        let= (ret, written) := sl (SlWrite target_fid offset buf) in
        if negb (ret =? 0) || negb (written =? zlen buf) then cret None
        else copy_file_loop fuel source_fid target_fid (offset + zlen buf) eof
      else copy_file_loop fuel source_fid target_fid offset eof
  end.

Definition close_if (fid : Z) : Cmd E Z := if fid =? 0 then cret 0 else sl (SlClose fid).

(** The source is open; what is open at the end is closed. *)
Definition copy_opened (fuel : nat) (source_fid : Z) (source target : list Z) (source_stat : stat) : Cmd E Z :=
  let= ret := sl (SlCreat target (Z.lor (mode_bits (st_mode source_stat)) 384)) in
  let created := ret =? 0 in
  if (ret =? - EACCES) || (negb (ret =? 0) && negb (ret =? - EEXIST)) then close_if source_fid ;;= cret (-1)
  else
    let= (ret, target_fid) := open_created_file target created true in
    if negb (ret =? 0) then close_if source_fid ;;= close_if target_fid ;;= cret (-1)
    else
      let= copied := copy_file_loop fuel source_fid target_fid 0 false in
      match copied with
      | None => close_if source_fid ;;= close_if target_fid ;;= cret (-1)
      | Some _ =>
          let= source_close := sl (SlClose source_fid) in
          let= target_close := sl (SlClose target_fid) in
          if negb (source_close =? 0) || negb (target_close =? 0) then cret (-1)
          else
            let= ret := copy_remote_metadata source target source_stat in
            cret (if ret <? 0 then -1 else 0)
      end.

Definition copy_remote_file (fuel : nat) (source target : list Z) (source_stat : stat) : Cmd E Z :=
  let= (target_stat_ret, target_stat) := sl (SlStat target) in
  if negb (target_stat_ret =? 0) && negb (target_stat_ret =? - ENOENT) && negb (target_stat_ret =? - EACCES) then cret (-1)
  else if (target_stat_ret =? 0) && (st_ino target_stat =? st_ino source_stat) then cret (-1)
  else
    let= (ret, source_fid) := sl (SlOpen source O_RDONLY) in
    if negb (ret =? 0) then cret (-1) else copy_opened fuel source_fid source target source_stat.

Fixpoint copy_remote_tree (fuel : nat) (source target : list Z) (source_stat : stat) : Cmd E Z :=
  match fuel with
  | O => unfinished
  | S fuel =>
      let= made := make_remote_directory target (st_mode source_stat) in
      if made <? 0 then cret (-1)
      else
        let= (r, entries) := remote_readdir_all fuel source in
        if negb (r =? 0) then cret (-1)
        else
          let= ret := each_entry (fun entry =>
            let= child_source := joined_remote source (fi_name entry) in
            let= child_target := joined_remote target (fi_name entry) in
            match child_source, child_target with
            | Some child_source, Some child_target =>
                if S_ISLNK (permissions entry) then cret (-1)
                else
                  let= (r, child_stat) := sl (SlStat child_source) in
                  if negb (r =? 0) then cret (-1)
                  else if S_ISDIR (st_mode child_stat) then copy_remote_tree fuel child_source child_target child_stat
                  else copy_remote_file fuel child_source child_target child_stat
            | _, _ => cret (-1)
            end) 0 entries in
          let= r := copy_remote_metadata source target source_stat in
          cret (if r <? 0 then -1 else ret)
  end.

Fixpoint within_loop (fuel : nat) (parent : list Z) (dir : stat) : Cmd E bool :=
  match fuel with
  | O => unfinished
  | S fuel =>
      let= (r, st) := sl (SlStat parent) in
      if (r =? 0) && (st_ino st =? st_ino dir) then cret true
      else match parent_path parent with
           | None => cret false
           | Some parent => within_loop fuel parent dir
           end
  end.

(** [None] without memory. A turn shortens the path. *)
Definition remote_path_within (path : list Z) (dir : stat) : Cmd E (option bool) :=
  let= ok := ccall Malloc in
  if negb ok then cret None else let= within := within_loop (S (length path)) path dir in cret (Some within).

Definition join_source_name (target source : list Z) : Cmd E (option (list Z)) :=
  let= ok := ccall Malloc in
  if negb ok then cret None else joined_remote target (basename source).

Definition com_copy (fuel : nat) (arg : list Z) : Cmd E Z :=
  let (recursive, arg) := command_recursive_option arg in
  when_attached (
    let= words := escape_paths_alloc true arg in
    match words with
    | None => cret (-1)
    | Some (source_path, target_path) =>
        let= server_source := server_path source_path in
        match server_source with
        | None => cret (-1)
        | Some server_source =>
            let= server_target := server_path target_path in
            match server_target with
            | None => cret (-1)
            | Some server_target =>
                let= (r, source_stat) := sl (SlStat server_source) in
                if negb (r =? 0) then cret (-1)
                else if S_ISDIR (st_mode source_stat) then
                  if negb recursive then cret (-1)
                  else
                    let= (r, target_stat) := sl (SlStat server_target) in
                    if (r =? 0) && negb (S_ISDIR (st_mode target_stat)) then cret (-1)
                    else
                      let= target := if r =? 0 then join_source_name server_target source_path else cret (Some server_target) in
                      match target with
                      | None => cret (-1)
                      | Some target =>
                          let= within := remote_path_within target source_stat in
                          match within with
                          | Some false => copy_remote_tree fuel server_source target source_stat
                          | _ => cret (-1)
                          end
                      end
                else if S_ISLNK (st_mode source_stat) then cret (-1)
                else
                  let= (r, target_stat) := sl (SlStat server_target) in
                  let= target := if (r =? 0) && S_ISDIR (st_mode target_stat)
                                 then join_source_name server_target source_path else cret (Some server_target) in
                  match target with
                  | None => cret (-1)
                  | Some target => copy_remote_file fuel server_source target source_stat
                  end
            end
        end
    end).

(** ** Local files of metadata *)

Fixpoint read_whole (fuel : nat) (fd size : Z) (data : list Z) : Cmd E (res (list Z)) :=
  if zlen data >=? size then cret (Ok data)
  else match fuel with
  | O => unfinished
  | S fuel =>
      let= r := ccall (LRead fd (size - zlen data)) in
      match r with
      | Err e => cret (Err (- e))
      | Ok [] => cret (Err (- EIO))
      | Ok piece => read_whole fuel fd size (data ++ piece)
      end
  end.

Definition read_binary_file (path : list Z) (maximum : Z) : Cmd E (res (list Z)) :=
  let= r := ccall (LOpen path O_RDONLY 0) in
  match r with
  | Err e => cret (Err (- e))
  | Ok fd =>
      let= st := ccall (LFstat fd) in
      let= result := match st with
        | Err e => cret (Err (- e))
        | Ok st =>
            if negb (S_ISREG (st_mode st)) || (st_size st <? 0) || (st_size st >? maximum) then cret (Err (- EFBIG))
            else
              let= ok := ccall Malloc in
              if negb ok then cret (Err (- ENOMEM)) else read_whole (Z.to_nat (st_size st)) fd (st_size st) []
        end in
      ccall (LClose fd) ;;= cret result
  end.

(** A file written whole: its close counts unless the write failed. *)
Definition write_and_close (fd : Z) (data : list Z) : Cmd E Z :=
  let= ret := write_all_fd fd data in
  let= closed := ccall (LClose fd) in
  cret (match closed with Err e => if ret =? 0 then - e else ret | Ok _ => ret end).

Definition write_binary_file (path data : list Z) : Cmd E Z :=
  let= r := ccall (LOpen path (Z.lor (Z.lor O_WRONLY O_CREAT) O_TRUNC) METADATA_OUTPUT_MODE) in
  match r with Err e => cret (- e) | Ok fd => write_and_close fd data end.

Definition write_icon_file_exclusive (path data : list Z) : Cmd E Z :=
  let= r := ccall (LOpen path (Z.lor (Z.lor O_WRONLY O_CREAT) O_EXCL) METADATA_OUTPUT_MODE) in
  match r with
  | Err e => cret (- e)
  | Ok fd =>
      let= ret := write_and_close fd data in
      if ret <? 0 then ccall (LUnlink path) ;;= cret ret else cret ret
  end.

(** ** Commands on metadata *)

(** The result of a command whose call answered [ret]. *)
Definition done_unless (ret : Z) : Z := if ret <? 0 then -1 else 0.

Definition said (word : list Z) (what : String.string) : bool := list_eqb word (str what).

(** The names of a list up to its end. *)
Fixpoint printed_names (fuel : nat) (names : list Z) (pos : Z) : Z :=
  match fuel with
  | O => 0
  | S fuel => match metadata_list_next names (zlen names) pos with
              | (next, Some (_, pos)) => printed_names fuel names pos
              | (next, None) => next
              end
  end.

Definition com_xattr (arg : list Z) : Cmd E Z :=
  let= words := parse_command_words_alloc arg 4 in
  when_attached (
    match words with
    | Ok (verb :: file :: more) =>
        let= path := server_path file in
        match path with
        | None => cret (-1)
        | Some path =>
            match more with
            | [] =>
                if said verb "list" then
                  let= (ret, names) := remote_xattr_list path in
                  if ret <? 0 then cret (-1) else cret (done_unless (printed_names (S (length names)) names 0))
                else cret (-1)
            | [name] =>
                if said verb "get" then let= (ret, _) := remote_xattr_get path name in cret (done_unless ret)
                else if said verb "remove" then let= ret := sl (SlAttr path (Removexattr name)) in cret (done_unless ret)
                else cret (-1)
            | name :: local :: _ =>
                if said verb "get" then
                  let= (ret, value) := remote_xattr_get path name in
                  if ret <? 0 then cret (-1) else let= ret := write_binary_file local value in cret (done_unless ret)
                else if said verb "set" then
                  let= r := read_binary_file local AFP_SL_METADATA_CHUNK in
                  match r with
                  | Err e => cret (done_unless e)
                  | Ok value => let= ret := sl (SlAttr path (Setxattr name value)) in cret (done_unless ret)
                  end
                else cret (-1)
            end
        end
    | _ => cret (-1)
    end).

Definition com_finderinfo (arg : list Z) : Cmd E Z :=
  let= words := parse_command_words_alloc arg 3 in
  when_attached (
    match words with
    | Ok (verb :: file :: more) =>
        let= path := server_path file in
        match path with
        | None => cret (-1)
        | Some path =>
            if said verb "get" then
              let= (ret, value) := sl (SlAttr path Getfinderinfo) in
              if ret <? 0 then cret (-1)
              else match more with
                   | [] => cret (done_unless ret)
                   | local :: _ => let= ret := write_binary_file local value in cret (done_unless ret)
                   end
            else match more with
                 | [] => if said verb "remove" then let= ret := sl (SlAttr path Removefinderinfo) in cret (done_unless ret)
                         else cret (-1)
                 | local :: _ =>
                     if said verb "set" then
                       let= r := read_binary_file local 32 in
                       match r with
                       | Err e => cret (done_unless e)
                       | Ok value =>
                           if negb (zlen value =? 32) then cret (-1)
                           else let= ret := sl (SlAttr path (Setfinderinfo value)) in cret (done_unless ret)
                       end
                     else cret (-1)
                 end
        end
    | _ => cret (-1)
    end).

(** A fork up to [limit], to a file or to the screen; every turn reads a byte or
    ends. *)
Fixpoint fork_out (fuel : nat) (path : list Z) (fd : option Z) (offset limit : Z) : Cmd E Z :=
  if offset >=? limit then cret 0
  else match fuel with
  | O => unfinished
  | S fuel =>
      let= (ret, data) := sl (SlAttr path (Getresourcefork (Z.min (limit - offset) AFP_SL_METADATA_CHUNK) offset)) in
      if ret <=? 0 then cret (-1)
      else
        let= w := match fd with Some fd => write_all_fd fd (take (Z.to_nat ret) data) | None => cret 0 end in
        if w <? 0 then cret (-1) else fork_out fuel path fd (offset + ret) limit
  end.

(** The errno of the transfer and the bytes sent. *)
Fixpoint fork_in (fuel : nat) (fd : Z) (path : list Z) (offset : Z) : Cmd E (Z * Z) :=
  match fuel with
  | O => unfinished
  | S fuel =>
      let= r := ccall (LRead fd AFP_SL_METADATA_CHUNK) in
      match r with
      | Err e => cret (- e, offset)
      | Ok [] => cret (0, offset)
      | Ok piece =>
          let= ret := sl (SlAttr path (Setresourcefork piece offset)) in
          if ret <? 0 then cret (ret, offset) else fork_in fuel fd path (offset + zlen piece)
      end
  end.

Definition com_resourcefork (fuel : nat) (arg : list Z) : Cmd E Z :=
  let= words := parse_command_words_alloc arg 3 in
  when_attached (
    match words with
    | Ok (verb :: file :: more) =>
        let= path := server_path file in
        match path with
        | None => cret (-1)
        | Some path =>
            if said verb "get" then
              let= (total, _) := sl (SlAttr path (Getresourcefork 0 0)) in
              if total <? 0 then cret (-1)
              else match more with
                   | [] => fork_out fuel path None 0 (Z.min total 256)
                   | local :: _ =>
                       let= r := ccall (LOpen local (Z.lor (Z.lor O_WRONLY O_CREAT) O_TRUNC) METADATA_OUTPUT_MODE) in
                       match r with
                       | Err _ => cret (-1)
                       | Ok fd =>
                           let= ret := fork_out fuel path (Some fd) 0 total in
                           let= closed := ccall (LClose fd) in
                           cret (match closed with Err _ => -1 | Ok _ => ret end)
                       end
                   end
            else match more with
                 | [] => if said verb "remove" then let= ret := sl (SlAttr path Removeresourcefork) in cret (done_unless ret)
                         else cret (-1)
                 | local :: _ =>
                     if said verb "set" then
                       let= r := ccall (LOpen local O_RDONLY 0) in
                       match r with
                       | Err _ => cret (-1)
                       | Ok fd =>
                           let= (ret, offset) := fork_in fuel fd path 0 in
                           let= ret := if ret >=? 0 then sl (SlTruncateResourcefork path offset) else cret ret in
                           ccall (LClose fd) ;;= cret (done_unless ret)
                       end
                     else cret (-1)
                 end
        end
    | _ => cret (-1)
    end).

(** ** The Desktop database *)

Definition com_comment (arg : list Z) : Cmd E Z :=
  let= words := parse_command_words_alloc arg 3 in
  when_attached (
    match words with
    | Ok (verb :: file :: more) =>
        let= path := server_path file in
        match path with
        | None => cret (-1)
        | Some path =>
            match more with
            | [] => if said verb "get" then let= (ret, _) := sl (SlGetComment path 255) in cret (done_unless ret) else cret (-1)
            | text :: _ => if said verb "set" then let= ret := sl (SlSetComment path text) in cret (done_unless ret) else cret (-1)
            end
        end
    | _ => cret (-1)
    end).

(** The icons of a creator from [index] on, at most [n] of them. *)
Fixpoint icon_list (n : nat) (creator index result : Z) : Cmd E Z :=
  match n with
  | O => cret result
  | S n =>
      let= (ret, _) := sl (SlGetIconInfo creator index) in
      if ret =? - ENOENT then cret 0
      else if ret <? 0 then cret (-1)
      else icon_list n creator (index + 1) 0
  end.

(** The icon of a type: [Err] after an error, [None] if there is none. *)
Fixpoint icon_find (n : nat) (creator index type icon_type_ : Z) : Cmd E (res (option desktop_icon_info)) :=
  match n with
  | O => cret (Ok None)
  | S n =>
      let= (ret, info) := sl (SlGetIconInfo creator index) in
      if ret =? - ENOENT then cret (Ok None)
      else if ret <? 0 then cret (Err (-1))
      else if (icon_file_type info =? type) && (icon_type info =? icon_type_) then cret (Ok (Some info))
      else icon_find n creator (index + 1) type icon_type_
  end.

Definition com_icon (arg : list Z) : Cmd E Z :=
  let= words := parse_command_words_alloc arg 5 in
  when_attached (
    match words with
    | Ok (verb :: code :: more) =>
        match parse_finder_code (Some code) with
        | None => cret (-1)
        | Some creator =>
            match more with
            | [] => if said verb "list" then icon_list (Z.to_nat UINT16_MAX) creator 1 (-1) else cret (-1)
            | [type_text; icon_text; local] =>
                match said verb "get", parse_finder_code (Some type_text), parse_decimal_u16 (Some icon_text) with
                | true, Some type, Some icon_type_ =>
                    if icon_type_ >? UINT8_MAX then cret (-1)
                    else
                      let= found := icon_find (Z.to_nat UINT16_MAX) creator 1 type icon_type_ in
                      match found with
                      | Ok (Some info) =>
                          let= ok := ccall Malloc in
                          if negb ok then cret (-1)
                          else
                            let= (ret, data) := sl (SlGetIcon creator type icon_type_ (icon_size info)) in
                            if ret <? 0 then cret (-1)
                            else let= ret := write_icon_file_exclusive local (take (Z.to_nat ret) data) in cret (done_unless ret)
                      | _ => cret (-1)
                      end
                | _, _, _ => cret (-1)
                end
            | _ => cret (-1)
            end
        end
    | _ => cret (-1)
    end).

(** The programs of a creator from [index] on, at most [n] of them; the one
    asked for must be there. *)
Fixpoint appl_list (n : nat) (creator index : Z) (one : bool) (result : Z) : Cmd E Z :=
  match n with
  | O => cret result
  | S n =>
      let= ret := sl (SlGetAppl creator index) in
      if (ret =? - ENOENT) && negb one then cret 0
      else if ret <? 0 then cret (-1)
      else appl_list n creator (index + 1) one 0
  end.

Definition com_appl (arg : list Z) : Cmd E Z :=
  let= words := parse_command_words_alloc arg 3 in
  when_attached (
    match words with
    | Ok (verb :: code :: more) =>
        match parse_finder_code (Some code) with
        | None => cret (-1)
        | Some creator =>
            match more with
            | [] => if said verb "list" then appl_list (Z.to_nat UINT16_MAX) creator 1 false (-1) else cret (-1)
            | number :: _ =>
                if said verb "get" then
                  match parse_decimal_u16 (Some number) with
                  | Some index => if index =? 0 then cret (-1) else appl_list 1 creator index true (-1)
                  | None => cret (-1)
                  end
                else cret (-1)
            end
        end
    | _ => cret (-1)
    end).

End Copies.
