(* ===== verification/ShellSession.v ===== *)
(** The session of the command line client (cmdline/cmdline_afp.c): connecting,
    volumes and their passwords, the recovery of a lost session, the current
    directory, and the transfers of a command line with two paths. *)
From stdpp Require Import base.
From S2P Require Import Prelude AfpProtocol Path Utils Listing Url LowLevel Resource Local Sidecar Ipc Stateless CmdText Shell ShellFiles ShellCopy.
Local Open Scope afp_scope.

Definition DIRECTORY_PAGE_SIZE : Z := 256.

(** enum directory_prompt_result. *)
Definition DIRECTORY_PROMPT_CONTINUE : Z := 0.
Definition DIRECTORY_PROMPT_QUIT : Z := 1.
Definition DIRECTORY_PROMPT_ERROR : Z := -1.

(** sizeof of the volume's password. *)
Definition VOLPASSWORD_LEN : Z := 9.

Definition is_recoverable_session_error (ret : Z) : bool :=
  match afp_sl_recovery_for_error ret with AFP_SL_RECOVERY_NONE => false | _ => true end.

Section Session.
Context {E : Type} `{CmdEnv E}.

(** ** Passwords *)

(** A password is asked for when the url says "-", or names a user without one. *)
Definition asks_password (u : afpc_url) : bool :=
  list_eqb (u_password u) (str "-")
  || (negb (zlen (u_username u) =? 0) && negb (list_eqb (u_username u) (str "nobody")) && (zlen (u_password u) =? 0)).

Definition cmdline_getpass : Cmd E Z :=
  let= s := get_shell in
  if asks_password (url s) then
    let= passwd := ccall Getpass in
    match passwd with
    | None => cret (-1)
    | Some passwd =>
        if zlen passwd >=? AFPC_MAX_PASSWORD_LEN then cret (-1)
        else change_shell (fun s => set_url (set_u_password passwd (url s)) s) ;;= cret 0
    end
  else cret 0.

Definition cmdline_get_volpass : Cmd E Z :=
  let= volpass := ccall Getpass in
  match volpass with
  | None => cret (-1)
  | Some volpass => change_shell (set_volpassword (strlcpy volpass VOLPASSWORD_LEN)) ;;= cret 0
  end.

Definition com_pass : Cmd E Z :=
  let= s := get_shell in
  if negb (connected s) then cret (-1)
  else
    let= old := ccall Getpass in
    match old with
    | None | Some [] => cret (-1)
    | Some old =>
        let= new := ccall Getpass in
        match new with
        | None | Some [] => cret (-1)
        | Some new =>
            let new := strlcpy new AFPC_MAX_PASSWORD_LEN in
            let= confirm := ccall Getpass in
            match confirm with
            | None => cret (-1)
            | Some confirm =>
                if negb (list_eqb new confirm) then cret (-1)
                else
                  let= s := get_shell in
                  let= ret := ccall (SlChangepw (url s) (strlcpy old AFPC_MAX_PASSWORD_LEN) new) in
                  cret (if ret =? 0 then 0 else -1)
            end
        end
    end.

(** ** Volumes *)

(** The result, and the volume of a success. *)
Definition attach_volume_with_password_prompt (server : Z) : Cmd E (Z * Z) :=
  change_shell (set_volpassword []) ;;=
  let= s := get_shell in
  let= (ret, vol, password_required) := ccall (SlAttach server (url s) (volpassword s)) in
  if ret =? 0 then cret (0, vol)
  else if password_required : bool then
    let= r := cmdline_get_volpass in
    if negb (r =? 0) then cret (- EACCES, 0)
    else
      let= s := get_shell in
      let= (ret, vol, _) := ccall (SlAttach server (url s) (volpassword s)) in
      cret (ret, vol)
  else cret (ret, 0).

Definition get_uam_mask_for_url : Cmd E Z :=
  let= s := get_shell in
  ccall (SlUams (if zlen (u_uamname (url s)) =? 0 then None else Some (u_uamname (url s)))).

(** The old session, or none of it where its server has been disconnected. *)
Definition recovery_failed (before : shell) (old_server_id : option Z) (new_server_id : Z) (saved_dir : list Z) : Cmd E Z :=
  (if match old_server_id with Some old => negb (new_server_id =? old) | None => true end
   then ccall (SlDisconnect new_server_id) else cret 0) ;;=
  change_shell (fun s => set_url (set_u_volumename (u_volumename (url before)) (url s))
    (set_connected (connected before) (set_vol_id (vol_id before) (set_server_id old_server_id s)))) ;;=
  set_current_directory (Some saved_dir) ;;=
  cret (-1).

(** The old server is left, and its identifier is gone once it is. *)
Definition leave_server (old_server_id : option Z) (new_server_id : Z) : Cmd E (option Z) :=
  match old_server_id with
  | Some old =>
      if old =? new_server_id then cret (Some old)
      else
        let= ret := ccall (SlDisconnect old) in
        if ret =? 0 then cret None else ccall SlExit ;;= cret (Some old)
  | None => cret None
  end.

(** A new session: the daemon's own, or a fresh login. *)
Definition new_session (s : shell) (uam_mask : Z) : Cmd E (option Z) :=
  let reconnect_url := if zlen (connect_servername s) =? 0 then url s else set_u_servername (connect_servername s) (url s) in
  let= (ret, server) := ccall (SlConnect true (set_u_password [] reconnect_url) uam_mask) in
  if ret =? 0 then cret (Some server)
  else if ret =? - EPROTO then cret None
  else
    let= (ret, server) := ccall (SlConnect false reconnect_url uam_mask) in
    cret (if ret =? 0 then Some server else None).

Definition recover_session (restore_volume restore_dir : bool) : Cmd E Z :=
  let= s := get_shell in
  if negb (connected s) then cret (-1)
  else
    let= ok := ccall Malloc in
    if negb ok then cret (-1)
    else
      let saved_dir := current_directory s in
      let= uam_mask := get_uam_mask_for_url in
      if uam_mask =? 0 then cret (-1)
      else
        let= server := new_session s uam_mask in
        match server with
        | None => cret (-1)
        | Some new_server_id =>
            let attach := (restore_volume || match vol_id s with Some _ => true | None => false end)
                          && negb (zlen (u_volumename (url s)) =? 0) in
            let= (ret, new_vol_id) :=
              if attach then
                let= (ret, vol) := attach_volume_with_password_prompt new_server_id in cret (ret, Some vol)
              else cret (0, None) in
            if negb (ret =? 0) then recovery_failed s (server_id s) new_server_id saved_dir
            else
              let= old_server_id := leave_server (server_id s) new_server_id in
              change_shell (fun s => set_vol_id new_vol_id (set_connected true (set_server_id (Some new_server_id) s))) ;;=
              let= ret := if restore_dir && negb (zlen saved_dir =? 0) then set_current_directory (Some saved_dir) else cret 0 in
              if negb (ret =? 0) then recovery_failed s old_server_id new_server_id saved_dir else cret 0
        end.

(** A call again after a recovered session. *)
Definition once_recovered {A} (restore_volume restore_dir : bool) (failed : A -> Z) (call : Cmd E A) : Cmd E A :=
  let= a := call in
  if negb (failed a =? 0) && is_recoverable_session_error (failed a) then
    let= r := recover_session restore_volume restore_dir in
    if r =? 0 then call else cret a
  else cret a.

Definition attach_here : Cmd E Z :=
  let= s := get_shell in
  let= (ret, vol) := attach_volume_with_password_prompt (default 0 (server_id s)) in
  if ret =? 0 then change_shell (set_vol_id (Some vol)) ;;= cret 0 else cret ret.

Definition attach_named_volume (volume_name : list Z) : Cmd E Z :=
  change_shell (fun s => set_url (set_u_volumename (strlcpy volume_name AFPC_VOLUME_NAME_UTF8_LEN) (url s)) s) ;;=
  if zlen volume_name >=? AFPC_VOLUME_NAME_UTF8_LEN then cret (-1)
  else
    let= ret := once_recovered false false (fun ret => ret) attach_here in
    if negb (ret =? 0) then
      change_shell (fun s => set_url (set_u_volumename [] (url s)) s) ;;= cret (-1)
    else
      let= ret := set_current_directory (Some DEFAULT_DIRECTORY) in
      cret (if ret =? 0 then 0 else -1).

Definition cmdline_afp_exit : Cmd E unit :=
  change_shell (fun s => set_volpassword [] (set_url cleared_url (set_curdir empty_path
    (set_connected false (set_server_id None (set_vol_id None s)))))).

(** The lines of the picker until one attaches a volume or leaves. *)
Fixpoint pick_loop (fuel : nat) (vols : list (list Z)) : Cmd E Z :=
  match fuel with
  | O => unfinished
  | S fuel =>
      let= line := ccall Readline in
      match line with
      | None => change_shell (set_quit_requested true) ;;= cmdline_afp_exit ;;= cret 0
      | Some line =>
          if list_eqb line (str "q") then change_shell (set_quit_requested true) ;;= cmdline_afp_exit ;;= cret 0
          else match parse_volume_slot line (zlen vols) with
               | None => pick_loop fuel vols
               | Some index =>
                   let= ret := attach_named_volume (default [] (vols !! Z.to_nat index)) in
                   if ret =? 0 then cret 0 else pick_loop fuel vols
               end
      end
  end.

Definition pick_volume (fuel : nat) : Cmd E Z :=
  let= ok := ccall Malloc in
  if negb ok then cret (-1)
  else
    let= (ret, vols) := once_recovered false false fst
      (let= s := get_shell in ccall (SlGetvols (default 0 (server_id s)) (url s) 0 100)) in
    if negb (ret =? 0) then cret (-1)
    else if zlen vols =? 0 then cret 0
    else pick_loop fuel vols.

(** ** The session and the current directory *)

Definition com_disconnect : Cmd E Z :=
  let= s := get_shell in
  if negb (connected s) then cret (-1)
  else
    match vol_id s with
    | Some vol => ccall (SlDetach vol) ;;= change_shell (fun s => set_volpassword [] (set_vol_id None s))
    | None => cret tt
    end ;;=
    match server_id s with
    | Some server => ccall (SlDisconnect server) ;;= change_shell (set_server_id None)
    | None => cret tt
    end ;;=
    ccall SlExit ;;=
    change_shell (set_connected false) ;;=
    cret 0.

Definition com_exit (fuel : nat) : Cmd E Z :=
  let= s := get_shell in
  if negb (connected s) then cret (-1)
  else
    match vol_id s with
    | Some vol => ccall (SlDetach vol) ;;= change_shell (fun s => set_volpassword [] (set_vol_id None s))
    | None => cret tt
    end ;;=
    let= ret := set_current_directory (Some DEFAULT_DIRECTORY) in
    if negb (ret =? 0) then cret (-1) else pick_volume fuel.

(** cd without a directory: the root, or a volume. *)
Definition cd_home (fuel : nat) : Cmd E Z :=
  let= s := get_shell in
  match vol_id s with
  | Some _ => let= ret := set_current_directory (Some DEFAULT_DIRECTORY) in cret (if ret =? 0 then 0 else -1)
  | None => pick_volume fuel ;;= cret 0
  end.

(** cd ..: the current directory cut at its last slash, in place. *)
Definition cd_up : Cmd E Z :=
  let= s := get_shell in
  let= ret := match path_data (curdir s) with None => set_current_directory (Some DEFAULT_DIRECTORY) | Some _ => cret 0 end in
  if negb (ret =? 0) then cret (-1)
  else
    let= s := get_shell in
    let dir := current_directory s in
    match strrchr dir ch_slash with
    | Some p => if negb (p =? 0) then change_shell (set_curdir (mk_path (Some (take (Z.to_nat p) dir)) p)) ;;= cret 0
                else let= ret := set_current_directory (Some DEFAULT_DIRECTORY) in cret (if ret =? 0 then 0 else -1)
    | None => let= ret := set_current_directory (Some DEFAULT_DIRECTORY) in cret (if ret =? 0 then 0 else -1)
    end.

(** A directory that cannot be entered for its kind or its path's length is told
    to the user only. *)
Definition cd_to (path : list Z) : Cmd E Z :=
  let= dir_path := server_path path in
  match dir_path with
  | None => cret (-1)
  | Some dir_path =>
      let= (ret, st) := once_recovered true true fst (sl (SlStat dir_path)) in
      if negb (ret =? 0) then cret ret
      else if negb (S_ISDIR (st_mode st)) then cret 0
      else set_current_directory (Some dir_path) ;;= cret 0
  end.

Definition com_cd (fuel : nat) (arg : option (list Z)) : Cmd E Z :=
  let= s := get_shell in
  if negb (connected s) then cret (-1)
  else match arg with
  | None => cd_home fuel
  | Some arg =>
      let arg_len := strnlen arg AFPC_MAX_UTF8_PATH_STORAGE in
      if arg_len >=? AFPC_MAX_UTF8_PATH_STORAGE then cret (-1)
      else if arg_len =? 0 then cd_home fuel
      else
        let= words := escape_paths_alloc false arg in
        match words with
        | None => cret (-1)
        | Some (path, _) =>
            match vol_id s with
            | None => attach_named_volume path
            | Some _ =>
                if list_eqb path (str "..") then cd_up
                else if list_eqb path (str ".") then cret 0
                else cd_to path
            end
        end
  end.

(** ** Listings *)

(** Entries for a screen of [room] lines: those of the page at hand, and of more
    pages. [Err] is a result that ends the command. *)
Fixpoint fill_screen (fuel : nat) (dir_path : list Z) (room : Z) (screen batch : list afpc_file_info) (fetched : Z) (eod : bool) :
    Cmd E (res (list afpc_file_info * list afpc_file_info * Z * bool)) :=
  if zlen screen >=? room then cret (Ok (screen, batch, fetched, eod))
  else match fuel with
  | O => unfinished
  | S fuel =>
      match batch with
      | p :: batch => fill_screen fuel dir_path room (screen ++ [p]) batch fetched eod
      | [] =>
          if eod then cret (Ok (screen, [], fetched, eod))
          else if fetched >? INT_MAX then cret (Err (-1))
          else
            let= (ret, page, eod) := once_recovered true true (fun a => fst (fst a)) (sl (SlReaddir dir_path fetched DIRECTORY_PAGE_SIZE)) in
            if negb (ret =? 0) then cret (Err ret)
            else match page with
                 | [] => cret (Ok (screen, [], fetched, eod))
                 | p :: batch =>
                     if UINT32_MAX - fetched <? zlen page then cret (Err (-1))
                     else fill_screen fuel dir_path room (screen ++ [p]) batch (fetched + zlen page) eod
                 end
      end
  end.

(** The result, and the entries shown. *)
Fixpoint dir_loop (fuel : nat) (dir_path : list Z) (batch : list afpc_file_info) (fetched : Z) (eod : bool) (shown : list afpc_file_info) :
    Cmd E (Z * list afpc_file_info) :=
  match fuel with
  | O => unfinished
  | S fuel =>
      let= screen_entries := ccall ScreenEntries in
      let= ok := ccall Malloc in
      if negb ok then cret (-1, shown)
      else
        let= r := fill_screen fuel dir_path screen_entries [] batch fetched eod in
        match r with
        | Err ret => cret (ret, shown)
        | Ok (screen, batch, fetched, eod) =>
            if zlen screen =? 0 then cret (0, shown)
            else if UINT32_MAX - zlen shown <? zlen screen then cret (-1, shown ++ screen)
            else if negb (zlen batch =? 0) || negb eod then
              let= prompt := ccall PromptNextPage in
              if prompt =? DIRECTORY_PROMPT_ERROR then cret (-1, shown ++ screen)
              else if prompt =? DIRECTORY_PROMPT_QUIT then cret (0, shown ++ screen)
              else dir_loop fuel dir_path batch fetched eod (shown ++ screen)
            else dir_loop fuel dir_path batch fetched eod (shown ++ screen)
        end
  end.

Definition com_dir (fuel : nat) (arg : list Z) : Cmd E (Z * list afpc_file_info) :=
  let= s := get_shell in
  match vol_id s with
  | None => if connected s then pick_volume fuel ;;= cret (0, []) else cret (-1, [])
  | Some _ =>
      let= dir_path :=
        if zlen arg =? 0 then duplicated (current_directory s)
        else
          let= words := escape_paths_alloc false arg in
          match words with
          | None => cret None
          | Some (path, _) => if list_eqb path (str ".") then duplicated (current_directory s) else server_path path
          end in
      match dir_path with
      | None => cret (-1, [])
      | Some dir_path => dir_loop fuel dir_path [] 0 false []
      end
  end.

(** ** Start and batch transfers *)

(** [None]: the process exits for a method it does not know. *)
Definition cmdline_server_startup (fuel : nat) (batch_mode : bool) : Cmd E (option Z) :=
  let= uam_mask := get_uam_mask_for_url in
  if uam_mask =? 0 then cret None
  else
    change_shell (fun s => if zlen (connect_servername s) =? 0 then set_connect_servername (u_servername (url s)) s else s) ;;=
    let= s := get_shell in
    let= (ret, server) := ccall (SlConnect false (url s) uam_mask) in
    if negb (ret =? 0) then cret (Some (-1))
    else
      change_shell (fun s => set_connected true (set_server_id (Some server) s)) ;;=
      let= (ret, name) := ccall (SlServerinfo (url s)) in
      (if (ret =? 0) && negb (zlen name =? 0)
       then change_shell (fun s => set_url (set_u_servername (strlcpy name AFPC_SERVER_NAME_UTF8_LEN) (url s)) s) else cret tt) ;;=
      let= s := get_shell in
      if negb (zlen (u_volumename (url s)) =? 0) then
        let= ret := attach_here in
        if negb (ret =? 0) then cret (Some (-1))
        else
          let= ret := set_current_directory (path_data (u_path (url s))) in
          if negb (ret =? 0) then cret (Some (-1))
          else match path_data (u_path (url s)) with
               | Some p =>
                   if negb batch_mode && negb (zlen p =? 0) then
                     let= (r, st) := sl (SlStat p) in
                     cret (Some (if (r =? 0) && S_ISDIR (st_mode st) then 0 else -1))
                   else cret (Some 0)
               | None => cret (Some 0)
               end
      else if batch_mode then cret (Some 0)
      else let= ret := pick_volume fuel in cret (Some (if ret =? 0 then 0 else -1)).

(** The url's path, or the root for none. *)
Definition url_path (s : shell) : list Z := or_root (path_data (u_path (url s))).

Definition batch_get (fuel : nat) (local_path : list Z) (recursive : bool) : Cmd E Z :=
  let= s := get_shell in
  let remote_path := if zlen (url_path s) =? 1 then DEFAULT_DIRECTORY else url_path s in
  let= (r, st) := sl (SlStat remote_path) in
  if negb (r =? 0) then cret (-1)
  else if S_ISLNK (st_mode st) then cret (-1)
  else if S_ISDIR (st_mode st) then
    if negb recursive then cret (-1)
    else let= (ret, _) := download_directory fuel remote_path local_path in cret ret
  else
    let= local_st := ccall (LStat local_path) in
    let= ok := ccall Malloc in
    let dest_path :=
      if match local_st with Ok st => S_ISDIR (st_mode st) | Err _ => false end
      then join_local_path ok local_path
             (match strrchr remote_path ch_slash with Some i => drop (Z.to_nat (i + 1)) remote_path | None => remote_path end)
      else if ok then Some local_path else None in
    match dest_path with
    | None => cret (-1)
    | Some dest_path =>
        let= r := ccall (LOpen dest_path (Z.lor (Z.lor O_CREAT O_TRUNC) O_RDWR) 420) in
        match r with
        | Err _ => cret (-1)
        | Ok fd =>
            let= (ret, st, _) := retrieve_file fuel remote_path fd st in
            ccall (LClose fd) ;;=
            if ret =? 0 then
              let= meta := copy_remote_metadata_to_local remote_path dest_path st in cret (if meta <? 0 then -1 else 0)
            else cret ret
        end
    end.

Definition batch_put (fuel : nat) (local_path : list Z) (recursive : bool) : Cmd E Z :=
  let= r := ccall (LLstat local_path) in
  match r with
  | Err _ => cret (-1)
  | Ok st =>
      if S_ISLNK (st_mode st) then cret (-1)
      else
        let= s := get_shell in
        let remote_base := url_path s in
        let base := basename local_path in
        let rest := basename_rest local_path in
        if S_ISDIR (st_mode st) then
          if negb recursive then cret (-1)
          else
            let= ok := ccall Malloc in
            match (if list_eqb base (str ".") then duplicate_remote_path ok (Some remote_base)
                   else join_remote_path ok (Some remote_base) (Some base)) with
            | None => cret (-1)
            | Some dest_path => let= (ret, _) := upload_directory fuel rest dest_path in cret ret
            end
        else
          let= (r, remote_st) := sl (SlStat remote_base) in
          let= ok := ccall Malloc in
          match (if (r =? 0) && S_ISDIR (st_mode remote_st) then join_remote_path ok (Some remote_base) (Some base)
                 else duplicate_remote_path ok (Some remote_base)) with
          | None => cret (-1)
          | Some dest_path => let= (ret, _) := upload_file fuel rest dest_path in cret ret
          end
  end.

(** [put] is the direction. *)
Definition cmdline_batch_transfer (fuel : nat) (local_path : option (list Z)) (put recursive : bool) : Cmd E Z :=
  let= s := get_shell in
  if negb (connected s) then cret (-1)
  else match vol_id s, local_path with
       | Some _, Some local_path => if put then batch_put fuel local_path recursive else batch_get fuel local_path recursive
       | _, _ => cret (-1)
       end.

End Session.

(** The loop of the command line client (cmdline/cmdline_main.c): a line, the
    command it names, and the command's run. *)

(** ** Lines *)

Definition whitespace (c : Z) : bool := (c =? ch_space) || (c =? ch_tab).

Fixpoint skip_white (s : list Z) : list Z :=
  match s with b :: r => if whitespace b then skip_white r else s | [] => [] end.

(** A first byte that is not white stays. *)
Definition stripwhite (string : list Z) : list Z :=
  match skip_white string with [] => [] | s => rev (skip_white (rev s)) end.

(** The word a line starts with, and what follows the white space behind it. *)
Fixpoint word_and_rest (line : list Z) : list Z * list Z :=
  match line with
  | [] => ([], [])
  | b :: r => if whitespace b then ([], skip_white r) else let (w, rest) := word_and_rest r in (b :: w, rest)
  end.

(** ** Commands *)

Inductive COMMAND :=
| Appl | Cat | Cd | Chmod | Comment | Cp | Disconnect | Df | Exit | Finderinfo | Icon | Get | Help | Lcd | Lpwd | Ls | Mkdir_ | Mv
| Passwd | Put | Pwd | Quit | Rm | Rmdir_ | Resourcefork | Status | Touch | Xattr.

Definition commands : list (list Z * COMMAND) :=
  [(str "appl", Appl); (str "cat", Cat); (str "cd", Cd); (str "chmod", Chmod); (str "comment", Comment); (str "cp", Cp);
   (str "disconnect", Disconnect); (str "df", Df); (str "exit", Exit); (str "finderinfo", Finderinfo); (str "icon", Icon);
   (str "get", Get); (str "help", Help); (str "lcd", Lcd); (str "lpwd", Lpwd); (str "ls", Ls); (str "mkdir", Mkdir_); (str "mv", Mv);
   (str "passwd", Passwd); (str "put", Put); (str "pwd", Pwd); (str "quit", Quit); (str "rm", Rm); (str "rmdir", Rmdir_);
   (str "resourcefork", Resourcefork); (str "status", Status); (str "touch", Touch); (str "xattr", Xattr); (str "?", Help)].

Definition find_command (name : list Z) : option COMMAND :=
  snd <$> find (fun c => list_eqb name (fst c)) commands.

Section Main.
Context {E : Type} `{CmdEnv E}.

Definition com_statvfs : Cmd E Z := when_attached (
  let= path := server_path (str ".") in
  match path with
  | None => cret (-1)
  | Some path => let= ret := sl (SlStatfs path) in cret (if ret =? 0 then 0 else -1)
  end).

Definition com_status : Cmd E Z := let= ret := ccall SlStatus in cret (if ret =? 0 then 0 else -1).

Definition com_lcd (path : list Z) : Cmd E Z :=
  let= ret := ccall (LChdir path) in cret (match ret with Ok _ => 0 | Err _ => -1 end).

Definition com_pwd : Cmd E Z := when_attached (cret 0).

Definition com_quit : Cmd E Z := cmdline_afp_exit ;;= change_shell (set_running false) ;;= cret 0.

Definition com_close : Cmd E Z := com_disconnect ;;= change_shell (set_running false) ;;= cret 0.

(** The commands but help and lpwd, which only print. *)
Definition run_command (fuel : nat) (c : COMMAND) (arg : list Z) : Cmd E Z :=
  match c with
  | Appl => com_appl arg | Cat => com_view fuel arg | Cd => com_cd fuel (Some arg) | Chmod => com_chmod fuel arg
  | Comment => com_comment arg | Cp => com_copy fuel arg | Disconnect => com_close | Df => com_statvfs | Exit => com_exit fuel
  | Finderinfo => com_finderinfo arg | Icon => com_icon arg | Get => com_get fuel arg | Help => cret 0 | Lcd => com_lcd arg
  | Lpwd => cret 0 | Ls => let= (ret, _) := com_dir fuel arg in cret ret | Mkdir_ => com_mkdir arg | Mv => com_rename arg | Passwd => com_pass
  | Put => com_put fuel arg | Pwd => com_pwd | Quit => com_quit | Rm => com_delete fuel arg | Rmdir_ => com_rmdir arg
  | Resourcefork => com_resourcefork fuel arg | Status => com_status | Touch => com_touch arg | Xattr => com_xattr arg
  end.

Definition execute_line (fuel : nat) (line : list Z) : Cmd E Z :=
  let (word, arg) := word_and_rest (skip_white line) in
  match find_command word with
  | None => cret (-1)
  | Some c => run_command fuel c arg ;;= cret 0
  end.

(** [lines] bounds the lines read. *)
Fixpoint cmdline_ui (lines fuel : nat) : Cmd E unit :=
  let= s := get_shell in
  if negb (running s) || quit_requested s then cret tt
  else match lines with
  | O => unfinished
  | S lines =>
      let= line := ccall Readline in
      match line with
      | None => cret tt
      | Some line =>
          let s := stripwhite line in
          (if zlen s =? 0 then cret 0 else execute_line fuel s) ;;= cmdline_ui lines fuel
      end
  end.

End Main.

(** ** A completed name on a command line *)

(** What a command with one path, or with two, reads of a line. *)
Definition command_reads (two : bool) (line : list Z) : list Z * option (list Z * list Z) :=
  let (word, arg) := word_and_rest (skip_white (stripwhite line)) in (word, escaped_paths two arg).

Definition black (b : Z) : Prop := whitespace b = false.

(** A name that starts and ends with bytes the line's reading leaves: it does not
    start with a tab, nor end with white space. *)
Definition completable (name : list Z) : Prop :=
  no_nul name /\ zlen name < AFPC_MAX_UTF8_PATH_STORAGE /\ existsb special name = false
  /\ (exists b, head name = Some b /\ b <> ch_tab) /\ (exists b, last name = Some b /\ black b).

Lemma skip_black s : (forall b, head s = Some b -> black b) -> skip_white s = s.
Proof. destruct s as [|b s]; [done|]. intros Hb. cbn [skip_white]. by rewrite (Hb b eq_refl). Qed.

Lemma skip_all w s : forallb whitespace w = true -> skip_white (w ++ s) = skip_white s.
Proof. induction w as [|b w IH]; [done|]. cbn [forallb app skip_white]. by intros [-> Hw]%andb_prop; apply IH. Qed.

(** White space behind the last word goes. *)
Lemma stripwhite_line line trail :
  (exists b, head line = Some b /\ black b) -> (exists b, last line = Some b /\ black b) -> forallb whitespace trail = true ->
  stripwhite (line ++ trail) = line.
Proof.
  intros (b & Hb & Hb') (c & Hc & Hc') Ht. unfold stripwhite. destruct line as [|x line]; [done|]. injection Hb as ->.
  rewrite skip_black by (by intros ? [= <-]). cbn [app]. rewrite app_comm_cons, rev_app_distr, skip_all.
  - rewrite skip_black, rev_involutive; [done|]. intros d Hd. rewrite rev_alt in Hd. change (rev_append ?l []) with (reverse l) in Hd.
    rewrite head_reverse, Hc in Hd. by injection Hd as <-.
  - apply forallb_forall. intros y Hy. apply in_rev in Hy. by apply (proj1 (forallb_forall _ _) Ht).
Qed.

Lemma word_split word rest : Forall black word -> word_and_rest (word ++ ch_space :: rest) = (word, skip_white rest).
Proof. induction 1 as [|b word Hb _ IH]; [done|]. cbn [app word_and_rest]. rewrite Hb, IH. done. Qed.

Lemma completed_head name : (exists b, head name = Some b /\ b <> ch_tab) -> exists b, head (completed name) = Some b /\ black b.
Proof.
  intros (b & Hb & Ht). destruct name as [|x name]; [done|]. injection Hb as ->. rewrite completed_cons. unfold black, whitespace.
  destruct (Z.eqb_spec b ch_space) as [->|Hs]; eexists; (split; [done|]); [done|]. by rewrite (proj2 (Z.eqb_neq _ _) Hs), (proj2 (Z.eqb_neq _ _) Ht).
Qed.

Lemma completed_last name b : last name = Some b -> black b -> last (completed name) = Some b.
Proof.
  intros Hl Hb. destruct name as [|x name _] using rev_ind; [done|]. rewrite last_snoc in Hl. injection Hl as ->.
  unfold completed. rewrite flat_map_app. cbn [flat_map]. unfold black, whitespace in Hb. apply orb_false_elim in Hb as [-> _]. by rewrite app_nil_r, last_snoc.
Qed.

(** A line of a word and an argument. *)
Lemma line_read two word arg trail :
  word <> [] -> Forall black word -> (exists b, head arg = Some b /\ black b) -> (exists b, last arg = Some b /\ black b) -> forallb whitespace trail = true ->
  command_reads two (word ++ [ch_space] ++ arg ++ trail) = (word, escaped_paths two arg).
Proof.
  intros Hw Hb (b & Hh & Hh') (c & Hl & Hl') Ht. unfold command_reads.
  replace (word ++ [ch_space] ++ arg ++ trail) with ((word ++ ch_space :: arg) ++ trail) by (by rewrite <- app_assoc).
  assert (Hhead : exists b, head (word ++ ch_space :: arg) = Some b /\ black b).
  { destruct Hb as [|x word Hx _]; [done|]. by exists x. }
  rewrite stripwhite_line; [|done| |done].
  - rewrite skip_black by (intros d Hd; destruct Hhead as (y & Hy & ?); congruence). rewrite word_split by done.
    rewrite skip_black by (intros d Hd; congruence). done.
  - exists c. split; [|done]. rewrite last_app_cons, last_cons, Hl. done.
Qed.


(** Names the conditions leave out: a space at the end, and a tab at the start. *)
Example completed_space_lost : command_reads false (str "rm " ++ completed (str "foo ")) = (str "rm", Some (str "foo", [])).
Proof. reflexivity. Qed.
Example completed_tab_lost : command_reads false (str "rm " ++ completed (ch_tab :: str "foo")) = (str "rm", Some (str "foo", [])).
Proof. reflexivity. Qed.

