(* ===== verification/ShellTrace.v ===== *)
(** Traces of the command line client: what a program does to names on either
    side, and that the commands on trees stay below the directory they are
    given. *)
From stdpp Require Import base list.
From S2P Require Import Prelude AfpProtocol Path Utils Url Listing LowLevel Resource Local Sidecar CmdText Shell ShellFiles ShellCopy.
Local Open Scope afp_scope.

(** ** Traces *)

Section Traces.
Context {E : Type} {HE : CmdEnv E} {T : Type} (note : forall A, ccmd A -> A -> list T).

(** An environment that keeps notes of its calls and their answers. *)
Definition noted : CmdEnv (E * list T) :=
  fun A c e => let (a, e') := answer_cmd c (fst e) in (a, (e', snd e ++ note A c a)).
#[local] Existing Instance noted.

(** The notes of a run, and a result that has ended. *)
Definition leaves (P : list T -> Prop) {A} (Q : A -> Prop) (m : Cmd (E * list T) A) : Prop :=
  forall s, exists l, snd (snd (snd (m s))) = snd (snd s) ++ l /\ (forall a, fst (m s) = Some a -> Q a /\ P l).

(** All notes of a run, ended or not, are of a kind. *)
Definition only (P : T -> Prop) {A} (Q : A -> Prop) (m : Cmd (E * list T) A) : Prop :=
  forall s, exists l, snd (snd (snd (m s))) = snd (snd s) ++ l /\ Forall P l /\ (forall a, fst (m s) = Some a -> Q a).

Lemma only_ret P {A} (Q : A -> Prop) (a : A) : Q a -> only P Q (cret a).
Proof. intros Ha s. exists []. rewrite app_nil_r. split_and!; [done|done|]. by intros x [= <-]. Qed.

Lemma only_unfinished P {A} (Q : A -> Prop) : only P Q unfinished.
Proof. intros s. exists []. by rewrite app_nil_r. Qed.

Lemma only_bind P {A B} (Q : A -> Prop) (R : B -> Prop) m k :
  only P Q m -> (forall a, Q a -> only P R (k a)) -> only P R (cbind m k).
Proof.
  intros Hm Hk s. destruct (Hm s) as (l & Hl & HP & HQ). unfold cbind. destruct (m s) as [[a|] s']; cbn [fst snd] in *; [|by exists l].
  destruct (Hk a (HQ a eq_refl) s') as (l' & Hl' & HP' & HR). exists (l ++ l'). rewrite Hl', Hl, app_assoc. split_and!; [done| |done].
  by apply Forall_app.
Qed.

Lemma only_weaken P {A} (Q R : A -> Prop) m : only P Q m -> (forall a, Q a -> R a) -> only P R m.
Proof. intros Hm HQ s. destruct (Hm s) as (l & ? & ? & ?). exists l. split_and!; auto. Qed.

Lemma only_get P : only P (fun _ => True) get_shell.
Proof. intros s. exists []. by rewrite app_nil_r. Qed.

Lemma only_change P f : only P (fun _ => True) (change_shell f).
Proof. intros s. exists []. by rewrite app_nil_r. Qed.

Lemma only_call (P : T -> Prop) {A} (Q : A -> Prop) (c : ccmd A) :
  (forall e : E, Q (fst (@answer_cmd E HE A c e))) -> (forall a, Forall P (note A c a)) -> only P Q (ccall c).
Proof.
  intros HQ HP [s [e l]]. unfold ccall. specialize (HQ e). change (@answer_cmd (E * list T) noted A c (e, l)) with (noted A c (e, l)). unfold noted. cbn [fst snd]. destruct (@answer_cmd E HE A c e) as [a e'].
  exists (note A c a). cbn [fst snd] in *. split_and!; [done|done|]. by intros x [= <-].
Qed.

Lemma only_sl (P : T -> Prop) {A} (Q : A -> Prop) (c : slcall A) :
  (forall v (e : E), Q (fst (@answer_cmd E HE A (Sl v c) e))) -> (forall v a, Forall P (note A (Sl v c) a)) -> only P Q (sl c).
Proof. intros HQ HP. eapply only_bind; [apply only_get|]. intros s _. apply only_call; auto. Qed.

End Traces.

(** ** Names a program changes *)

Inductive side := OnServer | OnDisk | OnMetadata.

(** Every change of an object of the volume or of the disk, by its path. A copy of
    metadata to a local path ([OnMetadata]) changes the places of its metadata
    ([MetadataPlaces.metadata_place]). *)
Definition attr_changes {A} (r : remote A) : bool :=
  match r with
  | Getfinderinfo | Getresourcefork _ _ | Listxattr _ | Getxattr _ _ => false
  | _ => true
  end.

Definition writes (flags : Z) : bool := negb (Z.land flags O_ACCMODE =? O_RDONLY) || has flags (Z.lor O_CREAT O_TRUNC).

Definition sl_changes {A} (c : slcall A) : list (side * list Z) :=
  match c with
  | SlStat _ | SlReaddir _ _ _ | SlRead _ _ _ | SlWrite _ _ _ | SlClose _ | SlGetComment _ _ | SlGetIconInfo _ _
  | SlGetIcon _ _ _ _ | SlGetAppl _ _ | SlStatfs _ => []
  | SlOpen path flags => if writes flags then [(OnServer, path)] else []
  | SlCreat path _ | SlMkdir path _ | SlUnlink path | SlRmdir path | SlChmod path _ | SlUtime path _ | SlTruncate path _
  | SlTruncateResourcefork path _ | SlSetComment path _ => [(OnServer, path)]
  | SlRename path_from path_to => [(OnServer, path_from); (OnServer, path_to)]
  | SlAttr path r => if attr_changes r then [(OnServer, path)] else []
  end.

Definition changes A (c : ccmd A) (_ : A) : list (side * list Z) :=
  match c with
  | Sl _ c => sl_changes c
  | ToRemote _ _ _ path => [(OnServer, path)]
  | BetweenRemote _ _ _ target => [(OnServer, target)]
  | ToLocal _ _ local _ => [(OnMetadata, local)]
  | LOpen path flags _ => if writes flags then [(OnDisk, path)] else []
  | LMkdir path _ | LChmod path _ | LUtimens path _ | LUnlink path => [(OnDisk, path)]
  | _ => []
  end.

(** A name of an entry: what the library and the system list apart from . and .. *)
Definition plain_name (name : list Z) : Prop :=
  name <> [] /\ no_nul name /\ Forall (fun b => b <> ch_slash) name /\ name <> str "." /\ name <> str "..".

(** A path of a directory, or of something below it. *)
Inductive below (root : list Z) : list Z -> Prop :=
| below_root : below root root
| below_name p name : below root p -> plain_name name -> below root (join_ref p name).

(** What a listing may hold. *)
Definition listed_name (name : list Z) : Prop := name = str "." \/ name = str ".." \/ plain_name name.

Lemma listed_plain name : listed_name name -> dot_entry name = false -> plain_name name.
Proof. by intros [->|[->|Hn]]. Qed.

Class ListsNames (E : Type) `{CmdEnv E} : Prop := {
  remote_names v path start count e : Forall (fun p => listed_name (fi_name p)) (snd (fst (fst (answer_cmd (Sl v (SlReaddir path start count)) e))));
  local_names dir e name : fst (answer_cmd (LReaddir dir) e) = Ok (Some name) -> listed_name name }.

(** ** Joined paths *)

Lemma joined_path ok p n max_len c :
  no_nul p -> no_nul n -> 0 <= max_len ->
  path_result (afpc_path_join ok (Some empty_path) (Some p) (Some n) max_len) = Some c -> c = join_ref p n.
Proof.
  intros Hp Hn Hm. unfold path_result, afpc_path_join. rewrite !validate_spec by done.
  destruct ((max_len =? SIZE_MAX) || (zlen p <=? max_len)); [|done]. destruct ((max_len =? SIZE_MAX) || (zlen n <=? max_len)); [|done].
  cbv zeta. rewrite !take_zlen, join_ref_separator.
  repeat match goal with |- context [fst (if ?b then _ else _)] => destruct b; [done|] end. cbn. by intros [= <-].
Qed.

Lemma below_ok root p : root <> [] -> no_nul root -> below root p -> p <> [] /\ no_nul p.
Proof.
  intros Hr Hn. induction 1 as [|p name _ [Hp Hpn] (Hne & Hnn & _)]; [done|]. split; [|by apply no_nul_join_ref].
  unfold join_ref. destruct (last p), name; try done; try case_if; destruct p; done.
Qed.

Lemma or_root_id p : p <> [] -> or_root (Some p) = p.
Proof. destruct p as [|b p]; [done|]. intros _. unfold or_root. rewrite zlen_cons. pose proof (zlen_nonneg p). by rewrite (proj2 (Z.eqb_neq _ _)) by lia. Qed.

(** ** Programs that stay below a directory *)

Section Confined.
Context {E : Type} {HE : CmdEnv E} {HL : ListsNames E}.
#[local] Instance changes_noted : CmdEnv (E * list (side * list Z)) := noted changes.

Definition confined (P : side * list Z -> Prop) {A} (m : Cmd (E * list (side * list Z)) A) : Prop := only P (fun _ => True) m.

Context (P : side * list Z -> Prop).

Lemma confined_ret {A} (a : A) : confined P (cret a).
Proof. by apply only_ret. Qed.

Lemma confined_bind {A B} (m : Cmd _ A) (k : A -> Cmd _ B) : confined P m -> (forall a, confined P (k a)) -> confined P (cbind m k).
Proof. intros Hm Hk. eapply only_bind; [exact Hm|]. intros a _. apply Hk. Qed.

Lemma confined_call {A} (c : ccmd A) : (forall a, Forall P (changes A c a)) -> confined P (ccall c).
Proof. intros Hc. by apply only_call. Qed.

Lemma confined_sl {A} (c : slcall A) : Forall P (sl_changes c) -> confined P (sl c).
Proof. intros Hc. by apply only_sl. Qed.

Lemma confined_if {A} (b : bool) (m n : Cmd _ A) : confined P m -> confined P n -> confined P (if b then m else n).
Proof. by destruct b. Qed.

End Confined.

(** Steps whose result does not matter; calls that change nothing. *)
Ltac confine :=
  repeat match goal with
  | |- confined _ (cret _) => apply confined_ret
  | |- confined _ unfinished => apply only_unfinished
  | |- confined _ (cbind _ _) => apply confined_bind; [|intros ?]
  | |- confined _ get_shell => apply only_get
  | |- confined _ (ccall _) => apply confined_call; intros ?; cbn [changes]; by repeat constructor
  | |- confined _ (sl _) => apply confined_sl; cbn [sl_changes]; by repeat constructor
  | |- confined _ (if _ then _ else _) => apply confined_if
  | |- confined _ (match ?x with _ => _ end) => destruct x
  | |- confined _ (let (_, _) := ?x in _) => destruct x
  end.
