(* ===== verification/ShellConfined.v ===== *)
(** The commands on trees change nothing outside of the directory they are
    given, whatever the server lists and answers. *)
From stdpp Require Import base list.
From S2P Require Import Prelude AfpProtocol Path Utils Url Listing LowLevel Resource Local Sidecar Metadata MetadataPlaces CmdText Shell ShellFiles ShellCopy ShellTrace.
Local Open Scope afp_scope.

Section Below.
Context {E : Type} {HE : CmdEnv E} {HL : ListsNames E}.
#[local] Existing Instance changes_noted.

Definition Listed (files : list afpc_file_info) : Prop := Forall (fun p => listed_name (fi_name p)) files.

(** ** Parts *)

Section Parts.
Context (P : side * list Z -> Prop).

Lemma only_joined root p name :
  root <> [] -> no_nul root -> below root p -> plain_name name ->
  only P (fun o => forall c, o = Some c -> below root c) (joined_remote p name).
Proof.
  intros Hr Hn Hb Hname. destruct (below_ok root p Hr Hn Hb) as [Hp Hpn]. eapply only_bind; [by apply (only_call changes P (fun _ => True))|].
  intros ok _. apply only_ret. intros c Hc. unfold join_remote_path in Hc. rewrite or_root_id in Hc by done. destruct (Hname) as (Hne & Hnn & _).
  destruct name as [|b name]; [done|]. rewrite zlen_cons in Hc. pose proof (zlen_nonneg name).
  rewrite (proj2 (Z.eqb_neq _ _)) in Hc by lia. apply joined_path in Hc; [|done|done|by vm_compute]. subst c. by constructor.
Qed.

Lemma only_joined_local root p name :
  root <> [] -> no_nul root -> below root p -> plain_name name ->
  only P (fun o => forall c, o = Some c -> below root c) (joined_local p name).
Proof.
  intros Hr Hn Hb Hname. destruct (below_ok root p Hr Hn Hb) as [Hp Hpn]. eapply only_bind; [by apply (only_call changes P (fun _ => True))|].
  intros ok _. apply only_ret. intros c Hc. destruct (Hname) as (_ & Hnn & _). apply joined_path in Hc; [|done|done|by vm_compute]. subst c. by constructor.
Qed.

Lemma only_readdir path start count :
  only P (fun r => Listed (snd (fst r))) (sl (SlReaddir path start count)).
Proof. apply only_sl; [|by intros; constructor]. intros v e. apply remote_names. Qed.

Lemma only_listed_all l : Listed l -> only (E := E) P (fun r : Z * list afpc_file_info => Listed (snd r)) (listed_all l).
Proof. intros Hl. unfold listed_all. destruct (zlen l >? UINT32_MAX); apply only_ret; [constructor|done]. Qed.

Lemma only_readdir_all fuel path :
  only P (fun r => Listed (snd r)) (remote_readdir_all fuel path).
Proof.
  unfold remote_readdir_all. assert (Ha : Listed []) by constructor. revert Ha. generalize (@nil afpc_file_info) as all. generalize false as eod.
  induction fuel as [|fuel IH]; intros eod all Ha; cbn [readdir_all_loop].
  - destruct eod; [by apply only_listed_all|apply only_unfinished].
  - destruct eod; [by apply only_listed_all|]. destruct (zlen all >? INT_MAX); [apply only_ret; constructor|].
    eapply only_bind; [apply only_readdir|]. intros [[ret page] eod] Hp. cbn [fst snd] in Hp.
    destruct (negb (ret =? 0)); [apply only_ret; constructor|]. destruct (zlen page =? 0); [by apply only_listed_all|].
    destruct (zlen page >? _); [apply only_ret; constructor|]. eapply only_bind; [by apply (only_call changes P (fun _ => True))|].
    intros ok _. destruct (negb ok); [apply only_ret; constructor|]. apply IH. by apply Forall_app.
Qed.

Lemma each_confined step ret entries :
  Listed entries -> (forall p, plain_name (fi_name p) -> confined (E := E) P (step p)) -> confined (E := E) P (each_entry step ret entries).
Proof.
  intros He Hs. revert ret. induction He as [|p entries Hp _ IH]; intros ret; cbn [each_entry]; [apply confined_ret|].
  destruct (dot_entry (fi_name p)) eqn:Ed; [apply IH|]. apply confined_bind; [|intros r; apply IH]. by apply Hs, listed_plain.
Qed.

Lemma counted_confined step ret bytes entries :
  Listed entries -> (forall p, plain_name (fi_name p) -> confined (E := E) P (step p)) -> confined (E := E) P (each_counted step ret bytes entries).
Proof.
  intros He Hs. revert ret bytes. induction He as [|p entries Hp _ IH]; intros ret bytes; cbn [each_counted]; [apply confined_ret|].
  destruct (dot_entry (fi_name p)) eqn:Ed; [apply IH|]. apply confined_bind; [|intros [r n]; apply IH]. by apply Hs, listed_plain.
Qed.

Lemma local_confined fuel dir step ret bytes :
  (forall name, plain_name name -> confined (E := E) P (step name)) -> confined (E := E) P (local_entries fuel dir step ret bytes).
Proof.
  intros Hs. revert ret bytes. induction fuel as [|fuel IH]; intros ret bytes; cbn [local_entries]; [apply only_unfinished|].
  eapply only_bind; [apply (only_call changes P (fun r => forall name, r = Ok (Some name) -> listed_name name)); [|by constructor]; intros e name; apply local_names|].
  intros entry Hn. destruct entry as [[name|]|]; [|apply confined_ret..]. apply confined_bind; [apply only_get|]. intros s.
  destruct (dot_entry name || _) eqn:Ed; [apply IH|]. apply orb_false_elim in Ed as [Ed _]. apply confined_bind; [|intros [r n]; destruct (r <? 0); apply IH].
  apply Hs, listed_plain; [by apply Hn|done].
Qed.

Lemma confined_joined (root p name : list Z) {A} (k : option (list Z) -> Cmd _ A) :
  root <> [] -> no_nul root -> below root p -> plain_name name ->
  (forall c, below root c -> confined (E := E) P (k (Some c))) -> confined (E := E) P (k None) -> confined (E := E) P (cbind (joined_remote p name) k).
Proof.
  intros Hr Hn Hb Hname Hs Hf. eapply only_bind; [by apply (only_joined root)|]. intros [c|] Hc; [|done]. apply Hs. by apply Hc.
Qed.

Lemma confined_joined_local (root p name : list Z) {A} (k : option (list Z) -> Cmd _ A) :
  root <> [] -> no_nul root -> below root p -> plain_name name ->
  (forall c, below root c -> confined (E := E) P (k (Some c))) -> confined (E := E) P (k None) -> confined (E := E) P (cbind (joined_local p name) k).
Proof.
  intros Hr Hn Hb Hname Hs Hf. eapply only_bind; [by apply (only_joined_local root)|]. intros [c|] Hc; [|done]. apply Hs. by apply Hc.
Qed.

End Parts.

(** ** The volume's side *)

(** Changes of paths at or below a directory of the volume. *)
Definition served_below (root : list Z) (c : side * list Z) : Prop := fst c = OnServer /\ below root (snd c).

Section Server.
Context (root : list Z) (Hr : root <> []) (Hn : no_nul root).
Let P := served_below root.

Lemma delete_confined fuel path : below root path -> confined (E := E) P (delete_directory fuel path).
Proof.
  revert path. induction fuel as [|fuel IH]; intros path Hp; cbn [delete_directory]; [apply only_unfinished|].
  eapply only_bind; [apply only_readdir|]. intros [[r files] eod] Hf. cbn [fst snd] in Hf. destruct (negb (r =? 0)); [apply confined_ret|].
  apply confined_bind.
  - apply each_confined; [done|]. intros p Hname. apply (confined_joined P root); [done..| |apply confined_ret]. intros c Hc.
    destruct (S_ISDIR (permissions p)); [by apply IH|]. confine.
  - intros ret. destruct (ret =? 0); confine.
Qed.

Lemma chmod_confined fuel path mode : below root path -> confined (E := E) P (chmod_remote_tree fuel path mode).
Proof.
  revert path. induction fuel as [|fuel IH]; intros path Hp; cbn [chmod_remote_tree]; [apply only_unfinished|].
  eapply only_bind; [apply only_readdir_all|]. intros [r files] Hf. cbn [snd] in Hf. destruct (negb (r =? 0)); [apply confined_ret|].
  apply confined_bind; [|intros ret; confine].
  apply each_confined; [done|]. intros p Hname. apply (confined_joined P root); [done..| |apply confined_ret]. intros c Hc.
  destruct (S_ISLNK (permissions p)); [apply confined_ret|]. destruct (S_ISDIR (permissions p)); [by apply IH|]. confine.
Qed.

Lemma posix_confined path st : below root path -> confined (E := E) P (apply_remote_posix_metadata path st).
Proof. intros Hp. unfold apply_remote_posix_metadata. confine. Qed.

Lemma to_remote_confined local path st : below root path -> confined (E := E) P (copy_local_metadata_to_remote local path st).
Proof. intros Hp. unfold copy_local_metadata_to_remote. confine. by apply posix_confined. Qed.

Lemma remote_metadata_confined source path st : below root path -> confined (E := E) P (copy_remote_metadata source path st).
Proof. intros Hp. unfold copy_remote_metadata. confine. by apply posix_confined. Qed.

Lemma opened_confined path created truncate : below root path -> confined (E := E) P (open_created_file path created truncate).
Proof. intros Hp. unfold open_created_file. confine. apply confined_sl. destruct truncate, created; by repeat constructor. Qed.

Lemma upload_loop_confined fuel fd fileid offset : confined (E := E) P (upload_loop fuel fd fileid offset).
Proof.
  revert offset. induction fuel as [|fuel IH]; intros offset; cbn [upload_loop]; [apply only_unfinished|]. confine. apply IH.
Qed.

Lemma upload_file_confined fuel local path : below root path -> confined (E := E) P (upload_file fuel local path).
Proof.
  intros Hp. unfold upload_file, upload_regular. confine;
    first [by apply opened_confined|apply upload_loop_confined|by apply to_remote_confined].
Qed.

Lemma mkdir_confined path mode : below root path -> confined (E := E) P (make_remote_directory path mode).
Proof. intros Hp. unfold make_remote_directory. confine. Qed.

Lemma upload_confined fuel local path : below root path -> confined (E := E) P (upload_directory fuel local path).
Proof.
  revert local path. induction fuel as [|fuel IH]; intros local path Hp; cbn [upload_directory]; [apply only_unfinished|].
  apply confined_bind; [confine|]. intros [dir_stat|]; [|apply confined_ret]. destruct (S_ISLNK _); [apply confined_ret|].
  apply confined_bind; [by apply mkdir_confined|]. intros made. destruct (made <? 0); [apply confined_ret|].
  apply confined_bind; [confine|]. intros [dir|]; [|apply confined_ret]. apply confined_bind.
  - apply local_confined. intros name Hname. apply confined_bind; [unfold joined_local; confine|]. intros local_path.
    apply (confined_joined P root); [done..| |by destruct local_path; apply confined_ret]. intros c Hc. destruct local_path; [|apply confined_ret].
    confine; [by apply IH|by apply upload_file_confined].
  - intros [ret bytes]. confine. by apply to_remote_confined.
Qed.

Lemma copy_loop_confined fuel source_fid target_fid offset eof : confined (E := E) P (copy_file_loop fuel source_fid target_fid offset eof).
Proof.
  revert offset eof. induction fuel as [|fuel IH]; intros offset eof; cbn [copy_file_loop]; [destruct eof; [apply confined_ret|apply only_unfinished]|].
  confine; apply IH.
Qed.

Lemma copy_file_confined fuel source path st : below root path -> confined (E := E) P (copy_remote_file fuel source path st).
Proof.
  intros Hp. unfold copy_remote_file, copy_opened, close_if. confine;
    first [by apply opened_confined|apply copy_loop_confined|by apply remote_metadata_confined].
Qed.

Lemma copy_confined fuel source path st : below root path -> confined (E := E) P (copy_remote_tree fuel source path st).
Proof.
  revert source path st. induction fuel as [|fuel IH]; intros source path st Hp; cbn [copy_remote_tree]; [apply only_unfinished|].
  apply confined_bind; [by apply mkdir_confined|]. intros made. destruct (made <? 0); [apply confined_ret|].
  eapply only_bind; [apply only_readdir_all|]. intros [r files] Hf. cbn [snd] in Hf. destruct (negb (r =? 0)); [apply confined_ret|].
  apply confined_bind; [|intros ret; confine; by apply remote_metadata_confined].
  apply each_confined; [done|]. intros p Hname. apply confined_bind; [unfold joined_remote; confine|]. intros child_source.
  apply (confined_joined P root); [done..| |by destruct child_source; apply confined_ret]. intros c Hc. destruct child_source; [|apply confined_ret].
  confine; [by apply IH|by apply copy_file_confined].
Qed.

End Server.

(** ** The disk's side *)

(** Changes of paths at or below a directory of the disk, or of the metadata of
    such a path. *)
Definition stored_below (root : list Z) (c : side * list Z) : Prop := fst c <> OnServer /\ below root (snd c).

Section Disk.
Context (root : list Z) (Hr : root <> []) (Hn : no_nul root).
Let P := stored_below root.

Lemma write_all_confined fd data : confined (E := E) P (write_all_fd fd data).
Proof.
  unfold write_all_fd. generalize (length data) as fuel. intros fuel. revert data.
  induction fuel as [|fuel IH]; intros [|b data]; cbn [write_all_loop]; [apply confined_ret|apply only_unfinished|apply confined_ret|]. confine. apply IH.
Qed.

Lemma retrieve_loop_confined fuel fileid fd total : confined (E := E) P (retrieve_loop fuel fileid fd total).
Proof.
  revert total. induction fuel as [|fuel IH]; intros total; cbn [retrieve_loop]; [apply only_unfinished|]. confine; [apply write_all_confined|apply IH].
Qed.

Lemma retrieve_confined fuel arg fd st : confined (E := E) P (retrieve_file fuel arg fd st).
Proof. unfold retrieve_file, server_path. confine. apply retrieve_loop_confined. Qed.

Lemma to_local_confined path local st : below root local -> confined (E := E) P (copy_remote_metadata_to_local path local st).
Proof. intros Hp. unfold copy_remote_metadata_to_local. confine. Qed.

Lemma download_file_confined fuel path local p : below root local -> confined (E := E) P (download_file fuel path local p).
Proof. intros Hp. unfold download_file. confine; [apply retrieve_confined|by apply to_local_confined]. Qed.

Lemma download_confined fuel path local : below root local -> confined (E := E) P (download_directory fuel path local).
Proof.
  revert path local. induction fuel as [|fuel IH]; intros path local Hp; cbn [download_directory]; [apply only_unfinished|].
  apply confined_bind; [confine|]. intros [r dir_stat]. destruct (negb (r =? 0)); [apply confined_ret|].
  apply confined_bind; [confine|]. intros made. apply confined_if; [apply confined_ret|].
  eapply only_bind; [apply only_readdir_all|]. intros [r' files] Hf. cbn [snd] in Hf. destruct (negb (r' =? 0)); [apply confined_ret|].
  apply confined_bind; [|intros [ret bytes]; confine; by apply to_local_confined].
  apply counted_confined; [done|]. intros p Hname. apply confined_bind; [unfold joined_remote; confine|]. intros server.
  apply (confined_joined_local P root); [done..| |by destruct server; apply confined_ret]. intros c Hc. destruct server; [|apply confined_ret].
  confine; [by apply IH|by apply download_file_confined].
Qed.

End Disk.

End Below.

(** ** Where the metadata of a tree lies *)

(** The folder of an entry. *)
Lemma join_folder q name : q <> [] -> plain_name name -> folder_part (join_ref q name) = as_folder q.
Proof.
  intros Hq (Hne & _ & Hs & _). destruct name as [|b name]; [done|]. destruct q as [|c q _] using rev_ind; [done|]. unfold join_ref. rewrite last_snoc.
  destruct (Z.eqb_spec c ch_slash) as [->|Hc].
  - rewrite <- app_assoc. cbn [app]. rewrite folder_part_last by done. unfold as_folder. by rewrite (base_name_last q []) by apply Forall_nil_2.
  - cbn [app]. rewrite folder_part_last by done. unfold as_folder. destruct (list_eqb (base_name (q ++ [c])) []) eqn:Eb; [|done].
    apply list_eqb_eq in Eb. pose proof (folder_base (q ++ [c])) as Ef. rewrite Eb, app_nil_r in Ef.
    destruct (folder_part_end (q ++ [c])) as [E0|[pre E0]]; rewrite E0 in Ef; [by destruct q|]. apply app_inj_tail in Ef as [_ Ef]. by subst c.
Qed.

Lemma below_lies root p : root <> [] -> no_nul root -> below root p -> lies_below root p.
Proof.
  intros Hr Hn. induction 1 as [|q name Hq IH Hname]; [by unfold lies_below|]. destruct (below_ok root q Hr Hn Hq) as [Hq0 _].
  unfold lies_below in *. rewrite IH, <- (join_folder q name) by done. apply prefix_as_folder, folder_prefix.
Qed.

(** The metadata of a path of a tree lies in the tree, or is the root's own. *)
Lemma below_place root p f : root <> [] -> no_nul root -> below root p -> metadata_place p f -> lies_below root f \/ metadata_place root f.
Proof.
  intros Hr Hn Hb Hf. destruct Hb as [|q name Hq Hname]; [by right|]. left. destruct (below_ok root q Hr Hn Hq) as [Hq0 _].
  pose proof (below_lies root q Hr Hn Hq) as Hl. unfold lies_below in *. rewrite Hl, <- (join_folder q name) by done. by apply place_in_folder.
Qed.

#[local] Existing Instance changes_noted.

(** The changes of a run. *)
Definition changes_of {E A} (m : Cmd (E * list (side * list Z)) A) (s : shell) (e : E) : list (side * list Z) :=
  snd (snd (snd (m (s, (e, []))))).

Lemma confined_changes {E} {HE : CmdEnv E} P {A} (m : Cmd (E * list (side * list Z)) A) s e :
  confined (E := E) P m -> Forall P (changes_of m s e).
Proof. intros Hm. destruct (Hm (s, (e, []))) as (l & Hl & HP & _). unfold changes_of. rewrite Hl. done. Qed.

(** C29: the commands on trees stay in their tree. Whatever the server and the
    system answer, as long as the names they list are single components, without
    slashes (. and .. may be among them), a removal, a change of modes, a copy
    and an upload of a tree change no object of the volume but the given
    directory and what lies below it, and nothing of the disk. A download changes
    nothing of the volume; of the disk it changes the given directory, what lies
    below it and the metadata of those, and each copy of such metadata changes
    only places below the directory, or of the directory's own metadata: its
    AppleDouble files, which are beside it (metadata_place). This holds of a run
    that has not ended, too. *)
Theorem tree_commands_confined {E} {HE : CmdEnv E} {HL : ListsNames E} fuel root other st mode s (e : E) :
  root <> [] -> no_nul root ->
  Forall (served_below root) (changes_of (delete_directory fuel root) s e)
  /\ Forall (served_below root) (changes_of (chmod_remote_tree fuel root mode) s e)
  /\ Forall (served_below root) (changes_of (copy_remote_tree fuel other root st) s e)
  /\ Forall (served_below root) (changes_of (upload_directory fuel other root) s e)
  /\ Forall (stored_below root) (changes_of (download_directory fuel other root) s e)
  /\ (forall OS (HO : Os OS) apple volume source p how (os : OS), below root p ->
      Forall (fun f => lies_below root f \/ metadata_place root f)
        (touched_by (afp_sl_metadata_copy_remote_to_local apple volume source (Some p) how) os)).
Proof.
  intros Hr Hn. split_and!; [apply confined_changes..|].
  1-5: first [apply delete_confined|apply chmod_confined|apply copy_confined|apply upload_confined|apply download_confined]; try done; constructor.
  intros OS HO apple volume source p how os Hp. eapply Forall_impl; [apply copy_to_local_touches|]. intros f. by apply below_place.
Qed.

(** An environment that lists a file and a folder everywhere and answers every
    call with success. *)
Definition two_entries : list afpc_file_info :=
  [FileInfo (str ".") 0 0 0 0 16877 0; FileInfo (str "a") 0 0 0 0 33188 0; FileInfo (str "b") 0 0 0 0 16877 0].

Definition willing A (c : ccmd A) (e : unit) : A * unit :=
  (match c in ccmd A return A with
   | Sl _ c =>
       match c in slcall A return A with
       | SlStat _ => (0, zero_stat) | SlReaddir _ _ _ => (0, two_entries, true) | SlOpen _ _ => (0, 1) | SlRead _ _ _ => (0, [], true)
       | SlWrite _ _ data => (0, zlen data) | SlClose _ => 0 | SlCreat _ _ => 0 | SlMkdir _ _ => 0 | SlUnlink _ => 0 | SlRmdir _ => 0
       | SlChmod _ _ => 0 | SlUtime _ _ => 0 | SlTruncate _ _ => 0 | SlRename _ _ => 0
       | SlAttr _ r =>
           match r in remote A return A with
           | Removefinderinfo => 0 | Removeresourcefork => 0 | Getfinderinfo => (0, []) | Setfinderinfo _ => 0 | Getresourcefork _ _ => (0, [])
           | Setresourcefork _ _ => 0 | Listxattr _ => (0, []) | Getxattr _ _ => (0, []) | Setxattr _ _ => 0 | Removexattr _ => 0
           end
       | SlTruncateResourcefork _ _ => 0 | SlGetComment _ _ => (0, []) | SlSetComment _ _ => 0 | SlGetIconInfo _ _ => (- ENOENT, IconInfo 0 0 0 0)
       | SlGetIcon _ _ _ _ => (0, []) | SlGetAppl _ _ => 0 | SlStatfs _ => 0
       end
   | ToRemote _ _ _ _ => 0 | ToLocal _ _ _ _ => 0 | BetweenRemote _ _ _ _ => 0
   | LOpen _ _ _ => Ok 3 | LFstat _ => Ok zero_stat | LLstat _ => Ok zero_stat | LStat _ => Ok zero_stat | LSetfl _ => tt | LRead _ _ => Ok []
   | LWrite _ data => Ok (zlen data) | LClose _ => Ok tt | LMkdir _ _ => Ok tt | LOpendir _ => Ok 4 | LReaddir _ => Ok None | LClosedir _ => tt
   | LChmod _ _ => Ok tt | LFchmod _ _ => Ok tt | LUtimens _ _ => Ok tt | LUnlink _ => tt | LChdir _ => Ok tt | SlStatus => 0 | Malloc => true | Time => 0
   | SlConnect _ _ _ => (0, 1) | SlDisconnect _ => 0 | SlAttach _ _ _ => (0, 1, false) | SlDetach _ => tt | SlExit => tt
   | SlGetvols _ _ _ _ => (0, []) | SlServerinfo _ => (0, []) | SlUams _ => 1 | SlChangepw _ _ _ => 0 | Getpass => None | Readline => None
   | ScreenEntries => 24 | PromptNextPage => 0
   end, e).

#[local] Instance willing_env : CmdEnv unit := willing.

Lemma willing_names : @ListsNames unit willing_env.
Proof.
  split; [|by intros]. intros v path start count e. cbn. unfold two_entries, listed_name, plain_name, no_nul.
  repeat apply List.Forall_cons; [by left| | |by apply List.Forall_nil]; right; right; apply (bool_decide_unpack _); vm_compute; exact I.
Qed.

(** The client on a volume. *)
Definition on_volume : shell := Shell (Some 1) (Some 1) true (mk_path (Some (str "/")) 1) cleared_url [] [] AFP_METADATA_NONE false true.

Lemma tree_commands_confined_witness :
  Forall (served_below (str "/d")) (changes_of (delete_directory 2 (str "/d")) on_volume tt)
  /\ changes_of (delete_directory 2 (str "/d")) on_volume tt = [(OnServer, str "/d/a"); (OnServer, str "/d/b/a")].
Proof.
  split; [|by vm_compute]. refine (proj1 (@tree_commands_confined unit willing_env willing_names 2 (str "/d") (str "/e") zero_stat 0 on_volume tt _ _));
    [done|]. unfold no_nul. apply (bool_decide_unpack _). vm_compute. exact I.
Defined.
