(* ===== verification/ShellHandles.v ===== *)
(** Every command of the command line client closes the files it opens on the
    server, the local files and the local directories, whatever the library and
    the system answer. *)
From stdpp Require Import base list.
From S2P Require Import Prelude AfpProtocol Path Utils Url Listing LowLevel Resource Local Sidecar CmdText Shell ShellFiles ShellCopy ShellSession ShellTrace ShellConfined.
Local Open Scope afp_scope.

(** ** Handles *)

Inductive handle := RemoteFile (fileid : Z) | LocalFile (fd : Z) | LocalDir (dir : Z).

#[export] Instance handle_eq_dec : EqDecision handle.
Proof. solve_decision. Defined.

(** The handles a call opens or closes. *)
Definition handled A (c : ccmd A) : A -> list (handle * Z) :=
  match c in ccmd A return A -> list (handle * Z) with
  | Sl _ c =>
      match c in slcall A return A -> list (handle * Z) with
      | SlOpen _ _ => fun a => if fst a =? 0 then [(RemoteFile (snd a), 1)] else []
      | SlClose fileid => fun _ => [(RemoteFile fileid, -1)]
      | _ => fun _ => []
      end
  | LOpen _ _ _ => fun a => match a with Ok fd => [(LocalFile fd, 1)] | Err _ => [] end
  | LClose fd => fun _ => [(LocalFile fd, -1)]
  | LOpendir _ => fun a => match a with Ok dir => [(LocalDir dir, 1)] | Err _ => [] end
  | LClosedir dir => fun _ => [(LocalDir dir, -1)]
  | _ => fun _ => []
  end.

(** How often a handle was opened more than closed. *)
Definition one (h h' : handle) : Z := if decide (h = h') then 1 else 0.

Fixpoint balance (l : list (handle * Z)) (h : handle) : Z :=
  match l with [] => 0 | (h', n) :: l => n * one h' h + balance l h end.

Lemma balance_app l l' h : balance (l ++ l') h = balance l h + balance l' h.
Proof. induction l as [|[h' n] l IH]; simpl; [done|]. rewrite IH. lia. Qed.

(** The library's handles of open files are not 0, and a failed open leaves the
    caller's 0 as it is. *)
Class Handles (E : Type) `{CmdEnv E} : Prop :=
  opened_nonzero v path flags e : let a := fst (answer_cmd (Sl v (SlOpen path flags)) e) in fst a = 0 <-> snd a <> 0.

(** A run that has ended leaves [F] of its result open. *)
Section Nets.
Context {E : Type} {HE : CmdEnv E} {HH : Handles E}.
#[local] Instance handles_noted : CmdEnv (E * list (handle * Z)) := noted handled.

Definition nets {A} (Q : A -> Prop) (F : A -> handle -> Z) (m : Cmd (E * list (handle * Z)) A) : Prop :=
  forall s, exists l, snd (snd (snd (m s))) = snd (snd s) ++ l
    /\ forall a, fst (m s) = Some a -> Q a /\ forall h, balance l h = F a h.

(** A run that closes what is open before it. *)
Definition closing (p : handle -> Z) {A} (m : Cmd (E * list (handle * Z)) A) : Prop := nets (fun _ => True) (fun _ h => - p h) m.

Definition nothing (h : handle) : Z := 0.

Lemma nets_bind {A B} (Q : A -> Prop) (R : B -> Prop) (F : A -> handle -> Z) (G : B -> handle -> Z) m k :
  nets Q F m -> (forall a, Q a -> nets R (fun b h => G b h - F a h) (k a)) -> nets R G (cbind m k).
Proof.
  intros Hm Hk s. destruct (Hm s) as (l & Hl & Ha). unfold cbind. destruct (m s) as [[a|] s']; cbn [fst snd] in *; [|by exists l].
  destruct (Ha a eq_refl) as [HQ HF]. destruct (Hk a HQ s') as (l' & Hl' & Hb). exists (l ++ l'). rewrite Hl', Hl, app_assoc. split; [done|].
  intros b Hb'. destruct (Hb b Hb') as [HR HG]. split; [done|]. intros h. rewrite balance_app, HF, HG. lia.
Qed.

Lemma nets_ret {A} (Q : A -> Prop) (F : A -> handle -> Z) (a : A) : Q a -> (forall h, F a h = 0) -> nets Q F (cret a).
Proof. intros HQ HF s. exists []. rewrite app_nil_r. split; [done|]. intros x [= <-]. split; [done|]. intros h. by rewrite HF. Qed.

Lemma nets_unfinished {A} (Q : A -> Prop) F : nets (A := A) Q F unfinished.
Proof. intros s. exists []. by rewrite app_nil_r. Qed.

Lemma nets_weaken {A} (Q R : A -> Prop) F G m : nets Q F m -> (forall a, Q a -> R a) -> (forall a h, Q a -> F a h = G a h) -> nets R G m.
Proof.
  intros Hm HQ HF s. destruct (Hm s) as (l & Hl & Ha). exists l. split; [done|]. intros a Hr. destruct (Ha a Hr) as [Hq Hf]. split; [by apply HQ|].
  intros h. rewrite Hf. by apply HF.
Qed.

Lemma nets_call {A} (Q : A -> Prop) (c : ccmd A) : (forall e : E, Q (fst (@answer_cmd E HE A c e))) ->
  nets Q (fun a => balance (handled A c a)) (ccall c).
Proof.
  intros HQ [s [e l]]. unfold ccall. specialize (HQ e). change (@answer_cmd (E * list (handle * Z)) handles_noted A c (e, l)) with (noted handled A c (e, l)).
  unfold noted. cbn [fst snd]. destruct (@answer_cmd E HE A c e) as [a e']. exists (handled A c a). cbn [fst snd] in *. split; [done|]. by intros x [= <-].
Qed.

Lemma nets_get Q F : (forall s, Q s) -> (forall s h, F s h = 0) -> nets Q F get_shell.
Proof. intros HQ HF s. exists []. rewrite app_nil_r. split; [done|]. intros x [= <-]. split; [done|]. intros h. by rewrite HF. Qed.

Lemma nets_sl {A} (Q : A -> Prop) (c : slcall A) : (forall v (e : E), Q (fst (@answer_cmd E HE A (Sl v c) e))) ->
  nets Q (fun a => balance (handled A (Sl 0 c) a)) (sl c).
Proof.
  intros HQ. eapply (nets_bind (fun _ => True) _ (fun _ => nothing)); [by apply nets_get|]. intros s _.
  eapply nets_weaken; [apply (nets_call Q); intros e; apply HQ|done|]. intros a h _. unfold nothing. rewrite Z.sub_0_r. by destruct c.
Qed.

(** ** Steps *)

Lemma closing_ret {A} p (a : A) : (forall h, p h = 0) -> closing p (cret a).
Proof. intros Hp. apply nets_ret; [done|]. intros h. rewrite Hp. lia. Qed.

Lemma closing_ret_bind {A B} p (a : A) (k : A -> Cmd _ B) : closing p (k a) -> closing p (cbind (cret a) k).
Proof. done. Qed.

Lemma closing_assoc {A B C} p (m : Cmd _ A) (k : A -> Cmd _ B) (j : B -> Cmd _ C) :
  closing p (cbind m (fun a => cbind (k a) j)) -> closing p (cbind (cbind m k) j).
Proof. intros Hm s. destruct (Hm s) as (l & Hl). exists l. revert Hl. unfold cbind. by destruct (m s) as [[a|] s']. Qed.

Lemma closing_unfinished {A} p : closing (A := A) p unfinished.
Proof. apply nets_unfinished. Qed.

(** A part that closes what it opens. *)
Lemma closing_bind {A B} p (m : Cmd _ A) (k : A -> Cmd _ B) : closing nothing m -> (forall a, closing p (k a)) -> closing p (cbind m k).
Proof.
  intros Hm Hk. eapply nets_bind; [exact Hm|]. intros a _. eapply nets_weaken; [apply Hk|done|]. intros b h _. unfold nothing. lia.
Qed.

Lemma closing_after {A B} (Q : A -> Prop) (F : A -> handle -> Z) p (m : Cmd _ A) (k : A -> Cmd _ B) :
  nets Q F m -> (forall a, Q a -> closing (fun h => p h + F a h) (k a)) -> closing p (cbind m k).
Proof. intros Hm Hk. eapply nets_bind; [exact Hm|]. intros a Ha. eapply nets_weaken; [by apply Hk|done|]. intros b h _. simpl. lia. Qed.

Lemma closing_ccall {A} (c : ccmd A) : (forall a, handled A c a = []) -> closing nothing (ccall c).
Proof. intros Hc. eapply nets_weaken; [by apply (nets_call (fun _ => True))|done|]. intros a h _. simpl. by rewrite Hc. Qed.

Lemma closing_sl {A} (c : slcall A) : (forall a, handled A (Sl 0 c) a = []) -> closing nothing (sl c).
Proof. intros Hc. eapply nets_weaken; [by apply (nets_sl (fun _ => True))|done|]. intros a h _. simpl. by rewrite Hc. Qed.

Lemma closing_if {A} p (b : bool) (m n : Cmd _ A) : closing p m -> closing p n -> closing p (if b then m else n).
Proof. by destruct b. Qed.

Lemma closing_get : closing nothing get_shell.
Proof. by apply nets_get. Qed.

Lemma closing_change f : closing nothing (change_shell f).
Proof. intros s. exists []. by rewrite app_nil_r. Qed.

(** A program that closes one handle, then goes on. *)
Lemma closing_close {A B} h (m : Cmd _ A) (k : A -> Cmd _ B) :
  nets (fun _ => True) (fun _ => balance [(h, -1)]) m -> (forall a, closing nothing (k a)) -> closing (one h) (cbind m k).
Proof.
  intros Hm Hk. eapply closing_after; [exact Hm|]. intros a _. eapply nets_weaken; [apply Hk|done|]. intros b h' _. unfold nothing. cbn [balance]. lia.
Qed.

Lemma closing_remote {B} fileid (k : Z -> Cmd _ B) : (forall a, closing nothing (k a)) -> closing (one (RemoteFile fileid)) (cbind (sl (SlClose fileid)) k).
Proof. apply closing_close. by apply nets_sl. Qed.

Lemma closing_local {B} fd (k : res unit -> Cmd _ B) : (forall a, closing nothing (k a)) -> closing (one (LocalFile fd)) (cbind (ccall (LClose fd)) k).
Proof. apply closing_close. by apply nets_call. Qed.

Lemma closing_dir {B} dir (k : unit -> Cmd _ B) : (forall a, closing nothing (k a)) -> closing (one (LocalDir dir)) (cbind (ccall (LClosedir dir)) k).
Proof. apply closing_close. by apply nets_call. Qed.

Lemma closing_eq {A} p q (m : Cmd _ A) : closing q m -> (forall h, p h = q h) -> closing p m.
Proof. intros Hm He. eapply nets_weaken; [exact Hm|done|]. intros a h _. simpl. by rewrite He. Qed.

(** An open, then what is done with the file or without it. *)
Lemma closing_open_local {B} path flags mode (k : res Z -> Cmd _ B) :
  (forall fd, closing (one (LocalFile fd)) (k (Ok fd))) -> (forall e, closing nothing (k (Err e))) -> closing nothing (cbind (ccall (LOpen path flags mode)) k).
Proof.
  intros Ho Hf. eapply closing_after; [by apply (nets_call (fun _ => True))|]. intros [fd|e] _; (eapply closing_eq; [done|]); intros h; cbn [handled balance]; unfold nothing; lia.
Qed.

Lemma closing_opendir {B} path (k : res Z -> Cmd _ B) :
  (forall dir, closing (one (LocalDir dir)) (k (Ok dir))) -> (forall e, closing nothing (k (Err e))) -> closing nothing (cbind (ccall (LOpendir path)) k).
Proof.
  intros Ho Hf. eapply closing_after; [by apply (nets_call (fun _ => True))|]. intros [fd|e] _; (eapply closing_eq; [done|]); intros h; cbn [handled balance]; unfold nothing; lia.
Qed.

Lemma closing_open_remote {B} p path flags (k : Z * Z -> Cmd _ B) :
  (forall fid, fid <> 0 -> closing (fun h => p h + one (RemoteFile fid) h) (k (0, fid))) -> (forall r, r <> 0 -> closing p (k (r, 0))) ->
  closing p (cbind (sl (SlOpen path flags)) k).
Proof.
  intros Ho Hf. eapply closing_after; [apply (nets_sl (fun a => fst a = 0 <-> snd a <> 0)); intros v e; apply opened_nonzero|]. intros [r fid] Hz. cbn [fst snd] in Hz.
  destruct (Z.eq_dec r 0) as [->|Hr].
  - eapply closing_eq; [by apply Ho, Hz|]. intros h. cbn [handled fst snd]. simpl. lia.
  - assert (fid = 0) as -> by (destruct (Z.eq_dec fid 0) as [|Hn]; [done|by apply Hz in Hn]). eapply closing_eq; [by apply Hf|].
    intros h. cbn [handled fst snd]. rewrite (proj2 (Z.eqb_neq _ _)) by done. simpl. lia.
Qed.

(** A file created and opened; the two results told apart. *)
Lemma closing_created {B} p path created truncate (k : Z * Z -> Cmd _ B) :
  (forall fid, fid <> 0 -> closing (fun h => p h + one (RemoteFile fid) h) (k (0, fid))) -> (forall r, r <> 0 -> closing p (k (r, 0))) ->
  closing p (cbind (open_created_file path created truncate) k).
Proof.
  intros Ho Hf s. unfold open_created_file. set (m := sl (SlOpen _ _)). assert (Hm : closing p (cbind m (fun a => let (ret, fileid) := a in
    cbind (if negb (ret =? 0) && created && negb (ret =? - ETIMEDOUT) then sl (SlUnlink path) ;;= cret (ret, fileid) else cret (ret, fileid)) k))).
  { apply closing_open_remote; [|intros r Hr].
    - intros fid Hz. change (negb (0 =? 0)) with false. cbn [andb]. cbv iota. by apply Ho.
    - destruct (_ && _ && _); [|by apply Hf]. intros s'.
      destruct (closing_bind p (sl (SlUnlink path)) (fun _ => k (r, 0)) (closing_sl (SlUnlink path) (fun _ => eq_refl)) (fun _ => Hf r Hr) s') as (l & Hl).
      exists l. revert Hl. unfold cbind. destruct (sl (SlUnlink path) s') as [[a|] s'']; done. }
  destruct (Hm s) as (l & Hl). exists l. revert Hl. unfold cbind. destruct (m s) as [[[r fid]|] s']; done.
Qed.

(** The same where nothing else is open, with the test of the result. *)
Lemma closing_created_test {B} path created truncate (bad : Z -> Z -> Cmd _ B) (good : Z -> Z -> Cmd _ B) :
  (forall fid, fid <> 0 -> closing (one (RemoteFile fid)) (good 0 fid)) -> (forall r fid, closing nothing (bad r fid)) ->
  closing nothing (cbind (open_created_file path created truncate) (fun a => let (ret, fid) := a in if negb (ret =? 0) then bad ret fid else good ret fid)).
Proof.
  intros Ho Hf. apply closing_created; [|intros r Hr; rewrite (proj2 (Z.eqb_neq _ _)) by done; apply Hf].
  intros fid Hz. eapply closing_eq; [by apply Ho|]. intros h. unfold nothing. lia.
Qed.

Lemma closing_open_test {B} path flags (bad : Z -> Z -> Cmd _ B) (good : Z -> Z -> Cmd _ B) :
  (forall fid, fid <> 0 -> closing (one (RemoteFile fid)) (good 0 fid)) -> (forall r fid, closing nothing (bad r fid)) ->
  closing nothing (cbind (sl (SlOpen path flags)) (fun a => let (ret, fid) := a in if negb (ret =? 0) then bad ret fid else good ret fid)).
Proof.
  intros Ho Hf. apply closing_open_remote; [|intros r Hr; rewrite (proj2 (Z.eqb_neq _ _)) by done; apply Hf].
  intros fid Hz. eapply closing_eq; [by apply Ho|]. intros h. unfold nothing. lia.
Qed.

(** The close of a handle that is not 0. *)
Lemma closing_close_if {B} fid p (k : Z -> Cmd _ B) :
  fid <> 0 -> (forall a, closing p (k a)) -> closing (fun h => one (RemoteFile fid) h + p h) (cbind (close_if fid) k).
Proof.
  intros Hf Hk. unfold close_if. rewrite (proj2 (Z.eqb_neq _ _)) by done. eapply closing_after; [by apply (nets_sl (fun _ => True))|].
  intros a _. eapply closing_eq; [apply Hk|]. intros h. cbn [handled balance]. lia.
Qed.

End Nets.

(** Parts without handles, and opens and closes by their rules. *)
Ltac settle :=
  repeat match goal with
  | |- closing nothing (cret _) => by apply closing_ret
  | |- closing _ unfinished => apply closing_unfinished
  | |- closing nothing get_shell => apply closing_get
  | |- closing nothing (change_shell _) => apply closing_change
  | |- closing nothing (ccall _) => by apply closing_ccall
  | |- closing nothing (sl _) => by apply closing_sl
  | |- closing (one (RemoteFile ?f)) (cbind (sl (SlClose ?f)) _) => apply closing_remote; intros ?
  | |- closing (one (LocalFile ?f)) (cbind (ccall (LClose ?f)) _) => apply closing_local; intros ?
  | |- closing (one (LocalDir ?f)) (cbind (ccall (LClosedir ?f)) _) => apply closing_dir; intros ?
  | |- closing nothing (cbind (ccall (LOpen _ _ _)) _) => apply closing_open_local; intros ?
  | |- closing nothing (cbind (ccall (LOpendir _)) _) => apply closing_opendir; intros ?
  | |- closing _ (cbind (ccall _) _) => apply closing_bind; [by apply closing_ccall|intros ?]
  | |- closing _ (cbind _ _) => apply closing_bind; [|intros ?]
  | |- closing _ (if _ then _ else _) => apply closing_if
  | |- closing _ (match ?x with _ => _ end) => destruct x
  | |- closing _ (let (_, _) := ?x in _) => destruct x
  end.

Section Commands.
Context {E : Type} {HE : CmdEnv E} {HH : Handles E}.
#[local] Existing Instance handles_noted.
Abbreviation closes := (closing (E := E) nothing).

(** ** Parts *)

Lemma readdir_all_closes fuel path : closes (remote_readdir_all fuel path).
Proof.
  unfold remote_readdir_all. generalize (@nil afpc_file_info) as all. generalize false as eod.
  induction fuel as [|fuel IH]; intros eod all; cbn [readdir_all_loop]; unfold listed_all; settle. apply IH.
Qed.

Lemma each_closes step ret entries : (forall p, closes (step p)) -> closes (each_entry step ret entries).
Proof. intros Hs. revert ret. induction entries as [|p entries IH]; intros ret; cbn [each_entry]; settle; [apply IH|apply Hs|apply IH]. Qed.

Lemma counted_closes step ret bytes entries : (forall p, closes (step p)) -> closes (each_counted step ret bytes entries).
Proof. intros Hs. revert ret bytes. induction entries as [|p entries IH]; intros ret bytes; cbn [each_counted]; settle; [apply IH|apply Hs|apply IH]. Qed.

Lemma local_closes fuel dir step ret bytes : (forall name, closes (step name)) -> closes (local_entries fuel dir step ret bytes).
Proof.
  intros Hs. revert ret bytes. induction fuel as [|fuel IH]; intros ret bytes; cbn [local_entries]; settle; first [apply IH|apply Hs].
Qed.

Lemma posix_closes path st : closes (apply_remote_posix_metadata path st).
Proof. unfold apply_remote_posix_metadata. settle. Qed.

Lemma to_remote_closes local path st : closes (copy_local_metadata_to_remote local path st).
Proof. unfold copy_local_metadata_to_remote. settle. apply posix_closes. Qed.

Lemma to_local_closes path local st : closes (copy_remote_metadata_to_local path local st).
Proof. unfold copy_remote_metadata_to_local. settle. Qed.

Lemma remote_metadata_closes source path st : closes (copy_remote_metadata source path st).
Proof. unfold copy_remote_metadata. settle. apply posix_closes. Qed.

(** ** Uploads *)

Lemma upload_loop_closes fuel fd fileid offset : closes (upload_loop fuel fd fileid offset).
Proof. revert offset. induction fuel as [|fuel IH]; intros offset; cbn [upload_loop]; settle. apply IH. Qed.

Lemma upload_regular_closes fuel fd local path st : closes (upload_regular fuel fd local path st).
Proof.
  unfold upload_regular. apply closing_bind; [settle|]. intros _. apply closing_bind; [settle|]. intros ret. cbv zeta. apply closing_if; [settle|].
  apply closing_created_test; [|intros r fid; settle]. intros fid Hz. rewrite (proj2 (Z.eqb_neq fid 0)) by done.
  settle; first [apply upload_loop_closes|apply to_remote_closes].
Qed.

Lemma upload_file_closes fuel local path : closes (upload_file fuel local path).
Proof.
  unfold upload_file. set (rest := fun r : res Z => match r with Err _ => _ | Ok localfd => _ end).
  assert (Ht : forall fd, closing (E := E) (one (LocalFile fd)) (rest (Ok fd))) by (intros fd; cbn [rest]; settle; apply upload_regular_closes).
  assert (Hf : forall e, closes (rest (Err e))) by (intros e; cbn [rest]; settle).
  apply closing_open_local; [intros fd; apply closing_ret_bind, Ht|intros e].
  destruct (e =? EAGAIN); [by apply closing_open_local|apply closing_ret_bind, Hf].
Qed.

Lemma mkdir_closes path mode : closes (make_remote_directory path mode).
Proof. unfold make_remote_directory. settle. Qed.

Lemma upload_directory_closes fuel local path : closes (upload_directory fuel local path).
Proof.
  revert local path. induction fuel as [|fuel IH]; intros local path; cbn [upload_directory]; [apply closing_unfinished|].
  settle; [apply mkdir_closes| |apply to_remote_closes].
  apply local_closes. intros name. unfold joined_remote, joined_local. settle; [apply IH|apply upload_file_closes].
Qed.

Lemma words_closes two arg : closes (escape_paths_alloc two arg).
Proof. unfold escape_paths_alloc. settle. Qed.

Lemma server_path_closes name : closes (server_path name).
Proof. unfold server_path. settle. Qed.

(** ** Downloads *)

Lemma write_all_closes fd data : closes (write_all_fd fd data).
Proof.
  unfold write_all_fd. generalize (length data) as fuel. intros fuel. revert data.
  induction fuel as [|fuel IH]; intros [|b data]; cbn [write_all_loop]; settle. apply IH.
Qed.

Lemma retrieve_loop_closes fuel fileid fd total : closes (retrieve_loop fuel fileid fd total).
Proof. revert total. induction fuel as [|fuel IH]; intros total; cbn [retrieve_loop]; settle; [apply write_all_closes|apply IH]. Qed.

Lemma retrieve_closes fuel arg fd st : closes (retrieve_file fuel arg fd st).
Proof.
  unfold retrieve_file. apply closing_bind; [settle|]. intros s. destruct (vol_id s); [|settle]. apply closing_bind; [apply server_path_closes|].
  intros [path|]; [|settle]. apply closing_bind; [settle|]. intros [r got]. apply closing_if; [settle|].
  apply closing_open_test; [|intros r' fid; settle]. intros fid Hz. apply closing_bind; [apply retrieve_loop_closes|]. intros total. cbv zeta.
  rewrite (proj2 (Z.eqb_neq fid 0)) by done. settle.
Qed.

Lemma download_directory_closes fuel path local : closes (download_directory fuel path local).
Proof.
  revert path local. induction fuel as [|fuel IH]; intros path local; cbn [download_directory]; [apply closing_unfinished|].
  settle; [apply readdir_all_closes| |apply to_local_closes..].
  all: apply counted_closes; intros p; unfold joined_remote, joined_local, download_file; settle;
    first [apply IH|apply retrieve_closes|apply to_local_closes].
Qed.

(** ** Copies *)

Lemma copy_loop_closes fuel source_fid target_fid offset eof : closes (copy_file_loop fuel source_fid target_fid offset eof).
Proof. revert offset eof. induction fuel as [|fuel IH]; intros offset eof; cbn [copy_file_loop]; settle; apply IH. Qed.


(** Two files are open: closing either leaves the other. *)
Lemma closing_pair {B} f g (k : Z -> Cmd (E * list (handle * Z)) B) :
  (forall a, closing (E := E) (one (RemoteFile g)) (k a)) ->
  closing (E := E) (fun h => one (RemoteFile f) h + one (RemoteFile g) h) (cbind (sl (SlClose f)) k).
Proof.
  intros Hk. eapply closing_after; [by apply (nets_sl (fun _ => True))|]. intros a _. eapply closing_eq; [apply Hk|]. intros h. cbn [handled balance]. lia.
Qed.

Lemma close_if_id (f : Z) : f <> 0 -> close_if (E := E * list (handle * Z)) f = sl (SlClose f).
Proof. intros Hf. unfold close_if. by rewrite (proj2 (Z.eqb_neq _ _)). Qed.

Lemma copy_opened_closes fuel source_fid source target st :
  source_fid <> 0 -> closing (E := E) (one (RemoteFile source_fid)) (copy_opened fuel source_fid source target st).
Proof.
  intros Hs. unfold copy_opened. rewrite (close_if_id source_fid) by done. apply closing_bind; [settle|]. intros ret. cbv zeta. apply closing_if; [settle|].
  apply closing_created.
  - intros fid Hz. change (negb (0 =? 0)) with false. cbv iota. rewrite (close_if_id fid) by done. apply closing_bind; [apply copy_loop_closes|].
    intros [copied|]; apply closing_pair; intros a; settle. apply remote_metadata_closes.
  - intros r Hr. rewrite (proj2 (Z.eqb_neq _ _)) by done. cbn [negb]. apply closing_remote. intros a. unfold close_if. change (0 =? 0) with true. cbv iota. settle.
Qed.

Lemma copy_file_closes fuel source target st : closes (copy_remote_file fuel source target st).
Proof.
  unfold copy_remote_file. apply closing_bind; [settle|]. intros [r target_stat]. apply closing_if; [settle|]. apply closing_if; [settle|].
  apply closing_open_test; [|intros r' fid; settle]. intros fid Hz. by apply copy_opened_closes.
Qed.

Lemma copy_tree_closes fuel source target st : closes (copy_remote_tree fuel source target st).
Proof.
  revert source target st. induction fuel as [|fuel IH]; intros source target st; cbn [copy_remote_tree]; [apply closing_unfinished|].
  settle; [apply mkdir_closes|apply readdir_all_closes| |apply remote_metadata_closes].
  apply each_closes. intros p. unfold joined_remote. settle; [apply IH|apply copy_file_closes].
Qed.

Lemma within_closes path dir : closes (remote_path_within path dir).
Proof.
  unfold remote_path_within. settle. generalize (S (length path)) as fuel. intros fuel. revert path.
  induction fuel as [|fuel IH]; intros path; cbn [within_loop]; settle. apply IH.
Qed.

(** ** Trees without files *)

Lemma chmod_tree_closes fuel path mode : closes (chmod_remote_tree fuel path mode).
Proof.
  revert path. induction fuel as [|fuel IH]; intros path; cbn [chmod_remote_tree]; [apply closing_unfinished|].
  settle; [apply readdir_all_closes|]. apply each_closes. intros p. unfold joined_remote. settle. apply IH.
Qed.

Lemma delete_closes fuel path : closes (delete_directory fuel path).
Proof.
  revert path. induction fuel as [|fuel IH]; intros path; cbn [delete_directory]; [apply closing_unfinished|].
  settle. apply each_closes. intros p. unfold joined_remote. settle. apply IH.
Qed.

(** ** Metadata *)

Lemma words_loop_closes fuel p n words : closes (words_loop fuel p n words).
Proof. revert p words. induction fuel as [|fuel IH]; intros p words; cbn [words_loop]; settle. apply IH. Qed.

Lemma parse_words_closes arg n : closes (parse_command_words_alloc arg n).
Proof. unfold parse_command_words_alloc. settle. apply words_loop_closes. Qed.

Lemma xattr_list_closes path : closes (remote_xattr_list path).
Proof. unfold remote_xattr_list. settle. Qed.

Lemma xattr_get_closes path name : closes (remote_xattr_get path name).
Proof. unfold remote_xattr_get. settle. Qed.

Lemma read_whole_closes fuel fd size data : closes (read_whole fuel fd size data).
Proof. revert data. induction fuel as [|fuel IH]; intros data; cbn [read_whole]; settle. apply IH. Qed.

Lemma read_binary_closes path maximum : closes (read_binary_file path maximum).
Proof. unfold read_binary_file. settle. apply read_whole_closes. Qed.

Lemma write_and_close_closes fd data : closing (E := E) (one (LocalFile fd)) (write_and_close fd data).
Proof. unfold write_and_close. settle. apply write_all_closes. Qed.

Lemma write_binary_closes path data : closes (write_binary_file path data).
Proof. unfold write_binary_file. settle. apply write_and_close_closes. Qed.

Lemma write_icon_closes path data : closes (write_icon_file_exclusive path data).
Proof.
  unfold write_icon_file_exclusive. apply closing_open_local; intros x; [|settle]. unfold write_and_close.
  apply closing_assoc. apply closing_bind; [apply write_all_closes|]. intros ret. apply closing_assoc. settle.
Qed.

Lemma fork_out_closes fuel path fd offset limit : closes (fork_out fuel path fd offset limit).
Proof. revert offset. induction fuel as [|fuel IH]; intros offset; cbn [fork_out]; settle; [apply write_all_closes|apply IH]. Qed.

Lemma fork_in_closes fuel fd path offset : closes (fork_in fuel fd path offset).
Proof. revert offset. induction fuel as [|fuel IH]; intros offset; cbn [fork_in]; settle. apply IH. Qed.

Lemma icon_list_closes n creator index result : closes (icon_list n creator index result).
Proof. revert index result. induction n as [|n IH]; intros index result; cbn [icon_list]; settle. apply IH. Qed.

Lemma icon_find_closes n creator index type icon_type_ : closes (icon_find n creator index type icon_type_).
Proof. revert index. induction n as [|n IH]; intros index; cbn [icon_find]; settle. apply IH. Qed.

Lemma appl_list_closes n creator index one_ result : closes (appl_list n creator index one_ result).
Proof. revert index result. induction n as [|n IH]; intros index result; cbn [appl_list]; settle. apply IH. Qed.

(** ** The session *)

Lemma set_dir_closes path : closes (set_current_directory path).
Proof. unfold set_current_directory. settle. Qed.

Lemma attach_closes server : closes (attach_volume_with_password_prompt server).
Proof. unfold attach_volume_with_password_prompt, cmdline_get_volpass. settle. Qed.

Lemma recover_closes v d : closes (recover_session v d).
Proof.
  unfold recover_session, new_session, get_uam_mask_for_url, recovery_failed, leave_server. settle; first [apply attach_closes|apply set_dir_closes].
Qed.

Lemma once_closes {A} v d failed (m : Cmd _ A) : closes m -> closes (once_recovered v d failed m).
Proof. intros Hm. unfold once_recovered. settle; first [apply Hm|apply recover_closes]. Qed.

Lemma attach_named_closes name : closes (attach_named_volume name).
Proof.
  unfold attach_named_volume, attach_here. settle; [|apply set_dir_closes]. apply once_closes. settle. apply attach_closes.
Qed.

Lemma pick_closes fuel : closes (pick_volume fuel).
Proof.
  unfold pick_volume. settle; [apply once_closes; settle|]. revert l. induction fuel as [|fuel IH]; intros l; cbn [pick_loop];
    unfold cmdline_afp_exit; settle; first [apply attach_named_closes|apply IH].
Qed.

Lemma fill_closes fuel dir room screen batch fetched eod : closes (fill_screen fuel dir room screen batch fetched eod).
Proof.
  revert screen batch fetched eod. induction fuel as [|fuel IH]; intros screen batch fetched eod; cbn [fill_screen]; settle; [apply once_closes; settle|..]; apply IH.
Qed.

Lemma dir_closes fuel dir batch fetched eod shown : closes (dir_loop fuel dir batch fetched eod shown).
Proof.
  revert batch fetched eod shown. induction fuel as [|fuel IH]; intros batch fetched eod shown; cbn [dir_loop]; settle; [apply fill_closes|..]; apply IH.
Qed.

(** The lemmas of the parts. *)
Ltac parts :=
  first [apply words_closes|apply server_path_closes|apply parse_words_closes|apply chmod_tree_closes|apply delete_closes|apply copy_tree_closes
  |apply copy_file_closes|apply within_closes|apply upload_directory_closes|apply upload_file_closes|apply download_directory_closes
  |apply retrieve_closes|apply to_local_closes|apply xattr_list_closes|apply xattr_get_closes|apply read_binary_closes|apply write_binary_closes
  |apply write_icon_closes|apply fork_out_closes|apply fork_in_closes|apply icon_list_closes|apply icon_find_closes|apply appl_list_closes
  |apply set_dir_closes|apply attach_named_closes|apply pick_closes|apply dir_closes|apply once_closes; settle].

Lemma run_command_closes fuel c arg : closes (run_command fuel c arg).
Proof.
  destruct c; cbn [run_command]; cbv beta delta [com_appl com_view com_cd com_chmod com_comment com_copy com_close com_disconnect com_statvfs com_exit
    com_finderinfo com_icon com_get com_get_file com_lcd com_dir com_mkdir com_rename com_pass com_put com_pwd com_quit com_delete com_rmdir
    com_resourcefork com_status com_touch com_xattr when_attached cd_home cd_up cd_to cmdline_afp_exit join_source_name joined_remote duplicated]; cbv zeta; settle; parts.
Qed.

Lemma execute_closes fuel line : closes (execute_line fuel line).
Proof. unfold execute_line. settle. apply run_command_closes. Qed.

Lemma ui_closes lines fuel : closes (cmdline_ui lines fuel).
Proof. induction lines as [|lines IH]; cbn [cmdline_ui]; settle; [apply execute_closes|apply IH]. Qed.

End Commands.

#[local] Existing Instance handles_noted.

(** The opens and closes of a run. *)
Definition handles_of {E A} (m : Cmd (E * list (handle * Z)) A) (s : shell) (e : E) : list (handle * Z) :=
  snd (snd (snd (m (s, (e, []))))).

Lemma closing_handles {E} {HE : CmdEnv E} {A} (m : Cmd (E * list (handle * Z)) A) s e a h :
  closing (E := E) nothing m -> fst (m (s, (e, []))) = Some a -> balance (handles_of m s e) h = 0.
Proof. intros Hm Ha. destruct (Hm (s, (e, []))) as (l & Hl & Hb). unfold handles_of. rewrite Hl. by destruct (Hb a Ha) as [_ ->]. Qed.

(** C30: nothing stays open. Whatever lines the user types and whatever the
    library, the server and the system answer, a line that has been executed,
    and a session that has ended, has closed every file it opened on the
    server, every local file and every local directory, each as often as it
    was opened. *)
Theorem session_closes_files {E} {HE : CmdEnv E} {HH : Handles E} lines fuel line s (e : E) h :
  (forall ret, fst (execute_line fuel line (s, (e, []))) = Some ret -> balance (handles_of (execute_line fuel line) s e) h = 0)
  /\ (fst (cmdline_ui lines fuel (s, (e, []))) = Some tt -> balance (handles_of (cmdline_ui lines fuel) s e) h = 0).
Proof. split; [intros ret|]; intros Hr; eapply closing_handles; eauto; [apply execute_closes|apply ui_closes]. Qed.

#[local] Existing Instance willing_env.

Lemma willing_handles : @Handles unit willing_env.
Proof. by intros v path flags e. Qed.

Lemma session_closes_files_witness :
  handles_of (execute_line 2 (str "cat /a")) on_volume tt = [(RemoteFile 1, 1); (RemoteFile 1, -1)]
  /\ balance (handles_of (execute_line 2 (str "cat /a")) on_volume tt) (RemoteFile 1) = 0.
Proof.
  split; [by vm_compute|].
  refine (proj1 (@session_closes_files unit willing_env willing_handles 1 2 (str "cat /a") on_volume tt (RemoteFile 1)) 0 _). by vm_compute.
Defined.
