(* ===== verification/ShellState.v ===== *)
(** The state of the command line client: which programs leave it alone, its
    well-formedness through every command, and what the recovery of a session
    restores. *)
From stdpp Require Import base list.
From S2P Require Import Prelude AfpProtocol Path Utils Listing Url LowLevel Resource Local Sidecar Ipc Stateless CmdText Shell ShellFiles ShellCopy ShellSession ShellTrace ShellConfined.
Local Open Scope afp_scope.

(** ** Programs and a property of the state *)

Section Keeps.
Context {E : Type} {HE : CmdEnv E}.

(** From a state of [W] to one of [W'], ended or not; a result has [Q]. *)
Definition keeps (W W' : shell -> Prop) {A} (m : Cmd E A) : Prop :=
  forall s, W (fst s) -> W' (fst (snd (m s))).

(** The state is not changed at all. *)
Definition steady {A} (m : Cmd E A) : Prop := forall s, fst (snd (m s)) = fst s.

Lemma keeps_steady W {A} (m : Cmd E A) : steady m -> keeps W W m.
Proof. intros Hm s Hs. by rewrite Hm. Qed.

Lemma keeps_then W {A B} (m : Cmd E A) (k : A -> Cmd E B) : keeps W W m -> (forall a, keeps W W (k a)) -> keeps W W (cbind m k).
Proof. intros Hm Hk s Hs. specialize (Hm s Hs). unfold cbind. destruct (m s) as [[a|] s']; [|done]. by apply Hk. Qed.

Lemma steady_bind {A B} (m : Cmd E A) (k : A -> Cmd E B) : steady m -> (forall a, steady (k a)) -> steady (cbind m k).
Proof. intros Hm Hk s. specialize (Hm s). unfold cbind. destruct (m s) as [[a|] s']; [|done]. rewrite Hk. done. Qed.

Lemma steady_ret {A} (a : A) : steady (cret a).
Proof. done. Qed.

Lemma steady_unfinished {A} : steady (A := A) unfinished.
Proof. done. Qed.

Lemma steady_get : steady get_shell.
Proof. done. Qed.

Lemma steady_call {A} (c : ccmd A) : steady (ccall c).
Proof. intros [s e]. unfold ccall. by destruct (answer_cmd c e). Qed.

Lemma steady_sl {A} (c : slcall A) : steady (sl c).
Proof. apply steady_bind; [apply steady_get|intros s; apply steady_call]. Qed.

Lemma steady_if {A} (b : bool) (m n : Cmd E A) : steady m -> steady n -> steady (if b then m else n).
Proof. by destruct b. Qed.

End Keeps.

Ltac still :=
  cbv zeta;
  repeat match goal with
  | |- steady (cret _) => apply steady_ret
  | |- steady unfinished => apply steady_unfinished
  | |- steady get_shell => apply steady_get
  | |- steady (ccall _) => apply steady_call
  | |- steady (sl _) => apply steady_sl
  | |- steady (cbind _ _) => apply steady_bind; [|intros ?]
  | |- steady (if _ then _ else _) => apply steady_if
  | |- steady (match ?x with _ => _ end) => destruct x
  | |- steady (let (_, _) := ?x in _) => destruct x
  end.

(** ** Programs that leave the state alone *)

Section Still.
Context {E : Type} {HE : CmdEnv E}.
Abbreviation still := (steady (E := E)).

Lemma readdir_all_still fuel path : still (remote_readdir_all fuel path).
Proof.
  unfold remote_readdir_all. generalize (@nil afpc_file_info) as all. generalize false as eod.
  induction fuel as [|fuel IH]; intros eod all; cbn [readdir_all_loop]; unfold listed_all; still. apply IH.
Qed.

Lemma each_still step ret entries : (forall p, still (step p)) -> still (each_entry step ret entries).
Proof. intros Hs. revert ret. induction entries as [|p entries IH]; intros ret; cbn [each_entry]; still; [apply IH|apply Hs|apply IH]. Qed.

Lemma counted_still step ret bytes entries : (forall p, still (step p)) -> still (each_counted step ret bytes entries).
Proof. intros Hs. revert ret bytes. induction entries as [|p entries IH]; intros ret bytes; cbn [each_counted]; still; [apply IH|apply Hs|apply IH]. Qed.

Lemma local_still fuel dir step ret bytes : (forall name, still (step name)) -> still (local_entries fuel dir step ret bytes).
Proof. intros Hs. revert ret bytes. induction fuel as [|fuel IH]; intros ret bytes; cbn [local_entries]; still; first [apply IH|apply Hs]. Qed.

Lemma write_all_still fd data : still (write_all_fd fd data).
Proof.
  unfold write_all_fd. generalize (length data) as fuel. intros fuel. revert data.
  induction fuel as [|fuel IH]; intros [|b data]; cbn [write_all_loop]; still. apply IH.
Qed.

Lemma upload_file_still fuel local path : still (upload_file fuel local path).
Proof.
  unfold upload_file, upload_regular, open_created_file, copy_local_metadata_to_remote, apply_remote_posix_metadata. still.
  match goal with |- still (upload_loop _ ?f ?g ?o) => generalize f, g, o end.
  induction fuel as [|fuel IH]; intros; cbn [upload_loop]; still. apply IH.
Qed.

Lemma upload_directory_still fuel local path : still (upload_directory fuel local path).
Proof.
  revert local path. induction fuel as [|fuel IH]; intros local path; cbn [upload_directory]; [apply steady_unfinished|].
  unfold make_remote_directory, copy_local_metadata_to_remote, apply_remote_posix_metadata. still.
  apply local_still. intros name. unfold joined_remote, joined_local. still; [apply IH|apply upload_file_still].
Qed.

Lemma retrieve_still fuel arg fd st : still (retrieve_file fuel arg fd st).
Proof.
  unfold retrieve_file, server_path. still. match goal with |- still (retrieve_loop _ ?f ?g ?o) => generalize f, g, o end.
  induction fuel as [|fuel IH]; intros; cbn [retrieve_loop]; still; [apply write_all_still|apply IH].
Qed.

Lemma download_still fuel path local : still (download_directory fuel path local).
Proof.
  revert path local. induction fuel as [|fuel IH]; intros path local; cbn [download_directory]; [apply steady_unfinished|].
  unfold copy_remote_metadata_to_local. still; [apply readdir_all_still|]. all: apply counted_still; intros p;
    unfold joined_remote, joined_local, download_file, copy_remote_metadata_to_local; still; first [apply IH|apply retrieve_still].
Qed.

Lemma copy_file_still fuel source target st : still (copy_remote_file fuel source target st).
Proof.
  unfold copy_remote_file, copy_opened, close_if, open_created_file, copy_remote_metadata, apply_remote_posix_metadata. still.
  match goal with |- still (copy_file_loop _ ?f ?g ?o ?b) => generalize f, g, o, b end.
  induction fuel as [|fuel IH]; intros; cbn [copy_file_loop]; still; apply IH.
Qed.

Lemma copy_tree_still fuel source target st : still (copy_remote_tree fuel source target st).
Proof.
  revert source target st. induction fuel as [|fuel IH]; intros source target st; cbn [copy_remote_tree]; [apply steady_unfinished|].
  unfold make_remote_directory, copy_remote_metadata, apply_remote_posix_metadata. still; [apply readdir_all_still|].
  apply each_still. intros p. unfold joined_remote. still; [apply IH|apply copy_file_still].
Qed.

Lemma within_still path dir : still (remote_path_within path dir).
Proof.
  unfold remote_path_within. still. generalize (S (length path)) as fuel. intros fuel. revert path.
  induction fuel as [|fuel IH]; intros path; cbn [within_loop]; still. apply IH.
Qed.

Lemma chmod_tree_still fuel path mode : still (chmod_remote_tree fuel path mode).
Proof.
  revert path. induction fuel as [|fuel IH]; intros path; cbn [chmod_remote_tree]; [apply steady_unfinished|].
  still; [apply readdir_all_still|]. apply each_still. intros p. unfold joined_remote. still. apply IH.
Qed.

Lemma delete_still fuel path : still (delete_directory fuel path).
Proof.
  revert path. induction fuel as [|fuel IH]; intros path; cbn [delete_directory]; [apply steady_unfinished|].
  still. apply each_still. intros p. unfold joined_remote. still. apply IH.
Qed.

Lemma parse_words_still arg n : still (parse_command_words_alloc arg n).
Proof.
  unfold parse_command_words_alloc. still. generalize (S (length arg)) as fuel. generalize (@nil (list Z)) as words. intros words fuel. revert arg words.
  induction fuel as [|fuel IH]; intros p words; cbn [words_loop]; still. apply IH.
Qed.

Lemma write_binary_still path data : still (write_binary_file path data).
Proof. unfold write_binary_file, write_and_close. still. apply write_all_still. Qed.

Lemma write_icon_still path data : still (write_icon_file_exclusive path data).
Proof. unfold write_icon_file_exclusive, write_and_close. still. apply write_all_still. Qed.

Lemma read_binary_still path maximum : still (read_binary_file path maximum).
Proof.
  unfold read_binary_file. still. match goal with |- still (read_whole ?n _ _ _) => generalize n end. generalize (@nil Z) as data. intros data n. revert data.
  induction n as [|n IH]; intros data; cbn [read_whole]; still. apply IH.
Qed.

Lemma fork_out_still fuel path fd offset limit : still (fork_out fuel path fd offset limit).
Proof. revert offset. induction fuel as [|fuel IH]; intros offset; cbn [fork_out]; still; [apply write_all_still|apply IH]. Qed.

Lemma fork_in_still fuel fd path offset : still (fork_in fuel fd path offset).
Proof. revert offset. induction fuel as [|fuel IH]; intros offset; cbn [fork_in]; still. apply IH. Qed.

Lemma icon_list_still n creator index result : still (icon_list n creator index result).
Proof. revert index result. induction n as [|n IH]; intros index result; cbn [icon_list]; still. apply IH. Qed.

Lemma icon_find_still n creator index type icon_type_ : still (icon_find n creator index type icon_type_).
Proof. revert index. induction n as [|n IH]; intros index; cbn [icon_find]; still. apply IH. Qed.

Lemma appl_list_still n creator index one_ result : still (appl_list n creator index one_ result).
Proof. revert index result. induction n as [|n IH]; intros index result; cbn [appl_list]; still. apply IH. Qed.

End Still.

(** ** Well-formed states *)

(** The directory is a path of its length and not too long, the texts fit their
    arrays, and a volume is attached only while connected. *)
Definition shell_wf (s : shell) : Prop :=
  path_wf (curdir s) /\ path_len (curdir s) <= AFPC_MAX_UTF8_PATH_BYTES
  /\ (vol_id s <> None -> connected s = true)
  /\ zlen (volpassword s) < VOLPASSWORD_LEN
  /\ zlen (u_volumename (url s)) < AFPC_VOLUME_NAME_UTF8_LEN
  /\ zlen (u_servername (url s)) < AFPC_SERVER_NAME_UTF8_LEN.

(** A well-formed state, of a connected client if asked for. *)
Definition wfc (c : bool) (s : shell) : Prop := shell_wf s /\ (c = true -> connected s = true).

Lemma strlcpy_short src n : 0 < n -> zlen (strlcpy src n) < n.
Proof. intros Hn. unfold strlcpy. rewrite zlen_take. lia. Qed.

Lemma path_set_wf ok p d r q :
  afpc_path_set ok (Some p) (Some d) AFPC_MAX_UTF8_PATH_BYTES = (r, Some q) ->
  q = p \/ (path_wf q /\ path_len q <= AFPC_MAX_UTF8_PATH_BYTES).
Proof.
  unfold afpc_path_set, afpc_path_validate. change (AFPC_MAX_UTF8_PATH_BYTES =? AFPC_PATH_UNBOUNDED) with false. cbv iota zeta.
  destruct (strnlen d (AFPC_MAX_UTF8_PATH_BYTES + 1) >? AFPC_MAX_UTF8_PATH_BYTES) eqn:El; [by intros [= _ <-]; left|].
  destruct (negb ok); [by intros [= _ <-]; left|]. intros [= _ <-]. right. unfold path_wf. cbn [path_data path_len].
  assert (Ht : take (Z.to_nat (strnlen d (AFPC_MAX_UTF8_PATH_BYTES + 1))) d = until_nul (take (Z.to_nat (AFPC_MAX_UTF8_PATH_BYTES + 1)) d)).
  { unfold strnlen. set (n := Z.to_nat (AFPC_MAX_UTF8_PATH_BYTES + 1)). clearbody n. unfold zlen. rewrite Nat2Z.id. clear. revert d.
    induction n as [|n IH]; intros [|b d]; cbn [take firstn until_nul length]; try done. destruct (b =? 0); [done|]. cbn [length take firstn]. by rewrite IH. }
  rewrite Ht. split_and!; [apply until_nul_no_nul|done|lia].
Qed.

Section WellFormed.
Context {E : Type} {HE : CmdEnv E}.

Lemma keeps_bind2 (W W1 W2 : shell -> Prop) {A B} (m : Cmd E A) (k : A -> Cmd E B) :
  keeps W W1 m -> (forall a, keeps W1 W2 (k a)) -> (forall s, W1 s -> W2 s) -> keeps W W2 (cbind m k).
Proof. intros Hm Hk Hw s Hs. specialize (Hm s Hs). unfold cbind. destruct (m s) as [[a|] s']; [by apply Hk|by apply Hw]. Qed.

(** The state a program looks at is the one it goes on from. *)
Lemma keeps_look (W W' : shell -> Prop) {B} (k : shell -> Cmd E B) :
  (forall s, W s -> keeps (fun s' => s' = s) W' (k s)) -> keeps W W' (cbind get_shell k).
Proof. intros Hk [s e] Hs. unfold cbind, get_shell. cbn [fst]. by apply (Hk s Hs). Qed.

Lemma keeps_from (W W1 W' : shell -> Prop) {A} (m : Cmd E A) : (forall s, W s -> W1 s) -> keeps W1 W' m -> keeps W W' m.
Proof. intros Hw Hm s Hs. by apply Hm, Hw. Qed.

Lemma keeps_change (W W' : shell -> Prop) f : (forall s, W s -> W' (f s)) -> keeps (E := E) W W' (change_shell f).
Proof. intros Hf s Hs. by apply Hf. Qed.

Lemma keeps_to (W W' : shell -> Prop) {A} (m : Cmd E A) : (forall s, W s -> W' s) -> keeps W W m -> keeps W W' m.
Proof. intros Hw Hm s Hs. by apply Hw, Hm. Qed.

Lemma keeps_after_call (W W' : shell -> Prop) {A B} (c : ccmd A) (k : A -> Cmd E B) :
  (forall a, keeps W W' (k a)) -> keeps W W' (cbind (ccall c) k).
Proof. intros Hk [s e] Hs. unfold cbind, ccall. destruct (answer_cmd c e) as [a e']. by apply Hk. Qed.

Lemma set_dir_keeps c path : keeps (E := E) (wfc c) (wfc c) (set_current_directory path).
Proof.
  unfold set_current_directory. apply keeps_then; [apply keeps_steady, steady_call|]. intros ok. apply keeps_look. intros s Hs.
  destruct (afpc_path_set _ _ _ _) as [r [q|]] eqn:Ep; [|intros s' Hs'; cbn; by rewrite Hs']. eapply keeps_bind2 with (W1 := wfc c); [|intros a; by intros s' Hs'|done].
  apply keeps_change. intros s' ->. destruct Hs as [(H1 & H2 & H3 & H4 & H5 & H6) Hc]. apply path_set_wf in Ep as [->|[Hw Hl]]; repeat split; done.
Qed.

Lemma attach_keeps c server : keeps (E := E) (wfc c) (wfc c) (attach_volume_with_password_prompt server).
Proof.
  unfold attach_volume_with_password_prompt. apply keeps_then.
  { apply keeps_change. intros s [(H1 & H2 & H3 & H4 & H5 & H6) Hc]. repeat split; done. }
  intros _. apply keeps_then; [apply keeps_steady, steady_get|]. intros s. apply keeps_then; [apply keeps_steady, steady_call|]. intros [[ret vol] need].
  destruct (ret =? 0); [apply keeps_steady, steady_ret|]. destruct need; [|apply keeps_steady, steady_ret]. apply keeps_then.
  - unfold cmdline_get_volpass. apply keeps_then; [apply keeps_steady, steady_call|]. intros [p|]; [|apply keeps_steady, steady_ret].
    apply keeps_then; [|intros _; apply keeps_steady, steady_ret]. apply keeps_change. intros s' [(H1 & H2 & H3 & H4 & H5 & H6) Hc].
    repeat split; try done. by apply strlcpy_short.
  - intros r. apply keeps_steady. still.
Qed.

Lemma failed_keeps c before old new dir : wfc c before -> keeps (E := E) (wfc c) (wfc c) (recovery_failed before old new dir).
Proof.
  intros [(H1 & H2 & H3 & H4 & H5 & H6) Hc]. unfold recovery_failed. apply keeps_then; [apply keeps_steady; still|]. intros _.
  apply keeps_then; [|intros _; apply keeps_then; [apply set_dir_keeps|intros r; apply keeps_steady, steady_ret]].
  apply keeps_change. intros s [(K1 & K2 & K3 & K4 & K5 & K6) Kc]. repeat split; done.
Qed.

Lemma recover_keeps c v d : keeps (E := E) (wfc c) (wfc c) (recover_session v d).
Proof.
  unfold recover_session. apply keeps_look. intros s Hs. apply (keeps_from _ (wfc c)); [by intros s' ->|]. destruct (negb (connected s)); [apply keeps_steady, steady_ret|].
  apply keeps_then; [apply keeps_steady, steady_call|]. intros ok. destruct (negb ok); [apply keeps_steady, steady_ret|]. cbv zeta.
  apply keeps_then; [apply keeps_steady; unfold get_uam_mask_for_url; still|]. intros mask. destruct (mask =? 0); [apply keeps_steady, steady_ret|].
  apply keeps_then; [apply keeps_steady; unfold new_session; still|]. intros [new|]; [|apply keeps_steady, steady_ret].
  apply keeps_then; [destruct (_ && _); [|apply keeps_steady, steady_ret]; apply keeps_then; [apply attach_keeps|intros [r vol]; apply keeps_steady, steady_ret]|].
  intros [ret vol]. destruct (negb (ret =? 0)); [by apply failed_keeps|].
  apply keeps_then; [apply keeps_steady; unfold leave_server; still|]. intros old. apply keeps_then.
  { apply keeps_change. intros s' [(K1 & K2 & K3 & K4 & K5 & K6) Kc]. repeat split; done. }
  intros _. apply keeps_then; [destruct (_ && _); [apply set_dir_keeps|apply keeps_steady, steady_ret]|]. intros r.
  destruct (negb (r =? 0)); [by apply failed_keeps|apply keeps_steady, steady_ret].
Qed.

Lemma once_keeps c {A} v d failed (m : Cmd E A) : keeps (wfc c) (wfc c) m -> keeps (wfc c) (wfc c) (once_recovered v d failed m).
Proof.
  intros Hm. unfold once_recovered. apply keeps_then; [done|]. intros a. destruct (_ && _); [|apply keeps_steady, steady_ret].
  apply keeps_then; [apply recover_keeps|]. intros r. destruct (r =? 0); [done|apply keeps_steady, steady_ret].
Qed.

Lemma attach_here_keeps : keeps (E := E) (wfc true) (wfc true) attach_here.
Proof.
  unfold attach_here. apply keeps_then; [apply keeps_steady, steady_get|]. intros s. apply keeps_then; [apply attach_keeps|]. intros [ret vol].
  destruct (ret =? 0); [|apply keeps_steady, steady_ret]. apply keeps_then; [|intros _; apply keeps_steady, steady_ret].
  apply keeps_change. intros s' [(H1 & H2 & H3 & H4 & H5 & H6) Hc]. repeat split; try done; cbn; intros; by apply Hc.
Qed.

Lemma volumename_keeps c name : zlen name < AFPC_VOLUME_NAME_UTF8_LEN ->
  keeps (E := E) (wfc c) (wfc c) (change_shell (fun s => set_url (set_u_volumename name (url s)) s)).
Proof. intros Hn. apply keeps_change. intros s' [(H1 & H2 & H3 & H4 & H5 & H6) Hc]. repeat split; done. Qed.

Lemma attach_named_keeps name : keeps (E := E) (wfc true) (wfc true) (attach_named_volume name).
Proof.
  unfold attach_named_volume. apply keeps_then; [apply volumename_keeps; by apply strlcpy_short|]. intros _.
  destruct (zlen name >=? AFPC_VOLUME_NAME_UTF8_LEN); [apply keeps_steady, steady_ret|].
  apply keeps_then; [apply once_keeps, attach_here_keeps|]. intros ret. destruct (negb (ret =? 0)).
  - apply keeps_then; [by apply volumename_keeps|intros _; apply keeps_steady, steady_ret].
  - apply keeps_then; [apply set_dir_keeps|intros r; apply keeps_steady, steady_ret].
Qed.

Lemma wfc_weaken c s : wfc c s -> wfc false s.
Proof. intros [H1 _]. by split. Qed.

Lemma exit_keeps c : keeps (E := E) (wfc c) (wfc false) cmdline_afp_exit.
Proof. apply keeps_change. intros s' [(H1 & H2 & H3 & H4 & H5 & H6) Hc]. by repeat split. Qed.

Lemma quit_keeps c : keeps (E := E) (wfc c) (wfc false) (change_shell (set_quit_requested true) ;;= cmdline_afp_exit ;;= cret 0).
Proof.
  eapply keeps_bind2 with (W1 := wfc c); [apply keeps_change; intros s' [(H1 & H2 & H3 & H4 & H5 & H6) Hc]; by repeat split| |apply wfc_weaken].
  intros _. eapply keeps_bind2; [apply (exit_keeps c)|intros _; apply keeps_steady, steady_ret|done].
Qed.

Lemma pick_keeps fuel : keeps (E := E) (wfc true) (wfc false) (pick_volume fuel).
Proof.
  unfold pick_volume. eapply keeps_bind2; [apply keeps_steady, steady_call| |apply wfc_weaken]. intros ok.
  destruct (negb ok); [apply keeps_to with (W := wfc true), keeps_steady, steady_ret; apply wfc_weaken|].
  eapply keeps_bind2; [apply (once_keeps true); apply keeps_steady; still| |apply wfc_weaken]. intros [ret vols].
  destruct (negb (ret =? 0)); [apply (keeps_to (wfc true)), keeps_steady, steady_ret; apply wfc_weaken|].
  destruct (zlen vols =? 0); [apply (keeps_to (wfc true)), keeps_steady, steady_ret; apply wfc_weaken|].
  induction fuel as [|fuel IH]; cbn [pick_loop]; [apply (keeps_to (wfc true)), keeps_steady, steady_unfinished; apply wfc_weaken|].
  eapply keeps_bind2; [apply keeps_steady, steady_call| |apply wfc_weaken]. intros [line|]; [|apply quit_keeps].
  destruct (list_eqb line (str "q")); [apply quit_keeps|]. destruct (parse_volume_slot _ _); [|done].
  eapply keeps_bind2; [apply attach_named_keeps| |apply wfc_weaken]. intros r.
  destruct (r =? 0); [apply (keeps_to (wfc true)), keeps_steady, steady_ret; apply wfc_weaken|done].
Qed.

(** A command for connected clients. *)
Lemma connected_keeps {A} (m : shell -> Cmd E A) r :
  (forall s, keeps (wfc true) (wfc false) (m s)) ->
  keeps (wfc false) (wfc false) (let= s := get_shell in if negb (connected s) then cret r else m s).
Proof.
  intros Hm. apply keeps_look. intros s Hs. destruct (connected s) eqn:Ec; cbn [negb].
  - apply (keeps_from _ (wfc true)); [|apply Hm]. intros s' ->. destruct Hs as [Hs _]. by split.
  - intros s' Hs'. cbn. by rewrite Hs'.
Qed.

Lemma detach_keeps {B} (s : shell) (k : unit -> Cmd E B) :
  (forall u, keeps (wfc true) (wfc false) (k u)) ->
  keeps (wfc true) (wfc false) (cbind (match vol_id s with
    | Some vol => ccall (SlDetach vol) ;;= change_shell (fun s => set_volpassword [] (set_vol_id None s)) | None => cret tt end) k).
Proof.
  intros Hk. eapply keeps_bind2 with (W1 := wfc true); [|done|apply wfc_weaken]. destruct (vol_id s); [|apply keeps_steady, steady_ret].
  apply keeps_then; [apply keeps_steady, steady_call|]. intros _. apply keeps_change. intros s' [(H1 & H2 & H3 & H4 & H5 & H6) Hc]. by repeat split.
Qed.

Lemma disconnect_keeps : keeps (E := E) (wfc false) (wfc false) com_disconnect.
Proof.
  unfold com_disconnect. apply keeps_look. intros s [Hs _]. destruct (negb (connected s)).
  { intros s' Hs'. cbn. rewrite Hs'. by split. }
  set (W := fun s' => shell_wf s' /\ vol_id s' = None). apply keeps_bind2 with (W1 := W).
  - destruct Hs as (H1 & H2 & H3 & H4 & H5 & H6). destruct (vol_id s) eqn:Ev.
    + apply keeps_after_call. intros _. apply keeps_change. intros s' ->. by repeat split.
    + intros s' Hs'. cbn. rewrite Hs'. by repeat split.
  - intros _. apply keeps_bind2 with (W1 := W); [|intros _|by intros s' [? _]; split].
    + destruct (server_id s); [|apply keeps_steady, steady_ret]. apply keeps_then; [apply keeps_steady, steady_call|]. intros _.
      apply keeps_change. intros s' [(H1 & H2 & H3 & H4 & H5 & H6) Hv]. by repeat split.
    + apply keeps_after_call. intros _.
      apply keeps_bind2 with (W1 := W); [|intros _; apply keeps_to with (W := W); [by intros s' [? _]; split|apply keeps_steady, steady_ret]|by intros s' [? _]; split].
      apply keeps_change. intros s' [(H1 & H2 & H3 & H4 & H5 & H6) Hv]. by repeat split.
  - by intros s' [? _]; split.
Qed.

Lemma running_keeps c b : keeps (E := E) (wfc c) (wfc c) (change_shell (set_running b)).
Proof. apply keeps_change. intros s' [(H1 & H2 & H3 & H4 & H5 & H6) Hc]. by repeat split. Qed.

Lemma com_exit_keeps fuel : keeps (E := E) (wfc false) (wfc false) (com_exit fuel).
Proof.
  unfold com_exit. apply connected_keeps. intros s. apply detach_keeps. intros _.
  eapply keeps_bind2; [apply (set_dir_keeps true)| |apply wfc_weaken]. intros ret.
  destruct (negb (ret =? 0)); [apply (keeps_to (wfc true)), keeps_steady, steady_ret; apply wfc_weaken|apply pick_keeps].
Qed.

Lemma home_keeps fuel : keeps (E := E) (wfc true) (wfc false) (cd_home fuel).
Proof.
  unfold cd_home. eapply keeps_bind2; [apply keeps_steady, steady_get| |apply wfc_weaken]. intros s. destruct (vol_id s).
  - eapply keeps_bind2; [apply (set_dir_keeps true)| |apply wfc_weaken]. intros r. apply (keeps_to (wfc true)), keeps_steady, steady_ret. apply wfc_weaken.
  - eapply keeps_bind2; [apply pick_keeps| |done]. intros r. apply keeps_steady, steady_ret.
Qed.

Lemma up_keeps c : keeps (E := E) (wfc c) (wfc c) cd_up.
Proof.
  unfold cd_up. apply keeps_then; [apply keeps_steady, steady_get|]. intros s0.
  apply keeps_then; [destruct (path_data (curdir s0)); [apply keeps_steady, steady_ret|apply set_dir_keeps]|]. intros r.
  destruct (negb (r =? 0)); [apply keeps_steady, steady_ret|]. apply keeps_look. intros s Hs. cbv zeta.
  assert (Hroot : keeps (E := E) (fun s' => s' = s) (wfc c) (let= ret := set_current_directory (Some DEFAULT_DIRECTORY) in cret (if ret =? 0 then 0 else -1))).
  { apply (keeps_from _ (wfc c)); [by intros s' ->|]. apply keeps_then; [apply set_dir_keeps|]. intros x. apply keeps_steady, steady_ret. }
  destruct (strrchr (current_directory s) ch_slash) as [p|] eqn:Ep; [|done]. destruct (negb (p =? 0)); [|done].
  eapply keeps_bind2; [|intros _; apply keeps_steady, steady_ret|done]. apply keeps_change. intros s' ->.
  destruct Hs as [(H1 & H2 & H3 & H4 & H5 & H6) Hc]. pose proof (strrchr_range _ _ _ Ep) as Hp.
  assert (Hd : no_nul (current_directory s) /\ zlen (current_directory s) <= AFPC_MAX_UTF8_PATH_BYTES).
  { unfold current_directory, path_wf in *. destruct (path_data (curdir s)) as [d|]; cbn [from_option id]; [destruct H1 as [H1 El]; split; [done|lia]|].
    split; [unfold no_nul; by repeat constructor|by vm_compute]. }
  destruct Hd as [Hd Hl]. repeat split; try done; cbn [set_curdir curdir path_data path_len]; [by apply Forall_take|rewrite zlen_take; lia|lia].
Qed.

Lemma cd_to_keeps c path : keeps (E := E) (wfc c) (wfc c) (cd_to path).
Proof.
  unfold cd_to. apply keeps_then; [apply keeps_steady; unfold server_path; still|]. intros [dir|]; [|apply keeps_steady, steady_ret].
  apply keeps_then; [apply once_keeps, keeps_steady, steady_sl|]. intros [ret st]. destruct (negb (ret =? 0)); [apply keeps_steady, steady_ret|].
  destruct (negb (S_ISDIR (st_mode st))); [apply keeps_steady, steady_ret|]. apply keeps_then; [apply set_dir_keeps|]. intros r. apply keeps_steady, steady_ret.
Qed.

Lemma cd_keeps fuel arg : keeps (E := E) (wfc false) (wfc false) (com_cd fuel arg).
Proof.
  unfold com_cd. apply connected_keeps. intros s. destruct arg as [arg|]; [|apply home_keeps]. cbv zeta.
  destruct (_ >=? _); [apply (keeps_to (wfc true)), keeps_steady, steady_ret; apply wfc_weaken|]. destruct (_ =? 0); [apply home_keeps|].
  eapply keeps_bind2; [apply keeps_steady; unfold escape_paths_alloc; still| |apply wfc_weaken].
  intros words. apply (keeps_to (wfc true)); [apply wfc_weaken|]. destruct words as [[path rest]|]; [|apply keeps_steady, steady_ret].
  destruct (vol_id s); [|apply attach_named_keeps]. destruct (list_eqb path _); [apply up_keeps|].
  destruct (list_eqb path _); [apply keeps_steady, steady_ret|apply cd_to_keeps].
Qed.

Lemma dir_keeps c fuel dir batch fetched eod shown : keeps (E := E) (wfc c) (wfc c) (dir_loop fuel dir batch fetched eod shown).
Proof.
  assert (Hfill : forall n room screen batch fetched eod, keeps (E := E) (wfc c) (wfc c) (fill_screen n dir room screen batch fetched eod)).
  { intros n. induction n as [|n IH]; intros room screen batch' fetched' eod'; cbn [fill_screen]; destruct (_ >=? _);
      try (apply keeps_steady; still; fail). destruct batch'; [|apply IH]. destruct eod'; [apply keeps_steady, steady_ret|].
    destruct (_ >? _); [apply keeps_steady, steady_ret|]. apply keeps_then; [apply once_keeps, keeps_steady, steady_sl|]. intros [[ret page] e].
    destruct (negb (ret =? 0)); [apply keeps_steady, steady_ret|]. destruct page; [apply keeps_steady, steady_ret|].
    destruct (_ <? _); [apply keeps_steady, steady_ret|apply IH]. }
  revert batch fetched eod shown. induction fuel as [|fuel IH]; intros batch fetched eod shown; cbn [dir_loop]; [apply keeps_steady, steady_unfinished|].
  apply keeps_then; [apply keeps_steady, steady_call|]. intros rows. apply keeps_then; [apply keeps_steady, steady_call|]. intros ok.
  destruct (negb ok); [apply keeps_steady, steady_ret|]. apply keeps_then; [apply Hfill|]. intros [[[[screen b] f] e]|r]; [|apply keeps_steady, steady_ret].
  destruct (zlen screen =? 0); [apply keeps_steady, steady_ret|]. destruct (_ <? _); [apply keeps_steady, steady_ret|]. destruct (_ || _); [|apply IH].
  apply keeps_then; [apply keeps_steady, steady_call|]. intros prompt. do 2 (destruct (prompt =? _); [apply keeps_steady, steady_ret|]). apply IH.
Qed.

Lemma com_dir_keeps fuel arg : keeps (E := E) (wfc false) (wfc false) (com_dir fuel arg).
Proof.
  unfold com_dir. apply keeps_look. intros s Hs. destruct (vol_id s) eqn:Ev.
  - apply (keeps_from _ (wfc false)); [by intros s' ->|]. apply keeps_then; [apply keeps_steady; unfold duplicated, escape_paths_alloc, server_path; still|].
    intros [dir|]; [apply dir_keeps|apply keeps_steady, steady_ret].
  - destruct (connected s) eqn:Ec; [|intros s' Hs'; cbn; by rewrite Hs']. eapply keeps_bind2; [|intros r; apply keeps_steady, steady_ret|done].
    apply (keeps_from _ (wfc true)); [|apply pick_keeps]. intros s' ->. destruct Hs as [Hs _]. by split.
Qed.

Ltac parts_still :=
  first [apply parse_words_still|apply chmod_tree_still|apply delete_still|apply copy_tree_still|apply copy_file_still|apply within_still
  |apply upload_directory_still|apply upload_file_still|apply download_still|apply retrieve_still|apply read_binary_still|apply write_binary_still
  |apply write_icon_still|apply fork_out_still|apply fork_in_still|apply icon_list_still|apply icon_find_still|apply appl_list_still].

(** The commands that only look at the state. *)
Definition moves (c : COMMAND) : bool := match c with Cd | Disconnect | Exit | Ls | Quit => true | _ => false end.

Lemma command_still fuel c arg : moves c = false -> steady (E := E) (run_command fuel c arg).
Proof.
  destruct c; cbn [moves run_command]; try done; intros _; cbv beta delta [com_appl com_view com_chmod com_comment com_copy com_statvfs
    com_finderinfo com_icon com_get com_get_file com_lcd com_mkdir com_rename com_pass com_put com_pwd com_delete com_rmdir
    com_resourcefork com_status com_touch com_xattr when_attached join_source_name joined_remote duplicated server_path escape_paths_alloc
    remote_xattr_list remote_xattr_get copy_remote_metadata_to_local]; still; parts_still.
Qed.

Lemma command_keeps fuel c arg : keeps (E := E) (wfc false) (wfc false) (run_command fuel c arg).
Proof.
  destruct (moves c) eqn:Em; [|by apply keeps_steady, command_still]. destruct c; try discriminate; cbn [run_command].
  - apply cd_keeps.
  - unfold com_close. apply keeps_then; [apply disconnect_keeps|]. intros _. apply keeps_then; [apply running_keeps|]. intros _. apply keeps_steady, steady_ret.
  - apply com_exit_keeps.
  - apply keeps_then; [apply com_dir_keeps|]. intros [r shown]. apply keeps_steady, steady_ret.
  - unfold com_quit. apply keeps_then; [apply exit_keeps|]. intros _. apply keeps_then; [apply running_keeps|]. intros _. apply keeps_steady, steady_ret.
Qed.

Lemma execute_keeps fuel line : keeps (E := E) (wfc false) (wfc false) (execute_line fuel line).
Proof.
  unfold execute_line. destruct (word_and_rest _) as [word arg]. destruct (find_command word); [|apply keeps_steady, steady_ret].
  apply keeps_then; [apply command_keeps|]. intros _. apply keeps_steady, steady_ret.
Qed.

Lemma ui_keeps lines fuel : keeps (E := E) (wfc false) (wfc false) (cmdline_ui lines fuel).
Proof.
  induction lines as [|lines IH]; cbn [cmdline_ui]; (apply keeps_then; [apply keeps_steady, steady_get|]); intros s; destruct (_ || _);
    try (apply keeps_steady; still; fail).
  apply keeps_then; [apply keeps_steady, steady_call|]. intros [line|]; [|apply keeps_steady, steady_ret]. cbv zeta.
  apply keeps_then; [|intros _; exact IH]. destruct (_ =? 0); [apply keeps_steady, steady_ret|apply execute_keeps].
Qed.

Lemma startup_keeps fuel batch : keeps (E := E) (wfc false) (wfc false) (cmdline_server_startup fuel batch).
Proof.
  unfold cmdline_server_startup. apply keeps_then; [apply keeps_steady; unfold get_uam_mask_for_url; still|]. intros mask.
  destruct (mask =? 0); [apply keeps_steady, steady_ret|]. apply keeps_then.
  { apply keeps_change. intros s' [(H1 & H2 & H3 & H4 & H5 & H6) Hc]. destruct (zlen (connect_servername s') =? 0); by repeat split. }
  intros _. apply keeps_then; [apply keeps_steady, steady_get|]. intros s. apply keeps_then; [apply keeps_steady, steady_call|]. intros [ret server].
  destruct (negb (ret =? 0)); [apply keeps_steady, steady_ret|]. apply keeps_bind2 with (W1 := wfc true); [| |apply wfc_weaken].
  { apply keeps_change. intros s' [(H1 & H2 & H3 & H4 & H5 & H6) Hc]. by repeat split. }
  intros _. apply keeps_after_call. intros [r name]. apply keeps_bind2 with (W1 := wfc true); [| |apply wfc_weaken].
  { destruct (_ && _); [|apply keeps_steady, steady_ret]. apply keeps_change. intros s' [(H1 & H2 & H3 & H4 & H5 & H6) Hc].
    repeat split; try done. by apply strlcpy_short. }
  intros _. apply keeps_bind2 with (W1 := wfc true); [apply keeps_steady, steady_get| |apply wfc_weaken]. intros s1. destruct (negb _).
  - apply (keeps_to (wfc true)); [apply wfc_weaken|]. apply keeps_then; [apply attach_here_keeps|]. intros a. destruct (negb (a =? 0)); [apply keeps_steady, steady_ret|].
    apply keeps_then; [apply set_dir_keeps|]. intros d. apply keeps_steady. still.
  - destruct batch; [apply (keeps_to (wfc true)), keeps_steady, steady_ret; apply wfc_weaken|]. eapply keeps_bind2; [apply pick_keeps| |done].
    intros p. apply keeps_steady, steady_ret.
Qed.

End WellFormed.

(** C31: the client's state is well formed. Through the start, every line of
    every session and whatever the library answers, ended or not, the current
    directory is a path of its recorded length within the limit, the names and
    the password in the fixed arrays fit them, and a volume is attached only
    while the client is connected. *)
Theorem session_well_formed {E} {HE : CmdEnv E} s (e : E) lines fuel line batch :
  shell_wf s ->
  shell_wf (fst (snd (cmdline_server_startup fuel batch (s, e))))
  /\ shell_wf (fst (snd (execute_line fuel line (s, e))))
  /\ shell_wf (fst (snd (cmdline_ui lines fuel (s, e)))).
Proof.
  intros Hs. assert (Hw : wfc false s) by done.
  split_and!; [by apply (startup_keeps fuel batch (s, e))|by apply (execute_keeps fuel line (s, e))|by apply (ui_keeps lines fuel (s, e))].
Qed.

(** The client on a volume, and the folder above the one it is in. *)
Lemma session_well_formed_witness :
  shell_wf on_volume
  /\ shell_wf (fst (snd (@execute_line unit willing_env 3 (str "cd ..") (on_volume, tt))))
  /\ current_directory (fst (snd (@execute_line unit willing_env 3 (str "cd ..") (set_curdir (mk_path (Some (str "/d/e")) 4) on_volume, tt)))) = str "/d".
Proof.
  assert (Hs : shell_wf on_volume).
  { unfold shell_wf, path_wf, no_nul. split_and!; try by vm_compute. cbn. split; [by repeat constructor|by vm_compute]. }
  split; [done|]. split; [|by vm_compute].
  exact (proj1 (proj2 (@session_well_formed unit willing_env on_volume tt 1 3 (str "cd ..") false Hs))).
Defined.

(** The recovery of a lost session of the command line client: it always ends,
    and what it leaves of the session it found. *)

Section Ends.
Context {E : Type} {HE : CmdEnv E}.

(** The program ends, in a state that has [Q] of the result. *)
Definition ends (W : shell -> E -> Prop) {A} (m : Cmd E A) (Q : A -> shell -> E -> Prop) : Prop :=
  forall s e, W s e -> exists a s' e', m (s, e) = (Some a, (s', e')) /\ Q a s' e'.

(** What no call of the environment changes. *)
Definition stable (W : shell -> E -> Prop) : Prop := forall A (c : ccmd A) s e, W s e -> W s (snd (answer_cmd c e)).

Lemma ends_ret (W : shell -> E -> Prop) {A} (a : A) (Q : A -> shell -> E -> Prop) : (forall s e, W s e -> Q a s e) -> ends W (cret a) Q.
Proof. intros HQ s e Hs. exists a, s, e. split; [done|by apply HQ]. Qed.

Lemma ends_bind W {A B} (m : Cmd E A) (k : A -> Cmd E B) Q1 Q : ends W m Q1 -> (forall a, ends (Q1 a) (k a) Q) -> ends W (cbind m k) Q.
Proof. intros Hm Hk s e Hs. destruct (Hm s e Hs) as (a & s' & e' & Em & Hs'). unfold cbind. rewrite Em. by apply Hk. Qed.

Lemma ends_change (W : shell -> E -> Prop) f (Q : unit -> shell -> E -> Prop) : (forall s e, W s e -> Q tt (f s) e) -> ends W (change_shell f) Q.
Proof. intros HQ s e Hs. exists tt, (f s), e. split; [done|by apply HQ]. Qed.

Lemma ends_call (W : shell -> E -> Prop) {A} (c : ccmd A) : stable W -> ends W (ccall c) (fun _ => W).
Proof. intros HW s e Hs. unfold ccall. pose proof (HW A c s e Hs) as Hc. destruct (answer_cmd c e) as [a e']. by exists a, s, e'. Qed.

Lemma ends_after_call (W : shell -> E -> Prop) {A B} (c : ccmd A) (k : A -> Cmd E B) Q :
  stable W -> (forall a, ends W (k a) Q) -> ends W (cbind (ccall c) k) Q.
Proof. intros HW Hk. eapply ends_bind; [by apply ends_call|apply Hk]. Qed.

Lemma ends_get (W : shell -> E -> Prop) {B} (k : shell -> Cmd E B) Q :
  (forall s, ends (fun s' e => W s' e /\ s' = s) (k s) Q) -> ends W (cbind get_shell k) Q.
Proof. intros Hk s e Hs. unfold cbind, get_shell. cbn [fst]. by apply (Hk s). Qed.

Lemma ends_from (W1 W : shell -> E -> Prop) {A} (m : Cmd E A) Q : (forall s e, W s e -> W1 s e) -> ends W1 m Q -> ends W m Q.
Proof. intros HW Hm s e Hs. by apply Hm, HW. Qed.

End Ends.

(** What a recovery never changes. *)
Definition as_before (before s : shell) : Prop :=
  url s = url before /\ current_directory s = current_directory before /\ connect_servername s = connect_servername before
  /\ transfer_metadata_mode s = transfer_metadata_mode before /\ quit_requested s = quit_requested before /\ running s = running before.

(** The volume, the server and the connection. *)
Definition session_of (s : shell) : option Z * option Z * bool := (vol_id s, server_id s, connected s).

Section Recovery.
Context {E : Type} {HE : CmdEnv E}.
Variables (before : shell).
Hypothesis (Hb : shell_wf before) (Hd : current_directory before <> []).

(** That the old server has been left, of the environment: the daemon has
    acknowledged its disconnection. *)
Context (Left : E -> Prop) (Hstays : forall A (c : ccmd A) e, Left e -> Left (snd (answer_cmd c e))).
Hypothesis Hleft : forall old e, server_id before = Some old -> fst (answer_cmd (SlDisconnect old) e) = 0 -> Left (snd (answer_cmd (SlDisconnect old) e)).

(** Everything else as before, and this session; the old server left if [b]. *)
Definition kept (b : bool) (session : option Z * option Z * bool) (s : shell) (e : E) : Prop :=
  as_before before s /\ session_of s = session /\ (b = true -> Left e).

Lemma kept_stable b session : stable (kept b session).
Proof. intros A c s e (H1 & H2 & H3). split_and!; auto. Qed.
#[local] Hint Resolve kept_stable : core.

Lemma set_again b session :
  ends (kept b session) (set_current_directory (Some (current_directory before))) (fun _ => kept b session).
Proof.
  unfold set_current_directory. apply ends_after_call; [done|]. intros ok. apply ends_get. intros s.
  assert (Hn : no_nul (current_directory before) /\ zlen (current_directory before) <= AFPC_MAX_UTF8_PATH_BYTES).
  { destruct Hb as (H1 & H2 & _). unfold current_directory, path_wf in *. destruct (path_data (curdir before)) as [d|]; cbn [from_option id];
      [destruct H1 as [H1 El]; split; [done|lia]|]. split; [unfold no_nul; by repeat constructor|by vm_compute]. }
  destruct Hn as [Hn Hl]. unfold or_root. destruct (zlen _ =? 0) eqn:Ez; [apply Z.eqb_eq, zlen_0_inv in Ez; done|].
  unfold afpc_path_set. rewrite validate_spec by done. rewrite (proj2 (Z.leb_le _ _) Hl), orb_true_r.
  destruct ok; cbn [negb]; (eapply ends_bind with (Q1 := fun _ => kept b session); [apply ends_change|intros ?; by apply ends_ret]); intros s' e' [Hs' ->]; [|by destruct s].
  rewrite take_ge by (unfold zlen; lia). destruct Hs' as ((H1 & H2 & H3 & H4 & H5 & H6) & H7 & H8). by repeat split.
Qed.

(** What a recovery says and leaves. *)
Definition recovered (attach : bool) (r : Z) (s : shell) (e : E) : Prop :=
  as_before before s
  /\ (r = 0 /\ connected s = true /\ server_id s <> None /\ (vol_id s <> None <-> attach = true)
      \/ r = -1 /\ vol_id s = vol_id before /\ connected s = connected before
         /\ (server_id s = server_id before \/ server_id s = None /\ Left e)).

(** The old server, or none where it has been left. *)
Definition old_or_left (b : bool) (old : option Z) : Prop := old = server_id before \/ old = None /\ b = true.

Lemma failed_ends b session old new attach :
  old_or_left b old ->
  ends (kept b session) (recovery_failed before old new (current_directory before)) (recovered attach).
Proof.
  intros Hold. unfold recovery_failed. eapply ends_bind with (Q1 := fun _ => kept b session).
  { destruct (match old with Some _ => _ | None => _ end); [by apply ends_call|by apply ends_ret]. }
  intros ?. eapply ends_bind with (Q1 := fun _ => kept b (vol_id before, old, connected before)).
  { apply ends_change. intros s' e' ((H1 & H2 & H3 & H4 & H5 & H6) & H7 & H8). repeat split; try done. cbn. rewrite H1. by destruct (url before). }
  intros ?. eapply ends_bind; [apply set_again|]. intros r. apply ends_ret. intros s e (Hs & [= H1 H2 H3] & H4). split; [done|]. right.
  rewrite H1, H2, H3. split_and!; try done. destruct Hold as [|[-> ->]]; [by left|right; auto].
Qed.

Lemma attach_ends b session server :
  ends (kept b session) (attach_volume_with_password_prompt server) (fun _ => kept b session).
Proof.
  assert (Hp : forall p : list Z, ends (kept b session) (change_shell (set_volpassword p)) (fun _ => kept b session)).
  { intros p. apply ends_change. intros s' e' ((H1 & H2 & H3 & H4 & H5 & H6) & H7 & H8). by repeat split. }
  unfold attach_volume_with_password_prompt. eapply ends_bind; [apply Hp|]. intros ?. apply ends_get. intros s.
  apply (ends_from (kept b session)); [by intros ? ? []|]. apply ends_after_call; [done|]. intros [[ret vol] need].
  destruct (ret =? 0); [by apply ends_ret|]. destruct need; [|by apply ends_ret].
  eapply ends_bind with (Q1 := fun _ => kept b session).
  - unfold cmdline_get_volpass. apply ends_after_call; [done|]. intros [p|]; [|by apply ends_ret].
    eapply ends_bind; [apply Hp|]. intros ?. by apply ends_ret.
  - intros r. destruct (negb (r =? 0)); [by apply ends_ret|]. apply ends_get. intros s'. apply (ends_from (kept b session)); [by intros ? ? []|].
    apply ends_after_call; [done|]. intros [[ret' vol'] x]. by apply ends_ret.
Qed.

Lemma session_ends b session s mask : ends (kept b session) (new_session s mask) (fun _ => kept b session).
Proof.
  unfold new_session. apply ends_after_call; [done|]. intros [ret server]. destruct (ret =? 0); [by apply ends_ret|].
  destruct (ret =? - EPROTO); [by apply ends_ret|]. apply ends_after_call; [done|]. intros [ret' server']. by apply ends_ret.
Qed.

(** The old server is forgotten only by a disconnection the daemon acknowledges. *)
Lemma leave_ends session new :
  ends (kept false session) (leave_server (server_id before) new) (fun old s e => exists b, kept b session s e /\ old_or_left b old).
Proof.
  assert (Hsame : forall s e, kept false session s e -> exists b, kept b session s e /\ old_or_left b (server_id before)).
  { intros s e Hs. exists false. split; [done|by left]. }
  unfold leave_server. destruct (server_id before) as [old|] eqn:Eo; [|by apply ends_ret]. destruct (old =? new); [by apply ends_ret|].
  intros s e Hs. unfold cbind at 1, ccall. pose proof (kept_stable _ _ _ (SlDisconnect old) s e Hs) as Hk. pose proof (Hleft old e eq_refl) as Hl.
  destruct (answer_cmd (SlDisconnect old) e) as [ret e']. cbn [fst snd] in *. destruct (Z.eqb_spec ret 0) as [Hr|Hr].
  - exists None, s, e'. split; [done|]. exists true. destruct Hk as (H1 & H2 & _). split; [split_and!; auto|by right].
  - refine (ends_after_call (kept false session) _ _ _ _ _ s e' Hk); [done|]. intros _. by apply ends_ret.
Qed.

(** A recovery attaches a volume when asked to or when one was attached, and it has a name. *)
Definition attaches (restore_volume : bool) : bool :=
  (restore_volume || match vol_id before with Some _ => true | None => false end) && negb (zlen (u_volumename (url before)) =? 0).

(** The new session takes the place of the old one. *)
Lemma install_ends restore_dir attach new vol :
  (vol <> None <-> attach = true) ->
  ends (kept false (session_of before))
    (let= old_server_id := leave_server (server_id before) new in
     change_shell (fun s => set_vol_id vol (set_connected true (set_server_id (Some new) s))) ;;=
     let= ret := if restore_dir && negb (zlen (current_directory before) =? 0) then set_current_directory (Some (current_directory before)) else cret 0 in
     if negb (ret =? 0) then recovery_failed before old_server_id new (current_directory before) else cret 0)
    (recovered attach).
Proof.
  intros Hvol. eapply ends_bind; [apply leave_ends|]. intros old s e (b & Hs & Hold). revert s e Hs. set (now := (vol, Some new, true)).
  change (ends (kept b (session_of before)) (change_shell (fun s => set_vol_id vol (set_connected true (set_server_id (Some new) s))) ;;=
     let= ret := if restore_dir && negb (zlen (current_directory before) =? 0) then set_current_directory (Some (current_directory before)) else cret 0 in
     if negb (ret =? 0) then recovery_failed before old new (current_directory before) else cret 0) (recovered attach)).
  eapply ends_bind with (Q1 := fun _ => kept b now).
  { apply ends_change. intros s e ((H1 & H2 & H3 & H4 & H5 & H6) & H7 & H8). by repeat split. }
  intros ?. assert (Hset : ends (kept b now)
    (if restore_dir && negb (zlen (current_directory before) =? 0) then set_current_directory (Some (current_directory before)) else cret 0) (fun _ => kept b now)).
  { destruct (_ && _); [apply set_again|by apply ends_ret]. }
  refine (ends_bind _ _ _ _ _ Hset _). intros ret. destruct (negb (ret =? 0)); [by apply failed_ends|].
  apply ends_ret. intros s e (Hs & [= H1 H2 H3] & _). split; [done|]. left. by rewrite H1, H2, H3.
Qed.

Lemma recover_ends restore_volume restore_dir :
  ends (fun s _ => s = before) (recover_session restore_volume restore_dir) (recovered (attaches restore_volume)).
Proof.
  set (was := session_of before).
  assert (Hgone : ends (kept false was) (cret (-1)) (recovered (attaches restore_volume))).
  { apply ends_ret. intros s e (Hs & [= H1 H2 H3] & _). split; [done|]. right. rewrite H1, H2, H3. auto. }
  unfold recover_session. apply ends_get. intros s s0 e [-> <-].
  refine ((_ : ends (kept false was) _ _) before e _); [|by repeat split].
  destruct (negb (connected before)); [done|]. apply ends_after_call; [done|]. intros ok. destruct (negb ok); [done|]. cbv zeta.
  eapply ends_bind with (Q1 := fun _ => kept false was).
  { unfold get_uam_mask_for_url. apply ends_get. intros s'. apply (ends_from (kept false was)); [by intros ? ? []|by apply ends_call]. }
  intros mask. destruct (mask =? 0); [done|]. eapply ends_bind; [apply session_ends|]. intros [new|]; [|done].
  fold (attaches restore_volume). eapply ends_bind with (Q1 := fun rv s' e' => kept false was s' e' /\ (snd rv <> None <-> attaches restore_volume = true)).
  { destruct (attaches restore_volume); [|apply ends_ret; intros s' e' Hs'; by split].
    eapply ends_bind; [apply attach_ends|]. intros [ret vol]. apply ends_ret. intros s' e' Hs'. by split. }
  intros [ret vol]. cbn [snd]. destruct (negb (ret =? 0)); [apply (ends_from (kept false was)); [by intros ? ? []|apply failed_ends; by left]|].
  intros s' e' [Hs' Hvol]. by apply (install_ends restore_dir (attaches restore_volume) new vol Hvol).
Qed.

End Recovery.

(** The servers whose disconnection the daemon has acknowledged. *)
Definition left_servers A (c : ccmd A) : A -> list Z :=
  match c in ccmd A return A -> list Z with
  | SlDisconnect server => fun ret => if ret =? 0 then [server] else []
  | _ => fun _ => []
  end.

#[local] Instance leaving_noted {E} {HE : CmdEnv E} : CmdEnv (E * list Z) := noted left_servers.

(** C32: a lost session is recovered or given back. Whatever the daemon answers,
    a recovery ends, and the address, the current directory and the settings are
    as before. After a success the client is connected to a server, and on a
    volume exactly when it was on one, or one was asked for, and the address has
    the name of a volume. After a failure the volume and the connection are the
    ones from before, and the server too, or it is forgotten, which happens only
    where the daemon has acknowledged the disconnection from the old server
    during the recovery. *)
Theorem recovery_outcome {E} {HE : CmdEnv E} restore_volume restore_dir s (e : E) :
  shell_wf s -> current_directory s <> [] ->
  exists r s' e' left, recover_session restore_volume restore_dir (s, (e, [])) = (Some r, (s', (e', left)))
    /\ as_before s s'
    /\ (r = 0 /\ connected s' = true /\ server_id s' <> None
          /\ (vol_id s' <> None <-> (restore_volume = true \/ vol_id s <> None) /\ u_volumename (url s) <> [])
        \/ r = -1 /\ vol_id s' = vol_id s /\ connected s' = connected s
           /\ (server_id s' = server_id s \/ server_id s' = None /\ exists old, server_id s = Some old /\ old ∈ left)).
Proof.
  intros Hs Hd.
  destruct (recover_ends s Hs Hd (fun e' : E * list Z => exists old, server_id s = Some old /\ old ∈ snd e')
    ltac:(intros A c e' (old & Ho & Hin); exists old; split; [done|]; unfold answer_cmd, leaving_noted, noted;
          destruct (answer_cmd c (fst e')); cbn [snd]; apply elem_of_app; by left)
    ltac:(intros old e' Ho; unfold answer_cmd, leaving_noted, noted; destruct (answer_cmd (SlDisconnect old) (fst e')) as [a x]; cbn [fst snd];
          intros ->; exists old; split; [done|]; apply elem_of_app; right; by left)
    restore_volume restore_dir s (e, []) eq_refl) as (r & s' & [e' left] & Er & Ha & Ho).
  exists r, s', e', left. split; [exact Er|]. split; [exact Ha|]. destruct Ho as [(H1 & H2 & H3 & H4)|Ho]; [left|by right].
  split_and!; [done..|]. rewrite H4. unfold attaches. rewrite andb_true_iff, orb_true_iff, negb_true_iff, Z.eqb_neq. cbn [snd].
  assert (Hz : zlen (u_volumename (url s)) <> 0 <-> u_volumename (url s) <> []).
  { split; intros Hn Hx; apply Hn; [by rewrite Hx|by apply zlen_0_inv]. }
  rewrite Hz. destruct (vol_id s); naive_solver.
Qed.

(** A daemon that opens a second session, on a machine whose memory is used up
    after the first request. *)
Definition starved A (c : ccmd A) (asked : nat) : A * nat :=
  match c in ccmd A return ccmd A -> A * nat with
  | Malloc => fun _ => (Nat.eqb asked 0, S asked)
  | SlConnect _ _ _ => fun _ => ((0, 2), asked)
  | _ => fun c => (fst (willing _ c tt), asked)
  end c.

#[local] Instance starved_env : CmdEnv nat := starved.

(** The recovery of a session that lost its server, with and without memory for the directory. *)
Lemma recovery_outcome_witness :
  exists r s' e' left, recover_session true true (on_volume, (O, [])) = (Some r, (s', (e', left)))
    /\ r = -1 /\ vol_id s' = vol_id on_volume /\ server_id s' = None /\ 1 ∈ left
    /\ server_id (fst (snd (recover_session true false (on_volume, (O, []))))) = Some 2.
Proof.
  destruct (recovery_outcome true true on_volume O) as (r & s' & e' & left & Er & _ & Ho).
  - unfold shell_wf, path_wf, no_nul. split_and!; try by vm_compute. cbn. split; [by repeat constructor|by vm_compute].
  - done.
  - exists r, s', e', left. split; [exact Er|].
    assert (Hr : r = -1 /\ server_id s' = None) by (vm_compute in Er; by injection Er as <- <- _ _).
    destruct Hr as [-> Hs]. destruct Ho as [[? _]|(_ & Hv & _ & [Hk|(_ & old & [= <-] & Hin)])]; [done|by rewrite Hs in Hk|].
    split; [done|]. split; [exact Hv|]. split; [exact Hs|]. split; [exact Hin|]. vm_compute. reflexivity.
Defined.
