(* ===== verification/Servers.v ===== *)
(** The servers a client knows, their connections and their volumes
    (lib/afp.c, lib/server.c, lib/connect.c, and the ends of a connection in
    lib/loop.c).

    The servers live on a heap and are linked from [server_base]. A program may
    touch a server that is not allocated any more: it then has no result. What
    the network, the allocator and the clock answer comes from an environment,
    and with every answer the other threads may have changed the servers. *)
From stdpp Require Import base list gmap.
From S2P Require Import Prelude AfpProtocol Codepage Dates Listing Uams Status World DidCache ForkList Identify Url Ipc.
Local Open Scope afp_scope.

Definition SERVER_STATE_DESTROYED : Z := 4.
Definition AFP_VOLUME_UNMOUNTED : Z := 0.
Definition AFP_VOLUME_MOUNTED : Z := 1.
Definition AFP_VOLUME_UNMOUNTING : Z := 2.
Definition AFP_VOLUME_DETACHED : Z := 0.
Definition AFP_VOLUME_ATTACHED : Z := 1.
Definition AFP_VOLUME_DETACHING : Z := 2.
Definition EPROTONOSUPPORT : Z := 93.
Definition EINPROGRESS : Z := 115.
Definition O_NONBLOCK : Z := 0x800.

(** ** Data *)

(** One address of getaddrinfo(3): its family and its socket address. *)
Record addrinfo := AddrInfo { ai_family : Z; ai_addr : option (list Z) }.

(** What a volume's parameters and its password are, with the state the file
    operations keep of it. *)
Record afp_volume := AfpVolume {
  mounted : Z; attach_state : Z; mountpoint : list Z; v_volpassword : list Z; v_flags : Z; v_printable : list Z;
  v_attributes_ : Z; v_signature_ : Z; v_path_encoding : Z; v_extra_flags : Z; v_files : volume;
  v_name : list Z; v_mount_time : Z }.

Definition set_mounted (x : Z) (v : afp_volume) : afp_volume :=
  AfpVolume x (attach_state v) (mountpoint v) (v_volpassword v) (v_flags v) (v_printable v) (v_attributes_ v) (v_signature_ v) (v_path_encoding v) (v_extra_flags v) (v_files v) (v_name v) (v_mount_time v).
Definition set_attach_state (x : Z) (v : afp_volume) : afp_volume :=
  AfpVolume (mounted v) x (mountpoint v) (v_volpassword v) (v_flags v) (v_printable v) (v_attributes_ v) (v_signature_ v) (v_path_encoding v) (v_extra_flags v) (v_files v) (v_name v) (v_mount_time v).
Definition set_opened (attributes signature : Z) (v : afp_volume) : afp_volume :=
  AfpVolume (mounted v) (attach_state v) (mountpoint v) (v_volpassword v) (v_flags v) (v_printable v) attributes signature (v_path_encoding v) (v_extra_flags v) (v_files v) (v_name v) (v_mount_time v).
Definition set_encoding (x : Z) (v : afp_volume) : afp_volume :=
  AfpVolume (mounted v) (attach_state v) (mountpoint v) (v_volpassword v) (v_flags v) (v_printable v) (v_attributes_ v) (v_signature_ v) x (v_extra_flags v) (v_files v) (v_name v) (v_mount_time v).
Definition set_v_extra_flags (x : Z) (v : afp_volume) : afp_volume :=
  AfpVolume (mounted v) (attach_state v) (mountpoint v) (v_volpassword v) (v_flags v) (v_printable v) (v_attributes_ v) (v_signature_ v) (v_path_encoding v) x (v_files v) (v_name v) (v_mount_time v).
Definition set_files (x : volume) (v : afp_volume) : afp_volume :=
  AfpVolume (mounted v) (attach_state v) (mountpoint v) (v_volpassword v) (v_flags v) (v_printable v) (v_attributes_ v) (v_signature_ v) (v_path_encoding v) (v_extra_flags v) x (v_name v) (v_mount_time v).
Definition set_volpassword (x : list Z) (v : afp_volume) : afp_volume :=
  AfpVolume (mounted v) (attach_state v) (mountpoint v) x (v_flags v) (v_printable v) (v_attributes_ v) (v_signature_ v) (v_path_encoding v) (v_extra_flags v) (v_files v) (v_name v) (v_mount_time v).
Definition set_mount_time (x : Z) (v : afp_volume) : afp_volume :=
  AfpVolume (mounted v) (attach_state v) (mountpoint v) (v_volpassword v) (v_flags v) (v_printable v) (v_attributes_ v) (v_signature_ v) (v_path_encoding v) (v_extra_flags v) (v_files v) (v_name v) x.
Definition no_dtrefnum (v : afp_volume) : afp_volume := set_files (set_dt 0 (no_desktop (v_files v)) (v_files v)) v.

(** The connection of a server, which several threads change. *)
Record server_link := Link {
  fd : Z; connect_state : Z; connection_generation : Z; used_address : option addrinfo; refcount : Z;
  need_resume : bool; reconnect_in_progress : bool }.

(** Who is logged in, and how. *)
Record login_state := LoginState {
  username : list Z; password : list Z; requested_version : Z; using_version_ : option (list Z * Z); using_uam : Z }.

Record afp_server := AfpServer {
  s_link : server_link; s_status : server_status; s_login : login_state; s_address : list addrinfo;
  requested_hostname : list Z; requested_port : Z; s_identified : server_type_t * (Z * Z * Z) * Z;
  s_volumes : list afp_volume; s_connect_time : Z; s_loginmesg : list Z; tx_delay : Z; lastrequestid : Z;
  supports_replay_cache : bool; exit_flag : Z }.

Definition set_link (l : server_link) (s : afp_server) : afp_server :=
  AfpServer l (s_status s) (s_login s) (s_address s) (requested_hostname s) (requested_port s) (s_identified s) (s_volumes s)
    (s_connect_time s) (s_loginmesg s) (tx_delay s) (lastrequestid s) (supports_replay_cache s) (exit_flag s).
Definition set_status (x : server_status) (s : afp_server) : afp_server :=
  AfpServer (s_link s) x (s_login s) (s_address s) (requested_hostname s) (requested_port s) (s_identified s) (s_volumes s)
    (s_connect_time s) (s_loginmesg s) (tx_delay s) (lastrequestid s) (supports_replay_cache s) (exit_flag s).
Definition set_login (x : login_state) (s : afp_server) : afp_server :=
  AfpServer (s_link s) (s_status s) x (s_address s) (requested_hostname s) (requested_port s) (s_identified s) (s_volumes s)
    (s_connect_time s) (s_loginmesg s) (tx_delay s) (lastrequestid s) (supports_replay_cache s) (exit_flag s).
Definition set_address (x : list addrinfo) (s : afp_server) : afp_server :=
  AfpServer (s_link s) (s_status s) (s_login s) x (requested_hostname s) (requested_port s) (s_identified s) (s_volumes s)
    (s_connect_time s) (s_loginmesg s) (tx_delay s) (lastrequestid s) (supports_replay_cache s) (exit_flag s).
Definition set_requested (host : list Z) (port : Z) (s : afp_server) : afp_server :=
  AfpServer (s_link s) (s_status s) (s_login s) (s_address s) host port (s_identified s) (s_volumes s)
    (s_connect_time s) (s_loginmesg s) (tx_delay s) (lastrequestid s) (supports_replay_cache s) (exit_flag s).
Definition set_identified (x : server_type_t * (Z * Z * Z) * Z) (s : afp_server) : afp_server :=
  AfpServer (s_link s) (s_status s) (s_login s) (s_address s) (requested_hostname s) (requested_port s) x (s_volumes s)
    (s_connect_time s) (s_loginmesg s) (tx_delay s) (lastrequestid s) (supports_replay_cache s) (exit_flag s).
Definition set_volumes (x : list afp_volume) (s : afp_server) : afp_server :=
  AfpServer (s_link s) (s_status s) (s_login s) (s_address s) (requested_hostname s) (requested_port s) (s_identified s) x
    (s_connect_time s) (s_loginmesg s) (tx_delay s) (lastrequestid s) (supports_replay_cache s) (exit_flag s).
Definition set_connect_time (x : Z) (s : afp_server) : afp_server :=
  AfpServer (s_link s) (s_status s) (s_login s) (s_address s) (requested_hostname s) (requested_port s) (s_identified s) (s_volumes s)
    x (s_loginmesg s) (tx_delay s) (lastrequestid s) (supports_replay_cache s) (exit_flag s).
Definition set_loginmesg (x : list Z) (s : afp_server) : afp_server :=
  AfpServer (s_link s) (s_status s) (s_login s) (s_address s) (requested_hostname s) (requested_port s) (s_identified s) (s_volumes s)
    (s_connect_time s) x (tx_delay s) (lastrequestid s) (supports_replay_cache s) (exit_flag s).
Definition set_tx_delay (x : Z) (s : afp_server) : afp_server :=
  AfpServer (s_link s) (s_status s) (s_login s) (s_address s) (requested_hostname s) (requested_port s) (s_identified s) (s_volumes s)
    (s_connect_time s) (s_loginmesg s) x (lastrequestid s) (supports_replay_cache s) (exit_flag s).
(** The flag and the request numbers of a new connection. *)
Definition new_connection (s : afp_server) : afp_server :=
  AfpServer (s_link s) (s_status s) (s_login s) (s_address s) (requested_hostname s) (requested_port s) (s_identified s) (s_volumes s)
    (s_connect_time s) (s_loginmesg s) (tx_delay s) (if supports_replay_cache s then lastrequestid s else 0) (supports_replay_cache s) 0.

Definition set_fd (x : Z) (l : server_link) : server_link :=
  Link x (connect_state l) (connection_generation l) (used_address l) (refcount l) (need_resume l) (reconnect_in_progress l).
Definition set_state (x : Z) (l : server_link) : server_link :=
  Link (fd l) x (connection_generation l) (used_address l) (refcount l) (need_resume l) (reconnect_in_progress l).
Definition set_generation (x : Z) (l : server_link) : server_link :=
  Link (fd l) (connect_state l) x (used_address l) (refcount l) (need_resume l) (reconnect_in_progress l).
Definition set_used_address (x : option addrinfo) (l : server_link) : server_link :=
  Link (fd l) (connect_state l) (connection_generation l) x (refcount l) (need_resume l) (reconnect_in_progress l).
Definition set_refcount (x : Z) (l : server_link) : server_link :=
  Link (fd l) (connect_state l) (connection_generation l) (used_address l) x (need_resume l) (reconnect_in_progress l).
Definition set_need_resume (x : bool) (l : server_link) : server_link :=
  Link (fd l) (connect_state l) (connection_generation l) (used_address l) (refcount l) x (reconnect_in_progress l).
Definition set_in_progress (x : bool) (l : server_link) : server_link :=
  Link (fd l) (connect_state l) (connection_generation l) (used_address l) (refcount l) (need_resume l) x.
Definition on_link (f : server_link -> server_link) (s : afp_server) : afp_server := set_link (f (s_link s)) s.

(** The heap of servers, the list, the loop's descriptors, the setting of
    afp_set_auto_disconnect_on_unmount and the thread's errno. *)
Record net := Net {
  servers : gmap Z afp_server; server_base : list Z; rds : list Z; max_fd : Z; auto_disconnect_on_unmount : bool; errno : Z }.

Definition set_servers (x : gmap Z afp_server) (n : net) : net :=
  Net x (server_base n) (rds n) (max_fd n) (auto_disconnect_on_unmount n) (errno n).
Definition set_base (x : list Z) (n : net) : net :=
  Net (servers n) x (rds n) (max_fd n) (auto_disconnect_on_unmount n) (errno n).
Definition set_loop (r : list Z) (m : Z) (n : net) : net :=
  Net (servers n) (server_base n) r m (auto_disconnect_on_unmount n) (errno n).
Definition set_net_errno (x : Z) (n : net) : net :=
  Net (servers n) (server_base n) (rds n) (max_fd n) (auto_disconnect_on_unmount n) x.
Definition update_server (p : Z) (f : afp_server -> afp_server) (n : net) : net := set_servers (alter f p (servers n)) n.

(** ** The loop's set of descriptors (lib/loop.c) *)

Definition isset (d : Z) (r : list Z) : bool := bool_decide (d ∈ r).

Definition add_fd (d : Z) (n : net) : net :=
  set_loop (if isset d (rds n) then rds n else d :: rds n) (if d + 1 >? max_fd n then d + 1 else max_fd n) n.

Fixpoint lower_max (fuel : nat) (r : list Z) (m : Z) : Z :=
  match fuel with
  | O => m
  | S fuel => if (m >? 0) && negb (isset (m - 1) r) then lower_max fuel r (m - 1) else m
  end.

Definition rm_fd (d : Z) (n : net) : net :=
  let r := filter (fun x => x <> d) (rds n) in set_loop r (lower_max (Z.to_nat (max_fd n)) r (max_fd n)) n.

(** ** Looking for servers *)

Definition server_at (n : net) (p : Z) : option afp_server := servers n !! p.

Definition server_still_valid (s : option afp_server) : bool :=
  match s with
  | None => false
  | Some s => let st := connect_state (s_link s) in
              (st =? SERVER_STATE_CONNECTED) || (st =? SERVER_STATE_DISCONNECTED) || (st =? SERVER_STATE_CONNECTING)
  end.

(** The first listed server a test accepts. *)
Fixpoint first_server (test : afp_server -> bool) (heap : gmap Z afp_server) (base : list Z) : option Z :=
  match base with
  | [] => None
  | p :: next => match heap !! p with
                 | Some s => if test s then Some p else first_server test heap next
                 | None => first_server test heap next
                 end
  end.

Definition find_server_by_signature (signature : list Z) (n : net) : option Z :=
  first_server (fun s => list_eqb (ss_signature (s_status s)) signature) (servers n) (server_base n).

Definition find_server_by_name (name : list Z) (n : net) : option Z :=
  first_server (fun s => list_eqb (until_nul (ss_name_utf8 (s_status s))) name || list_eqb (until_nul (ss_name (s_status s))) name
                         || list_eqb (until_nul (ss_printable (s_status s))) name) (servers n) (server_base n).

(** The address in use is one of these. *)
Definition same_address (used : option addrinfo) (address : list addrinfo) : bool :=
  match used with
  | Some u => match ai_addr u with
              | Some a => existsb (fun p => match ai_addr p with Some b => list_eqb a b | None => false end) address
              | None => false
              end
  | None => false
  end.

Definition find_server_by_address (address : list addrinfo) (n : net) : option Z :=
  first_server (fun s => same_address (used_address (s_link s)) address) (servers n) (server_base n).

Definition afp_server_has_valid_signature (s : afp_server) : bool :=
  negb (list_eqb (ss_signature (s_status s)) (zero_bytes AFP_SIGNATURE_LEN)).

Definition something_is_mounted (s : afp_server) : bool := existsb (fun v => negb (mounted v =? AFP_VOLUME_UNMOUNTED)) (s_volumes s).
Definition something_is_attached (s : afp_server) : bool := existsb (fun v => negb (attach_state v =? AFP_VOLUME_DETACHED)) (s_volumes s).

Fixpoint volume_index (name : list Z) (vs : list afp_volume) (i : Z) : option Z :=
  match vs with
  | [] => None
  | v :: r => if list_eqb name (v_printable v) then Some i else volume_index name r (i + 1)
  end.

(** ** Requests to the network, the system and the front end *)

Inductive ncmd : Type -> Type :=
| NMalloc : ncmd (option Z)                                       (* an address, or no memory *)
| Getaddrinfo (host : list Z) (port : Z) : ncmd (option (list addrinfo))
| Socket (family : Z) : ncmd (res Z)
| Getfl (d : Z) : ncmd (option Z)
| Setfl (d flags : Z) : ncmd (res unit)
| ConnectTo (d : Z) (addr : option (list Z)) : ncmd (res unit)
| SelectWritable (d timeout : Z) : ncmd (res bool)                (* ready, or the time is up; asked again after a signal *)
| SoError (d : Z) : ncmd (res Z)
| Nodelay (d : Z) : ncmd unit
| CloseFd (d : Z) : ncmd unit
| EndSends (p d : Z) : ncmd unit                                  (* afpc_dsi_end_sends *)
| FailRequests (p error : Z) : ncmd unit                          (* afpc_dsi_fail_request_queue *)
| FlushRequests (p : Z) : ncmd unit                               (* afpc_dsi_flush_request_queue *)
| Getstatus (p : Z) : ncmd (Z * option (list Z))                  (* the result, and the bytes of a reply *)
| Opensession (p : Z) : ncmd Z
| Dologin (p uam : Z) (user pass : list Z) : ncmd Z
| Dopasswd (p uam : Z) (user oldpasswd newpasswd : list Z) : ncmd Z
| DetectMapping (p i : Z) : ncmd unit                              (* afp_detect_mapping *)
| Getsessiontoken (p type timestamp : Z) : ncmd Z
| Getsrvrparms (p : Z) : ncmd (Z * option (Z * list afp_volume))  (* the time and the volumes of a reply *)
| Getsrvrmsg (p : Z) (utf8 : bool) : ncmd (list Z)
| Volopen (p i bitmap : Z) (pass : option (list Z)) : ncmd (Z * option (Z * Z))   (* attributes and signature *)
| Closedt (p ref : Z) : ncmd Z
| Logout (p : Z) : ncmd Z
| UnmountHook (p i : Z) : ncmd (option Z)                         (* of libafpclient, if there is one *)
| NTime : ncmd (Z * Z)                                            (* seconds and microseconds *)
| Yield : ncmd unit.                                              (* the wait for the list's lock *)

(** With an answer, other threads may have changed the servers. *)
Class NetEnv (E : Type) : Type := answer_net : forall A, ncmd A -> net * E -> A * (net * E).
Arguments answer_net {E _ A} _ _.

(** No result: a server was used that is not allocated. *)
Definition N (E A : Type) : Type := net * E -> option A * (net * E).

Definition nret {E A} (a : A) : N E A := fun s => (Some a, s).
Definition nbind {E A B} (m : N E A) (k : A -> N E B) : N E B := fun s =>
  match m s with (Some a, s') => k a s' | (None, s') => (None, s') end.
Notation "'let@' x := m 'in' k" := (nbind m (fun x => k)) (at level 10, x name, k at level 200) : afp_scope.
Notation "'let@' ( x , y ) := m 'in' k" := (nbind m (fun p => let (x, y) := p in k))
  (at level 10, x name, y name, k at level 200) : afp_scope.
Notation "m ;;@ k" := (nbind m (fun _ => k)) (at level 199, right associativity) : afp_scope.

Section Programs.
Context {E : Type} `{NetEnv E, Env E}.
Context (heap : Z -> bool) (iconv : list Z -> list Z -> list Z) (rest : config).

Definition ncall {A} (c : ncmd A) : N E A := fun s => let (a, s') := answer_net c s in (Some a, s').
(** A look at the servers, and a change under the list's lock. *)
Definition nget {A} (f : net -> A) : N E A := fun s => (Some (f (fst s)), s).
Definition nset (f : net -> net) : N E unit := fun s => (Some tt, (f (fst s), snd s)).
Definition section {A} (f : net -> A * net) : N E A :=
  ncall Yield ;;@ fun s => let (a, n) := f (fst s) in (Some a, (n, snd s)).
Definition set_errno_to (e : Z) : N E unit := nset (set_net_errno e).

Definition deref (p : Z) : N E afp_server := fun s => (servers (fst s) !! p, s).
Definition update (p : Z) (f : afp_server -> afp_server) : N E unit := deref p ;;@ nset (update_server p f).

(** ** References *)

Definition afp_free_server (p : Z) : N E unit := deref p ;;@ nset (fun n => set_servers (delete p (servers n)) n).

Definition afp_server_hold (p : Z) : N E unit := update p (on_link (fun l => set_refcount (refcount l + 1) l)).

Definition afp_server_release (p : Z) : N E unit :=
  update p (on_link (fun l => set_refcount (refcount l - 1) l)) ;;@
  let@ s := deref p in
  if refcount (s_link s) =? 0 then afp_free_server p else nret tt.

(** A search under the list's lock, and a reference to what it finds. *)
Definition held (find_ : net -> option Z) : N E (option Z) :=
  section (fun n => match find_ n with
                    | Some p => (Some p, update_server p (on_link (fun l => set_refcount (refcount l + 1) l)) n)
                    | None => (None, n)
                    end).

Definition find_server_by_pointer (target : Z) : N E (option Z) :=
  held (fun n => if bool_decide (target ∈ server_base n) then Some target else None).
Definition afp_server_find_by_name_hold (name : list Z) : N E (option Z) := held (find_server_by_name name).
Definition afp_server_find_by_address_hold (address : list addrinfo) : N E (option Z) := held (find_server_by_address address).

(** The server, and the volume's place in it. *)
Fixpoint first_volume (test : Z -> Z -> afp_volume -> bool) (h : gmap Z afp_server) (base : list Z) : option (Z * Z) :=
  match base with
  | [] => None
  | p :: next =>
      match h !! p with
      | Some s =>
          match List.find (fun iv => test p (fst iv) (snd iv)) (imap (fun i v => (Z.of_nat i, v)) (s_volumes s)) with
          | Some (i, _) => Some (p, i)
          | None => first_volume test h next
          end
      | None => first_volume test h next
      end
  end.

Definition volume_held (test : Z -> Z -> afp_volume -> bool) : N E (option (Z * Z)) :=
  section (fun n => match first_volume test (servers n) (server_base n) with
                    | Some (p, i) => (Some (p, i), update_server p (on_link (fun l => set_refcount (refcount l + 1) l)) n)
                    | None => (None, n)
                    end).

(** A volume's address stands for its server and its place. *)
Definition afp_volume_find_by_pointer_hold (id : Z * Z) : N E (option (Z * Z)) :=
  volume_held (fun p i _ => (p =? fst id) && (i =? snd id)).
Definition afp_volume_find_by_mountpoint_hold (mountpoint_ : list Z) : N E (option (Z * Z)) :=
  volume_held (fun _ _ v => list_eqb (mountpoint v) mountpoint_).

Definition volume_at (p i : Z) : N E afp_volume := fun s =>
  (s0 ← servers (fst s) !! p; s_volumes s0 !! Z.to_nat i, s).
Definition update_volume (p i : Z) (f : afp_volume -> afp_volume) : N E unit :=
  volume_at p i ;;@ update p (fun s => set_volumes (alter f (Z.to_nat i) (s_volumes s)) s).

Definition find_volume_by_name (p : Z) (volname : list Z) : N E (option Z) :=
  let (r, converted) := convert_utf8dec_to_utf8pre heap volname AFP_VOLUME_NAME_UTF8_LEN [] in
  if negb (r =? 0) then nret None else let@ s := deref p in nret (volume_index converted (s_volumes s) 0).

(** ** The end of a connection *)

Definition add_fd_and_signal (d : Z) : N E unit := nset (add_fd d).
Definition rm_fd_and_signal (d : Z) : N E unit := nset (rm_fd d).

Definition loop_close_descriptor (p d : Z) : N E unit := rm_fd_and_signal d ;;@ ncall (EndSends p d) ;;@ ncall (CloseFd d).

Definition disconnect_server (p : Z) : N E unit :=
  let@ saved_errno := nget errno in
  let@ s := deref p in
  let generation := connection_generation (s_link s) in
  ncall Yield ;;@
  let@ s := deref p in
  let@ d := (if connection_generation (s_link s) =? generation
             then update p (fun s => (if fd (s_link s) >=? 0 then set_volumes (map no_dtrefnum (s_volumes s)) else id)
                                       (on_link (set_fd (-1)) s)) ;;@ nret (fd (s_link s))
             else nret (-1)) in
  (if d >=? 0 then loop_close_descriptor p d else nret tt) ;;@
  ncall (FailRequests p (- EIO)) ;;@
  ncall Yield ;;@
  let@ s := deref p in
  (if (connection_generation (s_link s) =? generation)
      && ((connect_state (s_link s) =? SERVER_STATE_CONNECTED) || (connect_state (s_link s) =? SERVER_STATE_CONNECTING))
   then update p (on_link (set_state SERVER_STATE_DISCONNECTED)) else nret tt) ;;@
  update p (on_link (set_need_resume true)) ;;@
  set_errno_to saved_errno.

Fixpoint without_first (p : Z) (l : list Z) : list Z :=
  match l with [] => [] | q :: r => if q =? p then r else q :: without_first p r end.

(** Off the list, and destroyed. *)
Definition unlink_server (p : Z) (n : net) : bool * net :=
  if bool_decide (p ∈ server_base n)
  then (true, update_server p (on_link (set_state SERVER_STATE_DESTROYED)) (set_base (without_first p (server_base n)) n))
  else (false, n).

Definition afp_server_remove (p : Z) : N E Z :=
  let@ found := section (unlink_server p) in
  if negb found then nret (- ENOENT)
  else disconnect_server p ;;@ afp_server_release p ;;@ nret 0.

(** ** Connecting *)

Definition blank_status : server_status :=
  Status (zero_bytes AFP_MACHINETYPE_LEN) (zero_bytes SERVER_MAX_VERSIONS) 0 (zero_bytes AFP_SERVER_ICON_LEN) 0
    (zero_bytes AFP_SERVER_NAME_LEN) (zero_bytes AFP_SIGNATURE_LEN) (zero_bytes AFP_SERVER_NAME_UTF8_LEN) (zero_bytes AFP_SERVER_NAME_UTF8_LEN).
Definition blank_server (address : list addrinfo) : afp_server :=
  AfpServer (Link (-1) SERVER_STATE_DISCONNECTED 0 None 1 false false) blank_status (LoginState [] [] 0 None 0) address [] 0
    (AFPC_SERVER_TYPE_UNKNOWN, (0, 0, 0), DSI_DEFAULT_TIMEOUT) [] 0 [] 0 0 false 0.

Definition afp_server_init (address : list addrinfo) : N E (option Z) :=
  let@ m := ncall NMalloc in
  match m with
  | None => nret None
  | Some p =>
      let@ buffer := ncall NMalloc in
      match buffer with
      | None => nret None
      | Some _ =>
          let@ taken := nget (fun n => bool_decide (is_Some (servers n !! p))) in
          if taken : bool then nret None                          (* malloc answers no memory in use *)
          else
            nset (fun n => set_servers (<[p := blank_server address]> (servers n)) n) ;;@
            nret (Some p)
      end
  end.

(** 0, or -1 with errno set. *)
Definition or_errno {A} (r : res A) : N E Z := match r with Ok _ => nret 0 | Err e => set_errno_to e ;;@ nret (-1) end.

Definition connect_with_timeout (d : Z) (addr : option (list Z)) (timeout : Z) : N E Z :=
  let@ flags := ncall (Getfl d) in
  match flags with
  | None => let@ r := ncall (ConnectTo d addr) in or_errno r
  | Some flags =>
      let@ r := ncall (Setfl d (Z.lor flags O_NONBLOCK)) in
      match r with
      | Err _ => let@ r := ncall (ConnectTo d addr) in or_errno r
      | Ok _ =>
          let@ r := ncall (ConnectTo d addr) in
          match r with
          | Ok _ => let@ r := ncall (Setfl d flags) in or_errno r
          | Err e =>
              if negb (e =? EINPROGRESS) then ncall (Setfl d flags) ;;@ set_errno_to e ;;@ nret (-1)
              else
                let@ ready := ncall (SelectWritable d timeout) in
                match ready with
                | Ok false => ncall (Setfl d flags) ;;@ set_errno_to ETIMEDOUT ;;@ nret (-1)
                | Err e => ncall (Setfl d flags) ;;@ set_errno_to e ;;@ nret (-1)
                | Ok true =>
                    let@ error := ncall (SoError d) in
                    match error with
                    | Err e => ncall (Setfl d flags) ;;@ set_errno_to e ;;@ nret (-1)
                    | Ok error =>
                        let@ r := ncall (Setfl d flags) in
                        match r with
                        | Err e => set_errno_to e ;;@ nret (-1)
                        | Ok _ => if negb (error =? 0) then set_errno_to error ;;@ nret (-1) else nret 0
                        end
                    end
                end
          end
      end
  end.

(** The descriptor and the address of the first that connects. *)
Fixpoint try_addresses (addresses : list addrinfo) : N E (option (Z * addrinfo)) :=
  match addresses with
  | [] => nret None
  | a :: next =>
      let@ d := ncall (Socket (ai_family a)) in
      match d with
      | Err e => set_errno_to e ;;@ try_addresses next
      | Ok d =>
          let@ r := connect_with_timeout d (ai_addr a) DSI_DEFAULT_TIMEOUT in
          if r =? 0 then ncall (Nodelay d) ;;@ nret (Some (d, a))
          else ncall (CloseFd d) ;;@ try_addresses next
      end
  end.

(** A server removed meanwhile stays removed; another one is listed and its
    descriptor is the loop's. *)
Definition publish (p d : Z) (a : addrinfo) : N E bool :=
  ncall Yield ;;@
  let@ s := deref p in
  if connect_state (s_link s) =? SERVER_STATE_DESTROYED then nret false
  else
    update p (on_link (fun l => set_used_address (Some a) (set_state SERVER_STATE_CONNECTING (set_fd d l)))) ;;@
    nset (fun n => if bool_decide (p ∈ server_base n) then n else set_base (p :: server_base n) n) ;;@
    add_fd_and_signal d ;;@
    nret true.

Definition identify (p : Z) : N E unit := update p (fun s => set_identified (afp_server_identify (until_nul (ss_machine_type (s_status s)))) s).

(** The status of the server, and how long its exchange took. *)
Definition read_status (p : Z) : N E Z :=
  let@ (s1, u1) := ncall NTime in
  let@ (error, reply) := ncall (Getstatus p) in
  (match reply with
   | Some bytes => update p (fun s => set_status (afpc_dsi_getstatus_reply heap iconv bytes (zlen bytes) (s_status s)) s)
   | None => nret tt
   end) ;;@
  if negb (error =? 0) then
    let e := if error >? 0 then error else - error in set_errno_to e ;;@ nret (- e)
  else
    let@ (s2, u2) := ncall NTime in
    identify p ;;@
    update p (set_tx_delay (u32 (if s2 - s1 >? 0 then (s2 - s1) * 1000 else (u2 - u1) ÷ 1000))) ;;@
    nret 0.

Definition afp_server_connect (p : Z) (full : bool) : N E Z :=
  let@ s := deref p in
  update p (on_link (fun l => set_generation (u32 (connection_generation l + 1)) (set_fd (-1) l))) ;;@
  (if fd (s_link s) >=? 0 then loop_close_descriptor p (fd (s_link s)) else nret tt) ;;@
  let@ connected := try_addresses (s_address s) in
  match connected with
  | None => let@ e := nget errno in nret (- e)
  | Some (d, a) =>
      update p new_connection ;;@
      let@ published := publish p d a in
      if negb published then ncall (CloseFd d) ;;@ set_errno_to ENOENT ;;@ nret (- ENOENT)
      else if negb full then nret 0 else read_status p
  end.

Definition afp_server_probe_signature (address : list addrinfo) : N E (option (list Z)) :=
  let@ probe := afp_server_init address in
  match probe with
  | None => set_errno_to ENOMEM ;;@ nret None
  | Some p =>
      let@ ret := afp_server_connect p true in
      let@ s := deref p in
      let gone := let@ r := afp_server_remove p in if negb (r =? 0) then afp_free_server p else nret tt in
      if (ret =? 0) && afp_server_has_valid_signature s then gone ;;@ nret (Some (ss_signature (s_status s)))
      else
        let@ e := nget errno in
        (if ret =? 0 then set_errno_to EPROTO else if e =? 0 then set_errno_to ECONNRESET else nret tt) ;;@
        gone ;;@
        nret None
  end.

Definition afp_server_replace_address (p : Z) (address : list addrinfo) : N E unit :=
  update p (fun s => on_link (set_used_address None) (set_address address s)).

(** ** Logging in *)

Definition afp_server_login (p : Z) : N E Z :=
  let@ s := deref p in
  let l := s_login s in
  let@ rc := ncall (Dologin p (using_uam l) (username l) (password l)) in
  if negb ((rc =? kFPCallNotSupported) || (rc =? kFPMiscErr) || (rc =? 0)) then nret 1
  else
    let@ s := deref p in
    if has (ss_flags (s_status s)) kSupportsReconnect then
      let@ (now, _) := ncall NTime in
      let@ s := deref p in
      if need_resume (s_link s) then
        let@ r := ncall (Getsessiontoken p kReconnWithTimeAndID (u32 now)) in
        if negb (r =? 0) then nret 1 else update p (on_link (set_need_resume false)) ;;@ nret 0
      else
        let@ r := ncall (Getsessiontoken p kLoginWithTimeAndID (u32 now)) in
        nret (if r =? 0 then 0 else 1)
    else nret 0.

(** ** Volumes *)

(** What the end of a volume reads of it and of its server; [rest] is what it
    does not. *)
Definition files_config (s : afp_server) (v : afp_volume) : config :=
  Config (match using_version_ (s_login s) with Some x => snd x | None => 0 end) (quantum rest) (fst (fst (s_identified s)))
    (snd (fst (s_identified s))) (v_path_encoding v) (v_extra_flags v) (v_attributes_ v) (v_name v) (v_mount_time v)
    (vol_identity rest) (icon rest) (snd (s_identified s)) heap.

(** An operation on a volume's files. *)
Definition on_files {A} (p i : Z) (m : config -> M E A) : N E A := fun s =>
  match servers (fst s) !! p with
  | None => (None, s)
  | Some sv =>
      match s_volumes sv !! Z.to_nat i with
      | None => (None, s)
      | Some v =>
          let '(a, (w, e)) := m (files_config sv v) (v_files v, snd s) in
          (Some a, (update_server p (fun s => set_volumes (alter (set_files w) (Z.to_nat i) (s_volumes s)) s) (fst s), e))
      end
  end.

Definition afp_detach_volume (p i : Z) : N E Z :=
  update_volume p i (set_attach_state AFP_VOLUME_DETACHING) ;;@
  on_files p i (fun _ => free_entire_did_cache) ;;@
  on_files p i remove_fork_list ;;@
  let@ v := volume_at p i in
  (if negb (dtrefnum (v_files v) =? 0) then ncall (Closedt p (dtrefnum (v_files v))) else nret 0) ;;@
  update_volume p i (fun v => set_attach_state AFP_VOLUME_DETACHED (no_dtrefnum v)) ;;@
  let@ s := deref p in
  if something_is_attached s then nret 0
  else
    let@ auto := nget auto_disconnect_on_unmount in
    (if auto : bool then ncall (Logout p) ;;@ afp_server_remove p else nret 0) ;;@
    nret 0.

(** The volumes from the [i]-th on; the number is read again each time. *)
Fixpoint each_volume (more : nat) (p i : Z) (step : Z -> N E bool) : N E Z :=
  let@ s := deref p in
  if i <? zlen (s_volumes s) then
    match more with
    | O => nret 0
    | S more => let@ stop := step i in if stop : bool then nret 1 else each_volume more p (i + 1) step
    end
  else nret 0.

Definition afp_unmount_all_volumes (p : Z) : N E Z :=
  each_volume 255 p 0 (fun i =>
    let@ v := volume_at p i in
    if attach_state v =? AFP_VOLUME_ATTACHED then let@ r := afp_detach_volume p i in nret (negb (r =? 0)) else nret false).

Definition afp_unmount_volume (p i : Z) : N E Z :=
  let@ v := volume_at p i in
  if negb (mounted v =? AFP_VOLUME_MOUNTED) then nret (-1)
  else
    update_volume p i (set_mounted AFP_VOLUME_UNMOUNTING) ;;@
    let@ hook := ncall (UnmountHook p i) in
    match hook with
    | Some r => if negb (r =? 0) then update_volume p i (set_mounted AFP_VOLUME_MOUNTED) ;;@ nret (-1)
                else update_volume p i (set_mounted AFP_VOLUME_UNMOUNTED) ;;@ afp_detach_volume p i ;;@ nret 0
    | None => update_volume p i (set_mounted AFP_VOLUME_UNMOUNTED) ;;@ afp_detach_volume p i ;;@ nret 0
    end.

(** The version in use, which a connected server has. *)
Definition version_in_use (p : Z) : N E Z := fun s => (s0 ← servers (fst s) !! p; snd <$> using_version_ (s_login s0), s).

Definition afp_connect_volume (p i : Z) : N E Z :=
  let@ version := version_in_use p in
  let bitmap := fold_right Z.lor 0 [kFPVolAttributeBit; kFPVolSignatureBit; kFPVolCreateDateBit; kFPVolIDBit; kFPVolNameBit] in
  let bitmap := if version >=? 30 then Z.lor bitmap (Z.lor kFPVolNameBit kFPVolBlockSizeBit) else bitmap in
  let@ v := volume_at p i in
  let@ (ret, parms) := ncall (Volopen p i bitmap (if zlen (v_volpassword v) >? 0 then Some (v_volpassword v) else None)) in
  (match parms with Some (attributes, signature) => update_volume p i (set_opened attributes signature) | None => nret tt end) ;;@
  if negb (ret =? kFPNoErr) then nret 1
  else
    let@ v := volume_at p i in
    update_volume p i (set_encoding (if has (v_attributes_ v) kSupportsUTF8Names then kFPUTF8Name else kFPLongName)) ;;@
    if negb (v_signature_ v =? AFP_VOL_FIXED) then afp_detach_volume p i ;;@ nret 1
    else
      let@ version := version_in_use p in
      (if version >=? 30 then
         update_volume p i (fun v => set_v_extra_flags
           (if has (v_attributes_ v) kSupportsUnixPrivs then Z.lor (v_extra_flags v) VOLUME_EXTRA_FLAGS_VOL_SUPPORTS_UNIX
            else Z.land (v_extra_flags v) (Z.lnot VOLUME_EXTRA_FLAGS_VOL_SUPPORTS_UNIX)) v)
       else nret tt) ;;@
      update_volume p i (fun v => set_attach_state AFP_VOLUME_ATTACHED (set_mounted AFP_VOLUME_MOUNTED v)) ;;@
      nret 0.

(** ** A lost connection *)

Definition errno_unless_set (e : Z) : N E unit := nset (fun n => if errno n =? 0 then set_net_errno e n else n).

(** The volumes that were attached or mounted are opened again; 1 if one could not be. *)
Fixpoint reopen_volumes (more : nat) (p i ret : Z) : N E Z :=
  let@ s := deref p in
  if i <? zlen (s_volumes s) then
    match more with
    | O => nret ret
    | S more =>
        update_volume p i no_dtrefnum ;;@
        let@ v := volume_at p i in
        let@ failed := (if (attach_state v =? AFP_VOLUME_ATTACHED) || negb (zlen (mountpoint v) =? 0)
                        then let@ r := afp_connect_volume p i in nret (negb (r =? 0)) else nret false) in
        if failed : bool then errno_unless_set EIO ;;@ reopen_volumes more p (i + 1) 1
        else reopen_volumes more p (i + 1) ret
    end
  else nret ret.

(** Connected, if neither a removal nor a disconnect came between. *)
Definition settle_reconnect (p : Z) : N E bool :=
  ncall Yield ;;@
  let@ s := deref p in
  if (fd (s_link s) <? 0) || negb (connect_state (s_link s) =? SERVER_STATE_CONNECTING) then nret false
  else update p (on_link (set_state SERVER_STATE_CONNECTED)) ;;@ nret true.

(** Up to the session's volumes; whether it succeeded. *)
Definition reconnect_steps (p : Z) : N E bool :=
  ncall (FlushRequests p) ;;@
  let@ s := deref p in
  if negb (afp_server_has_valid_signature s) then set_errno_to EPROTO ;;@ nret false
  else
    let expected_signature := ss_signature (s_status s) in
    let@ peer := afp_server_probe_signature (s_address s) in
    match peer with
    | None => errno_unless_set ECONNRESET ;;@ nret false
    | Some peer_signature =>
        if negb (list_eqb peer_signature expected_signature) then set_errno_to EPROTO ;;@ nret false
        else
          let@ r := afp_server_connect p false in
          if negb (r =? 0) then errno_unless_set ECONNRESET ;;@ nret false
          else
            let@ r := ncall (Opensession p) in
            if negb (r =? 0) then set_errno_to ECONNRESET ;;@ nret false
            else
              let@ r := afp_server_login p in
              if negb (r =? 0) then errno_unless_set EACCES ;;@ nret false
              else
                let@ r := reopen_volumes 255 p 0 0 in
                if negb (r =? 0) then nret false
                else
                  let@ ok := settle_reconnect p in
                  (if ok : bool then nret tt else set_errno_to ECONNRESET) ;;@ nret ok
    end.

Definition afp_server_reconnect (p : Z) : N E Z :=
  let@ s := deref p in
  if reconnect_in_progress (s_link s) then nret 1
  else
    update p (on_link (set_in_progress true)) ;;@
    let@ ok := reconnect_steps p in
    (if ok : bool then nret tt else disconnect_server p) ;;@
    update p (on_link (set_in_progress false)) ;;@
    nret (if ok : bool then 0 else 1).

(** ** A new connection (lib/server.c, lib/connect.c) *)

Definition no_password (s : afp_server) : afp_server :=
  let l := s_login s in set_login (LoginState (username l) [] (requested_version l) (using_version_ l) (using_uam l)) s.

(** Connected, unless the connection ended during the login. *)
Definition settle_connection (p : Z) : N E bool :=
  ncall Yield ;;@
  let@ s := deref p in
  let l := s_link s in
  if (fd l <? 0) || (connect_state l =? SERVER_STATE_DISCONNECTED) || (connect_state l =? SERVER_STATE_DESTROYED) then nret false
  else update p (on_link (set_state SERVER_STATE_CONNECTED)) ;;@ nret true.

(** The steps up to the server's parameters; an errno of what failed. *)
Definition connection_steps (p : Z) (versions : list Z) (uams : Z) (requested uam_mask : Z) : N E (option Z) :=
  let@ r := ncall (Opensession p) in
  if negb (r =? 0) then nret (Some ECONNRESET)
  else
    let version := pick_version versions (u8 requested) in
    update p (fun s => let l := s_login s in set_login (LoginState (username l) (password l) (requested_version l) version (using_uam l)) s) ;;@
    match version with
    | None => nret (Some EPROTONOSUPPORT)
    | Some _ =>
        let uam := pick_uam uams uam_mask in
        if uam =? -1 then nret (Some EPROTONOSUPPORT)
        else
          update p (fun s => let l := s_login s in set_login (LoginState (username l) (password l) (requested_version l) (using_version_ l) uam) s) ;;@
          let@ r := afp_server_login p in
          update p no_password ;;@
          if negb (r =? 0) then nret (Some EACCES)
          else
            let@ (rc, parms) := ncall (Getsrvrparms p) in
            (match parms with Some (t, vs) => update p (fun s => set_volumes vs (set_connect_time t s)) | None => nret tt end) ;;@
            if negb (rc =? 0) then nret (Some EPROTO)
            else
              let@ s := deref p in
              (if s_connect_time s =? afp_date_to_unix None 0
               then let@ (now, _) := ncall NTime in update p (set_connect_time now) else nret tt) ;;@
              let@ version := version_in_use p in
              let@ loginmsg := ncall (Getsrvrmsg p (version >=? 30)) in
              update p (set_loginmesg (take (Z.to_nat AFP_LOGINMESG_LEN) loginmsg)) ;;@
              let@ ok := settle_connection p in
              nret (if ok : bool then None else Some EIO)
    end.

Definition afp_server_complete_connection (p : Z) (versions : list Z) (uams : Z) (user pass : list Z) (requested uam_mask : Z) : N E bool :=
  update p (set_login (LoginState (strlcpy user AFP_MAX_USERNAME_LEN) (strlcpy pass AFP_MAX_PASSWORD_LEN) (u8 requested) None 0)) ;;@
  let@ s := deref p in
  add_fd_and_signal (fd (s_link s)) ;;@
  let@ failed := connection_steps p versions uams requested uam_mask in
  match failed with
  | None => nret true
  | Some e => afp_server_remove p ;;@ set_errno_to e ;;@ nret false
  end.

(** The server the client asked for, [requested] the highest version it may
    use, and the methods it allows, which can change to the guest's. *)
Definition afp_server_full_connect (u : afpc_url) (requested uam_mask : Z) : N E (option Z) :=
  let@ address := ncall (Getaddrinfo (u_servername u) (u_port u)) in
  match address with
  | None => nret None
  | Some address =>
      let@ tmpserver := afp_server_init address in
      match tmpserver with
      | None => nret None
      | Some tmp =>
          let@ ret := afp_server_connect tmp true in
          if ret <? 0 then afp_server_remove tmp ;;@ set_errno_to (- ret) ;;@ nret None
          else
            disconnect_server tmp ;;@
            let@ t := deref tmp in
            let st := s_status t in
            afp_server_remove tmp ;;@
            let@ s := afp_server_init address in
            match s with
            | None => errno_unless_set ENOMEM ;;@ nret None
            | Some p =>
                update p (set_requested (strlcpy (u_servername u) AFP_SERVER_NAME_UTF8_LEN) (u_port u)) ;;@
                let@ ret := afp_server_connect p false in
                if negb (ret =? 0) then afp_server_remove p ;;@ set_errno_to (- ret) ;;@ nret None
                else
                  update p (fun s => set_status (Status (ss_machine_type st) (ss_versions (s_status s)) (ss_supported_uams st)
                    (ss_icon st) (ss_flags (s_status s)) (ss_name st) (ss_signature st) (ss_name_utf8 st) (ss_printable st)) s) ;;@
                  identify p ;;@
                  let guest := ((zlen (u_username u) =? 0) && (zlen (u_password u) =? 0)) || list_eqb (u_username u) (str "nobody") in
                  let mask := if guest && has (ss_supported_uams st) UAM_NOUSERAUTHENT then UAM_NOUSERAUTHENT else uam_mask in
                  let@ ok := afp_server_complete_connection p (ss_versions st) (ss_supported_uams st) (u_username u) (u_password u) requested mask in
                  if ok : bool then identify p ;;@ nret (Some p) else nret None
            end
      end
  end.

End Programs.
