(* ===== verification/ServersProofs.v ===== *)
(** What a reconnection asks of a server before the credentials are sent. *)
From stdpp Require Import base list gmap.
From S2P Require Import Prelude AfpProtocol Uams Status World DidCache ForkList Identify Ipc Servers.
Local Open Scope afp_scope.

(** ** A log of statuses and logins *)

Inductive event := SawStatus (bytes : list Z) | LoggedIn (p : Z) (user pass : list Z).

(** What a request adds to the log. *)
Definition event_of {A} (c : ncmd A) : A -> list event :=
  match c with
  | Getstatus _ => fun a => match snd a with Some bytes => [SawStatus bytes] | None => [] end
  | Dologin p _ user pass => fun _ => [LoggedIn p user pass]
  | _ => fun _ => []
  end.

Definition is_login (ev : event) : Prop := match ev with LoggedIn _ _ _ => True | _ => False end.

(** Other threads leave the servers of this one allocated, and what their
    statuses said. *)
Class Considerate (E : Type) `{NetEnv E} : Prop :=
  considerate A (c : ncmd A) n e p s : servers n !! p = Some s ->
    exists s', servers (fst (snd (answer_net c (n, e)))) !! p = Some s' /\ s_status s' = s_status s.

Section Logged.
Context {E : Type} {HN : NetEnv E} {HE : Env E} {HC : Considerate E}.

#[local] Instance logged_net : NetEnv (E * list event) := fun A c s =>
  let '(n, (e, l)) := s in
  let '(a, (n', e')) := answer_net c (n, e) in (a, (n', (e', event_of c a ++ l))).
#[local] Instance logged_files : Env (E * list event) := fun A c s =>
  let (a, e') := handle c (fst s) in (a, (e', snd s)).

Abbreviation P := (N (E * list event)).

(** ** Programs that send no credentials *)

(** Servers outside of [F] keep their status, and nobody logs in. *)
Definition calm (F : Z -> Prop) {A} (m : P A) : Prop :=
  forall n e l, exists l0, snd (snd (snd (m (n, (e, l))))) = l0 ++ l /\ Forall (fun ev => ~ is_login ev) l0
    /\ forall r s, ~ F r -> servers n !! r = Some s ->
         exists s', servers (fst (snd (m (n, (e, l))))) !! r = Some s' /\ s_status s' = s_status s.

Context (F : Z -> Prop).

Lemma calm_ret {A} (a : A) : calm F (nret a).
Proof. intros n e l. exists []. split_and!; [done|constructor|]. intros r s _ Hs. by exists s. Qed.

Lemma calm_bind {A B} (m : P A) (k : A -> P B) : calm F m -> (forall a, calm F (k a)) -> calm F (nbind m k).
Proof.
  intros Hm Hk n e l. destruct (Hm n e l) as (l0 & El & Hl & Hs). unfold nbind. destruct (m (n, (e, l))) as [[a|] [n1 [e1 l1]]]; cbn [fst snd] in *.
  - destruct (Hk a n1 e1 l1) as (l2 & El2 & Hl2 & Hs2). exists (l2 ++ l0). split_and!.
    + by rewrite El2, El, app_assoc.
    + by apply Forall_app.
    + intros r s Hr Er. destruct (Hs r s Hr Er) as (s1 & E1 & Es1). destruct (Hs2 r s1 Hr E1) as (s2 & E2 & Es2). exists s2. by rewrite Es2.
  - by exists l0.
Qed.

Lemma calm_call {A} (c : ncmd A) : (forall a, Forall (fun ev => ~ is_login ev) (event_of c a)) -> calm F (ncall c).
Proof.
  intros Hc n e l. unfold ncall. pose proof (considerate A c n e) as Hn. cbn. destruct (answer_net c (n, e)) as [a [n' e']]. cbn [fst snd] in *.
  exists (event_of c a). split_and!; [done|done|]. intros r s _ Hs. by apply Hn.
Qed.

Lemma calm_get {A} (f : net -> A) : calm F (nget f).
Proof. intros n e l. exists []. split_and!; [done|constructor|]. intros r s _ Hs. by exists s. Qed.

Lemma calm_deref p : calm F (deref p).
Proof. intros n e l. exists []. split_and!; [done|constructor|]. intros r s _ Hs. by exists s. Qed.

Lemma calm_set f : (forall n r s, ~ F r -> servers n !! r = Some s -> exists s', servers (f n) !! r = Some s' /\ s_status s' = s_status s) -> calm F (nset f).
Proof. intros Hf n e l. exists []. split_and!; [done|constructor|]. intros r s Hr Hs. by apply Hf. Qed.

Lemma calm_if {A} (b : bool) (m k : P A) : calm F m -> calm F k -> calm F (if b then m else k).
Proof. by destruct b. Qed.

Lemma calm_update p f : F p \/ (forall s, s_status (f s) = s_status s) -> calm F (update p f).
Proof.
  intros Hf. apply calm_bind; [apply calm_deref|]. intros _. apply calm_set. intros n r s Hr Hs. unfold update_server, set_servers. cbn [servers].
  destruct (decide (r = p)) as [->|Hne]; [|rewrite lookup_alter_ne by done; by exists s].
  rewrite lookup_alter_eq, Hs. exists (f s). split; [done|]. destruct Hf as [Hf|Hf]; [done|apply Hf].
Qed.

(** A change of the list, the descriptors or errno. *)
Lemma calm_rest f : (forall n, servers (f n) = servers n) -> calm F (nset f).
Proof. intros Hf. apply calm_set. intros n r s _ Hs. rewrite Hf. by exists s. Qed.

Lemma calm_free p : F p -> calm F (afp_free_server p).
Proof.
  intros Hp. apply calm_bind; [apply calm_deref|]. intros _. apply calm_set. intros n r s Hr Hs. cbn [set_servers servers].
  rewrite lookup_delete_ne by (intros ->; done). by exists s.
Qed.

Lemma calm_volume_at p i : calm F (volume_at p i).
Proof. intros n e l. exists []. split_and!; [done|constructor|]. intros r s _ Hs. by exists s. Qed.

Lemma calm_version p : calm F (version_in_use p).
Proof. intros n e l. exists []. split_and!; [done|constructor|]. intros r s _ Hs. by exists s. Qed.

Lemma calm_update_volume p i f : calm F (update_volume p i f).
Proof. apply calm_bind; [apply calm_volume_at|]. intros _. apply calm_update. by right. Qed.

End Logged.

(** Steps through a program whose parts are calm. *)
Ltac calming :=
  cbv zeta;
  repeat match goal with
  | |- calm _ (nret _) => apply calm_ret
  | |- calm _ (ncall _) => apply calm_call; intros ?; by repeat constructor
  | |- calm _ (nget _) => apply calm_get
  | |- calm _ (deref _) => apply calm_deref
  | |- calm _ (volume_at _ _) => apply calm_volume_at
  | |- calm _ (version_in_use _) => apply calm_version
  | |- calm _ (update_volume _ _ _) => apply calm_update_volume
  | |- calm _ (update _ _) => apply calm_update; first [right; intros ?; by repeat case_match|by left; auto]
  | |- calm _ (afp_free_server _) => apply calm_free; by auto
  | |- calm _ (set_errno_to _) => apply calm_rest; done
  | |- calm _ (errno_unless_set _) => apply calm_rest; intros ?; by repeat case_match
  | |- calm _ (add_fd_and_signal _) => apply calm_rest; done
  | |- calm _ (rm_fd_and_signal _) => apply calm_rest; done
  | |- calm _ (nbind _ _) => apply calm_bind; [|intros ?]
  | |- calm _ (if _ then _ else _) => apply calm_if
  | |- calm _ (match ?x with _ => _ end) => destruct x
  | |- calm _ (let (_, _) := ?x in _) => destruct x
  end.

Section Calm.
Context {E : Type} {HN : NetEnv E} {HE : Env E} {HC : Considerate E}.
#[local] Existing Instances logged_net logged_files.
Context (heap : Z -> bool) (iconv : list Z -> list Z -> list Z) (rest : config).
Abbreviation quiet F m := (calm (E := E) F m).

Lemma disconnect_calm F p : quiet F (disconnect_server p).
Proof. unfold disconnect_server, loop_close_descriptor. calming. Qed.

Lemma release_calm F p : F p -> quiet F (afp_server_release p).
Proof. intros Hp. unfold afp_server_release. calming. Qed.

Lemma remove_calm F p : F p -> quiet F (afp_server_remove p).
Proof.
  intros Hp. unfold afp_server_remove, section. calming; [|apply disconnect_calm|by apply release_calm].
  intros n e l. exists []. unfold unlink_server. cbn [fst snd].
  destruct (bool_decide (p ∈ server_base n)); (split_and!; [done|constructor|]); intros r s Hr Hs; [|by exists s]. cbn. rewrite lookup_alter_ne by (intros ->; done). by exists s.
Qed.

Lemma addresses_calm F addresses : quiet F (try_addresses addresses).
Proof.
  induction addresses as [|a next IH]; cbn [try_addresses]; [apply calm_ret|].
  unfold connect_with_timeout, or_errno. calming; exact IH.
Qed.

Lemma connect_calm F p : quiet F (afp_server_connect heap iconv p false).
Proof.
  unfold afp_server_connect, loop_close_descriptor, publish. change (negb false) with true. cbv iota. calming; first [apply addresses_calm|apply calm_rest; intros n; by case_match].
Qed.

(** What the end of a volume asks of the files does not show in the log. *)
Definition silent {A} (m : M (E * list event) A) : Prop := forall w e l, snd (snd (snd (m (w, (e, l))))) = l.

Lemma eventless_bind {A B} (m : M (E * list event) A) (k : A -> M (E * list event) B) : silent m -> (forall a, silent (k a)) -> silent (bind m k).
Proof.
  intros Hm Hk w e l. unfold bind. specialize (Hm w e l). destruct (m (w, (e, l))) as [a [w' [e' l']]]. cbn [snd] in Hm. subst l'. apply Hk.
Qed.

Lemma eventless_call {A} (c : cmd A) : silent (call c).
Proof. intros w e l. unfold call. cbn. unfold handle, logged_files. cbn. by destruct (handle c e). Qed.

Lemma silent_forks cf : silent (remove_fork_list cf).
Proof.
  unfold remove_fork_list. apply eventless_bind; [done|]. intros ps. induction ps as [|q ps IH]; [done|]. cbn [remove_forks].
  apply eventless_bind.
  { unfold ml_close_flush, ml_fsync. repeat first [(apply eventless_bind; [|intros ?])|case_match|apply eventless_call|done]. }
  intros _. apply eventless_bind; [done|]. intros f. apply eventless_bind; [apply eventless_call|]. intros _. by apply eventless_bind.
Qed.

Lemma files_calm F p i {A} (m : config -> M (E * list event) A) : (forall cf, silent (m cf)) -> quiet F (on_files heap rest p i m).
Proof.
  intros Hm n e l. exists []. unfold on_files. cbn [fst snd]. destruct (servers n !! p) as [sv|] eqn:Ep.
  2: { split_and!; [done|constructor|]. intros r s _ Hs. by exists s. }
  destruct (s_volumes sv !! Z.to_nat i) as [v|]; [|split_and!; [done|constructor|]; intros r s _ Hs; by exists s].
  specialize (Hm (files_config heap rest sv v) (v_files v) e l). destruct (m _ _) as [a [w [e' l']]]. cbn [snd fst] in *. subst l'.
  split_and!; [done|constructor|]. intros r s _ Hs. unfold update_server. cbn [servers set_servers].
  destruct (decide (r = p)) as [->|Hne]; [|rewrite lookup_alter_ne by done; by exists s]. rewrite lookup_alter_eq, Hs. by eexists.
Qed.

Lemma detach_calm F p i : F p -> quiet F (afp_detach_volume heap rest p i).
Proof. intros Hp. unfold afp_detach_volume. calming; first [by apply remove_calm|apply files_calm; intros ?; first [done|apply silent_forks]]. Qed.

Lemma reopen_calm F k p i ret : F p -> quiet F (reopen_volumes heap rest k p i ret).
Proof.
  intros Hp. revert i ret. induction k as [|k IH]; intros i ret; cbn [reopen_volumes]; unfold afp_connect_volume; calming;
    first [apply IH|by apply detach_calm].
Qed.

(** ** The status a probe saw *)

Definition parsed (bytes : list Z) : server_status := afpc_dsi_getstatus_reply heap iconv bytes (zlen bytes) blank_status.

(** Nothing of the server is known. *)
Definition blank_at (q : Z) (n : net) (l : list event) : Prop := exists s, servers n !! q = Some s /\ s_status s = blank_status.

(** What is known of the server is what a logged status said. *)
Definition traced (q : Z) (n : net) (l : list event) : Prop :=
  exists s, servers n !! q = Some s /\ (s_status s = blank_status \/ exists bytes, SawStatus bytes ∈ l /\ s_status s = parsed bytes).

(** From a state and a log of [R] to one of [R'], with or without a result. *)
Definition leads (R R' : net -> list event -> Prop) {A} (m : N (E * list event) A) : Prop :=
  forall n e l, R n l -> R' (fst (snd (m (n, (e, l))))) (snd (snd (snd (m (n, (e, l)))))).

Lemma leads_bind R R' {A B} (m : N (E * list event) A) (k : A -> N (E * list event) B) :
  leads R R m -> (forall n l, R n l -> R' n l) -> (forall a, leads R R' (k a)) -> leads R R' (nbind m k).
Proof.
  intros Hm HR Hk n e l Hn. specialize (Hm n e l Hn). unfold nbind. destruct (m (n, (e, l))) as [[a|] [n1 [e1 l1]]]; cbn [fst snd] in *; [by apply Hk|by apply HR].
Qed.

Lemma calm_blank F q {A} (m : N (E * list event) A) : ~ F q -> quiet F m -> leads (blank_at q) (blank_at q) m.
Proof. intros Hq Hm n e l (s & Hs & Es). destruct (Hm n e l) as (l0 & El & Hl & Hk). destruct (Hk q s Hq Hs) as (s' & Hs' & Es'). exists s'. by rewrite Es'. Qed.

Lemma calm_traced F q {A} (m : N (E * list event) A) : ~ F q -> quiet F m -> leads (traced q) (traced q) m.
Proof.
  intros Hq Hm n e l (s & Hs & Es). destruct (Hm n e l) as (l0 & El & Hl & Hk). destruct (Hk q s Hq Hs) as (s' & Hs' & Es'). exists s'. split; [done|].
  rewrite El, Es'. destruct Es as [Es|(bytes & Hb & Es)]; [by left|]. right. exists bytes. split; [by apply elem_of_app; right|done].
Qed.

Lemma blank_traced q n l : blank_at q n l -> traced q n l.
Proof. intros (s & Hs & Es). exists s. auto. Qed.

Lemma leads_then R R' {A B} (Q : A -> net -> list event -> Prop) (m : N (E * list event) A) (k : A -> N (E * list event) B) :
  (forall n e l, R n l -> match m (n, (e, l)) with
     | (Some a, (n', (e', l'))) => Q a n' l' | (None, (n', (e', l'))) => R' n' l' end) ->
  (forall a, leads (Q a) R' (k a)) -> leads R R' (nbind m k).
Proof.
  intros Hm Hk n e l Hn. specialize (Hm n e l Hn). unfold nbind. destruct (m (n, (e, l))) as [[a|] [n1 [e1 l1]]]; cbn [fst snd] in *; [by apply Hk|done].
Qed.

Lemma calm_traced_blank q {A} (m : N (E * list event) A) : quiet (fun _ => False) m -> leads (blank_at q) (traced q) m.
Proof. intros Hm n e l Hb. apply (calm_traced (fun _ => False) q m (fun H => H) Hm), blank_traced, Hb. Qed.

Lemma status_traced q : leads (blank_at q) (traced q) (read_status heap iconv q).
Proof.
  unfold read_status. apply leads_bind; [apply (calm_blank (fun _ => False)); [tauto|]; calming|apply blank_traced|]. intros [s1 u1].
  apply leads_then with (Q := fun a n l => blank_at q n l /\ match snd a with Some bytes => SawStatus bytes ∈ l | None => True end).
  { intros n e l (s & Hs & Es). unfold ncall. cbn. pose proof (considerate _ (Getstatus q) n e q s Hs) as (s' & Hs' & Es').
    destruct (answer_net (Getstatus q) (n, e)) as [[error reply] [n' e']]. cbn [fst snd event_of] in *.
    split; [exists s'; by rewrite Es'|]. destruct reply; [by left|done]. }
  intros [error reply]. cbn [snd]. apply leads_then with (Q := fun _ => traced q).
  { intros n e l [(s & Hs & Es) Hb]. destruct reply as [bytes|]; [|exists s; by auto].
    unfold update, nbind, deref. cbn [fst]. rewrite Hs. unfold nset. eexists. cbn [fst update_server set_servers servers]. rewrite lookup_alter_eq, Hs. split; [done|].
    right. exists bytes. split; [done|]. cbn [set_status s_status]. by rewrite Es. }
  intros _. apply (calm_traced (fun _ => False)); [tauto|]. unfold identify. calming.
Qed.

Lemma connect_traced q : leads (blank_at q) (traced q) (afp_server_connect heap iconv q true).
Proof.
  assert (Hq : forall A (m : N (E * list event) A), quiet (fun _ => False) m -> leads (blank_at q) (blank_at q) m) by (intros A m; apply calm_blank; tauto).
  unfold afp_server_connect. do 3 (apply leads_bind; [apply Hq; unfold loop_close_descriptor; calming|apply blank_traced|intros ?]).
  apply leads_bind; [apply Hq, addresses_calm|apply blank_traced|]. intros [[d a']|]; [|apply (calm_traced_blank q); calming].
  do 2 (apply leads_bind; [apply Hq; unfold publish; calming; apply calm_rest; intros n; by case_match|apply blank_traced|intros ?]).
  destruct (negb a3); [apply (calm_traced_blank q); calming|apply status_traced].
Qed.

Lemma logged_call {A} (c : ncmd A) n (e : E) (l : list event) a n' e' :
  answer_net c (n, e) = (a, (n', e')) -> ncall c (n, (e, l)) = (Some a, (n', (e', event_of c a ++ l))).
Proof. intros Ha. unfold ncall. cbn. by rewrite Ha. Qed.

(** The signature of a probe was in a status the probe saw. *)
Definition vouched (signature : list Z) (l : list event) : Prop :=
  signature <> zero_bytes AFP_SIGNATURE_LEN /\ exists bytes, SawStatus bytes ∈ l /\ ss_signature (parsed bytes) = signature.

Definition gone (q : Z) : N (E * list event) unit := let@ r := afp_server_remove q in if negb (r =? 0) then afp_free_server q else nret tt.

Lemma gone_calm q : quiet (eq q) (gone q).
Proof. unfold gone. calming. by apply remove_calm. Qed.

Lemma init_blank address n e l :
  match afp_server_init address (n, (e, l)) with
  | (Some (Some q), (n', (e', l'))) => servers n !! q = None /\ blank_at q n' l' /\ l' = l
      /\ forall r s, servers n !! r = Some s -> exists s', servers n' !! r = Some s' /\ s_status s' = s_status s
  | (_, (n', (e', l'))) => l' = l /\ forall r s, servers n !! r = Some s -> exists s', servers n' !! r = Some s' /\ s_status s' = s_status s
  end.
Proof.
  unfold afp_server_init. unfold nbind at 1. pose proof (considerate _ NMalloc n e) as H1.
  destruct (answer_net NMalloc (n, e)) as [[q|] [n1 e1]] eqn:E1; rewrite (logged_call _ _ _ l _ _ _ E1); cbn [fst snd event_of app] in *; [|by split].
  unfold nbind at 1. pose proof (considerate _ NMalloc n1 e1) as H2.
  assert (H12 : forall n2, (forall r s, servers n1 !! r = Some s -> exists s', servers n2 !! r = Some s' /\ s_status s' = s_status s) ->
    forall r s, servers n !! r = Some s -> exists s', servers n2 !! r = Some s' /\ s_status s' = s_status s).
  { intros n2 Hn2 r s Hs. destruct (H1 r s Hs) as (s1 & E1' & Es1). destruct (Hn2 r s1 E1') as (s2 & E2' & Es2). exists s2. by rewrite Es2. }
  destruct (answer_net NMalloc (n1, e1)) as [[q'|] [n2 e2]] eqn:E2; rewrite (logged_call _ _ _ l _ _ _ E2); cbn [fst snd event_of app] in *;
    [|split; [done|by apply H12]].
  unfold nbind at 1, nget at 1. cbn [fst]. specialize (H12 n2 H2). destruct (bool_decide (is_Some (servers n2 !! q))) eqn:Et; [by split|].
  apply bool_decide_eq_false in Et. rewrite <- eq_None_not_Some in Et. cbn. split_and!.
  - destruct (servers n !! q) as [s|] eqn:Eq; [|done]. destruct (H12 q s Eq) as (s' & Hs' & _). congruence.
  - exists (blank_server address). cbn. by rewrite lookup_insert_eq.
  - done.
  - intros r s Hs. destruct (H12 r s Hs) as (s' & Hs' & Es'). exists s'. by rewrite lookup_insert_ne by congruence.
Qed.

Lemma probe_connect_calm q : quiet (eq q) (afp_server_connect heap iconv q true).
Proof.
  unfold afp_server_connect, loop_close_descriptor, publish, read_status, identify.
  calming; try first [apply addresses_calm|apply calm_rest; intros n; by case_match].
  apply calm_call. intros [error [bytes|]]; cbn; [constructor; [by intros []|constructor]|constructor].
Qed.

(** After the connection of a probe. *)
Lemma probe_rest_vouched q ret n e l :
  traced q n l ->
  match (let@ s := deref q in
         if (ret =? 0) && afp_server_has_valid_signature s then gone q ;;@ nret (Some (ss_signature (s_status s)))
         else let@ e := nget errno in
              (if ret =? 0 then set_errno_to EPROTO else if e =? 0 then set_errno_to ECONNRESET else nret tt) ;;@
              gone q ;;@ nret None) (n, (e, l)) with
  | (Some (Some signature), (n', (e', l'))) => vouched signature l'
  | _ => True
  end.
Proof.
  intros (s & Hs & Es). unfold nbind at 1, deref at 1. cbn [fst]. rewrite Hs. destruct (ret =? 0) eqn:Er; cbn [andb].
  2: { unfold nbind. repeat case_match; simplify_eq; try done. }
  destruct (afp_server_has_valid_signature s) eqn:Ev; [|unfold nbind; repeat case_match; simplify_eq; done].
  unfold nbind at 1. pose proof (gone_calm q n e l) as (l0 & El & _). destruct (gone q (n, (e, l))) as [[u|] [n' [e' l']]]; [|done].
  cbn [fst snd nret] in *. subst l'. unfold afp_server_has_valid_signature in Ev. apply negb_true_iff in Ev. split.
  - intros Hz. rewrite Hz, list_eqb_refl in Ev. done.
  - destruct Es as [Es|(bytes & Hb & Es)]; [by rewrite Es, list_eqb_refl in Ev|]. exists bytes. rewrite Es. split; [by apply elem_of_app; right|done].
Qed.

Lemma probe_vouched address n e l :
  match afp_server_probe_signature heap iconv address (n, (e, l)) with
  | (o, (n', (e', l'))) => (exists l0, l' = l0 ++ l /\ Forall (fun ev => ~ is_login ev) l0)
      /\ (forall r s, servers n !! r = Some s -> exists s', servers n' !! r = Some s' /\ s_status s' = s_status s)
      /\ forall signature, o = Some (Some signature) -> vouched signature l'
  end.
Proof.
  unfold afp_server_probe_signature. unfold nbind at 1. pose proof (init_blank address n e l) as Hi.
  destruct (afp_server_init address (n, (e, l))) as [[[q|]|] [n1 [e1 l1]]].
  2: { destruct Hi as [-> Hi]. cbn. split_and!; [by exists []; split; [|constructor]|done|done]. }
  2: { destruct Hi as [-> Hi]. cbn. split_and!; [by exists []; split; [|constructor]|done|done]. }
  destruct Hi as (Hq & Hb & -> & Hi). change (let@ r := afp_server_remove q in if negb (r =? 0) then afp_free_server q else nret tt) with (gone q).
  match goal with |- match ?m ?s with _ => _ end => assert (Hc : quiet (eq q) m) end.
  { calming; first [apply probe_connect_calm|apply gone_calm]. }
  destruct (Hc n1 e1 l) as (l0 & El & Hl & Hk). clear Hc. unfold nbind at 1 in El. unfold nbind at 1 in Hk. unfold nbind at 1.
  pose proof (connect_traced q n1 e1 l Hb) as Ht. destruct (afp_server_connect heap iconv q true (n1, (e1, l))) as [[ret|] [n2 [e2 l2]]]; cbn [fst snd] in *.
  - apply (probe_rest_vouched q ret n2 e2 l2) in Ht. destruct (nbind _ _ (n2, (e2, l2))) as [o [n3 [e3 l3]]]. cbn [fst snd] in *. split_and!.
    + by exists l0.
    + intros r s Hs. destruct (Hi r s Hs) as (s1 & E1 & Es1). destruct (Hk r s1) as (s2 & E2 & Es2); [intros ->; congruence|done|]. exists s2. by rewrite Es2.
    + intros signature ->. exact Ht.
  - split_and!; [by exists l0| |done].
    intros r s Hs. destruct (Hi r s Hs) as (s1 & E1 & Es1). destruct (Hk r s1) as (s2 & E2 & Es2); [intros ->; congruence|done|]. exists s2. by rewrite Es2.
Qed.

(** ** Reconnections *)

Context (p : Z) (signature : list Z).

(** Every login is to the server, after a status with its signature. *)
Definition good (l : list event) : Prop :=
  forall later q user pass earlier, l = later ++ LoggedIn q user pass :: earlier -> q = p /\ vouched signature earlier.

Definition saved (n : net) : Prop := exists s, servers n !! p = Some s /\ ss_signature (s_status s) = signature.

Lemma good_app l0 l : good l -> Forall (fun ev => ~ is_login ev) l0 -> good (l0 ++ l).
Proof.
  intros Hl. induction l0 as [|ev l0 IH]; intros H0; [done|]. inversion_clear H0 as [|? ? Hev Hl0]. specialize (IH Hl0).
  intros later q user pass earlier El. destruct later as [|ev' later]; injection El; [intros _ ->; by destruct Hev|]. intros El' _. by apply (IH later q user pass).
Qed.

Lemma vouched_app l0 l : vouched signature l -> vouched signature (l0 ++ l).
Proof. intros [Hz (bytes & Hb & Es)]. split; [done|]. exists bytes. split; [by apply elem_of_app; right|done]. Qed.

Lemma calm_good F {A} (m : N (E * list event) A) : quiet F m -> leads (fun _ => good) (fun _ => good) m.
Proof. intros Hm n e l Hl. destruct (Hm n e l) as (l0 & -> & H0 & _). by apply good_app. Qed.

Lemma calm_saved F (v : bool) {A} (m : N (E * list event) A) : ~ F p -> quiet F m ->
  let R n l := good l /\ saved n /\ (v = true -> vouched signature l) in leads R R m.
Proof.
  intros Hp Hm R n e l (Hl & (s & Hs & Es) & Hv). destruct (Hm n e l) as (l0 & -> & H0 & Hk). destruct (Hk p s Hp Hs) as (s' & Hs' & Es').
  split_and!; [by apply good_app|exists s'; by rewrite Es'|]. intros Ev. by apply vouched_app, Hv.
Qed.

(** The calls before the login; [v] once the signature is vouched for. *)
Definition before_login (v : bool) (n : net) (l : list event) : Prop := good l /\ saved n /\ (v = true -> vouched signature l).

Lemma before_good v n l : before_login v n l -> good l.
Proof. by intros [? _]. Qed.

Lemma before_calm v {A B} (m : N (E * list event) A) (k : A -> N (E * list event) B) :
  quiet (fun _ => False) m -> (forall a, leads (before_login v) (fun _ => good) (k a)) -> leads (before_login v) (fun _ => good) (nbind m k).
Proof. intros Hm Hk. apply leads_bind; [apply (calm_saved (fun _ => False)); [tauto|done]|apply before_good|done]. Qed.

Lemma before_end v F {A} (m : N (E * list event) A) : quiet F m -> leads (before_login v) (fun _ => good) m.
Proof. intros Hm n e l [Hl _]. by apply (calm_good F m Hm). Qed.

Lemma login_good : leads (before_login true) (fun _ => good) (afp_server_login p).
Proof.
  unfold afp_server_login. apply before_calm; [calming|]. intros s. cbv zeta. apply leads_then with (Q := fun _ _ => good).
  - intros n e l (Hl & _ & Hv). destruct (answer_net (Dologin p (using_uam (s_login s)) (username (s_login s)) (password (s_login s))) (n, e)) as [rc [n' e']] eqn:Ea. rewrite (logged_call _ _ _ l _ _ _ Ea).
    cbn [event_of app]. intros later q user pass earlier El. destruct later as [|ev later]; injection El; [intros <- _ _ <-; by split; [|apply Hv]|].
    intros El' _. by apply (Hl later q user pass).
  - intros rc. apply (calm_good (fun _ => False)). calming.
Qed.

Lemma leads_pure (X : Prop) R R' {A} (m : N (E * list event) A) : (X -> leads R R' m) -> leads (fun n l => R n l /\ X) R' m.
Proof. intros Hm n e l [Hn HX]. by apply Hm. Qed.

(** What follows a program that is good, whatever it answers. *)
Lemma good_then (R : net -> list event -> Prop) {A B} (m : N (E * list event) A) (k : A -> N (E * list event) B) :
  leads R (fun _ => good) m -> (forall a, quiet (eq p) (k a)) -> leads R (fun _ => good) (nbind m k).
Proof. intros Hm Hk. apply leads_then with (Q := fun _ _ => good); [|intros a; apply (calm_good (eq p)), Hk]. intros n e l Hn. specialize (Hm n e l Hn). by destruct (m _) as [[a|] [n' [e' l']]]. Qed.

(** The new session, once the server is recognised. *)
Lemma rejoin_good :
  leads (before_login true) (fun _ => good) (let@ r := afp_server_connect heap iconv p false in
    if negb (r =? 0) then errno_unless_set ECONNRESET ;;@ nret false
    else
      let@ r := ncall (Opensession p) in
      if negb (r =? 0) then set_errno_to ECONNRESET ;;@ nret false
      else
        let@ r := afp_server_login p in
        if negb (r =? 0) then errno_unless_set EACCES ;;@ nret false
        else
          let@ r := reopen_volumes heap rest 255 p 0 0 in
          if negb (r =? 0) then nret false
          else let@ ok := settle_reconnect p in (if ok : bool then nret tt else set_errno_to ECONNRESET) ;;@ nret ok).
Proof.
  apply before_calm; [apply connect_calm|]. intros r. destruct (negb (r =? 0)); [apply (before_end _ (eq p)); calming|].
  apply before_calm; [calming|]. intros r'. destruct (negb (r' =? 0)); [apply (before_end _ (eq p)); calming|].
  apply good_then; [apply login_good|]. intros r''. unfold settle_reconnect. calming. by apply reopen_calm.
Qed.

Lemma reconnect_good : leads (before_login false) (fun _ => good) (afp_server_reconnect heap iconv rest p).
Proof.
  unfold afp_server_reconnect. apply before_calm; [calming|]. intros s. destruct (reconnect_in_progress (s_link s)); [apply (before_end _ (eq p)); calming|].
  apply before_calm; [calming|]. intros _. apply good_then; [|intros ok; calming; apply disconnect_calm].
  unfold reconnect_steps. apply before_calm; [calming|]. intros _. clear s.
  apply leads_then with (Q := fun s n l => before_login false n l /\ ss_signature (s_status s) = signature).
  { intros n e l Hb. unfold deref. cbn [fst]. destruct (servers n !! p) as [s|] eqn:Ep; [|apply Hb]. split; [done|].
    destruct Hb as (_ & (s' & Hs' & Es') & _). congruence. }
  intros s. apply leads_pure. intros Es. destruct (negb (afp_server_has_valid_signature s)); [apply (before_end _ (eq p)); calming|]. cbv zeta.
  apply leads_then with (Q := fun peer n l => before_login false n l /\ (forall x, peer = Some x -> vouched x l)).
  { intros n e l (Hl & (s0 & Hs0 & Es0) & _). pose proof (probe_vouched (s_address s) n e l) as Hp.
    destruct (afp_server_probe_signature heap iconv (s_address s) (n, (e, l))) as [[o|] [n' [e' l']]]; destruct Hp as ((l0 & -> & H0) & Hk & Hv);
      [|by apply good_app]. destruct (Hk p s0 Hs0) as (s1 & Hs1 & Es1). split; [split_and!; [by apply good_app|exists s1; by rewrite Es1|done]|].
    intros x ->. by apply Hv. }
  intros [x|]; [|intros n e l [Hb _]; apply (before_end false (eq p)); [calming|done]].
  destruct (list_eqb x (ss_signature (s_status s))) eqn:Ex; cbn [negb]; [|intros n e l [Hb _]; apply (before_end false (eq p)); [calming|done]].
  apply list_eqb_eq in Ex. intros n e l [(Hl & Hsv & _) Hv]. apply rejoin_good. split_and!; [done|done|]. intros _. rewrite <- Es, <- Ex. by apply Hv.
Qed.

End Calm.

(** The log of a run, the newest first. *)
Definition log_of {E} {HN : NetEnv E} {HE : Env E} {A} (m : N (E * list event) A) (n : net) (e : E) : list event :=
  snd (snd (snd (m (n, (e, []))))).

#[local] Existing Instances logged_net logged_files.

(** C16: a reconnection sends no credentials to a server it has not
    recognised. As long as the other threads free no server and change no
    server's saved status, whatever else they change and whatever the network
    answers, each login of a reconnection is to the server it is of, and comes
    after a status reply that had the signature the server was saved with, one
    that is not all zero. *)
Theorem reconnect_credentials {E} {HN : NetEnv E} {HE : Env E} {HC : Considerate E} heap iconv rest p s n (e : E) later q user pass earlier :
  servers n !! p = Some s ->
  log_of (afp_server_reconnect heap iconv rest p) n e = later ++ LoggedIn q user pass :: earlier ->
  q = p /\ vouched heap iconv (ss_signature (s_status s)) earlier.
Proof.
  intros Hs Hl. assert (Hb : before_login heap iconv p (ss_signature (s_status s)) false n []).
  { split_and!; [by intros [|? ?]|by exists s|done]. }
  exact (reconnect_good heap iconv rest p _ n e [] Hb later q user pass earlier Hl).
Qed.

(** A server that answers the status, the session and the login. *)
Definition status_reply : list Z :=
  zero_bytes 16 ++ [0; 30; 0; 31; 0; 39; 0; 0; 0; 0; 1; 120; 0; 14; 1; 2; 3; 4; 5; 6; 7; 8; 9; 10; 11; 12; 13; 14; 15; 16; 0]
  ++ [1; 6] ++ str "AFP3.4" ++ [1; 4] ++ str "DHX2".

Definition answering A (c : ncmd A) : A :=
  match c in ncmd A return A with
  | NMalloc => Some 7 | Getaddrinfo _ _ => Some [AddrInfo 2 (Some [1])] | Socket _ => Ok 5 | Getfl _ => None | Setfl _ _ => Ok tt
  | ConnectTo _ _ => Ok tt | SelectWritable _ _ => Ok true | SoError _ => Ok 0 | Nodelay _ => tt | CloseFd _ => tt | EndSends _ _ => tt
  | FailRequests _ _ => tt | FlushRequests _ => tt | Getstatus _ => (0, Some status_reply) | Opensession _ => 0 | Dologin _ _ _ _ => 0
  | Dopasswd _ _ _ _ _ => 0 | DetectMapping _ _ => tt | Getsessiontoken _ _ _ => 0 | Getsrvrparms _ => (0, None) | Getsrvrmsg _ _ => [] | Volopen _ _ _ _ => (0, None) | Closedt _ _ => 0
  | Logout _ => 0 | UnmountHook _ _ => None | NTime => (1, 0) | Yield => tt
  end.

#[local] Instance answering_net : NetEnv unit := fun A c s => (answering A c, s).

(** A server of that signature whose connection was lost. *)
Definition lost_server : afp_server :=
  set_status (afpc_dsi_getstatus_reply (fun _ => true) (fun a _ => a) status_reply (zlen status_reply) blank_status)
    (blank_server [AddrInfo 2 (Some [1])]).

Definition one_lost : net := Net {[1 := lost_server]} [1] [] 0 true 0.

#[local] Instance silent_files : Env unit := fun A c e => (no_answer c, e).

#[local] Instance answering_considerate : Considerate unit.
Proof. intros A c n e p s Hs. by exists s. Qed.

Lemma reconnect_credentials_witness :
  log_of (afp_server_reconnect (fun _ => true) (fun a _ => a) sample_config 1) one_lost tt = [] ++ LoggedIn 1 [] [] :: [SawStatus status_reply]
  /\ vouched (fun _ => true) (fun a _ => a) (ss_signature (s_status lost_server)) [SawStatus status_reply].
Proof.
  assert (Hl : log_of (afp_server_reconnect (fun _ => true) (fun a _ => a) sample_config 1) one_lost tt
    = [] ++ LoggedIn 1 [] [] :: [SawStatus status_reply]) by (vm_compute; reflexivity).
  split; [exact Hl|]. refine (proj2 (reconnect_credentials (fun _ => true) (fun a _ => a) sample_config 1 lost_server one_lost tt [] 1 [] [] _ _ Hl)).
  reflexivity.
Defined.
