(* ===== verification/ServersConnect.v ===== *)
(** What a new connection leaves of the list of servers, and what it logs in with. *)
From stdpp Require Import base list gmap.
From S2P Require Import Prelude AfpProtocol Path Uams Status World DidCache ForkList Identify Url Ipc Servers ServersProofs.
Local Open Scope afp_scope.

(** ** New connections *)

(** No other thread changes the servers. *)
Class Alone (E : Type) `{NetEnv E} : Prop := alone A (c : ncmd A) n e : fst (snd (answer_net c (n, e))) = n.

Section Connect.
Context {E : Type} {HN : NetEnv E} {HE : Env E} {HA : Alone E}.
Context (heap : Z -> bool) (iconv : list Z -> list Z -> list Z) (rest : config).
Context (n0 : net).
Hypothesis (Hlisted : Forall (fun q => is_Some (servers n0 !! q)) (server_base n0)).

(** The program ends, in a state that has [Q] of the result. *)
Definition runs (W : net -> Prop) {A} (m : N E A) (Q : A -> net -> Prop) : Prop :=
  forall n e, W n -> exists a n' e', m (n, e) = (Some a, (n', e')) /\ Q a n'.

(** The servers from before are as they were. *)
Definition old (n : net) : Prop := forall q s, servers n0 !! q = Some s -> servers n !! q = Some s.
Definition plain (n : net) : Prop := old n /\ server_base n = server_base n0.

(** A new server, listed if [b], without a descriptor if [c]: only its
    creation's reference. *)
Definition own (p : Z) (b c : bool) (S : afp_server -> Prop) (n : net) : Prop :=
  old n /\ servers n0 !! p = None /\ server_base n = (if b then p :: server_base n0 else server_base n0)
  /\ exists s, servers n !! p = Some s /\ refcount (s_link s) = 1 /\ (c = true -> fd (s_link s) < 0) /\ S s.

Lemma runs_ret (W : net -> Prop) {A} (a : A) (Q : A -> net -> Prop) : (forall n, W n -> Q a n) -> runs W (nret a) Q.
Proof. intros HQ n e Hn. exists a, n, e. split; [done|by apply HQ]. Qed.

Lemma runs_bind W {A B} (m : N E A) (k : A -> N E B) Q1 Q : runs W m Q1 -> (forall a, runs (Q1 a) (k a) Q) -> runs W (nbind m k) Q.
Proof. intros Hm Hk n e Hn. destruct (Hm n e Hn) as (a & n' & e' & Em & Hn'). unfold nbind. rewrite Em. by apply Hk. Qed.

Lemma runs_call (W : net -> Prop) {A} (c : ncmd A) : runs W (ncall c) (fun _ => W).
Proof.
  intros n e Hn. unfold ncall. pose proof (alone A c n e) as Hc. destruct (answer_net c (n, e)) as [a [n' e']]. cbn [fst snd] in Hc. subst n'.
  by exists a, n, e'.
Qed.

Lemma runs_set (W : net -> Prop) f (Q : unit -> net -> Prop) : (forall n, W n -> Q tt (f n)) -> runs W (nset f) Q.
Proof. intros HQ n e Hn. exists tt, (f n), e. split; [done|by apply HQ]. Qed.

Lemma runs_get (W : net -> Prop) {A} (f : net -> A) : runs W (nget f) (fun _ => W).
Proof. intros n e Hn. by exists (f n), n, e. Qed.

Lemma runs_deref p b c S : runs (own p b c S) (deref p) (fun s n => own p b c S n /\ refcount (s_link s) = 1 /\ (c = true -> fd (s_link s) < 0) /\ S s).
Proof. intros n e Hn. destruct Hn as (H1 & H2 & H3 & s & Hs & Hr & Hf & HS). exists s, n, e. unfold deref. cbn [fst]. rewrite Hs. split; [done|]. split; [|done]. split_and!; try done. by exists s. Qed.

Lemma runs_pure (X : Prop) (W : net -> Prop) {A} (m : N E A) Q : (X -> runs W m Q) -> runs (fun n => W n /\ X) m Q.
Proof. intros Hm n e [Hn HX]. by apply Hm. Qed.

Lemma runs_update p b c (S S' : afp_server -> Prop) f :
  (forall s, S s -> S' (f s)) -> (forall s, refcount (s_link (f s)) = refcount (s_link s)) ->
  (forall s, c = true -> fd (s_link s) < 0 -> fd (s_link (f s)) < 0) -> runs (own p b c S) (update p f) (fun _ => own p b c S').
Proof.
  intros HS Hr Hf. eapply runs_bind; [apply runs_deref|]. intros s0. apply runs_set.
  intros n ((H1 & H2 & H3 & s & Hs & Hr1 & Hf1 & HS1) & _). unfold update_server, own. cbn [servers set_servers server_base]. split_and!; try done.
  - intros q s1 Hq. cbn. rewrite lookup_alter_ne by congruence. by apply H1.
  - exists (f s). rewrite lookup_alter_eq, Hs. split_and!; [done|by rewrite Hr|intros Hb; by apply Hf, Hf1|by apply HS].
Qed.

(** Programs that leave a new server where it is and what is said of it. *)
Abbreviation keep p b c S m := (runs (own p b c S) m (fun _ => own p b c S)).

Lemma keep_bind p b c S {A B} (m : N E A) (k : A -> N E B) : keep p b c S m -> (forall a, keep p b c S (k a)) -> keep p b c S (nbind m k).
Proof. intros Hm Hk. by apply (runs_bind _ _ _ _ _ Hm). Qed.

Lemma keep_ret p b c S {A} (a : A) : keep p b c S (nret a).
Proof. by apply runs_ret. Qed.

Lemma keep_deref p b c S : keep p b c S (deref p).
Proof. intros n e Hn. destruct (runs_deref p b c S n e Hn) as (s & n' & e' & Hd & Ho & _). by exists s, n', e'. Qed.

Lemma keep_rest p b c S f : (forall n, servers (f n) = servers n /\ server_base (f n) = server_base n) -> keep p b c S (nset f).
Proof. intros Hf. apply runs_set. intros n Hn. destruct (Hf n) as [E1 E2]. unfold own, old in *. by rewrite E1, E2. Qed.

Lemma keep_if p b c S {A} (x : bool) (m k : N E A) : keep p b c S m -> keep p b c S k -> keep p b c S (if x then m else k).
Proof. by destruct x. Qed.

End Connect.

(** What is said of a server is of its login and its status only. *)
Definition lasting (S : afp_server -> Prop) : Prop :=
  forall s s', s_login s' = s_login s -> s_status s' = s_status s -> S s -> S s'.

(** Every status the network answers a connection with has [R]. *)
Definition answers_status {E} `{NetEnv E} (R : list Z -> Prop) : Prop :=
  forall p (w : net * E) bytes, snd (fst (answer_net (Getstatus p) w)) = Some bytes -> R bytes.
#[global] Arguments answers_status E {_} R.

Lemma any_status {E} `{NetEnv E} : answers_status E (fun _ => True).
Proof. done. Qed.

Ltac keeping :=
  cbv zeta;
  repeat match goal with
  | |- runs _ (nret _) _ => apply keep_ret
  | |- runs _ (ncall _) _ => apply runs_call
  | |- runs _ (nget _) _ => apply runs_get
  | |- runs _ (deref _) _ => apply keep_deref
  | |- runs _ (set_errno_to _) _ => by apply keep_rest
  | |- runs _ (errno_unless_set _) _ => apply keep_rest; intros ?; by repeat case_match
  | |- runs _ (add_fd_and_signal _) _ => by apply keep_rest
  | |- runs _ (rm_fd_and_signal _) _ => by apply keep_rest
  | |- runs _ (update _ _) _ => apply runs_update; [let s := fresh in let H := fresh in intros s H; match goal with HS : lasting _ |- _ => apply (HS s); [by repeat case_match|by repeat case_match|exact H] end|intros ?; by repeat case_match|intros ? ? ?; cbn; by repeat case_match]
  | |- runs _ (nbind _ _) _ => apply keep_bind; [|intros ?]
  | |- runs _ (if _ then _ else _) _ => apply keep_if
  | |- runs _ (match ?x with _ => _ end) _ => destruct x
  | |- runs _ (let (_, _) := ?x in _) _ => destruct x
  end.

Section NewServer.
Context {E : Type} {HN : NetEnv E} {HE : Env E} {HA : Alone E}.
Context (heap : Z -> bool) (iconv : list Z -> list Z -> list Z) (rest : config).
Context (n0 : net).
Hypothesis (Hlisted : Forall (fun q => is_Some (servers n0 !! q)) (server_base n0)).
Abbreviation runs := (runs (E := E)).
Abbreviation own := (own n0).
Abbreviation plain := (plain n0).

Lemma disconnect_runs p b c S : lasting S -> runs (own p b c S) (disconnect_server p) (fun _ => own p b c S).
Proof.
  intros HS. unfold disconnect_server, loop_close_descriptor. keeping.
Qed.

Lemma own_found p b c S n : own p b c S n -> bool_decide (p ∈ server_base n) = b.
Proof.
  intros (H1 & H2 & H3 & _). rewrite H3. destruct b; [apply bool_decide_eq_true; by left|]. apply bool_decide_eq_false. intros Hp.
  eapply Forall_forall in Hlisted; [|exact Hp]. destruct Hlisted as [s Hs]. congruence.
Qed.

Lemma own_plain p c S n : own p false c S n -> plain n.
Proof. by intros (H1 & H2 & H3 & _). Qed.

Lemma release_runs p c : runs (own p false c (fun _ => True)) (afp_server_release p) (fun _ => plain).
Proof.
  intros n e (H1 & H2 & H3 & s & Hs & Hr & _). unfold afp_server_release, update, nbind, deref. cbn [fst]. rewrite Hs. cbn.
  rewrite lookup_alter_eq, Hs. cbn. rewrite Hr. change (1 - 1 =? 0) with true. cbv iota.
  unfold afp_free_server, nbind, deref. cbn [fst update_server set_servers servers]. rewrite lookup_alter_eq, Hs. cbn [fmap option_fmap option_map].
  eexists _, _, _. split; [done|]. split; [|done]. intros q s1 Hq. cbn. rewrite lookup_delete_ne, lookup_alter_ne by congruence. by apply H1.
Qed.

(** A new server is freed when it is removed, if it was listed. *)
Lemma remove_runs p b c : runs (own p b c (fun _ => True)) (afp_server_remove p) (fun _ => plain).
Proof.
  unfold afp_server_remove, section. eapply runs_bind with (Q1 := fun found n => own p false (c && negb b) (fun _ => True) n /\ found = b).
  { eapply runs_bind; [apply runs_call|]. intros ? n e Hn. pose proof (own_found _ _ _ _ _ Hn) as Ef. unfold unlink_server. cbn [fst].
    rewrite Ef. destruct Hn as (H1 & H2 & H3 & s & Hs & Hr & Hf & _). destruct b; eexists _, _, _; (split; [done|]); (split; [|done]).
    - split_and!; try done; cbn.
      + intros q s1 Hq. cbn. rewrite lookup_alter_ne by congruence. by apply H1.
      + rewrite H3. cbn. by rewrite Z.eqb_refl.
      + eexists. rewrite lookup_alter_eq, Hs. split_and!; try done. by rewrite andb_false_r.
    - split_and!; try done. exists s. by rewrite andb_true_r. }
  intros found. apply runs_pure. intros ->. destruct b; cbn [negb].
  - eapply runs_bind; [by apply disconnect_runs|]. intros ?. eapply runs_bind; [apply release_runs|]. intros ?. by apply runs_ret.
  - apply runs_ret. intros n. apply own_plain.
Qed.

Lemma init_runs address :
  runs plain (afp_server_init address) (fun o n => match o with Some p => own p false true (eq (blank_server address)) n | None => plain n end).
Proof.
  unfold afp_server_init. eapply runs_bind; [apply runs_call|]. intros [p|]; [|by apply runs_ret].
  eapply runs_bind; [apply runs_call|]. intros [q|]; [|by apply runs_ret].
  intros n e Hn. unfold nbind, nget, nset, nret. cbn [fst snd]. destruct (bool_decide _) eqn:Eb; [by eexists _, _, _|].
  apply bool_decide_eq_false in Eb. rewrite <- eq_None_not_Some in Eb. destruct Hn as [H1 H2]. eexists _, _, _. split; [done|].
  assert (H0 : servers n0 !! p = None) by (destruct (servers n0 !! p) as [s|] eqn:E0; [apply H1 in E0; congruence|done]).
  split_and!; try done.
  - intros r s Hr. cbn [servers set_servers]. rewrite lookup_insert_ne by congruence. by apply H1.
  - exists (blank_server address). cbn [servers set_servers]. by rewrite lookup_insert_eq.
Qed.

Lemma addresses_runs p b c S addresses : lasting S -> runs (own p b c S) (try_addresses addresses) (fun _ => own p b c S).
Proof.
  intros HS. induction addresses as [|a next IH]; cbn [try_addresses]; [apply keep_ret|].
  unfold connect_with_timeout, or_errno. keeping; exact IH.
Qed.

(** A new server is listed with its descriptor. *)
Lemma publish_runs p d a S : lasting S ->
  runs (own p false true S) (publish p d a) (fun ok n => own p ok (negb ok) S n).
Proof.
  intros HS. unfold publish. eapply runs_bind; [apply runs_call|]. intros ?. eapply runs_bind; [apply keep_deref|]. intros s.
  destruct (connect_state (s_link s) =? SERVER_STATE_DESTROYED); [by apply runs_ret|].
  intros n e Hn. pose proof (own_found _ _ _ _ _ Hn) as Ef. destruct Hn as (H1 & H2 & H3 & s1 & Hs & Hr & _ & HS1).
  unfold update, nbind, deref, nset, add_fd_and_signal. cbn [fst]. rewrite Hs. cbn [fst snd nret update_server set_servers server_base]. rewrite Ef.
  eexists _, _, _. split; [done|]. cbn [negb]. split_and!.
  - intros q s2 Hq. cbn. rewrite lookup_alter_ne by congruence. by apply H1.
  - done.
  - cbn. by rewrite H3.
  - eexists. unfold add_fd, update_server. cbn [fst servers set_base set_loop set_servers]. rewrite lookup_alter_eq, Hs. split_and!; [done|done|done|]. by apply (HS s1).
Qed.

(** Listed with a descriptor, or neither. *)
Definition either (p : Z) (S : afp_server -> Prop) (n : net) : Prop := exists b, own p b (negb b) S n.

Lemma runs_either p S {A} (m : N E A) Q : (forall b, runs (own p b (negb b) S) m Q) -> runs (either p S) m Q.
Proof. intros Hm n e [b Hb]. by apply (Hm b). Qed.

Lemma runs_from (W W1 : net -> Prop) {A} (m : N E A) (Q : A -> net -> Prop) : (forall n, W n -> W1 n) -> runs W1 m Q -> runs W m Q.
Proof. intros HW Hm n e Hn. by apply Hm, HW. Qed.

Lemma runs_to (W : net -> Prop) {A} (m : N E A) (Q Q' : A -> net -> Prop) : (forall a n, Q a n -> Q' a n) -> runs W m Q -> runs W m Q'.
Proof. intros HQ Hm n e Hn. destruct (Hm n e Hn) as (a & n' & e' & Em & Ha). exists a, n', e'. split; [done|by apply HQ]. Qed.

Context (R : list Z -> Prop) (HR : answers_status E R).

(** The status a reply with [R] gives, read over the one before. *)
Definition read_over (S S' : afp_server -> Prop) : Prop :=
  forall s bytes, R bytes -> S s -> S' (set_status (afpc_dsi_getstatus_reply heap iconv bytes (zlen bytes) (s_status s)) s).

Lemma runs_getstatus (W : net -> Prop) p :
  runs W (ncall (Getstatus p)) (fun a n => W n /\ forall bytes, snd a = Some bytes -> R bytes).
Proof.
  intros n e Hn. unfold ncall. pose proof (alone _ (Getstatus p) n e) as Hc. pose proof (HR p (n, e)) as Hr.
  destruct (answer_net (Getstatus p) (n, e)) as [a [n' e']]. cbn [fst snd] in *. subst n'. by exists a, n, e'.
Qed.

Lemma status_runs p b c S S' : lasting S' -> (forall s, S s -> S' s) -> read_over S S' ->
  runs (own p b c S) (read_status heap iconv p) (fun _ => own p b c S').
Proof.
  intros HS' Hi Hread. unfold read_status. eapply runs_bind; [apply runs_call|]. intros [s1 u1].
  eapply runs_bind; [apply runs_getstatus|]. intros [error reply]. cbn [snd]. apply runs_pure. intros Hr.
  eapply runs_bind with (Q1 := fun _ => own p b c S'); [|intros ?; unfold identify; keeping].
  destruct reply as [bytes|].
  - apply runs_update; [|done|done]. intros s Hs. apply Hread; [by apply Hr|done].
  - apply runs_ret. intros n (H1 & H2 & H3 & s & Hs & H4 & H5 & H6). split_and!; try done. exists s. split_and!; auto.
Qed.

Lemma connect_runs p full S S' : lasting S -> lasting S' -> (forall s, S s -> S' s) -> read_over S S' ->
  runs (own p false true S) (afp_server_connect heap iconv p full) (fun _ => either p S').
Proof.
  intros HS HS' Hi Hread. unfold afp_server_connect. eapply runs_bind; [apply keep_deref|]. intros s.
  assert (Hw : forall b n, own p b (negb b) S n -> either p S' n).
  { intros b n (H1 & H2 & H3 & s' & Hs' & H4 & H5 & H6). exists b. split_and!; try done. exists s'. split_and!; auto. }
  eapply runs_bind; [keeping|]. intros ?. eapply runs_bind; [unfold loop_close_descriptor; keeping|]. intros ?.
  eapply runs_bind; [by apply addresses_runs|]. intros [[d addr]|]; [|eapply runs_to; [|keeping]; intros ? ? Ho; by apply (Hw false)].
  eapply runs_bind; [keeping|]. intros ?. eapply runs_bind; [by apply publish_runs|]. intros ok.
  destruct ok; cbn [negb]; [|eapply runs_to; [|keeping]; intros ? ? Ho; by apply (Hw false)].
  destruct full; cbn [negb]; [eapply runs_to; [|by apply (status_runs p true false S S')]|apply runs_ret; intros n; by apply (Hw true)].
  intros ? n Ho. by exists true.
Qed.

Lemma remove_either p S : runs (either p S) (afp_server_remove p) (fun _ => plain).
Proof.
  apply runs_either. intros b n e Hn. apply (remove_runs p b (negb b)). destruct Hn as (H1 & H2 & H3 & s & Hs & Hr & Hf & _). split_and!; try done. by exists s.
Qed.

Lemma login_runs p b c S : lasting S -> runs (own p b c S) (afp_server_login p) (fun _ => own p b c S).
Proof. intros HS. unfold afp_server_login. keeping. Qed.

(** Logged in with this version and method, the password forgotten. *)
Definition logged_in (version : list Z * Z) (uam : Z) (s : afp_server) : Prop :=
  password (s_login s) = [] /\ using_version_ (s_login s) = Some version /\ using_uam (s_login s) = uam.

Lemma logged_in_lasting v u : lasting (logged_in v u).
Proof. intros s s' El _. unfold logged_in. by rewrite El. Qed.

(** A connection that succeeds. *)
Definition connected (p : Z) (versions : list Z) (uams requested mask : Z) (n : net) : Prop :=
  exists version, pick_version versions (u8 requested) = Some version
  /\ own p true false (fun s => logged_in version (pick_uam uams mask) s /\ connect_state (s_link s) = SERVER_STATE_CONNECTED /\ 0 <= fd (s_link s)) n.

Lemma version_runs p b c v u : runs (own p b c (logged_in v u)) (version_in_use p) (fun _ => own p b c (logged_in v u)).
Proof.
  intros n e Hn. destruct (Hn) as (_ & _ & _ & s & Hs & _ & _ & (_ & Hv & _)). exists (snd v), n, e. split; [|done].
  unfold version_in_use. cbn [fst]. rewrite Hs. cbn. by rewrite Hv.
Qed.

Lemma settle_runs p b v u :
  runs (own p b (negb b) (logged_in v u)) (settle_connection p) (fun ok n =>
    if ok then b = true /\ own p true false (fun s => logged_in v u s /\ connect_state (s_link s) = SERVER_STATE_CONNECTED /\ 0 <= fd (s_link s)) n
    else own p b (negb b) (logged_in v u) n).
Proof.
  unfold settle_connection. eapply runs_bind; [apply runs_call|]. intros ?.
  intros n e Hn. destruct (Hn) as (H1 & H2 & H3 & s & Hs & Hr & Hf & HS). unfold nbind at 1, deref. cbn [fst]. rewrite Hs. cbv zeta.
  destruct (_ || _) eqn:Eb; [by exists false, n, e|]. apply orb_false_elim in Eb as [Eb _]. apply orb_false_elim in Eb as [Eb _].
  unfold update, nbind, deref. cbn [fst]. rewrite Hs. cbn. eexists _, _, _. split; [done|].
  assert (b = true) as -> by (destruct b; [done|]; specialize (Hf eq_refl); lia). split; [done|]. split_and!; try done.
  - intros q s1 Hq. cbn. rewrite lookup_alter_ne by congruence. by apply H1.
  - eexists. cbn. rewrite lookup_alter_eq, Hs. split_and!; try done; [by apply (logged_in_lasting v u s)..|cbn; lia].
Qed.

Definition anything (s : afp_server) : Prop := True.

Lemma anything_lasting : lasting anything.
Proof. done. Qed.
#[local] Hint Resolve anything_lasting logged_in_lasting : core.

(** A failure of a step. *)
Lemma fails p b S {A} (f : A -> Z) (a : A) versions uams requested mask :
  runs (own p b (negb b) S) (nret (Some (f a))) (fun failed n => match failed with
    | None => connected p versions uams requested mask n | Some _ => either p anything n end).
Proof. apply runs_ret. intros n (H1 & H2 & H3 & s & Hs & Hr & Hf & _). exists b. split_and!; try done. by exists s. Qed.

Lemma steps_runs p b versions uams requested mask :
  runs (own p b (negb b) anything) (connection_steps p versions uams requested mask) (fun failed n => match failed with
    | None => connected p versions uams requested mask n | Some _ => either p anything n end).
Proof.
  unfold connection_steps. eapply runs_bind; [apply runs_call|]. intros r. destruct (negb (r =? 0)); [apply (fails p b anything id)|]. cbv zeta.
  destruct (pick_version versions (u8 requested)) as [version|] eqn:Ev.
  2: { eapply runs_bind; [by apply (runs_update n0 p b (negb b) anything anything)|]. intros ?. apply (fails p b anything id). }
  eapply runs_bind; [apply (runs_update n0 p b (negb b) anything (fun s => using_version_ (s_login s) = Some version)); done|]. intros ?.
  destruct (pick_uam uams mask =? -1) eqn:Eu; [apply (fails p b _ id)|].
  set (S1 := fun s => using_version_ (s_login s) = Some version /\ using_uam (s_login s) = pick_uam uams mask).
  assert (HS1 : lasting S1) by (intros s s' El _; unfold S1; by rewrite El).
  eapply runs_bind; [by apply (runs_update n0 p b (negb b) _ S1)|]. intros ?. eapply runs_bind; [by apply login_runs|]. intros r'.
  eapply runs_bind; [apply (runs_update n0 p b (negb b) S1 (logged_in version (pick_uam uams mask))); [by intros s []|done|done]|]. intros ?.
  destruct (negb (r' =? 0)); [apply (fails p b _ id)|]. set (S2 := logged_in version (pick_uam uams mask)). assert (HS2 : lasting S2) by apply logged_in_lasting.
  eapply runs_bind; [apply runs_call|]. intros [rc parms]. eapply runs_bind with (Q1 := fun _ => own p b (negb b) S2); [destruct parms as [[t vs]|]; keeping|].
  intros ?. destruct (negb (rc =? 0)); [apply (fails p b _ id)|]. eapply runs_bind; [apply keep_deref|]. intros s.
  eapply runs_bind with (Q1 := fun _ => own p b (negb b) S2); [keeping|]. intros ?. eapply runs_bind; [apply version_runs|]. intros v.
  eapply runs_bind; [apply runs_call|]. intros mesg. eapply runs_bind; [keeping|]. intros ?. eapply runs_bind; [apply settle_runs|].
  intros ok. destruct ok; [|apply (fails p b _ id)]. apply runs_ret. intros n [_ Hn]. by exists version.
Qed.

Lemma errno_plain e : runs plain (set_errno_to e) (fun _ => plain).
Proof. apply runs_set. intros n [H1 H2]. by split. Qed.

Lemma errno_unless_plain e : runs plain (errno_unless_set e) (fun _ => plain).
Proof. apply runs_set. intros n [H1 H2]. by case_match. Qed.

Lemma complete_runs p versions uams user pass requested mask :
  runs (either p anything) (afp_server_complete_connection p versions uams user pass requested mask) (fun ok n =>
    if ok then connected p versions uams requested mask n else plain n).
Proof.
  unfold afp_server_complete_connection. apply runs_either. intros b. eapply runs_bind; [by apply (runs_update n0 p b (negb b) anything anything)|]. intros ?.
  eapply runs_bind; [apply keep_deref|]. intros s. eapply runs_bind; [keeping|]. intros ?. eapply runs_bind; [apply steps_runs|].
  intros [e|]; [|by apply runs_ret]. eapply runs_bind; [apply remove_either|]. intros r. eapply runs_bind; [apply errno_plain|]. intros ?. by apply runs_ret.
Qed.

Lemma identify_connected p versions uams requested mask :
  runs (connected p versions uams requested mask) (identify p) (fun _ => connected p versions uams requested mask).
Proof.
  intros n e (version & Ev & Hn). set (S := fun s => logged_in version (pick_uam uams mask) s /\ connect_state (s_link s) = SERVER_STATE_CONNECTED /\ 0 <= fd (s_link s)) in Hn.
  assert (Hi : runs (own p true false S) (identify p) (fun _ => own p true false S)) by (by apply runs_update).
  destruct (Hi n e Hn) as (a & n' & e' & Em & Hn'). exists a, n', e'. split; [exact Em|by exists version].
Qed.

(** The methods a request allows. *)
Definition allowed (u : afpc_url) (uams mask : Z) : Z :=
  if (((zlen (u_username u) =? 0) && (zlen (u_password u) =? 0)) || list_eqb (u_username u) (str "nobody")) && has uams UAM_NOUSERAUTHENT
  then UAM_NOUSERAUTHENT else mask.

Lemma blank_anything p address n : own p false true (eq (blank_server address)) n -> own p false true anything n.
Proof. intros (H1 & H2 & H3 & s & Hs & Hr & Hf & _). split_and!; try done. by exists s. Qed.

Lemma blank_unread p address n :
  own p false true (eq (blank_server address)) n -> own p false true (fun s => s_status s = blank_status) n.
Proof. intros (H1 & H2 & H3 & s & Hs & Hr & Hf & <-). split_and!; try done. by exists (blank_server address). Qed.

Lemma either_anything p S n : either p S n -> either p anything n.
Proof. intros (b & H1 & H2 & H3 & s & Hs & Hr & Hf & _). exists b. split_and!; try done. by exists s. Qed.

(** The steps of one server, which keep it listed or not. *)
Lemma keep_either p {A} (m : N E A) : (forall b, runs (own p b (negb b) anything) m (fun _ => own p b (negb b) anything)) -> runs (either p anything) m (fun _ => either p anything).
Proof. intros Hm. apply runs_either. intros b. eapply runs_to; [|apply Hm]. intros ? n Hn. by exists b. Qed.

(** A removal after a failure, with its errno. *)
Lemma end_failed p e {A} Q : (forall n, plain n -> Q None n) ->
  runs (either p anything) (afp_server_remove p ;;@ set_errno_to e ;;@ nret (@None A)) Q.
Proof.
  intros HQ. eapply runs_bind; [apply remove_either|]. intros r. eapply runs_bind; [apply errno_plain|]. intros ?. by apply runs_ret.
Qed.

(** The status of a new server: none read yet, or that of a reply. *)
Definition stated (st : server_status) : Prop := st = blank_status \/ exists bytes, R bytes /\ st = parsed heap iconv bytes.

Lemma stated_lasting : lasting (fun s => stated (s_status s)).
Proof. intros s s' _ Es. by rewrite Es. Qed.

Lemma blank_lasting : lasting (fun s => s_status s = blank_status).
Proof. intros s s' _ Es. by rewrite Es. Qed.

Lemma blank_read_over : read_over (fun s => s_status s = blank_status) (fun s => stated (s_status s)).
Proof. intros s bytes Hb Hs. rewrite Hs. right. by exists bytes. Qed.

(** Nothing can be chosen of a status that was not read. *)
Lemma blank_offers_nothing requested : pick_version (ss_versions blank_status) requested = None.
Proof. reflexivity. Qed.

Definition outcome_of (u : afpc_url) (requested mask : Z) (o : option Z) (n : net) : Prop :=
  match o with
  | Some p => exists bytes, R bytes /\ let st := parsed heap iconv bytes in
      connected p (ss_versions st) (ss_supported_uams st) requested (allowed u (ss_supported_uams st) mask) n
  | None => plain n
  end.

Lemma connected_outcome p st u requested mask n : stated st ->
  connected p (ss_versions st) (ss_supported_uams st) requested (allowed u (ss_supported_uams st) mask) n ->
  outcome_of u requested mask (Some p) n.
Proof.
  intros [->|(bytes & Hb & ->)] Hc; [|by exists bytes]. destruct Hc as (v & Ev & _). by rewrite blank_offers_nothing in Ev.
Qed.

(** The session's connection, with the status the first one read. *)
Lemma session_runs u requested mask address st p : stated st ->
  runs (own p false true (eq (blank_server address)))
    (update p (set_requested (strlcpy (u_servername u) AFP_SERVER_NAME_UTF8_LEN) (u_port u)) ;;@
     let@ ret := afp_server_connect heap iconv p false in
     if negb (ret =? 0) then afp_server_remove p ;;@ set_errno_to (- ret) ;;@ nret None
     else
       update p (fun s => set_status (Status (ss_machine_type st) (ss_versions (s_status s)) (ss_supported_uams st)
         (ss_icon st) (ss_flags (s_status s)) (ss_name st) (ss_signature st) (ss_name_utf8 st) (ss_printable st)) s) ;;@
       identify p ;;@
       let@ ok := afp_server_complete_connection p (ss_versions st) (ss_supported_uams st) (u_username u) (u_password u) requested
                    (allowed u (ss_supported_uams st) mask) in
       if ok : bool then identify p ;;@ nret (Some p) else nret None) (outcome_of u requested mask).
Proof.
  intros Hst. eapply runs_from; [apply blank_anything|].
  eapply runs_bind; [by apply (runs_update n0 p false true anything anything)|]. intros ?.
  eapply runs_bind; [by apply (connect_runs p false anything anything)|].
  intros ret. destruct (negb (ret =? 0)); [by apply end_failed|].
  eapply runs_bind; [apply keep_either; intros b; by apply runs_update|]. intros ?. eapply runs_bind; [apply keep_either; intros b; by apply runs_update|].
  intros ?. eapply runs_bind; [apply complete_runs|]. intros ok. destruct ok; [|by apply runs_ret].
  eapply runs_bind; [apply identify_connected|]. intros ?. apply runs_ret. intros n. by apply connected_outcome.
Qed.

Lemma full_connect_runs u requested mask : runs plain (afp_server_full_connect heap iconv u requested mask) (outcome_of u requested mask).
Proof.
  unfold afp_server_full_connect. eapply runs_bind; [apply runs_call|]. intros [address|]; [|by apply runs_ret].
  eapply runs_bind; [apply init_runs|]. intros [tmp|]; [|by apply runs_ret].
  eapply runs_bind with (Q1 := fun _ => either tmp (fun s => stated (s_status s))).
  { eapply runs_from; [apply blank_unread|]. apply (connect_runs tmp true _ _ blank_lasting stated_lasting); [by left|apply blank_read_over]. }
  intros ret. destruct (ret <? 0).
  { eapply runs_from; [apply either_anything|]. by apply end_failed. }
  eapply runs_bind with (Q1 := fun _ => either tmp (fun s => stated (s_status s))).
  { apply runs_either. intros b. eapply runs_to; [|apply disconnect_runs, stated_lasting]. intros ? n Hn. by exists b. }
  intros ?. eapply runs_bind with (Q1 := fun t n => either tmp anything n /\ stated (s_status t)).
  { apply runs_either. intros b. eapply runs_to; [|apply runs_deref]. intros t n (Ho & _ & _ & Ht). split; [|done].
    apply (either_anything tmp (fun s => stated (s_status s))). by exists b. }
  intros t. apply runs_pure. intros Ht. cbv zeta.
  eapply runs_bind; [apply remove_either|]. intros r. eapply runs_bind; [apply init_runs|].
  intros [p|]; [by apply session_runs|eapply runs_bind; [apply errno_unless_plain|]; intros ?; by apply runs_ret].
Qed.

End NewServer.

(** C17: the outcome of a new connection. Whatever the network answers, and
    while no other thread changes the servers, a connection ends without using
    a server that is not allocated, and the servers from before are as they
    were. A failure leaves the list as it was. A success puts one server on the
    list, connected, with a descriptor and one reference and without the
    password, logged in with the version and the method the client chooses of
    those a status reply of the network offers (pick_version, pick_uam). [R] is
    any property of the status replies the network gives. *)
Theorem connection_outcome {E} {HN : NetEnv E} {HE : Env E} {HA : Alone E} heap iconv (R : list Z -> Prop) u requested mask n (e : E) :
  answers_status E R ->
  Forall (fun q => is_Some (servers n !! q)) (server_base n) ->
  exists o n' e', afp_server_full_connect heap iconv u requested mask (n, e) = (Some o, (n', e'))
    /\ (forall q s, servers n !! q = Some s -> servers n' !! q = Some s)
    /\ match o with
       | None => server_base n' = server_base n
       | Some p => server_base n' = p :: server_base n
           /\ exists s, servers n' !! p = Some s /\ connect_state (s_link s) = SERVER_STATE_CONNECTED /\ 0 <= fd (s_link s)
              /\ refcount (s_link s) = 1 /\ password (s_login s) = []
              /\ exists reply version, R reply /\ let st := afpc_dsi_getstatus_reply heap iconv reply (zlen reply) blank_status in
                   pick_version (ss_versions st) (u8 requested) = Some version /\ using_version_ (s_login s) = Some version
                   /\ using_uam (s_login s) = pick_uam (ss_supported_uams st) (allowed u (ss_supported_uams st) mask)
       end.
Proof.
  intros HR Hl. destruct (full_connect_runs heap iconv n Hl R HR u requested mask n e) as (o & n' & e' & Em & Ho); [split; [by intros q s|done]|].
  exists o, n', e'. split; [done|]. destruct o as [p|]; [|by destruct Ho].
  destruct Ho as (reply & Hreply & version & Ev & H1 & _ & H3 & s & Hs & Hr & _ & (Hp & Hv & Hu) & Hc & Hf). split; [done|]. split; [done|].
  exists s. split_and!; try done. by exists reply, version.
Qed.

#[local] Existing Instances answering_net silent_files.

#[local] Instance answering_alone : Alone unit.
Proof. done. Qed.

Definition some_url : afpc_url := Url (str "u") [] (str "p") (str "h") 548 [] empty_path.

Definition offered : server_status := afpc_dsi_getstatus_reply (fun _ => true) (fun a _ => a) status_reply (zlen status_reply) blank_status.

(** A connection beside a server that is listed already, to one whose only
    status reply is [status_reply]. *)
Lemma connection_outcome_witness :
  exists n' e', afp_server_full_connect (fun _ => true) (fun a _ => a) some_url 0 0x1ff (one_lost, tt) = (Some (Some 7), (n', e'))
     /\ server_base n' = [7; 1]
     /\ exists s version, servers n' !! 7 = Some s /\ pick_version (ss_versions offered) 0 = Some version
        /\ using_version_ (s_login s) = Some version /\ using_uam (s_login s) = pick_uam (ss_supported_uams offered) 0x1ff.
Proof.
  destruct (connection_outcome (fun _ => true) (fun a _ => a) (eq status_reply) some_url 0 0x1ff one_lost tt)
    as (o & n' & e' & H1 & _ & H2).
  - intros p w bytes. cbn. by intros [= <-].
  - apply List.Forall_cons; [exists lost_server; reflexivity|apply List.Forall_nil].
  - assert (o = Some 7) as ->.
    { apply (f_equal fst) in H1. cbn [fst] in H1. vm_compute in H1. by injection H1 as <-. }
    exists n', e'. split; [exact H1|]. destruct H2 as (H2 & s & Hs & _ & _ & _ & _ & reply & version & <- & Hv).
    split; [exact H2|]. exists s, version. split; [exact Hs|]. exact Hv.
Defined.
