(* ===== verification/Sessions.v ===== *)
(** The handlers of afpsld for sessions and volumes (src/daemon/commands.c):
    connect, attach, detach, disconnect, getvolid, getvols, serverinfo,
    changepw and exit, as programs over the servers of [Servers] and the table
    of open files.

    A request is the memory behind the client's packet, as in [Daemon]; its
    structures are those of stateless_ipc.h and types.h on a 64-bit
    little-endian machine. *)
From stdpp Require Import base list gmap.
From S2P Require Import Prelude AfpProtocol Path Uams Status Listing World DidCache ForkList Identify Url Ipc Daemon Servers.
Local Open Scope afp_scope.

Definition AFPSL_IPC_COMMAND_ATTACH : Z := 2.
Definition AFPSL_IPC_COMMAND_DETACH : Z := 3.
Definition AFPSL_IPC_COMMAND_EXIT : Z := 12.
Definition AFPSL_IPC_COMMAND_CONNECT : Z := 14.
Definition AFPSL_IPC_COMMAND_GETVOLID : Z := 16.
Definition AFPSL_IPC_COMMAND_GETVOLS : Z := 20.
Definition AFPSL_IPC_COMMAND_SERVERINFO : Z := 25.
Definition AFPSL_IPC_COMMAND_DISCONNECT : Z := 37.
Definition AFPSL_IPC_COMMAND_CHANGEPW : Z := 38.
Definition AFPSL_IPC_RESULT_ERROR_UNKNOWN : Z := 10.
Definition AFPSL_IPC_CONNECT_RESUME_EXISTING : Z := 1.
Definition ENONET : Z := 64.
Definition ENETUNREACH : Z := 101.

(** ** Requests and answers *)

(** A text field of [len] bytes, whose last the handler makes a NUL. *)
Definition text_at (mem : list Z) (off len : Z) : list Z := until_nul (sub off (len - 1) mem).

(** The fields of struct afpc_url at [off]; its path is not looked at. *)
Definition url_at (mem : list Z) (off : Z) : afpc_url :=
  Url (text_at mem (off + 4) AFP_MAX_USERNAME_LEN) (text_at mem (off + 131) 50) (text_at mem (off + 181) AFP_MAX_PASSWORD_LEN)
    (text_at mem (off + 308) AFP_SERVER_NAME_UTF8_LEN) (i32 (le_at mem (off + 564) 4))
    (text_at mem (off + 568) AFP_VOLUME_NAME_UTF8_LEN) empty_path.
Definition url_requested_version (mem : list Z) (off : Z) : Z := i32 (le_at mem (off + 840) 4).
Definition url_volpassword (mem : list Z) (off : Z) : list Z := text_at mem (off + 876) (AFP_VOLPASS_LEN + 1).

Definition CONNECT_REQUEST : Z := 912.
Definition ATTACH_REQUEST : Z := 920.
Definition DISCONNECT_REQUEST : Z := 24.
Definition GETVOLID_REQUEST : Z := 912.
Definition GETVOLS_REQUEST : Z := 920.
Definition GETVOLS_RESPONSE : Z := 16.
Definition SERVERINFO_REQUEST : Z := 904.
Definition CHANGEPW_REQUEST : Z := 1160.

(** An array of [n] bytes that holds [l]. *)
Definition sized (n : Z) (l : list Z) : list Z := take (Z.to_nat n) (l ++ zero_bytes n).

(** What snprintf leaves of a text in [n] bytes. *)
Definition snprintf (n : Z) (text : list Z) : list Z := take (Z.to_nat (n - 1)) text ++ [0].

Definition server_type_number (t : server_type_t) : Z :=
  match t with
  | AFPC_SERVER_TYPE_UNKNOWN => 0 | AFPC_SERVER_TYPE_NETATALK => 1 | AFPC_SERVER_TYPE_AIRPORT => 2
  | AFPC_SERVER_TYPE_MACINTOSH => 3 | AFPC_SERVER_TYPE_TIMECAPSULE => 4 | AFPC_SERVER_TYPE_WINDOWS => 5
  end.

(** struct afpc_server_info; a machine type of sixteen characters loses its last. *)
Definition afp_server_fill_basic (s : afp_server) : list Z :=
  let st := s_status s in
  sized AFP_SERVER_NAME_UTF8_LEN (ss_printable st) ++ sized (AFP_MACHINETYPE_LEN - 1) (ss_machine_type st) ++ [0]
  ++ sized AFP_SERVER_ICON_LEN (ss_icon st) ++ sized AFP_SIGNATURE_LEN (ss_signature st) ++ sized SERVER_MAX_VERSIONS (ss_versions st)
  ++ zero_bytes 3 ++ le_put 4 (ss_supported_uams st) ++ le_put 2 (ss_flags st) ++ zero_bytes 2
  ++ le_put 4 (server_type_number (fst (fst (s_identified s)))).

(** The rest of an answer to connect. *)
Definition connect_body (error serverid : Z) (loginmesg : list Z) : list Z :=
  le_put 8 serverid ++ sized AFP_LOGINMESG_LEN loginmesg ++ le_put 4 error ++ zero_bytes 4.

(** The result for the errno of a connection that failed. *)
Definition connect_result (error : Z) : Z :=
  if (error =? EACCES) || (error =? EPERM) then AFPSL_IPC_RESULT_NOAUTHENT
  else if error =? ETIMEDOUT then AFPSL_IPC_RESULT_TIMEDOUT
  else if (error =? ENONET) || (error =? ENETUNREACH) || (error =? EHOSTUNREACH) || (error =? ECONNREFUSED) then AFPSL_IPC_RESULT_NOSERVER
  else AFPSL_IPC_RESULT_ERROR.

(** ** Which session a request may use *)

(** A scan passes a server by, has a doubt about its identity, or takes it. *)
Inductive verdict : Set := Pass | Doubt | Fits.

(** The server taken, if a doubt was met, and if a second one was taken, which ends the scan. *)
Fixpoint scan (look : afp_server -> verdict) (h : gmap Z afp_server) (base : list Z) (found : option Z) (doubt : bool) : option Z * bool * bool :=
  match base with
  | [] => (found, doubt, false)
  | p :: next =>
      match look <$> h !! p with
      | Some Fits => match found with Some _ => (Some p, doubt, true) | None => scan look h next (Some p) doubt end
      | Some Doubt => scan look h next found true
      | _ => scan look h next found doubt
      end
  end.

(** One server, or the errno. *)
Definition one_of (r : option Z * bool * bool) : option Z * Z :=
  match r with
  | (Some p, _, false) => (Some p, ENOTCONN)
  | (_, doubt, many) => (None, if many : bool then EEXIST else if doubt : bool then EPROTO else ENOTCONN)
  end.

Definition is_connected (s : afp_server) : bool := (connect_state (s_link s) =? SERVER_STATE_CONNECTED) && (fd (s_link s) >=? 0).

Definition uam_refused (s : afp_server) (uam_mask : Z) : bool :=
  negb (uam_mask =? 0) && negb (using_uam (s_login s) =? 0) && negb (has (using_uam (s_login s)) uam_mask).

Definition server_address_matches (s : afp_server) (address : list addrinfo) : bool := same_address (used_address (s_link s)) address.

Definition server_auth_matches_reconnect (s : afp_server) (u : afpc_url) (uam_mask : Z) : bool :=
  list_eqb (username (s_login s)) (u_username u) && negb (uam_refused s uam_mask).

Definition look_resumable (address : list addrinfo) (u : afpc_url) (uam_mask : Z) (s : afp_server) : verdict :=
  if negb (is_connected s) then Pass
  else if negb (server_address_matches s address) then Pass
  else if (negb (zlen (u_username u) =? 0) && negb (list_eqb (username (s_login s)) (u_username u))) || uam_refused s uam_mask then Pass
  else if negb (afp_server_has_valid_signature s) then Doubt
  else Fits.

Definition was_disconnected (s : afp_server) : bool := (connect_state (s_link s) =? SERVER_STATE_DISCONNECTED) && (fd (s_link s) <? 0).

Definition look_disconnected (address : list addrinfo) (signature : list Z) (u : afpc_url) (uam_mask : Z) (s : afp_server) : verdict :=
  if negb (was_disconnected s) then Pass
  else if negb (server_auth_matches_reconnect s u uam_mask) then Pass
  else if negb (afp_server_has_valid_signature s) || negb (list_eqb (ss_signature (s_status s)) signature)
  then if server_address_matches s address || ((requested_port s =? u_port u) && strcasecmp_eq (requested_hostname s) (u_servername u))
       then Doubt else Pass
  else Fits.

(** ** The handlers *)

(** The open files' handles: a record and its volume. *)
Definition handle_table : Type := gmap Z (Z * (Z * Z)).

(** The environment of the servers keeps the handles as they are. *)
#[export] Instance table_net {E} {HN : NetEnv E} : NetEnv (handle_table * E) := fun A c s =>
  let '(n, (t, e)) := s in let '(a, (n', e')) := answer_net c (n, e) in (a, (n', (t, e'))).
#[export] Instance table_files {E} {HE : Env E} : Env (handle_table * E) := fun A c s =>
  let (a, e') := handle c (snd s) in (a, (fst s, e')).

Section SessionHandlers.
Context {E : Type} {HN : NetEnv E} {HE : Env E}.
Context (heap : Z -> bool) (iconv : list Z -> list Z -> list Z) (rest : config).
(** What is in memory that nothing has set, and the addresses of volumes. *)
Context (stale : list Z) (volume_address : Z * Z -> Z) (volume_of : Z -> Z * Z).

Abbreviation S := (N (handle_table * E)).

(** release_volume_handles, of the volumes of [Servers]. *)
Definition release_handles (id : Z * Z) : S unit := fun s =>
  let '(n, (t, e)) := s in
  let mine := filter (fun h => snd (snd h) = id) (map_to_list t) in
  let freed v := filter (fun p => is_pseudo_file (default null_fork (forks v !! p)) = true) (map (fun h => fst (snd h)) mine) in
  let free_in v := set_files (set_forks (foldr delete (forks (v_files v)) (freed (v_files v))) (v_files v)) v in
  (Some tt, (update_server (fst id) (fun sv => set_volumes (alter free_in (Z.to_nat (snd id)) (s_volumes sv)) sv) n,
             (filter (fun h => snd (snd h) <> id) t, e))).

Definition find_resumable_server_hold (u : afpc_url) (uam_mask : Z) : S (option Z * Z) :=
  let@ address := ncall (Getaddrinfo (u_servername u) (u_port u)) in
  section (fun n =>
    match one_of (scan (look_resumable (default [] address) u uam_mask) (servers n) (server_base n) None false) with
    | (Some p, e) => ((Some p, e), update_server p (on_link (fun l => set_refcount (refcount l + 1) l)) n)
    | r => (r, n)
    end).

(** Also the addresses the server now has. *)
Definition find_disconnected_server_hold (u : afpc_url) (uam_mask : Z) : S (option (Z * list addrinfo) * Z) :=
  let@ address := ncall (Getaddrinfo (u_servername u) (u_port u)) in
  match address with
  | None => nret (None, ENOTCONN)
  | Some address =>
      let@ possible := section (fun n =>
        (existsb (fun p => match servers n !! p with
                           | Some s => was_disconnected s && server_auth_matches_reconnect s u uam_mask
                           | None => false
                           end) (server_base n), n)) in
      if negb possible then nret (None, ENOTCONN)
      else
        let@ signature := afp_server_probe_signature heap iconv address in
        match signature with
        | None => let@ e := nget errno in nret (None, if e =? EPROTO then EPROTO else ENOTCONN)
        | Some signature =>
            section (fun n =>
              match one_of (scan (look_disconnected address signature u uam_mask) (servers n) (server_base n) None false) with
              | (Some p, e) => ((Some (p, address), e), update_server p (on_link (fun l => set_refcount (refcount l + 1) l)) n)
              | (None, e) => ((None, e), n)
              end)
        end
  end.

Definition reconnect_disconnected_server (p : Z) (u : afpc_url) (address : list addrinfo) : S Z :=
  afp_server_replace_address p address ;;@
  update p (fun s => let l := s_login s in
    set_login (LoginState (username l) (strlcpy (u_password u) AFP_MAX_PASSWORD_LEN) (requested_version l) (using_version_ l) (using_uam l)) s) ;;@
  set_errno_to 0 ;;@
  let@ ret := afp_server_reconnect heap iconv rest p in
  update p no_password ;;@
  nret ret.

(** The answer that names a server. *)
Definition session_answer (mem : list Z) (result error p : Z) : S outcome :=
  let@ s := deref p in nret (answer mem result (connect_body error p (s_loginmesg s))).

Definition process_connect (size : Z) (mem : list Z) : S outcome :=
  if size <? CONNECT_REQUEST then nret (Refuse (-1))
  else
    let u := url_at mem 16 in
    let uam_mask := le_at mem 904 4 in
    let fail error := nret (answer mem (connect_result error) (connect_body error 0 [])) in
    if has (le_at mem 908 4) AFPSL_IPC_CONNECT_RESUME_EXISTING then
      if negb (zlen (u_password u) =? 0) then fail EACCES
      else
        let@ (s, error) := find_resumable_server_hold u uam_mask in
        match s with
        | None => fail error
        | Some p => let@ o := session_answer mem AFPSL_IPC_RESULT_ALREADY_CONNECTED error p in afp_server_release p ;;@ nret o
        end
    else
      let@ (s, error) := find_disconnected_server_hold u uam_mask in
      match s with
      | Some (p, address) =>
          let@ r := reconnect_disconnected_server p u address in
          if r =? 0 then let@ o := session_answer mem AFPSL_IPC_RESULT_OK error p in afp_server_release p ;;@ nret o
          else let@ e := nget errno in afp_server_release p ;;@ fail (if negb (e =? 0) then e else ECONNRESET)
      | None =>
          if (error =? EEXIST) || (error =? EPROTO) then fail error
          else
            let@ s := afp_server_full_connect heap iconv u (url_requested_version mem 16) uam_mask in
            match s with
            | None => let@ e := nget errno in fail e
            | Some p => session_answer mem AFPSL_IPC_RESULT_OK error p
            end
      end.

(** The volume's place, or the result. *)
Definition command_sub_attach_volume (p : Z) (volname volpassword : list Z) : S (option Z * Z) :=
  let@ i := find_volume_by_name heap p volname in
  match i with
  | None => nret (None, AFPSL_IPC_RESULT_NOVOLUME)
  | Some i =>
      let@ v := volume_at p i in
      if attach_state v =? AFP_VOLUME_ATTACHED then nret (None, AFPSL_IPC_RESULT_ALREADY_ATTACHED)
      else if has (v_flags v) HasPassword && (zlen volpassword =? 0) then nret (None, AFPSL_IPC_RESULT_VOLPASS_NEEDED)
      else
        update_volume p i (set_volpassword (if has (v_flags v) HasPassword then take (Z.to_nat AFP_VOLPASS_LEN) volpassword else [])) ;;@
        let@ r := afp_connect_volume heap rest p i in
        if negb (r =? 0) then nret (None, AFPSL_IPC_RESULT_ERROR_UNKNOWN)
        else
          ncall (DetectMapping p i) ;;@
          let@ (now, _) := ncall NTime in
          update_volume p i (set_mount_time now) ;;@
          nret (Some i, AFPSL_IPC_RESULT_OK)
  end.

(** A volume attached already is found again. *)
Definition attach_volume (p : Z) (volname volpassword : list Z) (options : Z) : S (option Z * Z) :=
  let@ (i, result) := command_sub_attach_volume p volname volpassword in
  let@ (i, result) := (match i with
                       | Some _ => nret (i, result)
                       | None => if result =? AFPSL_IPC_RESULT_ALREADY_ATTACHED
                                 then let@ i := find_volume_by_name heap p volname in
                                      nret (i, match i with Some _ => result | None => AFPSL_IPC_RESULT_ERROR end)
                                 else nret (None, result)
                       end) in
  match i with
  | None => nret (None, result)
  | Some i => update_volume p i (fun v => set_v_extra_flags (Z.lor (v_extra_flags v) options) v) ;;@ nret (Some i, AFPSL_IPC_RESULT_OK)
  end.

Definition process_attach (size : Z) (mem : list Z) : S outcome :=
  let done result address := answer mem result (le_put 8 address) in
  if size <? ATTACH_REQUEST then nret (done AFPSL_IPC_RESULT_ERROR 0)
  else
    let u := url_at mem 24 in
    let@ s := find_server_by_pointer (le_at mem 16 8) in
    match s with
    | None => nret (done AFPSL_IPC_RESULT_NOTCONNECTED 0)
    | Some p =>
        let@ sv := deref p in
        let@ o := (if negb (is_connected sv) then nret (done AFPSL_IPC_RESULT_NOTCONNECTED 0)
                   else let@ (i, result) := attach_volume p (u_volumename u) (url_volpassword mem 24) (le_at mem 912 4) in
                        nret (done result match i with Some i => volume_address (p, i) | None => 0 end)) in
        afp_server_release p ;;@ nret o
    end.

(** The request's length is not looked at; a message fills what it fills of the answer. *)
Definition process_detach (size : Z) (mem : list Z) : S outcome :=
  let done result message := answer mem result (take 1024 (message ++ stale_bytes stale 1024)) in
  let@ id := afp_volume_find_by_pointer_hold (volume_of (le_at mem 16 8)) in
  match id with
  | None => nret (done AFPSL_IPC_RESULT_ERROR (snprintf 1024 (str "No such volume to detach")))
  | Some (p, i) =>
      let@ v := volume_at p i in
      let@ o := (if negb (attach_state v =? AFP_VOLUME_ATTACHED)
                 then nret (done AFPSL_IPC_RESULT_ERROR (snprintf 1024 (v_name v ++ str " was not attached" ++ [10])))
                 else
                   release_handles (p, i) ;;@
                   afp_detach_volume heap rest p i ;;@
                   let@ v := volume_at p i in
                   nret (done AFPSL_IPC_RESULT_OK (snprintf 1023 (str "Detached volume " ++ v_name v ++ str "." ++ [10])))) in
      afp_server_release p ;;@ nret o
  end.

Definition process_disconnect (size : Z) (mem : list Z) : S outcome :=
  let done result := nret (answer mem result []) in
  if size <? DISCONNECT_REQUEST then done AFPSL_IPC_RESULT_ERROR
  else
    let@ s := find_server_by_pointer (le_at mem 16 8) in
    match s with
    | None => done AFPSL_IPC_RESULT_OK
    | Some p =>
        each_volume 255 p 0 (fun i => release_handles (p, i) ;;@ nret false) ;;@
        afp_unmount_all_volumes heap rest p ;;@
        ncall (Logout p) ;;@
        afp_server_remove p ;;@
        afp_server_release p ;;@
        done AFPSL_IPC_RESULT_OK
    end.

(** A failure answers with the bytes that are there. *)
Definition process_getvolid (size : Z) (mem : list Z) : S outcome :=
  let fail result := answer mem result (stale_bytes stale 8) in
  if size <? GETVOLID_REQUEST then nret (fail AFPSL_IPC_RESULT_ERROR)
  else
    let@ s := find_server_by_pointer (le_at mem 16 8) in
    match s with
    | None => nret (fail AFPSL_IPC_RESULT_NOTCONNECTED)
    | Some p =>
        let@ sv := deref p in
        let@ o := (if negb (is_connected sv) then nret (fail AFPSL_IPC_RESULT_NOTCONNECTED)
                   else
                     let@ i := find_volume_by_name heap p (u_volumename (url_at mem 24)) in
                     match i with
                     | None => nret (fail AFPSL_IPC_RESULT_NOVOLUME)
                     | Some i =>
                         let@ v := volume_at p i in
                         nret (if negb (attach_state v =? AFP_VOLUME_ATTACHED) then fail AFPSL_IPC_RESULT_NOTATTACHED
                               else answer mem AFPSL_IPC_RESULT_OK (le_put 8 (volume_address (p, i))))
                     end) in
        afp_server_release p ;;@ nret o
    end.

Definition volume_info (v : afp_volume) : list Z := sized AFP_VOLUME_NAME_UTF8_LEN (v_printable v) ++ [u8 (v_flags v)].

(** The answer to a connected server's volumes; the array of volumes is read
    from [start] on, for as many entries as the answer has. *)
Definition getvols_answer (mem : list Z) (volumes : list afp_volume) (start count : Z) : outcome :=
  let numvols := if u32 count <? zlen volumes then u32 count else zlen volumes in
  if start >? numvols
  then if heap GETVOLS_RESPONSE then answer mem AFPSL_IPC_RESULT_ERROR (zero_bytes 8) else Refuse AFPSL_IPC_RESULT_ERROR
  else if negb (heap (GETVOLS_RESPONSE + numvols * 256)) then Refuse AFPSL_IPC_RESULT_ERROR
  else if (numvols >? 0) && (start + numvols >? zlen volumes) then Undefined
  else answer mem AFPSL_IPC_RESULT_OK (le_put 4 numvols ++ zero_bytes 4 ++ concat (map volume_info (sub start numvols volumes))).

Definition process_getvols (size : Z) (mem : list Z) : S outcome :=
  let fail result := if heap GETVOLS_RESPONSE then answer mem result (zero_bytes 8) else Refuse AFPSL_IPC_RESULT_ERROR in
  let start := i32 (le_at mem 912 4) in
  if (size <? GETVOLS_REQUEST) || (start <? 0) then nret (fail AFPSL_IPC_RESULT_ERROR)
  else
    let@ s := find_server_by_pointer (le_at mem 16 8) in
    match s with
    | None => nret (fail AFPSL_IPC_RESULT_NOTCONNECTED)
    | Some p =>
        let@ sv := deref p in
        let o := if negb (is_connected sv) then fail AFPSL_IPC_RESULT_NOTCONNECTED
                 else getvols_answer mem (s_volumes sv) start (i32 (le_at mem 916 4)) in
        afp_server_release p ;;@ nret o
    end.

(** A server that is not known is asked, over a connection for this request. *)
Definition process_serverinfo (size : Z) (mem : list Z) : S outcome :=
  let fail := answer mem AFPSL_IPC_RESULT_ERROR (zero_bytes 568) in
  let found s := answer mem AFPSL_IPC_RESULT_OK (afp_server_fill_basic s) in
  if size <? SERVERINFO_REQUEST then nret (Refuse AFPSL_IPC_RESULT_ERROR)
  else
    let u := url_at mem 16 in
    let@ s := afp_server_find_by_name_hold (u_servername u) in
    let@ s := (match s with
               | Some p => nret (Some p)
               | None => let@ address := ncall (Getaddrinfo (u_servername u) (u_port u)) in
                         match address with Some address => afp_server_find_by_address_hold address | None => nret None end
               end) in
    match s with
    | Some p => let@ sv := deref p in afp_server_release p ;;@ nret (found sv)
    | None =>
        let@ address := ncall (Getaddrinfo (u_servername u) (u_port u)) in
        match address with
        | None => nret fail
        | Some address =>
            let@ tmp := afp_server_init address in
            match tmp with
            | None => nret fail
            | Some p =>
                let@ r := afp_server_connect heap iconv p true in
                if r <? 0
                then let@ removed := afp_server_remove p in
                     (if removed =? 0 then nret tt else afp_server_release p) ;;@ nret fail
                else let@ sv := deref p in afp_server_remove p ;;@ nret (found sv)
            end
        end
    end.

Definition process_changepw (size : Z) (mem : list Z) : S outcome :=
  let fail result := answer mem result (stale_bytes stale 4) in
  if size <? CHANGEPW_REQUEST then nret (fail AFPSL_IPC_RESULT_ERROR)
  else
    let u := url_at mem 16 in
    let@ s := afp_server_find_by_name_hold (u_servername u) in
    match s with
    | None => nret (fail AFPSL_IPC_RESULT_NOTCONNECTED)
    | Some p =>
        let@ sv := deref p in
        let@ r := ncall (Dopasswd p (using_uam (s_login sv)) (u_username u)
                           (text_at mem 904 AFP_MAX_PASSWORD_LEN) (text_at mem 1031 AFP_MAX_PASSWORD_LEN)) in
        afp_server_release p ;;@
        nret (answer mem (if r =? 0 then AFPSL_IPC_RESULT_OK else AFPSL_IPC_RESULT_ERROR) (le_put 4 r))
    end.

(** The answer always closes; whether the daemon ends, as this is its last client. *)
Definition process_exit (active_clients : Z) : outcome * bool :=
  (Answer (afpsl_ipc_response_header AFPSL_IPC_RESULT_OK RESPONSE_HEADER) true, active_clients =? 1).

(** The handler of a command, of those that work on the servers. *)
Definition session_handler (command : Z) : option (Z -> list Z -> S outcome) :=
  if command =? AFPSL_IPC_COMMAND_SERVERINFO then Some process_serverinfo
  else if command =? AFPSL_IPC_COMMAND_CONNECT then Some process_connect
  else if command =? AFPSL_IPC_COMMAND_ATTACH then Some process_attach
  else if command =? AFPSL_IPC_COMMAND_DETACH then Some process_detach
  else if command =? AFPSL_IPC_COMMAND_GETVOLID then Some process_getvolid
  else if command =? AFPSL_IPC_COMMAND_GETVOLS then Some process_getvols
  else if command =? AFPSL_IPC_COMMAND_DISCONNECT then Some process_disconnect
  else if command =? AFPSL_IPC_COMMAND_CHANGEPW then Some process_changepw
  else None.

End SessionHandlers.
