(* ===== verification/SessionsProofs.v ===== *)
(** The handlers of sessions keep the list of servers: every request is
    answered, and between requests each listed server has the list's reference
    and no other. Which session a resumption takes, and what a list of volumes
    answers. *)
From stdpp Require Import base list gmap.
From S2P Require Import Prelude AfpProtocol Path Codepage Uams Status Listing World DidCache ForkList Identify Url Ipc Daemon Servers ServersProofs ServersConnect Sessions.
Local Open Scope afp_scope.

#[export] Instance table_alone {E} {HN : NetEnv E} {HA : Alone E} : Alone (handle_table * E).
Proof.
  intros A c n [t e]. pose proof (alone A c n e) as Hc. unfold answer_net, table_net, answer_net in *.
  destruct (HN A c (n, e)) as [a [n' e']]. exact Hc.
Qed.

(** ** The list between requests, and while a handler holds a server *)

Definition usable (s : afp_server) : Prop := is_Some (using_version_ (s_login s)).

Definition at_rest (n : net) (q : Z) : Prop := exists s, servers n !! q = Some s /\ refcount (s_link s) = 1 /\ usable s.

(** Each listed server is allocated, has one reference and a version; the
    allocated ones are among [D]. *)
Definition settled (D : Z -> Prop) (n : net) : Prop :=
  NoDup (server_base n) /\ (forall q, q ∈ server_base n -> at_rest n q) /\ (forall q, is_Some (servers n !! q) -> D q).

(** [p], with [k] volumes, has [x] references more; a server that is not listed any more was removed. *)
Definition holding (D : Z -> Prop) (p : Z) (k : nat) (x : Z) (n : net) : Prop :=
  NoDup (server_base n) /\ (forall q, q ∈ server_base n -> q <> p -> at_rest n q) /\ (forall q, is_Some (servers n !! q) -> D q)
  /\ exists s, servers n !! p = Some s /\ refcount (s_link s) = x + (if bool_decide (p ∈ server_base n) then 1 else 0)
     /\ (p ∉ server_base n -> connect_state (s_link s) = SERVER_STATE_DESTROYED) /\ usable s /\ length (s_volumes s) = k.

(** What an update of a held server leaves alone. *)
Definition steady (f : afp_server -> afp_server) : Prop := forall s,
  refcount (s_link (f s)) = refcount (s_link s) /\ using_version_ (s_login (f s)) = using_version_ (s_login s)
  /\ length (s_volumes (f s)) = length (s_volumes s).

Lemma without_first_in p l q : NoDup l -> q ∈ without_first p l <-> q ∈ l /\ q <> p.
Proof. induction 1 as [|y l Hy Hl IH]; cbn [without_first]; [set_solver|]. destruct (y =? p) eqn:Ey; bool_to_prop; set_solver. Qed.

Lemma without_first_distinct p l : NoDup l -> NoDup (without_first p l).
Proof.
  induction 1 as [|y l Hy Hl IH]; cbn [without_first]; [constructor|]. destruct (y =? p); [done|]. constructor; [|done].
  rewrite without_first_in by done. tauto.
Qed.

Lemma first_volume_in test h base p i : first_volume test h base = Some (p, i) -> p ∈ base /\ exists s, h !! p = Some s /\ 0 <= i < zlen (s_volumes s).
Proof.
  induction base as [|q base IH]; cbn [first_volume]; [done|]. destruct (h !! q) as [s|] eqn:Eq; [|intros H%IH; set_solver].
  destruct (List.find _ _) as [[j v]|] eqn:Ef; [|intros H%IH; set_solver]. intros [= -> ->]. split; [by left|]. exists s. split; [done|].
  apply List.find_some in Ef as [Hin _]. apply list_elem_of_In, elem_of_lookup_imap in Hin as (m & w & [= -> ->] & Hm%lookup_lt_Some). unfold zlen. lia.
Qed.

Lemma scan_in look h base found doubt p d m : scan look h base found doubt = (Some p, d, m) -> found = Some p \/ p ∈ base.
Proof.
  revert found doubt. induction base as [|q base IH]; intros found doubt; cbn [scan]; [intros [= -> _ _]; by left|].
  destruct (look <$> h !! q) as [[| |]|]; try (intros H%IH; set_solver).
  destruct found as [f|]; [intros [= -> _ _]; right; by left|intros H%IH; set_solver].
Qed.

Lemma one_of_in look h base p e : one_of (scan look h base None false) = (Some p, e) -> p ∈ base.
Proof.
  destruct (scan look h base None false) as [[[q|] d] m] eqn:Es; cbn [one_of]; [|done]. destruct m; [done|]. intros [= -> _].
  by apply scan_in in Es as [|].
Qed.

Section Held.
Context {E : Type} {HN : NetEnv E} {HE : Env E} {HA : Alone E}.
Context (D : Z -> Prop) (p : Z) (k : nat) (x : Z).
Abbreviation runs := (runs (E := E)).
Abbreviation held_ := (holding D p k x).
Abbreviation keeps m := (runs held_ m (fun _ => held_)).

Lemma held_bind {A B} (m : N E A) (f : A -> N E B) : keeps m -> (forall a, keeps (f a)) -> keeps (nbind m f).
Proof. intros Hm Hf. by apply (runs_bind _ _ _ _ _ Hm). Qed.

Lemma held_ret {A} (a : A) : keeps (nret a).
Proof. by apply runs_ret. Qed.

Lemma keeps_call {A} (c : ncmd A) : keeps (ncall c).
Proof. apply runs_call. Qed.

Lemma held_get {A} (f : net -> A) : keeps (nget f).
Proof. apply runs_get. Qed.

Lemma keeps_rest f : (forall n, servers (f n) = servers n /\ server_base (f n) = server_base n) -> keeps (nset f).
Proof. intros Hf. apply runs_set. intros n. destruct (Hf n) as [E1 E2]. unfold holding, at_rest. by rewrite E1, E2. Qed.

Lemma held_if {A} (b : bool) (m m' : N E A) : keeps m -> keeps m' -> keeps (if b then m else m').
Proof. by destruct b. Qed.

Lemma deref_runs : runs held_ (deref p) (fun s n => held_ n /\ servers n !! p = Some s).
Proof. intros n e Hn. destruct (Hn) as (_ & _ & _ & s & Hs & _). exists s, n, e. unfold deref. cbn [fst]. by rewrite Hs. Qed.

Lemma keeps_deref : keeps (deref p).
Proof. eapply runs_to; [|apply deref_runs]. by intros s n []. Qed.

(** An update of [p] whose new state is right where [p] is not listed. *)
Lemma held_update f n : steady f -> (forall s, servers n !! p = Some s -> connect_state (s_link s) = SERVER_STATE_DESTROYED ->
    connect_state (s_link (f s)) = SERVER_STATE_DESTROYED) -> held_ n -> held_ (update_server p f n).
Proof.
  intros Hf Hd (H1 & H2 & H3 & s & Hs & Hr & Hl & Hu & Hk). destruct (Hf s) as (F1 & F2 & F3). split_and!.
  - done.
  - intros q Hq Hqp. destruct (H2 q Hq Hqp) as (sq & Hsq & ?). exists sq. cbn. rewrite lookup_alter_ne by congruence. done.
  - intros q Hq. apply H3. cbn in Hq. rewrite lookup_alter in Hq. case_decide; [subst|done]. by rewrite Hs.
  - exists (f s). cbn. rewrite lookup_alter_eq, Hs. split_and!; [done|by rewrite F1|intros Hp; by apply Hd, Hl|unfold usable; by rewrite F2|by rewrite F3].
Qed.

Lemma keeps_update f : steady f -> (forall s, connect_state (s_link (f s)) = connect_state (s_link s)) -> keeps (update p f).
Proof. intros Hf Hc. apply held_bind; [apply keeps_deref|]. intros s. apply runs_set. intros n. apply held_update; [done|]. intros s' _ Hs. by rewrite Hc. Qed.

(** A change of the state of a server that was looked at and is not destroyed. *)
Lemma keeps_state s f : steady f -> connect_state (s_link s) <> SERVER_STATE_DESTROYED ->
  runs (fun n => held_ n /\ servers n !! p = Some s) (update p f) (fun _ => held_).
Proof.
  intros Hf Hs n e [Hn Hp]. unfold update, nbind, deref. cbn [fst]. rewrite Hp. eexists _, _, _. split; [done|]. cbn [fst].
  apply held_update; [done| |done]. intros s' Hs' Hd. assert (s' = s) as -> by congruence. done.
Qed.

Lemma place i n : (0 <= i < Z.of_nat k) -> held_ n -> exists s v, servers n !! p = Some s /\ s_volumes s !! Z.to_nat i = Some v.
Proof.
  intros Hi (_ & _ & _ & s & Hs & _ & _ & _ & Hk). destruct (lookup_lt_is_Some_2 (s_volumes s) (Z.to_nat i)) as [v Hv]; [lia|]. by exists s, v.
Qed.

Lemma keeps_volume_at i : 0 <= i < Z.of_nat k -> keeps (volume_at p i).
Proof. intros Hi n e Hn. destruct (place i n Hi Hn) as (s & v & Hs & Hv). exists v, n, e. unfold volume_at. cbn [fst]. rewrite Hs. cbn. by rewrite Hv. Qed.

Lemma steady_volumes (f : afp_server -> list afp_volume -> list afp_volume) : (forall s l, length (f s l) = length l) ->
  steady (fun s => set_volumes (f s (s_volumes s)) s).
Proof. intros Hf s. split_and!; [done|done|apply Hf]. Qed.

Lemma keeps_update_volume i f : 0 <= i < Z.of_nat k -> keeps (update_volume p i f).
Proof.
  intros Hi. apply held_bind; [by apply keeps_volume_at|]. intros ?. apply keeps_update; [|done].
  apply (steady_volumes (fun _ l => alter f (Z.to_nat i) l)). intros _ l. apply length_alter.
Qed.

Lemma keeps_on_files heap rest i {A} (m : config -> M E A) : 0 <= i < Z.of_nat k -> keeps (on_files heap rest p i m).
Proof.
  intros Hi n e Hn. destruct (place i n Hi Hn) as (s & v & Hs & Hv). unfold on_files. cbn [fst]. rewrite Hs, Hv.
  destruct (m _ _) as [a [w e']]. eexists _, _, _. split; [done|]. apply held_update; [|done|done].
  apply (steady_volumes (fun _ l => alter (set_files w) (Z.to_nat i) l)). intros _ l. apply length_alter.
Qed.

Lemma keeps_version : keeps (version_in_use p).
Proof.
  intros n e Hn. destruct (Hn) as (_ & _ & _ & s & Hs & _ & _ & [v Hv] & _). exists (snd v), n, e. unfold version_in_use. cbn [fst]. rewrite Hs. cbn. by rewrite Hv.
Qed.

End Held.

Ltac steadily := intros ?; cbn; repeat case_match; cbn; rewrite ?length_alter, ?length_map; done.

(** Programs on a held server, step by step. *)
Ltac holding_on :=
  cbv zeta;
  repeat match goal with
  | |- ServersConnect.runs _ (nret _) _ => apply held_ret
  | |- ServersConnect.runs _ (ncall _) _ => apply keeps_call
  | |- ServersConnect.runs _ (nget _) _ => apply held_get
  | |- ServersConnect.runs _ (deref _) _ => apply keeps_deref
  | |- ServersConnect.runs _ (version_in_use _) _ => apply keeps_version
  | |- ServersConnect.runs _ (set_errno_to _) _ => by apply keeps_rest
  | |- ServersConnect.runs _ (errno_unless_set _) _ => apply keeps_rest; intros ?; by repeat case_match
  | |- ServersConnect.runs _ (add_fd_and_signal _) _ => by apply keeps_rest
  | |- ServersConnect.runs _ (rm_fd_and_signal _) _ => by apply keeps_rest
  | |- ServersConnect.runs _ (update _ _) _ => apply keeps_update; [steadily|steadily]
  | |- ServersConnect.runs _ (volume_at _ _) _ => by apply keeps_volume_at
  | |- ServersConnect.runs _ (update_volume _ _ _) _ => by apply keeps_update_volume
  | |- ServersConnect.runs _ (on_files _ _ _ _ _) _ => by apply keeps_on_files
  | |- ServersConnect.runs _ (nbind _ _) _ => apply held_bind; [|intros ?]
  | |- ServersConnect.runs _ (if _ then _ else _) _ => apply held_if
  | |- ServersConnect.runs _ (match ?x with _ => _ end) _ => destruct x
  | |- ServersConnect.runs _ (let (_, _) := ?x in _) _ => destruct x
  end.

Section Ends.
Context {E : Type} {HN : NetEnv E} {HE : Env E} {HA : Alone E}.
Context (D : Z -> Prop) (p : Z) (k : nat) (x : Z).
Abbreviation runs := (runs (E := E)).
Abbreviation held_ := (holding D p k x).
Abbreviation keeps m := (runs held_ m (fun _ => held_)).

Lemma keeps_disconnect : keeps (disconnect_server p).
Proof.
  unfold disconnect_server, loop_close_descriptor. do 8 (apply held_bind; [holding_on|intros ?]).
  eapply runs_bind; [apply deref_runs|]. intros s. eapply runs_bind with (Q1 := fun _ => held_); [|intros ?; holding_on].
  destruct (_ && _) eqn:Eb; [|by apply runs_ret; intros n []]. apply keeps_state; [steadily|].
  apply andb_prop in Eb as [_ Eb]. intros Ed. by rewrite Ed in Eb.
Qed.

(** The list's reference becomes the remover's. *)
Lemma unlink_runs : runs held_ (section (unlink_server p)) (fun found => if found then holding D p k (x + 1) else held_).
Proof.
  unfold section. eapply runs_bind; [apply keeps_call|]. intros ? n e Hn. unfold unlink_server. cbn [fst snd].
  destruct (bool_decide (p ∈ server_base n)) eqn:Eb; [|by exists false, n, e]. eexists _, _, _. split; [done|].
  destruct Hn as (H1 & H2 & H3 & s & Hs & Hr & Hl & Hu & Hk). rewrite Eb in Hr. split_and!; cbn.
  - by apply without_first_distinct.
  - intros q Hq Hqp. apply without_first_in in Hq as [Hq _]; [|done]. destruct (H2 q Hq Hqp) as (sq & Hsq & ?). exists sq.
    cbn. rewrite lookup_alter_ne by congruence. done.
  - intros q Hq. apply H3. rewrite lookup_alter in Hq. case_decide; [subst|done]. by rewrite Hs.
  - eexists. rewrite lookup_alter_eq, Hs. split; [done|]. rewrite bool_decide_eq_false_2 by (rewrite without_first_in by done; tauto). cbn. rewrite Hr. split_and!; try done. lia.
Qed.

Lemma release_held : 2 <= x -> runs held_ (afp_server_release p) (fun _ => holding D p k (x - 1)).
Proof.
  intros Hx n e Hn. destruct (Hn) as (H1 & H2 & H3 & s & Hs & Hr & Hl & Hu & Hk). unfold afp_server_release, update, nbind, deref. cbn [fst]. rewrite Hs. cbn.
  rewrite lookup_alter_eq, Hs. cbn. rewrite Hr. replace (_ =? 0) with false by (symmetry; apply Z.eqb_neq; case_bool_decide; lia).
  eexists _, _, _. split; [done|]. split_and!; cbn; [done| |intros q Hq; apply H3|].
  - intros q Hq Hqp. destruct (H2 q Hq Hqp) as (sq & Hsq & ?). exists sq. cbn. rewrite lookup_alter_ne by congruence. done.
  - rewrite lookup_alter in Hq. case_decide; [subst; by rewrite Hs|done].
  - eexists. rewrite lookup_alter_eq, Hs. split; [done|]. cbn. rewrite Hr. split_and!; try done. lia.
Qed.

End Ends.

Section Volumes.
Context {E : Type} {HN : NetEnv E} {HE : Env E} {HA : Alone E}.
Context (heap : Z -> bool) (iconv : list Z -> list Z -> list Z) (rest : config).
Context (D : Z -> Prop) (p : Z) (k : nat).
Abbreviation runs := (runs (E := E)).
Abbreviation held_ := (holding D p k 1).
Abbreviation keeps m := (runs held_ m (fun _ => held_)).

(** The handler's own reference is the last one, if the server is not listed. *)
Lemma release_last : runs held_ (afp_server_release p) (fun _ => settled D).
Proof.
  intros n e (H1 & H2 & H3 & s & Hs & Hr & Hl & Hu & Hk). unfold afp_server_release, update, nbind, deref. cbn [fst]. rewrite Hs. cbn.
  rewrite lookup_alter_eq, Hs. cbn. rewrite Hr. case_bool_decide as Hb.
  - change (1 + 1 - 1 =? 0) with false. cbv iota. eexists _, _, _. split; [done|]. split_and!; cbn; [done| |].
    + intros q Hq. destruct (decide (q = p)) as [->|Hqp].
      * eexists. cbn. rewrite lookup_alter_eq, Hs. split; [done|]. cbn. by rewrite Hr.
      * destruct (H2 q Hq Hqp) as (sq & Hsq & ?). exists sq. cbn. rewrite lookup_alter_ne by congruence. done.
    + intros q Hq. apply H3. rewrite lookup_alter in Hq. case_decide; [subst; by rewrite Hs|done].
  - change (1 + 0 - 1 =? 0) with true. cbv iota. unfold afp_free_server, nbind, deref. cbn [fst servers update_server set_servers]. rewrite lookup_alter_eq, Hs. cbn [fmap option_fmap option_map].
    eexists _, _, _. split; [done|]. split_and!; cbn; [done| |].
    + intros q Hq. assert (q <> p) by congruence. destruct (H2 q Hq H) as (sq & Hsq & ?). exists sq. cbn. rewrite lookup_delete_ne, lookup_alter_ne by congruence. done.
    + intros q Hq. apply H3. destruct (decide (q = p)) as [->|Hqp]; [by rewrite lookup_delete_eq in Hq; destruct Hq|].
      rewrite lookup_delete_ne, lookup_alter_ne in Hq by congruence. done.
Qed.

Lemma keeps_remove : keeps (afp_server_remove p).
Proof.
  unfold afp_server_remove. eapply runs_bind; [apply unlink_runs|]. intros [|]; cbn [negb]; [|apply held_ret].
  eapply runs_bind; [apply keeps_disconnect|]. intros ?. eapply runs_bind; [apply release_held; lia|]. intros ?. apply runs_ret. intros n.
  by change (1 + 1 - 1) with 1.
Qed.

Lemma keeps_detach i : 0 <= i < Z.of_nat k -> keeps (afp_detach_volume heap rest p i).
Proof. intros Hi. unfold afp_detach_volume. holding_on; apply keeps_remove. Qed.

Lemma keeps_each step more : (forall i, 0 <= i < Z.of_nat k -> keeps (step i)) -> forall i, 0 <= i -> keeps (each_volume more p i step).
Proof.
  intros Hs. induction more as [|more IH]; intros i Hi; cbn [each_volume]; (eapply runs_bind; [apply deref_runs|]); intros s;
    (destruct (i <? zlen (s_volumes s)) eqn:El; [|by apply runs_ret; intros n []]); [by apply runs_ret; intros n []|].
  intros n e [Hn Hp]. destruct (Hn) as (_ & _ & _ & s' & Hs' & _ & _ & _ & Hk). assert (s' = s) as -> by congruence.
  eapply (held_bind D p k 1); [apply Hs; unfold zlen in *; lia| |exact Hn]. intros [|]; [apply held_ret|apply IH; lia].
Qed.

Lemma keeps_unmount_all : keeps (afp_unmount_all_volumes heap rest p).
Proof. apply keeps_each; [|done]. intros i Hi. holding_on. by apply keeps_detach. Qed.

Lemma keeps_connect_volume i : 0 <= i < Z.of_nat k -> keeps (afp_connect_volume heap rest p i).
Proof. intros Hi. unfold afp_connect_volume. holding_on. by apply keeps_detach. Qed.

Lemma volume_index_range name vs j i : volume_index name vs j = Some i -> j <= i < j + zlen vs.
Proof.
  revert j. induction vs as [|v vs IH]; intros j; cbn [volume_index]; [done|]. unfold zlen. cbn [length].
  destruct (list_eqb _ _); [intros [= <-]; lia|]. intros H%IH. unfold zlen in H. lia.
Qed.

Lemma find_volume_runs name : runs held_ (find_volume_by_name heap p name) (fun o n => held_ n /\ forall i, o = Some i -> 0 <= i < Z.of_nat k).
Proof.
  unfold find_volume_by_name. destruct (convert_utf8dec_to_utf8pre _ _ _ _) as [r converted]. destruct (negb (r =? 0)); [by apply runs_ret|].
  eapply runs_bind; [apply deref_runs|]. intros s. apply runs_ret. intros n [Hn Hp]. split; [done|]. intros i Hi%volume_index_range.
  destruct Hn as (_ & _ & _ & s' & Hs' & _ & _ & _ & Hk). assert (s' = s) as -> by congruence. unfold zlen in Hi. lia.
Qed.

End Volumes.

(** ** Servers found by the handlers *)

Section Found.
Context {E : Type} {HN : NetEnv E} {HA : Alone E}.
Context (D : Z -> Prop).
Abbreviation runs := (runs (E := E)).

(** A server the handler now holds. *)
Definition taken (D : Z -> Prop) (p : Z) (n : net) : Prop := exists k, holding D p k 1 n.

Lemma hold_taken p n : settled D n -> p ∈ server_base n -> taken D p (update_server p (on_link (fun l => set_refcount (refcount l + 1) l)) n).
Proof.
  intros (H1 & H2 & H3) Hp. destruct (H2 p Hp) as (s & Hs & Hr & Hu). exists (length (s_volumes s)). split_and!; cbn; [done| |intros q Hq; apply H3|].
  - intros q Hq Hqp. destruct (H2 q Hq) as (sq & Hsq & ?). exists sq. cbn. rewrite lookup_alter_ne by congruence. done.
  - rewrite lookup_alter in Hq. case_decide; [subst; by rewrite Hs|done].
  - eexists. rewrite lookup_alter_eq, Hs. split; [done|]. cbn. rewrite Hr, bool_decide_eq_true_2 by done. by split_and!.
Qed.

Lemma runs_taken p {A} (m : N E A) Q : (forall k, runs (holding D p k 1) m Q) -> runs (taken D p) m Q.
Proof. intros Hm n e [k Hk]. by apply (Hm k). Qed.

Lemma runs_some {X} (W : X -> net -> Prop) (F : X -> Prop) {A} (m : N E A) Q :
  (forall x, F x -> runs (W x) m Q) -> runs (fun n => exists x, W x n /\ F x) m Q.
Proof. intros Hm n e (x & Hx & HF). by apply (Hm x HF). Qed.

Lemma held_runs find_ : (forall n p, find_ n = Some p -> p ∈ server_base n) ->
  runs (settled D) (held find_) (fun o n => match o with Some p => taken D p n | None => settled D n end).
Proof.
  intros Hf. unfold held, section. eapply runs_bind; [apply runs_call|]. intros ? n e Hn. cbn [fst snd]. destruct (find_ n) as [p|] eqn:Ef.
  - eexists _, _, _. split; [done|]. by apply hold_taken, Hf.
  - by exists None, n, e.
Qed.

Lemma first_server_in test h base p : first_server test h base = Some p -> p ∈ base.
Proof. induction base as [|q base IH]; cbn [first_server]; [done|]. destruct (h !! q) as [s|]; [destruct (test s); [intros [= ->]; by left|]|]; intros Hp; right; by apply IH. Qed.

Lemma pointer_runs target : runs (settled D) (find_server_by_pointer target) (fun o n => match o with Some p => taken D p n | None => settled D n end).
Proof. apply held_runs. intros n p. case_bool_decide; [by intros [= <-]|done]. Qed.

Lemma name_runs name : runs (settled D) (afp_server_find_by_name_hold name) (fun o n => match o with Some p => taken D p n | None => settled D n end).
Proof. apply held_runs. intros n p. apply first_server_in. Qed.

Lemma address_runs address : runs (settled D) (afp_server_find_by_address_hold address) (fun o n => match o with Some p => taken D p n | None => settled D n end).
Proof. apply held_runs. intros n p. apply first_server_in. Qed.

(** What a handler does with a server before it releases it. *)
Lemma releasing p {A} (m : N E A) : (forall k, runs (holding D p k 1) m (fun _ => holding D p k 1)) ->
  runs (taken D p) (let@ o := m in afp_server_release p ;;@ nret o) (fun _ => settled D).
Proof.
  intros Hm. apply runs_taken. intros k. eapply runs_bind; [apply Hm|]. intros o. eapply runs_bind; [apply release_last|]. intros ?. by apply runs_ret.
Qed.

End Found.

(** ** The handlers but connect *)

Section Handlers.
Context {E : Type} {HN : NetEnv E} {HE : Env E} {HA : Alone E}.
Context (heap : Z -> bool) (iconv : list Z -> list Z -> list Z) (rest : config).
Context (stale : list Z) (volume_address : Z * Z -> Z) (volume_of : Z -> Z * Z).
Context (D : Z -> Prop).
Abbreviation runs := (runs (E := handle_table * E)).
Abbreviation keeps p k m := (runs (holding D p k 1) m (fun _ => holding D p k 1)).
Abbreviation at_ease m := (runs (settled D) m (fun _ => settled D)).

Lemma keeps_handles p k i : keeps p k (release_handles (p, i)).
Proof.
  intros n [t e] Hn. unfold release_handles. eexists _, _, _. split; [done|]. apply held_update; [|done|done].
  apply (steady_volumes (fun _ l => alter _ (Z.to_nat i) l)). intros _ l. apply length_alter.
Qed.

Lemma sub_attach_runs p k volname volpassword :
  runs (holding D p k 1) (command_sub_attach_volume heap rest p volname volpassword)
    (fun r n => holding D p k 1 n /\ forall i, fst r = Some i -> 0 <= i < Z.of_nat k).
Proof.
  unfold command_sub_attach_volume. eapply runs_bind; [apply find_volume_runs|]. intros [i|]; [|apply runs_ret; intros n []; done].
  apply runs_pure. intros Hi. specialize (Hi i eq_refl). eapply runs_bind; [by apply keeps_volume_at|]. intros v.
  destruct (attach_state v =? AFP_VOLUME_ATTACHED); [by apply runs_ret|]. destruct (has (v_flags v) HasPassword && _); [by apply runs_ret|].
  eapply runs_bind; [by apply keeps_update_volume|]. intros ?. eapply runs_bind; [by apply keeps_connect_volume|]. intros r.
  destruct (negb (r =? 0)); [by apply runs_ret|]. eapply runs_bind; [apply runs_call|]. intros ?. eapply runs_bind; [apply runs_call|]. intros [now ?].
  eapply runs_bind; [by apply keeps_update_volume|]. intros ?. apply runs_ret. intros n Hn. split; [done|]. by intros ? [= <-].
Qed.

Lemma keeps_attach p k volname volpassword options : keeps p k (attach_volume heap rest p volname volpassword options).
Proof.
  unfold attach_volume. eapply runs_bind; [apply sub_attach_runs|]. intros [i result]. cbn [fst].
  eapply runs_bind with (Q1 := fun r n => holding D p k 1 n /\ forall i, fst r = Some i -> 0 <= i < Z.of_nat k).
  - destruct i as [i|]; [apply runs_ret; by intros n []|]. destruct (result =? _); [|by apply runs_ret; intros n []].
    eapply runs_bind; [eapply runs_from; [|apply find_volume_runs]; by intros n []|]. intros j. by apply runs_ret.
  - intros [j r]. cbn [fst]. apply runs_pure. intros Hj. destruct j as [j|]; [|apply held_ret]. specialize (Hj j eq_refl).
    apply held_bind; [by apply keeps_update_volume|]. intros ?. apply held_ret.
Qed.

Lemma attach_ease size mem : at_ease (process_attach heap rest volume_address size mem).
Proof.
  unfold process_attach. cbv zeta. destruct (size <? _); [by apply runs_ret|]. eapply runs_bind; [apply pointer_runs|].
  intros [p|]; [|by apply runs_ret]. apply runs_taken. intros k. eapply runs_bind; [apply keeps_deref|]. intros sv.
  eapply runs_from; [|apply releasing]; [intros n Hn; by exists k|]. intros k'. destruct (negb _); [apply held_ret|].
  apply held_bind; [apply keeps_attach|]. intros [i r]. apply held_ret.
Qed.

Lemma volume_held_runs test : runs (settled D) (volume_held test) (fun o n => match o with
  | Some (p, i) => exists k, holding D p k 1 n /\ 0 <= i < Z.of_nat k | None => settled D n end).
Proof.
  unfold volume_held, section. eapply runs_bind; [apply runs_call|]. intros ? n e Hn. cbn [fst snd]. destruct (first_volume _ _ _) as [[p i]|] eqn:Ef.
  - eexists _, _, _. split; [done|]. apply first_volume_in in Ef as (Hp & s & Hs & Hi). destruct (hold_taken D p n Hn Hp) as [k Hk].
    exists k. split; [done|]. destruct Hk as (_ & _ & _ & s' & Hs' & _ & _ & _ & Hk). cbn in Hs'. rewrite lookup_alter_eq, Hs in Hs'.
    injection Hs' as <-. cbn in Hk. unfold zlen in Hi. lia.
  - by exists None, n, e.
Qed.

Lemma detach_ease size mem : at_ease (process_detach heap rest stale volume_of size mem).
Proof.
  unfold process_detach. cbv zeta. eapply runs_bind; [apply volume_held_runs|]. intros [[p i]|]; [|by apply runs_ret].
  apply runs_some. intros k Hi.
  eapply runs_bind; [by apply keeps_volume_at|]. intros v. eapply runs_bind with (Q1 := fun _ => holding D p k 1).
  - destruct (negb _); [apply held_ret|]. apply held_bind; [apply keeps_handles|]. intros ?. apply held_bind; [by apply keeps_detach|]. intros ?.
    apply held_bind; [by apply keeps_volume_at|]. intros ?. apply held_ret.
  - intros o. eapply runs_bind; [apply release_last|]. intros ?. by apply runs_ret.
Qed.

Lemma disconnect_ease size mem : at_ease (process_disconnect heap rest size mem).
Proof.
  unfold process_disconnect. cbv zeta. destruct (size <? _); [by apply runs_ret|]. eapply runs_bind; [apply pointer_runs|].
  intros [p|]; [|by apply runs_ret]. apply runs_taken. intros k.
  eapply runs_bind; [apply keeps_each; [|done]; intros i Hi; apply held_bind; [apply keeps_handles|intros ?; apply held_ret]|]. intros ?.
  eapply runs_bind; [apply keeps_unmount_all|]. intros ?. eapply runs_bind; [apply runs_call|]. intros ?.
  eapply runs_bind; [apply keeps_remove|]. intros ?. eapply runs_bind; [apply release_last|]. intros ?. by apply runs_ret.
Qed.

Lemma getvolid_ease size mem : at_ease (process_getvolid heap stale volume_address size mem).
Proof.
  unfold process_getvolid. cbv zeta. destruct (size <? _); [by apply runs_ret|]. eapply runs_bind; [apply pointer_runs|].
  intros [p|]; [|by apply runs_ret]. apply runs_taken. intros k. eapply runs_bind; [apply keeps_deref|]. intros sv.
  eapply runs_from; [|apply releasing]; [intros n Hn; by exists k|]. intros k'. destruct (negb _); [apply held_ret|].
  eapply runs_bind; [apply find_volume_runs|]. intros [i|]; [|by apply runs_ret; intros n []]. apply runs_pure. intros Hi.
  apply held_bind; [by apply keeps_volume_at, Hi|]. intros ?. apply held_ret.
Qed.

Lemma getvols_ease size mem : at_ease (process_getvols heap size mem).
Proof.
  unfold process_getvols. cbv zeta. destruct (_ || _); [by apply runs_ret|]. eapply runs_bind; [apply pointer_runs|].
  intros [p|]; [|by apply runs_ret]. apply runs_taken. intros k. eapply runs_bind; [apply keeps_deref|]. intros sv.
  eapply runs_bind; [apply release_last|]. intros ?. by apply runs_ret.
Qed.

Lemma changepw_ease size mem : at_ease (process_changepw stale size mem).
Proof.
  unfold process_changepw. cbv zeta. destruct (size <? _); [by apply runs_ret|]. eapply runs_bind; [apply name_runs|].
  intros [p|]; [|by apply runs_ret]. apply runs_taken. intros k. eapply runs_bind; [apply keeps_deref|]. intros sv.
  eapply runs_bind; [apply runs_call|]. intros ?. eapply runs_bind; [apply release_last|]. intros ?. by apply runs_ret.
Qed.

End Handlers.

(** ** Connections beside the listed servers *)

Abbreviation anywhere := (fun _ : Z => True).

Section Beside.
Context {E : Type} {HN : NetEnv E} {HE : Env E} {HA : Alone E}.
Context (heap : Z -> bool) (iconv : list Z -> list Z -> list Z).
Abbreviation runs := (runs (E := E)).

(** A temporary server is freed, and the others are as before. *)
Lemma remove_result n0 p b c : Forall (fun q => is_Some (servers n0 !! q)) (server_base n0) ->
  runs (own n0 p b c (fun _ => True)) (afp_server_remove p) (fun r n => if b then plain n0 n /\ r = 0 else own n0 p false c (fun _ => True) n /\ r <> 0).
Proof.
  intros Hl. destruct b; [|].
  - intros n e Hn. destruct (remove_runs n0 Hl p true c n e Hn) as (r & n' & e' & Er & Hn'). exists r, n', e'. split; [done|]. split; [done|].
    revert Er. unfold afp_server_remove, nbind. destruct (section _ _) as [[found|] [n1 e1]] eqn:Es; [|done].
    assert (found = true) as ->.
    { unfold section, nbind, ncall, unlink_server in Es. pose proof (alone _ Yield n e) as Ha. destruct (answer_net Yield (n, e)) as [? [n2 e2]].
      cbn [fst snd] in *. subst n2. rewrite (own_found n0 Hl p true c _ n Hn) in Es. congruence. }
    cbn [negb]. destruct (disconnect_server p (n1, e1)) as [[?|] ?]; [|done]. destruct (afp_server_release p _) as [[?|] ?]; [|done]. unfold nret. congruence.
  - unfold afp_server_remove, section. eapply runs_bind with (Q1 := fun found n => own n0 p false c (fun _ => True) n /\ found = false).
    + eapply runs_bind; [apply runs_call|]. intros ? n e Hn. unfold unlink_server. cbn [fst snd]. rewrite (own_found n0 Hl p false c _ n Hn). by exists false, n, e.
    + intros found. apply runs_pure. intros ->. cbn [negb]. by apply runs_ret.
Qed.

Lemma free_runs n0 p c : runs (own n0 p false c (fun _ => True)) (afp_free_server p) (fun _ => plain n0).
Proof.
  intros n e (H1 & H2 & H3 & s & Hs & _). unfold afp_free_server, nbind, deref. cbn [fst]. rewrite Hs. eexists _, _, _. split; [done|]. split; [|done].
  intros q s1 Hq. cbn. rewrite lookup_delete_ne by congruence. by apply H1.
Qed.

Lemma plain_errno n0 e : runs (plain n0) (set_errno_to e) (fun _ => plain n0).
Proof. apply runs_set. intros n [H1 H2]. by split. Qed.

(** The end of a temporary server, which may not have been listed. *)
Lemma gone_runs n0 p S (free : N E unit) : Forall (fun q => is_Some (servers n0 !! q)) (server_base n0) ->
  (forall c, runs (own n0 p false c (fun _ => True)) free (fun _ => plain n0)) ->
  runs (either n0 p S) (let@ r := afp_server_remove p in if negb (r =? 0) then free else nret tt) (fun _ => plain n0).
Proof.
  intros Hl Hf. apply runs_either. intros b. eapply runs_bind.
  { eapply runs_from; [|apply (remove_result n0 p b (negb b) Hl)]. intros n (H1 & H2 & H3 & s & Hs & Hr & Hc & _). split_and!; try done. by exists s. }
  intros r. destruct b.
  - apply runs_pure. intros ->. cbn. by apply runs_ret.
  - apply runs_pure. intros Hr. apply Z.eqb_neq in Hr. rewrite Hr. apply Hf.
Qed.

Lemma either_errno n0 p S e : runs (either n0 p S) (set_errno_to e) (fun _ => either n0 p S).
Proof. apply runs_set. intros n [b (H1 & H2 & H3 & Hs)]. exists b. by split_and!. Qed.

Lemma probe_runs n0 address : Forall (fun q => is_Some (servers n0 !! q)) (server_base n0) ->
  runs (plain n0) (afp_server_probe_signature heap iconv address) (fun _ => plain n0).
Proof.
  intros Hl. unfold afp_server_probe_signature. eapply runs_bind; [apply init_runs|].
  intros [p|]; [|eapply runs_bind; [apply plain_errno|]; intros ?; by apply runs_ret].
  eapply runs_bind; [eapply runs_from; [|by apply (connect_runs heap iconv n0 Hl (fun _ => True) any_status p true (fun _ => True) (fun _ => True))]|].
  { intros n (H1 & H2 & H3 & s & Hs & Hr & Hf & _). split_and!; try done. by exists s. }
  intros ret. eapply runs_bind with (Q1 := fun _ => either n0 p (fun _ => True)); [apply runs_either; intros b; eapply runs_to; [|apply keep_deref]; intros ? n Hn; by exists b|]. intros s. cbv zeta.
  assert (Hg : runs (either n0 p (fun _ => True)) (let@ r := afp_server_remove p in if negb (r =? 0) then afp_free_server p else nret tt) (fun _ => plain n0)).
  { apply gone_runs; [done|]. intros c. apply free_runs. }
  destruct (_ && _); [eapply runs_bind; [exact Hg|]; intros ?; by apply runs_ret|].
  eapply runs_bind; [apply runs_get|]. intros e. eapply runs_bind with (Q1 := fun _ => either n0 p (fun _ => True)).
  - destruct (ret =? 0); [apply either_errno|]. destruct (e =? 0); [apply either_errno|by apply runs_ret].
  - intros ?. eapply runs_bind; [exact Hg|]. intros ?. by apply runs_ret.
Qed.

End Beside.

Section Reconnect.
Context {E : Type} {HN : NetEnv E} {HE : Env E} {HA : Alone E}.
Context (heap : Z -> bool) (iconv : list Z -> list Z -> list Z) (rest : config).
Abbreviation runs := (runs (E := E)).

Lemma settled_listed D n : settled D n -> Forall (fun q => is_Some (servers n !! q)) (server_base n).
Proof. intros (_ & H & _). apply Forall_forall. intros q Hq. destruct (H q Hq) as (s & -> & _). done. Qed.

Lemma at_rest_old n0 n q : old n0 n -> at_rest n0 q -> at_rest n q.
Proof. intros Ho (s & Hs & ?). exists s. split; [by apply Ho|done]. Qed.

Lemma settled_plain n0 n : settled anywhere n0 -> plain n0 n -> settled anywhere n.
Proof. intros (H1 & H2 & _) [Ho Hb]. unfold settled. rewrite Hb. split_and!; [done| |done]. intros q Hq. eapply at_rest_old; [done|by apply H2]. Qed.

Lemma holding_plain n0 n p k x : holding anywhere p k x n0 -> plain n0 n -> holding anywhere p k x n.
Proof.
  intros (H1 & H2 & _ & s & Hs & H4) [Ho Hb]. unfold holding. rewrite Hb. split_and!; [done| |done|].
  - intros q Hq Hqp. eapply at_rest_old; [done|by apply H2].
  - exists s. split; [by apply Ho|done].
Qed.

Lemma holding_listed D p k x n : holding D p k x n -> Forall (fun q => is_Some (servers n !! q)) (server_base n).
Proof.
  intros (_ & H2 & _ & s & Hs & _). apply Forall_forall. intros q Hq. destruct (decide (q = p)) as [->|Hqp]; [by rewrite Hs|].
  destruct (H2 q Hq Hqp) as (sq & -> & _). done.
Qed.

(** Programs that leave the servers from before as they were. *)
Lemma beside_settled {A} (m : N E A) : (forall n0, Forall (fun q => is_Some (servers n0 !! q)) (server_base n0) -> runs (plain n0) m (fun _ => plain n0)) ->
  runs (settled anywhere) m (fun _ => settled anywhere).
Proof.
  intros Hm n e Hn. destruct (Hm n (settled_listed _ n Hn) n e) as (a & n' & e' & Em & Hp); [by split; [intros q s|]|].
  exists a, n', e'. split; [done|]. by eapply settled_plain.
Qed.

Lemma beside_holding {A} (m : N E A) p k x : (forall n0, Forall (fun q => is_Some (servers n0 !! q)) (server_base n0) -> runs (plain n0) m (fun _ => plain n0)) ->
  runs (holding anywhere p k x) m (fun _ => holding anywhere p k x).
Proof.
  intros Hm n e Hn. destruct (Hm n (holding_listed _ _ _ _ n Hn) n e) as (a & n' & e' & Em & Hp); [by split; [intros q s|]|].
  exists a, n', e'. split; [done|]. by eapply holding_plain.
Qed.

Section Again.
Context (D : Z -> Prop) (p : Z) (k : nat) (x : Z).
Abbreviation held_ := (holding D p k x).
Abbreviation keeps m := (runs held_ m (fun _ => held_)).

Lemma listed_unless_destroyed s n : held_ n -> servers n !! p = Some s -> connect_state (s_link s) <> SERVER_STATE_DESTROYED -> p ∈ server_base n.
Proof. intros (_ & _ & _ & s' & Hs' & _ & Hd & _) Hs Hc. assert (s' = s) as -> by congruence. destruct (decide (p ∈ server_base n)); [done|]. by destruct Hc; apply Hd. Qed.

Lemma keeps_publish d a : keeps (publish p d a).
Proof.
  unfold publish. apply held_bind; [apply keeps_call|]. intros ?. eapply runs_bind; [apply deref_runs|]. intros s.
  destruct (_ =? _) eqn:Es; [by apply runs_ret; intros n []|]. apply Z.eqb_neq in Es.
  eapply runs_bind with (Q1 := fun _ n => held_ n /\ p ∈ server_base n).
  { intros n e Hn. pose proof (listed_unless_destroyed s n (proj1 Hn) (proj2 Hn) Es) as Hp.
    destruct Hn as [Hn Hs]. unfold update, nbind, deref. cbn [fst]. rewrite Hs. eexists _, _, _. split; [done|]. cbn [fst]. split; [|done].
    apply held_update; [steadily| |done]. intros s' Hs' Hd. congruence. }
  intros ?. eapply runs_bind with (Q1 := fun _ => held_); [apply runs_set; intros n [Hn Hp]; by rewrite bool_decide_eq_true_2|]. intros ?. holding_on.
Qed.

Lemma keeps_addresses addresses : keeps (try_addresses addresses).
Proof. induction addresses as [|a next IH]; cbn [try_addresses]; [apply held_ret|]. unfold connect_with_timeout, or_errno. holding_on; exact IH. Qed.

Lemma keeps_connect full : keeps (afp_server_connect heap iconv p full).
Proof. unfold afp_server_connect, loop_close_descriptor, read_status, identify. holding_on; try apply keeps_addresses; apply keeps_publish. Qed.

Lemma keeps_login : keeps (afp_server_login p).
Proof. unfold afp_server_login. holding_on. Qed.

Lemma keeps_settle : keeps (settle_reconnect p).
Proof.
  unfold settle_reconnect. apply held_bind; [apply keeps_call|]. intros ?. eapply runs_bind; [apply deref_runs|]. intros s.
  destruct (_ || _) eqn:Eb; [by apply runs_ret; intros n []|]. apply orb_false_elim in Eb as [_ Eb]. apply negb_false_iff, Z.eqb_eq in Eb.
  eapply runs_bind; [apply keeps_state; [steadily|by rewrite Eb]|]. intros ?. apply held_ret.
Qed.

End Again.

Lemma known_length D p k x s {A} (m : N E A) Q :
  (length (s_volumes s) = k -> runs (holding D p k x) m Q) -> runs (fun n => holding D p k x n /\ servers n !! p = Some s) m Q.
Proof. intros Hm n e [Hn Hp]. destruct (Hn) as (_ & _ & _ & s' & Hs' & _ & _ & _ & Hk). assert (s' = s) as -> by congruence. by apply Hm. Qed.

Lemma keeps_reopen D p k more i ret : 0 <= i -> runs (holding D p k 1) (reopen_volumes heap rest more p i ret) (fun _ => holding D p k 1).
Proof.
  revert i ret. induction more as [|more IH]; intros i ret Hi; cbn [reopen_volumes]; (eapply runs_bind; [apply deref_runs|]); intros s;
    apply known_length; intros Hk; (destruct (i <? zlen (s_volumes s)) eqn:El; [|apply held_ret]); [apply held_ret|].
  assert (Hr : 0 <= i < Z.of_nat k) by (unfold zlen in *; lia).
  holding_on; first [by apply keeps_connect_volume|apply IH; lia].
Qed.

Lemma keeps_reconnect p k : runs (holding anywhere p k 1) (afp_server_reconnect heap iconv rest p) (fun _ => holding anywhere p k 1).
Proof.
  unfold afp_server_reconnect, reconnect_steps. holding_on; try apply keeps_disconnect; try apply keeps_connect; try apply keeps_login;
    try (by apply keeps_reopen); try apply keeps_settle. apply beside_holding. intros n0. apply probe_runs.
Qed.

End Reconnect.

Section Connect.
Context {E : Type} {HN : NetEnv E} {HE : Env E} {HA : Alone E}.
Context (heap : Z -> bool) (iconv : list Z -> list Z -> list Z) (rest : config).
Abbreviation runs := (runs (E := handle_table * E)).
Abbreviation at_ease m := (runs (settled anywhere) m (fun _ => settled anywhere)).

Lemma resumable_runs u mask : runs (settled anywhere) (find_resumable_server_hold u mask) (fun r n => match fst r with Some p => taken anywhere p n | None => settled anywhere n end).
Proof.
  unfold find_resumable_server_hold, section. eapply runs_bind; [apply runs_call|]. intros address. eapply runs_bind; [apply runs_call|].
  intros ? n e Hn. cbn [fst snd]. destruct (one_of _) as [[p|] err] eqn:Eo; eexists _, _, _; (split; [done|]); [|done].
  apply hold_taken; [done|]. by eapply one_of_in.
Qed.

Lemma disconnected_runs u mask : runs (settled anywhere) (find_disconnected_server_hold heap iconv u mask)
  (fun r n => match fst r with Some (p, _) => taken anywhere p n | None => settled anywhere n end).
Proof.
  unfold find_disconnected_server_hold, section. eapply runs_bind; [apply runs_call|]. intros [address|]; [|by apply runs_ret].
  eapply runs_bind with (Q1 := fun _ => settled anywhere); [eapply runs_bind; [apply runs_call|]; intros ? n e Hn; by eexists _, _, _|].
  intros possible. destruct (negb possible); [by apply runs_ret|].
  eapply runs_bind; [apply beside_settled; intros n0; apply probe_runs|]. intros [sig|]; [|eapply runs_bind; [apply runs_get|]; intros ?; by apply runs_ret].
  eapply runs_bind; [apply runs_call|].
  intros ? n e Hn. cbn [fst snd]. destruct (one_of _) as [[p|] err] eqn:Eo; eexists _, _, _; (split; [done|]); [|done].
  apply hold_taken; [done|]. by eapply one_of_in.
Qed.

Lemma full_connect_ease u requested mask :
  runs (settled anywhere) (afp_server_full_connect heap iconv u requested mask) (fun o n => settled anywhere n /\ forall p, o = Some p -> is_Some (servers n !! p)).
Proof.
  intros n e Hn. destruct (full_connect_runs heap iconv n (settled_listed _ n Hn) (fun _ => True) any_status u requested mask n e) as (o & n' & e' & Em & Ho); [by split; [intros q s|]|].
  exists o, n', e'. split; [done|]. destruct o as [p|]; [|split; [by eapply settled_plain|done]].
  destruct Ho as (reply & _ & version & Ev & H1 & H2 & H3 & s & Hs & Hr & _ & (Hp & Hv & Hu) & _). split; [|intros q [= <-]; by rewrite Hs].
  destruct Hn as (N1 & N2 & _). assert (Hnew : p ∉ server_base n) by (intros Hp'; destruct (N2 p Hp') as (s' & Hs' & _); congruence).
  split_and!; [rewrite H3; by constructor| |done]. rewrite H3. intros q [->|Hq]%elem_of_cons; [exists s; split_and!; [done|done|by exists version]|].
  eapply at_rest_old; [done|by apply N2].
Qed.

Lemma answer_keeps D p k mem result error : runs (holding D p k 1) (session_answer mem result error p) (fun _ => holding D p k 1).
Proof. unfold session_answer. holding_on. Qed.

Lemma connect_ease size mem : at_ease (process_connect heap iconv rest size mem).
Proof.
  unfold process_connect. cbv zeta. destruct (size <? _); [by apply runs_ret|]. destruct (has _ _).
  - destruct (negb _); [by apply runs_ret|]. eapply runs_bind; [apply resumable_runs|]. intros [[p|] error]; cbn [fst]; [|by apply runs_ret].
    apply releasing. intros k. apply answer_keeps.
  - eapply runs_bind; [apply disconnected_runs|]. intros [[[p address]|] error]; cbn [fst].
    + apply runs_taken. intros k. eapply runs_bind with (Q1 := fun _ => holding anywhere p k 1).
      { unfold reconnect_disconnected_server, afp_server_replace_address, no_password. holding_on. apply keeps_reconnect. }
      intros r. destruct (r =? 0).
      * eapply runs_from; [|apply releasing; intros k'; apply answer_keeps]. intros n Hn. by exists k.
      * eapply runs_bind; [apply runs_get|]. intros e. eapply runs_bind; [apply release_last|]. intros ?. by apply runs_ret.
    + destruct (_ || _); [by apply runs_ret|]. eapply runs_bind; [apply full_connect_ease|].
      intros [p|]; [|eapply runs_bind; [eapply runs_from; [|apply runs_get]; by intros n []|]; intros ?; by apply runs_ret].
      intros n e [Hn Hp]. destruct (Hp p eq_refl) as [s Hs]. unfold session_answer, nbind, deref, nret. cbn [fst]. rewrite Hs. by eexists _, _, _.
Qed.

Lemma serverinfo_ease size mem : at_ease (process_serverinfo heap iconv size mem).
Proof.
  unfold process_serverinfo. cbv zeta. destruct (size <? _); [by apply runs_ret|]. eapply runs_bind; [apply name_runs|]. intros s1.
  eapply runs_bind with (Q1 := fun o n => match o with Some p => taken anywhere p n | None => settled anywhere n end).
  { destruct s1 as [p|]; [by apply runs_ret|]. eapply runs_bind; [apply runs_call|]. intros [address|]; [apply address_runs|by apply runs_ret]. }
  intros [p|]; [apply runs_taken; intros k; eapply runs_bind; [apply keeps_deref|]; intros sv; eapply runs_bind; [apply release_last|]; intros ?; by apply runs_ret|].
  eapply runs_bind; [apply runs_call|]. intros [address|]; [|by apply runs_ret]. apply beside_settled. intros n0 Hl.
  eapply runs_bind; [apply init_runs|]. intros [p|]; [|by apply runs_ret].
  eapply runs_bind; [eapply runs_from; [|by apply (connect_runs heap iconv n0 Hl (fun _ => True) any_status p true (fun _ => True) (fun _ => True))]|].
  { intros n (H1 & H2 & H3 & s & Hs & Hr & Hf & _). split_and!; try done. by exists s. }
  intros r. destruct (r <? 0).
  - apply runs_either. intros b. eapply runs_bind; [apply (remove_result n0 p b (negb b) Hl)|]. intros x. destruct b; apply runs_pure; intros Hx.
    + subst x. cbn. eapply runs_bind with (Q1 := fun _ => plain n0); [by apply runs_ret|]. intros ?. by apply runs_ret.
    + apply Z.eqb_neq in Hx. rewrite Hx. eapply runs_bind; [apply release_runs|]. intros ?. by apply runs_ret.
  - eapply runs_bind with (Q1 := fun _ => either n0 p (fun _ => True)); [apply runs_either; intros b; eapply runs_to; [|apply keep_deref]; intros ? n Hn; by exists b|].
    intros sv. eapply runs_bind; [by apply remove_either|]. intros ?. by apply runs_ret.
Qed.

End Connect.

(** ** Every request of a session *)

Lemma settled_anywhere D n : settled D n -> settled anywhere n.
Proof. by intros (H1 & H2 & _). Qed.

(** C18: the list of servers between requests. While no other thread changes
    the servers, and every listed server is allocated, with a protocol version
    and only the list's reference: whatever a client sends for a session's
    command and whatever the network answers, the handler ends without using a
    freed server, and leaves the list in that state; and no handler but those
    of connect and serverinfo leaves a server allocated that was not. *)
Theorem session_commands_settled {E} {HN : NetEnv E} {HE : Env E} {HA : Alone E} heap iconv rest stale volume_address volume_of
    command handler size mem n t (e : E) :
  settled anywhere n ->
  session_handler heap iconv rest stale volume_address volume_of command = Some handler ->
  exists o n' t' e', handler size mem (n, (t, e)) = (Some o, (n', (t', e'))) /\ settled anywhere n'
    /\ (command <> AFPSL_IPC_COMMAND_CONNECT -> command <> AFPSL_IPC_COMMAND_SERVERINFO ->
        forall q, is_Some (servers n' !! q) -> is_Some (servers n !! q)).
Proof.
  intros Hn. set (D := fun q => is_Some (servers n !! q)). assert (HD : settled D n) by (destruct Hn as (H1 & H2 & _); by split_and!).
  assert (Hin : forall m : N (handle_table * E) outcome, runs (settled D) m (fun _ => settled D) -> exists o n' t' e', m (n, (t, e)) = (Some o, (n', (t', e'))) /\ settled anywhere n'
    /\ (command <> AFPSL_IPC_COMMAND_CONNECT -> command <> AFPSL_IPC_COMMAND_SERVERINFO -> forall q, is_Some (servers n' !! q) -> is_Some (servers n !! q))).
  { intros m Hm. destruct (Hm n (t, e) HD) as (o & n' & [t' e'] & Em & Hn'). exists o, n', t', e'. split; [done|].
    split; [by eapply settled_anywhere|]. intros _ _. apply Hn'. }
  assert (Hout : forall m : N (handle_table * E) outcome, command = AFPSL_IPC_COMMAND_CONNECT \/ command = AFPSL_IPC_COMMAND_SERVERINFO ->
    runs (settled anywhere) m (fun _ => settled anywhere) -> exists o n' t' e', m (n, (t, e)) = (Some o, (n', (t', e'))) /\ settled anywhere n'
    /\ (command <> AFPSL_IPC_COMMAND_CONNECT -> command <> AFPSL_IPC_COMMAND_SERVERINFO -> forall q, is_Some (servers n' !! q) -> is_Some (servers n !! q))).
  { intros m Hc Hm. destruct (Hm n (t, e) Hn) as (o & n' & [t' e'] & Em & Hn'). exists o, n', t', e'. split; [done|]. split; [done|]. intros Hc1 Hc2. by destruct Hc. }
  unfold session_handler. repeat (case_if; [intros [= <-]|]); bool_to_prop; try done.
  - apply Hout; [by right|apply serverinfo_ease].
  - apply Hout; [by left|apply connect_ease].
  - apply Hin, attach_ease.
  - apply Hin, detach_ease.
  - apply Hin, getvolid_ease.
  - apply Hin, getvols_ease.
  - apply Hin, disconnect_ease.
  - apply Hin, changepw_ease.
Qed.

(** ** The session a resumption takes *)

(** What a session must be for a client that resumes one: connected, at an
    address the name now has, of the user and a method the client allows, where
    it says so, and of a server with an identity. *)
Definition resumable (address : list addrinfo) (u : afpc_url) (uam_mask : Z) (s : afp_server) : Prop :=
  connect_state (s_link s) = SERVER_STATE_CONNECTED /\ 0 <= fd (s_link s)
  /\ (exists used a b, used_address (s_link s) = Some used /\ ai_addr used = Some a /\ b ∈ address /\ ai_addr b = Some a)
  /\ (u_username u = [] \/ username (s_login s) = u_username u)
  /\ (uam_mask = 0 \/ using_uam (s_login s) = 0 \/ Z.land (using_uam (s_login s)) uam_mask <> 0)
  /\ ss_signature (s_status s) <> zero_bytes AFP_SIGNATURE_LEN.

Lemma same_address_iff used address : same_address used address = true <->
  exists w a b, used = Some w /\ ai_addr w = Some a /\ b ∈ address /\ ai_addr b = Some a.
Proof.
  unfold same_address. destruct used as [w|]; [|split; [done|by intros (? & ? & ? & ? & _)]].
  destruct (ai_addr w) as [a|] eqn:Ea; [|split; [done|intros (? & ? & ? & [= <-] & ? & _); congruence]]. rewrite existsb_exists. split.
  - intros (b & Hb & Ht). destruct (ai_addr b) as [c|] eqn:Eb; [|done]. apply list_eqb_eq in Ht as <-. exists w, a, b. by rewrite list_elem_of_In.
  - intros (? & a' & b & [= <-] & Ha & Hb & Eb). exists b. rewrite <- list_elem_of_In, Eb. split; [done|]. apply list_eqb_eq. congruence.
Qed.

Lemma looks_fitting address u uam_mask s : look_resumable address u uam_mask s = Fits <->
  is_connected s = true /\ same_address (used_address (s_link s)) address = true
  /\ ((zlen (u_username u) =? 0) || list_eqb (username (s_login s)) (u_username u)) = true /\ uam_refused s uam_mask = false
  /\ afp_server_has_valid_signature s = true.
Proof.
  unfold look_resumable, server_address_matches.
  destruct (is_connected s), (same_address _ _), (zlen (u_username u) =? 0), (list_eqb (username _) _), (uam_refused s uam_mask), (afp_server_has_valid_signature s); cbn; intuition congruence.
Qed.

Lemma looks_resumable address u uam_mask s : look_resumable address u uam_mask s = Fits <-> resumable address u uam_mask s.
Proof.
  rewrite looks_fitting, same_address_iff. unfold resumable, is_connected, uam_refused, afp_server_has_valid_signature, has.
  rewrite andb_true_iff, orb_true_iff, !andb_false_iff, negb_true_iff, !negb_false_iff, !Z.eqb_eq, Z.geb_leb, Z.leb_le, !list_eqb_eq.
  rewrite <- not_true_iff_false, list_eqb_eq, negb_true_iff, Z.eqb_neq. unfold zlen.
  assert (Hu : Z.of_nat (length (u_username u)) = 0 <-> u_username u = []) by (destruct (u_username u); cbn; [done|split; [lia|done]]).
  rewrite Hu. tauto.
Qed.

(** The servers a scan takes. *)
Definition fitting (look : afp_server -> verdict) (h : gmap Z afp_server) (base : list Z) : list Z :=
  List.filter (fun p => match look <$> h !! p with Some Fits => true | _ => false end) base.

Lemma scan_spec look h base found doubt : exists d, scan look h base found doubt =
  match found, fitting look h base with
  | f, [] => (f, d, false)
  | None, [p] => (Some p, d, false)
  | None, _ :: q :: _ => (Some q, d, true)
  | Some _, p :: _ => (Some p, d, true)
  end.
Proof.
  revert found doubt. induction base as [|q base IH]; intros found doubt; cbn [scan fitting List.filter]; [exists doubt; by destruct found|].
  fold (fitting look h base). destruct (look <$> h !! q) as [[| |]|]; try apply IH. destruct found as [f|]; [by exists doubt|].
  destruct (IH (Some q) doubt) as [d ->]. exists d. by destruct (fitting look h base).
Qed.

Lemma one_of_one look h base p : fitting look h base = [p] -> one_of (scan look h base None false) = (Some p, ENOTCONN).
Proof. intros Hf. destruct (scan_spec look h base None false) as [d ->]. by rewrite Hf. Qed.

Lemma one_of_none look h base : (forall p, fitting look h base <> [p]) ->
  exists e, one_of (scan look h base None false) = (None, e) /\ (e = EEXIST \/ e = EPROTO \/ e = ENOTCONN).
Proof.
  intros Hf. destruct (scan_spec look h base None false) as [d ->]. destruct (fitting look h base) as [|p [|q l]]; [|by destruct (Hf p)|].
  - exists (if d then EPROTO else ENOTCONN). split; [by destruct d|destruct d; tauto].
  - exists EEXIST. tauto.
Qed.

(** A reference taken and released. *)
Lemma hold_release p s n : servers n !! p = Some s ->
  update_server p (on_link (fun l => set_refcount (refcount l - 1) l)) (update_server p (on_link (fun l => set_refcount (refcount l + 1) l)) n) = n.
Proof.
  intros Hs. destruct n as [h b r m a e]. unfold update_server, set_servers in *. cbn in *. f_equal. apply map_eq. intros q. rewrite !lookup_alter.
  case_decide; [subst q|done]. rewrite decide_True, Hs by done. cbn [fmap option_fmap option_map].
  apply (f_equal Some). destruct s as [[fd0 c0 g0 u0 rc i0 j0]]. unfold on_link, set_link, set_refcount. cbn. by replace (rc + 1 - 1) with rc by lia.
Qed.

Lemma release_back {E} {HN : NetEnv E} p s n (e : E) : servers n !! p = Some s -> refcount (s_link s) = 1 ->
  afp_server_release p (update_server p (on_link (fun l => set_refcount (refcount l + 1) l)) n, e) = (Some tt, (n, e)).
Proof.
  intros Hs Hr. unfold afp_server_release, update, nbind, deref, nset. cbn [fst snd]. rewrite (hold_release p s n Hs).
  replace (servers (update_server _ _ n) !! p) with (Some (on_link (fun l => set_refcount (refcount l + 1) l) s)) by (cbn; by rewrite lookup_alter_eq, Hs).
  cbn [fst]. by rewrite Hs, Hr.
Qed.

Section Resume.
Context {E : Type} {HN : NetEnv E} {HE : Env E} {HA : Alone E}.
Context (heap : Z -> bool) (iconv : list Z -> list Z -> list Z) (rest : config).

(** A request to resume a session, with no password. *)
Definition resumes (size : Z) (mem : list Z) : Prop :=
  CONNECT_REQUEST <= size /\ has (le_at mem 908 4) AFPSL_IPC_CONNECT_RESUME_EXISTING = true /\ u_password (url_at mem 16) = [].

(** The addresses the request's server now has. *)
Definition resolved (mem : list Z) (n : net) (e : E) : list addrinfo :=
  default [] (fst (answer_net (Getaddrinfo (u_servername (url_at mem 16)) (u_port (url_at mem 16))) (n, e))).

Abbreviation takes mem n e := (fitting (look_resumable (resolved mem n e) (url_at mem 16) (le_at mem 904 4)) (servers n) (server_base n)).

Lemma resumption size mem n t (e : E) : resumes size mem -> exists e',
  process_connect heap iconv rest size mem (n, (t, e)) =
  (match one_of (scan (look_resumable (resolved mem n e) (url_at mem 16) (le_at mem 904 4)) (servers n) (server_base n) None false) with
   | (Some p, error) => let@ o := session_answer mem AFPSL_IPC_RESULT_ALREADY_CONNECTED error p in afp_server_release p ;;@ nret o
   | (None, error) => nret (answer mem (connect_result error) (connect_body error 0 []))
   end) (match one_of (scan (look_resumable (resolved mem n e) (url_at mem 16) (le_at mem 904 4)) (servers n) (server_base n) None false) with
         | (Some p, _) => update_server p (on_link (fun l => set_refcount (refcount l + 1) l)) n | (None, _) => n end, (t, e')).
Proof.
  intros (H1 & H2 & H3). unfold process_connect, resolved. cbv zeta. rewrite H2, H3. change (zlen ([] : list Z) =? 0) with true. cbn [negb].
  replace (size <? CONNECT_REQUEST) with false by (symmetry; apply Z.ltb_ge; lia).
  unfold find_resumable_server_hold, section, nbind at 1 2 3, ncall, answer_net, table_net. cbv beta iota. pose proof (alone _ (Getaddrinfo (u_servername (url_at mem 16)) (u_port (url_at mem 16))) n e) as Ha.
  unfold answer_net in *. destruct (HN _ (Getaddrinfo _ _) (n, e)) as [address [n1 e1]]. cbn [fst snd] in *. subst n1.
  pose proof (alone _ Yield n e1) as Ha. unfold answer_net in Ha. destruct (HN _ Yield (n, e1)) as [? [n2 e2]]. cbn [fst snd] in *. subst n2. exists e2.
  destruct (one_of _) as [[p|] error]; done.
Qed.

Lemma fitting_in address u mask h base p : p ∈ fitting (look_resumable address u mask) h base <->
  p ∈ base /\ exists s, h !! p = Some s /\ resumable address u mask s.
Proof.
  unfold fitting. rewrite list_elem_of_In, List.filter_In, <- list_elem_of_In. apply and_iff_compat_l.
  destruct (h !! p) as [s|]; cbn [fmap option_fmap option_map]; [|split; [done|by intros (? & ? & _)]].
  split.
  - intros Hl. exists s. split; [done|]. apply looks_resumable. by destruct (look_resumable address u mask s).
  - intros (s' & [= <-] & Hr). apply looks_resumable in Hr. by rewrite Hr.
Qed.

Lemma sole {A} (l : list A) x : NoDup l -> x ∈ l -> (forall y, y ∈ l -> y = x) -> l = [x].
Proof.
  intros Hd Hx Hall. destruct l as [|a l]; [by apply elem_of_nil in Hx|]. assert (a = x) as -> by (apply Hall; by left). destruct l as [|b l]; [done|].
  assert (b = x) as -> by (apply Hall; right; by left). apply NoDup_cons in Hd as [Hd _]. destruct Hd. by left.
Qed.

(** C19: resuming a session. A client that asks to resume a session, without
    a password, gets the one listed server that is connected at an address the
    name has now, of the user and the methods the client named, and of a valid
    signature, together with that server's login message; where there is none,
    or more than one, it gets an error and no server. Nothing of the servers
    changes. *)
Theorem resume_unique size mem n t (e : E) :
  settled anywhere n -> resumes size mem -> let fits := resumable (resolved mem n e) (url_at mem 16) (le_at mem 904 4) in
  exists e', (forall p s, p ∈ server_base n -> servers n !! p = Some s -> fits s ->
      (forall q s', q ∈ server_base n -> servers n !! q = Some s' -> fits s' -> q = p) ->
      process_connect heap iconv rest size mem (n, (t, e)) =
      (Some (answer mem AFPSL_IPC_RESULT_ALREADY_CONNECTED (connect_body ENOTCONN p (s_loginmesg s))), (n, (t, e'))))
    /\ ((forall p s, p ∈ server_base n -> servers n !! p = Some s -> fits s -> exists q s', q ∈ server_base n /\ servers n !! q = Some s' /\ fits s' /\ q <> p) ->
        exists error, process_connect heap iconv rest size mem (n, (t, e)) = (Some (answer mem AFPSL_IPC_RESULT_ERROR (connect_body error 0 [])), (n, (t, e')))).
Proof.
  intros (Hd & Hl & _) Hr fits. destruct (resumption size mem n t e Hr) as [e' He]. exists e'. rewrite He. clear He. split.
  - intros p s Hp Hs Hf Hu. assert (Ho : takes mem n e = [p]).
    { apply sole; [by apply NoDup_ListNoDup, List.NoDup_filter, NoDup_ListNoDup|apply fitting_in; by eauto|]. intros q (Hq & s' & Hs' & Hf')%fitting_in. by eapply Hu. }
    rewrite (one_of_one _ _ _ p Ho). destruct (Hl p Hp) as (s' & Hs' & Hc & _). assert (s' = s) as -> by congruence.
    unfold session_answer, nbind at 1 2, deref. cbn [fst update_server servers set_servers]. rewrite lookup_alter_eq, Hs. cbn [fmap option_fmap option_map nret].
    unfold nbind. change (set_servers (alter ?f p (servers n)) n) with (update_server p f n). by rewrite (release_back p s n).
  - intros Hu. destruct (one_of_none (look_resumable (resolved mem n e) (url_at mem 16) (le_at mem 904 4)) (servers n) (server_base n)) as (error & -> & Herr).
    + intros p Hp. assert (Hin : p ∈ takes mem n e) by (rewrite Hp; by left). apply fitting_in in Hin as (Hb & s & Hs & Hf).
      destruct (Hu p s Hb Hs Hf) as (q & s' & Hq & Hs' & Hf' & Hne). assert (Hin : q ∈ takes mem n e) by (apply fitting_in; by eauto).
      rewrite Hp in Hin. by apply list_elem_of_singleton in Hin.
    + exists error. unfold nret. by destruct Herr as [->|[->| ->]].
Qed.

End Resume.

(** ** The volumes of a session *)

(** From the start of the list, a client gets as many volumes as it asks for
    and there are. *)
Lemma getvols_from_start heap mem volumes count : 0 <= count < 2 ^ 31 -> zlen volumes <= 255 -> (forall size, heap size = true) ->
  getvols_answer heap mem volumes 0 count =
  answer mem AFPSL_IPC_RESULT_OK (le_put 4 (Z.min count (zlen volumes)) ++ zero_bytes 4 ++ concat (map volume_info (take (Z.to_nat count) volumes))).
Proof.
  intros Hc Hv Hh. unfold getvols_answer. rewrite u32_small, !Hh by lia. assert (0 <= zlen volumes) by (unfold zlen; lia).
  replace (if count <? zlen volumes then count else zlen volumes) with (Z.min count (zlen volumes)) by (case_if; bool_to_prop; lia).
  replace (0 >? _) with false by (symmetry; rewrite Z.gtb_ltb; apply Z.ltb_ge; lia). cbn [negb].
  replace (0 + _ >? _) with false by (symmetry; rewrite Z.gtb_ltb; apply Z.ltb_ge; lia). rewrite andb_false_r. do 4 f_equal.
  unfold sub, zlen in *. rewrite drop_0. destruct (Z.leb_spec count (Z.of_nat (length volumes))); [by rewrite Z.min_l by lia|].
  rewrite Z.min_r by lia. by rewrite !take_ge by lia.
Qed.

(** From a later one on, a client that asks for all of them makes the daemon
    read past the array of volumes. *)
Lemma getvols_reads_past heap mem volumes start count : zlen volumes <= count < 2 ^ 31 -> 0 < start <= zlen volumes -> (forall size, heap size = true) ->
  getvols_answer heap mem volumes start count = Undefined.
Proof.
  intros Hc Hs Hh. unfold getvols_answer. assert (0 <= zlen volumes) by (unfold zlen; lia). rewrite u32_small, !Hh by lia.
  replace (count <? zlen volumes) with false by (symmetry; apply Z.ltb_ge; lia).
  replace (start >? _) with false by (symmetry; rewrite Z.gtb_ltb; apply Z.ltb_ge; lia). cbn [negb].
  replace (zlen volumes >? 0) with true by (symmetry; rewrite Z.gtb_ltb; apply Z.ltb_lt; lia).
  by replace (start + _ >? _) with true by (symmetry; rewrite Z.gtb_ltb; apply Z.ltb_lt; lia).
Qed.

(** ** A daemon with one session *)

#[local] Existing Instances answering_net silent_files answering_alone.

Definition live_server : afp_server :=
  set_login (LoginState (str "u") [] 0 (Some (str "AFP3.4", 34)) 0x40)
    (set_link (Link 5 SERVER_STATE_CONNECTED 1 (Some (AddrInfo 2 (Some [1]))) 1 false false) lost_server).

Definition one_session : net := Net {[1 := live_server]} [1] [5] 6 true 0.

Lemma one_session_settled : settled anywhere one_session.
Proof.
  split_and!; [apply NoDup_singleton| |done]. intros q ->%list_elem_of_singleton. exists live_server. split_and!; [done|done|by eexists].
Qed.

Definition disconnect_request : list Z := afpsl_ipc_request_header AFPSL_IPC_COMMAND_DISCONNECT 24 0 ++ zero_bytes 4 ++ le_put 8 1.

(** A disconnect frees the server. *)
Lemma session_commands_settled_witness :
  (exists o n' t' e', process_disconnect (fun _ => true) sample_config 24 disconnect_request (one_session, ((∅ : handle_table), tt)) = (Some o, (n', (t', e')))
     /\ settled anywhere n')
  /\ servers (fst (snd (process_disconnect (fun _ => true) sample_config 24 disconnect_request (one_session, ((∅ : handle_table), tt))))) !! 1 = None.
Proof.
  split; [|by vm_compute].
  destruct (session_commands_settled (E := unit) (fun _ => true) (fun a _ => a) sample_config [] fst (fun z => (z, 0)) AFPSL_IPC_COMMAND_DISCONNECT
    (process_disconnect (fun _ => true) sample_config) 24 disconnect_request one_session ∅ tt one_session_settled eq_refl) as (o & n' & t' & e' & H1 & H2 & _).
  exists o, n', t', e'. split; [exact H1|exact H2].
Defined.

Definition resume_request : list Z :=
  afpsl_ipc_request_header AFPSL_IPC_COMMAND_CONNECT CONNECT_REQUEST 0 ++ zero_bytes 4 ++ zero_bytes 888 ++ le_put 4 0 ++ le_put 4 1.

Lemma resume_unique_witness :
  exists e', process_connect (fun _ => true) (fun a _ => a) sample_config CONNECT_REQUEST resume_request (one_session, ((∅ : handle_table), tt))
    = (Some (answer resume_request AFPSL_IPC_RESULT_ALREADY_CONNECTED (connect_body ENOTCONN 1 [])), (one_session, (∅, e'))).
Proof.
  destruct (resume_unique (E := unit) (fun _ => true) (fun a _ => a) sample_config CONNECT_REQUEST resume_request one_session ∅ tt one_session_settled) as (e' & H & _).
  - split_and!; [done|by vm_compute|by vm_compute].
  - exists e'. apply (H 1 live_server); [by left|done| |intros q s' Hq _ _; by apply list_elem_of_singleton in Hq].
    apply looks_resumable. by vm_compute.
Defined.
